(* ===== verification/_CoqProject ===== *)
-Q . S2P
Prelude.v
Bytes.v
F64.v
Codec.v
RtpPacket.v
Rtcp.v
Ulaw.v
Jitter.v
Dtmf.v
RtpSession.v
RustStr.v
Utf8.v
RateLimiter.v
SipMessage.v
CarrierRetry.v
NetAddr.v
SipUtils.v
Transaction.v
Dialog.v
Auth.v
Registrar.v
MessageLog.v
Uas.v
Sdp.v
SdpRewrite.v
TuProg.v
Uac.v
Observability.v
CallLog.v
Transcoder.v
BridgeStream.v
Routing.v
Bridge.v
Calls.v
TwoKeys.v
Intercom.v
HttpDate.v
Register.v
RegistrationFlow.v
CallSetup.v
SipFields.v
Handler.v
Outbound.v
Legs.v
OutboundLegs.v
SdpAnswer.v
Fork.v
Inbound.v
InboundCalls.v
Tokens.v
Wav.v
Recording.v
BrowserCalls.v
BrowserLegs.v
Tasks.v
Signaling.v
Sessions.v
InternalCalls.v
InternalLegs.v
Transfer.v
Transfers.v
WebPush.v
Endpoint.v
Settings.v
