(* ===== verification/Prelude.v ===== *)
(** * A verification of sabiden

    sabiden (src/) is a back-to-back user agent between the NTT NGN telephone
    network and local extensions: SIP phones, and browsers over WebRTC. This
    development models the Rust code under src/src that speaks the protocols,
    converts the voice and decides about the calls, and proves what makes it
    correct.

    ** How the program is put together

    A datagram from the SIP socket is parsed (sip/message.rs), matched to a
    transaction (sip/transaction.rs) and handed to a user agent: the client
    towards the NGN (sip/uac.rs, with the registration of sip/register.rs), or the
    server for the extensions (sip/uas.rs), which checks digests (sip/auth.rs),
    keeps the bindings (sip/registrar.rs) and sends the calls of bound extensions up
    to the orchestrator. Browsers come in over a WebSocket (webrtc/signaling.rs)
    that a token opens (webrtc/auth.rs), and are bindings of the same registrar.

    The orchestrator (call/orchestrator.rs) has two handlers. One serves the
    extensions: it places their calls to the NGN, past the rate limiter and the
    retry policy (call/rate_limiter.rs, call/carrier_retry.rs), or to another
    extension (call/intercom.rs). The other serves the NGN: it looks up which
    extensions a call rings (call/routing.rs), offers it to all their bindings at
    once, and falls back to the voicemail (call/voicemail/). Both rewrite the
    session descriptions (sdp/) and start a bridge for the voice: a relay
    (call/bridge.rs) or a conversion (call/transcoder.rs), over RTP sessions
    (rtp/) with a jitter buffer per source, RTCP reports, the codecs and DTMF
    events (call/dtmf.rs). The manager (call/manager.rs) owns the bridges.

    ** The files

    Foundations:
    - [Prelude]: results that may be an error or a panic ([outcome], with its
      monad), machine integers at a width, instants and durations, the shared
      tactics and hints.
    - [Bytes], [F64]: fields and slices of byte lists; the binary64 arithmetic
      of the jitter estimate.
    - [RustStr], [Utf8], [NetAddr]: the operations of [str], of UTF-8 decoding
      and of std::net addresses the program uses, with their lemmas.
    - [TwoKeys]: tables found by either of two keys, and the lists they stand
      for.
    - [TuProg]: programs over the transaction layer, run against any network.
    - [Handler]: handlers of the orchestrator as programs on a shared state and
      an outside world, with [follows] and [wp] to reason about them.
    - [Tasks]: tasks as trees of the calls they make, whatever these calls are,
      with [leads] to reason about the calls a task makes from some point on.

    Media:
    - [RtpPacket] (rtp/packet.rs), [Rtcp] (rtp/rtcp.rs): the wire formats.
    - [Ulaw] (rtp/mod.rs), [Codec] (rtp/codec/): the mu-law codec; the wrappers
      of Opus and of the resamplers.
    - [Jitter] (rtp/jitter.rs), [RtpSession] (rtp/session.rs): the reordering
      buffer; sending, demultiplexing by source, the reports.
    - [Dtmf] (call/dtmf.rs): telephone events and the packet train of a key.
    - [Transcoder], [BridgeStream] (call/transcoder.rs): the bridges with
      conversion, and what they promise of the stream they make.
    - [Bridge] (call/bridge.rs, call/codec_pipeline.rs): the relays.
    - [Wav], [Recording] (call/voicemail/, call/recording.rs): the writer of WAV
      files with a reader to hold it against; the voicemail and the recordings
      with their directories.

    SIP:
    - [SipMessage] (sip/message.rs), [SipUtils] (sip/utils.rs), [Transaction]
      (sip/transaction.rs), [Dialog] (sip/dialog.rs), [Auth] (sip/auth.rs).
    - [Registrar] (sip/registrar.rs): the bindings. [RegistrarOps] and
      [RegistrarLaws] are the interface, the table of the code an instance.
    - [MessageLog] (call/message_log.rs), [Uas] (sip/uas.rs): the server of the
      extensions, proved from the interface of the registrar.
    - [Uac] (sip/uac.rs), [Register] (sip/register.rs): the client and the
      registration loop, as programs over the transaction layer.
    - [RegistrationFlow], [CallSetup]: these clients against the server side
      of the same program.

    Session descriptions:
    - [Sdp] (sdp/parser.rs, sdp/builder.rs), [SdpRewrite] (sdp/negotiation.rs,
      sdp/builder.rs), [SdpAnswer] (sdp/builder.rs).

    Calls:
    - [RateLimiter], [CarrierRetry], [Routing], [Intercom], [Calls]
      (call/manager.rs, call/mod.rs): the parts of call/ with a state of their
      own.
    - [HttpDate], [SipFields]: the free functions of call/orchestrator.rs.
    - [Outbound], [OutboundLegs]: calls of telephones to the NGN
      (UasEventHandler, OutboundCallRegistry), and what becomes of them. [Legs]
      holds what they share with the calls of browsers.
    - [BrowserCalls], [BrowserLegs]: the calls of browsers to the NGN.
    - [InternalCalls], [InternalLegs]: calls between extensions, a telephone or
      a browser at either end, and what becomes of them.
    - [Transfer], [Transfers]: REFER, its NOTIFYs and the end of the call it
      moves, beside the BYEs of both sides and the end of the registration.
    - [Fork]: an incoming call offered to every binding (fork_to_bindings,
      run_webrtc_leg).
    - [Inbound], [InboundCalls]: calls of the NGN (NgnInboundHandler).

    Browsers:
    - [Tokens] (webrtc/auth.rs), [Signaling], [Sessions] (webrtc/signaling.rs).
    - [WebPush] (webrtc/push.rs): the subscriptions, and the notification of a
      call to all of them.

    The process:
    - [Settings] (config/mod.rs, sip/addr.rs, dhcp/mod.rs): the configuration, the
      environment over it and the addresses it finds.
    - [Endpoint] (health/mod.rs): the HTTP requests, down to the stored files.

    Records of what happened:
    - [Observability], [CallLog] (observability/).

    ** How state and effects are modelled

    A struct is a [Record] and each method that changes it a function that
    returns the new state; locks and atomics of an object are its fields, since
    each method takes them for its whole body. Where it does not, the operation
    is several steps. [Result] and panics are the type [outcome]: indexing out of
    range, unsigned subtraction below zero and an overflowing addition or product
    of the code are panics, as in a build with overflow checks; the wrapping and
    saturating operations are written as such. Integers are [Z] with their width
    in the statements. Strings and datagrams of SIP are [string]s of bytes, those
    of RTP lists of [Z] bytes. Instants are nanoseconds given to the operation
    that reads the clock, random numbers are arguments, and the result of sending
    on a socket is a boolean argument.

    Tasks are modelled at three grains. The client and server transactions, the
    jitter buffers and the bridges are step functions on inputs, and a run is a
    sequence of inputs with their instants. The clients of sip/uac.rs and
    sip/register.rs are trees of calls to the transaction layer ([TuProg.prog]),
    run against any network. The handlers of the orchestrator for calls with the
    NGN share tables: what a handler does between two waits is a step of a world,
    what it still has to do is kept in that world, and the theorems speak of every
    list of steps, so of every interleaving. What a handler sends is the output of
    the world; what it is answered comes from its lists of inputs ([answers],
    [oks], [rnds]), which a theorem quantifies over. The sessions of the browsers,
    the calls between extensions, the transfers and the notifications are trees of
    calls ([Tasks.task]) in a world that keeps the tables: each step is one call of one
    task, which finds the table as it is then, and each task keeps the list of the
    calls it made, of which the theorems speak.

    A hash map is a [gmap]; where the code iterates over one, the order is the
    one of the map, which stands for some order of the code, or an argument.

    ** Recursion and bounds

    Most functions are structural. [event_fuel] (65536) bounds the DTMF loop,
    which counts at most 65535 units by at least one: [dtmf_train_spec] shows
    that it is enough. The string functions with fuel ([trim], [split_str],
    [split_whitespace], [trim_start_matches], UTF-8 decoding) take the length of
    the string, and every round removes at least one byte. [print_uint] has 20
    digits, the length of the longest 64-bit number. The jitter drain loop takes
    the size of the queue ([drain_complete] shows that it empties it). Loops
    without an end in the code are steps, one per round, or take a number of
    rounds (the loop of the registration), and the theorems speak of every
    number of them.

    ** What the groups of theorems show

    - Calls: every leg on the NGN is in a table, had its BYE or was ended by the
      NGN ([ngn_legs_accounted], for calls of telephones whose answers can be sent
      and whose Call-IDs differ; [web_calls_accounted], for those of browsers);
      every INVITE that arrives from the NGN is settled once
      ([invite_answered_once], with a retransmission as an arrival of its own), and,
      among INVITEs of different calls, not before its PRACK
      ([no_final_before_prack], [reliable_18x_bounded]); a fork leaves nothing
      behind ([fork_settles]) and takes the first answer
      ([fork_takes_first_answer]); bridges are released once
      ([bridges_released_once]); a call is held as the NGN last took it, and its offer
      is that of its INVITE with this one direction ([held_offers]); routing picks
      the rule of the configuration ([evaluate_picks]).
    - Calls between extensions: every leg of a callee is handed over or ended
      ([internal_legs_accounted]), every INVITE has one final response
      ([internal_invite_answered]), a browser hears why its call failed
      ([browser_told_of_failure]; twice where the session tells it again, see
      [refusal_told_twice]), a full registry admits no call
      ([full_registry_refuses_all], in a world in which no call ends) and the
      registry is the list of the calls ([registry_is_the_calls]).
    - Transfers: [transfers_stay_inside], [leg_requests_numbered].
    - Clients: what the client sends whatever the network answers
      ([invite_over_any_network], [cancel_gated], [registration_over_any_network]);
      composed with the server, it registers, stays registered and places a call
      ([registration_flow], [registration_kept_alive],
      [call_set_up_through_challenge]).
    - Sessions of browsers: [tokens_bind_claims], [browsers_hold_tokens],
      [browsers_dial_numbers], [session_winds_down]; notifications of calls
      ([subscriptions_notified], [gone_subscriptions_dropped]).
    - The process: what each variable of the environment sets
      ([loaded_settings_work]), [dhcp_servers_read]; over HTTP, the recordings, of
      which a task left to run keeps every packet it took ([recordings_served]), and
      what a request can reach ([requests_contained]).
    - Wire formats: [from_bytes_refines_wire], [sip_message_roundtrip],
      [sdp_roundtrip], [parse_panics_on_wide_type], [wav_reads_back].
    - Descriptions: which lines of an offer reach the NGN, told by what each line
      speaks of ([negotiated_body]); what an answer takes of an offer, exactly
      ([answer_is_subset]).
    - Media: packets come out in the order of their true numbers, cycles included
      ([jitter_ordered_delivery]), also through a conversion ([ngn_to_web_stream]),
      whose frames do not depend on how the samples were packed
      ([frames_independent_of_packets]); [relay_symmetric], [recordings_kept],
      [voicemail_keeps_message].
    - Transactions and dialogs: [client_retransmissions_bounded] (for timers that are
      served in time), [server_repeats_last_final], [dialog_ends_agree].
    - Authentication: every parameter of a digest exchange is read back and decides
      what is accepted ([digest_exchange]); calls come from extensions that a digest or
      the token of a browser's session admitted ([calls_authenticated]);
      [trace_masks_credentials].

    Each component has further theorems beside these: the functional behaviour of
    its operations, error branches included, and its invariants. Behaviours that
    differ from the comments or the RFCs are theorems too, among them
    [forward_gap_dropped], [cumulative_lost_negative], [retry_before_retry_after],
    [missing_to_leaks_entry], [response_single_via], [tag_case_no_dialog],
    [left_browser_keeps_call], [retried_call_stays_open_in_log],
    [old_session_unregisters_new], [second_notification_is_lost],
    [callee_body_strands_leg], [admission_ignores_calls_under_way],
    [hang_up_during_transfer], [renewed_subscription_lost],
    [refusal_told_twice], [browser_extension_calls_without_digest] and
    [keepalive_of_zero_accepted].

    ** What is not modelled

    Parameters of the model, because their code is not here: MD5, HMAC-SHA-256
    and Base64, libopus and rubato, the parsers of serde, TOML and chrono, the
    encryption of web push, what axum makes of a request, the random generator, the
    clocks and the network.

    Left out, because it is input and output or a wrapper of a library: the
    asynchronous plumbing (sockets, channels, DSCP), logging, the text of the
    metrics, the trace files and the JSON of the logs, the peers of str0m
    (webrtc/peer.rs, webrtc/str0m_session.rs: their offers and answers are
    inputs of the model), and the wiring of the objects at the start.

    Left out, although it is logic: the re-INVITEs that arrive while a call is
    transferred ([Outbound] has those of a call otherwise). For the calls with the
    NGN a step is the stretch of code between two waits on another party; the finer
    interleavings at uncontended locks within such a stretch are not told apart. *)
From Stdlib Require Export ZArith Lia.
From stdpp Require Export prelude gmap strings list numbers sorting.

#[global] Open Scope Z_scope.

Declare Scope rust_scope.
Delimit Scope rust_scope with rust.

(** ** Results

    A Rust function that returns [Result<A, E>] and may also panic (an index
    out of range, an overflow in a checked build) is a computation in
    [outcome E]. *)

Inductive outcome (E A : Type) : Type :=
  | Ok (a : A)
  | Err (e : E)
  | Panic.
Arguments Ok {E A} a.
Arguments Err {E A} e.
Arguments Panic {E A}.

#[export] Instance outcome_ret {E} : MRet (outcome E) := fun A a => Ok a.
#[export] Instance outcome_bind {E} : MBind (outcome E) := fun A B f m =>
  match m with
  | Ok a => f a
  | Err e => Err e
  | Panic => Panic
  end.
#[export] Instance outcome_fmap {E} : FMap (outcome E) := fun A B f m =>
  match m with
  | Ok a => Ok (f a)
  | Err e => Err e
  | Panic => Panic
  end.

(** [Option::ok_or]. *)
Definition ok_or {E A} (o : option A) (e : E) : outcome E A :=
  match o with Some a => Ok a | None => Err e end.

(** [Result::ok]; a panic is not caught by it, and has no value here. *)
Definition ok {E A} (m : outcome E A) : option A :=
  match m with Ok a => Some a | _ => None end.

(** A guard that returns early with an error, as [bail!] does. *)
Definition ensure {E} (b : bool) (e : E) : outcome E unit :=
  if b then Ok tt else Err e.

(** The computation does not panic. *)
Definition no_panic {E A} (m : outcome E A) : Prop := m <> Panic.

Lemma no_panic_ok {E A} (a : A) : no_panic (E := E) (Ok a).
Proof. discriminate. Qed.

Lemma no_panic_err {E A} (e : E) : no_panic (A := A) (Err e).
Proof. discriminate. Qed.

Lemma no_panic_bind {E A B} (m : outcome E A) (f : A -> outcome E B) :
  no_panic m -> (forall a, m = Ok a -> no_panic (f a)) -> no_panic (m ≫= f).
Proof.
  intros Hm Hf. destruct m as [a | e |]; cbn.
  - apply Hf. reflexivity.
  - discriminate.
  - contradiction.
Qed.

Lemma no_panic_ensure {E} b (e : E) : no_panic (ensure b e).
Proof. destruct b; discriminate. Qed.

Lemma no_panic_fmap {E A B} (m : outcome E A) (f : A -> B) :
  no_panic m -> no_panic (f <$> m).
Proof. by destruct m. Qed.

Lemma ok_or_no_panic {E A} (o : option A) (e : E) : no_panic (ok_or o e).
Proof. by destruct o. Qed.

Lemma bind_Ok_inv {E A B} (m : outcome E A) (f : A -> outcome E B) b :
  m ≫= f = Ok b -> exists a, m = Ok a /\ f a = Ok b.
Proof. destruct m as [a | e |]; cbn; try discriminate. eauto. Qed.

Lemma ensure_Ok_inv {E} b (e : E) u : ensure b e = Ok u -> b = true.
Proof. by destruct b. Qed.

Lemma ok_or_Ok_inv {E A} (o : option A) (e : E) a : ok_or o e = Ok a -> o = Some a.
Proof. by destruct o; cbn; intros [= ->]. Qed.

Create HintDb outcome.
#[export] Hint Resolve no_panic_ok no_panic_err no_panic_ensure no_panic_fmap
  ok_or_no_panic : outcome.

(** Peels the binds of a hypothesis [m ≫= f = Ok b]. *)
Ltac inv_outcome :=
  repeat match goal with
    | H : _ ≫= _ = Ok _ |- _ =>
        let a := fresh "a" in let Ha := fresh "Heq" in
        apply bind_Ok_inv in H as (a & Ha & H); cbv beta in H
    | H : ensure _ _ = Ok _ |- _ => apply ensure_Ok_inv in H
    | H : ok_or _ _ = Ok _ |- _ => apply ok_or_Ok_inv in H
    | H : Ok _ = Ok _ |- _ => injection H as H
    | H : Err _ = Ok _ |- _ => discriminate H
    | H : Panic = Ok _ |- _ => discriminate H
    | H : mret _ = Ok _ |- _ => unfold mret, outcome_ret in H
    end.

(** ** Machine integers

    A [uN] value is a [Z] in [0, 2^N); the conversions and arithmetic of the
    standard library at a width are written out. *)

Definition uN (w : Z) (z : Z) : Prop := 0 <= z < 2 ^ w.
Abbreviation u8 := (uN 8).
Abbreviation u16 := (uN 16).
Abbreviation u32 := (uN 32).
Abbreviation u64 := (uN 64).

Definition iN (w : Z) (z : Z) : Prop := - 2 ^ (w - 1) <= z < 2 ^ (w - 1).
Abbreviation i16 := (iN 16).
Abbreviation i32 := (iN 32).
Abbreviation i64 := (iN 64).

(** [as uN], [wrapping_*]. *)
Definition wrap (w : Z) (z : Z) : Z := z mod 2 ^ w.

(** [as iN]: two's complement. *)
Definition as_iN (w : Z) (z : Z) : Z :=
  let m := wrap w z in if m <? 2 ^ (w - 1) then m else m - 2 ^ w.

Definition wrapping_add (w a b : Z) : Z := wrap w (a + b).
Definition wrapping_sub (w a b : Z) : Z := wrap w (a - b).
Definition wrapping_mul (w a b : Z) : Z := wrap w (a * b).
Definition saturating_add (w a b : Z) : Z := Z.min (a + b) (2 ^ w - 1).
Definition saturating_mul (w a b : Z) : Z := Z.min (a * b) (2 ^ w - 1).
Definition saturating_sub (a b : Z) : Z := Z.max (a - b) 0.

(** [+], [*] and [-] on [uN] as a build with overflow checks evaluates them. *)
Definition checked {E} (w : Z) (z : Z) : outcome E Z :=
  if (0 <=? z) && (z <? 2 ^ w) then Ok z else Panic.

Lemma wrap_range w z : 0 <= w -> uN w (wrap w z).
Proof. intros Hw. apply Z.mod_pos_bound. lia. Qed.

Lemma wrap_small w z : uN w z -> wrap w z = z.
Proof. apply Z.mod_small. Qed.

Lemma wrapping_add_wrap w a b : wrapping_add w (wrap w a) b = wrap w (a + b).
Proof. unfold wrapping_add, wrap. apply Zplus_mod_idemp_l. Qed.

Lemma checked_Ok {E} w z : uN w z -> checked (E := E) w z = Ok z.
Proof.
  intros [H1 H2]. unfold checked.
  rewrite (proj2 (Z.leb_le 0 z)), (proj2 (Z.ltb_lt z _)) by done. done.
Qed.

Lemma checked_inv {E} w z z' : checked (E := E) w z = Ok z' -> z' = z /\ uN w z.
Proof.
  unfold checked, uN. destruct (Z.leb_spec 0 z), (Z.ltb_spec z (2 ^ w)); cbn;
    try discriminate. intros [= <-]. done.
Qed.

Lemma as_iN_small w z : 1 <= w -> iN w z -> as_iN w z = z.
Proof.
  intros Hw [H1 H2]. unfold as_iN, wrap.
  assert (2 ^ w = 2 * 2 ^ (w - 1)) as Hp.
  { rewrite <- Z.pow_succ_r by lia. f_equal. lia. }
  assert (0 < 2 ^ (w - 1)) by lia.
  destruct (Z.leb_spec 0 z) as [Hz | Hz].
  - rewrite Z.mod_small by lia. destruct (Z.ltb_spec z (2 ^ (w - 1))); lia.
  - replace (z mod 2 ^ w) with (z + 2 ^ w).
    + destruct (Z.ltb_spec (z + 2 ^ w) (2 ^ (w - 1))); lia.
    + rewrite <- (Z.mod_small (z + 2 ^ w) (2 ^ w)) by lia.
      rewrite <- (Z_mod_plus_full z 1 (2 ^ w)). f_equal. lia.
Qed.

(** Two bit fields side by side. *)
Lemma lor_shiftl a b n : 0 <= n -> uN n b -> Z.lor (Z.shiftl a n) b = a * 2 ^ n + b.
Proof.
  intros Hn Hb.
  assert (Z.land (Z.shiftl a n) b = 0) as Hl.
  { apply Z.bits_inj'. intros i Hi. rewrite Z.land_spec, Z.bits_0.
    destruct (Z.lt_ge_cases i n).
    - by rewrite Z.shiftl_spec_low by lia.
    - rewrite <- (wrap_small n b Hb). unfold wrap.
      by rewrite Z.mod_pow2_bits_high, andb_false_r by lia. }
  rewrite <- Z.lxor_lor, <- Z.add_nocarry_lxor, Z.shiftl_mul_pow2 by done. done.
Qed.

(** The powers of two that occur as widths, for [lia]. *)
Lemma pow2_8 : 2 ^ 8 = 256. Proof. reflexivity. Qed.
Lemma pow2_16 : 2 ^ 16 = 65536. Proof. reflexivity. Qed.
Lemma pow2_24 : 2 ^ 24 = 16777216. Proof. reflexivity. Qed.
Lemma pow2_32 : 2 ^ 32 = 4294967296. Proof. reflexivity. Qed.
Lemma pow2_64 : 2 ^ 64 = 18446744073709551616. Proof. reflexivity. Qed.

(** [lia] on goals that mention the width predicates, the conversions at a
    width, [/] and [mod]. *)
Ltac width :=
  unfold uN, iN, wrap, as_iN, wrapping_add, wrapping_sub, wrapping_mul,
    saturating_add, saturating_mul, saturating_sub in *;
  change (16 - 1) with 15 in *; change (32 - 1) with 31 in *;
  change (64 - 1) with 63 in *;
  change (2 ^ 8) with 256 in *; change (2 ^ 15) with 32768 in *;
  change (2 ^ 16) with 65536 in *; change (2 ^ 24) with 16777216 in *;
  change (2 ^ 31) with 2147483648 in *; change (2 ^ 32) with 4294967296 in *;
  change (2 ^ 63) with 9223372036854775808 in *;
  change (2 ^ 64) with 18446744073709551616 in *;
  try (Z.to_euclidean_division_equations; lia).

(** ** Time

    [std::time::Duration] is a number of nanoseconds, and an [Instant] of the
    monotonic clock a number of nanoseconds from its origin. *)

Definition nanos_per_sec : Z := 1000000000.
Definition from_secs (s : Z) : Z := s * nanos_per_sec.
Definition from_millis (ms : Z) : Z := ms * 1000000.
Definition as_secs (d : Z) : Z := d / nanos_per_sec.
Definition as_millis (d : Z) : Z := d / 1000000.
Definition subsec_nanos (d : Z) : Z := d mod nanos_per_sec.

(** [Instant::saturating_duration_since] (and [duration_since], which
    saturates too). *)
Definition duration_since (later earlier : Z) : Z := Z.max 0 (later - earlier).

(** ** Lists and options *)

(** [Option::filter]. *)
Definition option_filter {A} (p : A -> bool) (o : option A) : option A :=
  match o with Some a => if p a then Some a else None | None => None end.

(** [Iterator::find]. *)
Fixpoint find_first {A} (p : A -> bool) (l : list A) : option A :=
  match l with
  | [] => None
  | x :: l => if p x then Some x else find_first p l
  end.

Lemma bool_decide_iff (b : bool) (P : Prop) `{!Decision P} : (b = true <-> P) -> b = bool_decide P.
Proof. intros H. case_bool_decide; destruct b; tauto || (exfalso; intuition congruence) || done. Qed.

Lemma find_first_Some {A} (p : A -> bool) l x :
  find_first p l = Some x -> x ∈ l /\ p x = true.
Proof.
  induction l as [|y l IH]; cbn; [done|]. destruct (p y) eqn:Hp.
  - intros [= ->]. split; [left | done].
  - intros H%IH. destruct H. split; [right|]; done.
Qed.

Lemma find_first_None {A} (p : A -> bool) l :
  find_first p l = None <-> forall x, x ∈ l -> p x = false.
Proof.
  induction l as [|y l IH]; cbn; [split; [set_solver | done]|].
  destruct (p y) eqn:Hp; split.
  - done.
  - intros H. rewrite (H y) in Hp by left. done.
  - intros Hn x [-> | Hx]%elem_of_cons; [done | by apply IH].
  - intros H. apply IH. intros x Hx. apply H. by right.
Qed.

Lemma find_first_app_skip {A} (p : A -> bool) l1 l2 :
  (forall x, x ∈ l1 -> p x = false) -> find_first p (l1 ++ l2) = find_first p l2.
Proof.
  induction l1 as [|y l1 IH]; cbn; intros H; [done|].
  rewrite (H y) by left. apply IH. intros x Hx. apply H. by right.
Qed.

(** Splits on the conditionals of the goal. *)
Ltac case_bool :=
  repeat match goal with
    | |- context [if ?b then _ else _] =>
        lazymatch b with
        | context [if _ then _ else _] => fail
        | _ => let H := fresh "Hb" in destruct b eqn:H
        end
    end.

(** ** Exhaustive checks over a byte *)

(** [P] on [z, z + 1, ..., z + n - 1]. *)
Fixpoint forall_range (P : Z -> bool) (n : nat) (z : Z) : bool :=
  match n with
  | O => true
  | S n => if P z then forall_range P n (z + 1) else false
  end.

Lemma forall_range_spec (P : Z -> bool) n m z :
  forall_range P n m = true -> m <= z < m + Z.of_nat n -> P z = true.
Proof.
  revert m; induction n as [|n IH]; intros m; cbn [forall_range]; [lia|].
  destruct (P m) eqn:Hm; [|done]. intros H Hz.
  destruct (decide (z = m)) as [-> | Hne]; [done|]. apply (IH (m + 1)); [done | lia].
Qed.

(** Reduces a boolean goal about the variable [b] in [[lo, lo + n)] to its
    evaluation at every value. *)
Ltac range_exhaust b lo n :=
  match goal with
  | |- ?g = true =>
      let P := eval pattern b in g in
      match P with
      | ?f _ =>
          apply (forall_range_spec f (Z.to_nat n) lo b); [by vm_compute | width]
      end
  end.
Ltac byte_exhaust b := range_exhaust b 0 256.
