(* ===== verification/Bytes.v ===== *)
(** Byte buffers: big- and little-endian integers ([to_be_bytes],
    [from_be_bytes], [to_le_bytes]), and the indexing and slicing of [&[u8]],
    which panic out of range. A byte is a [Z] in [0, 256). *)
From S2P Require Import Prelude.

Abbreviation bytes_ok := (Forall (uN 8)).

(** [z.to_be_bytes()] of an [8 * n]-bit integer. *)
Fixpoint be_bytes (n : nat) (z : Z) : list Z :=
  match n with
  | O => []
  | S n => (z / 256 ^ Z.of_nat n) mod 256 :: be_bytes n z
  end.

(** [from_be_bytes]. *)
Definition from_be (l : list Z) : Z := fold_left (fun a b => a * 256 + b) l 0.

(** [z.to_le_bytes()]. *)
Fixpoint le_bytes (n : nat) (z : Z) : list Z :=
  match n with
  | O => []
  | S n => z mod 256 :: le_bytes n (z / 256)
  end.

(** [data[i]]. *)
Definition idx {E} (data : list Z) (i : nat) : outcome E Z :=
  match data !! i with Some b => Ok b | None => Panic end.

(** [uN::from_be_bytes([data[off], ..., data[off + n - 1]])]. *)
Fixpoint idxs {E} (data : list Z) (off n : nat) : outcome E (list Z) :=
  match n with
  | O => Ok []
  | S n => b ← idx data off; l ← idxs data (S off) n; Ok (b :: l)
  end.
Definition rd_be {E} (data : list Z) (off n : nat) : outcome E Z :=
  from_be <$> idxs data off n.

(** [&data[i..j]]: panics unless [i <= j <= data.len()]. *)
Definition slice {E} (data : list Z) (i j : nat) : outcome E (list Z) :=
  if (i <=? j)%nat && (j <=? length data)%nat
  then Ok (take (j - i) (drop i data)) else Panic.

Lemma length_be_bytes n z : length (be_bytes n z) = n.
Proof. induction n; cbn; congruence. Qed.

Lemma length_le_bytes n z : length (le_bytes n z) = n.
Proof. revert z; induction n; intros; cbn; [done | by rewrite IHn]. Qed.

Lemma be_bytes_ok n z : bytes_ok (be_bytes n z).
Proof.
  induction n; cbn; constructor; [|done]. apply (wrap_range 8). lia.
Qed.

Lemma le_bytes_ok n z : bytes_ok (le_bytes n z).
Proof.
  revert z; induction n; intros; cbn; constructor; [|done].
  apply (wrap_range 8). lia.
Qed.

Lemma fold_be_acc l a :
  fold_left (fun a b => a * 256 + b) l a = a * 256 ^ Z.of_nat (length l) + from_be l.
Proof.
  unfold from_be. revert a; induction l as [|b l IH]; intros a; cbn [fold_left length].
  - rewrite Z.pow_0_r. lia.
  - rewrite IH, (IH (0 * 256 + b)), Nat2Z.inj_succ, Z.pow_succ_r by lia. lia.
Qed.

Lemma from_be_cons b l : from_be (b :: l) = b * 256 ^ Z.of_nat (length l) + from_be l.
Proof.
  unfold from_be at 1. cbn [fold_left]. rewrite fold_be_acc. lia.
Qed.

Lemma from_be_range l : bytes_ok l -> 0 <= from_be l < 256 ^ Z.of_nat (length l).
Proof.
  induction 1 as [|b l [Hb1 Hb2] Hl IH].
  - cbn. lia.
  - rewrite from_be_cons. cbn [length]. rewrite Nat2Z.inj_succ, Z.pow_succ_r by lia.
    change (2 ^ 8) with 256 in Hb2. nia.
Qed.

Lemma from_be_bytes_mod n z : from_be (be_bytes n z) = z mod 256 ^ Z.of_nat n.
Proof.
  induction n as [|n IH].
  - cbn. by rewrite Z.mod_1_r.
  - cbn [be_bytes]. rewrite from_be_cons, length_be_bytes, IH.
    rewrite Nat2Z.inj_succ, Z.pow_succ_r by lia.
    rewrite (Z.mul_comm 256), Z.rem_mul_r by lia. lia.
Qed.

(** Decoding the big-endian encoding of an integer of that width gives it
    back. *)
Lemma from_be_bytes n z : 0 <= z < 256 ^ Z.of_nat n -> from_be (be_bytes n z) = z.
Proof. intros Hz. rewrite from_be_bytes_mod. by apply Z.mod_small. Qed.

Lemma be_bytes_mod n m z :
  (n <= m)%nat -> be_bytes n (z mod 256 ^ Z.of_nat m) = be_bytes n z.
Proof.
  induction n as [|n IH]; intros Hm; cbn; [done|]. f_equal; [|apply IH; lia].
  replace (Z.of_nat m) with (Z.of_nat n + (Z.of_nat m - Z.of_nat n)) by lia.
  rewrite Z.pow_add_r by lia. rewrite Z.rem_mul_r by lia.
  rewrite Z.add_comm, Z.mul_comm, Z.div_add_l, (Z.div_small (z mod _)) by
    (try apply Z.mod_pos_bound; lia).
  replace (Z.of_nat m - Z.of_nat n) with (1 + (Z.of_nat m - Z.of_nat n - 1)) by lia.
  rewrite Z.pow_add_r by lia. change (256 ^ 1) with 256.
  rewrite Z.rem_mul_r, Z.add_0_r by lia. rewrite Z.mul_comm, Z.mod_add by lia.
  by rewrite Z.mod_mod by lia.
Qed.

Lemma be_bytes_from_be l : bytes_ok l -> be_bytes (length l) (from_be l) = l.
Proof.
  induction 1 as [|b l Hb Hl IH]; [done|]. cbn [length be_bytes].
  pose proof (from_be_range l Hl) as Hr. f_equal.
  - rewrite from_be_cons, Z.div_add_l, (Z.div_small (from_be l)), Z.add_0_r by lia.
    by apply (wrap_small 8).
  - rewrite <- (be_bytes_mod _ (length l)), from_be_cons by lia.
    rewrite Z.add_comm, Z.mod_add, Z.mod_small by lia. done.
Qed.

(** The bytes of a big-endian integer determine the bytes. *)
Lemma from_be_inj l1 l2 :
  bytes_ok l1 -> bytes_ok l2 -> length l1 = length l2 ->
  from_be l1 = from_be l2 -> l1 = l2.
Proof.
  intros H1 H2 Hl He. rewrite <- (be_bytes_from_be l1), <- (be_bytes_from_be l2) by done.
  by rewrite Hl, He.
Qed.

Lemma idx_Ok {E} (data : list Z) i b : data !! i = Some b -> idx (E := E) data i = Ok b.
Proof. unfold idx. by intros ->. Qed.

Lemma idx_no_panic {E} (data : list Z) i :
  (i < length data)%nat -> no_panic (idx (E := E) data i).
Proof.
  intros Hi. unfold idx. apply lookup_lt_is_Some_2 in Hi as [b ->]. discriminate.
Qed.

Lemma idxs_Ok {E} (data : list Z) off n :
  (off + n <= length data)%nat ->
  idxs (E := E) data off n = Ok (take n (drop off data)).
Proof.
  revert off; induction n as [|n IH]; intros off Hl; cbn; [done|].
  destruct (lookup_lt_is_Some_2 data off) as [b Hb]; [lia|].
  rewrite (idx_Ok _ _ b Hb). cbn. rewrite IH by lia. cbn.
  by rewrite (drop_S data b off Hb).
Qed.

Lemma rd_be_Ok {E} (data : list Z) off n :
  (off + n <= length data)%nat ->
  rd_be (E := E) data off n = Ok (from_be (take n (drop off data))).
Proof. intros Hl. unfold rd_be. by rewrite idxs_Ok by done. Qed.

Lemma rd_be_no_panic {E} (data : list Z) off n :
  (off + n <= length data)%nat -> no_panic (rd_be (E := E) data off n).
Proof. intros Hl. rewrite rd_be_Ok by done. discriminate. Qed.

Lemma slice_Ok {E} (data : list Z) i j :
  (i <= j <= length data)%nat -> slice (E := E) data i j = Ok (take (j - i) (drop i data)).
Proof.
  intros [H1 H2]. unfold slice.
  by rewrite (proj2 (Nat.leb_le i j)), (proj2 (Nat.leb_le j _)) by done.
Qed.

Lemma slice_no_panic {E} (data : list Z) i j :
  (i <= j <= length data)%nat -> no_panic (slice (E := E) data i j).
Proof. intros H. rewrite slice_Ok by done. discriminate. Qed.

Lemma slice_inv {E} (data : list Z) i j s :
  slice (E := E) data i j = Ok s ->
  s = take (j - i) (drop i data) /\ (i <= j <= length data)%nat.
Proof.
  unfold slice. destruct (Nat.leb_spec i j), (Nat.leb_spec j (length data)); cbn;
    try discriminate. intros [= <-]. done.
Qed.

(** Reads at a known prefix: [off] bytes, then a field of [n] bytes. *)
Lemma rd_be_app {E} (pre fld post : list Z) off n :
  length pre = off -> length fld = n ->
  rd_be (E := E) (pre ++ fld ++ post) off n = Ok (from_be fld).
Proof.
  intros <- <-. rewrite rd_be_Ok by (rewrite !length_app; lia).
  by rewrite drop_app_length, take_app_length.
Qed.

Lemma idx_app {E} (pre : list Z) b post off :
  length pre = off -> idx (E := E) (pre ++ b :: post) off = Ok b.
Proof. intros <-. apply idx_Ok. by rewrite list_lookup_middle. Qed.

Lemma bytes_ok_lookup data i b : bytes_ok data -> data !! i = Some b -> uN 8 b.
Proof. intros H Hi. by eapply Forall_lookup_1 in H. Qed.

Lemma rd_be_range {E} (data : list Z) off n z :
  bytes_ok data -> rd_be (E := E) data off n = Ok z -> 0 <= z < 256 ^ Z.of_nat n.
Proof.
  intros Hb. unfold rd_be.
  assert (forall off l, idxs (E := E) data off n = Ok l -> length l = n /\ bytes_ok l) as Hi.
  { clear off z. induction n as [|n IH]; intros off l; cbn.
    - intros [= <-]. done.
    - intros H. inv_outcome. subst l. unfold idx in Heq.
      destruct (data !! off) eqn:Hoff; [|done]. simplify_eq.
      apply IH in Heq0 as [<- Hok]. split; [done|]. constructor; [|done].
      by apply (bytes_ok_lookup data off). }
  destruct (idxs data off n) as [l | |] eqn:Hl; cbn; try discriminate. intros [= <-].
  apply Hi in Hl as [<- Hok]. by apply from_be_range.
Qed.

Lemma idx_cons_0 {E} b (l : list Z) : idx (E := E) (b :: l) 0 = Ok b.
Proof. done. Qed.
Lemma idx_cons_S {E} b (l : list Z) i : idx (E := E) (b :: l) (S i) = idx l i.
Proof. done. Qed.

#[export] Hint Resolve idx_no_panic rd_be_no_panic slice_no_panic : outcome.

(** [usize] subtraction: underflow panics (a build without overflow checks
    would wrap to a huge length). *)
Definition usize_sub {E} (a b : nat) : outcome E nat :=
  if (b <=? a)%nat then Ok (a - b)%nat else Panic.

Lemma usize_sub_Ok {E} a b : (b <= a)%nat -> usize_sub (E := E) a b = Ok (a - b)%nat.
Proof. intros H. unfold usize_sub. by rewrite (proj2 (Nat.leb_le b a)) by done. Qed.

Lemma usize_sub_no_panic {E} a b : (b <= a)%nat -> no_panic (usize_sub (E := E) a b).
Proof. intros H. rewrite usize_sub_Ok by done. discriminate. Qed.
#[export] Hint Resolve usize_sub_no_panic : outcome.

Lemma idx_inv {E} data i b : idx (E := E) data i = Ok b -> data !! i = Some b.
Proof. unfold idx. destruct (data !! i); [by intros [= ->] | done]. Qed.

Lemma usize_sub_inv {E} a b c :
  usize_sub (E := E) a b = Ok c -> c = (a - b)%nat /\ (b <= a)%nat.
Proof. unfold usize_sub. destruct (Nat.leb_spec b a); [by intros [= <-] | done]. Qed.

(** [inv_outcome] through the accesses of this file as well. *)
Ltac inv_bytes :=
  repeat (inv_outcome;
    match goal with
    | H : idx _ _ = Ok _ |- _ => apply idx_inv in H
    | H : usize_sub _ _ = Ok _ |- _ => apply usize_sub_inv in H as [? ?]
    | H : slice _ _ _ = Ok _ |- _ => apply slice_inv in H as [? ?]
    end); inv_outcome; subst.

#[global] Arguments be_bytes : simpl never.
#[global] Arguments le_bytes : simpl never.
#[global] Arguments from_be : simpl never.
#[global] Arguments rd_be : simpl never.
