(* ===== verification/F64.v ===== *)
(** The [f64] arithmetic the program uses, as the binary64 format of the
    Standard Library's [SpecFloat] (round to nearest, ties to even). *)
From S2P Require Import Prelude.
From Stdlib Require Export Floats.SpecFloat.

Definition f64 : Type := spec_float.

(** [z as f64]. *)
Definition f64_of_Z (z : Z) : f64 := binary_normalize 53 1024 z 0 false.
Definition f64_add : f64 -> f64 -> f64 := SFadd 53 1024.
Definition f64_sub : f64 -> f64 -> f64 := SFsub 53 1024.
Definition f64_mul : f64 -> f64 -> f64 := SFmul 53 1024.
Definition f64_div : f64 -> f64 -> f64 := SFdiv 53 1024.
Definition f64_abs : f64 -> f64 := SFabs.

(** [Duration::as_secs_f64]. *)
Definition as_secs_f64 (d : Z) : f64 :=
  f64_add (f64_of_Z (as_secs d))
    (f64_div (f64_of_Z (subsec_nanos d)) (f64_of_Z nanos_per_sec)).

(** [x as u32]: truncation towards zero, saturating; NaN is 0. *)
Definition f64_to_u32 (x : f64) : Z :=
  match x with
  | S754_zero _ | S754_nan => 0
  | S754_infinity s => if s then 0 else 4294967295
  | S754_finite s m e => if s then 0 else Z.min (Z.shiftl (Zpos m) e) 4294967295
  end.

(** [x > y]. *)
Definition f64_gt (x y : f64) : bool := SFltb y x.

Lemma f64_to_u32_range x : u32 (f64_to_u32 x).
Proof.
  unfold uN. change (2 ^ 32) with 4294967296.
  destruct x as [| [] | | [] m e]; cbn; try lia.
  assert (0 <= Z.shiftl (Zpos m) e) by (apply Z.shiftl_nonneg; lia). lia.
Qed.

(** [x as u64]. *)
Definition f64_to_u64 (x : f64) : Z :=
  match x with
  | S754_zero _ | S754_nan => 0
  | S754_infinity s => if s then 0 else 2 ^ 64 - 1
  | S754_finite s m e => if s then 0 else Z.min (Z.shiftl (Zpos m) e) (2 ^ 64 - 1)
  end.

(** ** Rounding: a positive product is cut to 53 bits, and one unit may be added *)

Lemma shr_1_m mrs : 0 <= shr_m mrs -> shr_m (shr_1 mrs) = shr_m mrs / 2.
Proof.
  destruct mrs as [[| [p | p |] |] r s]; cbn; intros H; try done; try lia.
  - rewrite (Pos2Z.inj_xI p). apply (Z.div_unique _ _ _ 1); lia.
  - rewrite (Pos2Z.inj_xO p). apply (Z.div_unique _ _ _ 0); lia.
Qed.

Lemma shr_m_iter p mrs : 0 <= shr_m mrs -> shr_m (iter_pos shr_1 p mrs) = shr_m mrs / 2 ^ Zpos p.
Proof.
  revert mrs. induction p as [p IH | p IH |]; intros mrs H; cbn [iter_pos].
  - assert (0 <= shr_m (shr_1 mrs)) by (rewrite shr_1_m by done; apply Z.div_pos; lia).
    rewrite !IH, shr_1_m by (rewrite ?IH; try apply Z.div_pos; lia || done).
    rewrite !Z.div_div by lia. f_equal. rewrite Pos2Z.inj_xI, <- !Z.pow_add_r, <- Z.pow_succ_r by lia.
    f_equal. lia.
  - rewrite !IH by (rewrite ?IH; try apply Z.div_pos; lia || done). rewrite !Z.div_div by lia. f_equal.
    rewrite Pos2Z.inj_xO, <- !Z.pow_add_r by lia. f_equal. lia.
  - by rewrite shr_1_m.
Qed.

Lemma digits_log2 m : 0 < m -> Zdigits2 m = Z.log2 m + 1.
Proof.
  destruct m as [| p |]; try lia. intros _. cbn [Zdigits2].
  induction p as [p IH | p IH |]; cbn [digits2_pos]; [| |done]; rewrite Pos2Z.inj_succ, IH.
  - rewrite (Pos2Z.inj_xI p), Z.log2_succ_double by lia. lia.
  - rewrite (Pos2Z.inj_xO p), Z.log2_double by lia. lia.
Qed.

(** How many bits of [m] the format drops. *)
Definition dropped (m : Z) : Z := Z.max 0 (Zdigits2 m - 53).

Lemma shr_fexp_spec m e l : 0 <= m -> -1074 <= e ->
  exists r s, shr_fexp 53 1024 m e l = (Build_shr_record (m / 2 ^ dropped m) r s, e + dropped m).
Proof.
  intros Hm He. unfold shr_fexp, shr, fexp, emin.
  assert (shr_m (shr_record_of_loc m l) = m) as Hl by (by destruct l as [| []]).
  assert (Z.max (Zdigits2 m + e - 53) (3 - 1024 - 53) - e <= dropped m /\
    (0 < dropped m -> Z.max (Zdigits2 m + e - 53) (3 - 1024 - 53) - e = dropped m)) as [H1 H2].
  { unfold dropped. lia. }
  assert (0 <= dropped m) by (unfold dropped; lia).
  destruct (Z.max _ _ - e) as [| p | p].
  - replace (dropped m) with 0 by lia. rewrite Z.pow_0_r, Z.div_1_r, Z.add_0_r.
    destruct (shr_record_of_loc m l) as [x r s]. cbn [shr_m] in Hl. rewrite Hl. by exists r, s.
  - rewrite <- H2 by lia. pose proof (shr_m_iter p (shr_record_of_loc m l)) as Hi.
    destruct (iter_pos shr_1 p _) as [x r s]. cbn [shr_m] in Hi. rewrite Hi, Hl by lia. by exists r, s.
  - replace (dropped m) with 0 by lia. rewrite Z.pow_0_r, Z.div_1_r, Z.add_0_r.
    destruct (shr_record_of_loc m l) as [x r s]. cbn [shr_m] in Hl. rewrite Hl. by exists r, s.
Qed.

Lemma dropped_small m : 0 <= m < 2 ^ 53 -> dropped m = 0.
Proof.
  intros H. unfold dropped. destruct (Z.eq_dec m 0) as [-> | Hz]; [done|].
  rewrite digits_log2 by lia. pose proof (proj1 (Z.log2_lt_pow2 m 53 ltac:(lia))). lia.
Qed.

Lemma dropped_cut m : 0 < m -> 0 <= m / 2 ^ dropped m < 2 ^ 53.
Proof.
  intros H. unfold dropped. rewrite digits_log2 by done. pose proof (Z.log2_nonneg m).
  split; [apply Z.div_pos; lia|]. apply Z.div_lt_upper_bound; [lia|].
  rewrite <- Z.pow_add_r by lia. apply Z.log2_lt_pow2; [done | lia].
Qed.

Lemma round_nearest_even_cases m l : round_nearest_even m l = m \/ round_nearest_even m l = m + 1.
Proof. destruct l as [| []]; cbn; try (by left); try (by right). destruct (Z.even m); [by left | by right]. Qed.

(** The rounding of [m * 2^e], truncated. *)
Lemma round_truncated m e : 0 < m -> -1074 <= e -> e + dropped m < 0 ->
  exists b, 0 <= b <= 1 /\ f64_to_u64 (binary_round_aux 53 1024 false m e loc_Exact) =
    Z.min ((m / 2 ^ dropped m + b) / 2 ^ (- (e + dropped m))) (2 ^ 64 - 1).
Proof.
  intros Hm He Hd. unfold binary_round_aux.
  destruct (shr_fexp_spec m e loc_Exact) as (r & s & ->); [lia | done|]. cbn [shr_m].
  pose proof (dropped_cut m Hm) as Hc. assert (0 <= dropped m) by (unfold dropped; lia).
  set (q := m / 2 ^ dropped m) in *. set (l := loc_of_shr_record _).
  set (m' := round_nearest_even q l).
  assert (exists b, 0 <= b <= 1 /\ m' = q + b) as (b & Hb & Hm').
  { destruct (round_nearest_even_cases q l); [exists 0 | exists 1]; unfold m'; lia. }
  destruct (shr_fexp_spec m' (e + dropped m) loc_Exact) as (r' & s' & ->); [lia | lia|]. cbn [shr_m].
  assert (0 <= dropped m' <= 1) as Hd'.
  { split; [unfold dropped; lia|]. destruct (Z.eq_dec m' (2 ^ 53)) as [-> | ?]; [done|].
    rewrite dropped_small; lia. }
  exists b. split; [done|]. rewrite <- Hm'.
  replace (m' / 2 ^ (- (e + dropped m)))
    with (m' / 2 ^ dropped m' / 2 ^ (- (e + dropped m + dropped m'))).
  2: { rewrite Z.div_div, <- Z.pow_add_r by lia. f_equal. f_equal. lia. }
  destruct (m' / 2 ^ dropped m') as [| p | p] eqn:Hp.
  - by rewrite Z.div_0_l by (apply Z.pow_nonzero; lia).
  - rewrite (proj2 (Z.leb_le _ _)) by lia. cbn [f64_to_u64].
    rewrite <- (Z.shiftr_div_pow2 (Zpos p)) by lia. by rewrite <- Z.shiftl_opp_r, Z.opp_involutive.
  - assert (0 <= m' / 2 ^ dropped m') by (apply Z.div_pos; lia). lia.
Qed.

Lemma shr_fexp_exact m e : Zdigits2 m = 53 -> -1074 <= e ->
  shr_fexp 53 1024 m e loc_Exact = (Build_shr_record m false false, e).
Proof.
  intros Hd He. unfold shr_fexp, fexp, emin. rewrite Hd. by replace (Z.max _ _ - e) with 0 by lia.
Qed.

Lemma f64_of_u32 e : 0 < e < 2 ^ 32 ->
  exists k m, 21 <= k <= 52 /\ f64_of_Z e = S754_finite false m (- k) /\ Zpos m = e * 2 ^ k /\
    2 ^ 52 <= Zpos m < 2 ^ 53.
Proof.
  intros He. pose proof (proj1 (Z.log2_lt_pow2 e 32 ltac:(lia))) as Hl1. pose proof (Z.log2_nonneg e) as Hl2.
  pose proof (Z.log2_spec e ltac:(lia)) as Hs. pose proof (digits_log2 e ltac:(lia)) as Hd.
  destruct e as [| e |]; try lia. cbn [Zdigits2] in Hd.
  assert (exists k, 52 - Z.log2 (Zpos e) = Zpos k) as [k Hk].
  { destruct (52 - Z.log2 (Zpos e)) as [| k |] eqn:?; try lia. by exists k. }
  exists (Zpos k), (shift_pos k e).
  assert (Zpos (shift_pos k e) = Zpos e * 2 ^ Zpos k) as Hm by (rewrite shift_pos_correct; change (Z.pow_pos 2 k) with (2 ^ Zpos k); lia).
  assert (2 ^ 52 <= Zpos (shift_pos k e) < 2 ^ 53) as Hr.
  { rewrite Hm.
    replace (2 ^ 53) with (2 ^ (Z.log2 (Zpos e) + 1) * 2 ^ Zpos k) by (rewrite <- Z.pow_add_r by lia; f_equal; lia).
    replace (2 ^ 52) with (2 ^ (Z.log2 (Zpos e)) * 2 ^ Zpos k) by (rewrite <- Z.pow_add_r by lia; f_equal; lia).
    rewrite Z.add_1_r. nia. }
  split_and!; [lia | lia | | done | lia | lia].
  unfold f64_of_Z, binary_normalize, binary_round, shl_align, fexp, emin. rewrite Hd.
  replace (Z.max _ _ - 0) with (Zneg k) by lia.
  replace (Z.max _ _) with (Zneg k) by lia. unfold binary_round_aux.
  assert (Zdigits2 (Zpos (shift_pos k e)) = 53) as Hd2.
  { rewrite digits_log2, Hm, Z.log2_mul_pow2 by lia. lia. }
  rewrite shr_fexp_exact by (done || lia). cbn [loc_of_shr_record shr_m round_nearest_even].
  by rewrite shr_fexp_exact by (done || lia).
Qed.

(** [x as f64 * 0.9], truncated. *)
Definition f64_nine_tenths : f64 := f64_div (f64_of_Z 9) (f64_of_Z 10).

Lemma nine_tenths_truncated e : u32 e -> f64_to_u64 (f64_mul (f64_of_Z e) f64_nine_tenths) = 9 * e / 10.
Proof.
  intros He. unfold uN in He. destruct (Z.eq_dec e 0) as [-> | Hz]; [done|].
  assert (0 <= 9 * e / 10 < 2 ^ 32) as Hq.
  { split; [apply Z.div_pos; lia | apply Z.div_lt_upper_bound; lia]. }
  destruct (f64_of_u32 e) as (k & m & Hk & -> & Hm & Hr); [lia|].
  assert (f64_nine_tenths = S754_finite false 8106479329266893 (-53)) as -> by reflexivity.
  unfold f64_mul, SFmul. cbn [xorb].
  assert (0 <= dropped (Zpos (m * 8106479329266893)) <= 53 /\ 52 <= dropped (Zpos (m * 8106479329266893))) as Hd.
  { unfold dropped. rewrite digits_log2 by lia. rewrite Pos2Z.inj_mul.
    pose proof (proj1 (Z.log2_lt_pow2 (Zpos m * 8106479329266893) 106 ltac:(lia)) ltac:(lia)).
    pose proof (proj1 (Z.log2_le_pow2 (Zpos m * 8106479329266893) 104 ltac:(lia)) ltac:(lia)). lia. }
  destruct (round_truncated (Zpos (m * 8106479329266893)) (- k + -53)) as (b & Hb & ->); [lia | lia | lia|].
  set (d := dropped _) in *. rewrite Pos2Z.inj_mul, Hm.
  set (q := 9 * e / 10) in *. set (j := - (- k + -53 + d)).
  assert (10 * q <= 9 * e < 10 * q + 10) as Hq2.
  { unfold q. pose proof (Z.div_mod (9 * e) 10 ltac:(lia)). pose proof (Z.mod_pos_bound (9 * e) 10 ltac:(lia)). lia. }
  assert (2 ^ j * 2 ^ d = 2 ^ k * 2 ^ 53) as Hj.
  { rewrite <- !Z.pow_add_r by lia. f_equal. lia. }
  assert (0 < 2 ^ j) by (apply Z.pow_pos_nonneg; lia).
  assert (0 < 2 ^ d <= 2 ^ 53) by (split; [apply Z.pow_pos_nonneg; lia | apply Z.pow_le_mono_r; lia]).
  assert (2 ^ 21 <= 2 ^ k) by (apply Z.pow_le_mono_r; lia).
  rewrite Z.min_l.
  all: cut ((e * 2 ^ k * 8106479329266893 / 2 ^ d + b) / 2 ^ j = q); [lia |].
  all: set (y := e * 2 ^ k * 8106479329266893 / 2 ^ d).
  all: assert (q * 2 ^ j <= y) by (apply Z.div_le_lower_bound; nia).
  all: assert (y < (q + 1) * 2 ^ j - 1) by (apply Z.div_lt_upper_bound; nia).
  all: apply Z.le_antisymm; [apply Z.lt_succ_r, Z.div_lt_upper_bound; lia | apply Z.div_le_lower_bound; lia].
Qed.
