(* ===== verification/Codec.v ===== *)
(** The audio conversions (src/src/rtp/codec/): PCM frames, the Opus coder and
    the two resamplers.

    libopus and the rubato resampler are third-party code: what the wrappers call
    of them is an argument, with a state of its own. The wrappers check the rate
    and the length of a frame, size the buffers, convert the samples to [f32] and
    back, and cut or pad what comes back. *)
From S2P Require Import Prelude F64.

(** ** [f32] *)

Definition f32 : Type := spec_float.
(** [s as f32]. *)
Definition f32_of_Z (z : Z) : f32 := binary_normalize 24 128 z 0 false.
Definition f32_mul : f32 -> f32 -> f32 := SFmul 24 128.
Definition f32_div : f32 -> f32 -> f32 := SFdiv 24 128.
(** [v.clamp(lo, hi)]: a NaN stays. *)
Definition f32_clamp (v lo hi : f32) : f32 := if SFltb v lo then lo else if SFltb hi v then hi else v.
(** [v as i16]: truncation towards zero, saturating; NaN is 0. *)
Definition f32_to_i16 (v : f32) : Z :=
  match v with
  | S754_zero _ | S754_nan => 0
  | S754_infinity s => if s then -32768 else 32767
  | S754_finite s m e =>
      let q := Z.shiftl (Zpos m) e in if s then Z.max (- q) (-32768) else Z.min q 32767
  end.

(** The conversions of the resamplers. *)
Definition i16_max_f : f32 := f32_of_Z 32767.
Definition i16_min_f : f32 := f32_of_Z (-32768).
Definition sample_to_f32 (s : Z) : f32 := f32_div (f32_of_Z s) i16_max_f.
Definition sample_of_f32 (v : f32) : Z := f32_to_i16 (f32_clamp (f32_mul v i16_max_f) i16_min_f i16_max_f).

(** [Vec::resize]. *)
Definition vec_resize {A} (n : nat) (d : A) (l : list A) : list A := take n l ++ replicate (n - length l) d.

(** ** Frames *)

Record AudioFrame := mkFrame { af_rate : Z; samples : list Z }.
Definition frame_len_20ms (rate : Z) : Z := rate * 20 / 1000.

Definition OPUS_SAMPLE_RATE : Z := 48000.
Definition OPUS_FRAME_SAMPLES : nat := 960.
Definition OPUS_MAX_PACKET : nat := Z.to_nat 4000.
Definition OPUS_MAX_FRAME_SAMPLES : nat := Z.to_nat (OPUS_SAMPLE_RATE * 120 / 1000).
Definition NARROW_BAND_RATE : Z := 8000.
Definition WIDE_BAND_RATE : Z := 48000.
Definition NB_FRAME_SAMPLES : nat := 160.
Definition WB_FRAME_SAMPLES : nat := 960.

Inductive CodecError :=
  | WrongRate (rate : Z)
  | WrongLength (len : nat)
  | LibraryError.

(** What is called of the libraries. The coders write in the buffer they are
    given and return how much they wrote. *)
Record CodecLib := mkLib {
  Encoder : Type; Decoder : Type; Resampler : Type;
  lib_encode : Encoder -> list Z -> nat -> option (list Z * nat) * Encoder;
  get_nb_samples : Decoder -> list Z -> option nat;
  lib_decode : Decoder -> list Z -> nat -> option (list Z * nat) * Decoder;
  lib_resample : Resampler -> list f32 -> option (list (list f32)) * Resampler }.

Section codecs.
Context (lib : CodecLib).

(** [OpusEncoder::encode]. *)
Definition encode (enc : Encoder lib) (frame : AudioFrame) : outcome CodecError (list Z) * Encoder lib :=
  if negb (af_rate frame =? OPUS_SAMPLE_RATE) then (Err (WrongRate (af_rate frame)), enc)
  else if negb (length (samples frame) =? OPUS_FRAME_SAMPLES)%nat then (Err (WrongLength (length (samples frame))), enc)
  else
    match lib_encode lib enc (samples frame) OPUS_MAX_PACKET with
    | (Some (out, n), enc) => (Ok (take n out), enc)
    | (None, enc) => (Err LibraryError, enc)
    end.

(** The size of the buffer [decode] gives to the library. *)
Definition decode_buf_len (dec : Decoder lib) (packet : list Z) : nat :=
  match packet with
  | [] => OPUS_FRAME_SAMPLES
  | _ =>
      match get_nb_samples lib dec packet with
      | Some n => if ((0 <? n) && (n <=? OPUS_MAX_FRAME_SAMPLES))%nat then n else OPUS_MAX_FRAME_SAMPLES
      | None => OPUS_MAX_FRAME_SAMPLES
      end
  end.

(** [OpusDecoder::decode]. *)
Definition decode (dec : Decoder lib) (packet : list Z) : outcome CodecError AudioFrame * Decoder lib :=
  match lib_decode lib dec packet (decode_buf_len dec packet) with
  | (Some (buf, n), dec) => (Ok (mkFrame OPUS_SAMPLE_RATE (take n buf)), dec)
  | (None, dec) => (Err LibraryError, dec)
  end.

(** The body the two resamplers have in common: from [n] samples at one rate to
    [m] samples at the other. *)
Definition resample (rate : Z) (n : nat) (rate' : Z) (m : nat) (rs : Resampler lib) (input : AudioFrame) :
    outcome CodecError AudioFrame * Resampler lib :=
  if negb (af_rate input =? rate) then (Err (WrongRate (af_rate input)), rs)
  else if negb (length (samples input) =? n)%nat then (Err (WrongLength (length (samples input))), rs)
  else
    match lib_resample lib rs (map sample_to_f32 (samples input)) with
    | (Some out, rs) =>
        let out0 := default [] (last out) in
        (Ok (mkFrame rate' (vec_resize m 0 (map sample_of_f32 out0))), rs)
    | (None, rs) => (Err LibraryError, rs)
    end.

(** [UpsamplerNbToWb::process]. *)
Definition upsample := resample NARROW_BAND_RATE NB_FRAME_SAMPLES WIDE_BAND_RATE WB_FRAME_SAMPLES.
(** [DownsamplerWbToNb::process]. *)
Definition downsample := resample WIDE_BAND_RATE WB_FRAME_SAMPLES NARROW_BAND_RATE NB_FRAME_SAMPLES.
End codecs.

Lemma vec_resize_length {A} n (d : A) l : length (vec_resize n d l) = n.
Proof. unfold vec_resize. rewrite length_app, length_take, length_replicate. lia. Qed.

Lemma f32_to_i16_range v : -32768 <= f32_to_i16 v <= 32767.
Proof.
  destruct v as [| [] | | [] m e]; cbn [f32_to_i16]; try lia;
    (assert (0 <= Z.shiftl (Zpos m) e) by (apply Z.shiftl_nonneg; lia)); lia.
Qed.

(** A frame the type of Rust can hold, with its rate and its length. *)
Definition frame_ok (rate : Z) (n : nat) (f : AudioFrame) : Prop :=
  af_rate f = rate /\ length (samples f) = n /\ Forall (fun s => -32768 <= s <= 32767) (samples f).

Lemma resample_ok lib rate n rate' m rs f : frame_ok rate n f ->
  match (resample lib rate n rate' m rs f).1 with
  | Ok f' => frame_ok rate' m f'
  | Err e => e = LibraryError
  | Panic => False
  end.
Proof.
  intros (Hr & Hn & _). unfold resample. rewrite Hr, Z.eqb_refl, Hn, Nat.eqb_refl. cbn [negb].
  destruct (lib_resample lib rs _) as [[out|] rs']; cbn [fst]; [|done].
  split; [done|]. cbn [samples]. split; [apply vec_resize_length|]. apply Forall_app. split.
  - apply Forall_take, Forall_forall. intros s Hs. apply list_elem_of_fmap in Hs as (v & -> & _).
    apply f32_to_i16_range.
  - apply Forall_replicate. lia.
Qed.

Lemma encode_ok lib enc f : frame_ok OPUS_SAMPLE_RATE OPUS_FRAME_SAMPLES f ->
  match (encode lib enc f).1 with Ok _ => True | Err e => e = LibraryError | Panic => False end.
Proof.
  intros (Hr & Hn & _). unfold encode. rewrite Hr, Z.eqb_refl, Hn, Nat.eqb_refl. cbn [negb].
  by destruct (lib_encode lib enc _ _) as [[[out k]|] enc'].
Qed.
