(* ===== verification/RtpPacket.v ===== *)
(** RTP packets (src/src/rtp/packet.rs): the fixed header with CSRC list,
    header extension and padding of RFC 3550 §5.1, its serializer and its
    parser. *)
From S2P Require Import Prelude Bytes.

Definition PAYLOAD_TYPE_ULAW : Z := 0.
Definition PAYLOAD_TYPE_ALAW : Z := 8.
Definition SAMPLE_RATE : Z := 8000.
Definition SAMPLES_PER_FRAME : Z := SAMPLE_RATE * 20 / 1000.

Record RtpPacket := mkRtp {
  payload_type : Z;
  marker : bool;
  sequence : Z;
  timestamp : Z;
  ssrc : Z;
  payload : list Z
}.

(** The [bail!] sites of [from_bytes]. *)
Inductive RtpError :=
  | RtpTooShort (len : nat)
  | RtpBadVersion (version : Z)
  | RtpCsrcShort (cc len : nat)
  | RtpExtHeaderShort
  | RtpExtShort
  | RtpBadPadding (pad_len : nat).

Definition to_bytes (p : RtpPacket) : list Z :=
  let m_bit := if marker p then 0x80 else 0 in
  [0x80] ++
  [Z.lor m_bit (Z.land (payload_type p) 0x7f)] ++
  be_bytes 2 (sequence p) ++
  be_bytes 4 (timestamp p) ++
  be_bytes 4 (ssrc p) ++
  payload p.

(** The extension header: the offset after it. *)
Definition skip_extension (data : list Z) (offset : nat) : outcome RtpError nat :=
  ensure (offset + 4 <=? length data)%nat RtpExtHeaderShort ;;
  ext_len ← rd_be data (offset + 2) 2;
  let offset := (offset + (4 + Z.to_nat ext_len * 4))%nat in
  ensure (offset <=? length data)%nat RtpExtShort ;;
  Ok offset.

(** The end of the payload: the last byte gives the padding length. *)
Definition strip_padding (data : list Z) (offset : nat) : outcome RtpError nat :=
  let end_ := length data in
  last ← usize_sub end_ 1;
  b ← idx data last;
  let pad_len := Z.to_nat b in
  avail ← usize_sub end_ offset;
  ensure (negb ((pad_len =? 0)%nat || (avail <? pad_len)%nat)) (RtpBadPadding pad_len) ;;
  usize_sub end_ pad_len.

Definition from_bytes (data : list Z) : outcome RtpError RtpPacket :=
  ensure (12 <=? length data)%nat (RtpTooShort (length data)) ;;
  b0 ← idx data 0;
  b1 ← idx data 1;
  let version := Z.shiftr b0 6 in
  ensure (version =? 2) (RtpBadVersion version) ;;
  let padding := negb (Z.land b0 0x20 =? 0) in
  let extension := negb (Z.land b0 0x10 =? 0) in
  let cc := Z.to_nat (Z.land b0 0x0f) in
  let marker := negb (Z.land b1 0x80 =? 0) in
  let payload_type := Z.land b1 0x7f in
  sequence ← rd_be data 2 2;
  timestamp ← rd_be data 4 4;
  ssrc ← rd_be data 8 4;
  let offset := (12 + cc * 4)%nat in
  ensure (offset <=? length data)%nat (RtpCsrcShort cc (length data)) ;;
  offset ← (if extension then skip_extension data offset else Ok offset);
  end_ ← (if padding then strip_padding data offset else Ok (length data));
  payload ← slice data offset end_;
  Ok (mkRtp payload_type marker sequence timestamp ssrc payload).

(** A packet the type of the Rust struct can hold, with the 7-bit payload type
    the wire carries. *)
Record rtp_ok (p : RtpPacket) : Prop := {
  ok_pt : uN 7 (payload_type p);
  ok_seq : u16 (sequence p);
  ok_ts : u32 (timestamp p);
  ok_ssrc : u32 (ssrc p);
  ok_payload : bytes_ok (payload p)
}.

(** ** The wire format as a relation

    [rtp_wire data p]: [data] is a datagram of the layout of RFC 3550 §5.1
    (fixed header, CSRC list, optional extension, payload, optional padding)
    that carries [p]. *)

Definition wire_ext (x : bool) (ext : list Z) : Prop :=
  if x
  then exists prof w body, ext = prof ++ be_bytes 2 w ++ body /\
         length prof = 2%nat /\ u16 w /\ length body = (Z.to_nat w * 4)%nat
  else ext = [].

Definition wire_pad (x : bool) (pad : list Z) : Prop :=
  if x
  then exists pad', pad = pad' ++ [Z.of_nat (S (length pad'))] /\ (length pad' < 255)%nat
  else pad = [].

Record rtp_wire (data : list Z) (p : RtpPacket) : Prop := {
  wire_split : exists b0 b1 csrc ext pad,
    data = b0 :: b1 :: be_bytes 2 (sequence p) ++ be_bytes 4 (timestamp p) ++
           be_bytes 4 (ssrc p) ++ csrc ++ ext ++ payload p ++ pad /\
    u8 b0 /\ u8 b1 /\
    b0 / 64 = 2 /\
    length csrc = (Z.to_nat (b0 mod 16) * 4)%nat /\
    wire_ext (Z.testbit b0 4) ext /\
    wire_pad (Z.testbit b0 5) pad /\
    marker p = Z.testbit b1 7 /\
    payload_type p = b1 mod 128;
  wire_seq : u16 (sequence p);
  wire_ts : u32 (timestamp p);
  wire_ssrc : u32 (ssrc p)
}.

(** ** The bit fields of the header bytes *)

Lemma byte_masks b :
  u8 b ->
  Z.shiftr b 6 = b / 64 /\ Z.land b 0x0f = b mod 16 /\ Z.land b 0x7f = b mod 128 /\
  negb (Z.land b 0x20 =? 0) = Z.testbit b 5 /\
  negb (Z.land b 0x10 =? 0) = Z.testbit b 4 /\
  negb (Z.land b 0x80 =? 0) = Z.testbit b 7.
Proof.
  intros Hb.
  assert (((Z.shiftr b 6 =? b / 64) && (Z.land b 0x0f =? b mod 16) &&
    (Z.land b 0x7f =? b mod 128) &&
    Bool.eqb (negb (Z.land b 0x20 =? 0)) (Z.testbit b 5) &&
    Bool.eqb (negb (Z.land b 0x10 =? 0)) (Z.testbit b 4) &&
    Bool.eqb (negb (Z.land b 0x80 =? 0)) (Z.testbit b 7)) = true) as H.
  { byte_exhaust b. }
  rewrite !andb_true_iff, !Z.eqb_eq, !Bool.eqb_true_iff in H. tauto.
Qed.

Lemma second_byte (m : bool) pt :
  uN 7 pt ->
  let b := Z.lor (if m then 0x80 else 0) (Z.land pt 0x7f) in
  u8 b /\ Z.testbit b 7 = m /\ b mod 128 = pt.
Proof.
  intros [H1 H2] b.
  assert (((0 <=? b) && (b <? 256) && Bool.eqb (Z.testbit b 7) m && (b mod 128 =? pt)) = true) as H.
  { subst b. change (2 ^ 7) with 128 in H2. destruct m; range_exhaust pt 0 128. }
  rewrite !andb_true_iff, Z.eqb_eq, Z.leb_le, Z.ltb_lt, Bool.eqb_true_iff in H.
  unfold uN. change (2 ^ 8) with 256. tauto.
Qed.

(** ** The parser on a split datagram *)

Lemma header_reads b0 b1 s t c rest :
  length s = 2%nat -> length t = 4%nat -> length c = 4%nat ->
  let data := b0 :: b1 :: s ++ t ++ c ++ rest in
  rd_be (E := RtpError) data 2 2 = Ok (from_be s) /\
  rd_be (E := RtpError) data 4 4 = Ok (from_be t) /\
  rd_be (E := RtpError) data 8 4 = Ok (from_be c).
Proof.
  intros Hs Ht Hc data.
  assert (data = [b0; b1] ++ s ++ (t ++ c ++ rest)) as H1 by done.
  assert (data = ([b0; b1] ++ s) ++ t ++ (c ++ rest)) as H2 by (by rewrite <- app_assoc).
  assert (data = ([b0; b1] ++ s ++ t) ++ c ++ rest) as H3 by (by rewrite <- !app_assoc).
  split_and!.
  - rewrite H1. by apply rd_be_app.
  - rewrite H2. apply rd_be_app; [|done]. rewrite length_app, Hs. done.
  - rewrite H3. apply rd_be_app; [|done]. rewrite !length_app, Hs, Ht. done.
Qed.

Lemma skip_extension_wire pre ext post :
  wire_ext true ext ->
  skip_extension (pre ++ ext ++ post) (length pre) = Ok (length pre + length ext)%nat.
Proof.
  intros (prof & w & body & -> & Hp & Hw & Hb). unfold skip_extension.
  set (data := pre ++ (prof ++ be_bytes 2 w ++ body) ++ post).
  assert (length data = length pre + (4 + Z.to_nat w * 4) + length post)%nat as Hl.
  { subst data. rewrite !length_app, length_be_bytes, Hp, Hb. lia. }
  assert (data = (pre ++ prof) ++ be_bytes 2 w ++ (body ++ post)) as Hd.
  { subst data. by rewrite <- !app_assoc. }
  rewrite (proj2 (Nat.leb_le _ _)) by lia. cbn [ensure mbind outcome_bind].
  rewrite Hd, (rd_be_app _ _ _ _ 2) by (rewrite ?length_app, ?length_be_bytes; lia).
  rewrite <- Hd. cbn [mbind outcome_bind].
  rewrite from_be_bytes by (change (256 ^ Z.of_nat 2) with (2 ^ 16); done).
  rewrite (proj2 (Nat.leb_le _ _)) by lia. cbn [ensure mbind outcome_bind].
  rewrite !length_app, length_be_bytes, Hp, Hb. f_equal; lia.
Qed.

Lemma strip_padding_wire pre pad off :
  wire_pad true pad -> (off <= length pre)%nat ->
  strip_padding (pre ++ pad) off = Ok (length pre).
Proof.
  intros (pad' & -> & Hp) Hoff. unfold strip_padding.
  set (data := pre ++ pad' ++ _).
  assert (length data = length pre + S (length pad'))%nat as Hl.
  { subst data. rewrite !length_app. cbn. lia. }
  rewrite (usize_sub_Ok _ 1), (usize_sub_Ok _ off) by lia. cbn [mbind outcome_bind].
  assert (data = (pre ++ pad') ++ Z.of_nat (S (length pad')) :: []) as Hd.
  { subst data. by rewrite <- app_assoc. }
  rewrite Hd, idx_app by (rewrite <- Hd, length_app; lia). rewrite <- Hd.
  cbn [mbind outcome_bind]. rewrite Nat2Z.id.
  rewrite (proj2 (Nat.eqb_neq _ 0)), (proj2 (Nat.ltb_ge _ _)) by lia.
  cbn [ensure orb negb mbind outcome_bind].
  rewrite usize_sub_Ok by lia. f_equal; lia.
Qed.

(** A datagram in the wire format is accepted, with the packet it carries. *)
Lemma from_bytes_complete data p : rtp_wire data p -> from_bytes data = Ok p.
Proof.
  intros [(b0 & b1 & csrc & ext & pad & Hd & Hb0 & Hb1 & Hv & Hcc & Hext & Hpad & Hm & Hpt)
          Hs Ht Hc].
  destruct (byte_masks b0 Hb0) as (E1 & E2 & _ & E4 & E5 & _).
  destruct (byte_masks b1 Hb1) as (_ & _ & F3 & _ & _ & F6).
  unfold from_bytes.
  assert (length data = 12 + length csrc + length ext + length (payload p) + length pad)%nat as Hl.
  { rewrite Hd. cbn [length]. rewrite !length_app, !length_be_bytes. lia. }
  destruct (header_reads b0 b1 (be_bytes 2 (sequence p)) (be_bytes 4 (timestamp p))
    (be_bytes 4 (ssrc p)) (csrc ++ ext ++ payload p ++ pad)) as (R1 & R2 & R3);
    [apply length_be_bytes..|]. rewrite <- Hd in R1, R2, R3.
  rewrite (proj2 (Nat.leb_le 12 _)) by lia. cbn [ensure mbind outcome_bind].
  assert (idx (E := RtpError) data 0 = Ok b0) as -> by (by rewrite Hd).
  assert (idx (E := RtpError) data 1 = Ok b1) as -> by (by rewrite Hd).
  cbn [mbind outcome_bind]. rewrite E1, E2, E4, E5, F3, F6, Hv, R1, R2, R3.
  cbn [Z.eqb Pos.eqb ensure mbind outcome_bind].
  rewrite !from_be_bytes by done.
  rewrite (proj2 (Nat.leb_le _ _)) by lia. cbn [ensure mbind outcome_bind].
  set (pre := b0 :: b1 :: be_bytes 2 (sequence p) ++ be_bytes 4 (timestamp p) ++
    be_bytes 4 (ssrc p) ++ csrc).
  assert (data = pre ++ ext ++ (payload p ++ pad)) as Hd1.
  { rewrite Hd. subst pre. cbn [app]. by rewrite <- !app_assoc. }
  assert (length pre = 12 + Z.to_nat (b0 mod 16) * 4)%nat as Hpre.
  { subst pre. cbn [length]. rewrite !length_app, !length_be_bytes. lia. }
  rewrite <- Hpre.
  assert ((if Z.testbit b0 4 then skip_extension data (length pre) else Ok (length pre))
    = Ok (length pre + length ext)%nat) as ->.
  { destruct (Z.testbit b0 4).
    - rewrite Hd1. by apply skip_extension_wire.
    - cbn in Hext. subst ext. f_equal. cbn. lia. }
  cbn [mbind outcome_bind].
  assert ((if Z.testbit b0 5 then strip_padding data (length pre + length ext) else
    Ok (length data)) = Ok (length pre + length ext + length (payload p))%nat) as ->.
  { destruct (Z.testbit b0 5).
    - assert (data = (pre ++ ext ++ payload p) ++ pad) as ->.
      { rewrite Hd1. by rewrite <- !app_assoc. }
      rewrite strip_padding_wire by (try done; rewrite !length_app; lia).
      f_equal. rewrite !length_app. lia.
    - cbn in Hpad. subst pad. f_equal. cbn in Hl. lia. }
  cbn [mbind outcome_bind]. rewrite slice_Ok by lia. cbn [mbind outcome_bind].
  assert (data = (pre ++ ext) ++ payload p ++ pad) as ->.
  { rewrite Hd1. by rewrite <- app_assoc. }
  rewrite <- length_app, drop_app_length.
  replace (length (pre ++ ext) + length (payload p) - length (pre ++ ext))%nat
    with (length (payload p)) by lia.
  rewrite take_app_length. rewrite <- Hm, <- Hpt. by destruct p.
Qed.

Lemma skip_extension_inv data off off' :
  bytes_ok data -> skip_extension data off = Ok off' ->
  (off <= off' <= length data)%nat /\ wire_ext true (take (off' - off) (drop off data)).
Proof.
  unfold skip_extension. intros Hb H. inv_outcome. subst off'.
  apply Nat.leb_le in Heq, Heq1. rename a0 into w.
  pose proof (rd_be_range _ _ _ _ Hb Heq0) as Hw. change (256 ^ Z.of_nat 2) with (2 ^ 16) in Hw.
  rewrite rd_be_Ok in Heq0 by lia. injection Heq0 as Hw'.
  split; [lia|]. exists (take 2 (drop off data)), w,
    (take (Z.to_nat w * 4) (drop (off + 4) data)). split_and!.
  - trans (take (2 + (2 + Z.to_nat w * 4)) (drop off data)); [f_equal; lia|].
    rewrite <- (take_take_drop (drop off data) 2), drop_drop. f_equal.
    rewrite <- (take_take_drop _ 2), drop_drop.
    replace (off + 2 + 2)%nat with (off + 4)%nat by lia. f_equal.
    rewrite <- Hw'. symmetry. replace 2%nat with (length (take 2 (drop (off + 2) data))) at 1.
    + apply be_bytes_from_be. by apply Forall_take, Forall_drop.
    + rewrite length_take, length_drop. lia.
  - rewrite length_take, length_drop. lia.
  - done.
  - rewrite length_take, length_drop. lia.
Qed.

Lemma strip_padding_inv data off e :
  bytes_ok data -> strip_padding data off = Ok e ->
  (off <= e <= length data)%nat /\ wire_pad true (drop e data).
Proof.
  unfold strip_padding. intros Hb H. inv_bytes.
  rename select (data !! _ = Some _) into Hlast. rename a0 into b.
  rename select (negb _ = true) into Hpad.
  apply negb_true_iff, orb_false_iff in Hpad as [Hz Hle].
  apply Nat.eqb_neq in Hz. apply Nat.ltb_ge in Hle.
  split; [lia|].
  pose proof (bytes_ok_lookup _ _ _ Hb Hlast) as Hbr.
  exists (take (Z.to_nat b - 1) (drop (length data - Z.to_nat b) data)).
  rewrite length_take, length_drop.
  replace (Z.of_nat (S ((Z.to_nat b - 1) `min` (length data - (length data - Z.to_nat b)))))
    with b by lia.
  split; [|width].
  rewrite <- (take_drop (Z.to_nat b - 1) (drop (length data - Z.to_nat b) data)) at 1.
  f_equal. rewrite drop_drop.
  replace (length data - Z.to_nat b + (Z.to_nat b - 1))%nat with (length data - 1)%nat by lia.
  rewrite (drop_S data b) by done. f_equal. apply drop_ge. lia.
Qed.

Lemma split_at (data : list Z) i n :
  drop i data = take n (drop i data) ++ drop (i + n) data.
Proof. by rewrite <- drop_drop, take_drop. Qed.

Lemma field_be (data : list Z) i n :
  bytes_ok data -> (i + n <= length data)%nat ->
  be_bytes n (from_be (take n (drop i data))) = take n (drop i data).
Proof.
  intros Hb Hl. assert (length (take n (drop i data)) = n) as Hn.
  { rewrite length_take, length_drop. lia. }
  rewrite <- Hn at 1. apply be_bytes_from_be. by apply Forall_take, Forall_drop.
Qed.

(** What the accepted datagram is made of. *)
Lemma from_bytes_sound data p :
  bytes_ok data -> from_bytes data = Ok p -> rtp_wire data p.
Proof.
  intros Hb H. unfold from_bytes in H. inv_outcome.
  rename select (rd_be data 2 2 = _) into R1. rename select (rd_be data 4 4 = _) into R2.
  rename select (rd_be data 8 4 = _) into R3. rename select (slice _ _ _ = _) into Hs.
  rename select (idx data 0 = _) into I0. rename select (idx data 1 = _) into I1.
  apply idx_inv in I0, I1. apply slice_inv in Hs as [Hs Hse]. apply Nat.leb_le in Heq.
  rename a0 into b0, a1 into b1, a7 into off', a8 into e.
  pose proof (bytes_ok_lookup _ _ _ Hb I0) as Hb0.
  pose proof (bytes_ok_lookup _ _ _ Hb I1) as Hb1.
  destruct (byte_masks b0 Hb0) as (E1 & E2 & _ & E4 & E5 & _).
  destruct (byte_masks b1 Hb1) as (_ & _ & F3 & _ & _ & F6).
  rewrite E1 in *. rewrite E2, E4, E5 in *.
  pose proof (rd_be_range _ _ _ _ Hb R1). pose proof (rd_be_range _ _ _ _ Hb R2).
  pose proof (rd_be_range _ _ _ _ Hb R3).
  rewrite rd_be_Ok in R1, R2, R3 by lia. injection R1 as R1. injection R2 as R2.
  injection R3 as R3.
  rename select (_ = true) into Hcc; apply Nat.leb_le in Hcc.
  rename select ((b0 / 64 =? 2) = true) into Hv; apply Z.eqb_eq in Hv.
  set (o := (12 + Z.to_nat (b0 mod 16) * 4)%nat) in *.
  assert ((o <= off' <= length data)%nat /\
    wire_ext (Z.testbit b0 4) (take (off' - o) (drop o data))) as [Ho Hext].
  { destruct (Z.testbit b0 4).
    - by apply skip_extension_inv.
    - match goal with X : Ok _ = Ok off' |- _ => injection X as <- end.
      rewrite Nat.sub_diag. split; [lia | done]. }
  assert ((off' <= e <= length data)%nat /\ wire_pad (Z.testbit b0 5) (drop e data))
    as [He Hpad].
  { destruct (Z.testbit b0 5).
    - by apply strip_padding_inv.
    - match goal with X : Ok _ = Ok e |- _ => injection X as <- end.
      rewrite drop_ge by done. split; [lia | done]. }
  subst p. constructor; cbn; [|done..].
  exists b0, b1, (take (o - 12) (drop 12 data)), (take (off' - o) (drop o data)), (drop e data).
  split_and!; [|done..| |done|done|done|done].
  - rewrite <- R1, <- R2, <- R3, !field_be by (done || lia).
    rewrite <- (drop_0 data) at 1. rewrite (drop_S data b0), (drop_S data b1) by done.
    do 2 f_equal. rewrite (split_at data 2 2) at 1. f_equal.
    rewrite (split_at data (2 + 2) 4) at 1. f_equal.
    rewrite (split_at data (2 + 2 + 4) 4) at 1. f_equal.
    rewrite (split_at data (2 + 2 + 4 + 4) (o - 12)) at 1. f_equal.
    replace (2 + 2 + 4 + 4 + (o - 12))%nat with o by lia.
    rewrite (split_at data o (off' - o)) at 1. f_equal.
    replace (o + (off' - o))%nat with off' by lia.
    rewrite (split_at data off' (e - off')) at 1. rewrite Hs.
    replace (off' + (e - off'))%nat with e by lia. done.
  - rewrite length_take, length_drop. lia.
Qed.

Lemma to_bytes_wire p : rtp_ok p -> rtp_wire (to_bytes p) p.
Proof.
  intros [Hpt Hs Ht Hc Hp].
  destruct (second_byte (marker p) (payload_type p) Hpt) as (B1 & B2 & B3).
  constructor; [|done..].
  exists 0x80, (Z.lor (if marker p then 0x80 else 0) (Z.land (payload_type p) 0x7f)), [], [], [].
  split_and!; [|width|done..].
  unfold to_bytes. cbn [app]. by rewrite app_nil_r.
Qed.

Lemma strip_padding_no_panic data off :
  (0 < length data)%nat -> (off <= length data)%nat -> no_panic (strip_padding data off).
Proof.
  intros H1 H2. unfold strip_padding.
  apply no_panic_bind; [auto with outcome lia|]. intros last [-> _]%usize_sub_inv.
  apply no_panic_bind; [apply idx_no_panic; lia|]. intros b _.
  apply no_panic_bind; [auto with outcome|]. intros avail [-> _]%usize_sub_inv.
  apply no_panic_bind; [auto with outcome|]. intros _ Hg%ensure_Ok_inv.
  apply negb_true_iff, orb_false_iff in Hg as [_ Hg%Nat.ltb_ge].
  apply usize_sub_no_panic. lia.
Qed.

Lemma skip_extension_no_panic data off : no_panic (skip_extension data off).
Proof.
  unfold skip_extension.
  apply no_panic_bind; [auto with outcome|]. intros _ Hg%ensure_Ok_inv%Nat.leb_le.
  apply no_panic_bind; [apply rd_be_no_panic; lia|]. intros w _.
  apply no_panic_bind; auto with outcome.
Qed.

Lemma skip_extension_bound data off off' :
  skip_extension data off = Ok off' -> (off' <= length data)%nat.
Proof.
  unfold skip_extension. intros H. inv_outcome. subst off'.
  rename select ((_ <=? _)%nat = true) into Hg. by apply Nat.leb_le in Hg.
Qed.

Lemma strip_padding_bound data off e :
  strip_padding data off = Ok e -> (off <= e <= length data)%nat.
Proof.
  unfold strip_padding. intros H. inv_bytes.
  rename select (negb _ = true) into Hg.
  apply negb_true_iff, orb_false_iff in Hg as [_ Hg%Nat.ltb_ge]. lia.
Qed.

(** ** Properties *)

(** [RtpPacket::from_bytes] inverts [RtpPacket::to_bytes]: every packet
    whose fields fit their wire width (a payload type of 7 bits, a 16-bit
    sequence, 32-bit timestamp and SSRC) is read back exactly. *)
Theorem rtp_roundtrip p : rtp_ok p -> from_bytes (to_bytes p) = Ok p.
Proof. intros Hp. by apply from_bytes_complete, to_bytes_wire. Qed.

Definition sample_packet : RtpPacket := mkRtp 0 true 12345 0xDEADBEEF 0xCAFEBABE [1; 2; 3].

Lemma rtp_roundtrip_witness :
  rtp_ok sample_packet /\ from_bytes (to_bytes sample_packet) = Ok sample_packet.
Proof.
  assert (rtp_ok sample_packet) as H.
  { constructor; unfold uN; cbn; try lia. repeat constructor; lia. }
  split; [exact H | exact (rtp_roundtrip sample_packet H)].
Defined.

(** C40: the parser accepts exactly the datagrams of the RFC 3550 layout (CSRC
    list, extension header and padding included), with exactly the packet they
    carry: it neither rejects a well-formed datagram nor accepts another. *)
Theorem from_bytes_refines_wire data p :
  bytes_ok data -> (from_bytes data = Ok p <-> rtp_wire data p).
Proof.
  intros Hb. split; [by apply from_bytes_sound | apply from_bytes_complete].
Qed.

(** A datagram with one CSRC, a one-word extension and two bytes of padding. *)
Definition sample_datagram : list Z :=
  [0xB1; 0x80; 0; 7; 0; 0; 0; 160; 1; 2; 3; 4; 9; 9; 9; 9;
   0xBE; 0xDE; 0; 1; 5; 5; 5; 5; 0xAA; 0xBB; 0; 2].

Lemma from_bytes_refines_wire_witness :
  bytes_ok sample_datagram /\
  rtp_wire sample_datagram (mkRtp 0 true 7 160 0x01020304 [0xAA; 0xBB]).
Proof.
  assert (bytes_ok sample_datagram) as H.
  { repeat constructor; unfold uN; lia. }
  split; [exact H|]. apply (from_bytes_refines_wire _ _ H). by vm_compute.
Defined.

(** No datagram of any content makes [from_bytes] panic: every index,
    slice and [usize] subtraction of the parser is in range. *)
Theorem from_bytes_no_panic data : no_panic (from_bytes data).
Proof.
  unfold from_bytes.
  apply no_panic_bind; [auto with outcome|]. intros _ Hl%ensure_Ok_inv%Nat.leb_le.
  apply no_panic_bind; [apply idx_no_panic; lia|]. intros b0 _.
  apply no_panic_bind; [apply idx_no_panic; lia|]. intros b1 _.
  apply no_panic_bind; [auto with outcome|]. intros _ _.
  do 3 (apply no_panic_bind; [apply rd_be_no_panic; lia|]; intros ? _).
  apply no_panic_bind; [auto with outcome|]. intros _ Ho%ensure_Ok_inv%Nat.leb_le.
  set (x := negb (Z.land b0 0x10 =? 0)). set (pd := negb (Z.land b0 0x20 =? 0)).
  apply no_panic_bind.
  { destruct x; [apply skip_extension_no_panic | auto with outcome]. }
  intros off Hoff.
  assert (off <= length data)%nat as Hoff'.
  { destruct x; [by apply skip_extension_bound in Hoff | by simplify_eq]. }
  apply no_panic_bind.
  { destruct pd; [apply strip_padding_no_panic; lia | auto with outcome]. }
  intros e He.
  assert (off <= e <= length data)%nat.
  { destruct pd; [by apply strip_padding_bound in He | by simplify_eq]. }
  apply no_panic_bind; [by apply slice_no_panic | auto with outcome].
Qed.
