(* ===== verification/Rtcp.v ===== *)
(** RTCP sender and receiver reports (src/src/rtp/rtcp.rs): report blocks, the
    SR and RR packets of RFC 3550 §6.4, their parsers, and the NTP timestamps
    they carry. *)
From S2P Require Import Prelude Bytes F64.

Definition PT_SR : Z := 200.
Definition PT_RR : Z := 201.
Definition PT_SDES : Z := 202.
Definition PT_BYE : Z := 203.

Definition NTP_UNIX_OFFSET : Z := 2208988800.

Record NtpTimestamp := mkNtp { seconds : Z; fraction : Z }.

(** [NtpTimestamp::now] for the wall clock [dur], the time since the Unix
    epoch ([u64] seconds; the addition of the epoch offset is checked). *)
Definition ntp_now {E} (dur : Z) : outcome E NtpTimestamp :=
  secs ← checked 64 (as_secs dur + NTP_UNIX_OFFSET);
  let nanos := subsec_nanos dur in
  let fraction := wrap 32 (Z.shiftl nanos 32 / 1000000000) in
  Ok (mkNtp (wrap 32 secs) fraction).

Definition middle32 (n : NtpTimestamp) : Z :=
  Z.lor (Z.shiftl (Z.land (seconds n) 0xFFFF) 16) (Z.shiftr (fraction n) 16).

(** [u32::MAX as f64 + 1.0]: one second in units of [fraction]. *)
Definition two32 : f64 := f64_add (f64_of_Z 4294967295) (f64_of_Z 1).

Definition elapsed_from (n earlier : NtpTimestamp) : f64 :=
  let self_secs :=
    f64_add (f64_of_Z (seconds n)) (f64_div (f64_of_Z (fraction n)) two32) in
  let earlier_secs :=
    f64_add (f64_of_Z (seconds earlier)) (f64_div (f64_of_Z (fraction earlier)) two32) in
  f64_sub self_secs earlier_secs.

Record ReportBlock := mkReport {
  rb_ssrc : Z;
  fraction_lost : Z;
  cumulative_lost : Z;
  extended_highest_seq : Z;
  jitter : Z;
  last_sr : Z;
  delay_since_last_sr : Z
}.

Record SenderReport := mkSR {
  sr_ssrc : Z;
  sr_ntp : NtpTimestamp;
  sr_rtp_timestamp : Z;
  sr_packet_count : Z;
  sr_octet_count : Z;
  sr_reports : list ReportBlock
}.

Record ReceiverReport := mkRR { rr_ssrc : Z; rr_reports : list ReportBlock }.

Inductive RtcpError :=
  | RtcpReportShort (len : nat)
  | RtcpHeaderShort (len : nat)
  | RtcpBadVersion (v : Z)
  | RtcpBadPt (expected got : Z)
  | RtcpTruncated (declared got : nat)
  | RtcpBodyShort (len : nat)
  | RtcpReportsShort.

(** ** Serialization *)

Definition rb_write (r : ReportBlock) : list Z :=
  let cum := Z.land (cumulative_lost r) 0x00FFFFFF in
  be_bytes 4 (rb_ssrc r) ++ [fraction_lost r] ++
  [wrap 8 (Z.shiftr cum 16); wrap 8 (Z.shiftr cum 8); wrap 8 cum] ++
  be_bytes 4 (extended_highest_seq r) ++ be_bytes 4 (jitter r) ++
  be_bytes 4 (last_sr r) ++ be_bytes 4 (delay_since_last_sr r).

Definition sr_to_bytes (s : SenderReport) : list Z :=
  let rc := Z.min (Z.of_nat (length (sr_reports s))) 31 in
  let body_len_words := (28 / 4 - 1) + rc * 6 in
  [Z.lor 0x80 rc; PT_SR] ++ be_bytes 2 (wrap 16 body_len_words) ++
  be_bytes 4 (sr_ssrc s) ++ be_bytes 4 (seconds (sr_ntp s)) ++
  be_bytes 4 (fraction (sr_ntp s)) ++ be_bytes 4 (sr_rtp_timestamp s) ++
  be_bytes 4 (sr_packet_count s) ++ be_bytes 4 (sr_octet_count s) ++
  concat (map rb_write (take 31 (sr_reports s))).

Definition rr_to_bytes (s : ReceiverReport) : list Z :=
  let rc := Z.min (Z.of_nat (length (rr_reports s))) 31 in
  let body_len_words := (8 / 4 - 1) + rc * 6 in
  [Z.lor 0x80 rc; PT_RR] ++ be_bytes 2 (wrap 16 body_len_words) ++
  be_bytes 4 (rr_ssrc s) ++
  concat (map rb_write (take 31 (rr_reports s))).

(** ** Parsing *)

Definition rb_from_bytes (data : list Z) : outcome RtcpError ReportBlock :=
  ensure (24 <=? length data)%nat (RtcpReportShort (length data)) ;;
  ssrc ← rd_be data 0 4;
  fraction_lost ← idx data 4;
  b5 ← idx data 5;
  b6 ← idx data 6;
  b7 ← idx data 7;
  let cumulative_lost := Z.lor (Z.lor (Z.shiftl b5 16) (Z.shiftl b6 8)) b7 in
  extended_highest_seq ← rd_be data 8 4;
  jitter ← rd_be data 12 4;
  last_sr ← rd_be data 16 4;
  delay_since_last_sr ← rd_be data 20 4;
  Ok (mkReport ssrc fraction_lost cumulative_lost extended_highest_seq jitter last_sr
        delay_since_last_sr).

(** [parse_rtcp_header]: the report count and the body. *)
Definition parse_rtcp_header (data : list Z) (expected_pt : Z)
  : outcome RtcpError (nat * list Z) :=
  ensure (4 <=? length data)%nat (RtcpHeaderShort (length data)) ;;
  b0 ← idx data 0;
  let v := Z.shiftr b0 6 in
  ensure (v =? 2) (RtcpBadVersion v) ;;
  let rc := Z.land b0 0x1f in
  pt ← idx data 1;
  ensure (pt =? expected_pt) (RtcpBadPt expected_pt pt) ;;
  length_words ← rd_be data 2 2;
  let total_bytes := ((Z.to_nat length_words + 1) * 4)%nat in
  ensure (total_bytes <=? length data)%nat (RtcpTruncated total_bytes (length data)) ;;
  body ← slice data 4 total_bytes;
  Ok (Z.to_nat rc, body).

(** The loop [for _ in 0..rc] over the report blocks. *)
Fixpoint read_reports (n : nat) (body : list Z) (off : nat)
  : outcome RtcpError (list ReportBlock) :=
  match n with
  | O => Ok []
  | S n =>
      ensure (off + 24 <=? length body)%nat RtcpReportsShort ;;
      s ← slice body off (off + 24);
      r ← rb_from_bytes s;
      rest ← read_reports n body (off + 24);
      Ok (r :: rest)
  end.

Definition sr_from_bytes (data : list Z) : outcome RtcpError SenderReport :=
  '(rc, body) ← parse_rtcp_header data PT_SR;
  ensure (24 <=? length body)%nat (RtcpBodyShort (length body)) ;;
  ssrc ← rd_be body 0 4;
  secs ← rd_be body 4 4;
  frac ← rd_be body 8 4;
  rtp_timestamp ← rd_be body 12 4;
  packet_count ← rd_be body 16 4;
  octet_count ← rd_be body 20 4;
  reports ← read_reports rc body 24;
  Ok (mkSR ssrc (mkNtp secs frac) rtp_timestamp packet_count octet_count reports).

Definition rr_from_bytes (data : list Z) : outcome RtcpError ReceiverReport :=
  '(rc, body) ← parse_rtcp_header data PT_RR;
  ensure (4 <=? length body)%nat (RtcpBodyShort (length body)) ;;
  ssrc ← rd_be body 0 4;
  reports ← read_reports rc body 4;
  Ok (mkRR ssrc reports).

Definition peek_packet_type (data : list Z) : option Z :=
  match data with
  | b0 :: b1 :: _ => if negb (Z.shiftr b0 6 =? 2) then None else Some b1
  | _ => None
  end.

(** ** Well-formed reports: the fields fit the Rust types *)

Record rb_ok (r : ReportBlock) : Prop := {
  rbo_ssrc : u32 (rb_ssrc r);
  rbo_frac : u8 (fraction_lost r);
  rbo_cum : u32 (cumulative_lost r);
  rbo_seq : u32 (extended_highest_seq r);
  rbo_jit : u32 (jitter r);
  rbo_lsr : u32 (last_sr r);
  rbo_dlsr : u32 (delay_since_last_sr r)
}.

Record sr_ok (s : SenderReport) : Prop := {
  sro_ssrc : u32 (sr_ssrc s);
  sro_sec : u32 (seconds (sr_ntp s));
  sro_frac : u32 (fraction (sr_ntp s));
  sro_ts : u32 (sr_rtp_timestamp s);
  sro_pc : u32 (sr_packet_count s);
  sro_oc : u32 (sr_octet_count s);
  sro_reports : Forall rb_ok (sr_reports s)
}.

Record rr_ok (s : ReceiverReport) : Prop := {
  rro_ssrc : u32 (rr_ssrc s);
  rro_reports : Forall rb_ok (rr_reports s)
}.

(** What the wire carries of a block: 24 bits of [cumulative_lost]. *)
Definition rb_wire (r : ReportBlock) : ReportBlock :=
  mkReport (rb_ssrc r) (fraction_lost r) (Z.land (cumulative_lost r) 0x00FFFFFF)
    (extended_highest_seq r) (jitter r) (last_sr r) (delay_since_last_sr r).

(** What the wire carries of a report: the first 31 blocks. *)
Definition sr_wire (s : SenderReport) : SenderReport :=
  mkSR (sr_ssrc s) (sr_ntp s) (sr_rtp_timestamp s) (sr_packet_count s) (sr_octet_count s)
    (map rb_wire (take 31 (sr_reports s))).
Definition rr_wire (s : ReceiverReport) : ReceiverReport :=
  mkRR (rr_ssrc s) (map rb_wire (take 31 (rr_reports s))).

(** ** Lemmas *)

Lemma length_rb_write r : length (rb_write r) = 24%nat.
Proof. unfold rb_write. rewrite !length_app, !length_be_bytes. done. Qed.

Lemma cum_bytes c :
  u32 c ->
  let cum := Z.land c 0x00FFFFFF in
  Z.lor (Z.lor (Z.shiftl (wrap 8 (Z.shiftr cum 16)) 16) (Z.shiftl (wrap 8 (Z.shiftr cum 8)) 8))
    (wrap 8 cum) = cum.
Proof.
  intros Hc cum. unfold wrap.
  assert (0 <= cum < 2 ^ 24) as Hcum.
  { subst cum. change 0x00FFFFFF with (Z.ones 24). rewrite Z.land_ones by lia.
    apply Z.mod_pos_bound. lia. }
  clearbody cum.
  apply Z.bits_inj'. intros n Hn.
  rewrite !Z.lor_spec, !Z.shiftl_spec by lia.
  destruct (Z.lt_ge_cases n 8).
  { rewrite !Z.testbit_neg_r by lia. by rewrite Z.mod_pow2_bits_low by lia. }
  rewrite (Z.mod_pow2_bits_high cum 8 n) by lia.
  destruct (Z.lt_ge_cases n 16).
  { rewrite Z.testbit_neg_r, Z.mod_pow2_bits_low, Z.shiftr_spec by lia.
    rewrite orb_false_r. cbn. f_equal; lia. }
  rewrite (Z.mod_pow2_bits_high _ 8 (n - 8)) by lia.
  destruct (Z.lt_ge_cases n 24).
  { rewrite Z.mod_pow2_bits_low, Z.shiftr_spec by lia. rewrite !orb_false_r. f_equal; lia. }
  rewrite Z.mod_pow2_bits_high by lia.
  symmetry. destruct (Z.eq_dec cum 0) as [-> | Hz]; [by rewrite Z.bits_0|].
  apply Z.bits_above_log2; [lia|]. apply Z.log2_lt_pow2; [lia|].
  apply Z.lt_le_trans with (2 ^ 24); [lia|]. apply Z.pow_le_mono_r; lia.
Qed.

(** The fields of a buffer split into consecutive pieces. *)
Lemma rd_be_skip {E} (pre rest : list Z) off n :
  (length pre <= off)%nat -> (n <> 0)%nat ->
  rd_be (E := E) (pre ++ rest) off n = rd_be rest (off - length pre) n.
Proof.
  intros Hl _. unfold rd_be. f_equal.
  revert off Hl. induction n as [|n IH]; intros off Hl; [done|]. cbn.
  unfold idx. rewrite lookup_app_r by done.
  destruct (rest !! (off - length pre)%nat); cbn; [|done].
  rewrite IH by lia. by replace (S off - length pre)%nat with (S (off - length pre)) by lia.
Qed.

Lemma rd_be_head {E} n (z : Z) (rest : list Z) :
  0 <= z < 256 ^ Z.of_nat n -> rd_be (E := E) (be_bytes n z ++ rest) 0 n = Ok z.
Proof.
  intros Hz. pose proof (rd_be_app (E := E) [] (be_bytes n z) rest 0 n) as H.
  rewrite <- (from_be_bytes n z Hz) at 2. apply H; [done | apply length_be_bytes].
Qed.

Lemma rd_be_cons {E} b (rest : list Z) off n :
  rd_be (E := E) (b :: rest) (S off) n = rd_be rest off n.
Proof.
  unfold rd_be. f_equal. revert off. induction n as [|n IH]; intros off; [done|].
  cbn. unfold idx. cbn. by rewrite IH.
Qed.

(** Reads the field at an offset of an explicit concatenation. *)
Ltac read_be :=
  repeat (first [rewrite rd_be_skip by (rewrite ?length_be_bytes; cbn; lia) | rewrite rd_be_cons];
          rewrite ?length_be_bytes; cbn [length Nat.sub]);
  rewrite rd_be_head by (first [done | width]).

Lemma idx_skip {E} (pre rest : list Z) off :
  (length pre <= off)%nat -> idx (E := E) (pre ++ rest) off = idx rest (off - length pre).
Proof. intros Hl. unfold idx. by rewrite lookup_app_r. Qed.

(** Steps through the reads of a parser over an explicit concatenation. *)
Ltac step_read :=
  first [ rewrite idx_skip by (rewrite ?length_be_bytes; cbn; lia);
          rewrite ?length_be_bytes; cbn [Nat.sub]; cbn [app]; rewrite ?idx_cons_S, idx_cons_0
        | read_be ];
  cbn [mbind outcome_bind].

Lemma rb_roundtrip r : rb_ok r -> rb_from_bytes (rb_write r) = Ok (rb_wire r).
Proof.
  intros H. destruct H. unfold rb_from_bytes.
  rewrite length_rb_write. cbn [ensure Nat.leb mbind outcome_bind].
  unfold rb_write. cbv zeta. cbn [app].
  do 8 step_read. rewrite <- (app_nil_r (be_bytes 4 (delay_since_last_sr r))). step_read.
  unfold rb_wire. rewrite (cum_bytes (cumulative_lost r)) by done. done.
Qed.

Lemma length_rb_writes l : length (concat (map rb_write l)) = (24 * length l)%nat.
Proof.
  induction l as [|r l IH]; [done|]. cbn [map concat length].
  rewrite length_app, length_rb_write, IH. lia.
Qed.

Lemma read_reports_writes l pre :
  Forall rb_ok l ->
  read_reports (length l) (pre ++ concat (map rb_write l)) (length pre) = Ok (map rb_wire l).
Proof.
  intros Hl. revert pre. induction Hl as [|r l Hr Hl IH]; intros pre; [done|].
  cbn [length read_reports map concat].
  rewrite (proj2 (Nat.leb_le _ _)) by (rewrite !length_app, length_rb_write; lia).
  cbn [ensure mbind outcome_bind].
  rewrite slice_Ok by (rewrite !length_app, length_rb_write; lia).
  cbn [mbind outcome_bind].
  rewrite drop_app_length.
  replace (length pre + 24 - length pre)%nat with (length (rb_write r))
    by (rewrite length_rb_write; lia).
  rewrite take_app_length, (rb_roundtrip r Hr). cbn [mbind outcome_bind].
  rewrite (app_assoc pre).
  replace (length pre + 24)%nat with (length (pre ++ rb_write r))
    by (rewrite length_app, length_rb_write; done).
  by rewrite IH.
Qed.

(** The header of a packet with [rc] blocks and a body of [words] words,
    whatever follows it in a compound packet. *)
Lemma parse_header_app rc pt words body rest :
  0 <= rc <= 31 -> 0 <= words < 65536 -> length body = (Z.to_nat words * 4)%nat ->
  parse_rtcp_header ((Z.lor 0x80 rc :: pt :: be_bytes 2 words) ++ body ++ rest) pt =
  Ok (Z.to_nat rc, body).
Proof.
  intros Hrc Hw Hb. unfold parse_rtcp_header.
  assert ((Z.shiftr (Z.lor 0x80 rc) 6 =? 2) && (Z.land (Z.lor 0x80 rc) 0x1f =? rc) = true)
    as [Hv Hr]%andb_true_iff by range_exhaust rc 0 32.
  apply Z.eqb_eq in Hr.
  rewrite (proj2 (Nat.leb_le 4 _)) by (cbn; rewrite length_app, length_be_bytes; lia).
  cbn [ensure mbind outcome_bind app]. rewrite idx_cons_S, !idx_cons_0.
  cbn [mbind outcome_bind]. rewrite Hv, Hr. cbn [ensure mbind outcome_bind].
  rewrite Z.eqb_refl. cbn [ensure mbind outcome_bind].
  read_be. cbn [mbind outcome_bind].
  rewrite (proj2 (Nat.leb_le _ _)) by (cbn; rewrite !length_app, length_be_bytes; lia).
  cbn [ensure mbind outcome_bind].
  rewrite slice_Ok by (cbn; rewrite !length_app, length_be_bytes; lia).
  cbn [mbind outcome_bind]. do 2 f_equal.
  change (?a :: ?b :: ?c ++ ?d) with ((a :: b :: c) ++ d).
  rewrite drop_app_length' by (cbn; rewrite length_be_bytes; done).
  apply take_app_length'. lia.
Qed.

(** ** No input panics *)

Lemma rb_from_bytes_no_panic data : no_panic (rb_from_bytes data).
Proof.
  unfold rb_from_bytes. apply no_panic_bind; [auto with outcome|].
  intros u Hl%ensure_Ok_inv%Nat.leb_le.
  repeat (apply no_panic_bind; [auto with outcome lia|]; intros ? _).
  auto with outcome.
Qed.

Lemma read_reports_no_panic n body off : no_panic (read_reports n body off).
Proof.
  revert off; induction n as [|n IH]; intros off; cbn [read_reports]; [auto with outcome|].
  apply no_panic_bind; [auto with outcome|]. intros u Hl%ensure_Ok_inv%Nat.leb_le.
  apply no_panic_bind; [apply slice_no_panic; lia|]. intros s _.
  apply no_panic_bind; [apply rb_from_bytes_no_panic|]. intros r _.
  apply no_panic_bind; [apply IH|]. intros. auto with outcome.
Qed.

Lemma parse_rtcp_header_no_panic data pt : no_panic (parse_rtcp_header data pt).
Proof.
  unfold parse_rtcp_header. apply no_panic_bind; [auto with outcome|].
  intros u Hl%ensure_Ok_inv%Nat.leb_le.
  repeat (apply no_panic_bind; [solve [auto with outcome lia]|]; intros ? ?).
  apply no_panic_bind; [|auto with outcome].
  rename select (ensure (_ <=? _)%nat _ = _) into Hx.
  apply slice_no_panic. apply ensure_Ok_inv, Nat.leb_le in Hx. lia.
Qed.

(** ** Round trips *)

Lemma report_count l :
  let rc := Z.min (Z.of_nat (length l)) 31 in
  0 <= rc <= 31 /\ Z.to_nat rc = length (take 31 l : list ReportBlock).
Proof. cbn. rewrite length_take. lia. Qed.

Lemma sr_parse s rest :
  sr_ok s -> sr_from_bytes (sr_to_bytes s ++ rest) = Ok (sr_wire s).
Proof.
  intros H. destruct H. unfold sr_to_bytes, sr_from_bytes.
  destruct (report_count (sr_reports s)) as [Hrc Hn]. cbv zeta in *.
  set (rc := Z.min _ 31) in *. clearbody rc.
  rewrite (wrap_small 16) by width.
  set (fields := be_bytes 4 (sr_ssrc s) ++ _).
  change (([?a; ?b] ++ be_bytes 2 ?w ++ fields) ++ rest)
    with (((a :: b :: be_bytes 2 w) ++ fields) ++ rest).
  assert (fields = (be_bytes 4 (sr_ssrc s) ++ be_bytes 4 (seconds (sr_ntp s)) ++
    be_bytes 4 (fraction (sr_ntp s)) ++ be_bytes 4 (sr_rtp_timestamp s) ++
    be_bytes 4 (sr_packet_count s) ++ be_bytes 4 (sr_octet_count s)) ++
    concat (map rb_write (take 31 (sr_reports s)))) as Hf.
  { unfold fields. by rewrite <- !app_assoc. }
  rewrite <- app_assoc, parse_header_app; [| done | width |].
  2: { rewrite Hf, !length_app, !length_be_bytes, length_rb_writes. width. }
  cbn [mbind outcome_bind].
  assert (length fields = (24 + 24 * length (take 31 (sr_reports s)))%nat) as Hlen.
  { rewrite Hf, !length_app, !length_be_bytes, length_rb_writes. lia. }
  rewrite (proj2 (Nat.leb_le 24 _)) by lia. cbn [ensure mbind outcome_bind].
  assert (read_reports (Z.to_nat rc) fields 24 = Ok (map rb_wire (take 31 (sr_reports s)))) as ->.
  { rewrite Hf, Hn. apply read_reports_writes. by apply Forall_take. }
  unfold fields. do 6 step_read. by destruct s as [? []].
Qed.

Lemma rr_parse s rest :
  rr_ok s -> rr_from_bytes (rr_to_bytes s ++ rest) = Ok (rr_wire s).
Proof.
  intros H. destruct H. unfold rr_to_bytes, rr_from_bytes.
  destruct (report_count (rr_reports s)) as [Hrc Hn]. cbv zeta in *.
  set (rc := Z.min _ 31) in *. clearbody rc.
  rewrite (wrap_small 16) by width.
  set (fields := be_bytes 4 (rr_ssrc s) ++ _).
  change (([?a; ?b] ++ be_bytes 2 ?w ++ fields) ++ rest)
    with (((a :: b :: be_bytes 2 w) ++ fields) ++ rest).
  assert (length fields = (4 + 24 * length (take 31 (rr_reports s)))%nat) as Hlen.
  { unfold fields. rewrite !length_app, length_be_bytes, length_rb_writes. lia. }
  rewrite <- app_assoc, parse_header_app; [| done | width | width].
  cbn [mbind outcome_bind].
  rewrite (proj2 (Nat.leb_le 4 _)) by lia. cbn [ensure mbind outcome_bind].
  assert (read_reports (Z.to_nat rc) fields 4 = Ok (map rb_wire (take 31 (rr_reports s)))) as ->.
  { rewrite Hn. apply read_reports_writes. by apply Forall_take. }
  unfold fields. step_read. done.
Qed.

Lemma read_reports_length n body off l :
  read_reports n body off = Ok l -> length l = n.
Proof.
  revert off l; induction n as [|n IH]; intros off l H; cbn [read_reports] in H.
  - by inv_outcome; subst.
  - inv_outcome; subst. cbn. f_equal. by eapply IH.
Qed.

Lemma parse_rtcp_header_count data pt rc body :
  parse_rtcp_header data pt = Ok (rc, body) ->
  rc = Z.to_nat (Z.land (nth 0 data 0) 0x1f).
Proof.
  unfold parse_rtcp_header. intros H. inv_outcome. simplify_eq.
  apply idx_inv in Heq0. by destruct data; simplify_eq/=.
Qed.

(** ** Properties *)

(** A sender report and a receiver report, serialized and followed by
    whatever else the compound packet holds, parse back to the report that was
    sent: every field, the first 31 report blocks, 24 bits of each cumulative
    loss. *)
Theorem rtcp_roundtrip s r rest :
  sr_ok s -> rr_ok r ->
  sr_from_bytes (sr_to_bytes s ++ rest) = Ok (sr_wire s) /\
  rr_from_bytes (rr_to_bytes r ++ rest) = Ok (rr_wire r) /\
  peek_packet_type (sr_to_bytes s ++ rest) = Some PT_SR /\
  peek_packet_type (rr_to_bytes r ++ rest) = Some PT_RR.
Proof.
  intros Hs Hr. split; [by apply sr_parse|]. split; [by apply rr_parse|].
  assert (forall rc, 0 <= rc <= 31 -> (Z.shiftr (Z.lor 0x80 rc) 6 =? 2) = true) as Hv.
  { intros rc Hrc. range_exhaust rc 0 32. }
  unfold sr_to_bytes, rr_to_bytes, peek_packet_type. cbn [app].
  by rewrite !Hv by apply report_count.
Qed.

Lemma rtcp_roundtrip_witness :
  let b := mkReport 7 255 0x1ffffff 70000 3 4 5 in
  let s := mkSR 1 (mkNtp 2 3) 4 5 6 (replicate 40 b) in
  let r := mkRR 9 [b; b] in
  sr_from_bytes (sr_to_bytes s ++ rr_to_bytes r) = Ok (sr_wire s) /\
  rr_from_bytes (rr_to_bytes r ++ [1]) = Ok (rr_wire r).
Proof.
  intros b s r.
  assert (rb_ok b) as Hb by (split; cbn; width).
  assert (sr_ok s) as Hs by (split; [cbn; width ..| by apply Forall_replicate]).
  assert (rr_ok r) as Hr by (split; [cbn; width | by repeat constructor]).
  split; [apply (rtcp_roundtrip s r _ Hs Hr) | apply (rtcp_roundtrip s r _ Hs Hr)].
Defined.

(** No buffer makes the RTCP parsers panic, and a report they accept has
    as many blocks as its header counts. *)
Theorem rtcp_parse_safe data :
  let rc := Z.to_nat (Z.land (nth 0 data 0) 0x1f) in
  match sr_from_bytes data with
  | Ok s => length (sr_reports s) = rc | Err _ => True | Panic => False
  end /\
  match rr_from_bytes data with
  | Ok r => length (rr_reports r) = rc | Err _ => True | Panic => False
  end.
Proof.
  cbv zeta. split.
  - assert (no_panic (sr_from_bytes data)) as Hn.
    { unfold sr_from_bytes. apply no_panic_bind; [apply parse_rtcp_header_no_panic|].
      intros [rc body] _. apply no_panic_bind; [auto with outcome|].
      intros u Hl%ensure_Ok_inv%Nat.leb_le.
      do 6 (apply no_panic_bind; [solve [auto with outcome lia]|]; intros ? _).
      apply no_panic_bind; [apply read_reports_no_panic | auto with outcome]. }
    destruct (sr_from_bytes data) as [s | |] eqn:Hs; try done.
    unfold sr_from_bytes in Hs. inv_outcome. destruct a as [rc body]. inv_outcome. subst s. cbn.
    apply parse_rtcp_header_count in Heq as <-. by eapply read_reports_length.
  - assert (no_panic (rr_from_bytes data)) as Hn.
    { unfold rr_from_bytes. apply no_panic_bind; [apply parse_rtcp_header_no_panic|].
      intros [rc body] _. apply no_panic_bind; [auto with outcome|].
      intros u Hl%ensure_Ok_inv%Nat.leb_le.
      apply no_panic_bind; [solve [auto with outcome lia]|]; intros ? _.
      apply no_panic_bind; [apply read_reports_no_panic | auto with outcome]. }
    destruct (rr_from_bytes data) as [r | |] eqn:Hr; try done.
    unfold rr_from_bytes in Hr. inv_outcome. destruct a as [rc body]. inv_outcome. subst r. cbn.
    apply parse_rtcp_header_count in Heq as <-. by eapply read_reports_length.
Qed.
