(* ===== verification/Ulaw.v ===== *)
(** The G.711 mu-law codec (src/src/rtp/mod.rs): [encode_ulaw] and
    [decode_ulaw], with their [i32], [i16] and [u8] arithmetic. *)
From S2P Require Import Prelude.

Definition BIAS : Z := 0x84.
Definition CLIP : Z := 32635.

(** The segment of a biased magnitude. *)
Definition segment (s : Z) : Z :=
  if s <? 256 then 0 else if s <? 512 then 1 else if s <? 1024 then 2
  else if s <? 2048 then 3 else if s <? 4096 then 4 else if s <? 8192 then 5
  else if s <? 16384 then 6 else 7.

(** [!b] on [u8]. *)
Definition not8 (b : Z) : Z := 255 - b.

Definition encode_ulaw (sample : Z) : Z :=
  let s := sample in
  let '(s, sign) := if s <? 0 then (- s, 0x80) else (s, 0) in
  let s := if CLIP <? s then CLIP else s in
  let s := s + BIAS in
  let exp := segment s in
  let mantissa := wrap 8 (Z.land (Z.shiftr s (exp + 3)) 0x0f) in
  not8 (Z.lor (Z.lor sign (wrap 8 (Z.shiftl exp 4))) mantissa).

Definition decode_ulaw (byte : Z) : Z :=
  let byte := not8 byte in
  let sign := negb (Z.land byte 0x80 =? 0) in
  let exp := Z.land (Z.shiftr byte 4) 0x07 in
  let mantissa := Z.land byte 0x0f in
  let magnitude := Z.shiftl (Z.shiftl mantissa 3 + 0x84) (Z.max exp 0) in
  let val := magnitude - 0x84 in
  if sign then - as_iN 16 val else as_iN 16 val.

(** The codec as the transcoding path applies it to one sample. *)
Definition ulaw_quantize (s : Z) : Z := decode_ulaw (encode_ulaw s).

(** Everything below is decided by evaluation at every value of the domain. *)

(** Re-encoding a decoded byte gives the byte back, except for the
    negative zero 0x7f, which becomes the positive one; both functions stay
    in their types. *)
Theorem ulaw_code_roundtrip b :
  u8 b ->
  encode_ulaw (decode_ulaw b) = (if b =? 0x7f then 0xff else b) /\ i16 (decode_ulaw b).
Proof.
  intros Hb.
  assert ((encode_ulaw (decode_ulaw b) =? (if b =? 0x7f then 0xff else b)) &&
          ((-32768 <=? decode_ulaw b) && (decode_ulaw b <? 32768)) = true) as H
    by byte_exhaust b.
  apply andb_true_iff in H as [H1 H2]. apply andb_true_iff in H2.
  split; [lia | width].
Qed.

Lemma ulaw_code_roundtrip_witness :
  u8 0x7f /\ encode_ulaw (decode_ulaw 0x7f) = 0xff.
Proof.
  assert (u8 0x7f) as Hb by width.
  split; [exact Hb | exact (proj1 (ulaw_code_roundtrip 0x7f Hb))].
Defined.

Definition quantize_ok (s : Z) : bool :=
  let d := ulaw_quantize s in
  (32 * Z.abs (s - d) <=? Z.abs s + BIAS) && (0 <=? encode_ulaw s) && (encode_ulaw s <? 256)
  && ((s =? 32767) || (d <=? ulaw_quantize (s + 1)))
  && ((s =? -32768) || (s =? 0) || (ulaw_quantize (- s) =? - d)).

Lemma quantize_all_ok s : i16 s -> quantize_ok s = true.
Proof. intros Hs. range_exhaust s (-32768) 65536. Qed.

Lemma quantize_mono (n : nat) s :
  -32768 <= s -> s + Z.of_nat n < 32768 ->
  ulaw_quantize s <= ulaw_quantize (s + Z.of_nat n).
Proof.
  intros Hs. induction n as [|n IH]; intros Hn; [rewrite Z.add_0_r; lia|].
  trans (ulaw_quantize (s + Z.of_nat n)); [apply IH; lia|].
  assert (i16 (s + Z.of_nat n)) as Hi by width. apply quantize_all_ok in Hi.
  unfold quantize_ok in Hi. rewrite !andb_true_iff, !orb_true_iff in Hi.
  destruct Hi as [[_ Hi] _]. replace (s + Z.of_nat (S n)) with (s + Z.of_nat n + 1) by lia. lia.
Qed.

(** Encoding then decoding any 16-bit sample, [i16::MIN] included, is
    within 1/32 of the biased magnitude of the sample, is an odd function of
    it and never inverts the order of two samples. *)
Theorem ulaw_quantization s t :
  i16 s -> i16 t ->
  u8 (encode_ulaw s) /\
  32 * Z.abs (s - ulaw_quantize s) <= Z.abs s + BIAS /\
  (s <= t -> ulaw_quantize s <= ulaw_quantize t) /\
  (s <> -32768 -> s <> 0 -> ulaw_quantize (- s) = - ulaw_quantize s).
Proof.
  intros Hs Ht. pose proof (quantize_all_ok s Hs) as H.
  unfold quantize_ok in H. rewrite !andb_true_iff, !orb_true_iff in H.
  destruct H as [[[[H1 H2] H3] _] H5].
  split; [width|]. split; [lia|]. split; [|lia].
  intros Hst. pose proof (quantize_mono (Z.to_nat (t - s)) s) as Hm.
  replace (s + Z.of_nat (Z.to_nat (t - s))) with t in Hm by lia.
  apply Hm; width.
Qed.

Lemma ulaw_quantization_witness :
  u8 (encode_ulaw (-32768)) /\ ulaw_quantize (-32768) <= ulaw_quantize 1000.
Proof.
  assert (i16 (-32768)) as Hs by width. assert (i16 1000) as Ht by width.
  destruct (ulaw_quantization (-32768) 1000 Hs Ht) as (H1 & _ & H3 & _).
  split; [exact H1 | apply H3; lia].
Defined.
