(* ===== verification/Jitter.v ===== *)
(** The jitter buffer (src/src/rtp/jitter.rs): extension of the 16-bit
    sequence numbers, the reordering queue with its pull discipline, the loss
    statistics reported in RTCP and the interarrival jitter of RFC 3550 A.8.

    The [BTreeMap] is a [gmap] whose first key is its least one. The [i64] and
    [u64] counters are unbounded integers: they grow by one per packet (by
    65536 per wrap of the sequence number), which cannot reach 2^63 in the life
    of a call. *)
From S2P Require Import Prelude F64 RtpPacket.

Definition DEFAULT_DEPTH : Z := 4.
Definition SEQ_REORDER_WINDOW : Z := 3000.

(** ** The least key of a map: [keys().next()] of a [BTreeMap] *)

Fixpoint least (l : list Z) : option Z :=
  match l with
  | [] => None
  | k :: l => Some (match least l with Some k' => Z.min k k' | None => k end)
  end.
Definition first_key {A} (m : gmap Z A) : option Z := least (map_to_list m).*1.

(** ** Statistics *)

Record JitterStats := mkStats {
  received : Z;
  lost : Z;
  duplicates : Z;
  late_drops : Z;
  st_jitter : f64;
  max_seq_ext : Z;
  base_seq_ext : option Z
}.

Definition stats_default : JitterStats := mkStats 0 0 0 0 (S754_zero false) 0 None.

Definition set_received v (s : JitterStats) :=
  mkStats v (lost s) (duplicates s) (late_drops s) (st_jitter s) (max_seq_ext s) (base_seq_ext s).
Definition set_lost v (s : JitterStats) :=
  mkStats (received s) v (duplicates s) (late_drops s) (st_jitter s) (max_seq_ext s) (base_seq_ext s).
Definition set_duplicates v (s : JitterStats) :=
  mkStats (received s) (lost s) v (late_drops s) (st_jitter s) (max_seq_ext s) (base_seq_ext s).
Definition set_late_drops v (s : JitterStats) :=
  mkStats (received s) (lost s) (duplicates s) v (st_jitter s) (max_seq_ext s) (base_seq_ext s).
Definition set_jitter v (s : JitterStats) :=
  mkStats (received s) (lost s) (duplicates s) (late_drops s) v (max_seq_ext s) (base_seq_ext s).
Definition set_range mx base (s : JitterStats) :=
  mkStats (received s) (lost s) (duplicates s) (late_drops s) (st_jitter s) mx base.

Definition stats_cumulative_lost (s : JitterStats) : Z :=
  match base_seq_ext s with
  | None => 0
  | Some base =>
      let expected := max_seq_ext s - base + 1 in
      expected - received s
  end.

(** The multiplication by 256 is on [u64], and checked. *)
Definition stats_fraction_lost {E} (s : JitterStats)
    (last_reported_expected last_reported_received : Z) : outcome E Z :=
  match base_seq_ext s with
  | None => Ok 0
  | Some base =>
      let expected := max_seq_ext s - base + 1 in
      let expected_interval := Z.max (expected - last_reported_expected) 0 in
      let received_interval := saturating_sub (received s) last_reported_received in
      let lost_interval := saturating_sub expected_interval received_interval in
      if expected_interval =? 0 then Ok 0
      else
        scaled ← checked 64 (lost_interval * 256);
        let frac := scaled / expected_interval in
        Ok (wrap 8 (Z.min frac 255))
  end.

(** ** The buffer *)

Record JitterBuffer := mkJB {
  depth : Z;
  queue : gmap Z RtpPacket;
  next_pull_seq : option Z;
  last_arrival : option (Z * Z);
  last_seq_raw : option Z;
  seq_cycles : Z;
  stats : JitterStats
}.

Definition jb_new (depth : Z) : JitterBuffer :=
  mkJB (Z.max depth 1) ∅ None None None 0 stats_default.
Definition with_default_depth : JitterBuffer := jb_new DEFAULT_DEPTH.

Definition set_stats s (jb : JitterBuffer) :=
  mkJB (depth jb) (queue jb) (next_pull_seq jb) (last_arrival jb) (last_seq_raw jb) (seq_cycles jb) s.
Definition set_queue q (jb : JitterBuffer) :=
  mkJB (depth jb) q (next_pull_seq jb) (last_arrival jb) (last_seq_raw jb) (seq_cycles jb) (stats jb).
Definition set_next n (jb : JitterBuffer) :=
  mkJB (depth jb) (queue jb) n (last_arrival jb) (last_seq_raw jb) (seq_cycles jb) (stats jb).
Definition set_arrival a (jb : JitterBuffer) :=
  mkJB (depth jb) (queue jb) (next_pull_seq jb) a (last_seq_raw jb) (seq_cycles jb) (stats jb).
Definition set_seq l c (jb : JitterBuffer) :=
  mkJB (depth jb) (queue jb) (next_pull_seq jb) (last_arrival jb) l c (stats jb).

Definition jb_len (jb : JitterBuffer) : Z := Z.of_nat (size (queue jb)).

Definition extend_seq (jb : JitterBuffer) (seq : Z) : Z * JitterBuffer :=
  match last_seq_raw jb with
  | None => (seq, set_seq (Some seq) 0 jb)
  | Some last =>
      let diff := seq - last in
      if diff <? - SEQ_REORDER_WINDOW then
        let c := seq_cycles jb + Z.shiftl 1 16 in
        (c + seq, set_seq (Some seq) c jb)
      else if SEQ_REORDER_WINDOW <? diff then
        (seq_cycles jb - Z.shiftl 1 16 + seq, jb)
      else
        let jb := if 0 <? diff then set_seq (Some seq) (seq_cycles jb) jb else jb in
        (seq_cycles jb + seq, jb)
  end.

(** The update of [stats.jitter] on the arrival of a packet at [now]. *)
Definition update_jitter (j : f64) (prev_ts prev_arrival ts now : Z) : f64 :=
  let arrival_delta_secs := as_secs_f64 (duration_since now prev_arrival) in
  let arrival_ticks := f64_mul arrival_delta_secs (f64_of_Z 8000) in
  let ts_delta := f64_of_Z (as_iN 32 (wrapping_sub 32 ts prev_ts)) in
  let d := f64_abs (f64_sub arrival_ticks ts_delta) in
  f64_add j (f64_div (f64_sub d j) (f64_of_Z 16)).

(** The statistics [push] updates for every packet: the range of the extended
    sequence numbers, then the jitter. *)
Definition arrival_stats (jb : JitterBuffer) (ext_seq : Z) (pkt : RtpPacket) (now : Z)
  : JitterStats :=
  let st := stats jb in
  let st :=
    match base_seq_ext st with
    | None => set_range ext_seq (Some ext_seq) st
    | Some b => if max_seq_ext st <? ext_seq then set_range ext_seq (Some b) st else st
    end in
  match last_arrival jb with
  | Some (prev_ts, prev_arrival) =>
      set_jitter (update_jitter (st_jitter st) prev_ts prev_arrival (timestamp pkt) now) st
  | None => st
  end.

Definition push (jb : JitterBuffer) (pkt : RtpPacket) (now : Z) : JitterBuffer :=
  let '(ext_seq, jb) := extend_seq jb (sequence pkt) in
  let st := arrival_stats jb ext_seq pkt now in
  let jb := set_arrival (Some (timestamp pkt, now)) (set_stats st jb) in
  if match next_pull_seq jb with Some next => ext_seq <? next | None => false end
  then set_stats (set_late_drops (late_drops st + 1) st) jb
  else if bool_decide (is_Some (queue jb !! ext_seq))
  then set_stats (set_duplicates (duplicates st + 1) st) jb
  else
    set_queue (<[ext_seq := pkt]> (queue jb))
      (set_stats (set_received (received st + 1) st) jb).

(** The common tail of [pull]: the packet expected next, if it is queued. *)
Definition take_expected (jb : JitterBuffer) (next : Z) : option (RtpPacket * JitterBuffer) :=
  pkt ← queue jb !! next;
  Some (pkt, set_next (Some (next + 1)) (set_queue (delete next (queue jb)) jb)).

Definition pull (jb : JitterBuffer) : option RtpPacket * JitterBuffer :=
  let started :=
    match next_pull_seq jb with
    | Some _ => Some jb
    | None =>
        if jb_len jb <? depth jb then None
        else
          first ← first_key (queue jb);
          Some (set_next (Some first) jb)
    end in
  match started with
  | None => (None, jb)
  | Some jb =>
      match next_pull_seq jb with
      | None => (None, jb)
      | Some next =>
          if (jb_len jb <? depth jb) && (jb_len jb <? saturating_mul 64 (depth jb) 2) then
            match take_expected jb next with
            | Some (pkt, jb) => (Some pkt, jb)
            | None => (None, jb)
            end
          else
            match take_expected jb next with
            | Some (pkt, jb) => (Some pkt, jb)
            | None =>
                match first_key (queue jb) with
                | None => (None, jb)
                | Some first =>
                    let n := first - next in
                    let jb :=
                      if 0 <? n then set_stats (set_lost (lost (stats jb) + n) (stats jb)) jb
                      else jb in
                    match queue jb !! first with
                    | None => (None, jb)
                    | Some pkt =>
                        (Some pkt,
                         set_next (Some (first + 1)) (set_queue (delete first (queue jb)) jb))
                    end
                end
            end
      end
  end.

(** The loop of [drain], for at most [n] packets. *)
Fixpoint drain_loop (n : nat) (next : Z) (jb : JitterBuffer) : Z * list RtpPacket * JitterBuffer :=
  match n with
  | O => (next, [], jb)
  | S n =>
      match first_key (queue jb) with
      | None => (next, [], jb)
      | Some seq =>
          match queue jb !! seq with
          | None => (next, [], jb)
          | Some pkt =>
              let jb :=
                if next <? seq
                then set_stats (set_lost (lost (stats jb) + (seq - next)) (stats jb)) jb
                else jb in
              let jb := set_queue (delete seq (queue jb)) jb in
              let '(next, out, jb) := drain_loop n (seq + 1) jb in
              (next, pkt :: out, jb)
          end
      end
  end.

Definition drain (jb : JitterBuffer) : list RtpPacket * JitterBuffer :=
  let next :=
    default 0 (match next_pull_seq jb with
               | Some n => Some n
               | None => first_key (queue jb)
               end) in
  let '(next, out, jb) := drain_loop (size (queue jb)) next jb in
  (out, set_next (Some next) jb).

(** ** Runs *)

Inductive jb_event :=
  | EvPush (pkt : RtpPacket) (now : Z)
  | EvPull
  | EvDrain.

Definition jb_step (jb : JitterBuffer) (e : jb_event) : list RtpPacket * JitterBuffer :=
  match e with
  | EvPush pkt now => ([], push jb pkt now)
  | EvPull => let '(o, jb) := pull jb in (match o with Some p => [p] | None => [] end, jb)
  | EvDrain => drain jb
  end.

Fixpoint jb_run (jb : JitterBuffer) (es : list jb_event) : list RtpPacket * JitterBuffer :=
  match es with
  | [] => ([], jb)
  | e :: es =>
      let '(out, jb) := jb_step jb e in
      let '(outs, jb) := jb_run jb es in
      (out ++ outs, jb)
  end.

Definition pushed (es : list jb_event) : list RtpPacket :=
  concat (map (fun e => match e with EvPush p _ => [p] | _ => [] end) es).

(** ** The least key *)

Lemma least_None l : least l = None <-> l = [].
Proof. by destruct l. Qed.

Lemma least_Some l k : least l = Some k -> k ∈ l /\ forall k', k' ∈ l -> k <= k'.
Proof.
  revert k. induction l as [|x l IH]; intros k; cbn; [done|]. intros [= <-].
  destruct (least l) as [k0|] eqn:Hl; cbn.
  - destruct (IH k0 eq_refl) as [Hin Hle]. split.
    + destruct (Z.min_spec x k0) as [[_ ->] | [_ ->]]; [left | by right].
    + intros k' [-> | Hk']%elem_of_cons; [lia|]. specialize (Hle k' Hk'). lia.
  - apply least_None in Hl as ->. split; [left|].
    intros k' [-> | Hk']%elem_of_cons; [lia | by apply not_elem_of_nil in Hk'].
Qed.

Lemma first_key_Some {A} (m : gmap Z A) k :
  first_key m = Some k ->
  is_Some (m !! k) /\ forall k', is_Some (m !! k') -> k <= k'.
Proof.
  intros [Hin Hle]%least_Some. split.
  - apply list_elem_of_fmap in Hin as ([k0 a] & -> & H%elem_of_map_to_list). by exists a.
  - intros k' [a Ha]. apply Hle. apply list_elem_of_fmap. exists (k', a).
    split; [done | by apply elem_of_map_to_list].
Qed.

Lemma first_key_None {A} (m : gmap Z A) : first_key m = None <-> m = ∅.
Proof.
  unfold first_key. rewrite least_None. split.
  - intros H%fmap_nil_inv. by apply map_to_list_empty_iff.
  - intros ->. by rewrite map_to_list_empty.
Qed.

(** ** Sequence number extension *)

Definition ext_last (jb : JitterBuffer) : option Z :=
  last ← last_seq_raw jb; Some (seq_cycles jb + last).

Definition seq_state_ok (jb : JitterBuffer) : Prop :=
  seq_cycles jb mod 65536 = 0 /\ (forall last, last_seq_raw jb = Some last -> u16 last).

Lemma extend_seq_ok jb seq :
  seq_state_ok jb -> u16 seq ->
  let '(e, jb') := extend_seq jb seq in
  seq_state_ok jb' /\ e mod 65536 = seq /\
  exists l c, jb' = set_seq l c jb.
Proof.
  intros [Hc Hl] Hs. unfold extend_seq, seq_state_ok.
  destruct (last_seq_raw jb) as [last|] eqn:Hlast.
  2: { cbn. split; [split; [done | by intros ? [= <-]]|]. split; [width | eauto]. }
  specialize (Hl last eq_refl). change (Z.shiftl 1 16) with 65536.
  unfold SEQ_REORDER_WINDOW.
  case_bool; cbn; rewrite ?Hlast;
    (split; [split; [width | intros ? [= <-]; width]|]; split; [width | first [by eauto | by exists (last_seq_raw jb), (seq_cycles jb); destruct jb]]).
Qed.

(** An extended sequence number close to the last one is recovered from its
    low 16 bits. *)
Lemma extend_seq_near jb L T :
  seq_state_ok jb -> ext_last jb = Some L -> Z.abs (T - L) <= SEQ_REORDER_WINDOW ->
  let '(e, jb') := extend_seq jb (T mod 65536) in
  e = T /\ ext_last jb' = Some (Z.max L T).
Proof.
  intros [Hc Hl]. unfold ext_last, extend_seq, SEQ_REORDER_WINDOW.
  destruct (last_seq_raw jb) as [last|] eqn:Hlast; cbn; [|done]. intros [= <-] HT.
  specialize (Hl last eq_refl). change (Z.shiftl 1 16) with 65536.
  case_bool; cbn; rewrite ?Hlast; cbn; (split; [|f_equal]); width.
Qed.

(** ** The numbers given to the packets that arrive *)

(** The extended sequence numbers given to a stream. *)
Fixpoint extend_all (jb : JitterBuffer) (seqs : list Z) : list Z :=
  match seqs with
  | [] => []
  | s :: seqs => let '(e, jb) := extend_seq jb s in e :: extend_all jb seqs
  end.

(** Every number of the stream is within the reorder window of the newest one
    before it. *)
Fixpoint in_window (newest : Z) (Ts : list Z) : Prop :=
  match Ts with
  | [] => True
  | T :: Ts => Z.abs (T - newest) <= SEQ_REORDER_WINDOW /\ in_window (Z.max newest T) Ts
  end.

Lemma extend_all_near jb c L Ts :
  seq_state_ok jb -> c mod 65536 = 0 -> ext_last jb = Some (L - c) -> in_window L Ts ->
  extend_all jb (map (fun T => T mod 65536) Ts) = map (fun T => T - c) Ts.
Proof.
  intros Hok Hc. revert jb L Hok. induction Ts as [|T Ts IH]; intros jb L Hok HL; [done|].
  intros [HT Hw]. cbn [map extend_all].
  replace (T mod 65536) with ((T - c) mod 65536) by width.
  pose proof (extend_seq_near jb (L - c) (T - c) Hok HL ltac:(lia)) as Hn.
  pose proof (extend_seq_ok jb ((T - c) mod 65536) Hok ltac:(width)) as Hk.
  destruct (extend_seq jb _) as [e jb']. destruct Hn as [-> Hn]. f_equal.
  apply (IH _ (Z.max L T)); [apply Hk | | done]. rewrite Hn. f_equal. lia.
Qed.

(** The part of the buffer the numbering depends on. *)
Definition seq_part (jb : JitterBuffer) : JitterBuffer := set_seq (last_seq_raw jb) (seq_cycles jb) (jb_new 1).

Lemma extend_seq_part jb s :
  extend_seq (seq_part jb) s = ((extend_seq jb s).1, seq_part (extend_seq jb s).2).
Proof. unfold extend_seq. cbn. destruct (last_seq_raw jb) as [l|] eqn:Hl; [|done]. case_bool; cbn; unfold seq_part; cbn; by rewrite ?Hl. Qed.

(** The packets of a stream with the numbers they are given, and the numbering
    after them. *)
Definition key_all (jb : JitterBuffer) (ins : list RtpPacket) : list (Z * RtpPacket) :=
  zip (extend_all (seq_part jb) (map sequence ins)) ins.
Fixpoint seq_after (jb : JitterBuffer) (ins : list RtpPacket) : JitterBuffer :=
  match ins with
  | [] => jb
  | p :: ins => seq_after (extend_seq jb (sequence p)).2 ins
  end.

Lemma extend_all_app jb ins1 seqs2 :
  extend_all jb (map sequence ins1 ++ seqs2) = extend_all jb (map sequence ins1) ++ extend_all (seq_after jb ins1) seqs2.
Proof.
  revert jb. induction ins1 as [|p ins1 IH]; intros jb; [done|]. cbn [map app extend_all seq_after].
  destruct (extend_seq jb (sequence p)) as [e jb']. cbn. by rewrite IH.
Qed.

Lemma extend_all_length jb seqs : length (extend_all jb seqs) = length seqs.
Proof.
  revert jb. induction seqs as [|q seqs IH]; intros jb; [done|]. cbn [extend_all].
  destruct (extend_seq jb q) as [e jb']. cbn. by rewrite IH.
Qed.

Lemma key_all_app jb ins1 jb' ins2 :
  seq_part jb' = seq_after (seq_part jb) ins1 -> key_all jb (ins1 ++ ins2) = key_all jb ins1 ++ key_all jb' ins2.
Proof.
  intros H. unfold key_all. rewrite map_app, extend_all_app, H. apply zip_with_app.
  by rewrite extend_all_length, length_map.
Qed.

Lemma seq_after_app jb ins1 ins2 : seq_after jb (ins1 ++ ins2) = seq_after (seq_after jb ins1) ins2.
Proof. revert jb. induction ins1 as [|p ins1 IH]; intros jb; [done|]. apply IH. Qed.

Lemma key_all_packets jb ins : (key_all jb ins).*2 = ins.
Proof. unfold key_all. apply snd_zip. by rewrite extend_all_length, length_map. Qed.

Lemma key_all_numbers jb ins : (key_all jb ins).*1 = extend_all (seq_part jb) (map sequence ins).
Proof. unfold key_all. apply fst_zip. by rewrite extend_all_length, length_map. Qed.

(** ** What a run of operations does

    [served jb ins out jb']: from [jb], with the packets [ins] arriving, the
    packets [out] are delivered and the buffer is [jb']. The delivered packets
    have the numbers they were given when they arrived, in order; an arrived
    packet whose number is neither delivered nor queued was late, which is to say
    behind the place where the delivery is. *)

Definition jb_ok (jb : JitterBuffer) : Prop :=
  seq_state_ok jb /\
  (forall n k, next_pull_seq jb = Some n -> is_Some (queue jb !! k) -> n <= k).

Definition packets (jb : JitterBuffer) : list RtpPacket := (map_to_list (queue jb)).*2.

(** Where the delivery goes on, after the keys [ks] were delivered. *)
Definition position (n : option Z) (ks : list Z) (n' : option Z) : Prop :=
  match last ks with
  | Some k => n' = Some (k + 1)
  | None => n' = n \/ n = None /\ n' = Some 0
  end.

Record served (jb : JitterBuffer) (ins out : list RtpPacket) (jb' : JitterBuffer) : Prop := {
  sv_ok : jb_ok jb';
  sv_depth : depth jb' = depth jb;
  sv_seq : seq_part jb' = seq_after (seq_part jb) ins;
  sv_out : exists kps : list (Z * RtpPacket),
    kps.*2 = out /\ StronglySorted Z.lt kps.*1 /\
    Forall (fun k => (forall n, next_pull_seq jb = Some n -> n <= k) /\
                     (exists n, next_pull_seq jb' = Some n /\ k < n)) kps.*1 /\
    kps ++ map_to_list (queue jb') ⊆+ map_to_list (queue jb) ++ key_all jb ins /\
    (forall k, is_Some (queue jb !! k) \/ k ∈ (key_all jb ins).*1 ->
       k ∈ kps.*1 \/ is_Some (queue jb' !! k) \/
       late_drops (stats jb) < late_drops (stats jb') /\ exists n, next_pull_seq jb' = Some n /\ k < n) /\
    position (next_pull_seq jb) kps.*1 (next_pull_seq jb');
  sv_next : forall n, next_pull_seq jb = Some n ->
    exists n', next_pull_seq jb' = Some n' /\ n <= n';
  sv_late : late_drops (stats jb) <= late_drops (stats jb');
  sv_received : received (stats jb') - received (stats jb) =
    Z.of_nat (length (packets jb')) - Z.of_nat (length (packets jb)) + Z.of_nat (length out);
  sv_total : received (stats jb') + duplicates (stats jb') + late_drops (stats jb') =
    received (stats jb) + duplicates (stats jb) + late_drops (stats jb) +
    Z.of_nat (length ins)
}.

(** Nothing comes out. *)
Lemma served_none jb ins jb' :
  jb_ok jb' -> depth jb' = depth jb -> seq_part jb' = seq_after (seq_part jb) ins ->
  next_pull_seq jb' = next_pull_seq jb ->
  map_to_list (queue jb') ⊆+ map_to_list (queue jb) ++ key_all jb ins ->
  (forall k, is_Some (queue jb !! k) \/ k ∈ (key_all jb ins).*1 ->
     is_Some (queue jb' !! k) \/
     late_drops (stats jb) < late_drops (stats jb') /\ exists n, next_pull_seq jb' = Some n /\ k < n) ->
  late_drops (stats jb) <= late_drops (stats jb') ->
  received (stats jb') - received (stats jb) = Z.of_nat (length (packets jb')) - Z.of_nat (length (packets jb)) ->
  received (stats jb') + duplicates (stats jb') + late_drops (stats jb') =
    received (stats jb) + duplicates (stats jb) + late_drops (stats jb) + Z.of_nat (length ins) ->
  served jb ins [] jb'.
Proof.
  intros Hok Hd Hs Hn Hq Hk Hl Hr Ht. split; try done; [| | cbn; lia].
  - exists []. split_and!; [done | constructor | constructor | done | by eauto | by left].
  - intros n E. exists n. rewrite Hn. split; [done | lia].
Qed.

Lemma served_refl jb : jb_ok jb -> served jb [] [] jb.
Proof.
  intros H. apply served_none; try done; try (cbn; lia).
  - by rewrite app_nil_r.
  - intros k [Hk | Hk]; [by left | by apply not_elem_of_nil in Hk].
Qed.

Lemma position_trans n ks1 n1 ks2 n2 : position n ks1 n1 -> position n1 ks2 n2 -> position n (ks1 ++ ks2) n2.
Proof.
  unfold position. intros H1 H2. rewrite last_app. destruct (last ks2) as [k|]; [done|].
  destruct (last ks1) as [k|].
  - subst n1. destruct H2 as [-> | [? _]]; done.
  - destruct H1 as [-> | [-> ->]]; [done|]. destruct H2 as [-> | [? _]]; [by right | done].
Qed.

Lemma served_trans jb1 jb2 jb3 ins1 ins2 out1 out2 :
  served jb1 ins1 out1 jb2 -> served jb2 ins2 out2 jb3 ->
  served jb1 (ins1 ++ ins2) (out1 ++ out2) jb3.
Proof.
  intros [Hok1 Hd1 He1 (ks1 & Hf1 & Hs1 & Hb1 & Hq1 & Hk1 & Hp1) Hn1 Hl1 Hr1 Ht1]
    [Hok2 Hd2 He2 (ks2 & Hf2 & Hs2 & Hb2 & Hq2 & Hk2 & Hp2) Hn2 Hl2 Hr2 Ht2].
  split; [done | congruence | | | | lia | rewrite length_app; lia | rewrite length_app; lia].
  - by rewrite seq_after_app, <- He1.
  - exists (ks1 ++ ks2). rewrite !fmap_app, (key_all_app _ _ jb2) by done.
    rewrite Forall_forall in Hb1, Hb2. split_and!.
    + congruence.
    + apply StronglySorted_app_2; [|done..]. intros k1 k2 H1 H2.
      destruct (Hb1 k1 H1) as [_ (n & Hn & Hlt)]. destruct (Hb2 k2 H2) as [Hle _].
      specialize (Hle n Hn). lia.
    + apply Forall_app. split; apply Forall_forall; intros k Hk.
      * destruct (Hb1 k Hk) as [Hlo (n & Hn & Hlt)]. split; [done|].
        destruct (Hn2 n Hn) as (n' & Hn' & Hle). exists n'. split; [done | lia].
      * destruct (Hb2 k Hk) as [Hlo Hhi]. split; [|done]. intros n Hn.
        destruct (Hn1 n Hn) as (n' & Hn' & Hle). specialize (Hlo n' Hn'). lia.
    + rewrite <- app_assoc. trans (ks1 ++ map_to_list (queue jb2) ++ key_all jb2 ins2).
      * by apply submseteq_app.
      * rewrite !app_assoc. by apply submseteq_app.
    + intros k Hk. rewrite fmap_app, elem_of_app in Hk.
      assert (is_Some (queue jb2 !! k) \/ k ∈ (key_all jb2 ins2).*1 \/ k ∈ ks1.*1 \/
        late_drops (stats jb1) < late_drops (stats jb2) /\ exists n, next_pull_seq jb2 = Some n /\ k < n) as Hk'.
      { destruct Hk as [Hk | [Hk | Hk]]; [| |by auto].
        - destruct (Hk1 k) as [|[|]]; by auto.
        - destruct (Hk1 k) as [|[|]]; by auto. }
      destruct Hk' as [Hk' | [Hk' | [Hk' | [Hlt (n & Hn & Hkn)]]]].
      * destruct (Hk2 k (or_introl Hk')) as [|[|[]]]; [left; apply elem_of_app; by right | by right; left | right; right; split; [lia|done]].
      * destruct (Hk2 k (or_intror Hk')) as [|[|[]]]; [left; apply elem_of_app; by right | by right; left | right; right; split; [lia|done]].
      * left. apply elem_of_app. by left.
      * right; right. destruct (Hn2 n Hn) as (n' & Hn' & Hle). split; [lia|]. exists n'. split; [done|lia].
    + by eapply position_trans.
  - intros n Hn. destruct (Hn1 n Hn) as (n1 & Hn1' & Hle1).
    destruct (Hn2 n1 Hn1') as (n2 & Hn2' & Hle2). exists n2. split; [done | lia].
Qed.

(** The packets alone. *)
Lemma served_packets jb ins out jb' : served jb ins out jb' -> out ++ packets jb' ⊆+ packets jb ++ ins.
Proof.
  intros [_ _ _ (kps & <- & _ & _ & Hq & _) _ _ _ _]. unfold packets.
  rewrite <- (key_all_packets jb ins) at 1. rewrite <- !fmap_app. by apply fmap_submseteq.
Qed.

(** Delivery of the queued packet [p] with key [k], no key below it. *)
Lemma served_emit jb k p :
  jb_ok jb -> queue jb !! k = Some p ->
  (forall k', is_Some (queue jb !! k') -> k <= k') ->
  served jb [] [p] (set_next (Some (k + 1)) (set_queue (delete k (queue jb)) jb)).
Proof.
  intros (Hseq & Hle) Hk Hmin.
  pose proof (map_to_list_delete (queue jb) k p Hk) as Hp.
  split; [| done | done | | | cbn; lia | | cbn; lia].
  - split; [done|]. cbn. intros n k' [= <-] Hk'.
    apply lookup_delete_is_Some in Hk' as [Hne Hk']. specialize (Hmin k' Hk'). lia.
  - exists [(k, p)]. cbn [queue set_queue set_next fmap list_fmap fst snd next_pull_seq]. split_and!.
    + done.
    + by repeat constructor.
    + constructor; [|done]. split.
      * intros n Hn. apply (Hle n k Hn). by exists p.
      * exists (k + 1). split; [done | lia].
    + rewrite app_nil_r, <- Hp. done.
    + intros k' [Hk' | Hk']; [|by apply not_elem_of_nil in Hk'].
      destruct (decide (k' = k)) as [-> | Hne]; [left; apply list_elem_of_singleton; done|]. right; left.
      by rewrite lookup_delete_ne.
    + done.
  - intros n Hn. exists (k + 1). split; [done|].
    specialize (Hle n k Hn ltac:(by exists p)). lia.
  - unfold packets. rewrite <- Hp. cbn. lia.
Qed.

Lemma arrival_stats_counts jb e pkt now :
  let st := arrival_stats jb e pkt now in
  received st = received (stats jb) /\ duplicates st = duplicates (stats jb) /\
  late_drops st = late_drops (stats jb).
Proof.
  unfold arrival_stats. destruct (base_seq_ext (stats jb)), (last_arrival jb) as [[]|];
    case_bool; done.
Qed.

Lemma served_push jb pkt now :
  jb_ok jb -> u16 (sequence pkt) -> served jb [pkt] [] (push jb pkt now).
Proof.
  intros (Hseq & Hle) Hp. unfold push.
  pose proof (extend_seq_ok jb (sequence pkt) Hseq Hp) as H.
  pose proof (extend_seq_part jb (sequence pkt)) as Hpart.
  destruct (extend_seq jb (sequence pkt)) as [e jb1]. destruct H as (Hs1 & He & l & c & ->).
  cbn [fst snd] in Hpart.
  assert (key_all jb [pkt] = [(e, pkt)]) as Hkey by (unfold key_all; cbn [map extend_all]; by rewrite Hpart).
  assert (seq_after (seq_part jb) [pkt] = seq_part (set_seq l c jb)) as Hafter
    by (cbn [seq_after]; by rewrite Hpart).
  cbv zeta.
  destruct (arrival_stats_counts (set_seq l c jb) e pkt now) as (Hr & Hd & Hl).
  set (st := arrival_stats _ e pkt now) in *. clearbody st. cbn in Hr, Hd, Hl.
  cbn [next_pull_seq set_arrival set_stats queue set_seq].
  assert (forall s, jb_ok (set_stats s (set_arrival (Some (timestamp pkt, now))
    (set_stats st (set_seq l c jb))))) as Hsame by (split; [exact Hs1 | done]).
  assert (map_to_list (queue jb) ⊆+ map_to_list (queue jb) ++ [(e, pkt)]) as Hsub
    by apply submseteq_inserts_r, reflexivity.
  assert (forall k, is_Some (queue jb !! k) \/ k ∈ ([(e, pkt)] : list (Z * RtpPacket)).*1 ->
    is_Some (queue jb !! k) \/ k = e) as Hin by (intros k [|Hk]; [by left | right; by apply list_elem_of_singleton in Hk]).
  case_bool; [| rename Hb0 into Hq | rename Hb0 into Hq].
  - apply served_none; rewrite ?Hkey, ?Hafter; try done; cbn; try lia.
    + intros k Hk. destruct (Hin k Hk) as [| ->]; [by left|]. right. split; [lia|].
      destruct (next_pull_seq jb) as [n|]; [|done]. exists n. split; [done|lia].
    + unfold packets. cbn. lia.
  - apply served_none; rewrite ?Hkey, ?Hafter; try done; cbn; try lia.
    + intros k Hk. destruct (Hin k Hk) as [| ->]; left; [done|]. by apply bool_decide_eq_true in Hq.
    + unfold packets. cbn. lia.
  - apply bool_decide_eq_false, eq_None_not_Some in Hq.
    pose proof (map_to_list_insert (queue jb) e pkt Hq) as Hpk.
    apply served_none; rewrite ?Hkey, ?Hafter; try done; cbn -[insert]; try lia.
    + split; [exact Hs1|]. cbn -[insert].
      intros n k Hn Hk. rewrite Hn in Hb. destruct (decide (k = e)) as [-> | Hne]; [lia|].
      rewrite lookup_insert_ne in Hk by done. by apply Hle.
    + rewrite Hpk, Permutation_app_comm. done.
    + intros k Hk. left. destruct (Hin k Hk) as [Hk' | ->]; [|rewrite lookup_insert_eq; eauto].
      destruct (decide (k = e)) as [-> | Hne]; [rewrite lookup_insert_eq; eauto | by rewrite lookup_insert_ne].
    + unfold packets. cbn -[insert]. rewrite Hpk. cbn. lia.
Qed.

Lemma served_set_lost jb ins out jb' v :
  served (set_stats (set_lost v (stats jb)) jb) ins out jb' -> served jb ins out jb'.
Proof. intros []. by split. Qed.

(** Fixing the first sequence number to deliver. *)
Lemma served_start jb n ins out jb' :
  next_pull_seq jb = None \/ next_pull_seq jb = Some n -> n = 0 \/ out <> [] ->
  served (set_next (Some n) jb) ins out jb' -> served jb ins out jb'.
Proof.
  intros Hn Hout []. split; try done.
  - destruct sv_out0 as (ks & Hf & Hs & Hb & Hq & Hk & Hpos). exists ks. split_and!; try done.
    + eapply Forall_impl; [exact Hb|]. cbn. intros k [H1 H2]. split; [|done].
      intros m Hm. destruct Hn; simplify_eq. by apply H1.
    + unfold position in *. destruct (last ks.*1) as [k|] eqn:El; [done|].
      apply last_None in El. apply fmap_nil_inv in El as ->. subst out. cbn in Hpos.
      destruct Hpos as [E|[]]; [|done]. rewrite E. destruct Hn as [Hn|Hn]; [|by left].
      right. destruct Hout as [-> |]; done.
  - intros m Hm. apply sv_next0. destruct Hn; simplify_eq. done.
Qed.

Lemma jb_ok_set_next jb n :
  jb_ok jb -> (forall k, is_Some (queue jb !! k) -> n <= k) -> jb_ok (set_next (Some n) jb).
Proof. intros (H1 & H2) Hn. split; [done|]. cbn. intros ? k [= <-]. apply Hn. Qed.

Lemma jb_ok_next_le jb n : jb_ok jb -> next_pull_seq jb = Some n ->
  forall k, is_Some (queue jb !! k) -> n <= k.
Proof. intros (_ & H) Hn k. by apply H. Qed.

(** The second half of [pull], once the next sequence number is known. *)
Lemma served_take jb next o jb' :
  jb_ok jb -> next_pull_seq jb = Some next ->
  pull jb = (o, jb') -> served jb [] (match o with Some p => [p] | None => [] end) jb'.
Proof.
  intros Hok Hn. unfold pull. rewrite Hn. rewrite Hn. unfold take_expected.
  pose proof (jb_ok_next_le jb next Hok Hn) as Hle.
  destruct (queue jb !! next) as [p|] eqn:Hq; cbn.
  { case_bool; intros [= <- <-]; by apply served_emit. }
  destruct (first_key (queue jb)) as [f|] eqn:Hf; cbn.
  2: { case_bool; intros [= <- <-]; by apply served_refl. }
  apply first_key_Some in Hf as [[p Hp] Hmin].
  case_bool; cbn; rewrite ?Hp; intros [= <- <-]; [by apply served_refl | |].
  - eapply served_set_lost.
    apply (served_emit (set_stats (set_lost _ (stats jb)) jb) f p Hok Hp Hmin).
  - by apply served_emit.
Qed.

(** A buffer that holds its depth delivers. *)
Lemma pull_full jb : 1 <= depth jb -> depth jb <= jb_len jb -> is_Some (pull jb).1.
Proof.
  intros H1 Hd. unfold pull. rewrite (proj2 (Z.ltb_ge (jb_len jb) (depth jb)) Hd).
  destruct (first_key (queue jb)) as [f|] eqn:Hf.
  2: { apply first_key_None in Hf. unfold jb_len in Hd. rewrite Hf, map_size_empty in Hd. lia. }
  pose proof (first_key_Some _ _ Hf) as [[p Hp] _].
  assert (forall jb0 next, queue jb0 = queue jb -> is_Some (take_expected jb0 next) \/ take_expected jb0 next = None) as Ht
    by (intros; destruct (take_expected _ _); eauto).
  destruct (next_pull_seq jb) as [n|] eqn:Hn; cbn [mbind option_bind next_pull_seq set_next].
  - rewrite Hn. rewrite (proj2 (Z.ltb_ge (jb_len jb) (depth jb)) Hd). cbn [andb]. unfold take_expected.
    destruct (queue jb !! n); cbn; [by eexists|]. rewrite Hf.
    case_bool; cbn; rewrite Hp; by eexists.
  - change (jb_len (set_next (Some f) jb)) with (jb_len jb). change (depth (set_next (Some f) jb)) with (depth jb).
    rewrite (proj2 (Z.ltb_ge (jb_len jb) (depth jb)) Hd). cbn [andb]. unfold take_expected. cbn [queue set_next].
    rewrite Hp. by eexists.
Qed.

Lemma served_pull jb o jb' :
  1 <= depth jb -> jb_ok jb -> pull jb = (o, jb') ->
  served jb [] (match o with Some p => [p] | None => [] end) jb'.
Proof.
  intros H1 Hok Hpull. destruct (next_pull_seq jb) as [n|] eqn:Hn.
  { by eapply served_take. }
  pose proof (pull_full jb H1) as Hfull. rewrite Hpull in Hfull. cbn [fst] in Hfull.
  unfold pull in Hpull. rewrite Hn in Hpull.
  destruct (Z.ltb_spec (jb_len jb) (depth jb)) as [Hd|Hd].
  { injection Hpull as <- <-. by apply served_refl. }
  destruct (first_key (queue jb)) as [f|] eqn:Hf; cbn [mbind option_bind] in Hpull.
  2: { injection Hpull as <- <-. by apply served_refl. }
  apply (served_start jb f); [by left | right; by destruct (Hfull Hd) as [p ->] |].
  apply (served_take _ f); [|done|exact Hpull].
  apply jb_ok_set_next; [done|]. by apply first_key_Some.
Qed.

Lemma served_drain_loop n next jb next' out jb' :
  jb_ok jb -> (forall k, is_Some (queue jb !! k) -> next <= k) ->
  drain_loop n next jb = (next', out, jb') ->
  served (set_next (Some next) jb) [] out (set_next (Some next') jb').
Proof.
  revert next jb out. induction n as [|n IH]; intros next jb out Hok Hle; cbn [drain_loop].
  { intros [= <- <- <-]. by apply served_refl, jb_ok_set_next. }
  destruct (first_key (queue jb)) as [f|] eqn:Hf.
  2: { intros [= <- <- <-]. by apply served_refl, jb_ok_set_next. }
  apply first_key_Some in Hf as [[p Hp] Hmin]. rewrite Hp.
  set (jb1 := if next <? f then _ else jb).
  assert (jb_ok jb1 /\ queue jb1 = queue jb /\
    (forall ins out j, served (set_next (Some next) jb1) ins out j ->
      served (set_next (Some next) jb) ins out j)) as (Hok1 & Hq1 & Hsv).
  { subst jb1. case_bool; [|done]. split; [exact Hok|]. split; [done|].
    intros ins o j. apply (served_set_lost (set_next (Some next) jb)). }
  clearbody jb1. rewrite <- Hq1 in *.
  pose proof (served_emit (set_next (Some next) jb1) f p
    (jb_ok_set_next _ _ Hok1 Hle) Hp Hmin) as He. cbn in He.
  destruct (drain_loop n (f + 1) _) as [[nx o] j] eqn:Hloop. intros [= <- <- <-].
  apply Hsv. eapply (served_trans _ _ _ [] [] [p] o); [exact He|].
  eapply IH in Hloop; [exact Hloop | |].
  - pose proof (sv_ok _ _ _ _ He) as (Hs & H2). split; [exact Hs|].
    cbn. intros m k Hm [Hne Hk]%lookup_delete_is_Some.
    destruct Hok1 as (_ & H4). by apply (H4 m).
  - cbn. intros k [Hne Hk]%lookup_delete_is_Some. specialize (Hmin k Hk). lia.
Qed.

(** The loop of [drain] ends with an empty queue. *)
Lemma drain_loop_empties n next jb next' out jb' :
  (size (queue jb) <= n)%nat -> drain_loop n next jb = (next', out, jb') -> queue jb' = ∅.
Proof.
  revert next jb out. induction n as [|n IH]; intros next jb out Hn; cbn [drain_loop].
  { intros [= <- <- <-]. apply map_size_empty_iff. lia. }
  destruct (first_key (queue jb)) as [f|] eqn:Hf.
  2: { intros [= <- <- <-]. by apply first_key_None in Hf. }
  apply first_key_Some in Hf as [[p Hp] _]. rewrite Hp.
  destruct (drain_loop n (f + 1) _) as [[nx o] j] eqn:Hloop. intros [= <- <- <-].
  eapply IH; [|exact Hloop]. case_bool; cbn; rewrite map_size_delete_Some by eauto; lia.
Qed.

Lemma drain_loop_received n next jb :
  received (stats (drain_loop n next jb).2) = received (stats jb).
Proof.
  revert next jb. induction n as [|n IH]; intros next jb; cbn [drain_loop]; [done|].
  destruct (first_key (queue jb)) as [f|]; [|done]. destruct (queue jb !! f); [|done].
  set (jb1 := set_queue _ _). specialize (IH (f + 1) jb1).
  destruct (drain_loop n (f + 1) jb1) as [[nx o] j]. cbn in *. rewrite IH. subst jb1.
  by case_bool.
Qed.

Lemma served_drain jb : jb_ok jb -> served jb [] (drain jb).1 (drain jb).2.
Proof.
  intros Hok. unfold drain.
  set (next := default 0 _).
  destruct (drain_loop _ next jb) as [[nx o] j] eqn:Hloop. cbn.
  assert (forall k, is_Some (queue jb !! k) -> next <= k) as Hle.
  { unfold next. destruct (next_pull_seq jb) as [m|] eqn:Hm; [by apply jb_ok_next_le|].
    destruct (first_key (queue jb)) as [f|] eqn:Hf; cbn.
    + by apply first_key_Some.
    + apply first_key_None in Hf as ->. intros k [? H]. by rewrite lookup_empty in H. }
  pose proof (served_drain_loop _ _ _ _ _ _ Hok Hle Hloop) as Hsv.
  destruct (next_pull_seq jb) as [m|] eqn:Hm.
  { subst next. cbn in Hsv. replace (set_next (Some m) jb) with jb in Hsv; [done|]. destruct jb. cbn in *. by subst. }
  apply (served_start jb next); [by left | | done].
  destruct (first_key (queue jb)) as [f|] eqn:Hf; [right | by left].
  pose proof (first_key_Some _ _ Hf) as [[p Hp] _]. intros ->.
  destruct (size (queue jb)) as [|n] eqn:Hsz.
  { apply map_size_empty_inv in Hsz. by rewrite Hsz, lookup_empty in Hp. }
  cbn [drain_loop] in Hloop. rewrite Hf, Hp in Hloop.
  by destruct (drain_loop n (f + 1) _) as [[? ?] ?].
Qed.

Lemma served_run jb es :
  1 <= depth jb -> jb_ok jb -> Forall (fun p => u16 (sequence p)) (pushed es) ->
  served jb (pushed es) (jb_run jb es).1 (jb_run jb es).2.
Proof.
  revert jb. induction es as [|e es IH]; intros jb H1 Hok Hes; [by apply served_refl|].
  cbn [jb_run]. destruct (jb_step jb e) as [out jb1] eqn:He.
  assert (pushed (e :: es) = pushed [e] ++ pushed es) as Hpe by (by destruct e).
  rewrite Hpe in *. clear Hpe.
  apply Forall_app in Hes as [He1 Hes].
  assert (served jb (pushed [e]) out jb1) as Hs.
  { destruct e as [p now | |]; cbn in *.
    - injection He as <- <-. apply served_push; [done|]. by inv He1.
    - destruct (pull jb) as [o j] eqn:Hp. injection He as <- <-. by apply served_pull.
    - pose proof (served_drain jb Hok) as H. by rewrite He in H. }
  specialize (IH jb1 ltac:(rewrite (sv_depth _ _ _ _ Hs); done) (sv_ok _ _ _ _ Hs) Hes).
  destruct (jb_run jb1 es) as [outs jb2]. by eapply served_trans.
Qed.

Lemma jb_ok_new d : jb_ok (jb_new d).
Proof. by split; [split|]. Qed.

Lemma packets_new d : packets (jb_new d) = [].
Proof. unfold packets. cbn [queue jb_new]. by rewrite map_to_list_empty. Qed.

Lemma jb_len_packets jb : jb_len jb = Z.of_nat (length (packets jb)).
Proof. unfold jb_len, packets. by rewrite length_fmap, length_map_to_list. Qed.

(** ** Properties *)

(** [Ts] are the true numbers of the packets [ps] of a stream: each packet carries
    the low 16 bits of its number, and arrives within the reorder window of the
    newest one before it. *)
Definition true_numbers (Ts : list Z) (ps : list RtpPacket) : Prop :=
  Forall2 (fun T p => sequence p = T mod 65536) Ts ps /\
  match Ts with [] => True | T0 :: Ts => in_window T0 Ts end.

(** The true number of the first packet is reckoned from the start of its cycle. *)
Definition cycle_start (Ts : list Z) : Z := match Ts with [] => 0 | T0 :: _ => 65536 * (T0 / 65536) end.

Lemma true_numbers_extended d Ts ps : true_numbers Ts ps ->
  extend_all (seq_part (jb_new d)) (map sequence ps) = map (fun T => T - cycle_start Ts) Ts.
Proof.
  intros [Hm Hw]. assert (map sequence ps = map (fun T => T mod 65536) Ts) as ->.
  { clear Hw. induction Hm as [|T p Ts ps Hp _ IH]; [done|]. cbn [map]. by rewrite Hp, IH. }
  destruct Ts as [|T0 Ts]; [done|].
  cbn [map extend_all extend_seq last_seq_raw seq_part jb_new set_seq cycle_start]. f_equal; [width|].
  apply (extend_all_near _ _ T0); [| width | cbn; f_equal; width | done].
  split; [done|]. intros l [= <-]. width.
Qed.

Lemma zip_shift (c : Z) (Ts : list Z) (ps : list RtpPacket) :
  zip (map (fun T => T - c) Ts) ps = prod_map (fun T => T - c) id <$> zip Ts ps.
Proof. revert ps. induction Ts as [|T Ts IH]; intros [|p ps]; [done..|]. cbn. by rewrite <- IH. Qed.

(** What a new buffer serves, in true numbers: [kps] are the delivered packets
    with their numbers, [queued] those that wait. *)
Lemma served_numbers d ins out jb Ts :
  served (jb_new d) ins out jb -> true_numbers Ts ins ->
  exists kps queued : list (Z * RtpPacket),
    kps.*2 = out /\ queued.*2 = packets jb /\ kps ++ queued ⊆+ zip Ts ins /\
    StronglySorted Z.lt kps.*1 /\
    (forall k k', k ∈ kps.*1 -> k' ∈ queued.*1 -> k < k') /\
    (forall T, T ∈ Ts -> T ∈ kps.*1 \/ T ∈ queued.*1 \/
       0 < late_drops (stats jb) /\ ((exists k, k ∈ kps.*1 /\ T < k) \/ T < cycle_start Ts)).
Proof.
  intros [[_ Hle] _ _ (kps & Ho & Hs & Hb & Hq & Hk & Hpos) _ _ _ _] HT.
  pose proof (true_numbers_extended d Ts ins HT) as He.
  set (c := cycle_start Ts) in *. set (up := prod_map (fun k : Z => k + c) (@id RtpPacket)).
  assert (forall l : list (Z * RtpPacket), (up <$> l).*1 = map (fun k => k + c) l.*1) as Hup1
    by (intros l; induction l as [|x l IH]; [done|]; cbn; by rewrite <- IH).
  assert (forall l : list (Z * RtpPacket), (up <$> l).*2 = l.*2) as Hup2
    by (intros l; induction l as [|x l IH]; [done|]; cbn; by rewrite <- IH).
  assert (forall l k, k ∈ map (fun k => k + c) l <-> k - c ∈ l) as Hin.
  { intros l k. change (map _ l) with ((fun k => k + c) <$> l). rewrite list_elem_of_fmap. split.
    - intros (y & -> & Hy). by replace (y + c - c) with y by lia.
    - intros H. exists (k - c). split; [lia|done]. }
  rewrite Forall_forall in Hb.
  assert (forall k, k ∈ (map_to_list (queue jb)).*1 <-> is_Some (queue jb !! k)) as Hqk.
  { intros k. rewrite list_elem_of_fmap. split.
    - intros ([k0 a] & -> & H%elem_of_map_to_list). by exists a.
    - intros [a Ha]. exists (k, a). split; [done|]. by apply elem_of_map_to_list. }
  exists (up <$> kps), (up <$> map_to_list (queue jb)). rewrite !Hup1, !Hup2. split_and!.
  - done.
  - done.
  - rewrite <- fmap_app. cbn [queue jb_new] in Hq. rewrite map_to_list_empty in Hq. cbn [app] in Hq.
    unfold key_all in Hq. rewrite He, zip_shift in Hq. apply (fmap_submseteq up) in Hq.
    rewrite <- list_fmap_compose in Hq. etrans; [exact Hq|].
    rewrite (list_fmap_ext _ id); [by rewrite list_fmap_id|]. intros i [T p] _. unfold up. cbn. f_equal. lia.
  - clear -Hs. induction Hs as [|k l _ IH Hf]; [constructor|]. cbn. constructor; [done|].
    apply Forall_map. eapply Forall_impl; [exact Hf|]. cbn. intros. lia.
  - intros k k' H1%Hin H2%Hin. apply Hqk in H2. destruct (Hb _ H1) as [_ (n & Hn & Hlt)].
    specialize (Hle n _ Hn H2). lia.
  - intros T HTin. assert (T - c ∈ (key_all (jb_new d) ins).*1) as Hkey.
    { rewrite key_all_numbers, He. change (map ?f Ts) with (f <$> Ts). apply list_elem_of_fmap. by exists T. }
    destruct (Hk _ (or_intror Hkey)) as [H | [H | [Hlt (n & Hn & Hkn)]]]; rewrite !Hin, ?Hqk; [by left | by right; left|].
    unfold position in Hpos. destruct (last kps.*1) as [k|] eqn:El.
    + rewrite Hpos in Hn. injection Hn as <-.
      assert (k ∈ kps.*1) as Hkin by (apply last_Some in El as [l ->]; apply elem_of_app; right; by left).
      destruct (decide (T - c = k)) as [->|]; [by left|].
      right; right. split; [done|]. left. exists (k + c). rewrite Hin.
      replace (k + c - c) with k by lia. split; [done|lia].
    + right; right. split; [done|]. right. rewrite Hn in Hpos. cbn [next_pull_seq jb_new] in Hpos. destruct Hpos as [|[_ [= ->]]]; [done|]. lia.
Qed.

(** Draining empties the buffer, and delivers exactly the queued packets. *)
Theorem drain_complete jb :
  jb_ok jb -> queue (drain jb).2 = ∅ /\ (drain jb).1 ≡ₚ packets jb.
Proof.
  intros Hok. pose proof (served_drain jb Hok) as Hs. pose proof (served_packets _ _ _ _ Hs) as Hq.
  pose proof (sv_received _ _ _ _ Hs) as Hr.
  assert (queue (drain jb).2 = ∅) as He.
  { unfold drain. destruct (drain_loop _ _ jb) as [[nx o] j] eqn:Hl. cbn.
    by eapply drain_loop_empties in Hl. }
  split; [done|]. rewrite app_nil_r in Hq.
  assert (packets (drain jb).2 = []) as Hp by (unfold packets; by rewrite He, map_to_list_empty).
  rewrite Hp, app_nil_r in Hq. rewrite Hp in Hr. cbn in Hr.
  apply submseteq_length_Permutation; [done|].
  assert (received (stats (drain jb).2) = received (stats jb)) as Hrec; [|lia].
  unfold drain. rewrite <- (drain_loop_received (size (queue jb))
    (default 0 (match next_pull_seq jb with Some n => Some n | None => first_key (queue jb) end)) jb).
  by destruct (drain_loop _ _ jb) as [[nx o] j].
Qed.

Lemma drain_complete_witness :
  let p s := mkRtp 0 false s 0 1 [] in
  let jb := push (push (jb_new 4) (p 7) 0) (p 6) 0 in
  queue (drain jb).2 = ∅ /\ map sequence (drain jb).1 = [6; 7].
Proof.
  intros p jb.
  assert (jb_ok jb) as Hok.
  { apply (sv_ok jb [] [] jb). unfold jb.
    pose proof (served_run (jb_new 4) [EvPush (p 7) 0; EvPush (p 6) 0] ltac:(by cbn) (jb_ok_new 4)
      ltac:(repeat constructor; cbn; width)) as H.
    apply served_refl, H. }
  split; [exact (proj1 (drain_complete jb Hok)) | reflexivity].
Defined.

(** C39: whatever the order in which the packets of a stream arrive, are pulled and
    are drained: every packet that is delivered or still queued is one that arrived
    (with multiplicity), and the statistics account for every packet (received =
    delivered + queued, received + duplicates + late = arrived). As long as every
    packet arrives within 3000 of the newest one, the packets come out in strictly
    increasing order of their true numbers, of which they carry the low 16 bits
    across any number of wraps, no number twice, the ones still queued after all
    that came out; a number that arrived and is neither delivered nor queued was
    dropped as late, behind a packet already delivered (or, if the buffer was
    drained before anything was in it, before the cycle of the first packet). A
    pull of a buffer that holds its depth delivers a packet, and draining leaves
    nothing. *)
Theorem jitter_ordered_delivery d es :
  Forall (fun p => u16 (sequence p)) (pushed es) ->
  let '(out, jb) := jb_run (jb_new d) es in
  out ++ packets jb ⊆+ pushed es /\
  received (stats jb) = Z.of_nat (length out) + jb_len jb /\
  received (stats jb) + duplicates (stats jb) + late_drops (stats jb) =
    Z.of_nat (length (pushed es)) /\
  (forall Ts, true_numbers Ts (pushed es) ->
     exists kps queued : list (Z * RtpPacket),
       kps.*2 = out /\ queued.*2 = packets jb /\ kps ++ queued ⊆+ zip Ts (pushed es) /\
       StronglySorted Z.lt kps.*1 /\
       (forall k k', k ∈ kps.*1 -> k' ∈ queued.*1 -> k < k') /\
       (forall T, T ∈ Ts -> T ∈ kps.*1 \/ T ∈ queued.*1 \/
          0 < late_drops (stats jb) /\ ((exists k, k ∈ kps.*1 /\ T < k) \/ T < cycle_start Ts))) /\
  (Z.max d 1 <= jb_len jb -> is_Some (pull jb).1) /\
  queue (drain jb).2 = ∅ /\ (drain jb).1 ≡ₚ packets jb.
Proof.
  intros Hes. assert (1 <= depth (jb_new d)) as Hd by (cbn; lia).
  pose proof (served_run _ es Hd (jb_ok_new d) Hes) as Hs. pose proof (served_packets _ _ _ _ Hs) as Hp.
  destruct (jb_run (jb_new d) es) as [out jb]. cbn [fst snd] in Hs, Hp.
  pose proof (fun Ts => served_numbers d _ _ _ Ts Hs) as HT. pose proof (drain_complete jb (sv_ok _ _ _ _ Hs)) as Hdr.
  destruct Hs as [_ Hdep _ _ _ _ Hr Ht].
  rewrite packets_new in *. rewrite jb_len_packets. cbn in Hr, Ht, Hp, Hdep.
  split_and!; [done | lia | lia | done | | apply Hdr | apply Hdr].
  rewrite <- jb_len_packets. intros Hl. apply pull_full; lia.
Qed.

Lemma jitter_ordered_delivery_witness :
  let p s := mkRtp 0 false s 0 1 [] in
  let es := [EvPush (p 65535) 0; EvPush (p 1) 0; EvPush (p 0) 0; EvPush (p 0) 0;
             EvPull; EvPull; EvPush (p 65535) 0; EvDrain] in
  map sequence (jb_run (jb_new 3) es).1 = [65535; 0; 1] /\
  exists kps, kps.*2 = (jb_run (jb_new 3) es).1 /\ StronglySorted Z.lt kps.*1 /\
    kps ⊆+ zip [65535; 65537; 65536; 65536; 65535] (pushed es).
Proof.
  intros p es.
  assert (Forall (fun q => u16 (sequence q)) (pushed es)) as He by (repeat constructor; cbn; width).
  assert (true_numbers [65535; 65537; 65536; 65536; 65535] (pushed es)) as HT.
  { split; [repeat constructor|]. cbn. unfold SEQ_REORDER_WINDOW. lia. }
  pose proof (jitter_ordered_delivery 3 es He) as H.
  destruct (jb_run (jb_new 3) es) as [out jb] eqn:Hr.
  destruct H as (_ & _ & _ & H & _). destruct (H _ HT) as (kps & q & H2 & Hq & Hsub & Hs & _).
  vm_compute in Hr. injection Hr as <- <-. split; [reflexivity|].
  exists kps. split; [exact H2|]. split; [exact Hs|]. etransitivity; [apply submseteq_inserts_r; reflexivity | exact Hsub].
Defined.

(** As long as every packet is within 3000 of the newest one, the 64-bit
    sequence numbers the buffer assigns are the true ones: a stream of true
    numbers, sent as their low 16 bits, is extended to those numbers, counted
    from the cycle of the first one, across any number of wraps of the 16-bit
    counter. *)
Theorem extend_seq_correct d T0 Ts :
  in_window T0 Ts ->
  extend_all (jb_new d) (map (fun T => T mod 65536) (T0 :: Ts)) =
  map (fun T => T - 65536 * (T0 / 65536)) (T0 :: Ts).
Proof.
  intros Hw. cbn [map extend_all extend_seq last_seq_raw jb_new]. f_equal; [width|].
  apply (extend_all_near _ _ T0); [| width | cbn; f_equal; width | done].
  split; [done|]. intros l [= <-]. width.
Qed.

Lemma extend_seq_correct_witness :
  extend_all (jb_new 4) [65534; 0; 65535; 2] = [65534; 65536; 65535; 65538].
Proof.
  assert (in_window 65534 [65536; 65535; 65538]) as H by (cbn; unfold SEQ_REORDER_WINDOW; lia).
  exact (extend_seq_correct 4 65534 [65536; 65535; 65538] H).
Defined.

(** The fraction of loss reported for an interval with expected packets is
    the rounded-down share of them, in 1/256ths, that did not arrive, capped at
    255; it fits a byte and its computation cannot overflow for intervals of
    less than 2^56 packets. *)
Theorem fraction_lost_spec (E : Type) s base exp0 rec0 :
  base_seq_ext s = Some base -> 0 <= rec0 <= received s ->
  0 < max_seq_ext s - base + 1 - exp0 < 2 ^ 56 ->
  let expected := max_seq_ext s - base + 1 - exp0 in
  let lost := Z.max 0 (expected - (received s - rec0)) in
  stats_fraction_lost (E := E) s exp0 rec0 = Ok (Z.min 255 (lost * 256 / expected)) /\
  u8 (Z.min 255 (lost * 256 / expected)).
Proof.
  intros Hb Hr. cbv zeta. unfold stats_fraction_lost. rewrite Hb.
  set (expected := max_seq_ext s - base + 1 - exp0). clearbody expected. intros He.
  set (lost := Z.max 0 _).
  replace (Z.max expected 0) with expected by lia.
  replace (saturating_sub (received s) rec0) with (received s - rec0)
    by (unfold saturating_sub; lia).
  replace (saturating_sub expected (received s - rec0)) with lost
    by (unfold saturating_sub; lia).
  rewrite (proj2 (Z.eqb_neq expected 0)) by lia.
  assert (0 <= lost <= expected) as Hl by lia.
  rewrite checked_Ok by (change (2 ^ 56) with 72057594037927936 in He; width).
  cbn [mbind outcome_bind].
  assert (0 <= lost * 256 / expected) by (apply Z.div_pos; lia).
  assert (u8 (Z.min 255 (lost * 256 / expected))) as Hu by width.
  rewrite (Z.min_comm 255) in *. by rewrite wrap_small by exact Hu.
Qed.

Lemma fraction_lost_spec_witness :
  let s := mkStats 90 0 0 0 (S754_zero false) 199 (Some 100) in
  stats_fraction_lost (E := unit) s 0 0 = Ok 25.
Proof.
  intros s.
  exact (proj1 (fraction_lost_spec unit s 100 0 0 eq_refl ltac:(cbn; lia) ltac:(cbn; lia))).
Defined.

(** Two packets that arrive swapped at the start of a stream are enough
    for the cumulative loss to be negative, with no duplicate and no late
    packet among them. *)
Theorem cumulative_lost_negative d p1 p2 t1 t2 s :
  0 < s < 65536 -> sequence p1 = s -> sequence p2 = s - 1 ->
  let jb := push (push (jb_new d) p1 t1) p2 t2 in
  stats_cumulative_lost (stats jb) = -1 /\
  duplicates (stats jb) = 0 /\ late_drops (stats jb) = 0.
Proof.
  intros Hs H1 H2. unfold push at 2. cbn [extend_seq last_seq_raw jb_new].
  rewrite H1. cbn -[push]. rewrite bool_decide_eq_false_2 by (rewrite lookup_empty; by intros []).
  unfold push, extend_seq. cbn -[insert lookup]. rewrite H2. unfold SEQ_REORDER_WINDOW.
  replace (s - 1 - s) with (-1) by lia. change (-1 <? - (3000)) with false.
  change (3000 <? -1) with false. change (0 <? -1) with false. cbv iota beta. cbn [next_pull_seq set_queue set_stats set_arrival set_seq jb_new queue seq_cycles].
  rewrite bool_decide_eq_false_2.
  2: { rewrite lookup_insert_ne, lookup_empty by lia. by intros []. }
  unfold arrival_stats, stats_cumulative_lost. cbn [set_stats set_queue base_seq_ext
    set_received set_range stats stats_default max_seq_ext set_arrival last_arrival].
  rewrite (proj2 (Z.ltb_ge s _)) by lia. cbn. lia.
Qed.

Lemma cumulative_lost_negative_witness :
  let p s := mkRtp 0 false s 0 1 [] in
  stats_cumulative_lost (stats (push (push (jb_new 4) (p 10) 0) (p 9) 0)) = -1.
Proof.
  intros p.
  exact (proj1 (cumulative_lost_negative 4 (p 10) (p 9) 0 0 10 ltac:(lia) eq_refl eq_refl)).
Defined.

(** A forward gap of more than 3000 stops the stream: once playback has
    started in the current cycle, a packet whose sequence number is more than
    3000 above the newest one is taken for one of the previous cycle and
    dropped as late; the newest number, the queue and the playback position
    stay as they were, so the packets after it meet the same fate. *)
Theorem forward_gap_dropped jb pkt now last n :
  last_seq_raw jb = Some last -> next_pull_seq jb = Some n -> seq_cycles jb <= n ->
  u16 (sequence pkt) -> SEQ_REORDER_WINDOW < sequence pkt - last ->
  let jb' := push jb pkt now in
  queue jb' = queue jb /\ last_seq_raw jb' = Some last /\ seq_cycles jb' = seq_cycles jb /\
  next_pull_seq jb' = Some n /\
  late_drops (stats jb') = late_drops (stats jb) + 1.
Proof.
  intros Hl Hn Hc Hs Hg. unfold push, extend_seq. rewrite Hl.
  unfold SEQ_REORDER_WINDOW in *. change (Z.shiftl 1 16) with 65536.
  rewrite (proj2 (Z.ltb_ge _ (-3000))), (proj2 (Z.ltb_lt 3000 _)) by lia.
  cbn [next_pull_seq set_arrival set_stats]. rewrite Hn.
  rewrite (proj2 (Z.ltb_lt _ n)) by width. cbn.
  by rewrite (proj2 (proj2 (arrival_stats_counts jb _ pkt now))).
Qed.

Lemma forward_gap_dropped_witness :
  let p s := mkRtp 0 false s 0 1 [] in
  let jb := (pull (push (jb_new 1) (p 10) 0)).2 in
  late_drops (stats (push jb (p 3011) 0)) = 1.
Proof.
  intros p jb.
  refine (proj2 (proj2 (proj2 (proj2 (forward_gap_dropped jb (p 3011) 0 10 11 _ _ _ _ _))))).
  - reflexivity.
  - reflexivity.
  - vm_compute. discriminate.
  - cbn. width.
  - reflexivity.
Defined.
