(* ===== verification/Dtmf.v ===== *)
(** DTMF relay (src/src/call/dtmf.rs): the RFC 4733 telephone-event payload,
    the digit and event tables, and the expansion of a key press into a train
    of RTP packets. *)
From S2P Require Import Prelude Bytes RtpPacket.

Definition PAYLOAD_TYPE_TELEPHONE_EVENT : Z := 101.

Record TelephoneEvent := mkTel { event : Z; tel_end : bool; volume : Z; duration : Z }.

Inductive DtmfError :=
  | DtmfShort (len : nat).

Definition into_payload (e : TelephoneEvent) : list Z :=
  let e_bit := if tel_end e then 0x80 else 0 in
  let volume := Z.land (volume e) 0x3f in
  [event e; Z.lor e_bit volume; wrap 8 (Z.shiftr (duration e) 8);
   wrap 8 (Z.land (duration e) 0xff)].

Definition from_payload (data : list Z) : outcome DtmfError TelephoneEvent :=
  ensure (4 <=? length data)%nat (DtmfShort (length data)) ;;
  event ← idx data 0;
  flags ← idx data 1;
  let end_ := negb (Z.land flags 0x80 =? 0) in
  let volume := Z.land flags 0x3f in
  duration ← rd_be data 2 2;
  Ok (mkTel event end_ volume duration).

(** Characters are Unicode scalar values. *)
Definition digit_to_event (digit : Z) : option Z :=
  if (48 <=? digit) && (digit <=? 57) then Some (digit - 48)
  else if digit =? 42 then Some 10
  else if digit =? 35 then Some 11
  else if (65 <=? digit) && (digit <=? 68) then Some (12 + digit - 65)
  else if (97 <=? digit) && (digit <=? 100) then Some (12 + digit - 97)
  else None.

Definition event_to_digit (event : Z) : option Z :=
  if (0 <=? event) && (event <=? 9) then Some (48 + event)
  else if event =? 10 then Some 42
  else if event =? 11 then Some 35
  else if (12 <=? event) && (event <=? 15) then Some (65 + (event - 12))
  else None.

Definition CLOCK_HZ : Z := 8000.

Section packets.
Context (event start_timestamp ssrc volume total period : Z).

(** The packet that reports [duration] units of the event. *)
Definition event_packet (marker end_ : bool) (seq duration : Z) : RtpPacket :=
  mkRtp PAYLOAD_TYPE_TELEPHONE_EVENT marker seq start_timestamp ssrc
    (into_payload (mkTel event end_ volume duration)).

(** The [loop] of intermediate packets; [None] when the fuel is not enough. *)
Fixpoint event_loop (fuel : nat) (seq accumulated : Z) (first : bool)
  : option (list RtpPacket * Z) :=
  match fuel with
  | O => None
  | S fuel =>
      let cur_duration := Z.min accumulated total in
      let pkt := event_packet first false seq cur_duration in
      let seq := wrapping_add 16 seq 1 in
      if total <=? cur_duration then Some ([pkt], seq)
      else
        '(rest, seq) ← event_loop fuel seq (saturating_add 16 accumulated period) false;
        Some (pkt :: rest, seq)
  end.

(** The three packets that end the event. *)
Fixpoint end_packets (n : nat) (seq : Z) : list RtpPacket :=
  match n with
  | O => []
  | S n => event_packet false true seq total :: end_packets n (wrapping_add 16 seq 1)
  end.
End packets.

(** A loop of at most 65535 units, by at least one unit: 65536 rounds are
    enough. *)
Definition event_fuel : nat := Z.to_nat 65536.

(** [u32] products are checked; running out of fuel, which does not happen, is
    reported as a panic. *)
Definition build_dtmf_packet_sequence {E}
    (event start_seq start_timestamp ssrc duration_ms period_ms volume : Z)
  : outcome E (list RtpPacket) :=
  d ← checked 32 (Z.max duration_ms 1 * CLOCK_HZ);
  let total_duration_units := Z.min (d / 1000) 65535 in
  period_units ←
    (if period_ms =? 0 then Ok total_duration_units
     else p ← checked 32 (period_ms * CLOCK_HZ); Ok (Z.max (Z.min (p / 1000) 65535) 1));
  match event_loop event start_timestamp ssrc volume total_duration_units period_units
          event_fuel start_seq period_units true with
  | None => Panic
  | Some (packets, seq) =>
      Ok (packets ++ end_packets event start_timestamp ssrc volume total_duration_units 3 seq)
  end.

(** ** Specification of the train *)

(** The number of intermediate packets: the periods in [total], rounded up. *)
Definition steps (total period : Z) : Z := (total + period - 1) / period.

(** The [i]-th packet of the train. *)
Definition train_packet (event start_seq start_timestamp ssrc volume total period : Z) (i : Z)
  : RtpPacket :=
  let n := steps total period in
  event_packet event start_timestamp ssrc volume (i =? 0) (n <=? i)
    (wrap 16 (start_seq + i)) (Z.min ((i + 1) * period) total).

Definition units (ms : Z) : Z := Z.min (ms * 8) 65535.

Section train.
Context (event start_seq start_timestamp ssrc volume total period : Z).
Context (Htotal : 1 <= total <= 65535).
Context (Hperiod : 1 <= period <= 65535).
Let train := train_packet event start_seq start_timestamp ssrc volume total period.

Lemma steps_bounds : 1 <= steps total period <= total.
Proof using Htotal Hperiod. unfold steps. split; [apply Z.div_le_lower_bound; lia|].
  apply Z.div_le_upper_bound; nia. Qed.

(** The [i]-th round is the last one when [i + 1] periods cover the event. *)
Lemma last_step i : 0 <= i -> total <= (i + 1) * period <-> steps total period <= i + 1.
Proof using Htotal Hperiod.
  intros Hi. unfold steps. split; intros H.
  - apply Z.lt_succ_r, Z.div_lt_upper_bound; nia.
  - pose proof (Z.mul_succ_div_gt (total + period - 1) period). nia.
Qed.

Lemma event_loop_train fuel i :
  0 <= i < steps total period -> steps total period - i <= Z.of_nat fuel ->
  event_loop event start_timestamp ssrc volume total period fuel (wrap 16 (start_seq + i))
    (Z.min ((i + 1) * period) 65535) (i =? 0) =
  Some (map train (seqZ i (steps total period - i)),
        wrap 16 (start_seq + steps total period)).
Proof using Htotal Hperiod.
  revert i. induction fuel as [|fuel IH]; intros i Hi Hf; [lia|]. cbn [event_loop].
  pose proof (last_step i ltac:(lia)) as Hlast.
  assert (event_packet event start_timestamp ssrc volume (i =? 0) false
    (wrap 16 (start_seq + i)) (Z.min (Z.min ((i + 1) * period) 65535) total) = train i) as ->.
  { unfold train, train_packet. rewrite (proj2 (Z.leb_gt _ i)) by lia. f_equal; lia. }
  assert (wrapping_add 16 (wrap 16 (start_seq + i)) 1 = wrap 16 (start_seq + (i + 1))) as ->
    by (rewrite wrapping_add_wrap; f_equal; lia).
  destruct (Z.leb_spec total (Z.min (Z.min ((i + 1) * period) 65535) total)) as [Hd | Hd].
  - assert (steps total period = i + 1) as -> by lia.
    replace (i + 1 - i) with (Z.succ 0) by lia. rewrite seqZ_cons by lia. done.
  - replace (saturating_add 16 (Z.min ((i + 1) * period) 65535) period)
      with (Z.min ((i + 1 + 1) * period) 65535) by (unfold saturating_add; lia).
    specialize (IH (i + 1)). rewrite (proj2 (Z.eqb_neq (i + 1) 0)) in IH by lia.
    rewrite IH by lia. cbn. rewrite (seqZ_cons i) by lia. cbn [map].
    repeat f_equal; lia.
Qed.

Lemma end_packets_train n i :
  steps total period <= i ->
  end_packets event start_timestamp ssrc volume total n (wrap 16 (start_seq + i)) =
  map train (seqZ i (Z.of_nat n)).
Proof using Htotal Hperiod.
  revert i. induction n as [|n IH]; intros i Hi; [done|]. cbn [end_packets].
  rewrite seqZ_cons by lia. cbn [map].
  replace (wrapping_add 16 (wrap 16 (start_seq + i)) 1) with (wrap 16 (start_seq + Z.succ i))
    by (rewrite wrapping_add_wrap; f_equal; lia).
  rewrite IH by lia. f_equal; [|repeat f_equal; lia].
  pose proof (last_step i). pose proof steps_bounds.
  unfold train, train_packet. rewrite (proj2 (Z.leb_le _ i)), (proj2 (Z.eqb_neq i 0)) by lia.
  f_equal. lia.
Qed.
End train.

(** ** Properties *)

(** A telephone-event payload whose fields fit (an 8-bit event, a 6-bit
    volume, a 16-bit duration) is read back exactly, whatever follows it. *)
Theorem telephone_event_roundtrip e rest :
  u8 (event e) -> uN 6 (volume e) -> u16 (duration e) ->
  from_payload (into_payload e ++ rest) = Ok e.
Proof.
  intros He Hv Hd. unfold into_payload, from_payload. cbn [app length Nat.leb].
  cbn [ensure mbind outcome_bind]. rewrite idx_cons_0, !idx_cons_S, idx_cons_0.
  cbn [mbind outcome_bind]. rewrite rd_be_Ok by (cbn; lia). cbn [mbind outcome_bind].
  change (take 2 (drop 2 (?a :: ?b :: ?c :: ?d :: rest))) with [c; d].
  assert (forall v, 0 <= v < 64 ->
    ((Z.land (Z.lor 0x80 (Z.land v 0x3f)) 0x80 =? 128) &&
     (Z.land (Z.lor 0x80 (Z.land v 0x3f)) 0x3f =? v) && (Z.land v 0x3f =? v) &&
     (Z.land (Z.lor 0 (Z.land v 0x3f)) 0x80 =? 0)) = true) as Hvol.
  { intros v Hr. range_exhaust v 0 64. }
  assert (0 <= volume e < 64) as Hv' by exact Hv. apply Hvol in Hv'.
  rewrite !andb_true_iff, !Z.eqb_eq in Hv'. destruct Hv' as [[[H1 H2] H3] H4].
  assert (from_be [wrap 8 (Z.shiftr (duration e) 8); wrap 8 (Z.land (duration e) 0xff)] =
    duration e) as ->.
  { change 0xff with (Z.ones 8). rewrite Z.land_ones, Z.shiftr_div_pow2 by lia.
    unfold from_be. cbn [fold_left]. width. }
  destruct e as [ev en vo du]. cbn in *. destruct en.
  - by rewrite H1, H2.
  - by rewrite H4, !Z.lor_0_l, !H3.
Qed.

Lemma telephone_event_roundtrip_witness :
  from_payload (into_payload (mkTel 11 true 10 800) ++ [1; 2]) = Ok (mkTel 11 true 10 800).
Proof. apply telephone_event_roundtrip; unfold uN; cbn; lia. Defined.

(** The digits and the sixteen DTMF events correspond one to one: every
    event has a digit that maps back to it, and every character that maps to
    an event is that digit or its lower-case form. *)
Theorem digit_event_bijection e d :
  (0 <= e <= 15 -> exists c, event_to_digit e = Some c /\ digit_to_event c = Some e) /\
  (digit_to_event d = Some e ->
     0 <= e <= 15 /\ (event_to_digit e = Some d \/ event_to_digit e = Some (d - 32))) /\
  (~ 0 <= e <= 15 -> event_to_digit e = None).
Proof.
  unfold digit_to_event, event_to_digit. split; [|split].
  - intros He. case_bool; try lia; eexists; (split; [reflexivity|]); case_bool; try lia; f_equal; lia.
  - case_bool; intros [= <-]; (split; [lia|]);
      first [left; case_bool; solve [f_equal; lia | lia]
            | right; case_bool; solve [f_equal; lia | lia]].
  - intros He. case_bool; solve [lia | done].
Qed.

Lemma digit_event_bijection_witness :
  event_to_digit 10 = Some 42 /\ digit_to_event 100 = Some 15.
Proof.
  destruct (digit_event_bijection 15 100) as (_ & H & _).
  destruct (H eq_refl) as [_ [Hd | Hd]]; [discriminate Hd | split; reflexivity].
Defined.

(** A key press of less than 536871 ms always yields a train, and the
    train is the RFC 4733 one: packet [i] has the [i]-th consecutive 16-bit
    sequence number, the timestamp of the press, the marker on the first packet
    only, and reports the elapsed duration, growing by one period up to the
    total; the train ends with the total, then three end packets that repeat
    it. *)
Theorem dtmf_train_spec (E : Type) event start_seq start_timestamp ssrc duration_ms period_ms volume :
  u16 start_seq -> 0 <= duration_ms <= 536870 -> 0 <= period_ms <= 536870 ->
  let total := units (Z.max duration_ms 1) in
  let period := if period_ms =? 0 then total else units period_ms in
  build_dtmf_packet_sequence (E := E) event start_seq start_timestamp ssrc duration_ms period_ms
    volume =
  Ok (map (train_packet event start_seq start_timestamp ssrc volume total period)
        (seqZ 0 (steps total period + 3))) /\
  1 <= steps total period.
Proof.
  intros Hs Hd Hp total period. unfold build_dtmf_packet_sequence, CLOCK_HZ.
  rewrite !checked_Ok by width. cbn [mbind outcome_bind].
  assert (Z.min (Z.max duration_ms 1 * 8000 / 1000) 65535 = total) as ->.
  { unfold total, units. f_equal. width. }
  assert (1 <= total <= 65535) as Ht by (unfold total, units; lia).
  assert ((if period_ms =? 0 then Ok total
           else Ok (Z.max (Z.min (period_ms * 8000 / 1000) 65535) 1)) =
          Ok (E := E) period) as ->.
  { unfold period. destruct (Z.eqb_spec period_ms 0); [done|].
    f_equal. unfold units. width. }
  assert (1 <= period <= 65535) as Hper.
  { unfold period, units. destruct (Z.eqb_spec period_ms 0); lia. }
  clearbody total period. cbn [mbind outcome_bind].
  pose proof (steps_bounds total period Ht Hper) as Hn.
  pose proof (event_loop_train event start_seq start_timestamp ssrc volume total period
    Ht Hper event_fuel 0 ltac:(lia)) as Hl.
  rewrite Z.add_0_r, (wrap_small 16 start_seq Hs), Z.mul_1_l in Hl.
  replace (Z.min period 65535) with period in Hl by lia. change (0 =? 0) with true in Hl.
  rewrite Hl by (unfold event_fuel; lia).
  rewrite (end_packets_train event start_seq start_timestamp ssrc volume total period Ht Hper) by lia.
  split; [|lia]. rewrite <- map_app, Z.sub_0_r, (seqZ_app _ _ 3) by lia. done.
Qed.

Lemma dtmf_train_spec_witness :
  build_dtmf_packet_sequence (E := unit) 5 65534 1000 7 100 50 10 =
  Ok (map (train_packet 5 65534 1000 7 10 800 400) [0; 1; 2; 3; 4]).
Proof.
  exact (proj1 (dtmf_train_spec unit 5 65534 1000 7 100 50 10
    ltac:(width) ltac:(lia) ltac:(lia))).
Defined.

(** A press of 536871 ms or more overflows the 32-bit product that
    converts milliseconds to clock units: in a build with overflow checks the
    function panics. *)
Theorem dtmf_train_overflow (E : Type) event start_seq start_timestamp ssrc duration_ms period_ms volume :
  536871 <= duration_ms ->
  build_dtmf_packet_sequence (E := E) event start_seq start_timestamp ssrc duration_ms period_ms
    volume = Panic.
Proof.
  intros Hd. unfold build_dtmf_packet_sequence, CLOCK_HZ, checked.
  change (2 ^ 32) with 4294967296.
  rewrite (proj2 (Z.ltb_ge (Z.max duration_ms 1 * 8000) 4294967296)) by lia.
  by rewrite andb_false_r.
Qed.

Lemma dtmf_train_overflow_witness :
  build_dtmf_packet_sequence (E := unit) 5 0 0 7 600000 50 10 = Panic.
Proof. apply dtmf_train_overflow. lia. Defined.
