(* ===== verification/RtpSession.v ===== *)
(** An RTP session (src/src/rtp/session.rs): the sender state (sequence number,
    timestamp, marker by talk spurt, counters), one jitter buffer per received
    SSRC, and the sender and receiver reports built from them.

    The clock readings ([Instant::now], the wall clock of [NtpTimestamp::now]),
    the random initial values and the result of [send_to] are arguments. A
    [HashMap] is iterated in an unspecified order: the operations that iterate
    take the order as an argument, a permutation of the entries. *)
From S2P Require Import Prelude Bytes F64 RtpPacket Rtcp Jitter.

Definition TALKSPURT_GAP_THRESHOLD : Z := from_millis 30.

Record RtpSession := mkSession {
  s_ssrc : Z;
  s_seq : Z;
  s_timestamp : Z;
  sent_packets : Z;
  sent_octets : Z;
  recv_packets : Z;
  recv_octets : Z;
  inbound : gmap Z JitterBuffer;
  s_last_sr : option (Z * Z);
  s_depth : Z;
  remote_last_sr_recv : gmap Z (Z * Z);
  last_send_time : option Z;
  last_reported_per_ssrc : gmap Z (Z * Z)
}.

(** [RtpSession::with_depth], the random values given. *)
Definition with_depth (ssrc seq timestamp depth : Z) : RtpSession :=
  mkSession ssrc seq timestamp 0 0 0 0 ∅ None depth ∅ None ∅.

(** ** Sending *)

Definition is_talkspurt_start (last : option Z) (now : Z) : bool :=
  match last with
  | None => true
  | Some prev => TALKSPURT_GAP_THRESHOLD <=? duration_since now prev
  end.

(** What both senders do: take the sequence number and the timestamp, build the
    packet, hand it to the socket ([sent] is the result of [send_to]) and count
    it when it was sent. *)
Definition emit (s : RtpSession) (payload_type ts_increment : Z) (marker : bool)
    (last_send : option Z) (payload : list Z) (sent : bool) : RtpPacket * RtpSession :=
  let seq := s_seq s in
  let ts := s_timestamp s in
  let pkt := mkRtp payload_type marker seq ts (s_ssrc s) payload in
  (pkt,
   mkSession (s_ssrc s) (wrapping_add 16 seq 1) (wrapping_add 32 ts ts_increment)
     (if sent then wrapping_add 64 (sent_packets s) 1 else sent_packets s)
     (if sent then wrapping_add 64 (sent_octets s) (Z.of_nat (length payload))
      else sent_octets s)
     (recv_packets s) (recv_octets s) (inbound s) (s_last_sr s) (s_depth s)
     (remote_last_sr_recv s) last_send (last_reported_per_ssrc s)).

(** [send_ulaw]: the datagram and the state after. *)
Definition send_ulaw (s : RtpSession) (pcm_ulaw : list Z) (now : Z) (sent : bool)
  : list Z * RtpSession :=
  let marker := is_talkspurt_start (last_send_time s) now in
  let '(pkt, s) :=
    emit s PAYLOAD_TYPE_ULAW SAMPLES_PER_FRAME marker (Some now) pcm_ulaw sent in
  (to_bytes pkt, s).

Definition send_payload (s : RtpSession) (payload_type ts_increment : Z) (marker : bool)
    (payload : list Z) (sent : bool) : list Z * RtpSession :=
  let '(pkt, s) :=
    emit s (Z.land payload_type 0x7f) ts_increment marker (last_send_time s) payload sent in
  (to_bytes pkt, s).

(** ** Receiving *)

Definition set_inbound m (s : RtpSession) :=
  mkSession (s_ssrc s) (s_seq s) (s_timestamp s) (sent_packets s) (sent_octets s)
    (recv_packets s) (recv_octets s) m (s_last_sr s) (s_depth s) (remote_last_sr_recv s)
    (last_send_time s) (last_reported_per_ssrc s).

Definition count_recv (len : Z) (s : RtpSession) :=
  mkSession (s_ssrc s) (s_seq s) (s_timestamp s) (sent_packets s) (sent_octets s)
    (wrapping_add 64 (recv_packets s) 1) (wrapping_add 64 (recv_octets s) len) (inbound s)
    (s_last_sr s) (s_depth s) (remote_last_sr_recv s) (last_send_time s)
    (last_reported_per_ssrc s).

Definition ingest_packet (s : RtpSession) (pkt : RtpPacket) (now : Z) : RtpSession :=
  let s := count_recv (Z.of_nat (length (payload pkt))) s in
  let jb := default (jb_new (s_depth s)) (inbound s !! ssrc pkt) in
  set_inbound (<[ssrc pkt := push jb pkt now]> (inbound s)) s.

Definition ingest_raw (s : RtpSession) (data : list Z) (now : Z) : outcome RtpError RtpSession :=
  pkt ← from_bytes data;
  Ok (ingest_packet s pkt now).

(** [recv_once] on a datagram [buf]: a malformed one is only logged. *)
Definition recv_once (s : RtpSession) (buf : list Z) (now : Z) : outcome RtpError RtpSession :=
  match ingest_raw s buf now with
  | Ok s => Ok s
  | Err _ => Ok s
  | Panic => Panic
  end.

Definition pull_ssrc (s : RtpSession) (k : Z) : option RtpPacket * RtpSession :=
  match inbound s !! k with
  | None => (None, s)
  | Some jb =>
      let '(o, jb) := pull jb in
      (o, set_inbound (<[k := jb]> (inbound s)) s)
  end.

(** [pull_any], the buffers visited in the order [order]. *)
Fixpoint pull_any (s : RtpSession) (order : list Z) : option RtpPacket * RtpSession :=
  match order with
  | [] => (None, s)
  | k :: order =>
      match pull_ssrc s k with
      | (Some p, s) => (Some p, s)
      | (None, s) => pull_any s order
      end
  end.

(** ** Reports *)

Definition report_block (last_reported : gmap Z (Z * Z)) (last_sr_recv : gmap Z (Z * Z))
    (now : Z) (k : Z) (jb : JitterBuffer) : outcome unit (ReportBlock * gmap Z (Z * Z)) :=
  let s := stats jb in
  let cum_signed := stats_cumulative_lost s in
  let cum := Z.land (wrap 32 (Z.max cum_signed 0)) 0x00FFFFFF in
  let '(last_exp, last_recv) := default (0, 0) (last_reported !! k) in
  frac ← stats_fraction_lost s last_exp last_recv;
  let last_reported :=
    match base_seq_ext s with
    | Some base =>
        let expected_now := max_seq_ext s - base + 1 in
        <[k := (expected_now, received s)]> last_reported
    | None => last_reported
    end in
  let '(last_sr, dlsr) :=
    match last_sr_recv !! k with
    | Some (mid, inst) =>
        let elapsed := duration_since now inst in
        (mid, f64_to_u32 (f64_mul (as_secs_f64 elapsed) (f64_of_Z 65536)))
    | None => (0, 0)
    end in
  Ok (mkReport k frac cum (wrap 32 (max_seq_ext s)) (f64_to_u32 (st_jitter s)) last_sr dlsr,
      last_reported).

Fixpoint report_blocks (last_reported : gmap Z (Z * Z)) (last_sr_recv : gmap Z (Z * Z))
    (now : Z) (entries : list (Z * JitterBuffer))
  : outcome unit (list ReportBlock * gmap Z (Z * Z)) :=
  match entries with
  | [] => Ok ([], last_reported)
  | (k, jb) :: entries =>
      '(b, last_reported) ← report_block last_reported last_sr_recv now k jb;
      '(bs, last_reported) ← report_blocks last_reported last_sr_recv now entries;
      Ok (b :: bs, last_reported)
  end.

(** [build_report_blocks], the buffers iterated as [entries]. *)
Definition build_report_blocks (s : RtpSession) (now : Z) (entries : list (Z * JitterBuffer))
  : outcome unit (list ReportBlock * RtpSession) :=
  '(bs, last_reported) ←
    report_blocks (last_reported_per_ssrc s) (remote_last_sr_recv s) now (take 31 entries);
  Ok (bs, mkSession (s_ssrc s) (s_seq s) (s_timestamp s) (sent_packets s) (sent_octets s)
            (recv_packets s) (recv_octets s) (inbound s) (s_last_sr s) (s_depth s)
            (remote_last_sr_recv s) (last_send_time s) last_reported).

Definition build_sr (s : RtpSession) (wall now : Z) (entries : list (Z * JitterBuffer))
  : outcome unit (SenderReport * RtpSession) :=
  now_ntp ← ntp_now wall;
  let rtp_ts := s_timestamp s in
  '(reports, s) ← build_report_blocks s now entries;
  Ok (mkSR (s_ssrc s) now_ntp rtp_ts (wrap 32 (sent_packets s)) (wrap 32 (sent_octets s)) reports,
      mkSession (s_ssrc s) (s_seq s) (s_timestamp s) (sent_packets s) (sent_octets s)
        (recv_packets s) (recv_octets s) (inbound s) (Some (middle32 now_ntp, now)) (s_depth s)
        (remote_last_sr_recv s) (last_send_time s) (last_reported_per_ssrc s)).

Definition build_rr (s : RtpSession) (now : Z) (entries : list (Z * JitterBuffer))
  : outcome unit (ReceiverReport * RtpSession) :=
  '(reports, s) ← build_report_blocks s now entries;
  Ok (mkRR (s_ssrc s) reports, s).

Definition record_remote_sr (s : RtpSession) (sr : SenderReport) (now : Z) : RtpSession :=
  mkSession (s_ssrc s) (s_seq s) (s_timestamp s) (sent_packets s) (sent_octets s)
    (recv_packets s) (recv_octets s) (inbound s) (s_last_sr s) (s_depth s)
    (<[sr_ssrc sr := (middle32 (sr_ntp sr), now)]> (remote_last_sr_recv s))
    (last_send_time s) (last_reported_per_ssrc s).

Record RtpSessionStats := mkSessionStats {
  ss_sent_packets : Z; ss_sent_octets : Z; ss_recv_packets : Z; ss_recv_octets : Z;
  ss_jitter : f64; ss_lost : Z; ss_max_seq_ext : Z
}.

(** [stats]: the jitter buffers combined in the order given. *)
Definition session_stats (s : RtpSession) (values : list JitterBuffer) : RtpSessionStats :=
  fold_left
    (fun c jb =>
       let st := stats jb in
       mkSessionStats (ss_sent_packets c) (ss_sent_octets c) (ss_recv_packets c)
         (ss_recv_octets c)
         (if f64_gt (st_jitter st) (ss_jitter c) then st_jitter st else ss_jitter c)
         (ss_lost c + stats_cumulative_lost st)
         (if ss_max_seq_ext c <? max_seq_ext st then max_seq_ext st else ss_max_seq_ext c))
    values
    (mkSessionStats (sent_packets s) (sent_octets s) (recv_packets s) (recv_octets s)
       (S754_zero false) 0 0).

(** ** The stream a session sends *)

(** A frame handed to [send_ulaw]: its bytes, the time, whether the socket took
    it. *)
Record frame := mkFrame { f_bytes : list Z; f_now : Z; f_sent : bool }.

Fixpoint send_frames (s : RtpSession) (fs : list frame) : list (list Z) * RtpSession :=
  match fs with
  | [] => ([], s)
  | f :: fs =>
      let '(d, s) := send_ulaw s (f_bytes f) (f_now f) (f_sent f) in
      let '(ds, s) := send_frames s fs in
      (d :: ds, s)
  end.

(** The packets of a voice stream: the [i]-th has the [i]-th 16-bit sequence
    number and the timestamp of its 160 samples, and is marked when it is the
    first one or comes 30 ms or more after the one before. *)
Fixpoint voice_stream (k seq0 ts0 : Z) (i : Z) (last : option Z) (fs : list frame)
  : list RtpPacket :=
  match fs with
  | [] => []
  | f :: fs =>
      mkRtp 0 (match last with None => true | Some t => from_millis 30 <=? f_now f - t end)
        (wrap 16 (seq0 + i)) (wrap 32 (ts0 + 160 * i)) k (f_bytes f)
      :: voice_stream k seq0 ts0 (i + 1) (Some (f_now f)) fs
  end.

Lemma talkspurt_spec last now :
  is_talkspurt_start last now =
  match last with None => true | Some t => from_millis 30 <=? now - t end.
Proof.
  destruct last as [t|]; [|done]. unfold is_talkspurt_start, TALKSPURT_GAP_THRESHOLD,
    duration_since, from_millis. lia.
Qed.

Lemma send_frames_stream s fs seq0 ts0 i :
  u32 (s_ssrc s) -> Forall (fun f => bytes_ok (f_bytes f)) fs ->
  s_seq s = wrap 16 (seq0 + i) -> s_timestamp s = wrap 32 (ts0 + 160 * i) ->
  map from_bytes (send_frames s fs).1 =
  map Ok (voice_stream (s_ssrc s) seq0 ts0 i (last_send_time s) fs).
Proof.
  intros Hk Hfs. revert s i Hk. induction Hfs as [|f fs Hf Hfs IH]; intros s i Hk Hs Ht; [done|].
  cbn [send_frames voice_stream map]. unfold send_ulaw, emit.
  set (s' := mkSession _ _ _ _ _ _ _ _ _ _ _ _ _).
  specialize (IH s' (i + 1) Hk). destruct (send_frames s' fs) as [ds s'']. cbn [map fst] in *.
  rewrite IH.
  2: { subst s'. cbn. rewrite Hs, wrapping_add_wrap. f_equal. lia. }
  2: { subst s'. cbn [s_timestamp]. rewrite Ht, wrapping_add_wrap. f_equal.
       change SAMPLES_PER_FRAME with 160. lia. }
  f_equal. rewrite talkspurt_spec, Hs, Ht. unfold PAYLOAD_TYPE_ULAW.
  apply from_bytes_complete, to_bytes_wire.
  constructor; cbn; try done; width.
Qed.

Lemma send_frames_counts s fs :
  let s' := (send_frames s fs).2 in
  sent_packets s' mod 2 ^ 64 =
    (sent_packets s + Z.of_nat (length (List.filter f_sent fs))) mod 2 ^ 64.
Proof.
  revert s. induction fs as [|f fs IH]; intros s.
  { cbn [send_frames List.filter length snd]. cbv zeta. f_equal. cbn. lia. }
  cbn [send_frames]. unfold send_ulaw, emit.
  set (s' := mkSession _ _ _ _ _ _ _ _ _ _ _ _ _). specialize (IH s').
  destruct (send_frames s' fs) as [ds s'']. cbn [snd List.filter] in *. rewrite IH.
  subst s'. cbn [sent_packets]. destruct (f_sent f); [|done]. cbn [length].
  unfold wrapping_add, wrap. rewrite Zplus_mod_idemp_l. f_equal. lia.
Qed.

(** ** Well-formed sessions *)

Record session_ok (s : RtpSession) : Prop := {
  so_ssrc : u32 (s_ssrc s);
  so_seq : u16 (s_seq s);
  so_ts : u32 (s_timestamp s);
  so_inbound : forall k jb, inbound s !! k = Some jb -> u32 k /\
    0 <= received (stats jb) < 2 ^ 54 /\
    (forall b, base_seq_ext (stats jb) = Some b -> b <= max_seq_ext (stats jb) < b + 2 ^ 54);
  so_last : forall k e r, last_reported_per_ssrc s !! k = Some (e, r) ->
    0 <= e < 2 ^ 55 /\ 0 <= r;
  so_sr : forall k m t, remote_last_sr_recv s !! k = Some (m, t) -> u32 m
}.

Lemma middle32_range n : u32 (seconds n) -> u32 (fraction n) -> u32 (middle32 n).
Proof.
  intros Hs Hf. unfold middle32. change 0xFFFF with (Z.ones 16).
  rewrite Z.land_ones, Z.shiftr_div_pow2 by lia.
  assert (u16 (fraction n / 2 ^ 16)) as Hb by width.
  rewrite lor_shiftl by done. width.
Qed.

(** A block built from a well-formed buffer is well formed, and the wire loses
    nothing of it. *)
Definition report_input_ok (lr : gmap Z (Z * Z)) (sr : gmap Z (Z * Z)) (k : Z) (jb : JitterBuffer)
  : Prop :=
  u32 k /\ 0 <= received (stats jb) < 2 ^ 54 /\
  (forall b, base_seq_ext (stats jb) = Some b -> b <= max_seq_ext (stats jb) < b + 2 ^ 54).
Definition reported_ok (lr : gmap Z (Z * Z)) : Prop :=
  forall k e r, lr !! k = Some (e, r) -> 0 <= e < 2 ^ 55 /\ 0 <= r.

Lemma stats_fraction_lost_ok (E : Type) s e r :
  0 <= received s < 2 ^ 54 -> 0 <= e -> 0 <= r ->
  (forall b, base_seq_ext s = Some b -> b <= max_seq_ext s < b + 2 ^ 54) ->
  exists v, stats_fraction_lost (E := E) s e r = Ok v /\ u8 v.
Proof.
  intros Hrec He Hr Hb. unfold stats_fraction_lost.
  destruct (base_seq_ext s) as [b|]; [|exists 0; split; [done | width]].
  specialize (Hb b eq_refl). change (2 ^ 54) with 18014398509481984 in *.
  set (ei := Z.max _ 0). set (li := saturating_sub ei _).
  assert (0 <= li <= ei) as Hli by (unfold li, saturating_sub; lia).
  assert (ei <= 18014398509481984) as Hei by lia.
  destruct (Z.eqb_spec ei 0); [exists 0; split; [done | width]|].
  rewrite checked_Ok by width. cbn [mbind outcome_bind].
  assert (0 <= li * 256 / ei) by (apply Z.div_pos; lia).
  eexists. split; [reflexivity|]. apply (wrap_range 8). lia.
Qed.

Lemma report_block_ok lr sr now k jb :
  report_input_ok lr sr k jb -> reported_ok lr ->
  (forall k m t, sr !! k = Some (m, t) -> u32 m) ->
  exists b lr', report_block lr sr now k jb = Ok (b, lr') /\ rb_ok b /\ rb_wire b = b /\
    rb_ssrc b = k /\ reported_ok lr'.
Proof.
  intros (Hk & Hrec & Hb) Hlr Hsr. unfold report_block.
  destruct (default (0, 0) (lr !! k)) as [e r] eqn:Hd.
  assert (0 <= e < 2 ^ 55 /\ 0 <= r) as [He Hr].
  { destruct (lr !! k) as [[e' r']|] eqn:Hl; simplify_eq/=; [by eapply Hlr | lia]. }
  destruct (stats_fraction_lost_ok unit (stats jb) e r) as (v & -> & Hv); [done|lia|done|done|].
  cbn [mbind outcome_bind].
  set (dl := match sr !! k with Some _ => _ | None => _ end).
  assert (u32 dl.1 /\ u32 dl.2) as [Hd1 Hd2].
  { subst dl. destruct (sr !! k) as [[m t]|] eqn:Hm; [|cbn; split; width].
    split; [by eapply Hsr | apply f64_to_u32_range]. }
  destruct dl as [d1 d2]. cbn in Hd1, Hd2.
  assert (uN 24 (Z.land (wrap 32 (Z.max (stats_cumulative_lost (stats jb)) 0)) 0x00FFFFFF)) as Hc.
  { change 0x00FFFFFF with (Z.ones 24). rewrite Z.land_ones by lia. apply wrap_range. lia. }
  set (cum := Z.land (wrap 32 _) _) in *.
  eexists _, _. split; [reflexivity|]. split; [|split; [|split; [done|]]].
  - constructor; cbn [rb_ssrc fraction_lost cumulative_lost extended_highest_seq jitter last_sr
      delay_since_last_sr]; try done;
      [width | apply wrap_range; lia | apply f64_to_u32_range].
  - unfold rb_wire. cbn. f_equal. change 0x00FFFFFF with (Z.ones 24).
    rewrite Z.land_ones by lia. by apply wrap_small.
  - intros k' e' r'. destruct (base_seq_ext (stats jb)) as [b|]; [|by apply Hlr].
    specialize (Hb b eq_refl).
    intros [[<- [= <- <-]] | [_ H]]%lookup_insert_Some; [|by eapply Hlr].
    change (2 ^ 54) with 18014398509481984 in *. change (2 ^ 55) with 36028797018963968. lia.
Qed.

Lemma report_blocks_ok lr sr now entries :
  Forall (fun '(k, jb) => report_input_ok lr sr k jb) entries -> reported_ok lr ->
  (forall k m t, sr !! k = Some (m, t) -> u32 m) ->
  exists bs lr', report_blocks lr sr now entries = Ok (bs, lr') /\ Forall rb_ok bs /\
    map rb_wire bs = bs /\ map rb_ssrc bs = entries.*1.
Proof.
  intros He Hlr Hsr. revert lr He Hlr. induction entries as [|[k jb] entries IH]; intros lr He Hlr.
  { exists [], lr. split; [done|]. split; [constructor|]. done. }
  cbn [report_blocks]. inv He.
  destruct (report_block_ok lr sr now k jb) as (b & lr' & -> & Hb & Hw & Hk & Hlr'); [done..|].
  cbn [mbind outcome_bind].
  destruct (IH lr') as (bs & lr'' & -> & Hbs & Hws & Hks); [done|done|].
  exists (b :: bs), lr''. split; [done|]. split; [by constructor|]. cbn. split; congruence.
Qed.

Lemma build_report_blocks_ok s now entries :
  session_ok s -> entries ≡ₚ map_to_list (inbound s) ->
  exists bs lr, build_report_blocks s now entries =
    Ok (bs, mkSession (s_ssrc s) (s_seq s) (s_timestamp s) (sent_packets s) (sent_octets s)
            (recv_packets s) (recv_octets s) (inbound s) (s_last_sr s) (s_depth s)
            (remote_last_sr_recv s) (last_send_time s) lr) /\
    Forall rb_ok bs /\ map rb_wire bs = bs /\ map rb_ssrc bs = (take 31 entries).*1.
Proof.
  intros Hs Hp. unfold build_report_blocks.
  destruct (report_blocks_ok (last_reported_per_ssrc s) (remote_last_sr_recv s) now
    (take 31 entries)) as (bs & lr & -> & H1 & H2 & H3).
  - apply Forall_take, Forall_forall. intros [k jb] Hin.
    rewrite Hp, elem_of_map_to_list in Hin. by apply (so_inbound s Hs).
  - intros k e r. apply (so_last s Hs).
  - apply (so_sr s Hs).
  - exists bs, lr. done.
Qed.

Lemma reports_wire_id (bs : list ReportBlock) l :
  map rb_ssrc bs = take 31 l -> map rb_wire bs = bs -> map rb_wire (take 31 bs) = bs.
Proof.
  intros Hl Hw. rewrite take_ge; [done|].
  rewrite <- (length_map rb_ssrc), Hl, length_take. lia.
Qed.

(** ** Properties *)

(** The voice stream. Whatever the frames, their times and the fate of
    each datagram, the datagrams decode to packets with consecutive 16-bit
    sequence numbers, timestamps 160 apart modulo 2^32, one SSRC, and the
    marker exactly on the first packet and after a pause of 30 ms or more; the
    sent-packet counter counts the datagrams the socket took. *)
Theorem send_stream_spec s fs :
  session_ok s -> Forall (fun f => bytes_ok (f_bytes f)) fs ->
  map from_bytes (send_frames s fs).1 =
    map Ok (voice_stream (s_ssrc s) (s_seq s) (s_timestamp s) 0 (last_send_time s) fs) /\
  sent_packets (send_frames s fs).2 mod 2 ^ 64 =
    (sent_packets s + Z.of_nat (length (List.filter f_sent fs))) mod 2 ^ 64.
Proof.
  intros Hs Hf. split; [|apply send_frames_counts]. destruct Hs.
  apply send_frames_stream; [done | done | by rewrite Z.add_0_r, wrap_small|].
  by rewrite Z.mul_0_r, Z.add_0_r, wrap_small.
Qed.

Lemma session_ok_new k seq ts d : u32 k -> u16 seq -> u32 ts -> session_ok (with_depth k seq ts d).
Proof. intros. constructor; cbn; [done..| | |]; intros; by simplify_map_eq. Qed.

Lemma send_stream_spec_witness :
  let s := with_depth 7 65535 4294967295 4 in
  let fs := [mkFrame [1] 0 true; mkFrame [2] (from_millis 20) false] in
  map from_bytes (send_frames s fs).1 =
  [Ok (mkRtp 0 true 65535 4294967295 7 [1]); Ok (mkRtp 0 false 0 159 7 [2])].
Proof.
  intros s fs.
  refine (proj1 (send_stream_spec s fs _ _)).
  - apply session_ok_new; width.
  - repeat constructor; cbn; lia.
Defined.

(** The sender report and the receiver report a session builds, on any
    iteration order of its sources and any clock reading, are never lost on the
    wire: serialized and sent first in a compound packet, they parse back to
    exactly the report that was built, with one block for each of the first 31
    sources. *)
Theorem session_reports_parse s wall now entries rest :
  session_ok s -> entries ≡ₚ map_to_list (inbound s) -> 0 <= as_secs wall < 2 ^ 63 ->
  exists sr rr s1 s2,
    build_sr s wall now entries = Ok (sr, s1) /\ build_rr s now entries = Ok (rr, s2) /\
    sr_from_bytes (sr_to_bytes sr ++ rest) = Ok sr /\
    rr_from_bytes (rr_to_bytes rr ++ rest) = Ok rr /\
    map rb_ssrc (sr_reports sr) = take 31 entries.*1.
Proof.
  intros Hs Hp Hw. unfold build_sr, build_rr, ntp_now.
  rewrite checked_Ok by (unfold NTP_UNIX_OFFSET; change (2 ^ 63) with 9223372036854775808 in Hw; width).
  cbn [mbind outcome_bind].
  destruct (build_report_blocks_ok s now entries Hs Hp) as (bs & lr & -> & Hb & Hwire & Hk).
  rewrite fmap_take in Hk. cbn [mbind outcome_bind].
  eexists _, _, _, _. split; [reflexivity|]. split; [reflexivity|]. cbn [s_ssrc sent_packets sent_octets].
  destruct Hs. split; [|split; [|done]].
  - rewrite sr_parse.
    + unfold sr_wire. cbn. by rewrite (reports_wire_id bs _ Hk Hwire).
    + constructor; cbn; try done; apply (wrap_range 32); lia.
  - rewrite rr_parse by done. unfold rr_wire. cbn. by rewrite (reports_wire_id bs _ Hk Hwire).
Qed.

Lemma session_reports_parse_witness :
  let s := ingest_packet (with_depth 7 1 2 4) (mkRtp 0 false 10 0 99 [1]) 0 in
  exists sr rr s1 s2,
    build_sr s (from_secs 100) 0 (map_to_list (inbound s)) = Ok (sr, s1) /\
    build_rr s 0 (map_to_list (inbound s)) = Ok (rr, s2) /\
    sr_from_bytes (sr_to_bytes sr ++ [0]) = Ok sr /\
    rr_from_bytes (rr_to_bytes rr ++ [0]) = Ok rr /\
    map rb_ssrc (sr_reports sr) = take 31 (map_to_list (inbound s)).*1.
Proof.
  intros s.
  apply (session_reports_parse s (from_secs 100) 0 (map_to_list (inbound s)) [0]).
  - constructor; cbn -[push]; [width | width | width | | |].
    + intros k jb [[<- <-] | [_ H]]%lookup_insert_Some; [|by rewrite lookup_empty in H].
      split; [width|]. split; [vm_compute; split; [discriminate | reflexivity]|].
      intros b Hb. vm_compute in Hb. injection Hb as <-. vm_compute.
      split; [discriminate | reflexivity].
    + intros k e r H. by rewrite lookup_empty in H.
    + intros k m t H. by rewrite lookup_empty in H.
  - reflexivity.
  - vm_compute. split; [discriminate | reflexivity].
Defined.

(** ** Per-source view

    The events of a session, and what they are for the jitter buffer of one
    source. *)

Inductive session_event :=
  | SeIngest (pkt : RtpPacket) (now : Z)
  | SePull (k : Z)
  | SeSend (f : frame)
  | SeRemoteSr (sr : SenderReport) (now : Z).

Definition session_step (s : RtpSession) (e : session_event) : list RtpPacket * RtpSession :=
  match e with
  | SeIngest pkt now => ([], ingest_packet s pkt now)
  | SePull k => let '(o, s) := pull_ssrc s k in (match o with Some p => [p] | None => [] end, s)
  | SeSend f => ([], (send_ulaw s (f_bytes f) (f_now f) (f_sent f)).2)
  | SeRemoteSr sr now => ([], record_remote_sr s sr now)
  end.

(** The packets pulled from source [k] along a run, and the final state. *)
Fixpoint session_run (k : Z) (s : RtpSession) (es : list session_event)
  : list RtpPacket * RtpSession :=
  match es with
  | [] => ([], s)
  | e :: es =>
      let '(out, s) := session_step s e in
      let '(outs, s) := session_run k s es in
      ((match e with SePull k' => if k' =? k then out else [] | _ => [] end) ++ outs, s)
  end.

(** The events of the jitter buffer of source [k]. *)
Definition source_events (k : Z) (es : list session_event) : list jb_event :=
  concat (map (fun e => match e with
    | SeIngest p now => if ssrc p =? k then [EvPush p now] else []
    | SePull k' => if k' =? k then [EvPull] else []
    | _ => [] end) es).

Definition source_buffer (s : RtpSession) (k : Z) : JitterBuffer :=
  default (jb_new (s_depth s)) (inbound s !! k).

Lemma pull_new d : pull (jb_new d) = (None, jb_new d).
Proof.
  unfold pull. cbn [next_pull_seq jb_new].
  assert (jb_len (jb_new d) = 0) as -> by (unfold jb_len; cbn [queue jb_new]; by rewrite map_size_empty).
  by rewrite (proj2 (Z.ltb_lt 0 _)) by (cbn; lia).
Qed.

Lemma session_step_source k s e :
  let '(out, s') := session_step s e in
  s_depth s' = s_depth s /\
  jb_run (source_buffer s k) (source_events k [e]) =
    ((match e with SePull k' => if k' =? k then out else [] | _ => [] end), source_buffer s' k).
Proof.
  destruct e as [p now | k' | f | sr now]; cbn [session_step].
  - split; [done|]. unfold source_events, source_buffer, ingest_packet. cbn.
    destruct (Z.eqb_spec (ssrc p) k) as [-> | Hne]; cbn.
    + by rewrite lookup_insert_eq.
    + by rewrite lookup_insert_ne by done.
  - unfold pull_ssrc, source_events. cbn.
    destruct (inbound s !! k') as [jb|] eqn:Hk'.
    + destruct (pull jb) as [o jb'] eqn:Hp. split; [done|]. unfold source_buffer. cbn.
      destruct (Z.eqb_spec k' k) as [-> | Hne]; cbn.
      * rewrite Hk', lookup_insert_eq. cbn. rewrite Hp. cbn. by rewrite app_nil_r.
      * by rewrite lookup_insert_ne by done.
    + split; [done|]. unfold source_buffer.
      destruct (Z.eqb_spec k' k) as [-> | Hne]; cbn; [|done].
      rewrite Hk'. cbn. by rewrite pull_new.
  - unfold send_ulaw, emit. done.
  - done.
Qed.

Lemma jb_run_app jb es1 es2 :
  jb_run jb (es1 ++ es2) =
  let '(o1, jb1) := jb_run jb es1 in let '(o2, jb2) := jb_run jb1 es2 in (o1 ++ o2, jb2).
Proof.
  revert jb. induction es1 as [|e es1 IH]; intros jb; cbn [app jb_run].
  { by destruct (jb_run jb es2). }
  destruct (jb_step jb e) as [o jb']. rewrite IH.
  destruct (jb_run jb' es1) as [o1 jb1]. destruct (jb_run jb1 es2) as [o2 jb2].
  by rewrite app_assoc.
Qed.

Lemma session_run_source k s es :
  let '(out, s') := session_run k s es in
  jb_run (source_buffer s k) (source_events k es) = (out, source_buffer s' k).
Proof.
  revert s. induction es as [|e es IH]; intros s; [done|]. cbn [session_run].
  pose proof (session_step_source k s e) as Hstep.
  destruct (session_step s e) as [o s1]. destruct Hstep as [_ Hstep].
  specialize (IH s1). destruct (session_run k s1 es) as [outs s2].
  change (e :: es) with ([e] ++ es). unfold source_events in *. rewrite map_app, concat_app.
  rewrite jb_run_app, Hstep, IH. done.
Qed.

(** The sources of a session do not interfere: on any sequence of
    received packets, pulls, sends and sender reports, what is pulled from a
    source and the buffer it ends with are those of a jitter buffer of its own
    fed with the packets of that source only. *)
Theorem session_refines_buffers k ssrc0 seq ts d es :
  let '(out, s) := session_run k (with_depth ssrc0 seq ts d) es in
  jb_run (jb_new d) (source_events k es) = (out, default (jb_new d) (inbound s !! k)).
Proof.
  pose proof (session_run_source k (with_depth ssrc0 seq ts d) es) as H.
  assert (forall s, s_depth (session_run k s es).2 = s_depth s) as Hd.
  { clear H. induction es as [|e es IH]; intros s; [done|]. cbn [session_run].
    pose proof (session_step_source k s e) as Hs. destruct (session_step s e) as [o s1].
    destruct Hs as [Hs _]. specialize (IH s1). destruct (session_run k s1 es). cbn in *. congruence. }
  specialize (Hd (with_depth ssrc0 seq ts d)).
  destruct (session_run k (with_depth ssrc0 seq ts d) es) as [out s].
  unfold source_buffer in H. cbn in *. rewrite Hd in H.
  change (default (jb_new d) (∅ !! k)) with (default (jb_new d) ((∅ : gmap Z JitterBuffer) !! k)) in H.
  by rewrite lookup_empty in H.
Qed.
