(* ===== verification/RustStr.v ===== *)
(** The operations of [str] the program uses. A [&str] is the [string] of its
    UTF-8 bytes; ASCII operations act on bytes, [trim] on the encodings of the
    characters with the White_Space property. *)
From Stdlib Require Export Strings.Ascii.
From Stdlib Require Strings.String.
From S2P Require Import Prelude.


#[global] Arguments String.append !_ _ : simpl nomatch.

(** ** Bytes of a string *)

Definition code (c : ascii) : Z := Z.of_N (Ascii.N_of_ascii c).
Definition chr (z : Z) : ascii := Ascii.ascii_of_N (Z.to_N z).

Lemma chr_code c : chr (code c) = c.
Proof. unfold chr, code. by rewrite N2Z.id, Ascii.ascii_N_embedding. Qed.

Lemma code_chr z : 0 <= z < 256 -> code (chr z) = z.
Proof.
  intros Hz. unfold chr, code. rewrite Ascii.N_ascii_embedding by lia. lia.
Qed.

Lemma code_range c : 0 <= code c < 256.
Proof. unfold code. pose proof (Ascii.N_ascii_bounded c). lia. Qed.

(** A boolean property of a byte, checked on all of them. *)
Lemma ascii_exhaust (P : ascii -> bool) :
  forall_range (fun z => P (chr z)) 256 0 = true -> forall c, P c = true.
Proof.
  intros H c. rewrite <- (chr_code c).
  apply (forall_range_spec _ 256 0 (code c) H). pose proof (code_range c). lia.
Qed.

(** The double quote. *)
Definition DQUOTE : ascii := "034".

Definition is_ascii_digit (c : ascii) : bool := (48 <=? code c) && (code c <=? 57).
Definition to_lower (c : ascii) : ascii :=
  if (65 <=? code c) && (code c <=? 90) then chr (code c + 32) else c.

Fixpoint string_map (f : ascii -> ascii) (s : string) : string :=
  match s with
  | EmptyString => EmptyString
  | String c s => String (f c) (string_map f s)
  end.

Definition to_ascii_lowercase : string -> string := string_map to_lower.
Definition eq_ignore_ascii_case (a b : string) : bool :=
  String.eqb (to_ascii_lowercase a) (to_ascii_lowercase b).

Lemma str_app_nil_r (s : string) : s +:+ "" = s.
Proof. induction s as [|c s IH]; cbn; [done | by rewrite IH]. Qed.

Lemma str_app_assoc (a b c : string) : (a +:+ b) +:+ c = a +:+ (b +:+ c).
Proof. induction a as [|x a IH]; cbn; [done | by rewrite IH]. Qed.

Lemma string_map_app f a b : string_map f (a +:+ b) = string_map f a +:+ string_map f b.
Proof. induction a as [|c a IH]; cbn; [done | by rewrite IH]. Qed.

Lemma to_lower_idemp c : to_lower (to_lower c) = to_lower c.
Proof.
  pose proof (ascii_exhaust (fun c => Ascii.eqb (to_lower (to_lower c)) (to_lower c))) as H.
  apply Ascii.eqb_eq. apply H. by vm_compute.
Qed.

Lemma to_ascii_lowercase_idemp s :
  to_ascii_lowercase (to_ascii_lowercase s) = to_ascii_lowercase s.
Proof.
  unfold to_ascii_lowercase. induction s as [|c s IH]; cbn; [done|].
  by rewrite to_lower_idemp, IH.
Qed.

(** ** Prefixes *)

(** [strip_prefix]. *)
Fixpoint strip_prefix (p s : string) : option string :=
  match p, s with
  | EmptyString, s => Some s
  | String a p, String b s => if Ascii.eqb a b then strip_prefix p s else None
  | String _ _, EmptyString => None
  end.

Definition starts_with (p s : string) : bool := bool_decide (is_Some (strip_prefix p s)).

Lemma strip_prefix_Some p s r : strip_prefix p s = Some r <-> s = p +:+ r.
Proof.
  revert s. induction p as [|a p IH]; intros s; cbn.
  - split; [by intros [= ->] | by intros ->].
  - destruct s as [|b s]; [done|]. destruct (Ascii.eqb_spec a b) as [<- | Hne].
    + rewrite IH. split; [by intros -> | by intros [= ->]].
    + split; [done | by intros [= -> _]].
Qed.

Lemma strip_prefix_app p s : strip_prefix p (p +:+ s) = Some s.
Proof. by apply strip_prefix_Some. Qed.

(** ** Scanning *)

Fixpoint take_while (p : ascii -> bool) (s : string) : string :=
  match s with
  | EmptyString => EmptyString
  | String c s => if p c then String c (take_while p s) else EmptyString
  end.

Fixpoint drop_while (p : ascii -> bool) (s : string) : string :=
  match s with
  | EmptyString => EmptyString
  | String c s' => if p c then drop_while p s' else s
  end.

Fixpoint all_chars (p : ascii -> bool) (s : string) : bool :=
  match s with
  | EmptyString => true
  | String c s => p c && all_chars p s
  end.

Lemma take_drop_while p s : take_while p s +:+ drop_while p s = s.
Proof. induction s as [|c s IH]; cbn; [done|]. destruct (p c); cbn; [by rewrite IH | done]. Qed.

Lemma take_while_all p s : all_chars p (take_while p s) = true.
Proof. induction s as [|c s IH]; cbn; [done|]. by destruct (p c) eqn:Hc; cbn; rewrite ?Hc. Qed.

Lemma take_while_app p a b :
  all_chars p a = true -> take_while p (a +:+ b) = a +:+ take_while p b.
Proof.
  induction a as [|c a IH]; cbn; [done|]. intros [-> Ha]%andb_true_iff. by rewrite IH.
Qed.

(** [split_once(c)]: around the first occurrence. *)
Fixpoint split_once (c : ascii) (s : string) : option (string * string) :=
  match s with
  | EmptyString => None
  | String d s =>
      if Ascii.eqb c d then Some (EmptyString, s)
      else '(a, b) ← split_once c s; Some (String d a, b)
  end.

(** [split(c)]. *)
Fixpoint split_on (c : ascii) (s : string) : list string :=
  match s with
  | EmptyString => [EmptyString]
  | String d s =>
      if Ascii.eqb c d then EmptyString :: split_on c s
      else match split_on c s with
           | [] => [String d EmptyString]
           | x :: l => String d x :: l
           end
  end.

Definition contains_char (c : ascii) (s : string) : bool :=
  negb (all_chars (fun d => negb (Ascii.eqb c d)) s).

Lemma split_once_Some c s a b :
  split_once c s = Some (a, b) <-> s = a +:+ String c b /\ contains_char c a = false.
Proof.
  unfold contains_char. revert a. induction s as [|d s IH]; intros a; cbn.
  - split; [done|]. intros [H _]. by destruct a.
  - destruct (Ascii.eqb_spec c d) as [<- | Hne].
    + split.
      * intros [= <- <-]. done.
      * intros [H1 H2]. destruct a as [|x a]; cbn in *; [by injection H1 as ->|].
        injection H1 as <- _. by rewrite Ascii.eqb_refl in H2.
    + destruct (split_once c s) as [[x y]|]; cbn.
      * split.
        -- intros [= <- <-]. destruct (proj1 (IH x) eq_refl) as [-> H]. cbn.
           by rewrite (proj2 (Ascii.eqb_neq c d) Hne).
        -- intros [H1 H2]. destruct a as [|z a]; cbn in *; [congruence|].
           injection H1 as <- ->. rewrite (proj2 (Ascii.eqb_neq c d) Hne) in H2.
           assert (Some (x, y) = Some (a, b)) as [= -> ->] by by apply IH. done.
      * split; [done|]. intros [H1 H2]. destruct a as [|z a]; cbn in *; [congruence|].
        injection H1 as <- ->. rewrite (proj2 (Ascii.eqb_neq c d) Hne) in H2.
        assert (None = Some (a, b)) by (by apply IH). done.
Qed.

(** ** White space *)

(** One leading White_Space character, if any: the rest. *)
Definition strip_ws (s : string) : option string :=
  match s with
  | EmptyString => None
  | String a s1 =>
      let z := code a in
      if ((9 <=? z) && (z <=? 13)) || (z =? 32) then Some s1
      else match s1 with
      | EmptyString => None
      | String b s2 =>
          let y := code b in
          if (z =? 0xC2) && ((y =? 0x85) || (y =? 0xA0)) then Some s2
          else match s2 with
          | EmptyString => None
          | String c s3 =>
              let x := code c in
              if ((z =? 0xE1) && (y =? 0x9A) && (x =? 0x80))
                 || ((z =? 0xE2) && (y =? 0x80) &&
                     (((0x80 <=? x) && (x <=? 0x8A)) || (x =? 0xA8) || (x =? 0xA9) || (x =? 0xAF)))
                 || ((z =? 0xE2) && (y =? 0x81) && (x =? 0x9F))
                 || ((z =? 0xE3) && (y =? 0x80) && (x =? 0x80))
              then Some s3 else None
          end
      end
  end.

Fixpoint trim_start_fuel (n : nat) (s : string) : string :=
  match n with
  | O => s
  | S n => match strip_ws s with Some s => trim_start_fuel n s | None => s end
  end.
(** One round per byte is enough. *)
Definition trim_start (s : string) : string := trim_start_fuel (String.length s) s.

(** ** Numbers *)

(** [parse::<uN>()]: an optional [+], at least one digit, no overflow. *)
Fixpoint parse_digits (w acc : Z) (s : string) : option Z :=
  match s with
  | EmptyString => Some acc
  | String c s =>
      if is_ascii_digit c then
        let v := acc * 10 + (code c - 48) in
        if v <? 2 ^ w then parse_digits w v s else None
      else None
  end.

Definition parse_uint (w : Z) (s : string) : option Z :=
  match s with
  | EmptyString => None
  | String c r =>
      if Ascii.eqb c "+" then
        match r with EmptyString => None | _ => parse_digits w 0 r end
      else parse_digits w 0 s
  end.

(** A number that is read is in range. *)
Lemma parse_digits_range w acc s v : uN w acc -> parse_digits w acc s = Some v -> uN w v.
Proof.
  revert acc. induction s as [|c s IH]; intros acc Hacc; cbn [parse_digits]; [by intros [= <-]|].
  destruct (is_ascii_digit c) eqn:Hc; [|done].
  destruct (Z.ltb_spec (acc * 10 + (code c - 48)) (2 ^ w)); [|done]. apply IH.
  unfold is_ascii_digit, uN in *. lia.
Qed.

Lemma parse_uint_range w s v : 0 < w -> parse_uint w s = Some v -> uN w v.
Proof.
  intros Hw. assert (uN w 0) as H0. { split; [lia|]. apply Z.pow_pos_nonneg; lia. }
  destruct s as [|c r]; cbn [parse_uint]; [done|].
  destruct (Ascii.eqb c "+"); [destruct r; [done|]|]; by apply parse_digits_range.
Qed.

(** The decimal representation ([Display] of an unsigned integer). *)
Fixpoint print_fuel (n : nat) (z : Z) : string :=
  match n with
  | O => EmptyString
  | S n =>
      (if z <? 10 then EmptyString else print_fuel n (z / 10))
        +:+ String (chr (48 + z mod 10)) EmptyString
  end.
(** 20 digits hold any [u64]. *)
Definition print_uint (z : Z) : string := print_fuel 20 z.

Lemma parse_digits_app w acc a b :
  parse_digits w acc (a +:+ b) = v ← parse_digits w acc a; parse_digits w v b.
Proof.
  revert acc. induction a as [|c a IH]; intros acc; cbn; [done|].
  destruct (is_ascii_digit c); [|done]. case_bool; [apply IH | done].
Qed.

Lemma digit_char d : 0 <= d < 10 ->
  is_ascii_digit (chr (48 + d)) = true /\ code (chr (48 + d)) = 48 + d.
Proof. intros Hd. unfold is_ascii_digit. rewrite code_chr by lia. lia. Qed.

Lemma parse_print_fuel w n z :
  0 <= z < 2 ^ w -> z < 10 ^ Z.of_nat n -> parse_digits w 0 (print_fuel n z) = Some z.
Proof.
  revert z. induction n as [|n IH]; intros z Hw Hz; cbn [print_fuel].
  { cbn in *. f_equal. lia. }
  rewrite Nat2Z.inj_succ, Z.pow_succ_r in Hz by lia.
  rewrite parse_digits_app.
  assert (parse_digits w 0 (if z <? 10 then "" else print_fuel n (z / 10)) = Some (z / 10)) as ->.
  { destruct (Z.ltb_spec z 10); cbn; [f_equal; symmetry; apply Z.div_small; lia|].
    apply IH; [|apply Z.div_lt_upper_bound; lia].
    split; [apply Z.div_pos; lia|]. apply Z.le_lt_trans with z; [|lia].
    apply Z.div_le_upper_bound; lia. }
  cbn [mbind option_bind parse_digits].
  destruct (digit_char (z mod 10)) as [-> ->]; [apply Z.mod_pos_bound; lia|].
  replace (z / 10 * 10 + (48 + z mod 10 - 48)) with z by (Z.to_euclidean_division_equations; lia).
  by rewrite (proj2 (Z.ltb_lt z _)) by lia.
Qed.

Lemma print_fuel_cons n z : exists c r, print_fuel (S n) z = String c r /\
  is_ascii_digit c = true.
Proof.
  revert z. induction n as [|n IH]; intros z.
  - cbn. exists (chr (48 + z mod 10)). case_bool; cbn;
      (eexists; split; [reflexivity|]; apply digit_char, Z.mod_pos_bound; lia).
  - change (print_fuel (S (S n)) z) with ((if z <? 10 then EmptyString else print_fuel (S n) (z / 10))
        +:+ String (chr (48 + z mod 10)) EmptyString).
    destruct (z <? 10); cbn [String.append].
    + eexists _, _. split; [reflexivity|]. apply digit_char, Z.mod_pos_bound. lia.
    + destruct (IH (z / 10)) as (c & r & -> & Hc). cbn. eauto.
Qed.

Lemma print_fuel_digits n z : all_chars is_ascii_digit (print_fuel n z) = true.
Proof.
  revert z. induction n as [|n IH]; intros z; cbn [print_fuel]; [done|].
  assert (forall a b, all_chars is_ascii_digit a = true -> all_chars is_ascii_digit b = true ->
    all_chars is_ascii_digit (a +:+ b) = true) as Happ.
  { intros a b Ha Hb. induction a as [|c a IHa]; cbn in *; [done|].
    apply andb_true_iff in Ha as [-> Ha]. by apply IHa. }
  apply Happ.
  - destruct (z <? 10); [done | apply IH].
  - cbn. by rewrite (proj1 (digit_char (z mod 10) ltac:(apply Z.mod_pos_bound; lia))).
Qed.

Lemma print_uint_digits z : all_chars is_ascii_digit (print_uint z) = true.
Proof. apply print_fuel_digits. Qed.

(** Printing then parsing gives the number back. *)
Lemma parse_print_uint w z : 0 <= w <= 64 -> uN w z -> parse_uint w (print_uint z) = Some z.
Proof.
  intros Hw Hz.
  assert (z < 10 ^ Z.of_nat 20) as H20.
  { unfold uN in Hz. assert (2 ^ w <= 2 ^ 64) by (apply Z.pow_le_mono_r; lia).
    change (10 ^ Z.of_nat 20) with 100000000000000000000.
    change (2 ^ 64) with 18446744073709551616 in *. lia. }
  unfold print_uint. destruct (print_fuel_cons 19 z) as (c & r & He & Hc).
  unfold parse_uint. rewrite He.
  assert (Ascii.eqb c "+" = false) as ->.
  { apply Ascii.eqb_neq. intros ->. done. }
  rewrite <- He. by apply parse_print_fuel.
Qed.

(** ** Trimming at both ends *)

Fixpoint rev_acc (s acc : string) : string :=
  match s with
  | EmptyString => acc
  | String c s => rev_acc s (String c acc)
  end.
Definition str_rev (s : string) : string := rev_acc s EmptyString.

(** One trailing White_Space character of the reversed string. *)
Definition strip_ws_rev (s : string) : option string :=
  match s with
  | EmptyString => None
  | String c s1 =>
      let x := code c in
      if ((9 <=? x) && (x <=? 13)) || (x =? 32) then Some s1
      else match s1 with
      | EmptyString => None
      | String b s2 =>
          let y := code b in
          if (y =? 0xC2) && ((x =? 0x85) || (x =? 0xA0)) then Some s2
          else match s2 with
          | EmptyString => None
          | String a s3 =>
              let z := code a in
              if ((z =? 0xE1) && (y =? 0x9A) && (x =? 0x80))
                 || ((z =? 0xE2) && (y =? 0x80) &&
                     (((0x80 <=? x) && (x <=? 0x8A)) || (x =? 0xA8) || (x =? 0xA9) || (x =? 0xAF)))
                 || ((z =? 0xE2) && (y =? 0x81) && (x =? 0x9F))
                 || ((z =? 0xE3) && (y =? 0x80) && (x =? 0x80))
              then Some s3 else None
          end
      end
  end.

Fixpoint trim_rev_fuel (n : nat) (s : string) : string :=
  match n with
  | O => s
  | S n => match strip_ws_rev s with Some s => trim_rev_fuel n s | None => s end
  end.
Definition trim_end (s : string) : string :=
  str_rev (trim_rev_fuel (String.length s) (str_rev s)).
Definition trim (s : string) : string := trim_end (trim_start s).

Lemma rev_acc_app s acc : rev_acc s acc = rev_acc s "" +:+ acc.
Proof.
  revert acc. induction s as [|c s IH]; intros acc; cbn; [done|].
  rewrite (IH (String c acc)), (IH (String c "")). by rewrite str_app_assoc.
Qed.

Lemma str_rev_app a b : str_rev (a +:+ b) = str_rev b +:+ str_rev a.
Proof.
  unfold str_rev. induction a as [|c a IH]; cbn; [by rewrite str_app_nil_r|].
  rewrite (rev_acc_app _ (String c "")), IH, (rev_acc_app a (String c "")).
  by rewrite str_app_assoc.
Qed.

Lemma str_rev_cons c s : str_rev (String c s) = str_rev s +:+ String c "".
Proof. apply (str_rev_app (String c "") s). Qed.

Lemma str_rev_invol s : str_rev (str_rev s) = s.
Proof.
  induction s as [|c s IH]; [done|]. rewrite str_rev_cons, str_rev_app, IH. done.
Qed.

Lemma str_length_app a b : String.length (a +:+ b) = (String.length a + String.length b)%nat.
Proof. induction a as [|c a IH]; cbn; [done | by rewrite IH]. Qed.

Lemma str_length_rev s : String.length (str_rev s) = String.length s.
Proof.
  induction s as [|c s IH]; [done|]. rewrite str_rev_cons, str_length_app, IH. cbn. lia.
Qed.

Lemma string_map_rev f s : string_map f (str_rev s) = str_rev (string_map f s).
Proof.
  induction s as [|c s IH]; [done|]. cbn [string_map].
  rewrite !str_rev_cons, string_map_app, IH. done.
Qed.

Lemma string_map_length f s : String.length (string_map f s) = String.length s.
Proof. induction s as [|c s IH]; cbn; congruence. Qed.

(** The white space tests do not see the case of letters. *)
Definition ws_same (a b : ascii) : bool :=
  Bool.eqb (((9 <=? code a) && (code a <=? 13)) || (code a =? 32))
           (((9 <=? code b) && (code b <=? 13)) || (code b =? 32)) &&
  (Ascii.eqb a b || ((65 <=? code a) && (code a <=? 90) && (97 <=? code b) && (code b <=? 122))).

Lemma lower_ws_same c : ws_same c (to_lower c) = true.
Proof. revert c. apply ascii_exhaust. by vm_compute. Qed.

Lemma lower_code c k : 128 <= k -> (code (to_lower c) =? k) = (code c =? k).
Proof.
  intros Hk. pose proof (lower_ws_same c) as H. unfold ws_same in H.
  apply andb_true_iff in H as [_ H]. apply orb_true_iff in H as [H | H].
  - apply Ascii.eqb_eq in H. by rewrite <- H.
  - lia.
Qed.

Lemma lower_code_le c k : 128 <= k -> (k <=? code (to_lower c)) = (k <=? code c) /\
  (code (to_lower c) <=? k) = (code c <=? k).
Proof.
  intros Hk. pose proof (lower_ws_same c) as H. unfold ws_same in H.
  apply andb_true_iff in H as [_ H]. apply orb_true_iff in H as [H | H].
  - apply Ascii.eqb_eq in H. by rewrite <- H.
  - lia.
Qed.

Lemma lower_ws c :
  (((9 <=? code (to_lower c)) && (code (to_lower c) <=? 13)) || (code (to_lower c) =? 32)) =
  (((9 <=? code c) && (code c <=? 13)) || (code c =? 32)).
Proof.
  pose proof (lower_ws_same c) as H. unfold ws_same in H.
  apply andb_true_iff in H as [H _]. apply Bool.eqb_prop in H. done.
Qed.

Ltac lower_codes :=
  rewrite ?lower_ws; rewrite ?lower_code by lia;
  rewrite ?(fun c => proj1 (lower_code_le c 0x80 ltac:(lia)));
  rewrite ?(fun c => proj2 (lower_code_le c 0x8A ltac:(lia))).

Lemma strip_ws_lower s :
  strip_ws (to_ascii_lowercase s) = to_ascii_lowercase <$> strip_ws s.
Proof.
  unfold to_ascii_lowercase. destruct s as [|a [|b [|c s]]]; cbn [strip_ws string_map];
    lower_codes; repeat case_match; done.
Qed.

Lemma strip_ws_rev_lower s :
  strip_ws_rev (to_ascii_lowercase s) = to_ascii_lowercase <$> strip_ws_rev s.
Proof.
  unfold to_ascii_lowercase. destruct s as [|a [|b [|c s]]]; cbn [strip_ws_rev string_map];
    lower_codes; repeat case_match; done.
Qed.

Lemma trim_lower s : trim (to_ascii_lowercase s) = to_ascii_lowercase (trim s).
Proof.
  assert (forall n s, trim_start_fuel n (to_ascii_lowercase s) =
    to_ascii_lowercase (trim_start_fuel n s)) as Hs.
  { induction n as [|n IH]; intros x; cbn [trim_start_fuel]; [done|].
    rewrite strip_ws_lower. destruct (strip_ws x); cbn; [apply IH | done]. }
  assert (forall n s, trim_rev_fuel n (to_ascii_lowercase s) =
    to_ascii_lowercase (trim_rev_fuel n s)) as He.
  { induction n as [|n IH]; intros x; cbn [trim_rev_fuel]; [done|].
    rewrite strip_ws_rev_lower. destruct (strip_ws_rev x); cbn; [apply IH | done]. }
  unfold trim, trim_end, trim_start, to_ascii_lowercase in *.
  rewrite !string_map_length, Hs, !string_map_length, <- string_map_rev, He.
  by rewrite string_map_rev.
Qed.

(** A string neither end of which is white space is its own trim. *)
Lemma strip_ws_length s r : strip_ws s = Some r -> (String.length r < String.length s)%nat.
Proof.
  destruct s as [|a [|b [|c s]]]; cbn; repeat case_match; intros [= <-]; cbn; lia.
Qed.

Lemma strip_ws_app s r t : strip_ws s = Some r -> strip_ws (s +:+ t) = Some (r +:+ t).
Proof.
  destruct s as [|a [|b [|c s]]]; cbn [strip_ws String.append]; try done;
    repeat case_match; intros [= <-]; done.
Qed.

Lemma trim_start_fuel_enough n s :
  (String.length s <= n)%nat -> strip_ws (trim_start_fuel n s) = None.
Proof.
  revert s. induction n as [|n IH]; intros s Hn; cbn [trim_start_fuel].
  { by destruct s; cbn in *; [|lia]. }
  destruct (strip_ws s) as [r|] eqn:Hs; [|done]. apply IH.
  apply strip_ws_length in Hs. lia.
Qed.

Lemma strip_ws_trim_start s : strip_ws (trim_start s) = None.
Proof. by apply trim_start_fuel_enough. Qed.

Lemma trim_start_id s : strip_ws s = None -> trim_start s = s.
Proof. intros H. unfold trim_start. destruct s; cbn [String.length trim_start_fuel]; [done|]. by rewrite H. Qed.

Lemma trim_start_space s : trim_start (String " " s) = trim_start s.
Proof.
  unfold trim_start at 1. cbn [String.length trim_start_fuel strip_ws].
  change (code " ") with 32. cbn. done.
Qed.

Lemma strip_ws_rev_length s r : strip_ws_rev s = Some r -> (String.length r < String.length s)%nat.
Proof.
  destruct s as [|a [|b [|c s]]]; cbn; repeat case_match; intros [= <-]; cbn; lia.
Qed.

Lemma strip_ws_rev_prefix s r : strip_ws_rev s = Some r -> exists p, s = p +:+ r.
Proof.
  destruct s as [|a [|b [|c s]]]; cbn; repeat case_match; intros [= <-];
    first [by exists (String a "") | by exists (String a (String b ""))
          | by exists (String a (String b (String c "")))].
Qed.

Lemma trim_rev_fuel_enough n s :
  (String.length s <= n)%nat -> strip_ws_rev (trim_rev_fuel n s) = None.
Proof.
  revert s. induction n as [|n IH]; intros s Hn; cbn [trim_rev_fuel].
  { by destruct s; cbn in *; [|lia]. }
  destruct (strip_ws_rev s) as [r|] eqn:Hs; [|done]. apply IH.
  apply strip_ws_rev_length in Hs. lia.
Qed.

Lemma trim_rev_fuel_suffix n s : exists p, s = p +:+ trim_rev_fuel n s.
Proof.
  revert s. induction n as [|n IH]; intros s; cbn [trim_rev_fuel]; [by exists ""|].
  destruct (strip_ws_rev s) as [r|] eqn:Hs; [|by exists ""].
  apply strip_ws_rev_prefix in Hs as [p ->]. destruct (IH r) as [q Hq].
  exists (p +:+ q). by rewrite str_app_assoc, <- Hq.
Qed.

Lemma trim_end_prefix s : exists t, s = trim_end s +:+ t.
Proof.
  unfold trim_end. destruct (trim_rev_fuel_suffix (String.length s) (str_rev s)) as [p Hp].
  exists (str_rev p). rewrite <- str_rev_app, <- Hp. by rewrite str_rev_invol.
Qed.

(** A trimmed string: no white space at either end. *)
Definition trimmed (s : string) : Prop := strip_ws s = None /\ strip_ws_rev (str_rev s) = None.

#[export] Instance trimmed_dec s : Decision (trimmed s).
Proof. unfold trimmed. solve_decision. Defined.

Lemma trim_id s : trimmed s -> trim s = s.
Proof.
  intros [H1 H2]. unfold trim. rewrite trim_start_id by done. unfold trim_end.
  destruct (String.length s) as [|n] eqn:Hl; cbn [trim_rev_fuel]; [by rewrite str_rev_invol|].
  by rewrite H2, str_rev_invol.
Qed.

Lemma trim_trimmed s : trimmed (trim s).
Proof.
  unfold trim. pose proof (strip_ws_trim_start s) as Hs. set (x := trim_start s) in *. clearbody x.
  split.
  - destruct (trim_end_prefix x) as [t Ht].
    destruct (strip_ws (trim_end x)) as [r|] eqn:He; [|done].
    apply (strip_ws_app _ _ t) in He. rewrite <- Ht in He. congruence.
  - unfold trim_end. rewrite str_rev_invol. apply trim_rev_fuel_enough. by rewrite str_length_rev.
Qed.

Lemma trim_idemp s : trim (trim s) = trim s.
Proof. apply trim_id, trim_trimmed. Qed.

Lemma trim_space s : trimmed s -> trim (String " " s) = s.
Proof.
  intros H. unfold trim. rewrite trim_start_space. by apply trim_id.
Qed.

(** ** Splitting on a string *)

(** Around the first occurrence of the (non-empty) pattern [p]. *)
Fixpoint split_once_str (p s : string) : option (string * string) :=
  match strip_prefix p s with
  | Some r => Some (EmptyString, r)
  | None =>
      match s with
      | EmptyString => None
      | String c s => '(a, b) ← split_once_str p s; Some (String c a, b)
      end
  end.

(** [split(p)]; the pieces are at most one more than the bytes. *)
Fixpoint split_str_fuel (n : nat) (p s : string) : list string :=
  match n with
  | O => [s]
  | S n => match split_once_str p s with
           | Some (a, b) => a :: split_str_fuel n p b
           | None => [s]
           end
  end.
Definition split_str (p s : string) : list string := split_str_fuel (String.length s) p s.

(** [rsplit_once(c)]: around the last occurrence. *)
Fixpoint rsplit_once (c : ascii) (s : string) : option (string * string) :=
  match s with
  | EmptyString => None
  | String d s =>
      match rsplit_once c s with
      | Some (a, b) => Some (String d a, b)
      | None => if Ascii.eqb c d then Some (EmptyString, s) else None
      end
  end.

(** [join(sep)]. *)
Fixpoint join (sep : string) (l : list string) : string :=
  match l with
  | [] => ""
  | [x] => x
  | x :: l => x +:+ sep +:+ join sep l
  end.

Definition no_char (c : ascii) (s : string) : bool := all_chars (fun d => negb (Ascii.eqb c d)) s.

Lemma all_chars_app p a b : all_chars p (a +:+ b) = all_chars p a && all_chars p b.
Proof. induction a as [|c a IH]; cbn; [done|]. by rewrite IH, andb_assoc. Qed.

Lemma split_once_str_step p c s :
  strip_prefix p (String c s) = None ->
  split_once_str p (String c s) = ('(a, b) ← split_once_str p s; Some (String c a, b)).
Proof. intros H. cbn [split_once_str]. by rewrite H. Qed.

(** A prefix without the first character of the pattern holds no match. *)
Lemma split_once_str_skip c p a s :
  no_char c a = true ->
  split_once_str (String c p) (a +:+ s) =
  ('(x, y) ← split_once_str (String c p) s; Some (a +:+ x, y)).
Proof.
  unfold no_char. induction a as [|d a IH]; intros Ha; cbn [String.append].
  { by destruct (split_once_str (String c p) s) as [[]|]. }
  cbn in Ha. apply andb_true_iff in Ha as [Hd Ha].
  cbn [split_once_str strip_prefix]. destruct (Ascii.eqb c d); [done|].
  rewrite IH by done. by destruct (split_once_str (String c p) s) as [[]|].
Qed.

Lemma split_once_str_hit c p a b :
  no_char c a = true ->
  split_once_str (String c p) (a +:+ String c p +:+ b) = Some (a, b).
Proof.
  intros Ha. rewrite split_once_str_skip by done.
  change (String c p +:+ b) with (String c (p +:+ b)).
  cbn [split_once_str strip_prefix]. rewrite Ascii.eqb_refl, strip_prefix_app.
  cbn. by rewrite str_app_nil_r.
Qed.

Lemma split_once_str_miss c p a : no_char c a = true -> split_once_str (String c p) a = None.
Proof.
  intros Ha. rewrite <- (str_app_nil_r a), split_once_str_skip by done. done.
Qed.

(** Splitting a join of pieces without the first character of the separator. *)
Lemma split_str_join c p l n :
  Forall (fun x => no_char c x = true) l -> l <> [] -> (length l <= S n)%nat ->
  split_str_fuel n (String c p) (join (String c p) l) = l.
Proof.
  intros Hl. revert n. induction Hl as [|x l Hx Hl IH]; intros n Hne Hn; [done|].
  destruct l as [|y l].
  { cbn [join]. destruct n; cbn [split_str_fuel]; [done|]. by rewrite split_once_str_miss. }
  destruct n as [|n]; [cbn in Hn; lia|].
  change (join (String c p) (x :: y :: l)) with (x +:+ String c p +:+ join (String c p) (y :: l)).
  cbn [split_str_fuel]. rewrite split_once_str_hit by done.
  rewrite IH; [done | done | cbn in *; lia].
Qed.

Lemma length_join_ge sep l :
  (1 <= String.length sep)%nat -> (length l <= S (String.length (join sep l)))%nat.
Proof.
  intros Hs. induction l as [|x [|y l] IH]; [cbn; lia | cbn; lia |].
  change (join sep (x :: y :: l)) with (x +:+ sep +:+ join sep (y :: l)).
  rewrite !str_length_app. cbn [length] in *. lia.
Qed.

Lemma split_str_join' c p l :
  Forall (fun x => no_char c x = true) l -> l <> [] ->
  split_str (String c p) (join (String c p) l) = l.
Proof.
  intros Hl Hne. apply split_str_join; [done | done |]. apply length_join_ge. cbn. lia.
Qed.

Lemma split_once_no_char c a b : no_char c a = true -> split_once c (a +:+ String c b) = Some (a, b).
Proof. intros Ha. apply split_once_Some. split; [done|]. unfold contains_char. unfold no_char in Ha. by rewrite Ha. Qed.

Lemma split_once_None c a : no_char c a = true -> split_once c a = None.
Proof.
  unfold no_char. induction a as [|d a IH]; cbn; [done|]. intros [Hd Ha]%andb_true_iff.
  destruct (Ascii.eqb c d); [done|]. by rewrite IH.
Qed.

(** ** Visible ASCII characters are not white space *)

Definition is_graph (c : ascii) : bool := (33 <=? code c) && (code c <=? 126).

Lemma strip_ws_graph c s : is_graph c = true -> strip_ws (String c s) = None.
Proof.
  intros H. unfold strip_ws, is_graph in *. destruct s as [|b [|d s]];
    repeat match goal with |- context [if ?b then _ else _] =>
      replace b with false by (symmetry; lia) end; done.
Qed.

Lemma strip_ws_rev_graph c s : is_graph c = true -> strip_ws_rev (String c s) = None.
Proof.
  intros H. unfold strip_ws_rev, is_graph in *. destruct s as [|b [|d s]];
    repeat match goal with |- context [if ?b then _ else _] =>
      replace b with false by (symmetry; lia) end; done.
Qed.

Lemma digit_graph c : is_ascii_digit c = true -> is_graph c = true.
Proof. unfold is_ascii_digit, is_graph. lia. Qed.

(** A string with visible ends is trimmed. *)
Lemma trimmed_graph a s b :
  is_graph a = true -> is_graph b = true -> trimmed (String a "" +:+ s +:+ String b "").
Proof.
  intros Ha Hb. split; [by apply strip_ws_graph|].
  rewrite !str_rev_app, str_app_assoc. by apply (strip_ws_rev_graph b).
Qed.

Lemma strip_ws_digit c s : is_ascii_digit c = true -> strip_ws (String c s) = None.
Proof. intros H. by apply strip_ws_graph, digit_graph. Qed.

Lemma trim_start_digit c s : is_ascii_digit c = true -> trim_start (String c s) = String c s.
Proof. intros H. unfold trim_start. cbn [String.length trim_start_fuel]. by rewrite strip_ws_digit. Qed.

Lemma strip_ws_rev_digit c s : is_ascii_digit c = true -> strip_ws_rev (String c s) = None.
Proof. intros H. by apply strip_ws_rev_graph, digit_graph. Qed.

Lemma print_uint_trimmed z : trimmed (print_uint z).
Proof.
  split; unfold print_uint.
  - destruct (print_fuel_cons 19 z) as (c & r & -> & Hc). by apply strip_ws_digit.
  - cbn [print_fuel]. rewrite str_rev_app. change (str_rev (String ?c "")) with (String c "").
    cbn [String.append]. apply strip_ws_rev_digit, digit_char, Z.mod_pos_bound. lia.
Qed.

Lemma digits_no_char c s : is_ascii_digit c = false -> all_chars is_ascii_digit s = true ->
  no_char c s = true.
Proof.
  intros Hc. unfold no_char. induction s as [|d s IH]; cbn; [done|]. intros [Hd Hs]%andb_true_iff.
  rewrite IH by done. destruct (Ascii.eqb_spec c d); [congruence | done].
Qed.

(** ** Letter case *)

(** Lower-casing does not touch a character that is not a letter. *)
Definition caseless (c : ascii) : bool :=
  negb ((65 <=? code c) && (code c <=? 90)) && negb ((97 <=? code c) && (code c <=? 122)).

Lemma to_lower_caseless c d : caseless c = true -> Ascii.eqb c (to_lower d) = Ascii.eqb c d.
Proof.
  intros Hc. unfold to_lower. destruct ((65 <=? code d) && (code d <=? 90)) eqn:Hd; [|done].
  unfold caseless in Hc.
  destruct (Ascii.eqb_spec c d) as [-> | Hne]; [lia|].
  apply Ascii.eqb_neq. intros ->. rewrite code_chr in Hc by lia. lia.
Qed.

Lemma no_char_lower c s : caseless c = true -> no_char c (to_ascii_lowercase s) = no_char c s.
Proof.
  intros Hc. unfold no_char, to_ascii_lowercase. induction s as [|d s IH]; cbn; [done|].
  by rewrite IH, to_lower_caseless.
Qed.

Lemma no_char_same_lower c s t :
  caseless c = true -> to_ascii_lowercase s = to_ascii_lowercase t -> no_char c s = no_char c t.
Proof. intros Hc H. by rewrite <- (no_char_lower c s), H, no_char_lower. Qed.

Lemma no_char_app c a b : no_char c (a +:+ b) = no_char c a && no_char c b.
Proof. apply all_chars_app. Qed.

Lemma join_split_on c s : join (String c "") (split_on c s) = s.
Proof.
  induction s as [|d s IH]; [done|]. cbn [split_on].
  assert (split_on c s <> []) as Hne.
  { clear. destruct s; cbn; [done|]. case_bool; [done|]. by destruct (split_on c s). }
  destruct (Ascii.eqb_spec c d) as [-> | Hcd].
  - destruct (split_on d s) eqn:Hs; [done|]. cbn [join] in *. by rewrite IH.
  - destruct (split_on c s) as [|x l] eqn:Hs; [done|].
    destruct l as [|y l]; cbn [join] in *; [by rewrite IH|].
    change (String d x +:+ ?r) with (String d (x +:+ r)). by rewrite IH.
Qed.

#[global] Arguments trim : simpl never.
#[global] Arguments trim_start : simpl never.
#[global] Arguments trim_end : simpl never.
#[global] Arguments to_ascii_lowercase : simpl never.
#[global] Arguments print_uint : simpl never.
#[global] Arguments split_str : simpl never.

(** ** Words *)

(** The bytes up to the next white space, and the rest. *)
Fixpoint word (s : string) : string * string :=
  match s with
  | EmptyString => (EmptyString, EmptyString)
  | String c r =>
      match strip_ws s with
      | Some _ => (EmptyString, s)
      | None => let '(w, t) := word r in (String c w, t)
      end
  end.

(** [split_whitespace]; a word per byte at most. *)
Fixpoint words_fuel (n : nat) (s : string) : list string :=
  match n with
  | O => []
  | S n =>
      match trim_start s with
      | EmptyString => []
      | s => let '(w, t) := word s in w :: words_fuel n t
      end
  end.
Definition split_whitespace (s : string) : list string := words_fuel (String.length s) s.

(** [trim_matches(c)]. *)
Definition trim_char (c : ascii) (s : string) : string :=
  str_rev (drop_while (Ascii.eqb c) (str_rev (drop_while (Ascii.eqb c) s))).

(** [contains(p)]. *)
Definition contains_str (p s : string) : bool :=
  match split_once_str p s with Some _ => true | None => false end.

(** The pieces of [split] hold no separator. *)
Lemma split_on_pieces c s : Forall (fun x => no_char c x = true) (split_on c s).
Proof.
  unfold no_char. induction s as [|d s IH]; cbn; [by repeat constructor|].
  destruct (Ascii.eqb c d) eqn:Hcd; [by constructor|].
  destruct (split_on c s) as [|x l]; constructor; cbn; rewrite ?Hcd; [done|done| |];
    inversion IH; subst; [by cbn | done].
Qed.

Lemma split_on_no_char c x : no_char c x = true -> split_on c x = [x].
Proof.
  unfold no_char. induction x as [|d x IH]; cbn; [done|]. intros [Hd Hx]%andb_true_iff.
  destruct (Ascii.eqb c d); [done|]. by rewrite IH.
Qed.

Lemma split_on_app c x s : no_char c x = true -> split_on c (x +:+ String c s) = x :: split_on c s.
Proof.
  unfold no_char. induction x as [|d x IH]; cbn.
  - by rewrite Ascii.eqb_refl.
  - intros [Hd Hx]%andb_true_iff. destruct (Ascii.eqb c d); [done|]. by rewrite IH.
Qed.

Lemma rsplit_once_None c s : no_char c s = true -> rsplit_once c s = None.
Proof.
  induction s as [|d s IH]; [done|]. unfold no_char in *. cbn [all_chars rsplit_once].
  intros [H1 H2]%andb_true_iff. rewrite IH by done. apply negb_true_iff in H1. by rewrite H1.
Qed.

Lemma rsplit_once_last c a b :
  no_char c b = true -> rsplit_once c (a +:+ String c b) = Some (a, b).
Proof.
  intros Hb. induction a as [|d a IH]; cbn [String.append rsplit_once].
  - by rewrite rsplit_once_None, Ascii.eqb_refl.
  - by rewrite IH.
Qed.

Lemma split_on_join c l :
  Forall (fun x => no_char c x = true) l -> l <> [] -> split_on c (join (String c "") l) = l.
Proof.
  induction 1 as [|x l Hx Hl IH]; intros Hne; [done|]. destruct l as [|y l].
  - by apply split_on_no_char.
  - change (join (String c "") (x :: y :: l)) with (x +:+ String c (join (String c "") (y :: l))).
    rewrite split_on_app by done. by rewrite IH.
Qed.

(** Trimming drops characters only. *)
Lemma all_chars_rev p s : all_chars p (str_rev s) = all_chars p s.
Proof.
  induction s as [|c s IH]; [done|]. rewrite str_rev_cons, all_chars_app, IH. cbn.
  by rewrite andb_true_r, andb_comm.
Qed.

Lemma trim_start_suffix s : exists t, s = t +:+ trim_start s.
Proof.
  unfold trim_start. generalize (String.length s) as n. intros n. revert s.
  induction n as [|n IH]; intros s; cbn [trim_start_fuel]; [by exists ""|].
  destruct (strip_ws s) as [r|] eqn:Hs; [|by exists ""].
  destruct (IH r) as [t Ht].
  assert (exists p, s = p +:+ r) as [p ->].
  { clear -Hs. destruct s as [|a [|b [|c s]]]; cbn in Hs; repeat case_match; simplify_eq;
      first [by exists (String a "") | by exists (String a (String b ""))
            | by exists (String a (String b (String c "")))]. }
  exists (p +:+ t). by rewrite str_app_assoc, <- Ht.
Qed.

Lemma all_chars_trim p s : all_chars p s = true -> all_chars p (trim s) = true.
Proof.
  intros H. unfold trim. destruct (trim_start_suffix s) as [t Ht]. rewrite Ht in H.
  rewrite all_chars_app in H. apply andb_true_iff in H as [_ H].
  destruct (trim_end_prefix (trim_start s)) as [u Hu]. rewrite Hu in H.
  rewrite all_chars_app in H. by apply andb_true_iff in H as [H _].
Qed.

(** [trim_end_matches(c)]. *)
Definition trim_end_char (c : ascii) (s : string) : string :=
  str_rev (drop_while (Ascii.eqb c) (str_rev s)).

Lemma drop_while_idemp p s : drop_while p (drop_while p s) = drop_while p s.
Proof. induction s as [|c s IH]; cbn; [done|]. destruct (p c) eqn:Hc; cbn; [done | by rewrite Hc]. Qed.

Lemma trim_end_char_idemp c s : trim_end_char c (trim_end_char c s) = trim_end_char c s.
Proof. unfold trim_end_char. by rewrite str_rev_invol, drop_while_idemp. Qed.

Lemma trim_end_char_app c a s :
  trim_end_char c s = s -> s <> "" -> trim_end_char c (a +:+ s) = a +:+ s.
Proof.
  unfold trim_end_char. intros H Hne. rewrite str_rev_app.
  destruct (str_rev s) as [|d r] eqn:Hr; [by rewrite <- (str_rev_invol s), Hr in Hne|].
  cbn [drop_while String.append] in *. destruct (Ascii.eqb c d) eqn:Hc.
  - exfalso. apply (f_equal String.length) in H.
    assert (String.length (drop_while (Ascii.eqb c) r) <= String.length r)%nat as Hd.
    { clear. induction r as [|e r IH]; cbn; [lia|]. destruct (Ascii.eqb c e); cbn; lia. }
    rewrite str_length_rev in H. rewrite <- (str_length_rev s), Hr in H. cbn in H. lia.
  - change (String d (r +:+ str_rev a)) with (String d r +:+ str_rev a).
    by rewrite <- Hr, <- str_rev_app, str_rev_invol.
Qed.

Lemma trim_end_char_end c a d : Ascii.eqb c d = false ->
  trim_end_char c (a +:+ String d "") = a +:+ String d "".
Proof.
  intros H. apply trim_end_char_app; [|done]. unfold trim_end_char, str_rev. cbn. by rewrite H.
Qed.

Lemma trim_end_char_drop c s : trim_end_char c (s +:+ String c "") = trim_end_char c s.
Proof. unfold trim_end_char. rewrite str_rev_app. cbn. by rewrite Ascii.eqb_refl. Qed.

Lemma all_chars_drop_while p q s : all_chars p s = true -> all_chars p (drop_while q s) = true.
Proof.
  induction s as [|c s IH]; [done|]. cbn [all_chars drop_while]. intros H.
  destruct (q c); [|done]. apply andb_true_iff in H as [_ H]. by apply IH.
Qed.

Lemma all_chars_trim_end_char p c s :
  all_chars p s = true -> all_chars p (trim_end_char c s) = true.
Proof.
  intros H. unfold trim_end_char. rewrite all_chars_rev. apply all_chars_drop_while.
  by rewrite all_chars_rev.
Qed.

(** ** Words *)

(** A non-empty string without white space. *)
Definition is_word (s : string) : bool :=
  negb (String.eqb s "") && String.eqb (word s).2 "".

Lemma strip_ws_word_app c s t :
  strip_ws (String c s) = None -> strip_ws (String c s +:+ String " " t) = None.
Proof.
  destruct s as [|b [|d s]]; cbn [strip_ws String.append]; change (code " ") with 32;
    repeat case_match; try done; intros _; exfalso; lia.
Qed.

Lemma word_app s t :
  (word s).2 = "" -> word (s +:+ String " " t) = (s, String " " t).
Proof.
  induction s as [|c s IH]; [done|]. intros H.
  change (word (String c s)) with (match strip_ws (String c s) with
    Some _ => (EmptyString, String c s) | None => let '(w, t) := word s in (String c w, t) end) in H.
  change (word (String c s +:+ String " " t)) with
    (match strip_ws (String c s +:+ String " " t) with
     | Some _ => (EmptyString, String c s +:+ String " " t)
     | None => let '(w, t) := word (s +:+ String " " t) in (String c w, t) end).
  destruct (strip_ws (String c s)) eqn:Hs; [done|]. rewrite strip_ws_word_app by done.
  destruct (word s) as [w u]. cbn in H. by rewrite IH.
Qed.

Lemma word_all s : (word s).2 = "" -> word s = (s, "").
Proof.
  induction s as [|c s IH]; [done|]. cbn [word]. destruct (strip_ws (String c s)); [done|].
  destruct (word s) as [w u]. cbn. intros ->. by injection (IH eq_refl) as ->.
Qed.

Lemma word_concat s : (word s).1 +:+ (word s).2 = s.
Proof.
  induction s as [|c s IH]; [done|]. cbn [word]. destruct (strip_ws (String c s)); [done|].
  destruct (word s) as [w u]. cbn in *. by rewrite IH.
Qed.

Lemma is_word_spec s : is_word s = true -> s <> "" /\ (word s).2 = "" /\ strip_ws s = None.
Proof.
  unfold is_word. intros [H1%negb_true_iff H2%String.eqb_eq]%andb_true_iff.
  apply String.eqb_neq in H1. split_and!; try done.
  destruct s as [|c s]; [done|]. cbn [word] in H2. by destruct (strip_ws (String c s)).
Qed.

Lemma word_rest_length s : strip_ws s = None -> s <> "" ->
  (String.length (word s).2 < String.length s)%nat.
Proof.
  destruct s as [|c s]; [done|]. intros Hs _. cbn [word]. rewrite Hs.
  pose proof (f_equal String.length (word_concat s)) as H. rewrite str_length_app in H.
  destruct (word s). cbn in *. lia.
Qed.

Lemma trim_start_length s : (String.length (trim_start s) <= String.length s)%nat.
Proof.
  destruct (trim_start_suffix s) as [t Ht]. apply (f_equal String.length) in Ht.
  rewrite str_length_app in Ht. lia.
Qed.

Lemma words_fuel_step n s : words_fuel (S n) s =
  if String.eqb (trim_start s) "" then []
  else (word (trim_start s)).1 :: words_fuel n (word (trim_start s)).2.
Proof.
  cbn [words_fuel]. destruct (trim_start s) as [|c r]; [done|].
  rewrite (proj2 (String.eqb_neq _ "")) by done. by destruct (word (String c r)).
Qed.

Lemma words_fuel_more n m s :
  (String.length s <= n)%nat -> (String.length s <= m)%nat -> words_fuel n s = words_fuel m s.
Proof.
  revert m s. induction n as [|n IH]; intros [|m] s Hn Hm.
  - done.
  - destruct s; [done | cbn in Hn; lia].
  - destruct s; [done | cbn in Hm; lia].
  - rewrite !words_fuel_step. destruct (String.eqb_spec (trim_start s) "") as [|H]; [done|].
    f_equal. pose proof (trim_start_length s) as Hl.
    pose proof (word_rest_length (trim_start s) (strip_ws_trim_start s) H) as Hw.
    apply IH; lia.
Qed.

Lemma split_whitespace_cons w s :
  is_word w = true -> split_whitespace (w +:+ String " " s) = w :: split_whitespace s.
Proof.
  intros (Hne & Hw & Hs)%is_word_spec. unfold split_whitespace at 1.
  destruct w as [|c w]; [done|]. cbn [String.length String.append].
  rewrite words_fuel_step.
  change (String c (w +:+ String " " s)) with (String c w +:+ String " " s).
  rewrite trim_start_id by by apply strip_ws_word_app.
  rewrite word_app by done. cbn [String.append String.eqb fst snd].
  f_equal. rewrite (words_fuel_more _ (S (String.length s))).
  - rewrite words_fuel_step, trim_start_space, <- words_fuel_step.
    apply words_fuel_more; lia.
  - rewrite str_length_app. cbn. lia.
  - cbn. lia.
Qed.

Lemma split_whitespace_word w : is_word w = true -> split_whitespace w = [w].
Proof.
  intros (Hne & Hw & Hs)%is_word_spec. unfold split_whitespace.
  destruct w as [|c w]; [done|]. cbn [String.length]. rewrite words_fuel_step.
  rewrite trim_start_id by done. rewrite (proj2 (String.eqb_neq _ "")) by done.
  rewrite (word_all (String c w)) by done. cbn [fst snd].
  destruct (String.length w); done.
Qed.

(** The words of words joined by a space. *)
Lemma split_whitespace_join l :
  Forall (fun w => is_word w = true) l -> split_whitespace (join " " l) = l.
Proof.
  induction 1 as [|w l Hw Hl IH]; [done|]. destruct l as [|v l].
  - by apply split_whitespace_word.
  - change (join " " (w :: v :: l)) with (w +:+ String " " (join " " (v :: l))).
    by rewrite split_whitespace_cons, IH.
Qed.

(** The pieces of [split_whitespace] are words. *)
Lemma word_is_word s : strip_ws s = None -> s <> "" -> is_word (word s).1 = true.
Proof.
  intros Hs Hne. unfold is_word. apply andb_true_iff. split.
  - destruct s as [|c s]; [done|]. cbn [word]. rewrite Hs. by destruct (word s).
  - apply String.eqb_eq. clear Hs Hne.
    induction s as [|c s IH]; [done|]. cbn [word]. destruct (strip_ws (String c s)) eqn:Hs; [done|].
    destruct (word s) as [w t] eqn:Hw. cbn [fst] in *. cbn [word].
    pose proof (word_concat s) as Hc. rewrite Hw in Hc. cbn in Hc.
    destruct (strip_ws (String c w)) as [r|] eqn:Hr.
    + apply (strip_ws_app _ _ t) in Hr.
      change (String c w +:+ t) with (String c (w +:+ t)) in Hr. rewrite Hc in Hr. congruence.
    + destruct (word w) as [x y]. cbn in *. done.
Qed.

Lemma split_whitespace_words s : Forall (fun w => is_word w = true) (split_whitespace s).
Proof.
  unfold split_whitespace. generalize (String.length s) as n. intros n. revert s.
  induction n as [|n IH]; intros s; [constructor|]. rewrite words_fuel_step.
  destruct (String.eqb_spec (trim_start s) ""); constructor; [|apply IH].
  by apply word_is_word; [apply strip_ws_trim_start|].
Qed.

(** Visible ASCII characters make a word. *)
Lemma graph_word s : s <> "" -> all_chars is_graph s = true -> is_word s = true.
Proof.
  intros Hne Hs. unfold is_word. rewrite (proj2 (String.eqb_neq s "") Hne). cbn.
  apply String.eqb_eq. clear Hne. induction s as [|c s IH]; [done|]. cbn [all_chars] in Hs.
  apply andb_true_iff in Hs as [Hc Hs]. cbn [word]. rewrite strip_ws_graph by done.
  specialize (IH Hs). by destruct (word s).
Qed.

(** A white space byte is not in a word. *)
Lemma word_no_char c s : ((9 <=? code c) && (code c <=? 13)) || (code c =? 32) = true ->
  is_word s = true -> no_char c s = true.
Proof.
  intros Hc (_ & Hw & _)%is_word_spec. unfold no_char. induction s as [|d s IH]; [done|].
  cbn [word] in Hw. destruct (strip_ws (String d s)) eqn:Hs; [done|]. cbn [all_chars].
  destruct (word s) as [w t]. rewrite IH by done.
  destruct (Ascii.eqb_spec c d) as [<- | _]; [|done].
  exfalso. unfold strip_ws in Hs. by rewrite Hc in Hs.
Qed.

#[global] Arguments split_whitespace : simpl never.

Lemma split_once_None_inv c s : split_once c s = None -> no_char c s = true.
Proof.
  unfold no_char. induction s as [|d s IH]; cbn; [done|]. destruct (Ascii.eqb c d); [done|].
  destruct (split_once c s) as [[]|]; [done|]. by intros; apply IH.
Qed.
