(* ===== verification/Utf8.v ===== *)
(** UTF-8: well-formed byte sequences, and [String::from_utf8_lossy], which
    replaces each maximal ill-formed part by U+FFFD. *)
From S2P Require Import Prelude RustStr.

Definition in_range (lo hi : Z) (c : ascii) : bool := (lo <=? code c) && (code c <=? hi).
Definition is_cont (c : ascii) : bool := in_range 0x80 0xBF c.

(** The range of the second byte after the first byte of a 3- or 4-byte
    sequence. *)
Definition second3 (a b : ascii) : bool :=
  if code a =? 0xE0 then in_range 0xA0 0xBF b
  else if code a =? 0xED then in_range 0x80 0x9F b
  else is_cont b.
Definition second4 (a b : ascii) : bool :=
  if code a =? 0xF0 then in_range 0x90 0xBF b
  else if code a =? 0xF4 then in_range 0x80 0x8F b
  else is_cont b.

(** The first character of a non-empty string: whether it is well formed, and
    how many bytes it (or the ill-formed part) has. *)
Definition utf8_head (s : string) : bool * nat :=
  match s with
  | EmptyString => (true, 0%nat)
  | String a s =>
      if code a <? 0x80 then (true, 1%nat)
      else if in_range 0xC2 0xDF a then
        match s with
        | String b _ => if is_cont b then (true, 2%nat) else (false, 1%nat)
        | EmptyString => (false, 1%nat)
        end
      else if in_range 0xE0 0xEF a then
        match s with
        | String b s =>
            if second3 a b then
              match s with
              | String c _ => if is_cont c then (true, 3%nat) else (false, 2%nat)
              | EmptyString => (false, 2%nat)
              end
            else (false, 1%nat)
        | EmptyString => (false, 1%nat)
        end
      else if in_range 0xF0 0xF4 a then
        match s with
        | String b s =>
            if second4 a b then
              match s with
              | String c s =>
                  if is_cont c then
                    match s with
                    | String d _ => if is_cont d then (true, 4%nat) else (false, 3%nat)
                    | EmptyString => (false, 3%nat)
                    end
                  else (false, 2%nat)
              | EmptyString => (false, 2%nat)
              end
            else (false, 1%nat)
        | EmptyString => (false, 1%nat)
        end
      else (false, 1%nat)
  end.

Fixpoint str_take (n : nat) (s : string) : string :=
  match n, s with
  | S n, String c s => String c (str_take n s)
  | _, _ => EmptyString
  end.
Fixpoint str_drop (n : nat) (s : string) : string :=
  match n, s with
  | S n, String _ s => str_drop n s
  | _, s => s
  end.

(** U+FFFD. *)
Definition replacement : string :=
  String (chr 0xEF) (String (chr 0xBF) (String (chr 0xBD) EmptyString)).

Fixpoint lossy_fuel (n : nat) (s : string) : string :=
  match n, s with
  | S n, String _ _ =>
      let '(ok, k) := utf8_head s in
      (if ok then str_take k s else replacement) +:+ lossy_fuel n (str_drop k s)
  | _, _ => EmptyString
  end.
(** A character per byte at most. *)
Definition from_utf8_lossy (s : string) : string := lossy_fuel (String.length s) s.

(** [std::str::from_utf8(..).is_ok()]. *)
Fixpoint valid_fuel (n : nat) (s : string) : bool :=
  match n, s with
  | S n, String _ _ =>
      let '(ok, k) := utf8_head s in ok && valid_fuel n (str_drop k s)
  | _, _ => true
  end.
Definition is_utf8 (s : string) : bool := valid_fuel (String.length s) s.

(** ** Lemmas *)

Lemma str_take_drop n s : str_take n s +:+ str_drop n s = s.
Proof.
  revert s. induction n as [|n IH]; intros [|c s]; cbn; try done. by rewrite IH.
Qed.

Lemma utf8_head_bounds c s :
  let '(ok, k) := utf8_head (String c s) in (1 <= k <= String.length (String c s))%nat.
Proof.
  unfold utf8_head. destruct s as [|b [|d [|e s]]]; repeat case_match; simplify_eq/=; lia.
Qed.

Lemma length_str_drop n s : String.length (str_drop n s) = (String.length s - n)%nat.
Proof. revert s. induction n as [|n IH]; intros [|c s]; cbn; done. Qed.

Lemma lossy_fuel_valid n s :
  (String.length s <= n)%nat -> valid_fuel n s = true -> lossy_fuel n s = s.
Proof.
  revert s. induction n as [|n IH]; intros [|c s] Hn Hv; cbn in *; try done; [lia|].
  pose proof (utf8_head_bounds c s) as Hb. unfold utf8_head in Hb.
  destruct (utf8_head (String c s)) as [ok k] eqn:Hh. unfold utf8_head in Hh. rewrite Hh in *.
  apply andb_true_iff in Hv as [-> Hv].
  rewrite IH; [apply str_take_drop | | done]. rewrite length_str_drop. cbn. lia.
Qed.

(** Well-formed text is left as it is. *)
Lemma from_utf8_lossy_id s : is_utf8 s = true -> from_utf8_lossy s = s.
Proof. intros H. by apply lossy_fuel_valid. Qed.

Lemma valid_fuel_more n m s :
  (String.length s <= n)%nat -> (String.length s <= m)%nat -> valid_fuel n s = valid_fuel m s.
Proof.
  revert m s. induction n as [|n IH]; intros [|m] [|c s] Hn Hm; cbn in Hn, Hm; try done; try lia.
  cbn [valid_fuel]. pose proof (utf8_head_bounds c s) as Hb.
  destruct (utf8_head (String c s)) as [ok k]. cbn in Hb. f_equal.
  apply IH; rewrite length_str_drop; cbn; lia.
Qed.

Lemma utf8_head_app a s t k :
  utf8_head (String a s) = (true, k) -> utf8_head (String a s +:+ t) = (true, k).
Proof.
  unfold utf8_head. cbn. destruct s as [|b [|d [|e s]]]; cbn; repeat case_match; done.
Qed.

Lemma str_drop_app n a b : (n <= String.length a)%nat -> str_drop n (a +:+ b) = str_drop n a +:+ b.
Proof.
  revert a. induction n as [|n IH]; intros [|c a] Hn; cbn in *; try done; [lia|]. apply IH. lia.
Qed.

Lemma is_utf8_app a b : is_utf8 a = true -> is_utf8 b = true -> is_utf8 (a +:+ b) = true.
Proof.
  unfold is_utf8. intros Ha Hb. rewrite str_length_app.
  set (n := String.length a) in *. assert (String.length a <= n)%nat as Hn by done. clearbody n.
  revert a Ha Hn. induction n as [|n IH]; intros [|c a] Ha Hn; cbn in Hn.
  - cbn [String.append Nat.add]. done.
  - lia.
  - cbn [String.append]. rewrite (valid_fuel_more _ (String.length b)) by lia. done.
  - cbn [valid_fuel Nat.add] in *. pose proof (utf8_head_bounds c a) as Hbd.
    destruct (utf8_head (String c a)) as [ok k] eqn:Hh.
    apply andb_true_iff in Ha as [-> Ha].
    change (String c a +:+ b) with (String c (a +:+ b)) at 1. cbn iota.
    rewrite (utf8_head_app c a b k Hh). cbn [andb].
    rewrite str_drop_app by lia. apply IH; [done|]. rewrite length_str_drop. cbn. lia.
Qed.

Definition is_ascii_str (s : string) : bool := all_chars (fun c => code c <? 0x80) s.

Lemma ascii_utf8 s : is_ascii_str s = true -> is_utf8 s = true.
Proof.
  unfold is_utf8, is_ascii_str. induction s as [|c s IH]; cbn; [done|].
  intros [Hc Hs]%andb_true_iff. rewrite Hc. cbn. by apply IH.
Qed.

Lemma digits_utf8 s : all_chars is_ascii_digit s = true -> is_utf8 s = true.
Proof.
  intros H. apply ascii_utf8. unfold is_ascii_str. induction s as [|c s IH]; cbn in *; [done|].
  apply andb_true_iff in H as [Hd H]. rewrite IH by done. unfold is_ascii_digit in Hd. lia.
Qed.

(** The case of letters does not matter to well-formedness. *)
Lemma in_range_lower lo hi c :
  128 <= lo -> 128 <= hi -> in_range lo hi (to_lower c) = in_range lo hi c.
Proof.
  intros Hlo Hhi. unfold in_range.
  by rewrite (proj1 (lower_code_le c lo Hlo)), (proj2 (lower_code_le c hi Hhi)).
Qed.

Lemma code_lt_lower c : (code (to_lower c) <? 128) = (code c <? 128).
Proof.
  destruct (lower_code_le c 128 ltac:(lia)) as [H _].
  destruct (Z.leb_spec 128 (code c)), (Z.leb_spec 128 (code (to_lower c))); try done; lia.
Qed.

Lemma utf8_head_lower s : utf8_head (to_ascii_lowercase s) = utf8_head s.
Proof.
  unfold to_ascii_lowercase, utf8_head, second3, second4, is_cont.
  destruct s as [|a [|b [|c [|d s]]]]; cbn [string_map];
    rewrite ?code_lt_lower, ?lower_code, ?in_range_lower by lia; done.
Qed.

Lemma str_drop_lower n s :
  str_drop n (to_ascii_lowercase s) = to_ascii_lowercase (str_drop n s).
Proof.
  unfold to_ascii_lowercase. revert s. induction n as [|n IH]; intros [|c s]; cbn; try done.
Qed.

Lemma is_utf8_lower s : is_utf8 (to_ascii_lowercase s) = is_utf8 s.
Proof.
  unfold is_utf8. unfold to_ascii_lowercase at 1. rewrite string_map_length.
  generalize (String.length s) as n. intros n. revert s.
  induction n as [|n IH]; intros [|c s]; cbn [valid_fuel]; try done.
  change (valid_fuel (S n) (to_ascii_lowercase (String c s))) with
    (let '(ok, k) := utf8_head (to_ascii_lowercase (String c s)) in
     ok && valid_fuel n (str_drop k (to_ascii_lowercase (String c s)))).
  rewrite utf8_head_lower. destruct (utf8_head (String c s)) as [ok k].
  by rewrite str_drop_lower, IH.
Qed.

Lemma is_utf8_same_lower s t :
  to_ascii_lowercase s = to_ascii_lowercase t -> is_utf8 s = is_utf8 t.
Proof. intros H. by rewrite <- (is_utf8_lower s), H, is_utf8_lower. Qed.

Lemma is_utf8_join sep l :
  is_utf8 sep = true -> Forall (fun x => is_utf8 x = true) l -> is_utf8 (join sep l) = true.
Proof.
  intros Hs. induction 1 as [|x l Hx Hl IH]; [done|]. destruct l as [|y l]; [done|].
  change (join sep (x :: y :: l)) with (x +:+ sep +:+ join sep (y :: l)).
  by repeat apply is_utf8_app.
Qed.

(** ** Splitting well-formed text at a character boundary *)

(** [is_char_boundary]: the end, or not a continuation byte. *)
Definition boundary (s : string) : bool :=
  match s with EmptyString => true | String c _ => negb (is_cont c) end.

Lemma ascii_not_cont c : (code c <? 0x80) = true -> is_cont c = false.
Proof. unfold is_cont, in_range. lia. Qed.

Lemma second3_cont a b : second3 a b = true -> is_cont b = true.
Proof. unfold second3, is_cont, in_range. intros H. repeat case_match; lia. Qed.

Lemma second4_cont a b : second4 a b = true -> is_cont b = true.
Proof. unfold second4, is_cont, in_range. intros H. repeat case_match; lia. Qed.

(** A character that starts in the first part ends there. *)
Lemma utf8_head_cut a s t k : boundary t = true ->
  utf8_head (String a s +:+ t) = (true, k) -> utf8_head (String a s) = (true, k).
Proof.
  intros Ht H. destruct t as [|z t]; [by rewrite str_app_nil_r in H|].
  cbn in Ht. apply negb_true_iff in Ht.
  revert H. unfold utf8_head. destruct s as [|b [|d [|e s]]]; cbn [String.append];
    repeat case_match; try congruence;
    repeat match goal with
      | H : second3 _ _ = true |- _ => apply second3_cont in H
      | H : second4 _ _ = true |- _ => apply second4_cont in H
      end; congruence.
Qed.

Lemma valid_cut n a b : boundary b = true -> (String.length (a +:+ b) <= n)%nat ->
  valid_fuel n (a +:+ b) = true -> valid_fuel n a = true /\ valid_fuel n b = true.
Proof.
  intros Hb. revert a. induction n as [|n IH]; intros a Hn Hv; [done|].
  destruct a as [|c a]; [done|].
  change (valid_fuel (S n) (String c a +:+ b)) with
    (let '(ok, k) := utf8_head (String c a +:+ b) in
     ok && valid_fuel n (str_drop k (String c a +:+ b))) in Hv.
  destruct (utf8_head (String c a +:+ b)) as [ok k] eqn:Hh.
  apply andb_true_iff in Hv as [-> Hv]. apply utf8_head_cut in Hh; [|done].
  pose proof (utf8_head_bounds c a) as Hk. rewrite Hh in Hk.
  rewrite str_drop_app in Hv by lia.
  apply IH in Hv as [Hv1 Hv2].
  - split.
    + change (valid_fuel (S n) (String c a)) with
        (let '(ok, k) := utf8_head (String c a) in ok && valid_fuel n (str_drop k (String c a))).
      by rewrite Hh.
    + rewrite <- Hv2. rewrite str_length_app in Hn. cbn in Hn.
      apply valid_fuel_more; lia.
  - rewrite str_length_app, length_str_drop. rewrite str_length_app in Hn. cbn in *. lia.
Qed.

Lemma is_utf8_cut a b : boundary b = true -> is_utf8 (a +:+ b) = true ->
  is_utf8 a = true /\ is_utf8 b = true.
Proof.
  intros Hb H. unfold is_utf8 in *. apply valid_cut in H as [H1 H2]; [|done|done].
  rewrite str_length_app in *. split; [rewrite <- H1 | rewrite <- H2]; apply valid_fuel_more; lia.
Qed.

(** Around an ASCII character. *)
Lemma is_utf8_around a c b : (code c <? 0x80) = true -> is_utf8 (a +:+ String c b) = true ->
  is_utf8 a = true /\ is_utf8 b = true.
Proof.
  intros Hc H. apply is_utf8_cut in H as [Ha H].
  - split; [done|]. unfold is_utf8 in *. cbn [String.length valid_fuel utf8_head] in H.
    by rewrite Hc in H.
  - cbn. by rewrite ascii_not_cont.
Qed.

Lemma is_utf8_boundary s : is_utf8 s = true -> boundary s = true.
Proof.
  destruct s as [|c s]; [done|]. unfold is_utf8. cbn [String.length valid_fuel boundary].
  destruct (utf8_head (String c s)) as [ok k] eqn:Hh. intros [-> _]%andb_true_iff.
  destruct (is_cont c) eqn:Hc; [|done]. exfalso. revert Hh.
  unfold utf8_head. unfold is_cont, in_range in *. clear -Hc.
  replace (code c <? 0x80) with false by lia.
  replace ((0xC2 <=? code c) && (code c <=? 0xDF)) with false by lia.
  replace ((0xE0 <=? code c) && (code c <=? 0xEF)) with false by lia.
  replace ((0xF0 <=? code c) && (code c <=? 0xF4)) with false by lia. done.
Qed.

Lemma split_on_utf8 c s : (code c <? 0x80) = true -> is_utf8 s = true ->
  Forall (fun x => is_utf8 x = true) (split_on c s).
Proof.
  intros Hc. rewrite <- (join_split_on c s) at 1.
  generalize (split_on c s) as l. clear s. intros l.
  induction l as [|x l IH]; [constructor|]. intros H. destruct l as [|y l].
  - by constructor.
  - change (join (String c "") (x :: y :: l)) with (x +:+ String c (join (String c "") (y :: l))) in H.
    apply is_utf8_around in H as [Hx H]; [|done]. constructor; [done | by apply IH].
Qed.

Lemma split_once_utf8 c s a b : (code c <? 0x80) = true -> is_utf8 s = true ->
  split_once c s = Some (a, b) -> is_utf8 a = true /\ is_utf8 b = true.
Proof. intros Hc Hs [-> _]%split_once_Some. by apply is_utf8_around in Hs. Qed.

Lemma trim_end_char_utf8 c s : (code c <? 0x80) = true -> is_utf8 s = true ->
  is_utf8 (trim_end_char c s) = true.
Proof.
  intros Hc Hs. unfold trim_end_char. rewrite <- (str_rev_invol s) in Hs.
  induction (str_rev s) as [|d r IH]; [done|]. cbn [drop_while].
  destruct (Ascii.eqb_spec c d) as [<- | _]; [|done]. apply IH.
  rewrite str_rev_cons in Hs. by apply is_utf8_around in Hs as [Hs _].
Qed.

(** At white space. *)
Lemma strip_ws_boundary s r : strip_ws s = Some r -> is_utf8 s = true ->
  boundary s = true /\ is_utf8 r = true.
Proof.
  intros H Hs. split; [by apply is_utf8_boundary|]. revert H Hs.
  assert (forall c s, (code c <? 0x80) = true -> is_utf8 (String c s) = true -> is_utf8 s = true) as H1.
  { intros c t Hc Ht. change (String c t) with ("" +:+ String c t) in Ht. by apply is_utf8_around in Ht as [_ Ht]. }
  unfold strip_ws. destruct s as [|a s1]; [done|]. destruct (_ || _)%bool eqn:Ha.
  { intros [= <-]. apply H1. lia. }
  clear H1. assert (forall n t, (String.length t <= n)%nat -> valid_fuel n t = is_utf8 t) as Hf.
  { intros n t Hn. by apply valid_fuel_more. }
  intros H. unfold is_utf8 at 1. cbn [String.length valid_fuel].
  destruct (utf8_head (String a s1)) as [ok k] eqn:Hh. intros [-> Hv]%andb_true_iff.
  pose proof (utf8_head_bounds a s1) as Hk. rewrite Hh in Hk.
  rewrite Hf in Hv by (rewrite length_str_drop; cbn; lia). clear Hk.
  revert Hh H. unfold utf8_head, second3, second4, is_cont, in_range.
  repeat case_match; intros Hk Hr; simplify_eq; try done; try lia.
Qed.

Lemma trim_start_utf8 s : is_utf8 s = true -> is_utf8 (trim_start s) = true.
Proof.
  unfold trim_start. generalize (String.length s) as n. intros n. revert s.
  induction n as [|n IH]; intros s Hs; [done|]. cbn [trim_start_fuel].
  destruct (strip_ws s) as [r|] eqn:Hr; [|done]. apply IH. by apply (strip_ws_boundary s).
Qed.

Lemma ws_boundary s r : strip_ws s = Some r -> boundary s = true.
Proof.
  unfold strip_ws, boundary, is_cont, in_range. destruct s as [|a s]; [done|].
  destruct (_ || _)%bool eqn:Ha; [intros; lia|].
  repeat case_match; intros Hr; simplify_eq; lia.
Qed.

Lemma word_boundary s : boundary (word s).2 = true.
Proof.
  induction s as [|c s IH]; [done|]. cbn [word]. destruct (strip_ws (String c s)) eqn:Hs.
  - by apply ws_boundary in Hs.
  - by destruct (word s).
Qed.

Lemma word_utf8 s : is_utf8 s = true -> is_utf8 (word s).1 = true /\ is_utf8 (word s).2 = true.
Proof.
  intros Hs. apply is_utf8_cut; [apply word_boundary|]. by rewrite word_concat.
Qed.

Lemma split_whitespace_utf8 s : is_utf8 s = true ->
  Forall (fun x => is_utf8 x = true) (split_whitespace s).
Proof.
  unfold split_whitespace. generalize (String.length s) as n. intros n. revert s.
  induction n as [|n IH]; intros s Hs; [constructor|]. rewrite words_fuel_step. case_bool; [done|].
  apply trim_start_utf8, word_utf8 in Hs as [H1 H2]. constructor; [done | by apply IH].
Qed.
