(* ===== verification/RateLimiter.v ===== *)
(** The outbound INVITE rate limiter (src/src/call/rate_limiter.rs): one entry
    per AOR, the minimum interval, the back-off after 5xx failures and the
    Retry-After the carrier asked for.

    A lock guards the whole table, so each operation is one step on the state;
    the clock reading is an argument. *)
From S2P Require Import Prelude RustStr.

Inductive RateLimitDecision :=
  | Allow (previous_interval : option Z)
  | Deny (retry_after : Z).

Record AorState := mkAor {
  last_allowed_at : Z;
  failure_streak : Z;
  retry_after_until : option Z
}.

Record RateLimiterConfig := mkRlConfig {
  min_interval : Z;
  failure_backoff_steps : list Z
}.

Definition default_config : RateLimiterConfig :=
  mkRlConfig (from_secs 3) [from_secs 5; from_secs 10; from_secs 30].

Abbreviation rl_state := (gmap string AorState).

Definition round_up_secs (d : Z) : Z :=
  let secs := as_secs d in
  let secs := if 0 <? subsec_nanos d then saturating_add 64 secs 1 else secs in
  let secs := if secs =? 0 then 1 else secs in
  from_secs secs.

(** The interval required after the last allowed call. *)
Definition required_wait (cfg : RateLimiterConfig) (s : AorState) : Z :=
  let wait := min_interval cfg in
  if 0 <? failure_streak s then
    let idx := Nat.min (Z.to_nat (failure_streak s) - 1)
                 (length (failure_backoff_steps cfg) - 1) in
    match failure_backoff_steps cfg !! idx with
    | Some step => if wait <? step then step else wait
    | None => wait
    end
  else wait.

(** The first instant at which a call is allowed again. *)
Definition allow_at (cfg : RateLimiterConfig) (s : AorState) : Z :=
  let interval_until := last_allowed_at s + required_wait cfg s in
  match retry_after_until s with
  | Some ra => if interval_until <? ra then ra else interval_until
  | None => interval_until
  end.

Definition check_and_record_at (cfg : RateLimiterConfig) (state : rl_state) (aor : string)
    (now : Z) : RateLimitDecision * rl_state :=
  let entry := state !! aor in
  let at_ := s ← entry; Some (allow_at cfg s) in
  let denied :=
    match at_ with
    | Some at_ => if now <? at_ then Some (duration_since at_ now) else None
    | None => None
    end in
  match denied with
  | Some remaining => (Deny (round_up_secs remaining), state)
  | None =>
      let cleared_retry_after_until :=
        option_filter (fun ra => now <? ra) (s ← entry; retry_after_until s) in
      let previous_interval := s ← entry; Some (duration_since now (last_allowed_at s)) in
      let updated :=
        mkAor now (default 0 (s ← entry; Some (failure_streak s))) cleared_retry_after_until in
      (Allow previous_interval, <[aor := updated]> state)
  end.

Definition is_5xx (status_code : Z) : bool := (500 <=? status_code) && (status_code <? 600).

Definition record_failure_at (state : rl_state) (aor : string) (status_code : Z)
    (retry_after_secs : option Z) (now : Z) : rl_state :=
  let entry := default (mkAor now 0 None) (state !! aor) in
  let streak :=
    if is_5xx status_code then saturating_add 32 (failure_streak entry) 1
    else failure_streak entry in
  let until_ :=
    if is_5xx status_code then
      match retry_after_secs with
      | Some secs =>
          let until_ := now + from_secs secs in
          Some (match retry_after_until entry with
                | Some prev => if until_ <? prev then prev else until_
                | None => until_
                end)
      | None => retry_after_until entry
      end
    else retry_after_until entry in
  <[aor := mkAor (last_allowed_at entry) streak until_]> state.

Definition record_success (state : rl_state) (aor : string) : rl_state :=
  match state !! aor with
  | Some entry => <[aor := mkAor (last_allowed_at entry) 0 None]> state
  | None => state
  end.

Definition parse_retry_after (value : string) : option Z :=
  let trimmed := trim_start value in
  let digits := take_while is_ascii_digit trimmed in
  match digits with
  | EmptyString => None
  | _ => parse_uint 32 digits
  end.

(** ** Histories *)

Inductive rl_event :=
  | EvCheck (aor : string) (now : Z)
  | EvFailure (aor : string) (status : Z) (retry_after : option Z) (now : Z)
  | EvSuccess (aor : string) (now : Z).

Definition ev_time (e : rl_event) : Z :=
  match e with EvCheck _ t | EvFailure _ _ _ t | EvSuccess _ t => t end.

Definition rl_step (cfg : RateLimiterConfig) (st : rl_state) (e : rl_event)
  : option RateLimitDecision * rl_state :=
  match e with
  | EvCheck aor now => let '(d, st) := check_and_record_at cfg st aor now in (Some d, st)
  | EvFailure aor status ra now => (None, record_failure_at st aor status ra now)
  | EvSuccess aor _ => (None, record_success st aor)
  end.

(** The history with the decision of each check. *)
Fixpoint rl_run (cfg : RateLimiterConfig) (st : rl_state) (es : list rl_event)
  : list (rl_event * option RateLimitDecision) :=
  match es with
  | [] => []
  | e :: es => let '(d, st) := rl_step cfg st e in (e, d) :: rl_run cfg st es
  end.

(** The instants at which calls of [aor] were allowed. *)
Fixpoint allowed_times (aor : string) (h : list (rl_event * option RateLimitDecision)) : list Z :=
  match h with
  | (EvCheck a now, Some (Allow _)) :: h =>
      if String.eqb a aor then now :: allowed_times aor h else allowed_times aor h
  | _ :: h => allowed_times aor h
  | [] => []
  end.

(** The instants of the history do not go back. *)
Fixpoint clocked (t : Z) (es : list rl_event) : Prop :=
  match es with
  | [] => True
  | e :: es => t <= ev_time e /\ clocked (ev_time e) es
  end.

(** Each instant is at least [d] after the one before it. *)
Fixpoint spaced (d last : Z) (ts : list Z) : Prop :=
  match ts with
  | [] => True
  | t :: ts => last + d <= t /\ spaced d t ts
  end.

(** ** Lemmas *)

Lemma required_wait_ge cfg s : min_interval cfg <= required_wait cfg s.
Proof.
  unfold required_wait. case_bool; [|lia].
  destruct (failure_backoff_steps cfg !! _); [case_bool|]; lia.
Qed.

Lemma allow_at_ge cfg s :
  last_allowed_at s + min_interval cfg <= allow_at cfg s /\
  (forall ra, retry_after_until s = Some ra -> ra <= allow_at cfg s).
Proof.
  pose proof (required_wait_ge cfg s). unfold allow_at.
  destruct (retry_after_until s) as [ra|]; [case_bool|]; split; try lia;
    intros ? [= <-]; lia.
Qed.

Lemma check_cases cfg st aor now :
  (exists s, st !! aor = Some s /\ now < allow_at cfg s /\
     check_and_record_at cfg st aor now = (Deny (round_up_secs (allow_at cfg s - now)), st)) \/
  ((forall s, st !! aor = Some s -> allow_at cfg s <= now) /\
   exists prev streak ra,
     check_and_record_at cfg st aor now = (Allow prev, <[aor := mkAor now streak ra]> st) /\
     (forall u, ra = Some u ->
        now < u /\ exists s, st !! aor = Some s /\ retry_after_until s = Some u)).
Proof.
  unfold check_and_record_at. destruct (st !! aor) as [s|] eqn:Hs; cbn.
  - destruct (Z.ltb_spec now (allow_at cfg s)) as [Hlt | Hge].
    + left. exists s. split; [done|]. split; [done|]. unfold duration_since.
      do 3 f_equal. lia.
    + right. split; [by intros ? [= <-]|]. eexists _, _, _. split; [reflexivity|].
      intros u Hu. destruct (retry_after_until s) as [ra|] eqn:Hra; [|done]. cbn in Hu.
      destruct (Z.ltb_spec now ra); [|done]. simplify_eq. eauto.
  - right. split; [done|]. eexists _, _, _. split; [reflexivity|]. done.
Qed.

(** No step but an allowed check of the same AOR moves the last allowed
    instant. *)
Lemma failure_last st aor status ra now a s :
  st !! a = Some s ->
  exists s', record_failure_at st aor status ra now !! a = Some s' /\
    last_allowed_at s' = last_allowed_at s.
Proof.
  intros Hs. unfold record_failure_at. destruct (decide (a = aor)) as [-> | Hne].
  - rewrite lookup_insert_eq, Hs. by eexists.
  - rewrite lookup_insert_ne by done. by eexists.
Qed.

Lemma success_last st aor a s :
  st !! a = Some s ->
  exists s', record_success st aor !! a = Some s' /\ last_allowed_at s' = last_allowed_at s.
Proof.
  intros Hs. unfold record_success. destruct (st !! aor) as [s0|] eqn:H0; [|by eexists].
  destruct (decide (a = aor)) as [-> | Hne].
  - rewrite lookup_insert_eq. simplify_eq. by eexists.
  - rewrite lookup_insert_ne by done. by eexists.
Qed.

Lemma allowed_spaced cfg aor st es last s :
  st !! aor = Some s -> last_allowed_at s = last ->
  spaced (min_interval cfg) last (allowed_times aor (rl_run cfg st es)).
Proof.
  revert st last s. induction es as [|e es IH]; intros st last s Hs Hl; [done|].
  destruct e as [a now | a status ra now | a now]; cbn [rl_run rl_step].
  - destruct (check_cases cfg st a now) as [(s0 & Hs0 & Hlt & ->) | (Hge & p & k & ra & -> & _)].
    + cbn. by eapply IH.
    + cbn. destruct (String.eqb_spec a aor) as [-> | Hne].
      * split.
        -- specialize (Hge s Hs). pose proof (proj1 (allow_at_ge cfg s)). lia.
        -- eapply IH; [by rewrite lookup_insert_eq | done].
      * eapply IH; [|exact Hl]. rewrite lookup_insert_ne by done. done.
  - cbn. destruct (failure_last st a status ra now aor s Hs) as (s' & Hs' & Hl').
    eapply IH; [exact Hs' | congruence].
  - cbn. destruct (success_last st a aor s Hs) as (s' & Hs' & Hl').
    eapply IH; [exact Hs' | congruence].
Qed.

Lemma round_up_secs_spec d :
  0 < d -> d < from_secs (2 ^ 64 - 1) ->
  exists n, round_up_secs d = from_secs n /\ 1 <= n /\ d <= from_secs n < d + nanos_per_sec.
Proof.
  unfold round_up_secs, as_secs, subsec_nanos, from_secs, nanos_per_sec. intros H1 H2.
  pose proof (Z.div_mod d 1000000000 ltac:(lia)) as Hd.
  pose proof (Z.mod_pos_bound d 1000000000 ltac:(lia)) as Hm.
  set (q := d / 1000000000) in *. set (r := d mod 1000000000) in *. clearbody q r.
  unfold saturating_add. change (2 ^ 64) with 18446744073709551616 in *.
  eexists. split; [reflexivity|]. case_bool; lia.
Qed.

(** ** Properties *)

(** The limiter enforces its interval: over any history of checks,
    failures and successes of any AORs, from any state, the calls it allows
    for one AOR are at least [min_interval] apart. *)
Theorem allows_are_spaced cfg aor st es :
  match allowed_times aor (rl_run cfg st es) with
  | [] => True
  | t :: ts => spaced (min_interval cfg) t ts
  end.
Proof.
  revert st. induction es as [|e es IH]; intros st; [done|].
  destruct e as [a now | a status ra now | a now]; cbn [rl_run rl_step]; [|apply IH|apply IH].
  destruct (check_cases cfg st a now) as [(s0 & Hs0 & Hlt & ->) | (Hge & p & k & ra & -> & _)];
    cbn; [apply IH|].
  destruct (String.eqb_spec a aor) as [-> | Hne]; [|apply IH].
  eapply allowed_spaced; [by rewrite lookup_insert_eq | done].
Qed.

(** A denial changes nothing and asks for a whole number of seconds, at
    least one, that is enough: the same call made that much later is allowed,
    and it exceeds the remaining time by less than a second. *)
Theorem deny_retry_after cfg st aor now d st' :
  check_and_record_at cfg st aor now = (Deny d, st') ->
  (forall s, st !! aor = Some s -> allow_at cfg s - now < from_secs (2 ^ 64 - 1)) ->
  st' = st /\
  (exists n, d = from_secs n /\ 1 <= n) /\
  (forall t, now + d <= t -> exists prev, (check_and_record_at cfg st aor t).1 = Allow prev) /\
  (forall t, t <= now + d - nanos_per_sec ->
     exists d', check_and_record_at cfg st aor t = (Deny d', st)).
Proof.
  intros Hc Hb. destruct (check_cases cfg st aor now) as [(s & Hs & Hlt & He) | (_ & p & k & ra & He & _)];
    rewrite He in Hc; [|discriminate]. injection Hc as <- <-.
  destruct (round_up_secs_spec (allow_at cfg s - now)) as (n & -> & Hn & Hle & Hub);
    [lia | by apply Hb |].
  split; [done|]. split; [by exists n|]. split; intros t Ht.
  - destruct (check_cases cfg st aor t) as [(s' & Hs' & Hlt' & _) | (_ & p & k & ra & -> & _)];
      [|by exists p]. simplify_eq. lia.
  - destruct (check_cases cfg st aor t) as [(s' & Hs' & Hlt' & ->) | (Hge & _)]; [by eexists|].
    specialize (Hge s Hs). lia.
Qed.

Lemma deny_retry_after_witness :
  let st := (check_and_record_at default_config ∅ "sip:a" 0).2 in
  exists n, (check_and_record_at default_config st "sip:a" 1).1 = Deny (from_secs n) /\ 1 <= n.
Proof.
  intros st.
  destruct (deny_retry_after default_config st "sip:a" 1 (from_secs 3) st) as (_ & (n & Hd & Hn) & _).
  - vm_compute. reflexivity.
  - intros s Hs. vm_compute in Hs. injection Hs as <-. vm_compute. reflexivity.
  - exists n. rewrite <- Hd. split; [vm_compute; reflexivity | exact Hn].
Defined.

Lemma retry_after_kept cfg st aor es t0 t U s :
  st !! aor = Some s -> (exists u, retry_after_until s = Some u /\ U <= u) \/ U <= t0 ->
  t0 <= t -> clocked t es -> (forall a now, EvSuccess a now ∈ es -> a <> aor) ->
  Forall (fun '(e, d) => forall now prev, e = EvCheck aor now -> d = Some (Allow prev) -> U <= now)
    (rl_run cfg st es).
Proof.
  revert st t0 t s. induction es as [|e es IH]; intros st t0 t s Hs HU Ht Hc Hns; [constructor|].
  destruct Hc as [Hte Hc]. assert (forall a now, EvSuccess a now ∈ es -> a <> aor) as Hns'.
  { intros a now Hin. apply (Hns a now). by right. }
  destruct e as [a now | a status ra now | a now]; cbn [rl_run rl_step] in *.
  - destruct (check_cases cfg st a now) as [(s0 & Hs0 & Hlt & ->) | (Hge & p & k & ra & -> & Hra)].
    + constructor; [by intros ??? [=]|]. eapply IH; [exact Hs | exact HU | | exact Hc | done]. cbn in *. lia.
    + destruct (decide (a = aor)) as [-> | Hne].
      * assert (U <= now) as HUn.
        { destruct HU as [(u & Hu & Hle) | HU]; [|cbn in *; lia].
          specialize (Hge s Hs). pose proof (proj2 (allow_at_ge cfg s) u Hu). lia. }
        constructor; [by intros ? ? [= <-] _|].
        eapply (IH _ now now); [by rewrite lookup_insert_eq | by right | lia | exact Hc | done].
      * constructor; [by intros ? ? [= ? _]|].
        eapply IH; [by rewrite lookup_insert_ne | exact HU | | exact Hc | done]. cbn in *. lia.
  - constructor; [by intros|]. unfold record_failure_at.
    destruct (decide (a = aor)) as [-> | Hne].
    + eapply (IH _ t0); [by rewrite lookup_insert_eq | | | exact Hc | done]; [|cbn in *; lia].
      rewrite Hs. cbn. destruct HU as [(u & Hu & Hle) | HU]; [left | by right]. rewrite Hu.
      case_bool; [|by exists u]. destruct ra; [|by exists u].
      case_bool; eexists; (split; [reflexivity|]); lia.
    + eapply (IH _ t0); [by rewrite lookup_insert_ne | exact HU | | exact Hc | done]. cbn in *. lia.
  - constructor; [by intros|]. unfold record_success.
    assert (a <> aor) as Hne by (apply (Hns a now); left).
    destruct (st !! a) as [s0|]; [|eapply (IH _ t0); [done | exact HU | | exact Hc | done]; cbn in *; lia].
    eapply (IH _ t0); [by rewrite lookup_insert_ne | exact HU | | exact Hc | done]. cbn in *. lia.
Qed.

(** A Retry-After is honoured (RFC 3261 20.33, JJ-90.24 5.7.3): after a
    5xx with Retry-After of [secs] seconds recorded at [t], no call of that AOR
    is allowed before [t + secs], whatever happens in between, as long as no
    success is recorded for it. *)
Theorem retry_after_honoured cfg st aor status secs t es :
  is_5xx status = true -> clocked t es ->
  (forall a now, EvSuccess a now ∈ es -> a <> aor) ->
  Forall (fun '(e, d) =>
      forall now prev, e = EvCheck aor now -> d = Some (Allow prev) -> t + from_secs secs <= now)
    (rl_run cfg (record_failure_at st aor status (Some secs) t) es).
Proof.
  intros H5 Hc Hns. unfold record_failure_at. rewrite H5.
  eapply (retry_after_kept cfg _ aor es t t);
    [by rewrite lookup_insert_eq | | lia | exact Hc | exact Hns].
  left. cbn. destruct (retry_after_until _) as [prev|]; [case_bool|]; eexists;
    (split; [reflexivity|]); lia.
Qed.

Lemma retry_after_honoured_witness :
  Forall (fun '(e, d) => forall now prev, e = EvCheck "sip:a" now ->
      d = Some (Allow prev) -> 0 + from_secs 60 <= now)
    (rl_run default_config (record_failure_at ∅ "sip:a" 503 (Some 60) 0)
       [EvCheck "sip:a" (from_secs 59); EvFailure "sip:a" 500 None (from_secs 59);
        EvCheck "sip:a" (from_secs 61)]).
Proof.
  apply (retry_after_honoured default_config ∅ "sip:a" 503 60 0).
  - reflexivity.
  - vm_compute. repeat split; discriminate.
  - intros a now Hin. repeat (apply elem_of_cons in Hin as [[=] | Hin]).
    by apply not_elem_of_nil in Hin.
Defined.

(** ** Retry-After values *)

(** The delta-seconds of a Retry-After value are read exactly, whatever
    non-digit text follows them (a comment or parameters). *)
Theorem parse_retry_after_spec n rest :
  u32 n -> take_while is_ascii_digit rest = EmptyString ->
  parse_retry_after (print_uint n +:+ rest) = Some n.
Proof.
  intros Hn Hr. unfold parse_retry_after.
  destruct (print_fuel_cons 19 n) as (c & r & He & Hc).
  assert (trim_start (print_uint n +:+ rest) = print_uint n +:+ rest) as ->.
  { unfold print_uint. rewrite He. cbn. by apply trim_start_digit. }
  rewrite take_while_app, Hr by apply print_uint_digits.
  assert (print_uint n +:+ "" = print_uint n) as -> by apply str_app_nil_r.
  rewrite parse_print_uint by (try done; lia). unfold print_uint. by rewrite He.
Qed.

Lemma parse_retry_after_spec_witness :
  parse_retry_after (print_uint 120 +:+ ";duration=10") = Some 120.
Proof. apply parse_retry_after_spec; [width | reflexivity]. Defined.
