(* ===== verification/SipMessage.v ===== *)
(** SIP messages (src/src/sip/message.rs): methods, the header table with its
    normalised names, serialization with a single Content-Length, the
    classifying parser, the skeleton recovered for 400 responses, and SIP URIs.

    A datagram and a body are the [string] of their bytes. *)
From S2P Require Import Prelude RustStr Utf8.

(** A table lookup, as the [match] on string literals does it. *)
Fixpoint assoc (l : list (string * string)) (k : string) : option string :=
  match l with
  | [] => None
  | (a, b) :: l => if String.eqb a k then Some b else assoc l k
  end.

(** ** Methods *)

Inductive SipMethod :=
  | Register | Invite | Ack | Bye | Cancel | Options | Info | Notify | Subscribe | Prack
  | Publish | Update | Message | Refer
  | Other (s : string).

#[export] Instance SipMethod_eq_dec : EqDecision SipMethod.
Proof. solve_decision. Defined.

Definition as_str (m : SipMethod) : string :=
  match m with
  | Register => "REGISTER"
  | Invite => "INVITE"
  | Ack => "ACK"
  | Bye => "BYE"
  | Cancel => "CANCEL"
  | Options => "OPTIONS"
  | Info => "INFO"
  | Notify => "NOTIFY"
  | Subscribe => "SUBSCRIBE"
  | Prack => "PRACK"
  | Publish => "PUBLISH"
  | Update => "UPDATE"
  | Message => "MESSAGE"
  | Refer => "REFER"
  | Other s => s
  end.

Definition known_methods : list SipMethod :=
  [Register; Invite; Ack; Bye; Cancel; Options; Info; Notify; Subscribe; Prack; Publish;
   Update; Message; Refer].

(** [from_str]: only the empty string is an error. *)
Definition method_from_str (s : string) : option SipMethod :=
  if String.eqb s "" then None
  else Some (match find_first (fun m => String.eqb (as_str m) s) known_methods with
             | Some m => m
             | None => Other s
             end).

(** ** Header names *)

Definition compact_forms : list (string * string) :=
  [("i", "call-id"); ("m", "contact"); ("f", "from"); ("t", "to"); ("v", "via");
   ("c", "content-type"); ("l", "content-length"); ("e", "content-encoding");
   ("s", "subject"); ("k", "supported"); ("b", "referred-by"); ("o", "event");
   ("r", "refer-to"); ("u", "allow-events"); ("x", "session-expires")].

Definition normalize_header_name (name : string) : string :=
  let lower := to_ascii_lowercase (trim name) in
  default lower (assoc compact_forms lower).

Definition to_upper (c : ascii) : ascii :=
  if (97 <=? code c) && (code c <=? 122) then chr (code c - 32) else c.

(** The first letter of each token between dashes in upper case. *)
Definition title_segment (seg : string) : string :=
  match seg with
  | String c r => String (to_upper c) r
  | EmptyString => EmptyString
  end.
Definition title_case_dashed (s : string) : string :=
  join "-" (map title_segment (split_on "-" s)).

Definition canonical_forms : list (string * string) :=
  [("via", "Via"); ("from", "From"); ("to", "To"); ("call-id", "Call-ID"); ("cseq", "CSeq");
   ("contact", "Contact"); ("content-type", "Content-Type");
   ("content-length", "Content-Length"); ("content-encoding", "Content-Encoding");
   ("max-forwards", "Max-Forwards"); ("authorization", "Authorization");
   ("www-authenticate", "WWW-Authenticate"); ("proxy-authenticate", "Proxy-Authenticate");
   ("proxy-authorization", "Proxy-Authorization"); ("expires", "Expires"); ("allow", "Allow");
   ("allow-events", "Allow-Events"); ("supported", "Supported"); ("require", "Require");
   ("session-expires", "Session-Expires"); ("min-se", "Min-SE");
   ("p-preferred-identity", "P-Preferred-Identity");
   ("p-asserted-identity", "P-Asserted-Identity"); ("user-agent", "User-Agent");
   ("subject", "Subject"); ("event", "Event"); ("refer-to", "Refer-To");
   ("referred-by", "Referred-By"); ("rseq", "RSeq"); ("rack", "RAck");
   ("record-route", "Record-Route"); ("route", "Route")].

Definition canonical_header_name (lower : string) : string :=
  default (title_case_dashed lower) (assoc canonical_forms lower).

(** ** Headers: the fields in order, under their normalised names *)

Abbreviation SipHeaders := (list (string * string)).

Definition hdr_add (h : SipHeaders) (name value : string) : SipHeaders :=
  h ++ [(normalize_header_name name, value)].

Fixpoint set_first (h : SipHeaders) (key value : string) : option SipHeaders :=
  match h with
  | [] => None
  | (k, v) :: h =>
      if String.eqb k key then Some ((k, value) :: h)
      else h' ← set_first h key value; Some ((k, v) :: h')
  end.
Definition hdr_set (h : SipHeaders) (name value : string) : SipHeaders :=
  let key := normalize_header_name name in
  match set_first h key value with
  | Some h => h
  | None => h ++ [(key, value)]
  end.

Definition hdr_get (h : SipHeaders) (name : string) : option string :=
  let key := normalize_header_name name in
  '(_, v) ← find_first (fun '(k, _) => String.eqb k key) h; Some v.

Definition hdr_get_all (h : SipHeaders) (name : string) : list string :=
  let key := normalize_header_name name in
  map snd (List.filter (fun '(k, _) => String.eqb k key) h).

(** ** Messages *)

Record SipRequest := mkRequest {
  req_method : SipMethod; req_uri : string; req_headers : SipHeaders; req_body : string
}.
Record SipResponse := mkResponse {
  status_code : Z; reason : string; resp_headers : SipHeaders; resp_body : string
}.
Inductive SipMessage :=
  | Request (r : SipRequest)
  | Response (r : SipResponse).

Definition request_new (m : SipMethod) (uri : string) : SipRequest := mkRequest m uri [] "".

Definition CR : ascii := "013".
Definition LF : ascii := "010".
Definition crlf : string := String CR (String LF "").

(** One header line; a stored Content-Length is not written. *)
Definition header_line (kv : string * string) : string :=
  let '(k, v) := kv in
  if String.eqb k "content-length" then ""
  else canonical_header_name k +:+ ": " +:+ v +:+ crlf.

Definition content_length_line (body : string) : string :=
  "Content-Length: " +:+ print_uint (Z.of_nat (String.length body)) +:+ crlf.

Definition write_message (start : string) (headers : SipHeaders) (body : string) : string :=
  start +:+ crlf +:+ String.concat "" (map header_line headers) +:+
  content_length_line body +:+ crlf +:+ body.

Definition request_to_bytes (r : SipRequest) : string :=
  write_message (as_str (req_method r) +:+ " " +:+ req_uri r +:+ " SIP/2.0")
    (req_headers r) (req_body r).

Definition response_to_bytes (r : SipResponse) : string :=
  write_message ("SIP/2.0 " +:+ print_uint (status_code r) +:+ " " +:+ reason r)
    (resp_headers r) (resp_body r).

(** ** Parsing *)

Inductive ParseError :=
  | Empty
  | NoCrlfCrlf
  | Truncated (declared actual : Z)
  | DuplicateContentLength (count : nat)
  | NonNumericContentLength (value : string)
  | MalformedRequestLine (line : string)
  | BadStatusCode (value : string)
  | UnknownMethod (token : string).

Definition is_header_recoverable (e : ParseError) : bool :=
  match e with
  | Truncated _ _ | DuplicateContentLength _ | NonNumericContentLength _ => true
  | _ => false
  end.

(** The header lines after the start line; a line without a colon is skipped. *)
Fixpoint parse_header_lines (lines : list string) (h : SipHeaders) : SipHeaders :=
  match lines with
  | [] => h
  | line :: lines =>
      parse_header_lines lines
        (match split_once ":" line with
         | Some (k, v) => hdr_add h (trim k) (trim v)
         | None => h
         end)
  end.

(** The request line: method and URI, [splitn(3, ' ')] with at least two parts. *)
Definition split_request_line (line : string) : option (string * string) :=
  '(m, r) ← split_once " " line;
  Some (m, match split_once " " r with Some (u, _) => u | None => r end).

Definition crlf2 : string := String CR (String LF (String CR (String LF ""))).

(** The body: by Content-Length when it occurs once, the rest of the datagram
    when it does not occur. *)
Definition parse_body (headers : SipHeaders) (body_bytes : string)
  : outcome ParseError string :=
  match hdr_get_all headers "content-length" with
  | [] => Ok body_bytes
  | [raw] =>
      n ← ok_or (parse_uint 64 raw) (NonNumericContentLength raw);
      let len := Z.of_nat (String.length body_bytes) in
      if len <? n then Err (Truncated n len)
      else Ok (str_take (Z.to_nat n) body_bytes)
  | l => Err (DuplicateContentLength (length l))
  end.

Definition parse_message_classified (data : string) : outcome ParseError SipMessage :=
  if String.eqb data "" then Err Empty
  else
    '(header_bytes, body_bytes) ← ok_or (split_once_str crlf2 data) NoCrlfCrlf;
    let header_text := from_utf8_lossy header_bytes in
    match split_str crlf header_text with
    | [] => Err Empty
    | first_line :: lines =>
        let headers := parse_header_lines lines [] in
        body ← parse_body headers body_bytes;
        match strip_prefix "SIP/2.0 " first_line with
        | Some rest =>
            let '(code_str, reason) := default (rest, "") (split_once " " rest) in
            status_code ← ok_or (parse_uint 16 code_str) (BadStatusCode code_str);
            Ok (Response (mkResponse status_code reason headers body))
        | None =>
            '(m, uri) ← ok_or (split_request_line first_line) (MalformedRequestLine first_line);
            method ← ok_or (method_from_str m) (UnknownMethod m);
            Ok (Request (mkRequest method uri headers body))
        end
    end.

Record MalformedRequestSkeleton := mkSkeleton {
  sk_method : SipMethod; sk_uri : string; sk_headers : SipHeaders
}.

Definition essential_headers : list string := ["via"; "from"; "to"; "call-id"; "cseq"].

Definition extract_request_skeleton_for_400 (data : string) : option MalformedRequestSkeleton :=
  '(header_bytes, _) ← split_once_str crlf2 data;
  let header_text := from_utf8_lossy header_bytes in
  match split_str crlf header_text with
  | [] => None
  | first_line :: lines =>
      if starts_with "SIP/2.0 " first_line then None
      else
        '(m, uri) ← split_request_line first_line;
        method ← method_from_str m;
        let headers := parse_header_lines lines [] in
        if forallb (fun k => bool_decide (is_Some (hdr_get headers k))) essential_headers
        then Some (mkSkeleton method uri headers)
        else None
  end.

(** ** SIP URIs *)

Record SipUriParts := mkUri {
  scheme : string; user : option string; host : string; port : option Z;
  params : list (string * string); uri_headers : list (string * string)
}.

Inductive UriError :=
  | UriEmpty | UriNoScheme | UriUnclosed | UriBadPort (p : string) | UriEmptyHost.

Definition parse_kv_list (s : string) (sep : ascii) : list (string * string) :=
  map (fun part =>
         match split_once "=" part with
         | Some (k, v) => (to_ascii_lowercase (trim k), trim v)
         | None => (to_ascii_lowercase (trim part), "")
         end)
    (List.filter (fun p => negb (String.eqb p "")) (split_on sep s)).

Definition parse_port (p : string) : outcome UriError Z :=
  ok_or (parse_uint 16 p) (UriBadPort p).

(** [host], [host:port], or an IPv6 literal in brackets, which stay. *)
Definition parse_hostport (hostport : string) : outcome UriError (string * option Z) :=
  match strip_prefix "[" hostport with
  | Some stripped =>
      '(h, after) ← ok_or (split_once "]" stripped) UriUnclosed;
      port ← match strip_prefix ":" after with
             | Some p => Some <$> parse_port p
             | None => Ok None
             end;
      Ok ("[" +:+ h +:+ "]", port)
  | None =>
      match rsplit_once ":" hostport with
      | Some (h, p) => port ← parse_port p; Ok (h, Some port)
      | None => Ok (hostport, None)
      end
  end.

(** The part before and after the first [c], if any. *)
Definition cut (c : ascii) (s : string) : string * option string :=
  match split_once c s with
  | Some (a, b) => (a, Some b)
  | None => (s, None)
  end.

Definition parse_sip_uri (input : string) : outcome UriError SipUriParts :=
  let s := trim input in
  ensure (negb (String.eqb s "")) UriEmpty ;;
  '(scheme, rest) ← ok_or (split_once ":" s) UriNoScheme;
  let scheme_lc := to_ascii_lowercase scheme in
  let '(rest, headers_part) := cut "?" rest in
  let '(rest, params_part) := cut ";" rest in
  let '(user_part, hostport) :=
    match rsplit_once "@" rest with
    | Some (u, h) => (Some u, h)
    | None => (None, rest)
    end in
  let user := (fun u => fst (cut ":" u)) <$> user_part in
  '(host, port) ← parse_hostport hostport;
  ensure (negb (String.eqb host "")) UriEmptyHost ;;
  Ok (mkUri scheme_lc user host port
        (match params_part with Some p => parse_kv_list p ";" | None => [] end)
        (match headers_part with Some h => parse_kv_list h "&" | None => [] end)).

Definition uri_param (u : SipUriParts) (name : string) : option string :=
  let n := to_ascii_lowercase name in
  '(_, v) ← find_first (fun '(k, _) => eq_ignore_ascii_case k n) (params u); Some v.

Definition has_param (u : SipUriParts) (name : string) : bool :=
  let n := to_ascii_lowercase name in
  existsb (fun '(k, _) => eq_ignore_ascii_case k n) (params u).

Example parse_uri_example :
  parse_sip_uri " sip:bob:secret@[2001:db8::1]:5060;transport=UDP;lr?Subject=Hi" =
  Ok (mkUri "sip" (Some "bob") "[2001:db8::1]" (Some 5060)
        [("transport", "UDP"); ("lr", "")] [("subject", "Hi")]).
Proof. reflexivity. Qed.

#[global] Arguments normalize_header_name : simpl never.
#[global] Arguments canonical_header_name : simpl never.

(** ** Header names *)

Lemma title_segment_lower x : to_ascii_lowercase (title_segment x) = to_ascii_lowercase x.
Proof.
  destruct x as [|c x]; [done|]. unfold to_ascii_lowercase. cbn. f_equal.
  apply Ascii.eqb_eq. revert c. apply ascii_exhaust. by vm_compute.
Qed.

Lemma title_case_lower s : to_ascii_lowercase (title_case_dashed s) = to_ascii_lowercase s.
Proof.
  unfold title_case_dashed. rewrite <- (join_split_on "-" s) at 2.
  generalize (split_on "-" s) as l. intros l. unfold to_ascii_lowercase.
  induction l as [|x l IH]; [done|]. destruct l as [|y l].
  - apply title_segment_lower.
  - change (map title_segment (x :: y :: l)) with (title_segment x :: map title_segment (y :: l)).
    change (join "-" (title_segment x :: map title_segment (y :: l)))
      with (title_segment x +:+ "-" +:+ join "-" (map title_segment (y :: l))).
    change (join "-" (x :: y :: l)) with (x +:+ "-" +:+ join "-" (y :: l)).
    rewrite !string_map_app, IH. f_equal. apply title_segment_lower.
Qed.

Lemma assoc_In l k v : assoc l k = Some v -> In (k, v) l.
Proof.
  induction l as [|[a b] l IH]; cbn; [done|]. destruct (String.eqb_spec a k) as [<- | Hne].
  - intros [= <-]. by left.
  - intros H. right. by apply IH.
Qed.

Lemma canonical_lower k : to_ascii_lowercase (canonical_header_name k) = to_ascii_lowercase k.
Proof.
  unfold canonical_header_name.
  destruct (assoc canonical_forms k) as [v|] eqn:Hv; cbn; [|apply title_case_lower].
  apply assoc_In in Hv.
  assert (forallb (fun '(a, b) => String.eqb (to_ascii_lowercase b) (to_ascii_lowercase a))
    canonical_forms = true) as H by (by vm_compute).
  rewrite forallb_forall in H. apply H in Hv. by apply String.eqb_eq in Hv.
Qed.

(** Writing a header name and reading it back gives the same key. *)
Lemma normalize_canonical k :
  normalize_header_name (canonical_header_name k) = normalize_header_name k.
Proof. unfold normalize_header_name. by rewrite <- !trim_lower, canonical_lower. Qed.

Lemma normalize_trim k : normalize_header_name (trim k) = normalize_header_name k.
Proof. unfold normalize_header_name. by rewrite trim_idemp. Qed.

Lemma normalize_idemp k :
  normalize_header_name (normalize_header_name k) = normalize_header_name k.
Proof.
  unfold normalize_header_name at 2 3. set (l := to_ascii_lowercase (trim k)).
  destruct (assoc compact_forms l) as [v|] eqn:Hv.
  - change (default l (Some v)) with v. apply assoc_In in Hv.
    assert (forallb (fun '(_, b) => String.eqb (normalize_header_name b) b) compact_forms = true)
      as H by (by vm_compute).
    rewrite forallb_forall in H. apply H in Hv. by apply String.eqb_eq in Hv.
  - change (default l None) with l. unfold normalize_header_name.
    assert (to_ascii_lowercase (trim l) = l) as ->.
    { subst l. by rewrite <- trim_lower, to_ascii_lowercase_idemp, trim_lower, trim_idemp. }
    by rewrite Hv.
Qed.

(** ** Well-formed messages *)

(** A field that can be on one header line: a normalised name without a colon,
    a value without white space at its ends, both well-formed UTF-8 (they are
    [String]s) without a line break. *)
Record field_ok (kv : string * string) : Prop := {
  fo_norm : normalize_header_name kv.1 = kv.1;
  fo_colon : no_char ":" kv.1 = true;
  fo_kcr : no_char CR kv.1 = true;
  fo_kutf : is_utf8 kv.1 = true;
  fo_trim : trimmed kv.2;
  fo_vcr : no_char CR kv.2 = true;
  fo_vutf : is_utf8 kv.2 = true
}.

Definition method_ok (m : SipMethod) : Prop :=
  no_char " " (as_str m) = true /\ no_char CR (as_str m) = true /\ is_utf8 (as_str m) = true /\
  as_str m <> "SIP/2.0" /\ method_from_str (as_str m) = Some m.

Record request_ok (r : SipRequest) : Prop := {
  ro_method : method_ok (req_method r);
  ro_uri : no_char " " (req_uri r) = true /\ no_char CR (req_uri r) = true /\
           is_utf8 (req_uri r) = true;
  ro_fields : Forall field_ok (req_headers r);
  ro_body : Z.of_nat (String.length (req_body r)) < 2 ^ 64
}.

Record response_ok (r : SipResponse) : Prop := {
  po_code : u16 (status_code r);
  po_reason : no_char CR (reason r) = true /\ is_utf8 (reason r) = true;
  po_fields : Forall field_ok (resp_headers r);
  po_body : Z.of_nat (String.length (resp_body r)) < 2 ^ 64
}.

(** The headers the peer sees: without a stored Content-Length, with the one
    computed from the body at the end. *)
Definition sent_headers (h : SipHeaders) (body : string) : SipHeaders :=
  List.filter (fun '(k, _) => negb (String.eqb k "content-length")) h ++
  [("content-length", print_uint (Z.of_nat (String.length body)))].

(** ** The text of a message *)

Definition line_text (kv : string * string) : string :=
  canonical_header_name kv.1 +:+ ": " +:+ kv.2.

Lemma concat_header_lines h rest :
  String.concat "" (map header_line h) +:+ rest =
  String.concat "" (map (fun kv => line_text kv +:+ crlf)
    (List.filter (fun '(k, _) => negb (String.eqb k "content-length")) h)) +:+ rest.
Proof.
  assert (forall l, String.concat "" l = foldr String.append "" l) as Hc.
  { clear. intros l. induction l as [|x [|y l] IH]; [done | by cbn; rewrite str_app_nil_r |].
    change (String.concat "" (x :: y :: l)) with (x +:+ "" +:+ String.concat "" (y :: l)).
    cbn [String.append]. by rewrite IH. }
  rewrite !Hc. induction h as [|[k v] h IH]; [done|]. cbn [map List.filter foldr header_line].
  destruct (String.eqb_spec k "content-length") as [-> | Hne]; cbn [negb].
  - exact IH.
  - cbn [map foldr]. unfold line_text. cbn [fst snd]. rewrite !str_app_assoc in *. by rewrite IH.
Qed.

Lemma concat_lines_join x (ls : list string) y :
  x +:+ crlf +:+ String.concat "" (map (fun l => l +:+ crlf) ls) +:+ y =
  join crlf (x :: ls ++ [y]).
Proof.
  assert (forall l, String.concat "" l = foldr String.append "" l) as Hc.
  { clear. intros l. induction l as [|a [|b l] IH]; [done | by cbn; rewrite str_app_nil_r |].
    change (String.concat "" (a :: b :: l)) with (a +:+ "" +:+ String.concat "" (b :: l)).
    cbn [String.append]. by rewrite IH. }
  rewrite Hc. revert x. induction ls as [|l ls IH]; intros x.
  { cbn [map foldr app join]. done. }
  change (join crlf (x :: (l :: ls) ++ [y])) with (x +:+ crlf +:+ join crlf (l :: ls ++ [y])).
  rewrite <- IH. cbn [map foldr]. by rewrite !str_app_assoc.
Qed.

Definition cl_field (body : string) : string * string :=
  ("content-length", print_uint (Z.of_nat (String.length body))).

Lemma write_message_join start h body :
  write_message start h body =
  join crlf (start :: map line_text (sent_headers h body)) +:+ crlf2 +:+ body.
Proof.
  unfold write_message, sent_headers. rewrite concat_header_lines.
  rewrite map_app. cbn [map]. rewrite <- concat_lines_join, map_map.
  unfold content_length_line, line_text. cbn [fst snd].
  change (canonical_header_name "content-length") with "Content-Length".
  change crlf2 with (crlf +:+ crlf). rewrite !str_app_assoc. done.
Qed.

(** The end of the headers is the first empty line. *)
Lemma split_headers L body :
  Forall (fun l => no_char CR l = true /\ l <> "") L -> L <> [] ->
  split_once_str crlf2 (join crlf L +:+ crlf2 +:+ body) = Some (join crlf L, body).
Proof.
  induction 1 as [|x L [Hx Hxe] HL IH]; intros Hne; [done|].
  destruct L as [|y L]; [by apply split_once_str_hit|].
  change (join crlf (x :: y :: L)) with (x +:+ crlf +:+ join crlf (y :: L)).
  rewrite !str_app_assoc. unfold crlf2 at 1. rewrite split_once_str_skip by done.
  change (String CR (String LF (String CR (String LF "")))) with crlf2.
  specialize (IH ltac:(done)).
  assert (exists c r, join crlf (y :: L) +:+ crlf2 +:+ body = String c r /\ c <> CR)
    as (c & r & Hj & Hc).
  { inversion HL as [|? ? [Hy Hye] _]; subst. destruct y as [|c y]; [done|].
    exists c. destruct L; cbn; (eexists; split; [reflexivity|]); intros ->; by cbn in Hy. }
  rewrite Hj in *.
  change (crlf +:+ String c r) with (String CR (String LF (String c r))).
  assert (split_once_str crlf2 (String CR (String LF (String c r))) =
    ('(a, b) ← split_once_str crlf2 (String c r); Some (crlf +:+ a, b))) as ->.
  { rewrite split_once_str_step, split_once_str_step; [|done|].
    - by destruct (split_once_str crlf2 (String c r)) as [[]|].
    - unfold crlf2. cbn [strip_prefix]. rewrite !Ascii.eqb_refl.
      by rewrite (proj2 (Ascii.eqb_neq CR c)) by congruence. }
  rewrite IH. done.
Qed.

Lemma parse_header_lines_text h h0 :
  Forall field_ok h -> parse_header_lines (map line_text h) h0 = h0 ++ h.
Proof.
  intros Hf. revert h0. induction Hf as [|[k v] h Hkv Hf IH]; intros h0; cbn [map parse_header_lines].
  { by rewrite app_nil_r. }
  destruct Hkv as [Hn Hc _ _ Ht _ _]. cbn [fst snd] in *.
  assert (split_once ":" (line_text (k, v)) = Some (canonical_header_name k, " " +:+ v)) as ->.
  { apply split_once_no_char. cbn [fst].
    rewrite (no_char_same_lower ":" _ k eq_refl (canonical_lower k)). done. }
  rewrite IH. unfold hdr_add. rewrite normalize_trim, normalize_canonical, Hn.
  change (" " +:+ v) with (String " " v). rewrite trim_space by done.
  by rewrite <- app_assoc.
Qed.

Lemma cl_field_ok body : field_ok (cl_field body).
Proof.
  constructor; cbn [cl_field fst snd]; try done.
  - apply print_uint_trimmed.
  - apply digits_no_char; [done | apply print_uint_digits].
  - apply digits_utf8, print_uint_digits.
Qed.

Lemma sent_headers_ok h body : Forall field_ok h -> Forall field_ok (sent_headers h body).
Proof.
  intros H. apply Forall_app. split; [|repeat constructor; apply cl_field_ok].
  induction H as [|[k v] h Hkv Hh IH]; cbn; [constructor|].
  destruct (negb _); [by constructor | done].
Qed.

Lemma line_text_ok kv : field_ok kv ->
  no_char CR (line_text kv) = true /\ line_text kv <> "" /\ is_utf8 (line_text kv) = true.
Proof.
  intros []. unfold line_text. split; [|split].
  - rewrite !no_char_app, fo_vcr0.
    rewrite (no_char_same_lower CR _ kv.1 eq_refl (canonical_lower kv.1)), fo_kcr0. done.
  - by destruct (canonical_header_name kv.1).
  - apply is_utf8_app; [|by apply is_utf8_app].
    by rewrite (is_utf8_same_lower _ kv.1 (canonical_lower kv.1)).
Qed.

Lemma str_take_all s : str_take (String.length s) s = s.
Proof. induction s as [|c s IH]; cbn; [done | by rewrite IH]. Qed.

Lemma parse_body_sent h body :
  Z.of_nat (String.length body) < 2 ^ 64 -> parse_body (sent_headers h body) body = Ok body.
Proof.
  intros Hb. unfold parse_body.
  assert (hdr_get_all (sent_headers h body) "content-length" =
    [print_uint (Z.of_nat (String.length body))]) as ->.
  { unfold hdr_get_all, sent_headers. change (normalize_header_name "content-length") with "content-length".
    induction h as [|[k v] h IH]; [done|]. cbn [List.filter].
    destruct (String.eqb_spec k "content-length"); cbn [negb]; [done|].
    cbn [app List.filter]. by rewrite (proj2 (String.eqb_neq k "content-length")). }
  rewrite parse_print_uint by (unfold uN; lia). cbn [ok_or mbind outcome_bind].
  rewrite Z.ltb_irrefl, Nat2Z.id. by rewrite str_take_all.
Qed.

(** Everything but the start line. *)
Lemma parse_written start h body :
  no_char CR start = true -> start <> "" -> is_utf8 start = true ->
  Forall field_ok h -> Z.of_nat (String.length body) < 2 ^ 64 ->
  parse_message_classified (write_message start h body) =
  match strip_prefix "SIP/2.0 " start with
  | Some rest =>
      let '(code_str, reason) := default (rest, "") (split_once " " rest) in
      status_code ← ok_or (parse_uint 16 code_str) (BadStatusCode code_str);
      Ok (Response (mkResponse status_code reason (sent_headers h body) body))
  | None =>
      '(m, uri) ← ok_or (split_request_line start) (MalformedRequestLine start);
      method ← ok_or (method_from_str m) (UnknownMethod m);
      Ok (Request (mkRequest method uri (sent_headers h body) body))
  end.
Proof.
  intros Hcr Hne Hutf Hf Hb. pose proof (sent_headers_ok h body Hf) as Hs.
  assert (Forall (fun l => no_char CR l = true /\ l <> "" /\ is_utf8 l = true)
    (start :: map line_text (sent_headers h body))) as HL.
  { constructor; [done|]. apply Forall_fmap. eapply Forall_impl; [exact Hs|].
    intros kv Hkv. by apply line_text_ok. }
  set (L := start :: map line_text (sent_headers h body)) in *.
  unfold parse_message_classified. rewrite write_message_join. fold L.
  destruct (String.eqb_spec (join crlf L +:+ crlf2 +:+ body) "") as [He | _].
  { exfalso. apply (f_equal String.length) in He. rewrite !str_length_app in He. cbn in He. lia. }
  rewrite split_headers; [|eapply Forall_impl; [exact HL | by intros l (? & ? & ?)] | done].
  cbn [ok_or mbind outcome_bind].
  rewrite from_utf8_lossy_id.
  2: { apply is_utf8_join; [done|]. eapply Forall_impl; [exact HL | by intros l (? & ? & ?)]. }
  unfold crlf. rewrite split_str_join'; [|eapply Forall_impl; [exact HL | by intros l (? & ? & ?)] | done].
  unfold L. rewrite parse_header_lines_text by done. cbn [app].
  rewrite parse_body_sent by done. cbn [mbind outcome_bind]. done.
Qed.

(** ** The header table *)

Lemma set_first_lookup h key v h' :
  set_first h key v = Some h' ->
  forall k, find_first (fun '(k', _) => String.eqb k' k) h' =
    if String.eqb key k then Some (key, v) else find_first (fun '(k', _) => String.eqb k' k) h.
Proof.
  revert h'. induction h as [|[k0 v0] h IH]; intros h'; cbn; [done|].
  destruct (String.eqb_spec k0 key) as [-> | Hne].
  - intros [= <-] k. cbn. by destruct (String.eqb key k).
  - destruct (set_first h key v) as [h1|]; cbn; [|done]. intros [= <-] k. cbn.
    rewrite (IH h1 eq_refl k).
    destruct (String.eqb_spec k0 k) as [-> | ], (String.eqb_spec key k); congruence.
Qed.

Lemma set_first_None h key v :
  set_first h key v = None -> find_first (fun '(k, _) => String.eqb k key) h = None.
Proof.
  induction h as [|[k0 v0] h IH]; cbn; [done|]. destruct (String.eqb k0 key); [done|].
  destruct (set_first h key v); cbn; [done|]. intros _. by apply IH.
Qed.

Lemma find_first_app {A} (p : A -> bool) l1 l2 :
  find_first p (l1 ++ l2) =
  match find_first p l1 with Some x => Some x | None => find_first p l2 end.
Proof. induction l1 as [|x l1 IH]; cbn; [done|]. by destruct (p x). Qed.

(** Two names of the same header. *)
Definition same_header (a b : string) : bool :=
  String.eqb (normalize_header_name a) (normalize_header_name b).

Lemma hdr_get_set h name v name' :
  hdr_get (hdr_set h name v) name' = if same_header name name' then Some v else hdr_get h name'.
Proof.
  unfold hdr_get, hdr_set, same_header. set (key := normalize_header_name name).
  set (k := normalize_header_name name').
  destruct (set_first h key v) as [h'|] eqn:Hs.
  - rewrite (set_first_lookup h key v h' Hs k). by destruct (String.eqb key k).
  - rewrite find_first_app. apply set_first_None in Hs. cbn.
    destruct (String.eqb_spec key k) as [-> | Hne]; [by rewrite Hs|].
    by destruct (find_first (fun '(k0, _) => String.eqb k0 k) h) as [[]|].
Qed.

Lemma hdr_get_all_add h name v name' :
  hdr_get_all (hdr_add h name v) name' =
  hdr_get_all h name' ++ (if same_header name name' then [v] else []).
Proof.
  unfold hdr_get_all, hdr_add, same_header. rewrite List.filter_app, map_app. f_equal. cbn.
  by destruct (String.eqb _ _).
Qed.

Lemma hdr_get_add_other h name v name' :
  same_header name name' = false -> hdr_get (hdr_add h name v) name' = hdr_get h name'.
Proof.
  unfold hdr_get, hdr_add, same_header. intros Hs. rewrite find_first_app. cbn. rewrite Hs.
  by destruct (find_first _ h).
Qed.

Lemma hdr_get_all_set h name v name' :
  hdr_get_all (hdr_set h name v) name' =
  if same_header name name' then v :: tail (hdr_get_all h name') else hdr_get_all h name'.
Proof.
  unfold hdr_get_all, hdr_set, same_header. set (key := normalize_header_name name).
  set (k := normalize_header_name name').
  assert (forall h', set_first h key v = Some h' ->
    map snd (List.filter (fun '(k', _) => String.eqb k' k) h') =
    if String.eqb key k then v :: tail (map snd (List.filter (fun '(k', _) => String.eqb k' k) h))
    else map snd (List.filter (fun '(k', _) => String.eqb k' k) h)) as Hs.
  { induction h as [|[k0 v0] h IH]; intros h'; cbn [set_first]; [done|].
    destruct (String.eqb_spec k0 key) as [-> | Hne].
    - intros [= <-]. cbn. by destruct (String.eqb key k).
    - destruct (set_first h key v) as [h1|]; cbn [mbind option_bind]; [|done]. intros [= <-].
      cbn. specialize (IH h1 eq_refl). destruct (String.eqb_spec k0 k) as [-> | ]; [|done].
      rewrite (proj2 (String.eqb_neq key k)) in * by congruence. cbn. by rewrite IH. }
  destruct (set_first h key v) as [h'|] eqn:Hf; [by apply Hs|].
  apply set_first_None in Hf. rewrite List.filter_app, map_app. cbn.
  destruct (String.eqb_spec key k) as [-> | Hne]; cbn; [|by rewrite app_nil_r].
  assert (List.filter (fun '(k', _) => String.eqb k' k) h = []) as ->; [|done].
  clear Hs. revert Hf. induction h as [|[k0 v0] h IH]; cbn; [done|]. destruct (String.eqb k0 k); [done | exact IH].
Qed.

Lemma hdr_get_head h name : hdr_get h name = head (hdr_get_all h name).
Proof.
  unfold hdr_get, hdr_get_all. induction h as [|[k v] h IH]; cbn; [done|].
  destruct (String.eqb k _); [done | exact IH].
Qed.

(** Decides the comparisons of literal header names. *)
Ltac eval_headers :=
  repeat match goal with
    | |- context [same_header ?a ?b] =>
        let r := eval vm_compute in (same_header a b) in
        change (same_header a b) with r
    end; cbv iota.

(** ** Properties *)

(** C34: round trip. A well-formed request or response is parsed back from its
    bytes: start line, headers in order and body, with exactly one
    Content-Length, computed from the body, in place of any stored one. *)
Theorem sip_message_roundtrip r p :
  request_ok r -> response_ok p ->
  parse_message_classified (request_to_bytes r) =
    Ok (Request (mkRequest (req_method r) (req_uri r)
                   (sent_headers (req_headers r) (req_body r)) (req_body r))) /\
  parse_message_classified (response_to_bytes p) =
    Ok (Response (mkResponse (status_code p) (reason p)
                    (sent_headers (resp_headers p) (resp_body p)) (resp_body p))).
Proof.
  intros Hr Hp. split.
  - destruct Hr as [(Hm1 & Hm2 & Hm3 & Hm4 & Hm5) (Hu1 & Hu2 & Hu3) Hf Hb].
    unfold request_to_bytes. set (m := as_str (req_method r)) in *.
    rewrite parse_written; [| | | | done | done].
    + assert (strip_prefix "SIP/2.0 " (m +:+ " " +:+ req_uri r +:+ " SIP/2.0") = None) as ->.
      { destruct (strip_prefix "SIP/2.0 " _) as [x|] eqn:Hx; [|done].
        apply strip_prefix_Some in Hx. destruct Hm4.
        pose proof (split_once_no_char " " m (req_uri r +:+ " SIP/2.0") Hm1) as H1.
        change (String " " ?s) with (" " +:+ s) in H1. rewrite Hx in H1. by injection H1. }
      unfold split_request_line.
      change (" " +:+ ?s) with (String " " s). rewrite split_once_no_char by done.
      cbn [mbind option_bind]. change (" SIP/2.0") with (String " " "SIP/2.0").
      rewrite split_once_no_char by done. cbn [ok_or mbind outcome_bind]. by rewrite Hm5.
    + by rewrite !no_char_app, Hm2, Hu2.
    + by destruct m.
    + by repeat apply is_utf8_app.
  - destruct Hp as [Hc (Hr1 & Hr2) Hf Hb]. unfold response_to_bytes.
    pose proof (print_uint_digits (status_code p)) as Hd.
    rewrite parse_written; [| | done | | done | done].
    + rewrite strip_prefix_app. change (" " +:+ ?s) with (String " " s).
      rewrite split_once_no_char by (by apply digits_no_char).
      change (default ?d (Some ?x)) with x. cbv iota beta.
      rewrite parse_print_uint by (try done; lia). done.
    + rewrite !no_char_app, Hr1. by rewrite (digits_no_char CR (print_uint (status_code p))).
    + apply is_utf8_app; [done|]. apply is_utf8_app; [by apply digits_utf8|]. by apply is_utf8_app.
Qed.

Lemma field_ok_check kv :
  String.eqb (normalize_header_name kv.1) kv.1 && no_char ":" kv.1 && no_char CR kv.1 &&
  is_utf8 kv.1 && bool_decide (trimmed kv.2) && no_char CR kv.2 && is_utf8 kv.2 = true ->
  field_ok kv.
Proof.
  rewrite !andb_true_iff, bool_decide_eq_true, String.eqb_eq. intros H.
  destruct_and!. by constructor.
Qed.

Definition sample_invite : SipRequest :=
  mkRequest Invite "sip:117@ntt-east.ne.jp"
    [("via", "SIP/2.0/UDP [::1]:5060;branch=z9hG4bK1"); ("content-length", "99");
     ("x-foo", "bar baz"); ("call-id", "a@b")] "v=0".
Definition sample_ok : SipResponse := mkResponse 200 "OK" [("cseq", "1 INVITE")] "".

Lemma sip_message_roundtrip_witness :
  parse_message_classified (request_to_bytes sample_invite) =
  Ok (Request (mkRequest Invite "sip:117@ntt-east.ne.jp"
    [("via", "SIP/2.0/UDP [::1]:5060;branch=z9hG4bK1"); ("x-foo", "bar baz"); ("call-id", "a@b");
     ("content-length", "3")] "v=0")).
Proof.
  refine (proj1 (sip_message_roundtrip sample_invite sample_ok _ _)).
  - constructor; [by repeat split | by repeat split | | reflexivity].
    repeat (constructor; [by apply field_ok_check|]). constructor.
  - constructor; [split; vm_compute; congruence | by repeat split | | reflexivity].
    repeat (constructor; [by apply field_ok_check|]). constructor.
Defined.

(** No smuggling. Whatever datagram is accepted, it declares at most one
    Content-Length; when it declares one, it is a number and the body has
    exactly that many bytes; and the body is what follows the first empty line,
    cut at that length. *)
Theorem parse_content_length data m :
  parse_message_classified data = Ok m ->
  let '(h, body) := match m with
    | Request r => (req_headers r, req_body r)
    | Response r => (resp_headers r, resp_body r) end in
  exists head rest,
    split_once_str crlf2 data = Some (head, rest) /\
    match hdr_get_all h "content-length" with
    | [] => body = rest
    | [raw] => exists n, parse_uint 64 raw = Some n /\ Z.of_nat (String.length body) = n /\
                 exists extra, rest = body +:+ extra
    | _ => False
    end.
Proof.
  unfold parse_message_classified. destruct (String.eqb data ""); [done|].
  destruct (split_once_str crlf2 data) as [[head rest]|]; cbn [ok_or mbind outcome_bind]; [|done].
  destruct (split_str crlf (from_utf8_lossy head)) as [|first lines]; [done|].
  set (h := parse_header_lines lines []).
  assert (forall body, parse_body h rest = Ok body ->
    match hdr_get_all h "content-length" with
    | [] => body = rest
    | [raw] => exists n, parse_uint 64 raw = Some n /\ Z.of_nat (String.length body) = n /\
                 exists extra, rest = body +:+ extra
    | _ => False
    end) as Hbody.
  { intros body. unfold parse_body. destruct (hdr_get_all h "content-length") as [|raw [|? ?]];
      [by intros [= ->] | | done].
    destruct (parse_uint 64 raw) as [n|] eqn:Hn; cbn [ok_or mbind outcome_bind]; [|done].
    destruct (Z.ltb_spec (Z.of_nat (String.length rest)) n) as [|Hle]; [done|]. intros [= <-].
    exists n. split; [done|].
    assert (0 <= n) as Hpos.
    { clear -Hn. unfold parse_uint in Hn. destruct raw as [|c r]; [done|].
      assert (forall s acc v, 0 <= acc -> parse_digits 64 acc s = Some v -> 0 <= v) as Hd.
      { clear. induction s as [|d s IH]; intros acc v Ha; cbn; [by intros [= <-]|].
        destruct (is_ascii_digit d) eqn:Hdig; [|done]. case_bool; [|done]. apply IH.
        unfold is_ascii_digit in Hdig. lia. }
      case_match; [destruct r; [done|]|]; by eapply Hd in Hn. }
    split; [|exists (str_drop (Z.to_nat n) rest); by rewrite str_take_drop].
    assert (forall k s, (k <= String.length s)%nat -> String.length (str_take k s) = k) as Hlen.
    { clear. induction k as [|k IH]; intros [|c s] Hk; cbn in *; try done; [lia|].
      rewrite IH by lia. done. }
    rewrite Hlen by lia. lia. }
  destruct (parse_body h rest) as [body| |]; cbn [mbind outcome_bind]; [|done|done].
  specialize (Hbody body eq_refl). intros H.
  destruct (strip_prefix "SIP/2.0 " first) as [r|].
  - destruct (default (r, "") (split_once " " r)) as [cs rs]. inv_outcome. subst m. cbn. eauto.
  - inv_outcome. destruct a as [mm uu]. inv_outcome. subst m. cbn. eauto.
Qed.

Lemma parse_content_length_witness :
  let data := "OPTIONS sip:a SIP/2.0" +:+ crlf +:+ "L: 2" +:+ crlf2 +:+ "hello" in
  exists head rest, split_once_str crlf2 data = Some (head, rest) /\
    exists n, parse_uint 64 "2" = Some n /\ Z.of_nat (String.length "he") = n /\
      exists extra, rest = "he" +:+ extra.
Proof.
  intros data.
  exact (parse_content_length data (Request (mkRequest Options "sip:a" [("content-length", "2")] "he"))
    eq_refl).
Defined.

(** The header table. Names are compared after normalisation (letter
    case, compact forms, surrounding white space): setting a header makes it
    the value read under any equivalent name and leaves the others; adding one
    appends to the values of its name and to no other; and normalisation is
    idempotent and undone by no canonical spelling. *)
Theorem header_table_laws h name v name' :
  let same := String.eqb (normalize_header_name name) (normalize_header_name name') in
  hdr_get (hdr_set h name v) name' = (if same then Some v else hdr_get h name') /\
  hdr_get_all (hdr_add h name v) name' =
    hdr_get_all h name' ++ (if same then [v] else []) /\
  normalize_header_name (canonical_header_name (normalize_header_name name)) =
    normalize_header_name name.
Proof.
  cbv zeta. split; [|split].
  - apply hdr_get_set.
  - apply hdr_get_all_add.
  - by rewrite normalize_canonical, normalize_idemp.
Qed.
