(* ===== verification/CarrierRetry.v ===== *)
(** The retry policy for intermittent carrier rejections
    (src/src/call/carrier_retry.rs): which final responses are retried, and
    after how long. *)
From S2P Require Import Prelude RustStr Utf8 SipMessage RateLimiter.

Record CarrierRetryConfig := mkRetryConfig {
  default_wait : Z; max_wait : Z; retry_jitter : Z
}.

Definition retry_default : CarrierRetryConfig :=
  mkRetryConfig (from_millis 8000) (from_millis 12000) (from_millis 1500).

Inductive NoRetryReason := NotIntermittent | RetryAfterTooLong.

Inductive RetryDecision :=
  | Retry (wait : Z) (retry_after_header_secs : option Z)
  | NoRetry (reason : NoRetryReason).

(** How the retry of a call ended. *)
Inductive RetryOutcome := NotRetried | RetriedSucceeded | RetriedFailed | RetryAbortedByCancel.

Definition is_carrier_intermittent_reject (status_code : Z) : bool :=
  (status_code =? 500) || (status_code =? 486) || (status_code =? 503).

(** [u64::try_from(..).unwrap_or(d)]. *)
Definition to_u64_or (d z : Z) : Z := if (0 <=? z) && (z <? 2 ^ 64) then z else d.

Definition apply_jitter (base jitter_offset_ms : Z) : Z :=
  let base_ms := to_u64_or (2 ^ 64 - 1) (as_millis base) in
  let sum := Z.max (base_ms + jitter_offset_ms) 0 in
  from_millis (to_u64_or 0 sum).

Definition decide_retry (status_code : Z) (headers : SipHeaders) (config : CarrierRetryConfig)
    (jitter_offset_ms : Z) : RetryDecision :=
  if negb (is_carrier_intermittent_reject status_code) then NoRetry NotIntermittent
  else
    let retry_after_header_secs := v ← hdr_get headers "retry-after"; parse_retry_after v in
    let base_wait :=
      match retry_after_header_secs with
      | Some secs =>
          let req := from_secs secs in
          if max_wait config <? req then None else Some req
      | None => Some (default_wait config)
      end in
    match base_wait with
    | None => NoRetry RetryAfterTooLong
    | Some base_wait => Retry (apply_jitter base_wait jitter_offset_ms) retry_after_header_secs
    end.

(** [random_jitter_offset_ms], [nanos] the sub-second part of the wall clock. *)
Definition random_jitter_offset_ms (jitter_amplitude nanos : Z) : Z :=
  let amp_ms :=
    let ms := as_millis jitter_amplitude in
    if (0 <=? ms) && (ms <? 2 ^ 63) then ms else 0 in
  if amp_ms =? 0 then 0
  else
    let seed := wrapping_add 64 (wrapping_mul 64 nanos 6364136223846793005)
                  1442695040888963407 in
    let range := amp_ms * 2 + 1 in
    let normalized := seed mod range in
    normalized - amp_ms.

Lemma apply_jitter_range base j :
  0 <= base < from_millis (2 ^ 63) -> Z.abs j < 2 ^ 62 ->
  apply_jitter base j = from_millis (Z.max 0 (as_millis base + j)).
Proof.
  unfold apply_jitter, to_u64_or, from_millis, as_millis. intros Hb Hj.
  assert (0 <= base / 1000000 < 2 ^ 63) as Hm.
  { split; [apply Z.div_pos; lia | apply Z.div_lt_upper_bound; lia]. }
  change (2 ^ 62) with 4611686018427387904 in *. change (2 ^ 63) with 9223372036854775808 in *.
  change (2 ^ 64) with 18446744073709551616.
  rewrite (proj2 (Z.leb_le 0 (base / 1000000))), (proj2 (Z.ltb_lt (base / 1000000) _)) by lia.
  cbn [andb]. rewrite (proj2 (Z.leb_le 0 _)), (proj2 (Z.ltb_lt (Z.max _ 0) _)) by lia.
  cbn [andb]. f_equal. lia.
Qed.

Lemma as_millis_from_secs n : as_millis (from_secs n) = n * 1000.
Proof.
  unfold as_millis, from_secs, nanos_per_sec.
  replace (n * 1000000000) with (n * 1000 * 1000000) by lia. by rewrite Z.div_mul by lia.
Qed.

(** The production policy. With the default configuration and the random
    offset the code draws, a retry is made only after 500, 486 or 503, and
    waits 6.5 to 9.5 seconds when the response has no Retry-After; with a
    Retry-After of [n] seconds it is made only for [n] at most 12, within 1.5
    seconds of it. *)
Theorem retry_policy code h nanos wait ra :
  decide_retry code h retry_default
    (random_jitter_offset_ms (retry_jitter retry_default) nanos) = Retry wait ra ->
  (code = 500 \/ code = 486 \/ code = 503) /\
  match ra with
  | None => from_millis 6500 <= wait <= from_millis 9500
  | Some n => n <= 12 /\ (0 <= n -> from_millis (n * 1000 - 1500) <= wait <= from_millis (n * 1000 + 1500))
  end.
Proof.
  set (j := random_jitter_offset_ms _ nanos).
  assert (-1500 <= j <= 1500) as Hj.
  { subst j. unfold random_jitter_offset_ms. cbn [retry_jitter retry_default].
    change (as_millis (from_millis 1500)) with 1500. change ((0 <=? 1500) && (1500 <? 2 ^ 63)) with true.
    cbv zeta iota. change (1500 =? 0) with false. cbv iota.
    pose proof (Z.mod_pos_bound (wrapping_add 64 (wrapping_mul 64 nanos 6364136223846793005)
      1442695040888963407) (1500 * 2 + 1) ltac:(lia)). lia. }
  clearbody j. unfold decide_retry.
  destruct (is_carrier_intermittent_reject code) eqn:Hc; cbn [negb]; [|done].
  assert (code = 500 \/ code = 486 \/ code = 503) as Hcode.
  { unfold is_carrier_intermittent_reject in Hc. rewrite !orb_true_iff, !Z.eqb_eq in Hc. tauto. }
  destruct (v ← hdr_get h "retry-after"; parse_retry_after v) as [n|].
  - cbn [max_wait retry_default].
    destruct (Z.ltb_spec (from_millis 12000) (from_secs n)) as [|Hn]; [done|].
    intros [= <- <-]. split; [done|].
    assert (n <= 12) as Hn12 by (unfold from_millis, from_secs, nanos_per_sec in Hn; lia).
    split; [done|]. intros Hn0.
    rewrite apply_jitter_range, as_millis_from_secs.
    + unfold from_millis. lia.
    + unfold from_millis, from_secs, nanos_per_sec in *. change (2 ^ 63) with 9223372036854775808. lia.
    + change (2 ^ 62) with 4611686018427387904. lia.
  - cbn [default_wait retry_default]. intros [= <- <-]. split; [done|].
    rewrite apply_jitter_range.
    + change (as_millis (from_millis 8000)) with 8000. unfold from_millis. lia.
    + unfold from_millis. change (2 ^ 63) with 9223372036854775808. lia.
    + change (2 ^ 62) with 4611686018427387904. lia.
Qed.

Lemma retry_policy_witness :
  exists wait, decide_retry 503 [("retry-after", "5")] retry_default
    (random_jitter_offset_ms (retry_jitter retry_default) 0) = Retry wait (Some 5) /\
  from_millis 3500 <= wait <= from_millis 6500.
Proof.
  set (w := match decide_retry 503 [("retry-after", "5")] retry_default
    (random_jitter_offset_ms (retry_jitter retry_default) 0) with Retry w _ => w | _ => 0 end).
  exists w.
  assert (decide_retry 503 [("retry-after", "5")] retry_default
    (random_jitter_offset_ms (retry_jitter retry_default) 0) = Retry w (Some 5)) as H
    by (vm_compute; reflexivity).
  split; [exact H|].
  destruct (retry_policy 503 [("retry-after", "5")] 0 w (Some 5) H) as (_ & _ & Hw).
  apply Hw. lia.
Defined.

(** The jitter is applied to a Retry-After too, and downwards: for every
    Retry-After of 1 to 12 seconds and every negative offset, the retry is sent
    before the time the carrier asked for. *)
Theorem retry_before_retry_after h n j :
  hdr_get h "retry-after" = Some (print_uint n) -> 1 <= n <= 12 -> -1500 <= j < 0 ->
  exists wait, decide_retry 503 h retry_default j = Retry wait (Some n) /\ wait < from_secs n.
Proof.
  intros Hh Hn Hj. unfold decide_retry.
  change (is_carrier_intermittent_reject 503) with true. cbn [negb]. rewrite Hh.
  cbn [mbind option_bind].
  assert (parse_retry_after (print_uint n) = Some n) as ->.
  { assert (((if parse_retry_after (print_uint n) is Some m then m =? n else false)) = true) as H
      by range_exhaust n 1 12.
    destruct (parse_retry_after (print_uint n)); [f_equal; lia | done]. }
  cbn [max_wait retry_default].
  rewrite (proj2 (Z.ltb_ge _ _)) by (unfold from_millis, from_secs, nanos_per_sec; lia).
  eexists. split; [reflexivity|]. rewrite apply_jitter_range, as_millis_from_secs.
  - unfold from_millis, from_secs, nanos_per_sec. lia.
  - unfold from_millis, from_secs, nanos_per_sec. change (2 ^ 63) with 9223372036854775808. lia.
  - change (2 ^ 62) with 4611686018427387904. lia.
Qed.

Lemma retry_before_retry_after_witness :
  exists wait, decide_retry 503 [("retry-after", "10")] retry_default (-1) = Retry wait (Some 10) /\
    wait < from_secs 10.
Proof. apply retry_before_retry_after; [reflexivity | lia | lia]. Defined.
