(* ===== verification/NetAddr.v ===== *)
(** [std::net] addresses as the program prints and reads them: [Ipv4Addr],
    [Ipv6Addr] and [SocketAddr], with the [Display] form of the standard library
    (RFC 5952 compression of the longest run of zero groups) and the [FromStr]
    parser of [IpAddr]. *)
From S2P Require Import Prelude RustStr.

Inductive IpAddr :=
  | V4 (a b c d : Z)
  | V6 (segments : list Z).

Record SocketAddr := mkAddr { ip : IpAddr; sport : Z }.

#[export] Instance IpAddr_eq_dec : EqDecision IpAddr.
Proof. solve_decision. Defined.
#[export] Instance SocketAddr_eq_dec : EqDecision SocketAddr.
Proof. solve_decision. Defined.

Definition hex_digit (z : Z) : ascii := if z <? 10 then chr (48 + z) else chr (87 + z).

(** [{:x}], and [{:0Nx}] with the digits padded to [n]. *)
Fixpoint hex_fuel (n : nat) (z : Z) : string :=
  match n with
  | O => EmptyString
  | S n => (if z <? 16 then EmptyString else hex_fuel n (z / 16))
             +:+ String (hex_digit (z mod 16)) EmptyString
  end.
Definition print_hex (z : Z) : string := hex_fuel 16 z.
Fixpoint hex_padded (n : nat) (z : Z) : string :=
  match n with
  | O => EmptyString
  | S n => hex_padded n (z / 16) +:+ String (hex_digit (z mod 16)) EmptyString
  end.

Definition print_ipv4 (a b c d : Z) : string :=
  print_uint a +:+ "." +:+ print_uint b +:+ "." +:+ print_uint c +:+ "." +:+ print_uint d.

(** The longest run of zero groups: start and length, the first one of equals. *)
Fixpoint zero_run (i : nat) (cur longest : nat * nat) (l : list Z) : nat * nat :=
  match l with
  | [] => longest
  | s :: l =>
      if s =? 0 then
        let cur := (if (cur.2 =? 0)%nat then i else cur.1, S cur.2) in
        zero_run (S i) cur (if (longest.2 <? cur.2)%nat then cur else longest) l
      else zero_run (S i) (0%nat, 0%nat) longest l
  end.

Definition fmt_segments (l : list Z) : string := join ":" (map print_hex l).

Definition print_ipv6 (l : list Z) : string :=
  match l with
  | [0; 0; 0; 0; 0; 0xffff; g; h] =>
      "::ffff:" +:+ print_ipv4 (g / 256) (g mod 256) (h / 256) (h mod 256)
  | _ =>
      let '(start, len) := zero_run 0 (0%nat, 0%nat) (0%nat, 0%nat) l in
      if (1 <? len)%nat then
        fmt_segments (take start l) +:+ "::" +:+ fmt_segments (drop (start + len) l)
      else fmt_segments l
  end.

Definition print_ip (a : IpAddr) : string :=
  match a with
  | V4 a b c d => print_ipv4 a b c d
  | V6 l => print_ipv6 l
  end.

Definition print_socket (a : SocketAddr) : string :=
  match ip a with
  | V4 a' b c d => print_ipv4 a' b c d +:+ ":" +:+ print_uint (sport a)
  | V6 l => "[" +:+ print_ipv6 l +:+ "]:" +:+ print_uint (sport a)
  end.

Example print_ipv6_examples :
  print_ipv6 [0x2001; 0xdb8; 0; 0; 1; 0; 0; 1] = "2001:db8::1:0:0:1" /\
  print_ipv6 [0; 0; 0; 0; 0; 0; 0; 1] = "::1" /\
  print_ipv6 [0; 0; 0; 0; 0; 0xffff; 0xc000; 0x0201] = "::ffff:192.0.2.1".
Proof. repeat split. Qed.

(** ** The characters of a printed address *)

Definition is_addr_char (c : ascii) : bool :=
  is_ascii_digit c || ((97 <=? code c) && (code c <=? 102)) || Ascii.eqb c ":" || Ascii.eqb c ".".

Lemma all_chars_impl (p q : ascii -> bool) s :
  (forall c, p c = true -> q c = true) -> all_chars p s = true -> all_chars q s = true.
Proof.
  intros H. induction s as [|c s IH]; cbn; [done|]. intros [H1 H2]%andb_true_iff.
  rewrite (H c H1). by apply IH.
Qed.

Lemma print_uint_addr z : all_chars is_addr_char (print_uint z) = true.
Proof.
  eapply all_chars_impl; [|apply print_uint_digits]. intros c Hc. unfold is_addr_char. by rewrite Hc.
Qed.

Lemma print_ipv4_addr a b c d : all_chars is_addr_char (print_ipv4 a b c d) = true.
Proof. unfold print_ipv4. rewrite !all_chars_app, !print_uint_addr. done. Qed.

Lemma hex_digit_addr d : 0 <= d < 16 -> is_addr_char (hex_digit d) = true.
Proof. intros H. range_exhaust d 0 16. Qed.

Lemma print_hex_addr z : all_chars is_addr_char (print_hex z) = true.
Proof.
  unfold print_hex. generalize 16%nat. intros n. revert z.
  induction n as [|n IH]; intros z; cbn [hex_fuel]; [done|].
  rewrite all_chars_app. apply andb_true_iff. split.
  - destruct (z <? 16); [done | apply IH].
  - cbn. rewrite hex_digit_addr by (apply Z.mod_pos_bound; lia). done.
Qed.

Lemma fmt_segments_addr l : all_chars is_addr_char (fmt_segments l) = true.
Proof.
  unfold fmt_segments. induction l as [|x [|y l] IH]; [done | apply print_hex_addr |].
  change (join ":" (map print_hex (x :: y :: l)))
    with (print_hex x +:+ ":" +:+ join ":" (map print_hex (y :: l))).
  rewrite !all_chars_app, print_hex_addr, IH. done.
Qed.

Lemma print_ip_addr a : all_chars is_addr_char (print_ip a) = true.
Proof.
  destruct a as [a b c d | l]; cbn; [apply print_ipv4_addr|]. unfold print_ipv6.
  assert (all_chars is_addr_char (let '(start, len) := zero_run 0 (0%nat, 0%nat) (0%nat, 0%nat) l in
      if (1 <? len)%nat then
        fmt_segments (take start l) +:+ "::" +:+ fmt_segments (drop (start + len) l)
      else fmt_segments l) = true) as H.
  { destruct (zero_run _ _ _ l) as [start len]. case_bool.
    - by rewrite !all_chars_app, !fmt_segments_addr.
    - apply fmt_segments_addr. }
  repeat (case_match; try exact H).
  all: rewrite all_chars_app; by rewrite print_ipv4_addr.
Qed.

Lemma addr_graph c : is_addr_char c = true -> is_graph c = true.
Proof. apply implb_true_iff. revert c. apply ascii_exhaust. by vm_compute. Qed.

Lemma addr_no_char c s :
  is_addr_char c = false -> all_chars is_addr_char s = true -> no_char c s = true.
Proof.
  intros Hc. apply all_chars_impl. intros d Hd. destruct (Ascii.eqb_spec c d); [congruence | done].
Qed.

Lemma hex_padded_addr n z : all_chars is_addr_char (hex_padded n z) = true.
Proof.
  revert z. induction n as [|n IH]; intros z; cbn [hex_padded]; [done|].
  rewrite all_chars_app, IH. cbn. by rewrite hex_digit_addr by (apply Z.mod_pos_bound; lia).
Qed.

Lemma strip_ws_rev_addr c s : is_addr_char c = true -> strip_ws_rev (String c s) = None.
Proof.
  intros Hc. assert (negb (((9 <=? code c) && (code c <=? 13)) || (code c =? 32)) && (code c <? 128) = true) as H.
  { revert Hc. apply implb_true_iff. revert c. apply ascii_exhaust. by vm_compute. }
  apply andb_true_iff in H as [H1 H2]. apply negb_true_iff in H1.
  cbn [strip_ws_rev]. rewrite H1. destruct s as [|b [|d s]];
    repeat match goal with |- context [if ?b then _ else _] =>
      replace b with false by (symmetry; lia) end; done.
Qed.

(** A name followed by hexadecimal digits has no white space at its end. *)
Lemma hex_suffix_trimmed a s n z :
  strip_ws (String a s) = None -> (n <> 0)%nat -> is_ascii_digit a || caseless a = false ->
  trimmed (String a s +:+ hex_padded n z).
Proof.
  intros Hs Hn Ha. split.
  - destruct (strip_ws (String a s +:+ hex_padded n z)) as [r|] eqn:Hr; [|done].
    exfalso. revert Hr. cbn [String.append strip_ws].
    assert (negb (((9 <=? code a) && (code a <=? 13)) || (code a =? 32)) && (code a <? 128) = true) as H.
    { revert Ha. rewrite <- negb_true_iff. apply implb_true_iff. revert a Hs.
      intros a _. revert a. apply ascii_exhaust. by vm_compute. }
    apply andb_true_iff in H as [H1 H2]. apply negb_true_iff in H1. rewrite H1.
    destruct (s +:+ hex_padded n z) as [|b [|d t]];
    repeat match goal with |- context [if ?b then _ else _] =>
      replace b with false by (symmetry; lia) end; done.
  - destruct n as [|n]; [done|]. cbn [hex_padded].
    rewrite !str_rev_app. change (str_rev (String ?c "")) with (String c "").
    cbn [String.append]. apply strip_ws_rev_addr, hex_digit_addr, Z.mod_pos_bound. lia.
Qed.

(** ** Reading an address ([IpAddr::from_str]) *)

Definition hex_value (c : ascii) : option Z :=
  if is_ascii_digit c then Some (code c - 48)
  else if (97 <=? code c) && (code c <=? 102) then Some (code c - 87)
  else if (65 <=? code c) && (code c <=? 70) then Some (code c - 55)
  else None.
Definition to_digit (radix : Z) (c : ascii) : option Z :=
  v ← hex_value c; if v <? radix then Some v else None.

(** The digits at the front of a string, and what follows them. *)
Fixpoint digits_run (radix : Z) (s : string) : list Z * string :=
  match s with
  | EmptyString => ([], s)
  | String c s' =>
      match to_digit radix c with
      | Some d => let '(ds, rest) := digits_run radix s' in (d :: ds, rest)
      | None => ([], s)
      end
  end.

(** [read_number]: at most [max_digits] digits, a value under [bound], and a
    leading zero only where [allow_zero_prefix] says so. *)
Definition read_number (radix : Z) (max_digits : nat) (allow_zero_prefix : bool) (bound : Z)
    (s : string) : option (Z * string) :=
  let '(ds, rest) := digits_run radix s in
  let v := fold_left (fun acc d => acc * radix + d) ds 0 in
  if (length ds =? 0)%nat || (max_digits <? length ds)%nat then None
  else if negb allow_zero_prefix && (1 <? length ds)%nat && bool_decide (head ds = Some 0) then None
  else if v <? bound then Some (v, rest) else None.

Definition read_given_char (c : ascii) (s : string) : option string :=
  strip_prefix (String c "") s.

Definition read_octet : string -> option (Z * string) := read_number 10 3 false 256.
Definition read_dot_octet (s : string) : option (Z * string) :=
  s ← read_given_char "." s; read_octet s.

Definition read_ipv4_addr (s : string) : option (list Z * string) :=
  '(a, s) ← read_octet s;
  '(b, s) ← read_dot_octet s;
  '(c, s) ← read_dot_octet s;
  '(d, s) ← read_dot_octet s;
  Some ([a; b; c; d], s).

(** [read_separator]: a colon first, except for the first group. *)
Definition read_sep {A} (first : bool) (inner : string -> option A) (s : string) : option A :=
  if first then inner s else s ← read_given_char ":" s; inner s.

(** [read_groups]: the groups read, whether they end with an embedded IPv4
    address, and the rest; [limit] groups fit, and an IPv4 address takes two. *)
Fixpoint read_groups (limit : nat) (first : bool) (s : string) : list Z * bool * string :=
  match limit with
  | O => ([], false, s)
  | S n =>
      match (if (1 <=? n)%nat then read_sep first read_ipv4_addr s else None) with
      | Some ([a; b; c; d], s) => ([a * 256 + b; c * 256 + d], true, s)
      | _ =>
          match read_sep first (read_number 16 4 true 65536) s with
          | Some (g, s) =>
              let '(gs, v4, s) := read_groups n false s in (g :: gs, v4, s)
          | None => ([], false, s)
          end
      end
  end.

Definition read_ipv6_addr (s : string) : option (list Z * string) :=
  let '(hd, v4, s) := read_groups 8 true s in
  if (length hd =? 8)%nat then Some (hd, s)
  else if v4 then None
  else
    s ← read_given_char ":" s;
    s ← read_given_char ":" s;
    let '(tl, _, s) := read_groups (8 - (length hd + 1)) true s in
    Some (hd ++ replicate (8 - length hd - length tl) 0 ++ tl, s).

(** The whole string must be an address. *)
Definition parse_ip (s : string) : option IpAddr :=
  match read_ipv4_addr s with
  | Some ([a; b; c; d], rest) => if String.eqb rest "" then Some (V4 a b c d) else None
  | _ =>
      match read_ipv6_addr s with
      | Some (l, rest) => if String.eqb rest "" then Some (V6 l) else None
      | None => None
      end
  end.

Example parse_ip_examples :
  parse_ip "118.177.125.1" = Some (V4 118 177 125 1) /\ parse_ip "1.2.3.04" = None /\
  parse_ip "1.2.3" = None /\ parse_ip "1.2.3.256" = None /\
  parse_ip "2001:db8::1" = Some (V6 [0x2001; 0xdb8; 0; 0; 0; 0; 0; 1]) /\
  parse_ip "::ffff:192.0.2.1" = Some (V6 [0; 0; 0; 0; 0; 0xffff; 0xc000; 0x201]) /\
  parse_ip "::" = Some (V6 [0; 0; 0; 0; 0; 0; 0; 0]) /\ parse_ip "1::2::3" = None /\
  parse_ip "ntt.example" = None.
Proof. by vm_compute. Qed.

Lemma digits_run_app radix a s :
  all_chars (fun c => bool_decide (is_Some (to_digit radix c))) a = true ->
  match s with String c _ => to_digit radix c = None | EmptyString => True end ->
  digits_run radix (a +:+ s) = ((digits_run radix a).1, s).
Proof.
  intros Ha Hs. induction a as [|c a IH].
  - destruct s as [|c s]; cbn [String.append digits_run]; [done|]. by rewrite Hs.
  - cbn [all_chars] in Ha. apply andb_true_iff in Ha as [[d Hd]%bool_decide_eq_true Ha].
    cbn [String.append digits_run]. rewrite Hd, (IH Ha). by destruct (digits_run radix a).
Qed.

Lemma read_octet_print z s :
  0 <= z < 256 -> match s with String c _ => to_digit 10 c = None | EmptyString => True end ->
  read_octet (print_uint z +:+ s) = Some (z, s).
Proof.
  intros Hz Hs. unfold read_octet, read_number.
  rewrite digits_run_app; [|range_exhaust z 0 256 | done].
  assert (forall x : option (Z * string), x =
    (let ds := (digits_run 10 (print_uint z)).1 in
     let v := fold_left (fun acc d => acc * 10 + d) ds 0 in
     if (length ds =? 0)%nat || (3 <? length ds)%nat then None
     else if negb false && (1 <? length ds)%nat && bool_decide (head ds = Some 0) then None
     else if v <? 256 then Some (v, s) else None) -> x = Some (z, s)) as Hx; [|by apply Hx].
  intros x ->. cbv zeta.
  assert ((let ds := (digits_run 10 (print_uint z)).1 in
    negb ((length ds =? 0)%nat || (3 <? length ds)%nat) &&
    negb (negb false && (1 <? length ds)%nat && bool_decide (head ds = Some 0)) &&
    (fold_left (fun acc d => acc * 10 + d) ds 0 =? z)) = true) as H by range_exhaust z 0 256.
  cbv zeta in H. apply andb_true_iff in H as [[H1 H2]%andb_true_iff H3].
  apply negb_true_iff in H1, H2. apply Z.eqb_eq in H3. rewrite H1, H2, H3.
  by rewrite (proj2 (Z.ltb_lt z 256)) by lia.
Qed.

Lemma read_dot_octet_print z s :
  0 <= z < 256 -> match s with String c _ => to_digit 10 c = None | EmptyString => True end ->
  read_dot_octet ("." +:+ print_uint z +:+ s) = Some (z, s).
Proof.
  intros Hz Hs. unfold read_dot_octet, read_given_char. rewrite strip_prefix_app.
  cbn [mbind option_bind]. by apply read_octet_print.
Qed.

(** An IPv4 address is read back. *)
Lemma parse_ip_print_ipv4 a b c d :
  u8 a -> u8 b -> u8 c -> u8 d -> parse_ip (print_ipv4 a b c d) = Some (V4 a b c d).
Proof.
  unfold uN. change (2 ^ 8) with 256. intros Ha Hb Hc Hd.
  assert (read_ipv4_addr (print_ipv4 a b c d) = Some ([a; b; c; d], "")) as H4.
  { unfold read_ipv4_addr, print_ipv4. rewrite <- (str_app_nil_r (print_uint d)).
    rewrite read_octet_print by done. cbn [mbind option_bind].
    do 3 (rewrite read_dot_octet_print by done; cbn [mbind option_bind]). done. }
  unfold parse_ip. by rewrite H4.
Qed.

(** ** Reading back a printed address *)

(** The addresses a value of the type can hold. *)
Definition ip_ok (a : IpAddr) : Prop :=
  match a with
  | V4 a b c d => u8 a /\ u8 b /\ u8 c /\ u8 d
  | V6 l => length l = 8%nat /\ Forall u16 l
  end.

Lemma digits_run_suffix radix s : exists p, s = p +:+ (digits_run radix s).2.
Proof.
  induction s as [|c s [p IH]]; cbn [digits_run]; [by exists ""|].
  destruct (to_digit radix c); [|by exists ""].
  destruct (digits_run radix s) as [ds r]. cbn in *. exists (String c p). cbn. by rewrite <- IH.
Qed.

Lemma read_number_suffix radix n z b s v r :
  read_number radix n z b s = Some (v, r) -> exists p, s = p +:+ r.
Proof.
  unfold read_number. destruct (digits_run_suffix radix s) as [p Hp].
  destruct (digits_run radix s) as [ds rest]. cbn in Hp. intros H. exists p.
  repeat case_match; simplify_eq. done.
Qed.

(** Without a dot there is no IPv4 address. *)
Lemma read_ipv4_no_dot s : no_char "." s = true -> read_ipv4_addr s = None.
Proof.
  intros H. unfold read_ipv4_addr. destruct (read_octet s) as [[a r]|] eqn:Ho; [|done].
  apply read_number_suffix in Ho as [p ->]. rewrite no_char_app in H.
  apply andb_true_iff in H as [_ H]. cbn [mbind option_bind].
  unfold read_dot_octet, read_given_char. destruct r as [|c r]; [done|].
  unfold no_char in H. cbn [all_chars] in H. apply andb_true_iff in H as [H _].
  cbn [strip_prefix]. by destruct (Ascii.eqb "." c).
Qed.

Lemma hex_radix z : 0 <= z < 16 -> to_digit 16 (hex_digit z) = Some z.
Proof.
  intros H.
  assert (bool_decide (to_digit 16 (hex_digit z) = Some z) = true) as Hb by range_exhaust z 0 16.
  by apply bool_decide_eq_true in Hb.
Qed.

(** What follows a printed group. *)
Definition group_end (s : string) : Prop :=
  match s with EmptyString => True | String c _ => c = ":"%char end.

Lemma digits_run_snoc radix a ds c d :
  digits_run radix a = (ds, "") -> to_digit radix c = Some d ->
  digits_run radix (a +:+ String c "") = (ds ++ [d], "").
Proof.
  intros Ha Hc. revert ds Ha. induction a as [|x a IH]; intros ds; cbn [digits_run String.append].
  - intros [= <-]. by rewrite Hc.
  - destruct (to_digit radix x); [|done]. destruct (digits_run radix a) as [es r] eqn:He.
    intros [= <- ->]. by rewrite (IH es eq_refl).
Qed.

(** The digits of a printed number: at most as many as its size needs. *)
Lemma hex_fuel_digits n k z : (1 <= k <= n)%nat -> 0 <= z < 16 ^ Z.of_nat k ->
  exists ds, digits_run 16 (hex_fuel n z) = (ds, "") /\ (1 <= length ds <= k)%nat /\
    fold_left (fun acc d => acc * 16 + d) ds 0 = z /\
    all_chars (fun c => bool_decide (is_Some (to_digit 16 c))) (hex_fuel n z) = true.
Proof.
  revert k z. induction n as [|n IH]; intros k z Hk Hz; [lia|]. cbn [hex_fuel].
  assert (0 <= z mod 16 < 16) as Hm by (apply Z.mod_pos_bound; lia).
  assert (is_Some (to_digit 16 (hex_digit (z mod 16)))) as Hs.
  { rewrite hex_radix by exact Hm. by eexists. }
  destruct (Z.ltb_spec z 16) as [Hlt | Hge].
  - exists [z]. cbn [String.append digits_run all_chars]. rewrite bool_decide_eq_true_2 by done.
    rewrite Z.mod_small by lia. rewrite hex_radix by lia. split_and!; cbn; try done; lia.
  - assert (1 < k)%nat as Hk1.
    { destruct (decide (1 < k)%nat); [done|]. replace k with 1%nat in Hz by lia. cbn in Hz. lia. }
    destruct (IH (k - 1)%nat (z / 16)) as (ds & H1 & H2 & H3 & H4); [lia| |].
    { split; [apply Z.div_pos; lia|]. apply Z.div_lt_upper_bound; [lia|].
      rewrite <- Z.pow_succ_r by lia. replace (Z.succ (Z.of_nat (k - 1))) with (Z.of_nat k) by lia. apply Hz. }
    exists (ds ++ [z mod 16]). split_and!.
    + apply digits_run_snoc; [done | by apply hex_radix].
    + rewrite length_app. cbn. lia.
    + rewrite length_app. cbn. lia.
    + rewrite fold_left_app, H3. cbn. pose proof (Z.div_mod z 16). lia.
    + rewrite all_chars_app, H4. cbn. by rewrite bool_decide_eq_true_2.
Qed.

Lemma read_hex_print z s : u16 z -> group_end s ->
  read_number 16 4 true 65536 (print_hex z +:+ s) = Some (z, s).
Proof.
  intros Hz Hs. unfold uN in Hz. change (2 ^ 16) with 65536 in Hz. unfold read_number.
  destruct (hex_fuel_digits 16 4 z) as (ds & H1 & H2 & H3 & H4); [lia | done |].
  unfold print_hex. rewrite digits_run_app; [|done|].
  - rewrite H1. cbn [fst]. rewrite H3. cbn [negb andb].
    rewrite (proj2 (Nat.eqb_neq (length ds) 0)), (proj2 (Nat.ltb_ge 4 (length ds))) by lia. cbn [orb].
    by rewrite (proj2 (Z.ltb_lt z 65536)) by lia.
  - destruct s as [|c s]; [done|]. cbn in Hs. by subst c.
Qed.

(** Groups, each but the first after a colon. *)
Fixpoint groups_text (first : bool) (l : list Z) : string :=
  match l with
  | [] => ""
  | g :: l => (if first then "" else ":") +:+ print_hex g +:+ groups_text false l
  end.

Lemma fmt_segments_text l : fmt_segments l = groups_text true l.
Proof.
  unfold fmt_segments. destruct l as [|g l]; [done|]. cbn [groups_text String.append].
  revert g. induction l as [|h l IH]; intros g; [cbn; by rewrite str_app_nil_r|].
  change (join ":" (map print_hex (g :: h :: l)))
    with (print_hex g +:+ ":" +:+ join ":" (map print_hex (h :: l))).
  by rewrite IH.
Qed.

Lemma groups_text_end l s : group_end s -> group_end (groups_text false l +:+ s).
Proof. by destruct l. Qed.

(** Where the groups stop: at the end, or at a double colon. *)
Definition groups_stop (s : string) : Prop :=
  match s with EmptyString => True | String c s' => c = ":"%char /\ exists r, s' = String ":" r end.

Lemma groups_stop_end s : groups_stop s -> group_end s.
Proof. destruct s; [done|]. by intros [-> _]. Qed.

Lemma read_sep_stop first s :
  groups_stop s -> read_sep first (read_number 16 4 true 65536) s = None.
Proof.
  destruct s as [|c s]; [by destruct first|]. intros (-> & r & ->). by destruct first.
Qed.

Lemma read_sep_ipv4_no_dot first s :
  no_char "." s = true -> read_sep first read_ipv4_addr s = None.
Proof.
  intros H. destruct first; cbn [read_sep]; [by apply read_ipv4_no_dot|].
  unfold read_given_char. destruct s as [|c s]; [done|]. cbn [strip_prefix].
  destruct (Ascii.eqb ":" c); [|done]. cbn [mbind option_bind]. apply read_ipv4_no_dot.
  unfold no_char in *. cbn [all_chars] in H. by apply andb_true_iff in H as [_ H].
Qed.

Lemma read_groups_no_ipv4 n first s : no_char "." s = true ->
  read_groups (S n) first s =
  match read_sep first (read_number 16 4 true 65536) s with
  | Some (g, s) => let '(gs, v4, s) := read_groups n false s in (g :: gs, v4, s)
  | None => ([], false, s)
  end.
Proof.
  intros H. cbn [read_groups]. rewrite read_sep_ipv4_no_dot by done.
  by destruct ((1 <=? n)%nat).
Qed.

Lemma print_hex_no_dot x : no_char "." (print_hex x) = true.
Proof.
  unfold print_hex. generalize 16%nat. intros n. revert x.
  induction n as [|n IH]; intros x; cbn [hex_fuel]; [done|].
  rewrite no_char_app. apply andb_true_iff. split; [by case_bool|].
  unfold no_char. cbn [all_chars]. rewrite andb_true_r.
  assert (0 <= x mod 16 < 16) as Hm by (apply Z.mod_pos_bound; lia).
  generalize dependent (x mod 16). intros y Hy. range_exhaust y 0 16.
Qed.

Lemma groups_no_dot b k : no_char "." (groups_text b k) = true.
Proof.
  revert b. induction k as [|x k IH]; intros b; cbn [groups_text]; [done|].
  rewrite !no_char_app, print_hex_no_dot, IH. by destruct b.
Qed.

Lemma read_groups_print limit first l s :
  Forall u16 l -> (length l <= limit)%nat -> groups_stop s -> no_char "." s = true ->
  read_groups limit first (groups_text first l +:+ s) = (l, false, s).
Proof.
  intros Hl. revert limit first. induction Hl as [|g l Hg Hl IH]; intros limit first Hlim Hs Hd.
  { cbn [groups_text String.append]. destruct limit as [|n]; [done|].
    by rewrite read_groups_no_ipv4, read_sep_stop by done. }
  destruct limit as [|n]; [cbn in Hlim; lia|].
  assert (no_char "." (groups_text first (g :: l) +:+ s) = true) as Hnd.
  { by rewrite no_char_app, Hd, groups_no_dot. }
  rewrite read_groups_no_ipv4 by done.
  cbn [groups_text]. rewrite !str_app_assoc.
  assert (read_sep first (read_number 16 4 true 65536)
    ((if first then "" else ":") +:+ print_hex g +:+ groups_text false l +:+ s) =
    Some (g, groups_text false l +:+ s)) as ->.
  { destruct first; cbn [read_sep String.append].
    - apply read_hex_print; [done|]. apply groups_text_end. by apply groups_stop_end.
    - unfold read_given_char. cbn [strip_prefix]. rewrite Ascii.eqb_refl. cbn [mbind option_bind].
      apply read_hex_print; [done|]. apply groups_text_end. by apply groups_stop_end. }
  rewrite IH; [done | cbn in Hlim; lia | done | done].
Qed.

(** The run of zeros that the printer compresses is one. *)
Definition zeros_at (full : list Z) (r : nat * nat) : Prop :=
  (r.1 + r.2 <= length full)%nat /\ take r.2 (drop r.1 full) = replicate r.2 0.

Lemma zeros_at_snoc full st n i :
  zeros_at full (st, n) -> (st + n = i)%nat -> full !! i = Some 0 -> zeros_at full (st, S n).
Proof.
  intros [H1 H2] <- Hi. cbn in *. pose proof (lookup_lt_Some _ _ _ Hi). split; cbn; [lia|].
  rewrite (take_S_r _ _ 0) by by rewrite lookup_drop.
  by rewrite H2, <- replicate_S_end.
Qed.

Lemma zero_run_spec full l i cur longest :
  drop i full = l -> (i <= length full)%nat ->
  zeros_at full cur -> (cur.2 <> 0%nat -> (cur.1 + cur.2 = i)%nat) -> zeros_at full longest ->
  zeros_at full (zero_run i cur longest l).
Proof.
  revert i cur longest. induction l as [|z l IH]; intros i cur longest Hd Hi Hc Hci Hl; [done|].
  assert (full !! i = Some z) as Hz.
  { rewrite <- (Nat.add_0_r i), <- lookup_drop, Hd. done. }
  assert (drop (S i) full = l) as Hd'.
  { replace (S i) with (i + 1)%nat by lia. rewrite <- drop_drop, Hd. done. }
  pose proof (lookup_lt_Some _ _ _ Hz).
  cbn [zero_run]. destruct (Z.eqb_spec z 0) as [-> | Hne].
  - assert (zeros_at full (if (cur.2 =? 0)%nat then i else cur.1, S cur.2)) as Hc'.
    { destruct cur as [st n]. cbn in *. destruct (Nat.eqb_spec n 0) as [-> | Hn].
      - apply (zeros_at_snoc _ i 0 i); [split; cbn; [lia | done] | lia | done].
      - apply (zeros_at_snoc _ st n i); auto. }
    apply IH; try done.
    + cbn. intros _. destruct (Nat.eqb_spec cur.2 0); lia.
    + by case_bool.
  - apply IH; try done. split; cbn; [lia | done].
Qed.

(** The plain form: eight groups. *)
Lemma parse_v6_plain l : length l = 8%nat -> Forall u16 l ->
  parse_ip (fmt_segments l) = Some (V6 l).
Proof.
  intros Hlen Hl. rewrite fmt_segments_text. unfold parse_ip, read_ipv6_addr.
  rewrite read_ipv4_no_dot by apply groups_no_dot.
  rewrite <- (str_app_nil_r (groups_text true l)), read_groups_print by (done || lia).
  by rewrite Hlen.
Qed.

Lemma zero_run_split l st n : zeros_at l (st, n) ->
  l = take st l ++ replicate n 0 ++ drop (st + n) l.
Proof.
  intros [H1 H2]. cbn in *. rewrite <- H2, <- drop_drop, take_drop, take_drop. done.
Qed.

(** The compressed form. *)
Lemma parse_v6_compressed l st n : length l = 8%nat -> Forall u16 l ->
  zeros_at l (st, n) -> (1 < n)%nat ->
  parse_ip (fmt_segments (take st l) +:+ "::" +:+ fmt_segments (drop (st + n) l)) = Some (V6 l).
Proof.
  intros Hlen Hl Hz Hn. pose proof Hz as [Hb _]. cbn in Hb.
  rewrite !fmt_segments_text. unfold parse_ip, read_ipv6_addr.
  assert (no_char "." ("::" +:+ groups_text true (drop (st + n) l)) = true) as Hd.
  { by rewrite no_char_app, groups_no_dot. }
  rewrite read_ipv4_no_dot by (by rewrite no_char_app, groups_no_dot).
  rewrite read_groups_print;
    [|by apply Forall_take | rewrite length_take; lia | split; [done | by eexists] | done].
  rewrite length_take, Hlen, (Nat.min_l st 8) by lia.
  rewrite (proj2 (Nat.eqb_neq st 8)) by lia.
  unfold read_given_char. cbn [String.append strip_prefix].
  rewrite Ascii.eqb_refl. cbn [mbind option_bind strip_prefix]. rewrite Ascii.eqb_refl.
  cbn [mbind option_bind].
  rewrite <- (str_app_nil_r (groups_text true _)), read_groups_print;
    [|by apply Forall_drop | rewrite length_drop; lia | done | done].
  cbn. rewrite length_drop, Hlen. do 2 f_equal.
  rewrite (zero_run_split _ _ _ Hz) at 3. do 2 f_equal. f_equal. lia.
Qed.

(** The form of an IPv4-mapped address. *)
Lemma parse_v6_mapped g h : u16 g -> u16 h ->
  parse_ip ("::ffff:" +:+ print_ipv4 (g / 256) (g mod 256) (h / 256) (h mod 256)) =
  Some (V6 [0; 0; 0; 0; 0; 0xffff; g; h]).
Proof.
  unfold uN. change (2 ^ 16) with 65536. intros Hg Hh.
  assert (read_sep false read_ipv4_addr
    (":" +:+ print_ipv4 (g / 256) (g mod 256) (h / 256) (h mod 256)) =
    Some ([g / 256; g mod 256; h / 256; h mod 256], "")) as H4.
  { cbn [read_sep]. unfold read_given_char. rewrite strip_prefix_app. cbn [mbind option_bind].
    unfold read_ipv4_addr, print_ipv4. rewrite <- (str_app_nil_r (print_uint (h mod 256))).
    rewrite read_octet_print by (done || (Z.to_euclidean_division_equations; lia)). cbn [mbind option_bind].
    do 3 (rewrite read_dot_octet_print by (done || (Z.to_euclidean_division_equations; lia)); cbn [mbind option_bind]). done. }
  set (v4 := print_ipv4 _ _ _ _) in *. clearbody v4.
  assert (forall n first s, read_groups (S n) first s =
    match (if (1 <=? n)%nat then read_sep first read_ipv4_addr s else None) with
    | Some ([a; b; c; d], s) => ([a * 256 + b; c * 256 + d], true, s)
    | _ => match read_sep first (read_number 16 4 true 65536) s with
           | Some (g, s) => let '(gs, v4, s) := read_groups n false s in (g :: gs, v4, s)
           | None => ([], false, s)
           end
    end) as Hstep by reflexivity.
  assert (forall x, read_sep true read_ipv4_addr ("ffff" +:+ x) = None) as Hf4 by reflexivity.
  assert (forall x, read_sep true read_ipv4_addr ("::" +:+ x) = None) as Hc4 by reflexivity.
  assert (forall x, read_sep true (read_number 16 4 true 65536) ("::" +:+ x) = None) as Hc by reflexivity.
  assert (read_groups 7 true ("ffff" +:+ ":" +:+ v4) = ([0xffff; g; h], true, "")) as Hgr.
  { rewrite Hstep, Hf4. change ((1 <=? 6)%nat) with true. cbn iota.
    assert (read_sep true (read_number 16 4 true 65536) ("ffff" +:+ ":" +:+ v4) =
      Some (0xffff, ":" +:+ v4)) as -> by reflexivity. cbn iota.
    rewrite Hstep, H4. change ((1 <=? 5)%nat) with true. cbn iota.
    replace (g / 256 * 256 + g mod 256) with g by (Z.to_euclidean_division_equations; lia).
    replace (h / 256 * 256 + h mod 256) with h by (Z.to_euclidean_division_equations; lia). done. }
  assert (read_groups 8 true ("::" +:+ "ffff" +:+ ":" +:+ v4) = ([], false, "::" +:+ "ffff" +:+ ":" +:+ v4)) as Hg8.
  { rewrite Hstep, Hc4, Hc. done. }
  assert (read_ipv4_addr ("::" +:+ "ffff" +:+ ":" +:+ v4) = None) as Hi4 by apply (Hc4 ("ffff" +:+ ":" +:+ v4)).
  unfold parse_ip, read_ipv6_addr. change ("::ffff:" +:+ v4) with ("::" +:+ "ffff" +:+ ":" +:+ v4).
  rewrite Hi4, Hg8. cbn [length Nat.eqb].
  change ("::" +:+ "ffff" +:+ ":" +:+ v4) with (":" +:+ ":" +:+ "ffff" +:+ ":" +:+ v4).
  unfold read_given_char. rewrite strip_prefix_app. cbn [mbind option_bind].
  rewrite strip_prefix_app. cbn [mbind option_bind].
  change (8 - (0 + 1))%nat with 7%nat. rewrite Hgr. done.
Qed.

(** An address is read back. *)
Lemma parse_print_ip a : ip_ok a -> parse_ip (print_ip a) = Some a.
Proof.
  destruct a as [a b c d | l]; cbn [ip_ok print_ip].
  { intros (? & ? & ? & ?). by apply parse_ip_print_ipv4. }
  intros [Hlen Hl].
  assert (parse_ip (let '(start, len) := zero_run 0 (0%nat, 0%nat) (0%nat, 0%nat) l in
      if (1 <? len)%nat then
        fmt_segments (take start l) +:+ "::" +:+ fmt_segments (drop (start + len) l)
      else fmt_segments l) = Some (V6 l)) as H.
  { assert (zeros_at l (0%nat, 0%nat)) as H0 by (split; cbn; [lia | done]).
    pose proof (zero_run_spec l l 0 (0%nat, 0%nat) (0%nat, 0%nat) eq_refl ltac:(lia) H0
      ltac:(done) H0) as Hz.
    destruct (zero_run _ _ _ l) as [st n]. destruct (Nat.ltb_spec 1 n).
    - by apply parse_v6_compressed.
    - by apply parse_v6_plain. }
  unfold print_ipv6. repeat (case_match; try exact H). subst.
  all: repeat match goal with Hf : Forall _ (_ :: _) |- _ => apply Forall_cons in Hf as [? Hf] end.
  all: by apply parse_v6_mapped.
Qed.

(** What is read is an address. *)
Lemma hex_value_range c d : hex_value c = Some d -> 0 <= d < 16.
Proof.
  unfold hex_value, is_ascii_digit. intros H.
  destruct (_ && _) eqn:H1 in H; [injection H as <-; lia|].
  destruct (_ && _) eqn:H2 in H; [injection H as <-; lia|].
  destruct (_ && _) eqn:H3 in H; [injection H as <-; lia | done].
Qed.

Lemma digits_run_nonneg radix s : Forall (fun d => 0 <= d) (digits_run radix s).1.
Proof.
  induction s as [|c s IH]; cbn [digits_run]; [constructor|].
  destruct (to_digit radix c) as [d|] eqn:Hd; [|constructor].
  destruct (digits_run radix s). cbn in *. constructor; [|done].
  unfold to_digit in Hd. destruct (hex_value c) eqn:Hv; [|done]. cbn in Hd.
  apply hex_value_range in Hv. case_match; simplify_eq. lia.
Qed.

Lemma read_number_range radix n z b s v r : 0 <= radix ->
  read_number radix n z b s = Some (v, r) -> 0 <= v < b.
Proof.
  intros Hr. unfold read_number. pose proof (digits_run_nonneg radix s) as Hd.
  destruct (digits_run radix s) as [ds rest]. cbn in Hd. intros H.
  assert (forall acc, 0 <= acc -> 0 <= fold_left (fun acc d => acc * radix + d) ds acc) as Hf.
  { clear -Hd Hr. induction Hd as [|d ds Hd0 Hds IH]; intros acc Ha; cbn; [done|]. apply IH. nia. }
  specialize (Hf 0 ltac:(lia)).
  destruct ((_ || _)%bool) in H; [done|]. destruct (_ && _)%bool in H; [done|].
  destruct (Z.ltb_spec (fold_left (fun acc d => acc * radix + d) ds 0) b); simplify_eq. lia.
Qed.

Lemma read_ipv4_range s l r : read_ipv4_addr s = Some (l, r) ->
  exists a b c d, l = [a; b; c; d] /\ u8 a /\ u8 b /\ u8 c /\ u8 d.
Proof.
  assert (forall x v y, read_octet x = Some (v, y) -> u8 v) as Ho.
  { intros x v y H. apply read_number_range in H; [done | lia]. }
  assert (forall x v y, read_dot_octet x = Some (v, y) -> u8 v) as Hd.
  { intros x v y H. unfold read_dot_octet in H. destruct (read_given_char "." x); [|done].
    by apply Ho in H. }
  unfold read_ipv4_addr. intros H.
  destruct (read_octet s) as [[a s1]|] eqn:H1; [cbn [mbind option_bind] in H | done].
  destruct (read_dot_octet s1) as [[b s2]|] eqn:H2; [cbn [mbind option_bind] in H | done].
  destruct (read_dot_octet s2) as [[c s3]|] eqn:H3; [cbn [mbind option_bind] in H | done].
  destruct (read_dot_octet s3) as [[d s4]|] eqn:H4; [cbn [mbind option_bind] in H | done].
  simplify_eq. exists a, b, c, d. split_and!; eauto.
Qed.

Lemma read_sep_Some {A} first (inner : string -> option A) s x :
  read_sep first inner s = Some x -> exists t, inner t = Some x.
Proof.
  unfold read_sep. destruct first; [eauto|]. destruct (read_given_char ":" s); [|done]. eauto.
Qed.

Lemma read_groups_range n first s :
  let '(l, _, _) := read_groups n first s in (length l <= n)%nat /\ Forall u16 l.
Proof.
  revert first s. induction n as [|n IH]; intros first s; cbn [read_groups]; [done|].
  assert (match (match read_sep first (read_number 16 4 true 65536) s with
          | Some (g, s) => let '(gs, v4, s) := read_groups n false s in (g :: gs, v4, s)
          | None => ([], false, s)
          end) with (l, _, _) => (length l <= S n)%nat /\ Forall u16 l end) as Hh.
  { destruct (read_sep first (read_number 16 4 true 65536) s) as [[g s1]|] eqn:Hn; [|split; [cbn; lia | constructor]].
    apply read_sep_Some in Hn as [t Hn]. apply read_number_range in Hn; [|lia].
    specialize (IH false s1). destruct (read_groups n false s1) as [[gs v4] s2].
    destruct IH as [IH1 IH2]. split; [cbn; lia | by constructor]. }
  destruct ((1 <=? n)%nat) eqn:H1; [|exact Hh].
  destruct (read_sep first read_ipv4_addr s) as [[l s1]|] eqn:H4; [|exact Hh].
  apply read_sep_Some in H4 as [t H4]. apply read_ipv4_range in H4 as (a & b & c & d & -> & Ha & Hb & Hc & Hd).
  apply Nat.leb_le in H1. unfold uN in *. change (2 ^ 8) with 256 in *.
  split; [cbn; lia|]. change (2 ^ 16) with 65536. repeat constructor; cbn; lia.
Qed.

Lemma read_ipv6_range s l r : read_ipv6_addr s = Some (l, r) -> length l = 8%nat /\ Forall u16 l.
Proof.
  unfold read_ipv6_addr. pose proof (read_groups_range 8 true s) as Hh.
  destruct (read_groups 8 true s) as [[hd v4] s1]. destruct Hh as [Hh1 Hh2].
  destruct (Nat.eqb_spec (length hd) 8) as [He | Hne]; [by intros [= <- <-]|].
  destruct v4; [done|].
  destruct (read_given_char ":" s1) as [s2|]; cbn [mbind option_bind]; [|done].
  destruct (read_given_char ":" s2) as [s3|]; cbn [mbind option_bind]; [|done].
  pose proof (read_groups_range (8 - (length hd + 1)) true s3) as Ht.
  destruct (read_groups (8 - (length hd + 1)) true s3) as [[tl v] s4]. destruct Ht as [Ht1 Ht2].
  intros [= <- <-]. split.
  - rewrite !length_app, length_replicate. lia.
  - rewrite !Forall_app. split_and!; [done | | done]. apply Forall_replicate. done.
Qed.

Lemma parse_ip_ok s a : parse_ip s = Some a -> ip_ok a.
Proof.
  unfold parse_ip. intros H.
  destruct (read_ipv4_addr s) as [[l r]|] eqn:H4.
  - apply read_ipv4_range in H4 as (a' & b & c & d & -> & ? & ? & ? & ?).
    case_match; simplify_eq. done.
  - destruct (read_ipv6_addr s) as [[l r]|] eqn:H6; [|done]. apply read_ipv6_range in H6.
    case_match; simplify_eq. done.
Qed.

Lemma print_uint_word z : is_word (print_uint z) = true.
Proof.
  apply graph_word.
  - unfold print_uint. by destruct (print_fuel_cons 19 z) as (c & r & -> & _).
  - eapply all_chars_impl; [|apply print_uint_digits]. apply digit_graph.
Qed.
