(* ===== verification/SipUtils.v ===== *)
(** SIP helpers (src/src/sip/utils.rs): random identifiers, with the random
    number given, and the detection of a To tag outside angle brackets. *)
From S2P Require Import Prelude RustStr NetAddr.

Definition new_branch (r : Z) : string := "z9hG4bK" +:+ hex_padded 16 r.
Definition new_call_id (r : Z) : string := hex_padded 16 r +:+ "@hikari-sip".
Definition new_tag (r : Z) : string := hex_padded 8 r.

Definition param_is_nonempty_tag (param : string) : bool :=
  match split_once "=" param with
  | Some (name, value) => eq_ignore_ascii_case name "tag" && negb (String.eqb value "")
  | None => false
  end.

(** The text between the first opening bracket and the next closing one. *)
Definition bracketed (s : string) : option string :=
  match split_once "<" s with
  | Some (_, after) => fst <$> split_once ">" after
  | None => None
  end.

(** The loop of [has_to_tag]: the bracket depth ([i32]; a header is far too
    short to overflow it), whether a semicolon was seen, and the parameter
    being read (reversed). *)
Fixpoint tag_scan (depth : Z) (after_semi : bool) (cur : string) (s : string) : bool :=
  match s with
  | EmptyString => after_semi && param_is_nonempty_tag (trim (str_rev cur))
  | String c s =>
      if Ascii.eqb c "<" then tag_scan (depth + 1) after_semi (String c cur) s
      else if Ascii.eqb c ">" then tag_scan (depth - 1) after_semi (String c cur) s
      else if Ascii.eqb c ";" && (depth =? 0) then
        if after_semi && param_is_nonempty_tag (trim (str_rev cur)) then true
        else tag_scan depth true EmptyString s
      else tag_scan depth after_semi (String c cur) s
  end.
Definition has_to_tag (value : string) : bool := tag_scan 0 false EmptyString value.

Example has_to_tag_examples :
  has_to_tag "<sip:dest@sabiden>;tag=abc123" = true /\
  has_to_tag "<sip:user;tag=x@host>" = false /\
  has_to_tag "sip:a@b;TAG=1" = true /\ has_to_tag "<sip:a>;tag=" = false.
Proof. repeat split. Qed.

(** ** Appending a tag *)

(** The bracket depth at the end of a string. *)
Fixpoint depth_after (d : Z) (s : string) : Z :=
  match s with
  | EmptyString => d
  | String c s =>
      depth_after (if Ascii.eqb c "<" then d + 1 else if Ascii.eqb c ">" then d - 1 else d) s
  end.

(** Some spellings of the parameter name. *)
Definition tag_names : list string := ["tag"; "Tag"; "TAG"].

Lemma trimmed_tag name t :
  In name tag_names -> trimmed t -> t <> "" -> trimmed (name +:+ "=" +:+ t).
Proof.
  intros Hn [_ Ht] Hne.
  assert (forall x y, strip_ws_rev x = None -> x <> "" ->
    strip_ws_rev (x +:+ (str_rev "=" +:+ str_rev name) +:+ y) = None) as Hx.
  { clear Ht Hne. intros x y Hx Hne.
    destruct Hn as [<- | [<- | [<- | []]]]; destruct x as [|a [|b [|c x]]]; cbn in *; try done;
      repeat case_match; try done. }
  split; [by destruct Hn as [<- | [<- | [<- | []]]]|].
  rewrite !str_rev_app, str_app_assoc, <- (str_app_nil_r (str_rev "=" +:+ str_rev name)).
  apply Hx; [done|]. intros He. apply Hne. by rewrite <- (str_rev_invol t), He.
Qed.

(** A tag appended after balanced brackets is found. *)
Lemma has_to_tag_append name s t :
  In name tag_names -> depth_after 0 s = 0 -> trimmed t -> t <> "" -> no_char ";" t = true ->
  no_char "<" t = true -> no_char ">" t = true ->
  has_to_tag (s +:+ ";" +:+ name +:+ "=" +:+ t) = true.
Proof.
  intros Hn Hd Ht Hne H1 H2 H3. unfold has_to_tag.
  assert (forall u d cur, no_char ";" u = true -> no_char "<" u = true -> no_char ">" u = true ->
    tag_scan d true cur u = param_is_nonempty_tag (trim (str_rev cur +:+ u))) as Hrun.
  { clear. induction u as [|c u IH]; intros d cur Ha Hb Hc; cbn [tag_scan].
    - by rewrite str_app_nil_r.
    - unfold no_char in *. cbn [all_chars] in *. apply andb_true_iff in Ha as [Ha Ha'], Hb as [Hb Hb'], Hc as [Hc Hc'].
      rewrite (Ascii.eqb_sym c "<"), (Ascii.eqb_sym c ">"), (Ascii.eqb_sym c ";").
      destruct (Ascii.eqb "<" c); [done|]. destruct (Ascii.eqb ">" c); [done|].
      destruct (Ascii.eqb ";" c); [done|]. cbn [andb]. rewrite IH by done.
      rewrite str_rev_cons, str_app_assoc. done. }
  pose proof (trimmed_tag name t Hn Ht Hne) as Htt.
  assert (tag_scan 0 true "" (name +:+ "=" +:+ t) = true) as Hend.
  { rewrite Hrun by (rewrite !no_char_app, ?H1, ?H2, ?H3; by destruct Hn as [<- | [<- | [<- | []]]]).
    change (str_rev "" +:+ ?x) with x. rewrite trim_id by done. unfold param_is_nonempty_tag.
    change ("=" +:+ t) with (String "=" t).
    rewrite split_once_no_char by (by destruct Hn as [<- | [<- | [<- | []]]]).
    rewrite (proj2 (String.eqb_neq t "")) by done.
    by destruct Hn as [<- | [<- | [<- | []]]]. }
  assert (forall u d sem cur, depth_after d u = 0 ->
    tag_scan d sem cur (u +:+ ";" +:+ name +:+ "=" +:+ t) = true) as Hgo; [|by apply Hgo].
  induction u as [|c u IH]; intros d sem cur Hu.
  - cbn in Hu. subst d. change ("" +:+ ";" +:+ ?x) with (String ";" x).
    cbn [tag_scan]. change (Ascii.eqb ";" "<") with false. change (Ascii.eqb ";" ">") with false.
    change (Ascii.eqb ";" ";" && (0 =? 0)) with true. cbn iota.
    destruct (sem && _); [done | exact Hend].
  - cbn [String.append tag_scan depth_after] in *.
    destruct (Ascii.eqb c "<"); [by apply IH|]. destruct (Ascii.eqb c ">"); [by apply IH|].
    destruct (Ascii.eqb c ";" && (d =? 0)); [|by apply IH].
    destruct (sem && _); [done | by apply IH].
Qed.
