(* ===== verification/Transaction.v ===== *)
(** The SIP transaction layer (src/src/sip/transaction.rs): transaction
    identifiers, the Via rewriting of responses, the client and server state
    machines with their timers, the transaction table that dispatches
    responses, the ACK for non-2xx responses and the response skeleton.

    A machine is a step function on inputs (a response, a timer that fires, a
    closed channel); the schedule of inputs is explicit, with its instants, so
    that the properties quantify over every interleaving of messages and
    timers. Sending on the socket is an action in the trace. *)
From S2P Require Import Prelude RustStr Utf8 NetAddr SipMessage SipUtils.

Definition T1 : Z := from_millis 500.
Definition T2 : Z := from_secs 4.
Definition T4 : Z := from_secs 5.
Definition TIMER_B : Z := from_millis (64 * 500).
Definition TIMER_F : Z := from_millis (64 * 500).
Definition TIMER_D : Z := from_secs 32.
Definition TIMER_K : Z := T4.
Definition TIMER_H : Z := from_millis (64 * 500).
Definition TIMER_I : Z := T4.
Definition TIMER_J : Z := from_millis (64 * 500).
Definition MAX_UDP_DATAGRAM_SIZE : Z := 65535.

(** ** Transaction identifiers *)

Record TransactionId := mkTid { branch : string; sent_by : string; tid_method : SipMethod }.

#[export] Instance TransactionId_eq_dec : EqDecision TransactionId.
Proof. solve_decision. Defined.

Inductive TidError :=
  | NoVia | NoBranch | NoSentBy | NoCSeq | NoCSeqMethod | BadMethod.

(** The value of the last [branch] parameter. *)
Fixpoint last_branch (parts : list string) (acc : string) : string :=
  match parts with
  | [] => acc
  | part :: parts =>
      last_branch parts
        (match strip_prefix "branch=" (trim part) with
         | Some rest => trim_char DQUOTE rest
         | None => acc
         end)
  end.

Definition via_sent_by (part : string) : string :=
  match split_once " " (trim part) with
  | Some (_, r) => trim r
  | None => ""
  end.

Definition parse_via (via : string) : outcome TidError (string * string) :=
  match split_on ";" via with
  | [] => Err NoBranch
  | head :: params =>
      let sent_by := via_sent_by head in
      let branch := last_branch params "" in
      ensure (negb (String.eqb branch "")) NoBranch ;;
      ensure (negb (String.eqb sent_by "")) NoSentBy ;;
      Ok (branch, sent_by)
  end.

Definition from_request (req : SipRequest) : outcome TidError TransactionId :=
  via ← ok_or (hdr_get (req_headers req) "via") NoVia;
  '(branch, sent_by) ← parse_via via;
  Ok (mkTid branch sent_by (req_method req)).

Definition from_response (resp : SipResponse) : outcome TidError TransactionId :=
  via ← ok_or (hdr_get (resp_headers resp) "via") NoVia;
  '(branch, sent_by) ← parse_via via;
  cseq ← ok_or (hdr_get (resp_headers resp) "cseq") NoCSeq;
  method_str ← ok_or (nth_error (split_whitespace cseq) 1) NoCSeqMethod;
  method ← ok_or (method_from_str method_str) BadMethod;
  Ok (mkTid branch sent_by method).

(** ** The Via of a response *)

Definition via_sent_by_host (sent_by : string) : string :=
  let s := trim sent_by in
  if starts_with "[" s then
    match split_once "]" s with
    | Some (a, _) => a +:+ "]"
    | None => s
    end
  else
    match rsplit_once ":" s with
    | Some (host, port) =>
        if all_chars is_ascii_digit port && negb (String.eqb port "") then host else s
    | None => s
    end.

Definition ip_for_via_host (addr : SocketAddr) : string :=
  match ip addr with
  | V4 a b c d => print_ipv4 a b c d
  | V6 l => "[" +:+ print_ipv6 l +:+ "]"
  end.

(** Replaces the first parameter that [p] accepts. *)
Fixpoint replace_first (p : string -> bool) (v : string) (l : list string) : option (list string) :=
  match l with
  | [] => None
  | x :: l => if p x then Some (v :: l) else l' ← replace_first p v l; Some (x :: l')
  end.

Definition is_param (name : string) (p : string) : bool :=
  String.eqb p name || starts_with (name +:+ "=") p.

Definition apply_rport_to_via_for_response (via : string) (remote : SocketAddr) : string :=
  let trimmed := trim via in
  match split_on ";" trimmed with
  | [] => via
  | h :: rest =>
      let head := trim h in
      let sent_by := match split_once " " head with Some (_, r) => trim r | None => "" end in
      let sent_by_host := via_sent_by_host sent_by in
      let remote_ip_for_via := ip_for_via_host remote in
      let params := map trim rest in
      let has_rport := existsb (is_param "rport") params in
      let need_received := has_rport || negb (String.eqb sent_by_host remote_ip_for_via) in
      if negb has_rport && negb need_received then via
      else
        let params :=
          if need_received then
            let received_val := "received=" +:+ print_ip (ip remote) in
            match replace_first (is_param "received") received_val params with
            | Some l => l
            | None => params ++ [received_val]
            end
          else params in
        let params :=
          if has_rport then
            let rport_val := "rport=" +:+ print_uint (sport remote) in
            default params (replace_first (is_param "rport") rport_val params)
          else params in
        head +:+ String.concat "" (map (fun p => ";" +:+ p) params)
  end.

Definition response_destination_for (via : string) (remote : SocketAddr) : SocketAddr := remote.

(** ** The ACK for a non-2xx final response *)

Inductive AckError := AckNoVia | AckNoFrom | AckNoTo | AckNoCallId | AckNoCSeq | AckBadCSeq.

Definition build_non2xx_ack (invite : SipRequest) (response : SipResponse)
  : outcome AckError SipRequest :=
  let ih := req_headers invite in
  via ← ok_or (hdr_get ih "via") AckNoVia;
  let h := hdr_set [] "Via" via in
  from ← ok_or (hdr_get ih "from") AckNoFrom;
  let h := hdr_set h "From" from in
  to ← ok_or (hdr_get (resp_headers response) "to") AckNoTo;
  let h := hdr_set h "To" to in
  call_id ← ok_or (hdr_get ih "call-id") AckNoCallId;
  let h := hdr_set h "Call-ID" call_id in
  cseq ← ok_or (hdr_get ih "cseq") AckNoCSeq;
  seq_num ← ok_or (head (split_whitespace cseq)) AckBadCSeq;
  let h := hdr_set h "CSeq" (seq_num +:+ " ACK") in
  let h := hdr_set h "Max-Forwards" (default "70" (hdr_get ih "max-forwards")) in
  let h := fold_left (fun h r => hdr_add h "Route" r) (hdr_get_all ih "route") h in
  Ok (mkRequest Ack (req_uri invite) h "").

(** ** Responses *)

(** [new_uas_to_tag], the random number given. *)
Definition new_uas_to_tag (r : Z) : string := "sabiden-" +:+ hex_padded 8 r.

(** Copies a header when the request has it. *)
Definition copy_header (from : SipHeaders) (name : string) (h : SipHeaders) : SipHeaders :=
  match hdr_get from name with
  | Some v => hdr_set h name v
  | None => h
  end.

(** The To of a response: the tag is added unless there is one. *)
Definition with_to_tag (status r : Z) (to : string) : string :=
  if negb (status =? 100) && negb (has_to_tag to)
  then to +:+ ";tag=" +:+ new_uas_to_tag r else to.
Definition copy_to (from : SipHeaders) (status r : Z) (h : SipHeaders) : SipHeaders :=
  match hdr_get from "to" with
  | Some to => hdr_set h "To" (with_to_tag status r to)
  | None => h
  end.

Definition build_response_skeleton (request : SipRequest) (status : Z) (reason : string) (r : Z)
  : SipResponse :=
  let rh := req_headers request in
  let h := copy_header rh "Via" [] in
  let h := copy_header rh "From" h in
  let h := copy_to rh status r h in
  let h := copy_header rh "Call-ID" h in
  let h := copy_header rh "CSeq" h in
  let h := fold_left (fun h rr => hdr_add h "Record-Route" rr) (hdr_get_all rh "record-route") h in
  let h := copy_header rh "Timestamp" h in
  mkResponse status reason h "".

Definition reason_text (err : ParseError) : string :=
  match err with
  | Empty => "empty"
  | NoCrlfCrlf => "no-crlfcrlf"
  | Truncated _ _ => "content-length-truncated"
  | DuplicateContentLength _ => "duplicate-content-length"
  | NonNumericContentLength _ => "non-numeric-content-length"
  | MalformedRequestLine _ => "malformed-request-line"
  | BadStatusCode _ => "bad-status-code"
  | UnknownMethod _ => "unknown-method"
  end.

(** [try_send_400_bad_request]: the response sent to [remote], if any. *)
Definition bad_request_response (data : string) (remote : SocketAddr) (err : ParseError) (r : Z)
  : option SipResponse :=
  skel ← extract_request_skeleton_for_400 data;
  let dummy_req := mkRequest (sk_method skel) (sk_uri skel) (sk_headers skel) "" in
  let resp := build_response_skeleton dummy_req 400 "Bad Request" r in
  let h := resp_headers resp in
  let h :=
    match hdr_get h "via" with
    | Some via =>
        if negb (contains_str "received=" via)
        then hdr_set h "Via" (via +:+ ";received=" +:+ print_ip (ip remote))
        else h
    | None => h
    end in
  let h := hdr_set h "Reason" ("SIP;cause=400;text=" +:+ String DQUOTE (reason_text err +:+ String DQUOTE "")) in
  Some (mkResponse (status_code resp) (reason resp) h "").

(** What [recv_loop] does with a datagram. *)
Inductive recv_action :=
  | Dispatch (resp : SipResponse)
  | ToUser (req : SipRequest)
  | Reply (resp : SipResponse)
  | Drop.

Definition is_ascii_ws (c : ascii) : bool :=
  (code c =? 9) || (code c =? 10) || (code c =? 12) || (code c =? 13) || (code c =? 32).

Definition recv_datagram (data : string) (remote : SocketAddr) (r : Z) : recv_action :=
  match parse_message_classified data with
  | Ok (Response resp) => Dispatch resp
  | Ok (Request req) => ToUser req
  | Err e =>
      if all_chars is_ascii_ws data then Drop
      else if is_header_recoverable e then
        match bad_request_response data remote e r with
        | Some resp => Reply resp
        | None => Drop
        end
      else Drop
  | Panic => Drop
  end.

(** ** The client machine *)

Inductive ClientState := Calling | Trying | Proceeding | Completed | Terminated.

#[export] Instance ClientState_eq_dec : EqDecision ClientState.
Proof. solve_decision. Defined.

Record ClientTx := mkClient {
  ct_request : SipRequest;
  ct_state : ClientState;
  ct_interval : Z;
  ct_retx_at : Z;
  ct_deadline : Z
}.

Definition is_invite (r : SipRequest) : bool := bool_decide (req_method r = Invite).

Inductive client_action := SendRequest | SendAck (ack : string).

(** The end of [run], with whether an absorber task was left behind. *)
Inductive client_result :=
  | GotResponse (resp : SipResponse) (absorber : bool)
  | TimedOut
  | LayerStopped
  | SendFailed.

(** What the [select!] loop waits for; [sent] is the result of [send_to]. *)
Inductive client_input :=
  | CResponse (resp : SipResponse)
  | CRetransmit (sent : bool)
  | CTimeout
  | CClosed.

(** The state after the first transmission, at instant [now]. *)
Definition client_start (req : SipRequest) (now : Z) : ClientTx :=
  let inv := is_invite req in
  mkClient req (if inv then Calling else Trying) T1 (now + T1)
    (now + if inv then TIMER_B else TIMER_F).

(** The longest [Duration], where [saturating_mul] stops. *)
Definition duration_max : Z := from_secs (2 ^ 64) - 1.
Definition double (d : Z) : Z := Z.min (2 * d) duration_max.

Definition client_timeout (c : ClientTx) : Z :=
  if is_invite (ct_request c) then TIMER_B else TIMER_F.

Definition client_step (c : ClientTx) (now : Z) (i : client_input)
  : list client_action * (ClientTx + client_result) :=
  let inv := is_invite (ct_request c) in
  match i with
  | CClosed => ([], inr LayerStopped)
  | CTimeout => ([], inr TimedOut)
  | CResponse resp =>
      let code := status_code resp in
      if (100 <=? code) && (code <? 200) then
        if inv then
          ([], inl (mkClient (ct_request c) Proceeding (ct_interval c)
                      (now + client_timeout c) (ct_deadline c)))
        else
          ([], inl (mkClient (ct_request c) Proceeding T2 (now + T2) (ct_deadline c)))
      else if inv && ((300 <=? code) && (code <? 700)) then
        match build_non2xx_ack (ct_request c) resp with
        | Ok ack => ([SendAck (request_to_bytes ack)], inr (GotResponse resp true))
        | _ => ([], inr (GotResponse resp false))
        end
      else ([], inr (GotResponse resp false))
  | CRetransmit sent =>
      if inv && negb (bool_decide (ct_state c = Calling)) then
        ([], inl (mkClient (ct_request c) (ct_state c) (ct_interval c)
                    (now + client_timeout c) (ct_deadline c)))
      else if negb sent then ([SendRequest], inr SendFailed)
      else
        let interval :=
          if inv then double (ct_interval c) else Z.min (double (ct_interval c)) T2 in
        ([SendRequest],
         inl (mkClient (ct_request c) (ct_state c) interval (now + interval) (ct_deadline c)))
  end.

(** A timer input is possible once its instant has come. *)
Definition client_enabled (c : ClientTx) (now : Z) (i : client_input) : Prop :=
  match i with
  | CRetransmit _ => ct_retx_at c <= now
  | CTimeout => ct_deadline c <= now
  | _ => True
  end.

(** Runs: the inputs come in the order of their instants, and none later than
    the deadline (whose timer then ends the run). This takes the executor to wake
    the task when a timer is due: a task woken so late that both its timers are
    ready picks one of them at random ([select!]), and could send once more. *)
Inductive client_run : ClientTx -> Z -> list client_action -> ClientTx + client_result -> Prop :=
  | cr_here c t : client_run c t [] (inl c)
  | cr_end c t now i acts res :
      t <= now <= ct_deadline c -> client_enabled c now i ->
      client_step c now i = (acts, inr res) ->
      client_run c t acts (inr res)
  | cr_next c t now i acts c' acts' res :
      t <= now <= ct_deadline c -> client_enabled c now i ->
      client_step c now i = (acts, inl c') ->
      client_run c' now acts' res ->
      client_run c t (acts ++ acts') res.

(** The absorber task of [spawn_completed_absorber]: every final response it
    sees is answered by the same ACK, until Timer D. *)
Inductive absorber_input := AResponse (resp : SipResponse) | AClosed | ATimerD.

Definition absorber_step (ack : string) (i : absorber_input) : list client_action * bool :=
  match i with
  | AResponse resp => (if 200 <=? status_code resp then [SendAck ack] else [], true)
  | AClosed | ATimerD => ([], false)
  end.

(** [send_request]: whether the table entry is dropped when [run] ends; the
    absorber is trusted to do it after a 300-699 answer to an INVITE. *)
Definition drops_entry (invite : bool) (res : client_result) : bool :=
  match res with
  | GotResponse resp _ =>
      negb (invite && ((300 <=? status_code resp) && (status_code resp <? 700)))
  | _ => true
  end.

(** ** The transaction table *)

Inductive InviteResponseProgress := Pending | Provisional | Final.

#[export] Instance Progress_eq_dec : EqDecision InviteResponseProgress.
Proof. solve_decision. Defined.

Definition method_code (m : SipMethod) : Z + string :=
  match m with
  | Other s => inr s
  | Register => inl 0 | Invite => inl 1 | Ack => inl 2 | Bye => inl 3 | Cancel => inl 4
  | Options => inl 5 | Info => inl 6 | Notify => inl 7 | Subscribe => inl 8 | Prack => inl 9
  | Publish => inl 10 | Update => inl 11 | Message => inl 12 | Refer => inl 13
  end.
Definition method_decode (x : Z + string) : option SipMethod :=
  match x with
  | inr s => Some (Other s)
  | inl n => nth_error known_methods (Z.to_nat n)
  end.
#[export] Instance SipMethod_countable : Countable SipMethod.
Proof. apply (inj_countable method_code method_decode). by intros []. Defined.
#[export] Instance TransactionId_countable : Countable TransactionId.
Proof.
  apply (inj_countable' (fun t => (branch t, sent_by t, tid_method t))
    (fun '(b, s, m) => mkTid b s m)). by intros [].
Defined.

(** The clients with the responses queued for them, and the progress of the
    INVITE ones. *)
Record TransactionTable := mkTable {
  clients : gmap TransactionId (list SipResponse);
  provisional : gmap TransactionId InviteResponseProgress
}.

Definition create_client (t : TransactionTable) (req : SipRequest)
  : outcome TidError (TransactionId * TransactionTable) :=
  id ← from_request req;
  Ok (id, mkTable (<[id := []]> (clients t))
            (if bool_decide (tid_method id = Invite)
             then <[id := Pending]> (provisional t) else provisional t)).

Definition drop_client (t : TransactionTable) (id : TransactionId) : TransactionTable :=
  mkTable (delete id (clients t)) (delete id (provisional t)).

Definition advance (cur : InviteResponseProgress) (code : Z) : InviteResponseProgress :=
  let new_state :=
    if (100 <=? code) && (code <? 200) then Provisional
    else if 200 <=? code then Final
    else cur in
  match cur, new_state with
  | Pending, _ | Provisional, Final => new_state
  | _, _ => cur
  end.

Definition dispatch_response (t : TransactionTable) (resp : SipResponse) : TransactionTable :=
  match from_response resp with
  | Ok id =>
      mkTable
        (match clients t !! id with
         | Some q => <[id := q ++ [resp]]> (clients t)
         | None => clients t
         end)
        (match provisional t !! id with
         | Some cur => <[id := advance cur (status_code resp)]> (provisional t)
         | None => provisional t
         end)
  | _ => t
  end.

(** ** The server machine *)

Inductive ServerState := SvTrying | SvProceeding | SvCompleted | SvConfirmed | SvTerminated.

(** The background task: waiting for an ACK (Timers G and H), for Timer I, for
    Timer J, or ended. *)
Inductive server_task :=
  | TaskAck (bytes : string) (g_interval g_at h_at : Z)
  | TaskConfirmed (i_at : Z)
  | TaskStay (bytes : string) (j_at : Z)
  | TaskEnded.

Record ServerTx := mkServer {
  sx_request : SipRequest;
  sx_response_via : string;
  sx_state : ServerState;
  sx_last : option SipResponse;
  sx_task : option server_task
}.

Definition server_new (req : SipRequest) (remote : SocketAddr) : outcome TidError ServerTx :=
  id ← from_request req;
  via ← ok_or (hdr_get (req_headers req) "via") NoVia;
  Ok (mkServer req (apply_rport_to_via_for_response via remote)
        (if is_invite req then SvProceeding else SvTrying) None None).

Definition start_completed_timers (invite : bool) (last : option SipResponse) (now : Z)
  : option server_task :=
  match last with
  | None => Some TaskEnded
  | Some r =>
      let bytes := response_to_bytes r in
      Some (if invite then TaskAck bytes T1 (now + T1) (now + TIMER_H)
            else TaskStay bytes (now + TIMER_J))
  end.

(** What goes out on the socket: a response handed in by the user, or a
    repetition. *)
Inductive server_action := SvSend (code : Z) (bytes : string) | SvResend (bytes : string).

Inductive server_input :=
  | SRespond (resp : SipResponse) (sent : bool)
  | SRetransmit
  | SAck
  | STimerG | STimerH | STimerI | STimerJ.

Definition in_range3 (code lo hi : Z) : bool := (lo <=? code) && (code <=? hi).

(** [respond] as one step, at the instant at which it is over. The code awaits
    [send_to] and [write_trace] before it aborts the timer task of the response
    before; if Timer G of that task falls due in between, the task repeats its own
    response once more, as an [STimerG] ahead of this step. *)
Definition respond (s : ServerTx) (now : Z) (resp : SipResponse) (sent : bool)
  : list server_action * ServerTx :=
  let code := status_code resp in
  let resp := mkResponse code (reason resp) (hdr_set (resp_headers resp) "Via" (sx_response_via s))
                (resp_body resp) in
  let act := SvSend code (response_to_bytes resp) in
  if negb sent then ([], s)
  else
    let last := Some resp in
    let inv := is_invite (sx_request s) in
    let start := start_completed_timers inv last now in
    let keep st := mkServer (sx_request s) (sx_response_via s) st last (sx_task s) in
    let complete := mkServer (sx_request s) (sx_response_via s) SvCompleted last start in
    ([act],
     match sx_state s with
     | SvTrying =>
         if in_range3 code 100 199 then keep SvProceeding
         else if in_range3 code 200 699 then complete
         else keep SvTrying
     | SvProceeding => if in_range3 code 200 699 then complete else keep SvProceeding
     | SvCompleted => if in_range3 code 200 699 then complete else keep SvCompleted
     | st => keep st
     end).

Definition set_task (t : server_task) (s : ServerTx) : ServerTx :=
  mkServer (sx_request s) (sx_response_via s) (sx_state s) (sx_last s) (Some t).

Definition handle_retransmit (s : ServerTx) (now : Z) : list server_action * ServerTx :=
  match sx_task s with
  | Some (TaskAck bytes _ _ h_at) =>
      ([SvResend bytes], set_task (TaskAck bytes T1 (now + T1) h_at) s)
  | Some (TaskStay bytes _) => ([SvResend bytes], s)
  | Some _ => ([], s)
  | None =>
      match sx_last s with
      | Some resp => ([SvResend (response_to_bytes resp)], s)
      | None => ([], s)
      end
  end.

Definition handle_ack (s : ServerTx) (now : Z) : ServerTx :=
  if is_invite (sx_request s) then
    match sx_state s with
    | SvCompleted =>
        mkServer (sx_request s) (sx_response_via s) SvConfirmed (sx_last s)
          (match sx_task s with
           | Some (TaskAck _ _ _ _) => Some (TaskConfirmed (now + TIMER_I))
           | t => t
           end)
    | _ => s
    end
  else s.

Definition server_step (s : ServerTx) (now : Z) (i : server_input)
  : list server_action * ServerTx :=
  match i with
  | SRespond resp sent => respond s now resp sent
  | SRetransmit => handle_retransmit s now
  | SAck => ([], handle_ack s now)
  | STimerG =>
      match sx_task s with
      | Some (TaskAck bytes g _ h_at) =>
          let g := Z.min (double g) T2 in
          ([SvResend bytes], set_task (TaskAck bytes g (now + g) h_at) s)
      | _ => ([], s)
      end
  | STimerH =>
      match sx_task s with
      | Some (TaskAck _ _ _ _) => ([], set_task TaskEnded s)
      | _ => ([], s)
      end
  | STimerI =>
      match sx_task s with
      | Some (TaskConfirmed _) => ([], set_task TaskEnded s)
      | _ => ([], s)
      end
  | STimerJ =>
      match sx_task s with
      | Some (TaskStay _ _) => ([], set_task TaskEnded s)
      | _ => ([], s)
      end
  end.

(** Any sequence of inputs; the instants matter only to the timers' values. *)
Fixpoint server_run (s : ServerTx) (ins : list (Z * server_input))
  : list server_action * ServerTx :=
  match ins with
  | [] => ([], s)
  | (now, i) :: ins =>
      let '(a, s) := server_step s now i in
      let '(acts, s) := server_run s ins in
      (a ++ acts, s)
  end.

(** ** The retransmissions of a client *)

(** The gap before the [k]-th retransmission, and when it can be sent at the
    earliest after the start. *)
Fixpoint gap (inv : bool) (k : nat) : Z :=
  match k with
  | O => T1
  | S k => if inv then 2 * gap inv k else Z.min (2 * gap inv k) T2
  end.
Fixpoint earliest (inv : bool) (k : nat) : Z :=
  match k with
  | O => 0
  | S k => earliest inv k + gap inv k
  end.

Lemma gap_pos inv k : 0 < gap inv k.
Proof.
  induction k as [|k IH]; cbn; [by vm_compute|].
  destruct inv; [lia|]. assert (0 < T2) by (by vm_compute). lia.
Qed.

Lemma earliest_mono inv j k : (j <= k)%nat -> earliest inv j <= earliest inv k.
Proof.
  induction 1 as [|k Hk IH]; [lia|]. cbn. pose proof (gap_pos inv k). lia.
Qed.

(** The number of retransmissions that fit before the deadline. *)
Definition retx_limit (inv : bool) : nat := if inv then 6%nat else 10%nat.

Lemma earliest_limit inv : TIMER_B < earliest inv (S (retx_limit inv)) /\ TIMER_F = TIMER_B.
Proof. destruct inv; by vm_compute. Qed.

Lemma gap_T2 k : gap false k <= T2.
Proof. destruct k; cbn; [by vm_compute | lia]. Qed.

(** The invariant after [k] retransmissions, at instant [now]. *)
Record client_inv (start : Z) (k : nat) (now : Z) (c : ClientTx) : Prop := {
  ci_deadline : ct_deadline c = start + TIMER_B;
  ci_now : earliest (is_invite (ct_request c)) k <= now - start;
  ci_count : (k <= retx_limit (is_invite (ct_request c)))%nat;
  ci_retx : (is_invite (ct_request c) = true /\ ct_state c <> Calling) \/
            (gap (is_invite (ct_request c)) k <= ct_interval c /\
             earliest (is_invite (ct_request c)) (S k) <= ct_retx_at c - start)
}.

Definition count_sends (acts : list client_action) : nat :=
  length (List.filter (fun a => match a with SendRequest => true | _ => false end) acts).

Lemma double_ge d e : 0 < e <= duration_max -> e <= 2 * d -> e <= double d.
Proof. unfold double. lia. Qed.

Lemma client_step_sends start k t c now i acts res :
  client_inv start k t c -> t <= now <= ct_deadline c -> client_enabled c now i ->
  client_step c now i = (acts, res) ->
  exists k', (k' <= retx_limit (is_invite (ct_request c)))%nat /\
    k' = (k + count_sends acts)%nat /\
    match res with inl c' => client_inv start k' now c' /\ ct_request c' = ct_request c
    | inr _ => True end.
Proof.
  intros [Hd Hn Hc Hr] Hnow Hen. unfold client_step.
  assert (earliest (is_invite (ct_request c)) k <= now - start) as Hnow' by lia.
  destruct i as [resp | sent | |]; cbn zeta; [| | by intros [= <- <-]; exists k; cbn; lia
    | by intros [= <- <-]; exists k; cbn; lia].
  - destruct ((100 <=? status_code resp) && (status_code resp <? 200)).
    + destruct (is_invite (ct_request c)) eqn:Hi; intros [= <- <-]; exists k; cbn [count_sends];
        (split; [done|]; split; [cbn; lia|]; split; [|done]);
        constructor; cbn [ct_deadline ct_request ct_state ct_interval ct_retx_at]; rewrite ?Hi; try done.
      * left. done.
      * right. pose proof (gap_T2 k). cbn [earliest]. split; [done|]. lia.
    + destruct (is_invite (ct_request c) && ((300 <=? status_code resp) && (status_code resp <? 700)));
        [destruct (build_non2xx_ack (ct_request c) resp)|];
        intros [= <- <-]; exists k; cbn; (split; [done | split; [lia | done]]).
  - cbn in Hen. destruct (is_invite (ct_request c) && negb (bool_decide (ct_state c = Calling))) eqn:Hg.
    + intros [= <- <-]. exists k. cbn. split; [done|]. split; [lia|]. split; [|done].
      apply andb_true_iff in Hg as [Hi Hs]. apply negb_true_iff, bool_decide_eq_false in Hs.
      constructor; cbn; try done. left. done.
    + destruct Hr as [[Hi Hs] | [Hgap Hat]].
      { rewrite Hi in Hg. cbn in Hg. apply negb_false_iff, bool_decide_eq_true in Hg. done. }
      assert (S k <= retx_limit (is_invite (ct_request c)))%nat as Hk.
      { destruct (earliest_limit (is_invite (ct_request c))) as [Hlim _].
        apply Nat.nlt_ge. intros Hlt.
        pose proof (earliest_mono (is_invite (ct_request c))
          (S (retx_limit (is_invite (ct_request c)))) (S k) ltac:(lia)). lia. }
      destruct sent; cbn [negb]; intros [= <- <-]; exists (S k).
      2: { split; [done|]. split; [cbn; lia | done]. }
      split; [done|]. split; [cbn; lia|]. split; [|done].
      assert (gap (is_invite (ct_request c)) (S k) <=
        (if is_invite (ct_request c) then double (ct_interval c) else Z.min (double (ct_interval c)) T2))
        as Hgap'.
      { assert (forall inv j, (j <= 7)%nat -> gap inv j <= duration_max) as Hmax.
        { clear. intros inv j Hj. do 8 (destruct j as [|j]; [destruct inv; by vm_compute|]). lia. }
        pose proof (gap_pos (is_invite (ct_request c)) k).
        destruct (is_invite (ct_request c)) eqn:Hi; cbn [gap].
        - apply double_ge; [|lia]. split; [lia|]. apply (Hmax true (S k)). cbn in Hk. lia.
        - assert (Z.min (2 * gap false k) T2 <= double (ct_interval c)); [|lia].
          apply double_ge; [|lia]. assert (0 < T2 <= duration_max) by (by vm_compute). lia. }
      constructor; cbn [ct_deadline ct_request ct_state ct_interval ct_retx_at]; try done.
      * cbn [earliest] in *. lia.
      * right. split; [done|]. change (earliest ?b (S (S k))) with (earliest b (S k) + gap b (S k)). lia.
Qed.

Lemma count_sends_app a b : count_sends (a ++ b) = (count_sends a + count_sends b)%nat.
Proof. unfold count_sends. by rewrite List.filter_app, length_app. Qed.

Lemma client_run_sends start k t c acts res :
  client_inv start k t c -> client_run c t acts res ->
  (k + count_sends acts <= retx_limit (is_invite (ct_request c)))%nat.
Proof.
  intros Hi Hr. revert k Hi. induction Hr as [c t | c t now i acts res Ht He Hs
    | c t now i acts c' acts' res Ht He Hs _ IH]; intros k Hi.
  - cbn. destruct Hi. lia.
  - destruct (client_step_sends start k t c now i acts (inr res) Hi Ht He Hs) as (k' & H1 & -> & _). lia.
  - destruct (client_step_sends start k t c now i acts (inl c') Hi Ht He Hs) as (k' & H1 & -> & H2 & Hreq).
    specialize (IH _ H2). rewrite Hreq in IH. rewrite count_sends_app. lia.
Qed.

(** A step keeps the request, and an INVITE that has left [Calling] stays out
    of it and is not sent again. *)
Lemma client_step_keeps c now i acts c' :
  client_step c now i = (acts, inl c') -> ct_request c' = ct_request c.
Proof. unfold client_step. intros H. repeat case_match; simplify_eq; done. Qed.

Lemma client_step_silent c now i acts res :
  is_invite (ct_request c) = true -> ct_state c <> Calling ->
  client_step c now i = (acts, res) ->
  count_sends acts = 0%nat /\
  match res with inl c' => ct_state c' <> Calling | inr _ => True end.
Proof.
  unfold client_step. intros Hi Hs. rewrite Hi. rewrite (bool_decide_eq_false_2 _ Hs). cbn [andb negb].
  intros H. repeat case_match; simplify_eq; done.
Qed.

Lemma client_run_request c t acts c' :
  client_run c t acts (inl c') -> ct_request c' = ct_request c.
Proof.
  remember (inl c') as r eqn:Hr. intros H. revert Hr.
  induction H as [c t | | c t now i acts c1 acts' res Ht He Hs _ IH]; intros Hr; simplify_eq; [done|].
  rewrite IH; [|done]. by eapply client_step_keeps.
Qed.

Lemma client_run_silent c t acts res :
  is_invite (ct_request c) = true -> ct_state c <> Calling ->
  client_run c t acts res -> count_sends acts = 0%nat.
Proof.
  intros Hi Hs H. revert Hi Hs.
  induction H as [c t | c t now i acts res Ht He Hst | c t now i acts c1 acts' res Ht He Hst _ IH];
    intros Hi Hs; [done| |].
  - by destruct (client_step_silent c now i acts (inr res) Hi Hs Hst).
  - destruct (client_step_silent c now i acts (inl c1) Hi Hs Hst) as [H0 H1].
    rewrite count_sends_app, H0, IH; [done| |done]. by rewrite (client_step_keeps _ _ _ _ _ Hst).
Qed.

Lemma client_start_inv req now : client_inv now 0 now (client_start req now).
Proof.
  constructor; cbn [client_start ct_deadline ct_request ct_state ct_interval ct_retx_at].
  - by destruct (is_invite req).
  - cbn. lia.
  - lia.
  - right. cbn. destruct (is_invite req); lia.
Qed.

(** ** The repetitions of a server *)

Definition is_final (code : Z) : bool := in_range3 code 200 699.

(** Every repetition is of the last final response, or of the last response
    while no final one was sent. *)
Fixpoint resends_ok (last final : option string) (acts : list server_action) : Prop :=
  match acts with
  | [] => True
  | SvSend code b :: acts =>
      resends_ok (Some b) (if is_final code then Some b else final) acts
  | SvResend b :: acts =>
      Some b = (match final with Some f => Some f | None => last end) /\ resends_ok last final acts
  end.

Definition server_inv (s : ServerTx) (last final : option string) : Prop :=
  match sx_task s with
  | None => final = None /\ last = response_to_bytes <$> sx_last s /\
            (sx_state s = SvTrying \/ sx_state s = SvProceeding)
  | Some (TaskAck b _ _ _) => final = Some b /\ sx_state s <> SvConfirmed
  | Some (TaskStay b _) =>
      final = Some b /\ sx_state s <> SvConfirmed /\ is_invite (sx_request s) = false
  | Some _ => True
  end /\ sx_state s <> SvTerminated.

Lemma server_step_inv s now i last final :
  server_inv s last final ->
  let '(acts, s') := server_step s now i in
  exists last' final', server_inv s' last' final' /\
    (forall rest, resends_ok last' final' rest -> resends_ok last final (acts ++ rest)).
Proof.
  intros Hi. destruct i as [resp sent | | | | | |]; cbn [server_step].
  - unfold respond. destruct sent; cbn [negb]; [|exists last, final; done].
    set (r := mkResponse _ _ _ _). eexists (Some (response_to_bytes r)), _.
    split; [|intros rest Hr; exact Hr].
    destruct Hi as [Ht Hn]. unfold server_inv, is_final, start_completed_timers.
    destruct (sx_state s) eqn:Hst; try done; case_bool;
      cbn [sx_task sx_state sx_last sx_request];
      try (destruct (is_invite (sx_request s)) eqn:Hinv; cbn; by rewrite ?Hinv);
      destruct (sx_task s) as [[]|]; try done;
      try (destruct Ht as (-> & -> & Hs); try (destruct Hs; congruence));
      try (split; [split; [done|]; split; [done | auto] | done]);
      try (by destruct Ht as [_ []]); try (by destruct_and!; split_and!);
      unfold in_range3 in *; lia.
  - unfold handle_retransmit. destruct Hi as [Ht Hn].
    destruct (sx_task s) as [[b g ga ha | ia | b ja |]|] eqn:Htask.
    + exists last, final. destruct Ht as [-> Hc]. split; [done|]. intros rest Hr. done.
    + exists last, final. unfold server_inv. by rewrite Htask.
    + exists last, final. unfold server_inv. rewrite Htask. destruct Ht as [-> Hc]. done.
    + exists last, final. unfold server_inv. by rewrite Htask.
    + destruct Ht as (-> & -> & Hs). destruct (sx_last s) as [r|] eqn:Hl; cbn;
        eexists _, _; (split; [|intros rest Hr; cbn; eauto]); unfold server_inv; by rewrite Htask, Hl.
  - exists last, final. split; [|done]. unfold handle_ack.
    destruct (is_invite (sx_request s)) eqn:Hinv; [|done].
    destruct (sx_state s) eqn:Hst; try exact Hi. destruct Hi as [Ht Hn].
    unfold server_inv. cbn. destruct (sx_task s) as [[]|]; try done.
    + destruct Ht as (_ & _ & ?). congruence.
    + destruct Ht as (_ & _ & [|]); congruence.
  - destruct (sx_task s) as [[b g ga ha | | |]|] eqn:Htask;
      exists last, final; try (by split).
    destruct Hi as [Ht Hn]. rewrite Htask in Ht. destruct Ht as [-> Hc]. by split.
  - destruct (sx_task s) as [[b g ga ha | | |]|] eqn:Htask; exists last, final; try (by split).
    split; [|done]. split; [done | apply Hi].
  - destruct (sx_task s) as [[b g ga ha | | |]|] eqn:Htask; exists last, final; try (by split).
    split; [|done]. split; [done | apply Hi].
  - destruct (sx_task s) as [[b g ga ha | | |]|] eqn:Htask; exists last, final; try (by split).
    split; [|done]. split; [done | apply Hi].
Qed.

Lemma server_run_inv s ins last final :
  server_inv s last final ->
  resends_ok last final (server_run s ins).1 /\ sx_state (server_run s ins).2 <> SvTerminated.
Proof.
  revert s last final. induction ins as [|[now i] ins IH]; intros s last final Hi.
  { cbn. split; [done | apply Hi]. }
  cbn [server_run]. pose proof (server_step_inv s now i last final Hi) as Hs.
  destruct (server_step s now i) as [acts s']. destruct Hs as (last' & final' & Hi' & Hr).
  specialize (IH s' last' final' Hi'). destruct (server_run s' ins) as [acts' s'']. cbn in *.
  split; [apply Hr|]; apply IH.
Qed.

Lemma server_new_inv req remote s : server_new req remote = Ok s -> server_inv s None None.
Proof.
  unfold server_new. intros H. inv_outcome. subst s. unfold server_inv. cbn.
  destruct (is_invite req); naive_solver.
Qed.

(** ** Progress of an INVITE *)

Definition rank (p : InviteResponseProgress) : Z :=
  match p with Pending => 0 | Provisional => 1 | Final => 2 end.
Definition code_rank (code : Z) : Z :=
  if code <? 100 then 0 else if code <? 200 then 1 else 2.

Lemma advance_rank cur code : rank (advance cur code) = Z.max (rank cur) (code_rank code).
Proof.
  unfold advance, code_rank. destruct cur; case_bool; cbn; lia.
Qed.

(** The highest rank among the responses of a transaction. *)
Definition best_rank (id : TransactionId) (resps : list SipResponse) : Z :=
  foldr (fun r m => match from_response r with
                    | Ok id' => if bool_decide (id' = id) then Z.max (code_rank (status_code r)) m else m
                    | _ => m end) 0 resps.

Lemma code_rank_nonneg c : 0 <= code_rank c.
Proof. unfold code_rank. case_bool; lia. Qed.

Lemma dispatch_progress id p t resps :
  provisional t !! id = Some p ->
  exists p', provisional (fold_left dispatch_response resps t) !! id = Some p' /\
    rank p' = Z.max (rank p) (best_rank id resps).
Proof.
  revert t p. induction resps as [|r resps IH]; intros t p Hp; cbn [fold_left best_rank foldr].
  { exists p. split; [done|]. destruct p; cbn; lia. }
  fold (best_rank id resps).
  assert (0 <= best_rank id resps) as Hnn.
  { clear. induction resps as [|r l IH]; cbn; [lia|]. fold (best_rank id l) in *.
    pose proof (code_rank_nonneg (status_code r)). repeat case_match; lia. }
  destruct (from_response r) as [id'| |] eqn:Hid.
  - destruct (bool_decide (id' = id)) eqn:He.
    + apply bool_decide_eq_true in He as ->.
      destruct (IH (dispatch_response t r) (advance p (status_code r))) as (p' & Hp' & Hr).
      { unfold dispatch_response. rewrite Hid, Hp. cbn. by rewrite lookup_insert_eq. }
      exists p'. split; [done|]. rewrite Hr, advance_rank. lia.
    + apply bool_decide_eq_false in He. apply IH. unfold dispatch_response. rewrite Hid.
      cbn. destruct (provisional t !! id'); [by rewrite lookup_insert_ne | done].
  - apply IH. unfold dispatch_response. by rewrite Hid.
  - apply IH. unfold dispatch_response. by rewrite Hid.
Qed.

(** ** The Via parameters after rewriting *)

(** Replacing or adding parameters that are not [branch] keeps the branch. *)
Definition not_branch (p : string) : Prop := strip_prefix "branch=" (trim p) = None.

Lemma last_branch_app l1 l2 acc : last_branch (l1 ++ l2) acc = last_branch l2 (last_branch l1 acc).
Proof. revert acc. induction l1 as [|p l1 IH]; intros acc; cbn; [done | apply IH]. Qed.

Lemma last_branch_replace p v l l' acc :
  (forall x, p x = true -> not_branch x) -> not_branch v ->
  replace_first p v l = Some l' -> last_branch l' acc = last_branch l acc.
Proof.
  intros Hp Hv. revert l' acc. induction l as [|x l IH]; intros l' acc; cbn [replace_first]; [done|].
  destruct (p x) eqn:Hx.
  - intros [= <-]. cbn [last_branch]. unfold not_branch in *. by rewrite Hv, (Hp x Hx).
  - destruct (replace_first p v l) as [l1|]; cbn; [|done]. intros [= <-]. cbn. by apply IH.
Qed.

Lemma last_branch_trim l acc : last_branch (map trim l) acc = last_branch l acc.
Proof. revert acc. induction l as [|x l IH]; intros acc; cbn; [done|]. by rewrite trim_idemp, IH. Qed.

Lemma replace_first_forall (P : string -> Prop) p v l l' :
  P v -> Forall P l -> replace_first p v l = Some l' -> Forall P l'.
Proof.
  intros Hv Hl. revert l'. induction Hl as [|x l Hx Hl IH]; intros l'; cbn; [done|].
  destruct (p x); [intros [= <-]; by constructor|].
  destruct (replace_first p v l); cbn; [|done]. intros [= <-]. constructor; [done | by apply IH].
Qed.

Lemma concat_params head params :
  head +:+ String.concat "" (map (fun p => ";" +:+ p) params) = join ";" (head :: params).
Proof.
  revert head. induction params as [|p params IH]; intros head; [by cbn; rewrite str_app_nil_r|].
  change (join ";" (head :: p :: params)) with (head +:+ ";" +:+ join ";" (p :: params)).
  rewrite <- IH. destruct params as [|q params].
  - cbn. by rewrite str_app_nil_r.
  - cbn [map]. change (String.concat "" ((";" +:+ p) :: (";" +:+ q) :: ?l))
      with ((";" +:+ p) +:+ "" +:+ String.concat "" ((";" +:+ q) :: l)).
    by rewrite !str_app_assoc.
Qed.

Lemma not_branch_r s : not_branch (String "r" s).
Proof.
  unfold not_branch, trim. rewrite trim_start_id.
  2: { cbn [strip_ws]. change (code "r") with 114. by destruct s as [|b [|c s]]. }
  destruct (trim_end_prefix (String "r" s)) as [t Ht].
  destruct (trim_end (String "r" s)) as [|c r]; [done|]. cbn in Ht. by injection Ht as <- _.
Qed.

Lemma is_param_not_branch name x :
  (name = "received" \/ name = "rport") -> is_param name x = true -> not_branch x.
Proof.
  intros Hn Hx. unfold is_param in Hx. apply orb_true_iff in Hx as [Hx | Hx].
  - apply String.eqb_eq in Hx as ->. destruct Hn as [-> | ->]; apply not_branch_r.
  - unfold starts_with in Hx. apply bool_decide_eq_true in Hx as [r Hr].
    apply strip_prefix_Some in Hr as ->. destruct Hn as [-> | ->]; apply not_branch_r.
Qed.

Lemma no_char_trim c s : no_char c s = true -> no_char c (trim s) = true.
Proof. apply all_chars_trim. Qed.

(** [apply_rport_to_via_for_response] keeps what identifies the transaction. *)
Lemma apply_rport_parse_via via remote :
  trimmed via -> parse_via (apply_rport_to_via_for_response via remote) = parse_via via.
Proof.
  intros Ht. unfold apply_rport_to_via_for_response. rewrite trim_id by done.
  pose proof (split_on_pieces ";" via) as Hpieces.
  destruct (split_on ";" via) as [|h rest] eqn:Hs; [done|].
  set (params := map trim rest). set (has_rport := existsb (is_param "rport") params).
  set (need := has_rport || _). destruct (negb has_rport && negb need); [done|].
  set (rv := "received=" +:+ _). set (pv := "rport=" +:+ _).
  set (p1 := if need then _ else params). set (p2 := if has_rport then _ else p1).
  inversion Hpieces as [|? ? Hh Hrest]; subst.
  assert (Forall (fun p => no_char ";" p = true) params) as Hparams.
  { subst params. apply Forall_fmap. eapply Forall_impl; [exact Hrest|]. intros p. apply no_char_trim. }
  assert (no_char ";" rv = true) as Hrv.
  { subst rv. rewrite no_char_app. rewrite (addr_no_char ";" (print_ip (ip remote)) eq_refl (print_ip_addr _)). done. }
  assert (no_char ";" pv = true) as Hpv.
  { subst pv. rewrite no_char_app. by rewrite (digits_no_char ";" _ eq_refl (print_uint_digits _)). }
  assert (not_branch rv) as Hbr by apply not_branch_r.
  assert (not_branch pv) as Hbp by apply not_branch_r.
  assert (Forall (fun p => no_char ";" p = true) p1 /\ forall acc, last_branch p1 acc = last_branch rest acc)
    as [Hp1 Hl1].
  { subst p1. destruct need; [|split; [done | apply last_branch_trim]].
    destruct (replace_first (is_param "received") rv params) as [l|] eqn:Hr.
    - split; [by eapply replace_first_forall in Hr|]. intros acc.
      rewrite (last_branch_replace _ _ _ _ acc (fun x => is_param_not_branch "received" x (or_introl eq_refl)) Hbr Hr).
      apply last_branch_trim.
    - split; [apply Forall_app; by repeat constructor|]. intros acc. rewrite last_branch_app.
      cbn [last_branch]. unfold not_branch in Hbr. rewrite Hbr. apply last_branch_trim. }
  assert (Forall (fun p => no_char ";" p = true) p2 /\ forall acc, last_branch p2 acc = last_branch rest acc)
    as [Hp2 Hl2].
  { subst p2. destruct has_rport; [|done].
    destruct (replace_first (is_param "rport") pv p1) as [l|] eqn:Hr; [|done].
    change (default p1 (Some l)) with l. split; [by eapply replace_first_forall in Hr|]. intros acc.
    by rewrite (last_branch_replace _ _ _ _ acc (fun x => is_param_not_branch "rport" x (or_intror eq_refl)) Hbp Hr). }
  rewrite concat_params. unfold parse_via.
  rewrite split_on_join; [|constructor; [by apply no_char_trim | done] | done].
  rewrite Hs, Hl2. unfold via_sent_by. by rewrite trim_idemp.
Qed.

(** ** The response skeleton *)

Lemma fold_add_get_all h name l name' :
  hdr_get_all (fold_left (fun h v => hdr_add h name v) l h) name' =
  hdr_get_all h name' ++ (if same_header name name' then l else []).
Proof.
  revert h. induction l as [|v l IH]; intros h; cbn [fold_left].
  - destruct (same_header name name'); by rewrite app_nil_r.
  - rewrite IH, hdr_get_all_add, <- app_assoc. by destruct (same_header name name').
Qed.

Lemma copy_header_get_all from name h name' :
  hdr_get_all (copy_header from name h) name' =
  if same_header name name' then
    match hdr_get from name with
    | Some v => v :: tail (hdr_get_all h name')
    | None => hdr_get_all h name'
    end
  else hdr_get_all h name'.
Proof.
  unfold copy_header. destruct (hdr_get from name) as [v|].
  - apply hdr_get_all_set.
  - by destruct (same_header name name').
Qed.

Lemma copy_to_get_all from status r h name :
  hdr_get_all (copy_to from status r h) name =
  if same_header "To" name then
    match hdr_get from "to" with
    | Some to => with_to_tag status r to :: tail (hdr_get_all h name)
    | None => hdr_get_all h name
    end
  else hdr_get_all h name.
Proof.
  unfold copy_to. destruct (hdr_get from "to") as [v|].
  - apply hdr_get_all_set.
  - by destruct (same_header "To" name).
Qed.

Lemma with_to_tag_tagged status r to :
  status <> 100 -> depth_after 0 to = 0 -> has_to_tag (with_to_tag status r to) = true.
Proof.
  intros Hst Hd. unfold with_to_tag. rewrite (proj2 (Z.eqb_neq status 100)) by done. cbn [negb andb].
  destruct (has_to_tag to) eqn:Htag; cbn [negb]; [done|].
  pose proof (hex_padded_addr 8 r) as Hx. unfold new_uas_to_tag.
  apply (has_to_tag_append "tag"); try done; [by left| |..].
  - by apply (hex_suffix_trimmed "s" "abiden-").
  - by rewrite no_char_app, (addr_no_char ";" _ eq_refl Hx).
  - by rewrite no_char_app, (addr_no_char "<" _ eq_refl Hx).
  - by rewrite no_char_app, (addr_no_char ">" _ eq_refl Hx).
Qed.

(** What a response carries of its request. *)
Lemma skeleton_headers req status reason r :
  let rh := req_headers req in
  let h := resp_headers (build_response_skeleton req status reason r) in
  hdr_get_all h "via" = take 1 (hdr_get_all rh "via") /\
  hdr_get h "from" = hdr_get rh "from" /\
  hdr_get h "to" = with_to_tag status r <$> hdr_get rh "to" /\
  hdr_get h "call-id" = hdr_get rh "call-id" /\
  hdr_get h "cseq" = hdr_get rh "cseq" /\
  hdr_get_all h "record-route" = hdr_get_all rh "record-route" /\
  hdr_get h "timestamp" = hdr_get rh "timestamp".
Proof.
  cbv zeta. unfold build_response_skeleton. cbn [resp_headers].
  set (rh := req_headers req). rewrite !hdr_get_head.
  repeat (rewrite ?copy_header_get_all, ?fold_add_get_all, ?copy_to_get_all; eval_headers).
  rewrite <- ?hdr_get_head.
  change (hdr_get_all [] ?n) with (@nil string). rewrite ?app_nil_r.
  change (hdr_get rh "Via") with (hdr_get rh "via"). change (hdr_get rh "From") with (hdr_get rh "from").
  change (hdr_get rh "Call-ID") with (hdr_get rh "call-id"). change (hdr_get rh "CSeq") with (hdr_get rh "cseq").
  change (hdr_get rh "Timestamp") with (hdr_get rh "timestamp").
  rewrite (hdr_get_head rh "via").
  split; [by destruct (hdr_get_all rh "via")|].
  split; [by destruct (hdr_get rh "from")|].
  split; [by destruct (hdr_get rh "to")|].
  split; [by destruct (hdr_get rh "call-id")|].
  split; [by destruct (hdr_get rh "cseq")|].
  split; [done|]. by destruct (hdr_get rh "timestamp").
Qed.

(** ** The ACK of a non-2xx response *)

Lemma ack_headers invite resp ack :
  build_non2xx_ack invite resp = Ok ack ->
  exists via cseq n,
    hdr_get (req_headers invite) "via" = Some via /\
    hdr_get (req_headers invite) "cseq" = Some cseq /\ head (split_whitespace cseq) = Some n /\
    req_method ack = Ack /\ req_uri ack = req_uri invite /\ req_body ack = "" /\
    hdr_get_all (req_headers ack) "via" = [via] /\
    hdr_get (req_headers ack) "from" = hdr_get (req_headers invite) "from" /\
    hdr_get (req_headers ack) "call-id" = hdr_get (req_headers invite) "call-id" /\
    hdr_get (req_headers ack) "to" = hdr_get (resp_headers resp) "to" /\
    hdr_get (req_headers ack) "cseq" = Some (n +:+ " ACK") /\
    hdr_get_all (req_headers ack) "route" = hdr_get_all (req_headers invite) "route".
Proof.
  unfold build_non2xx_ack. intros H. inv_outcome. subst ack.
  cbn [req_method req_uri req_body req_headers].
  exists a, a3, a4. split; [done|]. split; [done|]. split; [done|].
  split; [done|]. split; [done|]. split; [done|].
  rewrite Heq0, Heq1, Heq2. rewrite (hdr_get_head (fold_left _ _ _)) at 1.
  rewrite !hdr_get_head. rewrite !fold_add_get_all. eval_headers. rewrite ?app_nil_r.
  repeat (rewrite !hdr_get_all_set; eval_headers).
  split; [done|]. split; [done|]. split; [done|]. split; [done|]. split; done.
Qed.

(** ** Properties *)

(** One timely repetition. *)
Lemma client_run_repeat c t at_ interval acts res :
  t <= at_ <= ct_deadline c -> ct_retx_at c = at_ -> (is_invite (ct_request c) = true -> ct_state c = Calling) ->
  interval = (if is_invite (ct_request c) then double (ct_interval c) else Z.min (double (ct_interval c)) T2) ->
  client_run (mkClient (ct_request c) (ct_state c) interval (at_ + interval) (ct_deadline c)) at_ acts res ->
  client_run c t (SendRequest :: acts) res.
Proof.
  intros Ht Hat Hst -> Hr. eapply (cr_next c t at_ (CRetransmit true) [SendRequest]); [done | | | exact Hr].
  - cbn. lia.
  - cbn [client_step]. destruct (is_invite (ct_request c)); [|done]. by rewrite Hst.
Qed.

(** The run in which nothing answers. *)
Lemma client_unanswered req start :
  client_run (client_start req start) start (replicate (if is_invite req then 6 else 10) SendRequest) (inr TimedOut).
Proof.
  unfold client_start. change (TIMER_B) with (64 * T1). change TIMER_F with (64 * T1).
  assert (T1 = 500000000) as HT by reflexivity.
  destruct (is_invite req) eqn:Hi; cbn [replicate];
    repeat (eapply client_run_repeat; cbn [ct_request ct_state ct_interval ct_retx_at ct_deadline]; rewrite ?Hi;
      [ | reflexivity | done | vm_compute; reflexivity | ]; [lia|]);
    (eapply (cr_end _ _ (start + 64 * T1) CTimeout []); cbn [ct_deadline client_enabled]; [lia | lia | done]).
Qed.


Definition sample_request (m : SipMethod) : SipRequest :=
  mkRequest m "sip:117@h" [("via", "SIP/2.0/UDP h;branch=z9hG4bK1"); ("from", "<sip:a>;tag=1");
    ("call-id", "x@y"); ("cseq", "7 INVITE")] "".


(** C38: a server transaction repeats the right response: on any sequence of
    responses, request retransmissions, ACKs and timers, every repetition
    carries the bytes of the last final response sent, or of the last response
    while no final one has been sent, also when a final response replaced
    another (486, then 487 after a CANCEL). *)
Theorem server_repeats_last_final req remote s ins :
  server_new req remote = Ok s -> resends_ok None None (server_run s ins).1.
Proof. intros Hs. by apply server_run_inv, (server_new_inv req remote). Qed.

Definition sample_remote : SocketAddr := mkAddr (V4 192 0 2 1) 5062.

Lemma server_repeats_last_final_witness :
  exists s, server_new (sample_request Invite) sample_remote = Ok s /\
    resends_ok None None (server_run s
      [(0, SRespond (mkResponse 486 "Busy Here" [] "") true); (T1, STimerG);
       (T1, SRespond (mkResponse 487 "Request Terminated" [] "") true); (T2, STimerG);
       (T2, SRetransmit); (T2, SAck); (T4, STimerI)]).1.
Proof.
  set (r := server_new (sample_request Invite) sample_remote).
  assert (exists s, r = Ok s) as [s Hs] by (vm_compute; eexists; reflexivity).
  exists s. split; [exact Hs|]. exact (server_repeats_last_final _ _ s _ Hs).
Defined.

(** The state of a server transaction never becomes [Terminated]: the
    timers only end its background task. *)
Theorem server_never_terminated req remote s ins :
  server_new req remote = Ok s -> sx_state (server_run s ins).2 <> SvTerminated.
Proof. intros Hs. by eapply server_run_inv, (server_new_inv req remote). Qed.

Lemma server_never_terminated_witness :
  exists s, server_new (sample_request Invite) sample_remote = Ok s /\
    sx_state (server_run s
      [(0, SRespond (mkResponse 486 "Busy Here" [] "") true); (TIMER_H, STimerH)]).2 <> SvTerminated.
Proof.
  set (r := server_new (sample_request Invite) sample_remote).
  assert (exists s, r = Ok s) as [s Hs] by (vm_compute; eexists; reflexivity).
  exists s. split; [exact Hs|]. exact (server_never_terminated _ _ s _ Hs).
Defined.

(** The progress that gates a CANCEL is exact and never goes back: after
    any sequence of responses it is the highest of what it was and of the
    responses of that transaction (1xx provisional, 200 and above final),
    whatever the responses of other transactions. *)
Theorem progress_is_best id p t resps :
  provisional t !! id = Some p ->
  exists p', provisional (fold_left dispatch_response resps t) !! id = Some p' /\
    rank p' = Z.max (rank p) (best_rank id resps).
Proof. apply dispatch_progress. Qed.

Lemma progress_is_best_witness :
  let id := mkTid "z9hG4bK1" "h" Invite in
  let resp code := mkResponse code "" [("via", "SIP/2.0/UDP h;branch=z9hG4bK1"); ("cseq", "7 INVITE")] "" in
  exists p', provisional (fold_left dispatch_response [resp 180; resp 486; resp 100]
      (mkTable ∅ {[ id := Pending ]})) !! id = Some p' /\ rank p' = 2.
Proof.
  intros id resp.
  destruct (progress_is_best id Pending (mkTable ∅ {[ id := Pending ]})
    [resp 180; resp 486; resp 100]) as (p' & Hp & Hr); [reflexivity|].
  exists p'. split; [exact Hp|]. rewrite Hr. reflexivity.
Defined.

(** The ACK of a non-2xx response belongs to the INVITE's transaction
    (same branch and sent-by, RFC 3261 17.1.1.3), carries its From, Call-ID,
    Route set, Request-URI and CSeq number, one Via, and the To of the
    response. *)
Theorem non2xx_ack_matches invite resp ack id :
  build_non2xx_ack invite resp = Ok ack -> from_request invite = Ok id ->
  from_request ack = Ok (mkTid (branch id) (sent_by id) Ack) /\
  length (hdr_get_all (req_headers ack) "via") = 1%nat /\
  hdr_get (req_headers ack) "to" = hdr_get (resp_headers resp) "to" /\
  hdr_get (req_headers ack) "from" = hdr_get (req_headers invite) "from" /\
  hdr_get (req_headers ack) "call-id" = hdr_get (req_headers invite) "call-id" /\
  hdr_get_all (req_headers ack) "route" = hdr_get_all (req_headers invite) "route" /\
  req_uri ack = req_uri invite /\
  (exists cseq n, hdr_get (req_headers invite) "cseq" = Some cseq /\
     head (split_whitespace cseq) = Some n /\
     hdr_get (req_headers ack) "cseq" = Some (n +:+ " ACK")).
Proof.
  intros Ha Hid. destruct (ack_headers invite resp ack Ha)
    as (via & cseq & n & Hv & Hc & Hn & Hm & Hu & _ & Hvia & Hf & Hci & Hto & Hcs & Hro).
  split.
  - unfold from_request in *. rewrite Hv in Hid. rewrite hdr_get_head, Hvia, Hm.
    cbn [head ok_or mbind outcome_bind] in *.
    destruct (parse_via via) as [[b sb]| |]; cbn in *; [|done|done]. by injection Hid as <-.
  - rewrite Hvia. split_and!; try done. eauto 10.
Qed.

Lemma non2xx_ack_matches_witness :
  exists ack, build_non2xx_ack (sample_request Invite) (mkResponse 486 "Busy" [("to", "<sip:b>;tag=2")] "") = Ok ack /\
    from_request ack = Ok (mkTid "z9hG4bK1" "h" Ack).
Proof.
  set (r := build_non2xx_ack (sample_request Invite) (mkResponse 486 "Busy" [("to", "<sip:b>;tag=2")] "")).
  assert (exists ack, r = Ok ack) as [ack Ha] by (vm_compute; eexists; reflexivity).
  exists ack. split; [exact Ha|].
  exact (proj1 (non2xx_ack_matches _ _ ack (mkTid "z9hG4bK1" "h" Invite) Ha eq_refl)).
Defined.

(** An INVITE rejected by a 300-699 response that has no To header leaves
    its entry in the transaction table for good: no absorber is started, and
    [send_request] leaves the removal to it. *)
Theorem missing_to_leaks_entry c now resp :
  is_invite (ct_request c) = true -> 300 <= status_code resp < 700 ->
  hdr_get (resp_headers resp) "to" = None ->
  exists res, client_step c now (CResponse resp) = ([], inr res) /\
    res = GotResponse resp false /\ drops_entry true res = false.
Proof.
  intros Hi Hc Ht. eexists. split; [|split; [reflexivity|]].
  - unfold client_step. rewrite Hi. cbv zeta.
    rewrite (proj2 (Z.ltb_ge (status_code resp) 200)), andb_false_r by lia.
    rewrite (proj2 (Z.leb_le 300 _)), (proj2 (Z.ltb_lt (status_code resp) 700)) by lia. cbn [andb].
    unfold build_non2xx_ack.
    destruct (hdr_get (req_headers (ct_request c)) "via"); cbn; [|done].
    destruct (hdr_get (req_headers (ct_request c)) "from"); cbn; [|done].
    by rewrite Ht.
  - unfold drops_entry. rewrite (proj2 (Z.leb_le 300 _)), (proj2 (Z.ltb_lt (status_code resp) 700)) by lia.
    done.
Qed.

Lemma missing_to_leaks_entry_witness :
  exists res, client_step (client_start (sample_request Invite) 0) 1
      (CResponse (mkResponse 503 "Service Unavailable" [] "")) = ([], inr res) /\
    drops_entry true res = false.
Proof.
  destruct (missing_to_leaks_entry (client_start (sample_request Invite) 0) 1
    (mkResponse 503 "Service Unavailable" [] "") eq_refl ltac:(cbn; lia) eq_refl) as (res & H1 & _ & H2).
  exists res. split; [exact H1 | exact H2].
Defined.

(** A response mirrors its request (RFC 3261 8.2.6.2): From, Call-ID, CSeq,
    Timestamp and every Record-Route in order are copied, the top Via is, and
    every response but 100 has a To tag: the request's own one when there is
    one, else a fresh one (for a To with balanced angle brackets). *)
Theorem response_mirrors_request req status reason r to :
  hdr_get (req_headers req) "to" = Some to -> status <> 100 -> depth_after 0 to = 0 ->
  let h := resp_headers (build_response_skeleton req status reason r) in
  hdr_get h "via" = hdr_get (req_headers req) "via" /\
  hdr_get h "from" = hdr_get (req_headers req) "from" /\
  hdr_get h "call-id" = hdr_get (req_headers req) "call-id" /\
  hdr_get h "cseq" = hdr_get (req_headers req) "cseq" /\
  hdr_get h "timestamp" = hdr_get (req_headers req) "timestamp" /\
  hdr_get_all h "record-route" = hdr_get_all (req_headers req) "record-route" /\
  exists to', hdr_get h "to" = Some to' /\ has_to_tag to' = true /\
    (has_to_tag to = true -> to' = to).
Proof.
  intros Hto Hst Hd. cbv zeta.
  destruct (skeleton_headers req status reason r) as (Hv & Hf & Ht & Hci & Hcs & Hrr & Hts).
  rewrite Hto in Ht. split.
  { rewrite !hdr_get_head, Hv. by destruct (hdr_get_all (req_headers req) "via"). }
  do 5 (split; [done|]). eexists. split; [exact Ht|].
  split; [by apply with_to_tag_tagged|]. intros Htag. unfold with_to_tag.
  by rewrite Htag, andb_false_r.
Qed.

Lemma response_mirrors_request_witness :
  let req := mkRequest Bye "sip:a" [("to", "<sip:b;x=1>"); ("record-route", "<sip:p1>"); ("record-route", "<sip:p2>")] "" in
  exists to', hdr_get (resp_headers (build_response_skeleton req 200 "OK" 255)) "to" = Some to' /\
    has_to_tag to' = true.
Proof.
  intros req.
  destruct (response_mirrors_request req 200 "OK" 255 "<sip:b;x=1>" eq_refl ltac:(lia) eq_refl)
    as (_ & _ & _ & _ & _ & _ & to' & H1 & H2 & _).
  exists to'. split; [exact H1 | exact H2].
Defined.

(** Only the top Via of a request is copied to its responses: a request
    that came through proxies, with several Via headers, is answered with one. *)
Theorem response_single_via req status reason r v1 v2 vs :
  hdr_get_all (req_headers req) "via" = v1 :: v2 :: vs ->
  hdr_get_all (resp_headers (build_response_skeleton req status reason r)) "via" = [v1].
Proof. intros Hv. rewrite (proj1 (skeleton_headers req status reason r)), Hv. done. Qed.

Lemma response_single_via_witness :
  let req := mkRequest Invite "sip:a" [("via", "SIP/2.0/UDP p;branch=z9hG4bK1");
    ("via", "SIP/2.0/UDP c;branch=z9hG4bK2")] "" in
  hdr_get_all (resp_headers (build_response_skeleton req 200 "OK" 255)) "via" =
    ["SIP/2.0/UDP p;branch=z9hG4bK1"].
Proof. intros req. exact (response_single_via req 200 "OK" 255 _ _ [] eq_refl). Defined.

(** The received and rport parameters a response adds to its Via (RFC 3581
    4, RFC 3261 18.2.1) do not change which transaction it belongs to: the
    rewritten Via of any received request has the same branch and sent-by. *)
Theorem rport_keeps_transaction via remote :
  trimmed via -> parse_via (apply_rport_to_via_for_response via remote) = parse_via via.
Proof. apply apply_rport_parse_via. Qed.

Lemma rport_keeps_transaction_witness :
  let via := "SIP/2.0/UDP 192.0.2.9:5060;rport;branch=z9hG4bKx" in
  apply_rport_to_via_for_response via sample_remote =
    "SIP/2.0/UDP 192.0.2.9:5060;rport=5062;branch=z9hG4bKx;received=192.0.2.1" /\
  parse_via (apply_rport_to_via_for_response via sample_remote) = Ok ("z9hG4bKx", "192.0.2.9:5060").
Proof.
  intros via. split; [reflexivity|].
  rewrite (rport_keeps_transaction via sample_remote); [reflexivity|].
  split; reflexivity.
Defined.
