(* ===== verification/Dialog.v ===== *)
(** SIP dialogs (src/src/sip/dialog.rs): establishing a dialog from a response
    (caller) or from an INVITE (callee), confirming it, and building its
    requests (ACK, BYE, NOTIFY, re-INVITE) with the route set. The random
    number of a branch is an argument; the atomic CSeq counter is a field that
    the builders return updated. *)
From S2P Require Import Prelude RustStr NetAddr SipMessage SipUtils Transaction.

Inductive DialogState := Early | Confirmed | Terminated.

#[export] Instance DialogState_eq_dec : EqDecision DialogState.
Proof. solve_decision. Defined.

Record DialogId := mkDialogId {
  dlg_call_id : string;
  local_tag : string;
  remote_tag : string
}.

Record Dialog := mkDialog {
  dlg_id : DialogId;
  dlg_state : DialogState;
  local_uri : string;
  remote_uri : string;
  remote_target : string;
  route_set : list string;
  local_cseq : Z;
  local_contact : string;
  dlg_sent_by : string
}.

Record DialogConfig := mkDialogConfig {
  cfg_local_uri : string;
  cfg_remote_uri : string;
  cfg_local_contact : string;
  cfg_sent_by : string
}.

Inductive DialogError :=
  | NoCallId | NoFrom | NoTo | NoFromTag | NoToTag | NoContact | NoInviteCSeq
  | EmptyCSeq | BadCSeq | BadStatus.

(** ** Reading headers *)

Definition extract_uri (value : string) : string :=
  let trimmed := trim value in
  match bracketed trimmed with
  | Some uri => uri
  | None =>
      match split_once ";" trimmed with
      | Some (uri, _) => trim uri
      | None => trimmed
      end
  end.

(** The first of the parts that is a tag. *)
Fixpoint first_tag (parts : list string) : option string :=
  match parts with
  | [] => None
  | part :: parts =>
      match strip_prefix "tag=" (trim part) with
      | Some rest => Some rest
      | None => first_tag parts
      end
  end.
Definition parse_tag (value : string) : option string := first_tag (tail (split_on ";" value)).

Definition parse_cseq_number (value : string) : outcome DialogError Z :=
  num ← ok_or (head (split_whitespace value)) EmptyCSeq;
  ok_or (parse_uint 32 num) BadCSeq.

(** The loop of [split_route_header]: the bracket depth ([i32]; a header is far
    too short to overflow it) and the slice being read (reversed). *)
Definition push_route (cur : string) (l : list string) : list string :=
  let slice := trim (str_rev cur) in
  if String.eqb slice "" then l else slice :: l.
Fixpoint route_scan (depth : Z) (cur s : string) : list string :=
  match s with
  | EmptyString => push_route cur []
  | String c s =>
      if Ascii.eqb c "<" then route_scan (depth + 1) (String c cur) s
      else if Ascii.eqb c ">" then route_scan (depth - 1) (String c cur) s
      else if Ascii.eqb c "," && (depth =? 0) then push_route cur (route_scan depth EmptyString s)
      else route_scan depth (String c cur) s
  end.
Definition split_route_header (value : string) : list string := route_scan 0 EmptyString value.

Definition has_lr (s : string) : bool :=
  existsb (fun p => String.eqb (trim p) "lr") (split_on ";" s).
Definition route_uri_has_lr (value : string) : bool :=
  match bracketed value with
  | Some inside => has_lr inside || has_lr value
  | None => has_lr value
  end.

(** The routes of all the Record-Route headers, in their order. *)
Definition record_routes (h : SipHeaders) : list string :=
  concat (map split_route_header (hdr_get_all h "record-route")).

(** ** Establishing a dialog *)

(** The state a response code leads to. *)
Definition dialog_state_of (status : Z) : outcome DialogError DialogState :=
  if (200 <=? status) && (status <? 300) then Ok Confirmed
  else if (100 <=? status) && (status <? 200) then Ok Early
  else Err BadStatus.

Definition from_uac_response (request : SipRequest) (response : SipResponse) (cfg : DialogConfig)
  : outcome DialogError Dialog :=
  let qh := req_headers request in
  let rh := resp_headers response in
  call_id ← ok_or (hdr_get qh "call-id") NoCallId;
  from ← ok_or (hdr_get qh "from") NoFrom;
  to ← ok_or (hdr_get rh "to") NoTo;
  local_tag ← ok_or (parse_tag from) NoFromTag;
  remote_tag ← ok_or (parse_tag to) NoToTag;
  remote_target ← ok_or (extract_uri <$> hdr_get rh "contact") NoContact;
  let route_set := rev (record_routes rh) in
  cseq ← ok_or (hdr_get qh "cseq") NoInviteCSeq;
  invite_cseq ← parse_cseq_number cseq;
  local_cseq ← checked 32 (invite_cseq + 1);
  state ← dialog_state_of (status_code response);
  Ok (mkDialog (mkDialogId call_id local_tag remote_tag) state (cfg_local_uri cfg)
        (cfg_remote_uri cfg) remote_target route_set local_cseq (cfg_local_contact cfg)
        (cfg_sent_by cfg)).

Definition from_uas_invite (invite : SipRequest) (response : SipResponse) (cfg : DialogConfig)
  : outcome DialogError Dialog :=
  let qh := req_headers invite in
  let rh := resp_headers response in
  call_id ← ok_or (hdr_get qh "call-id") NoCallId;
  from ← ok_or (hdr_get qh "from") NoFrom;
  to ← ok_or (hdr_get rh "to") NoTo;
  remote_tag ← ok_or (parse_tag from) NoFromTag;
  local_tag ← ok_or (parse_tag to) NoToTag;
  remote_target ← ok_or (extract_uri <$> hdr_get qh "contact") NoContact;
  let route_set := record_routes qh in
  state ← dialog_state_of (status_code response);
  Ok (mkDialog (mkDialogId call_id local_tag remote_tag) state (cfg_local_uri cfg)
        (cfg_remote_uri cfg) remote_target route_set 1 (cfg_local_contact cfg) (cfg_sent_by cfg)).

Definition confirm (d : Dialog) (response : SipResponse) : outcome DialogError Dialog :=
  let rh := resp_headers response in
  remote_target ← ok_or (extract_uri <$> hdr_get rh "contact") NoContact;
  let route_set := rev (record_routes rh) in
  let id := dlg_id d in
  let tag :=
    match hdr_get rh "to" with
    | Some to => default (remote_tag id) (parse_tag to)
    | None => remote_tag id
    end in
  Ok (mkDialog (mkDialogId (dlg_call_id id) (local_tag id) tag) Confirmed (local_uri d)
        (remote_uri d) remote_target route_set (local_cseq d) (local_contact d) (dlg_sent_by d)).

Definition terminate (d : Dialog) : Dialog :=
  mkDialog (dlg_id d) Terminated (local_uri d) (remote_uri d) (remote_target d) (route_set d)
    (local_cseq d) (local_contact d) (dlg_sent_by d).

(** ** The requests of a dialog *)

Definition compute_request_uri_and_route (d : Dialog) : string * list string :=
  match route_set d with
  | [] => (remote_target d, [])
  | first :: rest =>
      if route_uri_has_lr first then (remote_target d, route_set d)
      else (extract_uri first, rest ++ ["<" +:+ remote_target d +:+ ">"])
  end.

(** A Route value, with its brackets. *)
Definition route_value (route : string) : string :=
  if starts_with "<" route then route else "<" +:+ route +:+ ">".

Definition fill_common_headers (d : Dialog) (h : SipHeaders) (method_name : string) (cseq : Z)
    (route_headers : list string) (with_contact : bool) (r : Z) : SipHeaders :=
  let h := hdr_set h "Via" ("SIP/2.0/UDP " +:+ dlg_sent_by d +:+ ";branch=" +:+ new_branch r) in
  let h := hdr_set h "Max-Forwards" "70" in
  let h := hdr_set h "From" ("<" +:+ local_uri d +:+ ">;tag=" +:+ local_tag (dlg_id d)) in
  let h := hdr_set h "To" ("<" +:+ remote_uri d +:+ ">;tag=" +:+ remote_tag (dlg_id d)) in
  let h := hdr_set h "Call-ID" (dlg_call_id (dlg_id d)) in
  let h := hdr_set h "CSeq" (print_uint cseq +:+ " " +:+ method_name) in
  let h := fold_left (fun h route => hdr_add h "Route" (route_value route)) route_headers h in
  let h := if with_contact then hdr_set h "Contact" ("<" +:+ local_contact d +:+ ">") else h in
  hdr_set h "User-Agent" "hikari-sip/0.1".

Definition build_ack_for_2xx (d : Dialog) (invite_cseq r : Z) : SipRequest :=
  let '(uri, routes) := compute_request_uri_and_route d in
  mkRequest Ack uri (fill_common_headers d [] "ACK" invite_cseq routes false r) "".

(** [local_cseq.fetch_add(1)]: the counter wraps. *)
Definition bump_cseq (d : Dialog) : Dialog :=
  mkDialog (dlg_id d) (dlg_state d) (local_uri d) (remote_uri d) (remote_target d) (route_set d)
    (wrapping_add 32 (local_cseq d) 1) (local_contact d) (dlg_sent_by d).

Definition build_bye (d : Dialog) (r : Z) : SipRequest * Dialog :=
  let '(uri, routes) := compute_request_uri_and_route d in
  (mkRequest Bye uri (fill_common_headers d [] "BYE" (local_cseq d) routes true r) "", bump_cseq d).

Definition build_notify_refer_sipfrag (d : Dialog) (sipfrag_status_line subscription_state : string)
    (r : Z) : SipRequest * Dialog :=
  let '(uri, routes) := compute_request_uri_and_route d in
  let h := fill_common_headers d [] "NOTIFY" (local_cseq d) routes true r in
  let h := hdr_set h "Event" "refer" in
  let h := hdr_set h "Subscription-State" subscription_state in
  let h := hdr_set h "Content-Type" "message/sipfrag;version=2.0" in
  (mkRequest Notify uri h (sipfrag_status_line +:+ crlf), bump_cseq d).

Definition build_reinvite (d : Dialog) (sdp_body : option string)
    (session_expires_secs min_se_secs r : Z) : SipRequest * Dialog :=
  let '(uri, routes) := compute_request_uri_and_route d in
  let h := fill_common_headers d [] "INVITE" (local_cseq d) routes true r in
  let h := hdr_set h "Session-Expires" (print_uint session_expires_secs +:+ ";refresher=uac") in
  let h := hdr_set h "Min-SE" (print_uint min_se_secs) in
  let h := hdr_set h "Supported" "timer" in
  let req :=
    match sdp_body with
    | Some body => mkRequest Invite uri (hdr_set h "Content-Type" "application/sdp") body
    | None => mkRequest Invite uri h ""
    end in
  (req, bump_cseq d).

(** ** The next hop *)

Definition next_hop_uri (d : Dialog) : string :=
  match route_set d with
  | [] => remote_target d
  | first :: _ => extract_uri first
  end.

(** [strip_prefix('[')] then [strip_suffix(']')]. *)
Definition strip_brackets (host : string) : option string :=
  match strip_prefix "[" host with
  | Some s => str_rev <$> strip_prefix "]" (str_rev s)
  | None => None
  end.

Definition next_hop_socket (d : Dialog) (fallback : SocketAddr) : SocketAddr :=
  match parse_sip_uri (next_hop_uri d) with
  | Ok parts =>
      match port parts with
      | None => fallback
      | Some p =>
          let h := host parts in
          match parse_ip (default h (strip_brackets h)) with
          | Some a => mkAddr a p
          | None => fallback
          end
      end
  | _ => fallback
  end.

(** A builder of in-dialog requests. *)
Inductive dialog_op :=
  | OpBye (r : Z)
  | OpNotify (sipfrag_status_line subscription_state : string) (r : Z)
  | OpReinvite (sdp_body : option string) (session_expires_secs min_se_secs r : Z).

Definition build_op (d : Dialog) (o : dialog_op) : SipRequest * Dialog :=
  match o with
  | OpBye r => build_bye d r
  | OpNotify l s r => build_notify_refer_sipfrag d l s r
  | OpReinvite b e m r => build_reinvite d b e m r
  end.
Fixpoint build_ops (d : Dialog) (ops : list dialog_op) : list SipRequest * Dialog :=
  match ops with
  | [] => ([], d)
  | o :: ops =>
      let '(req, d) := build_op d o in
      let '(reqs, d) := build_ops d ops in
      (req :: reqs, d)
  end.

(** ** Headers of the requests *)

Lemma fold_route_get_all routes h name :
  hdr_get_all (fold_left (fun h route => hdr_add h "Route" (route_value route)) routes h) name =
  hdr_get_all h name ++ (if same_header "Route" name then map route_value routes else []).
Proof.
  revert h. induction routes as [|x l IH]; intros h; cbn [fold_left map].
  - destruct (same_header "Route" name); by rewrite app_nil_r.
  - rewrite IH, hdr_get_all_add, <- app_assoc. by destruct (same_header "Route" name).
Qed.

(** What every request of a dialog carries. *)
Record request_of (d : Dialog) (cseq : Z) (req : SipRequest) : Prop := {
  ro_call_id : hdr_get (req_headers req) "call-id" = Some (dlg_call_id (dlg_id d));
  ro_from : hdr_get (req_headers req) "from" =
    Some ("<" +:+ local_uri d +:+ ">;tag=" +:+ local_tag (dlg_id d));
  ro_to : hdr_get (req_headers req) "to" =
    Some ("<" +:+ remote_uri d +:+ ">;tag=" +:+ remote_tag (dlg_id d));
  ro_cseq : hdr_get (req_headers req) "cseq" =
    Some (print_uint cseq +:+ " " +:+ as_str (req_method req));
  ro_uri : req_uri req = (compute_request_uri_and_route d).1;
  ro_route : hdr_get_all (req_headers req) "route" =
    map route_value (compute_request_uri_and_route d).2
}.

(** Reads a header of a table built by [hdr_set] and the Route loop. *)
Ltac read_headers :=
  rewrite ?hdr_get_head;
  repeat (rewrite ?hdr_get_all_set, ?fold_route_get_all; eval_headers);
  rewrite ?app_nil_r; try done.

Lemma build_op_request d o : request_of d (local_cseq d) (build_op d o).1 /\ (build_op d o).2 = bump_cseq d.
Proof.
  destruct o as [r | l s r | b e m r]; cbn [build_op]; unfold build_bye, build_notify_refer_sipfrag, build_reinvite;
    destruct (compute_request_uri_and_route d) as [uri routes] eqn:Hc; [| | destruct b as [b|]];
    (split; [|done]); constructor; rewrite ?Hc; cbn [fst snd req_headers req_method req_uri as_str];
    unfold fill_common_headers; try done; read_headers.
Qed.

Lemma build_ack_request d n r : request_of d n (build_ack_for_2xx d n r).
Proof.
  unfold build_ack_for_2xx. destruct (compute_request_uri_and_route d) as [uri routes] eqn:Hc.
  constructor; rewrite ?Hc; cbn [fst snd req_headers req_method req_uri as_str];
    unfold fill_common_headers; try done; read_headers.
Qed.

Lemma bump_request d n req : request_of (bump_cseq d) n req -> request_of d n req.
Proof. intros []. by constructor. Qed.

Lemma build_ops_request d ops i req :
  u32 (local_cseq d) -> (build_ops d ops).1 !! i = Some req ->
  request_of d (wrap 32 (local_cseq d + Z.of_nat i)) req.
Proof.
  revert d i. induction ops as [|o ops IH]; intros d i Hu; cbn [build_ops]; [done|].
  destruct (build_op_request d o) as [Hr Hd]. destruct (build_op d o) as [q d'].
  cbn [fst snd] in *. subst d'. specialize (IH (bump_cseq d)).
  destruct (build_ops (bump_cseq d) ops) as [reqs d'']. cbn [fst] in *.
  destruct i as [|i]; cbn [lookup list_lookup].
  - intros [= <-]. rewrite Z.add_0_r.
    assert (wrap 32 (local_cseq d) = local_cseq d) as -> by (unfold wrap; by apply Z.mod_small). done.
  - intros H. apply bump_request. 
    replace (wrap 32 (local_cseq d + Z.of_nat (S i)))
      with (wrap 32 (local_cseq (bump_cseq d) + Z.of_nat i)).
    + apply IH; [|done]. cbn. unfold wrapping_add, wrap, uN. apply Z.mod_pos_bound. lia.
    + cbn [bump_cseq local_cseq]. unfold wrapping_add, wrap. rewrite Zplus_mod_idemp_l. f_equal. lia.
Qed.

(** ** The tag of a header *)

Definition not_tag (p : string) : bool :=
  match strip_prefix "tag=" (trim p) with Some _ => false | None => true end.

Lemma first_tag_app l1 l2 : forallb not_tag l1 = true -> first_tag (l1 ++ l2) = first_tag l2.
Proof.
  induction l1 as [|p l1 IH]; cbn [forallb app first_tag]; [done|].
  intros [H1 H2]%andb_true_iff. unfold not_tag in H1.
  destruct (strip_prefix "tag=" (trim p)); [done | by apply IH].
Qed.

Lemma split_on_nonempty c s : split_on c s <> [].
Proof. destruct s as [|d s]; cbn; [done|]. by destruct (Ascii.eqb c d), (split_on c s). Qed.

Lemma split_on_append c a b :
  split_on c (a +:+ String c b) = split_on c a ++ split_on c b.
Proof.
  induction a as [|x a IH]; cbn [String.append split_on].
  - by rewrite Ascii.eqb_refl.
  - destruct (Ascii.eqb c x); [cbn [app]; by rewrite IH|]. rewrite IH.
    destruct (split_on c a) as [|y l] eqn:He; [by apply split_on_nonempty in He | done].
Qed.

(** The tag written after a text without a tag is the tag a peer reads. *)
Lemma parse_tag_after a t : forallb not_tag (tail (split_on ";" a)) = true ->
  trimmed t -> t <> "" -> no_char ";" t = true -> parse_tag (a +:+ ";tag=" +:+ t) = Some t.
Proof.
  intros Hu Ht Hne Hc. unfold parse_tag. change (";tag=" +:+ t) with (String ";" ("tag=" +:+ t)).
  rewrite split_on_append, (split_on_no_char _ ("tag=" +:+ t)) by (by rewrite no_char_app).
  destruct (split_on ";" a) as [|x l] eqn:He; [by apply split_on_nonempty in He|].
  cbn [app tail] in *. rewrite first_tag_app by done. cbn [first_tag].
  rewrite trim_id by (apply (trimmed_tag "tag"); [by left | done | done]). by rewrite strip_prefix_app.
Qed.

Lemma parse_tag_written uri t :
  forallb not_tag (tail (split_on ";" ("<" +:+ uri +:+ ">"))) = true ->
  trimmed t -> t <> "" -> no_char ";" t = true ->
  parse_tag ("<" +:+ uri +:+ ">;tag=" +:+ t) = Some t.
Proof.
  intros. replace ("<" +:+ uri +:+ ">;tag=" +:+ t) with (("<" +:+ uri +:+ ">") +:+ ";tag=" +:+ t)
    by (by rewrite !str_app_assoc). by apply parse_tag_after.
Qed.

(** ** The path of a request *)

Lemma trimmed_brackets s : trimmed ("<" +:+ s +:+ ">").
Proof. by apply trimmed_graph. Qed.

Lemma extract_bracketed s : no_char ">" s = true -> extract_uri ("<" +:+ s +:+ ">") = s.
Proof.
  intros Hs. unfold extract_uri, bracketed. rewrite trim_id by apply trimmed_brackets.
  change ("<" +:+ s +:+ ">") with ("" +:+ String "<" (s +:+ ">")).
  rewrite (split_once_no_char "<" "") by done.
  change (s +:+ ">") with (s +:+ String ">" ""). by rewrite split_once_no_char.
Qed.

Lemma route_value_id x : starts_with "<" x = true -> route_value x = x.
Proof. unfold route_value. by intros ->. Qed.

(** The hops of a request, the last one being its target: with a loose first
    router the Route headers then the request URI, otherwise the request URI
    then the Route headers. *)
Definition loose (d : Dialog) : bool :=
  match route_set d with [] => true | first :: _ => route_uri_has_lr first end.
Definition request_path (l : bool) (req : SipRequest) : list string :=
  let routes := map extract_uri (hdr_get_all (req_headers req) "route") in
  if l then routes ++ [req_uri req] else req_uri req :: routes.

Lemma request_path_spec d n req :
  Forall (fun x => starts_with "<" x = true) (route_set d) ->
  no_char ">" (remote_target d) = true -> request_of d n req ->
  request_path (loose d) req = map extract_uri (route_set d) ++ [remote_target d].
Proof.
  intros Hr Ht [_ _ _ _ Hu Hro]. unfold request_path. rewrite Hu, Hro. clear Hu Hro.
  assert (map route_value (route_set d) = route_set d) as Hid.
  { clear Ht. induction Hr as [|x l Hx _ IH]; [done|]. cbn. by rewrite IH, route_value_id. }
  unfold loose, compute_request_uri_and_route. destruct (route_set d) as [|first rest]; [done|].
  destruct (route_uri_has_lr first); cbn [fst snd]; [by rewrite Hid|].
  cbn [map app] in *. injection Hid as _ Hid. rewrite !map_app, Hid. cbn [map app].
  rewrite route_value_id by done. by rewrite extract_bracketed.
Qed.

(** ** Record-Route values *)

(** No comma outside angle brackets, from depth [d]. *)
Fixpoint no_top_comma (d : Z) (s : string) : bool :=
  match s with
  | EmptyString => true
  | String c s =>
      if Ascii.eqb c "<" then no_top_comma (d + 1) s
      else if Ascii.eqb c ">" then no_top_comma (d - 1) s
      else negb (Ascii.eqb c "," && (d =? 0)) && no_top_comma d s
  end.

(** A route value: trimmed, not empty, brackets balanced, commas only inside. *)
Definition route_ok (x : string) : Prop :=
  trimmed x /\ x <> "" /\ no_top_comma 0 x = true /\ depth_after 0 x = 0.

Lemma route_scan_value d cur x s :
  no_top_comma d x = true -> depth_after d x = 0 ->
  (forall c s', s = String c s' -> c = ","%char) ->
  route_scan d cur (x +:+ s) =
  push_route (str_rev x +:+ cur)
    (match s with EmptyString => [] | String _ s' => route_scan 0 EmptyString s' end).
Proof.
  intros Hx Hd Hs. revert d cur Hx Hd. induction x as [|c x IH]; intros d cur Hx Hd.
  - cbn in Hd. subst d. cbn [String.append]. destruct s as [|c s']; [done|].
    rewrite (Hs c s' eq_refl). done.
  - cbn [String.append route_scan no_top_comma depth_after] in *.
    rewrite str_rev_cons, str_app_assoc. cbn [String.append].
    destruct (Ascii.eqb c "<"); [by apply IH|]. destruct (Ascii.eqb c ">"); [by apply IH|].
    apply andb_true_iff in Hx as [Hc Hx]. apply negb_true_iff in Hc. rewrite Hc. by apply IH.
Qed.

Lemma push_route_value x cur l :
  trimmed x -> x <> "" -> cur = "" \/ cur = " " -> push_route (str_rev x +:+ cur) l = x :: l.
Proof.
  intros Ht Hne Hc. unfold push_route. rewrite str_rev_app, str_rev_invol.
  assert (trim (str_rev cur +:+ x) = x) as ->.
  { destruct Hc as [-> | ->]; [by apply trim_id | by apply trim_space]. }
  by rewrite (proj2 (String.eqb_neq x "")).
Qed.

Lemma split_route_join l :
  Forall route_ok l -> l <> [] -> split_route_header (join ", " l) = l.
Proof.
  intros Hl Hne. unfold split_route_header.
  assert (forall cur, cur = "" \/ cur = " " -> route_scan 0 cur (join ", " l) = l) as H; [|by apply H; left].
  induction Hl as [|x l (Ht & Hx & Hc & Hd) Hl IH]; [done|]. intros cur Hcur.
  destruct l as [|y l].
  - cbn [join]. rewrite <- (str_app_nil_r x) at 1. rewrite route_scan_value by done.
    by apply push_route_value.
  - change (join ", " (x :: y :: l)) with (x +:+ String "," (String " " (join ", " (y :: l)))).
    rewrite route_scan_value; [|done|done|by intros c s' [= <- _]].
    rewrite push_route_value by done. f_equal. apply IH; [done | by right].
Qed.

Lemma record_routes_groups h groups :
  hdr_get_all h "record-route" = map (join ", ") groups ->
  Forall (fun g => Forall route_ok g /\ g <> []) groups -> record_routes h = concat groups.
Proof.
  intros Hh Hg. unfold record_routes. rewrite Hh, map_map. f_equal. clear Hh.
  induction Hg as [|g groups [H1 H2] _ IH]; cbn; [done|]. by rewrite IH, split_route_join.
Qed.

(** ** The ends of a dialog *)

Lemma ok_or_Some {E A} (a : A) (e : E) : ok_or (Some a) e = Ok a.
Proof. done. Qed.

(** The callee's response, with its Contact. *)
Definition accept (invite : SipRequest) (status : Z) (reason contact body : string) (r : Z)
  : SipResponse :=
  let s := build_response_skeleton invite status reason r in
  mkResponse status reason (hdr_set (resp_headers s) "Contact" contact) body.

Lemma accept_headers invite status reason contact body r :
  let h := resp_headers (accept invite status reason contact body r) in
  hdr_get h "to" = with_to_tag status r <$> hdr_get (req_headers invite) "to" /\
  hdr_get h "contact" = Some contact /\
  hdr_get_all h "record-route" = hdr_get_all (req_headers invite) "record-route".
Proof.
  cbv zeta. unfold accept. cbn [resp_headers].
  destruct (skeleton_headers invite status reason r) as (_ & _ & Hto & _ & _ & Hrr & _).
  rewrite !hdr_get_set, hdr_get_all_set. eval_headers. done.
Qed.

(** The two dialogs mirror each other. *)
Record mirrored (caller callee : Dialog) : Prop := {
  mi_call_id : dlg_call_id (dlg_id caller) = dlg_call_id (dlg_id callee);
  mi_local : local_tag (dlg_id caller) = remote_tag (dlg_id callee);
  mi_remote : remote_tag (dlg_id caller) = local_tag (dlg_id callee);
  mi_route : route_set caller = rev (route_set callee);
  mi_state : dlg_state caller = dlg_state callee
}.

(** The caller's dialog, from the callee's. *)
Lemma caller_agrees invite status reason contact body r cfgS cfgC callee cseq n :
  from_uas_invite invite (accept invite status reason contact body r) cfgS = Ok callee ->
  hdr_get (req_headers invite) "cseq" = Some cseq -> parse_cseq_number cseq = Ok n ->
  n < 2 ^ 32 - 1 ->
  exists caller,
    from_uac_response invite (accept invite status reason contact body r) cfgC = Ok caller /\
    mirrored caller callee /\ remote_target caller = extract_uri contact /\
    local_cseq caller = n + 1.
Proof.
  intros Hs Hcs Hn Hlt.
  assert (uN 32 n) as H0.
  { unfold parse_cseq_number in Hn. inv_outcome. by apply parse_uint_range in Hn. }
  destruct (accept_headers invite status reason contact body r) as (_ & Hct & Hrr).
  unfold from_uas_invite in Hs. inv_outcome. subst callee.
  unfold from_uac_response, record_routes. rewrite Hct, Hcs, Hrr.
  repeat (match goal with H : ?x = Some _ |- context [ok_or ?x _] => rewrite H end;
          cbn [fmap option_fmap option_map ok_or mbind outcome_bind]).
  rewrite Hn. cbn [mbind outcome_bind].
  rewrite checked_Ok by (unfold uN in *; lia). cbn [mbind outcome_bind].
  repeat match goal with H : _ = Ok _ |- _ => rewrite H; clear H end. cbn [mbind outcome_bind].
  eexists. split; [reflexivity|]. done.
Qed.

(** ** Reading the next hop *)

(** The URI of an IPv4 proxy with its port. *)
Definition ipv4_uri (a b c d p : Z) : string :=
  "sip:" +:+ (print_ipv4 a b c d +:+ ":" +:+ print_uint p) +:+ ";lr".

Lemma strip_prefix_no_char c s : no_char c s = true -> strip_prefix (String c "") s = None.
Proof.
  destruct s as [|d s]; [done|]. unfold no_char. cbn [all_chars strip_prefix].
  intros [H _]%andb_true_iff. apply negb_true_iff in H. by rewrite H.
Qed.

Lemma parse_ipv4_hostport a b c d p :
  u16 p -> parse_hostport (print_ipv4 a b c d +:+ ":" +:+ print_uint p) =
  Ok (print_ipv4 a b c d, Some p).
Proof.
  intros Hp. unfold parse_hostport.
  rewrite strip_prefix_no_char.
  2: { rewrite !no_char_app. rewrite !(addr_no_char "[") by
         (done || apply print_ipv4_addr || apply print_uint_addr). done. }
  change (":" +:+ print_uint p) with (String ":" (print_uint p)).
  rewrite rsplit_once_last; [|apply digits_no_char; [done | apply print_uint_digits]].
  unfold parse_port. rewrite parse_print_uint by done. done.
Qed.

Lemma parse_ipv4_uri a b c d p :
  u16 p -> parse_sip_uri (ipv4_uri a b c d p) =
  Ok (mkUri "sip" None (print_ipv4 a b c d) (Some p) [("lr", "")] []).
Proof.
  intros Hp. unfold parse_sip_uri, ipv4_uri.
  pose proof (parse_ipv4_hostport a b c d p Hp) as Hh.
  assert (forall k, is_addr_char k = false ->
    no_char k (print_ipv4 a b c d +:+ ":" +:+ print_uint p) = true) as Hno.
  { intros k Hk. apply addr_no_char; [done|].
    by rewrite !all_chars_app, print_ipv4_addr, print_uint_addr. }
  assert (negb (String.eqb (print_ipv4 a b c d) "") = true) as Hne.
  { unfold print_ipv4. by destruct (print_uint a). }
  generalize dependent (print_ipv4 a b c d). intros host Hh Hno Hne.
  set (U := host +:+ ":" +:+ print_uint p) in *.
  rewrite trim_id.
  2: { replace ("sip:" +:+ U +:+ ";lr") with (String "s" "" +:+ ("ip:" +:+ U +:+ ";l") +:+ String "r" "")
         by (by rewrite !str_app_assoc). by apply trimmed_graph. }
  change (negb (String.eqb ("sip:" +:+ U +:+ ";lr") "")) with true. cbn [ensure mbind outcome_bind].
  change ("sip:" +:+ U +:+ ";lr") with ("sip" +:+ String ":" (U +:+ String ";" "lr")).
  rewrite split_once_no_char by done. cbn [ok_or mbind outcome_bind].
  unfold cut. rewrite (split_once_None "?") by (rewrite no_char_app, Hno by done; done).
  rewrite split_once_no_char by (by apply Hno).
  rewrite rsplit_once_None by (by apply Hno). rewrite Hh. cbn [mbind outcome_bind].
  rewrite Hne. done.
Qed.

Lemma next_hop_ipv4 dlg a b c d p fallback :
  u8 a -> u8 b -> u8 c -> u8 d -> u16 p -> next_hop_uri dlg = ipv4_uri a b c d p ->
  next_hop_socket dlg fallback = mkAddr (V4 a b c d) p.
Proof.
  intros Ha Hb Hc Hd Hp Hu. unfold next_hop_socket. rewrite Hu, parse_ipv4_uri by done.
  cbn [port host]. unfold strip_brackets.
  rewrite strip_prefix_no_char by (apply addr_no_char; [done | apply print_ipv4_addr]).
  change (default ?x None) with x. by rewrite parse_ip_print_ipv4.
Qed.

(** ** Properties *)

(** C35: the two ends of a dialog agree (RFC 3261 12.1.1, 12.1.2). When the
    callee answers an INVITE with its response skeleton and a Contact, and
    establishes its dialog, the caller that receives the response establishes
    one too: the same Call-ID, the tags swapped, the route set reversed, the
    same state; its remote target is the callee's Contact, and its requests are
    numbered from the INVITE's CSeq plus one. *)
Theorem dialog_ends_agree invite status reason contact body r cfgS cfgC callee cseq n :
  from_uas_invite invite (accept invite status reason contact body r) cfgS = Ok callee ->
  hdr_get (req_headers invite) "cseq" = Some cseq -> parse_cseq_number cseq = Ok n ->
  n < 2 ^ 32 - 1 ->
  exists caller,
    from_uac_response invite (accept invite status reason contact body r) cfgC = Ok caller /\
    mirrored caller callee /\ remote_target caller = extract_uri contact /\
    local_cseq caller = n + 1.
Proof. apply caller_agrees. Qed.

Definition sample_cfg (l r : string) : DialogConfig := mkDialogConfig l r "sip:me@192.0.2.1" "192.0.2.1:5060".

(** An INVITE that came through two proxies. *)
Definition sample_dialog_invite : SipRequest :=
  mkRequest Invite "sip:117@ntt"
    [("via", "SIP/2.0/UDP 192.0.2.9;branch=z9hG4bK1"); ("from", "<sip:a@ntt>;tag=f1");
     ("to", "<sip:117@ntt>"); ("call-id", "c@ntt"); ("cseq", "7 INVITE");
     ("contact", "<sip:a@192.0.2.9:5060>");
     ("record-route", "<sip:118.177.125.1:5060;lr>, <sip:192.0.2.77:5060;lr>")] "".
Definition sample_caller : outcome DialogError Dialog :=
  from_uac_response sample_dialog_invite
    (accept sample_dialog_invite 200 "OK" "<sip:117@192.0.2.1:5070>" "" 5) (sample_cfg "sip:a@ntt" "sip:117@ntt").
Definition sample_callee : Dialog :=
  mkDialog (mkDialogId "c@ntt" "sabiden-00000005" "f1") Confirmed "sip:117@ntt" "sip:a@ntt"
    "sip:a@192.0.2.9:5060" ["<sip:118.177.125.1:5060;lr>"; "<sip:192.0.2.77:5060;lr>"] 1
    "sip:me@192.0.2.1" "192.0.2.1:5060".

Lemma dialog_ends_agree_witness :
  exists caller, sample_caller = Ok caller /\ mirrored caller sample_callee /\
    remote_target caller = extract_uri "<sip:117@192.0.2.1:5070>" /\ local_cseq caller = 7 + 1.
Proof.
  apply (dialog_ends_agree sample_dialog_invite 200 "OK" "<sip:117@192.0.2.1:5070>" "" 5
    (sample_cfg "sip:117@ntt" "sip:a@ntt") (sample_cfg "sip:a@ntt" "sip:117@ntt") sample_callee "7 INVITE" 7);
    by vm_compute.
Defined.

(** The requests of a dialog (RFC 3261 12.2.1.1). Whatever requests are
    built and in whatever order, their CSeq numbers are consecutive, with the
    name of their method; every one carries the Call-ID and the two tags, as
    the peer reads them. *)
Theorem dialog_requests_numbered d ops i req :
  u32 (local_cseq d) ->
  Forall (fun '(uri, t) => forallb not_tag (tail (split_on ";" ("<" +:+ uri +:+ ">"))) = true /\
    trimmed t /\ t <> "" /\ no_char ";" t = true)
    [(local_uri d, local_tag (dlg_id d)); (remote_uri d, remote_tag (dlg_id d))] ->
  (build_ops d ops).1 !! i = Some req ->
  hdr_get (req_headers req) "cseq" =
    Some (print_uint (wrap 32 (local_cseq d + Z.of_nat i)) +:+ " " +:+ as_str (req_method req)) /\
  hdr_get (req_headers req) "call-id" = Some (dlg_call_id (dlg_id d)) /\
  hdr_get (req_headers req) "from" ≫= parse_tag = Some (local_tag (dlg_id d)) /\
  hdr_get (req_headers req) "to" ≫= parse_tag = Some (remote_tag (dlg_id d)).
Proof.
  intros Hu Hf H. apply (build_ops_request d ops i req Hu) in H as [Hci Hfr Hto Hcs _ _].
  apply Forall_cons in Hf as [(L1 & L2 & L3 & L4) Hf]. apply Forall_cons in Hf as [(R1 & R2 & R3 & R4) _].
  rewrite Hci, Hfr, Hto, Hcs. cbn [mbind option_bind].
  by rewrite !parse_tag_written.
Qed.

Definition sample_dialog : Dialog := sample_callee.

Lemma dialog_requests_numbered_witness :
  exists req, (build_ops sample_dialog [OpReinvite None 300 90 1; OpBye 2]).1 !! 1%nat = Some req /\
    hdr_get (req_headers req) "cseq" = Some "2 BYE".
Proof.
  eexists. split; [reflexivity|].
  refine (proj1 (dialog_requests_numbered sample_dialog [OpReinvite None 300 90 1; OpBye 2] 1 _ _ _ _)).
  - by vm_compute.
  - repeat constructor; by vm_compute.
  - reflexivity.
Defined.

(** The path of a request. Every request of a dialog, the ACK of the 2xx
    included, visits the proxies of the route set in order and ends at the
    remote target, whether the first proxy is a loose or a strict router; the
    first hop is the one the datagram is sent to. *)
Theorem dialog_request_path d ops i req n r :
  u32 (local_cseq d) ->
  Forall (fun x => starts_with "<" x = true) (route_set d) ->
  no_char ">" (remote_target d) = true ->
  (build_ops d ops).1 !! i = Some req \/ req = build_ack_for_2xx d n r ->
  request_path (loose d) req = map extract_uri (route_set d) ++ [remote_target d] /\
  head (request_path (loose d) req) = Some (next_hop_uri d).
Proof.
  intros Hu Hr Ht H.
  assert (exists k, request_of d k req) as [k Hk].
  { destruct H as [H | ->]; eexists; [by eapply build_ops_request | apply build_ack_request]. }
  rewrite (request_path_spec d k req Hr Ht Hk). split; [done|].
  unfold next_hop_uri. by destruct (route_set d).
Qed.

Lemma dialog_request_path_witness :
  request_path true (build_ack_for_2xx sample_dialog 7 3) =
    ["sip:118.177.125.1:5060;lr"; "sip:192.0.2.77:5060;lr"; "sip:a@192.0.2.9:5060"].
Proof.
  refine (proj1 (dialog_request_path sample_dialog [] 0 _ 7 3 _ _ _ (or_intror eq_refl))).
  - by vm_compute.
  - repeat constructor; by vm_compute.
  - by vm_compute.
Defined.

(** Where the requests go. A dialog whose first hop is a proxy named by an
    IPv4 address and a port (the P-CSCF of the NGN) sends there, whatever the
    fallback. *)
Theorem dialog_next_hop_literal dlg a b c d p rest fallback :
  u8 a -> u8 b -> u8 c -> u8 d -> u16 p ->
  route_set dlg = ("<" +:+ ipv4_uri a b c d p +:+ ">") :: rest ->
  next_hop_socket dlg fallback = mkAddr (V4 a b c d) p.
Proof.
  intros Ha Hb Hc Hd Hp Hr. apply next_hop_ipv4; try done. unfold next_hop_uri. rewrite Hr.
  apply extract_bracketed. unfold ipv4_uri. rewrite !no_char_app.
  rewrite (addr_no_char ">" (print_ipv4 a b c d)), (addr_no_char ">" (print_uint p)) by
    (done || apply print_ipv4_addr || apply print_uint_addr). done.
Qed.

Lemma dialog_next_hop_literal_witness :
  next_hop_socket sample_dialog (mkAddr (V4 0 0 0 0) 0) = mkAddr (V4 118 177 125 1) 5060.
Proof.
  apply (dialog_next_hop_literal sample_dialog 118 177 125 1 5060 ["<sip:192.0.2.77:5060;lr>"]);
    by vm_compute.
Defined.

(** The route set does not depend on how the Record-Route values are spread
    over the header lines: proxies [groups] of them per line give the callee
    their concatenation, and the caller its reverse. *)
Theorem route_set_grouping request response cfg d groups :
  Forall (fun g => Forall route_ok g /\ g <> []) groups ->
  (hdr_get_all (req_headers request) "record-route" = map (join ", ") groups ->
   from_uas_invite request response cfg = Ok d -> route_set d = concat groups) /\
  (hdr_get_all (resp_headers response) "record-route" = map (join ", ") groups ->
   from_uac_response request response cfg = Ok d -> route_set d = rev (concat groups)).
Proof.
  intros Hg. split; intros Hh Hd; unfold from_uas_invite, from_uac_response in Hd; inv_outcome;
    subst d; cbn [route_set]; by rewrite (record_routes_groups _ groups Hh Hg).
Qed.

Lemma route_set_grouping_witness :
  from_uas_invite sample_dialog_invite
    (accept sample_dialog_invite 200 "OK" "<sip:117@192.0.2.1:5070>" "" 5)
    (sample_cfg "sip:117@ntt" "sip:a@ntt") = Ok sample_callee /\
  route_set sample_callee = ["<sip:118.177.125.1:5060;lr>"; "<sip:192.0.2.77:5060;lr>"].
Proof.
  split; [by vm_compute|].
  refine (proj1 (route_set_grouping sample_dialog_invite
    (accept sample_dialog_invite 200 "OK" "<sip:117@192.0.2.1:5070>" "" 5)
    (sample_cfg "sip:117@ntt" "sip:a@ntt") sample_callee
    [["<sip:118.177.125.1:5060;lr>"; "<sip:192.0.2.77:5060;lr>"]] _) _ _).
  - repeat constructor; by vm_compute.
  - by vm_compute.
  - by vm_compute.
Defined.

(** A tag whose name is not in lower case is lost. [has_to_tag] accepts any
    letter case, so the response keeps such a To and adds no tag, but
    [parse_tag] reads lower-case names only: the callee never establishes the
    dialog of its own response. *)
Theorem tag_case_no_dialog invite status reason contact body r cfg uri t :
  hdr_get (req_headers invite) "to" = Some ("<" +:+ uri +:+ ">;Tag=" +:+ t) ->
  depth_after 0 ("<" +:+ uri +:+ ">") = 0 -> no_char ";" uri = true ->
  trimmed t -> t <> "" -> no_char ";" t = true -> no_char "<" t = true -> no_char ">" t = true ->
  has_to_tag ("<" +:+ uri +:+ ">;Tag=" +:+ t) = true /\
  forall d, from_uas_invite invite (accept invite status reason contact body r) cfg <> Ok d.
Proof.
  intros Hto Hb Hu Ht Hne H1 H2 H3.
  replace ("<" +:+ uri +:+ ">;Tag=" +:+ t) with (("<" +:+ uri +:+ ">") +:+ ";" +:+ "Tag" +:+ "=" +:+ t) in *
    by (by rewrite !str_app_assoc).
  assert (no_char ";" ("<" +:+ uri +:+ ">") = true) as HA by (by rewrite !no_char_app, Hu).
  generalize dependent ("<" +:+ uri +:+ ">"). intros A Hto Hb HA.
  assert (has_to_tag (A +:+ ";" +:+ "Tag" +:+ "=" +:+ t) = true) as Hh.
  { apply (has_to_tag_append "Tag"); try done. right. by left. }
  split; [done|]. intros d Hd.
  destruct (accept_headers invite status reason contact body r) as (Hat & _ & _).
  rewrite Hto in Hat. cbn [fmap option_fmap option_map] in Hat.
  unfold with_to_tag in Hat. rewrite Hh, andb_false_r in Hat.
  unfold from_uas_invite in Hd. inv_outcome. rewrite Hat in Heq1. injection Heq1 as <-.
  revert Heq3. unfold parse_tag.
  change (A +:+ ";" +:+ "Tag" +:+ "=" +:+ t) with (A +:+ String ";" ("Tag" +:+ "=" +:+ t)).
  rewrite split_on_app by done.
  rewrite split_on_no_char by exact H1. cbn [tail first_tag].
  rewrite trim_id by (apply (trimmed_tag "Tag"); [right; by left | done | done]). done.
Qed.

Definition tag_case_invite : SipRequest :=
  mkRequest Invite "sip:117@ntt"
    [("from", "<sip:a@ntt>;tag=f1"); ("to", "<sip:117@ntt>;Tag=x9"); ("call-id", "c@ntt");
     ("cseq", "8 INVITE"); ("contact", "<sip:a@192.0.2.9:5060>")] "".

Lemma tag_case_no_dialog_witness :
  has_to_tag "<sip:117@ntt>;Tag=x9" = true /\
  forall d, from_uas_invite tag_case_invite (accept tag_case_invite 200 "OK" "<sip:b>" "" 5)
    (sample_cfg "sip:117@ntt" "sip:a@ntt") <> Ok d.
Proof.
  apply (tag_case_no_dialog tag_case_invite 200 "OK" "<sip:b>" "" 5
    (sample_cfg "sip:117@ntt" "sip:a@ntt") "sip:117@ntt" "x9"); by vm_compute.
Defined.
