(* ===== verification/Auth.v ===== *)
(** Digest authentication (src/src/sip/auth.rs): reading a challenge, computing
    the client's Authorization, reading and verifying it on the server side,
    and building the challenges. MD5 is a parameter of the model: the [md5]
    crate's [compute], a string to the 16 bytes of its digest; the random
    number of the client nonce is an argument. *)
From S2P Require Import Prelude RustStr NetAddr.

(** A quoted string. *)
Definition q (s : string) : string := String DQUOTE (s +:+ String DQUOTE "").

(** [trim_start_matches]: the prefix is removed as long as it is there; the
    length of the string bounds the rounds. *)
Fixpoint trim_prefix_fuel (n : nat) (p s : string) : string :=
  match n with
  | O => s
  | S n => match strip_prefix p s with Some r => trim_prefix_fuel n p r | None => s end
  end.
Definition trim_start_matches (p s : string) : string := trim_prefix_fuel (String.length s) p s.

(** The loop of [split_auth_params]: whether the scan is inside quotes, and the
    slice being read (reversed). *)
Fixpoint auth_scan (in_quote : bool) (cur s : string) : list string :=
  match s with
  | EmptyString => [trim (str_rev cur)]
  | String c s =>
      if Ascii.eqb c DQUOTE then auth_scan (negb in_quote) (String c cur) s
      else if Ascii.eqb c "," && negb in_quote then trim (str_rev cur) :: auth_scan in_quote EmptyString s
      else auth_scan in_quote (String c cur) s
  end.
Definition split_auth_params (s : string) : list string := auth_scan false EmptyString s.

(** The name and the value of a parameter. *)
Definition read_param (part : string) : option (string * string) :=
  '(k, v) ← split_once "=" part;
  Some (trim k, trim_char DQUOTE (trim v)).

(** ** Challenges *)

Record DigestChallenge := mkChallenge {
  ch_realm : string;
  ch_nonce : string;
  ch_algorithm : string;
  ch_qop : option string;
  ch_opaque : option string
}.

Inductive AuthError := BadAuthParam (part : string) | MissingField.

Definition challenge_param (c : DigestChallenge) (k v : string) : DigestChallenge :=
  if String.eqb k "realm" then mkChallenge v (ch_nonce c) (ch_algorithm c) (ch_qop c) (ch_opaque c)
  else if String.eqb k "nonce" then mkChallenge (ch_realm c) v (ch_algorithm c) (ch_qop c) (ch_opaque c)
  else if String.eqb k "algorithm" then mkChallenge (ch_realm c) (ch_nonce c) v (ch_qop c) (ch_opaque c)
  else if String.eqb k "qop" then mkChallenge (ch_realm c) (ch_nonce c) (ch_algorithm c) (Some v) (ch_opaque c)
  else if String.eqb k "opaque" then mkChallenge (ch_realm c) (ch_nonce c) (ch_algorithm c) (ch_qop c) (Some v)
  else c.

Fixpoint challenge_params (c : DigestChallenge) (parts : list string)
  : outcome AuthError DigestChallenge :=
  match parts with
  | [] => Ok c
  | part :: parts =>
      '(k, v) ← ok_or (read_param part) (BadAuthParam part);
      challenge_params (challenge_param c k v) parts
  end.

Definition challenge_parse (www_authenticate : string) : outcome AuthError DigestChallenge :=
  let s := trim_start_matches "digest " (trim_start_matches "Digest " www_authenticate) in
  challenge_params (mkChallenge "" "" "MD5" None None) (split_auth_params s).

Definition build_authenticate_value (realm nonce : string) (stale : bool) (opaque : option string)
  : string :=
  let header :=
    "Digest realm=" +:+ q realm +:+ ", nonce=" +:+ q nonce +:+ ", algorithm=MD5, qop=" +:+ q "auth"
      +:+ ", stale=" +:+ (if stale then "true" else "false") in
  match opaque with
  | Some o => header +:+ ", opaque=" +:+ q o
  | None => header
  end.
Definition build_www_authenticate := build_authenticate_value.
Definition build_proxy_authenticate := build_authenticate_value.

(** ** Authorizations *)

Record DigestAuthorization := mkAuth {
  au_username : string;
  au_realm : string;
  au_nonce : string;
  au_uri : string;
  au_response : string;
  au_algorithm : string;
  au_qop : option string;
  au_nc : option string;
  au_cnonce : option string;
  au_opaque : option string
}.

Definition auth_param (a : DigestAuthorization) (k v : string) : DigestAuthorization :=
  let '(mkAuth us re no ur rs al qo nc cn op) := a in
  if String.eqb k "username" then mkAuth v re no ur rs al qo nc cn op
  else if String.eqb k "realm" then mkAuth us v no ur rs al qo nc cn op
  else if String.eqb k "nonce" then mkAuth us re v ur rs al qo nc cn op
  else if String.eqb k "uri" then mkAuth us re no v rs al qo nc cn op
  else if String.eqb k "response" then mkAuth us re no ur v al qo nc cn op
  else if String.eqb k "algorithm" then mkAuth us re no ur rs v qo nc cn op
  else if String.eqb k "qop" then mkAuth us re no ur rs al (Some v) nc cn op
  else if String.eqb k "nc" then mkAuth us re no ur rs al qo (Some v) cn op
  else if String.eqb k "cnonce" then mkAuth us re no ur rs al qo nc (Some v) op
  else if String.eqb k "opaque" then mkAuth us re no ur rs al qo nc cn (Some v)
  else a.

Definition auth_params (a : DigestAuthorization) (parts : list string) : DigestAuthorization :=
  fold_left (fun a part =>
    match read_param part with Some (k, v) => auth_param a k v | None => a end) parts a.

Definition authorization_parse (authorization : string) : outcome AuthError DigestAuthorization :=
  let s := trim_start_matches "digest " (trim_start_matches "Digest " (trim authorization)) in
  let a := auth_params (mkAuth "" "" "" "" "" "MD5" None None None None) (split_auth_params s) in
  ensure (negb (String.eqb (au_username a) "" || String.eqb (au_realm a) ""
                || String.eqb (au_nonce a) "" || String.eqb (au_response a) "")) MissingField ;;
  Ok a.

(** [constant_time_eq]: the loop accumulates the differences. *)
Fixpoint diff_bytes (diff : Z) (a b : string) : Z :=
  match a, b with
  | String x a, String y b => diff_bytes (Z.lor diff (Z.lxor (code x) (code y))) a b
  | _, _ => diff
  end.
Definition constant_time_eq (a b : string) : bool :=
  if negb (String.length a =? String.length b)%nat then false else diff_bytes 0 a b =? 0.

Record DigestCredentials := mkCred { cr_username : string; cr_password : string }.
Record DigestResponse := mkDigest { header_value : string; dg_cnonce : string; dg_nc : Z }.

Section digest.
Context (md5 : string -> list Z).

Definition md5_hex (input : string) : string :=
  String.concat "" (map (hex_padded 2) (md5 input)).

(** [format!] of strings separated by colons. *)
Definition colons (l : list string) : string := join ":" l.

Definition qop_auth (o : option string) : bool := bool_decide (o = Some "auth").

Definition compute (c : DigestCredentials) (challenge : DigestChallenge) (method uri : string)
    (nc rnd : Z) : DigestResponse :=
  let cnonce := hex_padded 16 rnd in
  let ha1 := md5_hex (colons [cr_username c; ch_realm challenge; cr_password c]) in
  let ha2 := md5_hex (colons [method; uri]) in
  let response :=
    if qop_auth (ch_qop challenge) then
      md5_hex (colons [ha1; ch_nonce challenge; hex_padded 8 nc; cnonce; "auth"; ha2])
    else md5_hex (colons [ha1; ch_nonce challenge; ha2]) in
  let header :=
    "Digest username=" +:+ q (cr_username c) +:+ ", realm=" +:+ q (ch_realm challenge)
      +:+ ", nonce=" +:+ q (ch_nonce challenge) +:+ ", uri=" +:+ q uri
      +:+ ", response=" +:+ q response in
  let header :=
    if qop_auth (ch_qop challenge) then
      header +:+ ", qop=auth, nc=" +:+ hex_padded 8 nc +:+ ", cnonce=" +:+ q cnonce
    else header in
  let header :=
    match ch_opaque challenge with
    | Some opaque => header +:+ ", opaque=" +:+ q opaque
    | None => header
    end in
  mkDigest (header +:+ ", algorithm=" +:+ ch_algorithm challenge) cnonce nc.

Definition expected_response (a : DigestAuthorization) (method password : string) : string :=
  let ha1 := md5_hex (colons [au_username a; au_realm a; password]) in
  let ha2 := md5_hex (colons [method; au_uri a]) in
  if qop_auth (au_qop a) then
    md5_hex (colons [ha1; au_nonce a; default "" (au_nc a); default "" (au_cnonce a); "auth"; ha2])
  else md5_hex (colons [ha1; au_nonce a; ha2]).

Definition verify (a : DigestAuthorization) (method password : string) : bool :=
  constant_time_eq (expected_response a method password) (au_response a).
End digest.

(** ** Parameter lists *)

(** No comma outside quotes, and the quotes closed at the end. *)
Fixpoint quotes_ok (in_quote : bool) (s : string) : bool :=
  match s with
  | EmptyString => negb in_quote
  | String c s =>
      if Ascii.eqb c DQUOTE then quotes_ok (negb in_quote) s
      else negb (Ascii.eqb c "," && negb in_quote) && quotes_ok in_quote s
  end.

Definition param_ok (p : string) : Prop := trimmed p /\ quotes_ok false p = true.

Lemma auth_scan_value b cur x s :
  quotes_ok b x = true -> (forall c s', s = String c s' -> c = ","%char) ->
  auth_scan b cur (x +:+ s) =
  trim (str_rev cur +:+ x) ::
    (match s with EmptyString => [] | String _ s' => auth_scan false EmptyString s' end).
Proof.
  intros Hx Hs. revert b cur Hx. induction x as [|c x IH]; intros b cur Hx.
  - cbn in Hx. destruct b; [done|]. cbn [String.append]. rewrite str_app_nil_r.
    destruct s as [|c s']; [done|]. by rewrite (Hs c s' eq_refl).
  - cbn [String.append auth_scan quotes_ok] in *.
    assert (forall b', quotes_ok b' x = true ->
      auth_scan b' (String c cur) (x +:+ s) = trim (str_rev cur +:+ String c x) ::
        (match s with EmptyString => [] | String _ s' => auth_scan false EmptyString s' end)) as Hgo.
    { intros b' Hb. rewrite (IH b' _ Hb), str_rev_cons, str_app_assoc. done. }
    destruct (Ascii.eqb c DQUOTE); [by apply Hgo|].
    apply andb_true_iff in Hx as [Hc Hx]. apply negb_true_iff in Hc. rewrite Hc. by apply Hgo.
Qed.

Lemma split_auth_join l : Forall param_ok l -> l <> [] -> split_auth_params (join ", " l) = l.
Proof.
  intros Hl Hne. unfold split_auth_params.
  assert (forall cur, cur = "" \/ cur = " " -> auth_scan false cur (join ", " l) = l) as H;
    [|by apply H; left].
  induction Hl as [|x l [Ht Hx] Hl IH]; [done|]. intros cur Hcur.
  assert (trim (str_rev cur +:+ x) = x) as Htr.
  { destruct Hcur as [-> | ->]; [by apply trim_id | by apply trim_space]. }
  destruct l as [|y l].
  - cbn [join]. rewrite <- (str_app_nil_r x) at 1. rewrite auth_scan_value by done. by rewrite Htr.
  - change (join ", " (x :: y :: l)) with (x +:+ String "," (String " " (join ", " (y :: l)))).
    rewrite auth_scan_value; [|done|by intros c s' [= <- _]].
    rewrite Htr. f_equal. apply IH; [done | by right].
Qed.

Lemma trim_prefix_none n p s : strip_prefix p s = None -> trim_prefix_fuel n p s = s.
Proof. destruct n; cbn; [done|]. by intros ->. Qed.

Lemma trim_start_once p s : p <> "" -> strip_prefix p s = None -> trim_start_matches p (p +:+ s) = s.
Proof.
  intros Hp Hs. unfold trim_start_matches. destruct p as [|c p]; [done|].
  cbn [String.append String.length trim_prefix_fuel].
  change (String c (p +:+ s)) with (String c p +:+ s). rewrite strip_prefix_app.
  by apply trim_prefix_none.
Qed.

(** ** Quoted and plain parameters *)

Definition quoted (k v : string) : string := k +:+ "=" +:+ q v.
Definition plain (k v : string) : string := k +:+ "=" +:+ v.

(** A parameter name. *)
Definition name_ok (k : string) : bool :=
  match k with
  | EmptyString => false
  | String _ _ => all_chars (fun c => is_graph c && negb (Ascii.eqb c DQUOTE)
      && negb (Ascii.eqb c ",") && negb (Ascii.eqb c "=")) k
  end.

Lemma quotes_ok_free b x s :
  no_char DQUOTE x = true -> (b = false -> no_char "," x = true) ->
  quotes_ok b (x +:+ s) = quotes_ok b s.
Proof.
  induction x as [|c x IH]; intros H1 H2; [done|]. unfold no_char in *. cbn [all_chars] in *.
  apply andb_true_iff in H1 as [H1 H1']. apply negb_true_iff in H1.
  cbn [String.append quotes_ok]. rewrite Ascii.eqb_sym, H1.
  destruct b; cbn [negb]; rewrite ?andb_false_r, ?andb_true_r; [by apply IH|].
  specialize (H2 eq_refl). apply andb_true_iff in H2 as [H2 H2']. rewrite Ascii.eqb_sym, H2.
  by apply IH.
Qed.

Lemma name_ok_chars k : name_ok k = true ->
  exists c r, k = String c r /\ is_graph c = true /\ no_char DQUOTE k = true /\
    no_char "," k = true /\ no_char "=" k = true /\ trimmed k.
Proof.
  destruct k as [|c r]; [done|]. cbn [name_ok]. intros H. exists c, r.
  assert (forall k (p : ascii -> bool), (forall x, is_graph x && negb (Ascii.eqb x DQUOTE)
      && negb (Ascii.eqb x ",") && negb (Ascii.eqb x "=") = true -> p x = true) ->
    all_chars (fun c => is_graph c && negb (Ascii.eqb c DQUOTE)
      && negb (Ascii.eqb c ",") && negb (Ascii.eqb c "=")) k = true -> all_chars p k = true) as Him.
  { intros k p Hp. by apply all_chars_impl. }
  split; [done|].
  assert (all_chars is_graph (String c r) = true) as Hg.
  { revert H. apply Him. intros x. by destruct (is_graph x). }
  split; [by apply andb_true_iff in Hg as [Hg _]|].
  split; [revert H; apply Him; intros x; rewrite (Ascii.eqb_sym x DQUOTE);
    by destruct (is_graph x), (Ascii.eqb DQUOTE x)|].
  split; [revert H; apply Him; intros x; rewrite (Ascii.eqb_sym x ",");
    by destruct (is_graph x), (Ascii.eqb x DQUOTE), (Ascii.eqb "," x)|].
  split; [revert H; apply Him; intros x; rewrite (Ascii.eqb_sym x "=");
    by destruct (is_graph x), (Ascii.eqb x DQUOTE), (Ascii.eqb x ","), (Ascii.eqb "=" x)|].
  split; [apply strip_ws_graph; by apply andb_true_iff in Hg as [Hg _]|].
  rewrite <- all_chars_rev in Hg. destruct (str_rev (String c r)) as [|a s]; [done|].
  apply andb_true_iff in Hg as [Hg _]. by apply strip_ws_rev_graph.
Qed.

Lemma quoted_ok k v : name_ok k = true -> no_char DQUOTE v = true -> param_ok (quoted k v).
Proof.
  intros Hk Hv. apply name_ok_chars in Hk as (c & r & -> & Hc & H1 & H2 & _ & _).
  unfold quoted, q. split.
  - replace (String c r +:+ "=" +:+ String DQUOTE (v +:+ String DQUOTE ""))
      with (String c "" +:+ (r +:+ "=" +:+ String DQUOTE v) +:+ String DQUOTE "")
      by (by rewrite !str_app_assoc).
    by apply trimmed_graph.
  - rewrite quotes_ok_free by done. change ("=" +:+ ?x) with (String "=" x). cbn [quotes_ok].
    change (Ascii.eqb "=" DQUOTE) with false. change (Ascii.eqb "=" ",") with false.
    change (Ascii.eqb DQUOTE DQUOTE) with true. cbn [negb andb].
    rewrite quotes_ok_free by done. done.
Qed.

Lemma drop_while_no c s : no_char c s = true -> drop_while (Ascii.eqb c) s = s.
Proof.
  destruct s as [|d s]; [done|]. unfold no_char. cbn [all_chars drop_while].
  intros [H _]%andb_true_iff. apply negb_true_iff in H. by rewrite H.
Qed.

Lemma trim_char_quoted v : no_char DQUOTE v = true -> trim_char DQUOTE (q v) = v.
Proof.
  intros Hv. unfold trim_char, q. cbn [drop_while]. change (Ascii.eqb DQUOTE DQUOTE) with true. cbn iota.
  assert (drop_while (Ascii.eqb DQUOTE) (v +:+ String DQUOTE "") =
    if String.eqb v "" then "" else v +:+ String DQUOTE "") as ->.
  { destruct v as [|d v]; [done|]. unfold no_char in Hv. cbn [all_chars] in Hv.
    apply andb_true_iff in Hv as [Hv _]. apply negb_true_iff in Hv.
    cbn [String.append drop_while]. by rewrite Hv. }
  destruct (String.eqb_spec v "") as [-> | Hne]; [done|].
  rewrite str_rev_app. change (str_rev (String DQUOTE "") +:+ str_rev v) with (String DQUOTE (str_rev v)).
  cbn [drop_while]. change (Ascii.eqb DQUOTE DQUOTE) with true. cbn iota.
  rewrite drop_while_no by (unfold no_char; by rewrite all_chars_rev). apply str_rev_invol.
Qed.

Lemma trim_char_id c s : no_char c s = true -> trim_char c s = s.
Proof.
  intros H. unfold trim_char. rewrite (drop_while_no c s H).
  rewrite drop_while_no by (unfold no_char; by rewrite all_chars_rev). apply str_rev_invol.
Qed.

Lemma read_quoted k v : name_ok k = true -> no_char DQUOTE v = true ->
  read_param (quoted k v) = Some (k, v).
Proof.
  intros Hk Hv. apply name_ok_chars in Hk as (c & r & -> & _ & _ & _ & He & Ht).
  unfold read_param, quoted. change ("=" +:+ ?x) with (String "=" x).
  rewrite split_once_no_char by done. cbn [mbind option_bind]. rewrite (trim_id (String c r)) by done.
  rewrite (trim_id (q v)) by (by apply (trimmed_graph DQUOTE v DQUOTE)). by rewrite trim_char_quoted.
Qed.

Lemma read_plain k v : name_ok k = true -> no_char DQUOTE v = true -> trimmed v ->
  read_param (plain k v) = Some (k, v).
Proof.
  intros Hk Hv Hvt. apply name_ok_chars in Hk as (c & r & -> & _ & _ & _ & He & Ht).
  unfold read_param, plain. change ("=" +:+ ?x) with (String "=" x).
  rewrite split_once_no_char by done. cbn [mbind option_bind].
  by rewrite (trim_id (String c r)), (trim_id v), trim_char_id.
Qed.

(** A hexadecimal value is visible text. *)
Lemma graph_trimmed s : all_chars is_graph s = true -> trimmed s.
Proof.
  intros Hg. split.
  - destruct s; [done|]. apply strip_ws_graph. by apply andb_true_iff in Hg as [Hg _].
  - rewrite <- all_chars_rev in Hg. destruct (str_rev s) as [|a r]; [done|].
    apply strip_ws_rev_graph. by apply andb_true_iff in Hg as [Hg _].
Qed.

Lemma hex_no_char c n z : is_addr_char c = false -> no_char c (hex_padded n z) = true.
Proof. intros H. apply addr_no_char; [done | apply hex_padded_addr]. Qed.

Lemma hex_nonempty n z : hex_padded (S n) z <> "".
Proof. cbn [hex_padded]. by destruct (hex_padded n (z / 16)). Qed.

Lemma hex_graph n z : all_chars is_graph (hex_padded n z) = true.
Proof. eapply all_chars_impl; [apply addr_graph | apply hex_padded_addr]. Qed.

Lemma hex_plain_ok n z : param_ok (plain "nc" (hex_padded n z)).
Proof.
  unfold plain. split.
  - apply graph_trimmed. by rewrite !all_chars_app, hex_graph.
  - change ("nc" +:+ "=" +:+ hex_padded n z) with ("nc=" +:+ hex_padded n z).
    rewrite quotes_ok_free by done. rewrite <- (str_app_nil_r (hex_padded n z)).
    rewrite quotes_ok_free; [done | by apply hex_no_char | intros _; by apply hex_no_char].
Qed.

Section exchange.
Context (md5 : string -> list Z).
(** An MD5 digest has 16 bytes. *)
Context (Hmd5 : forall s, length (md5 s) = 16%nat).

Lemma md5_hex_addr s : all_chars is_addr_char (md5_hex md5 s) = true.
Proof using.
  unfold md5_hex. induction (md5 s) as [|b l IH]; [done|].
  destruct l as [|b' l]; [apply hex_padded_addr|].
  change (String.concat "" (map (hex_padded 2) (b :: b' :: l)))
    with (hex_padded 2 b +:+ "" +:+ String.concat "" (map (hex_padded 2) (b' :: l))).
  by rewrite !all_chars_app, hex_padded_addr, IH.
Qed.

Lemma md5_hex_nonempty s : md5_hex md5 s <> "".
Proof using Hmd5.
  unfold md5_hex. specialize (Hmd5 s). destruct (md5 s) as [|b [|b' l]]; [done..|].
  change (String.concat "" (map (hex_padded 2) (b :: b' :: l)))
    with (hex_padded 2 b +:+ "" +:+ String.concat "" (map (hex_padded 2) (b' :: l))).
  cbn [hex_padded]. done.
Qed.
End exchange.

(** A name ends in visible text, and so does what it ends. *)
Lemma name_ok_graph v : name_ok v = true -> all_chars is_graph v = true /\ v <> "".
Proof.
  destruct v as [|c v]; [done|]. intros H. split; [|done]. cbn [name_ok] in H.
  revert H. apply all_chars_impl. intros x. by destruct (is_graph x).
Qed.
Lemma trimmed_end c x v : is_graph c = true -> name_ok v = true -> trimmed (String c x +:+ v).
Proof.
  intros Hc [Hg Hne]%name_ok_graph. split; [by apply strip_ws_graph|]. rewrite str_rev_app.
  rewrite <- all_chars_rev in Hg. destruct (str_rev v) as [|d r] eqn:Hr.
  - exfalso. apply Hne. rewrite <- (str_rev_invol v), Hr. done.
  - apply andb_true_iff in Hg as [Hg _]. by apply (strip_ws_rev_graph d).
Qed.

Lemma plain_ok k v : name_ok k = true -> name_ok v = true -> param_ok (plain k v).
Proof.
  intros Hk Hv. apply name_ok_chars in Hk as (c & r & -> & Hc & H1 & H2 & _ & _). unfold plain. split.
  - rewrite <- str_app_assoc. by apply (trimmed_end c (r +:+ "=")).
  - apply name_ok_chars in Hv as (d & t & -> & Hd & K1 & K2 & _ & _).
    rewrite quotes_ok_free by done. change ("=" +:+ ?x) with (String "=" x). cbn [quotes_ok].
    change (Ascii.eqb "=" DQUOTE) with false. change (Ascii.eqb "=" ",") with false. cbn [negb andb].
    pose proof (quotes_ok_free false (String d t) "" K1 (fun _ => K2)) as Hf. rewrite str_app_nil_r in Hf. exact Hf.
Qed.

Lemma read_plain_name k v : name_ok k = true -> name_ok v = true -> read_param (plain k v) = Some (k, v).
Proof.
  intros Hk Hv. apply read_plain; [done | |]; by apply name_ok_chars in Hv as (d & t & -> & Hd & K1 & K2 & _ & Kt).
Qed.

(** The parameters of a challenge, with whatever algorithm and quality of
    protection. *)
Definition challenge_list (realm nonce alg : string) (stale : bool) (qop opaque : option string) : list string :=
  [quoted "realm" realm; quoted "nonce" nonce; plain "algorithm" alg]
  ++ match qop with Some o => [quoted "qop" o] | None => [] end
  ++ [plain "stale" (if stale then "true" else "false")]
  ++ match opaque with Some o => [quoted "opaque" o] | None => [] end.
Definition challenge_text (realm nonce alg : string) (stale : bool) (qop opaque : option string) : string :=
  "Digest " +:+ join ", " (challenge_list realm nonce alg stale qop opaque).

(** The challenges of this server. *)
Lemma challenge_text_built realm nonce stale opaque :
  build_authenticate_value realm nonce stale opaque = challenge_text realm nonce "MD5" stale (Some "auth") opaque.
Proof.
  unfold challenge_text, build_authenticate_value, challenge_list, quoted, plain.
  destruct opaque; cbn [app join]; by rewrite !str_app_assoc.
Qed.

Definition no_quote (o : option string) : Prop := forall s, o = Some s -> no_char DQUOTE s = true.

Lemma challenge_parse_text realm nonce alg stale qop opaque :
  no_char DQUOTE realm = true -> no_char DQUOTE nonce = true -> name_ok alg = true -> no_quote qop -> no_quote opaque ->
  challenge_parse (challenge_text realm nonce alg stale qop opaque) = Ok (mkChallenge realm nonce alg qop opaque).
Proof.
  intros Hr Hn Ha Hq Ho. unfold challenge_parse, challenge_text.
  rewrite trim_start_once by done. unfold trim_start_matches. rewrite trim_prefix_none by done.
  rewrite split_auth_join; [| |done].
  2: { unfold challenge_list. do 3 (apply Forall_cons; split; [first [by apply quoted_ok | by apply plain_ok]|]).
       apply Forall_app. split; [destruct qop as [o|]; [|done]; apply Forall_singleton, quoted_ok; [done | by apply Hq]|].
       apply Forall_cons. split; [by apply plain_ok; [|destruct stale]|].
       destruct opaque as [o|]; [|done]. apply Forall_singleton, quoted_ok; [done | by apply Ho]. }
  unfold challenge_list.
  destruct qop as [o|]; [specialize (Hq o eq_refl)|]; (destruct opaque as [o'|]; [specialize (Ho o' eq_refl)|]);
    cbn [app challenge_params];
    rewrite (read_quoted "realm" realm), (read_quoted "nonce" nonce), (read_plain_name "algorithm" alg),
      (read_plain "stale" (if stale then "true" else "false")) by (done || by destruct stale);
    rewrite ?(read_quoted "qop" o), ?(read_quoted "opaque" o') by done; done.
Qed.

Lemma challenge_parse_built realm nonce stale opaque :
  no_char DQUOTE realm = true -> no_char DQUOTE nonce = true ->
  (forall o, opaque = Some o -> no_char DQUOTE o = true) ->
  challenge_parse (build_authenticate_value realm nonce stale opaque) =
  Ok (mkChallenge realm nonce "MD5" (Some "auth") opaque).
Proof.
  intros Hr Hn Ho. rewrite challenge_text_built. apply challenge_parse_text; try done. by intros o [= <-].
Qed.

(** The parameters of an Authorization: with a quality of protection of [auth], the
    count and the client nonce go with it. *)
Definition authorization_list (user realm nonce uri response cnonce alg : string) (auth : bool) (nc : Z)
    (opaque : option string) : list string :=
  [quoted "username" user; quoted "realm" realm; quoted "nonce" nonce; quoted "uri" uri;
   quoted "response" response]
  ++ (if auth then [plain "qop" "auth"; plain "nc" (hex_padded 8 nc); quoted "cnonce" cnonce] else [])
  ++ match opaque with Some o => [quoted "opaque" o] | None => [] end ++ [plain "algorithm" alg].

Lemma join_snoc sep l x : l <> [] -> join sep (l ++ [x]) = join sep l +:+ sep +:+ x.
Proof.
  induction l as [|a [|b l] IH]; [done | done |]. intros _.
  change (join sep ((a :: b :: l) ++ [x])) with (a +:+ sep +:+ join sep ((b :: l) ++ [x])).
  rewrite IH by done. change (join sep (a :: b :: l)) with (a +:+ sep +:+ join sep (b :: l)).
  by rewrite !str_app_assoc.
Qed.

Lemma authorization_list_ok user realm nonce uri response cnonce alg auth nc opaque :
  Forall (fun s => no_char DQUOTE s = true) [user; realm; nonce; uri; response; cnonce] ->
  name_ok alg = true -> no_quote opaque ->
  Forall param_ok (authorization_list user realm nonce uri response cnonce alg auth nc opaque).
Proof.
  intros Hq Ha Ho. repeat (apply Forall_cons in Hq as [? Hq]). unfold authorization_list.
  do 5 (apply Forall_cons; split; [by apply quoted_ok|]). apply Forall_app. split.
  - destruct auth; [|done]. apply Forall_cons; split; [by apply plain_ok|].
    apply Forall_cons; split; [apply hex_plain_ok|]. by apply Forall_singleton, quoted_ok.
  - apply Forall_app. split; [|apply Forall_singleton; by apply plain_ok].
    destruct opaque as [o|]; [|done]. apply Forall_singleton, quoted_ok; [done | by apply Ho].
Qed.

Lemma authorization_parse_list user realm nonce uri response cnonce alg (auth : bool) nc opaque :
  Forall (fun s => no_char DQUOTE s = true) [user; realm; nonce; uri; response; cnonce] ->
  name_ok alg = true -> no_quote opaque ->
  Forall (fun s => s <> "") [user; realm; nonce; response] ->
  authorization_parse
    ("Digest " +:+ join ", " (authorization_list user realm nonce uri response cnonce alg auth nc opaque)) =
  Ok (mkAuth user realm nonce uri response alg (if auth then Some "auth" else None)
        (if auth then Some (hex_padded 8 nc) else None) (if auth then Some cnonce else None) opaque).
Proof.
  intros Hq Ha Ho Hne. unfold authorization_parse.
  pose proof (authorization_list_ok user realm nonce uri response cnonce alg auth nc opaque Hq Ha Ho) as Hl.
  repeat (apply Forall_cons in Hq as [? Hq]). repeat (apply Forall_cons in Hne as [? Hne]).
  rewrite trim_id.
  2: { unfold authorization_list. rewrite !app_assoc, join_snoc by (by destruct auth, opaque). unfold plain.
       rewrite <- !str_app_assoc. by apply (trimmed_end "D"). }
  rewrite trim_start_once by done.
  unfold trim_start_matches. rewrite trim_prefix_none by done.
  rewrite split_auth_join by done.
  assert (auth_params (mkAuth "" "" "" "" "" "MD5" None None None None)
      (authorization_list user realm nonce uri response cnonce alg auth nc opaque) =
    mkAuth user realm nonce uri response alg (if auth then Some "auth" else None)
        (if auth then Some (hex_padded 8 nc) else None) (if auth then Some cnonce else None) opaque)
    as ->.
  { unfold auth_params, authorization_list.
    destruct auth; (destruct opaque as [o|]; [specialize (Ho o eq_refl)|]); cbn [app fold_left];
      rewrite (read_quoted "username" user), (read_quoted "realm" realm), (read_quoted "nonce" nonce),
        (read_quoted "uri" uri), (read_quoted "response" response), (read_plain_name "algorithm" alg) by done;
      rewrite ?(read_quoted "cnonce" cnonce), ?(read_plain "qop" "auth"), ?(read_quoted "opaque" o) by done;
      rewrite ?(read_plain "nc" (hex_padded 8 nc))
        by (done || by apply hex_no_char || apply graph_trimmed, hex_graph); done. }
  cbn [au_username au_realm au_nonce au_response].
  rewrite !(fun s Hs => proj2 (String.eqb_neq s "") Hs) by done. done.
Qed.

(** The response of RFC 2617 3.2.2.1, with [H] the hexadecimal digest. *)
Definition rfc_response (H : string -> string) (user realm pw method uri nonce nc cnonce : string) (auth : bool) : string :=
  let ha1 := H (user +:+ ":" +:+ realm +:+ ":" +:+ pw) in
  let ha2 := H (method +:+ ":" +:+ uri) in
  if auth then H (ha1 +:+ ":" +:+ nonce +:+ ":" +:+ nc +:+ ":" +:+ cnonce +:+ ":auth:" +:+ ha2)
  else H (ha1 +:+ ":" +:+ nonce +:+ ":" +:+ ha2).

(** The header that [compute] writes. *)
Lemma compute_header md5 user pw realm nonce alg qop opaque method uri nc rnd :
  let auth := qop_auth qop in
  header_value (compute md5 (mkCred user pw) (mkChallenge realm nonce alg qop opaque) method uri nc rnd) =
  "Digest " +:+ join ", " (authorization_list user realm nonce uri
    (rfc_response (md5_hex md5) user realm pw method uri nonce (hex_padded 8 nc) (hex_padded 16 rnd) auth)
    (hex_padded 16 rnd) alg auth nc opaque).
Proof.
  cbv zeta. unfold compute, rfc_response, colons.
  cbn [header_value ch_qop ch_realm ch_nonce ch_opaque ch_algorithm cr_username cr_password].
  unfold authorization_list, quoted, plain. destruct (qop_auth qop), opaque as [o|]; cbn [app join];
    by rewrite !str_app_assoc.
Qed.

(** What the server expects of an Authorization. *)
Lemma expected_rfc md5 user realm nonce uri r alg (auth : bool) nc cnonce opaque method pw :
  expected_response md5 (mkAuth user realm nonce uri r alg (if auth then Some "auth" else None)
    (if auth then Some nc else None) (if auth then Some cnonce else None) opaque) method pw =
  rfc_response (md5_hex md5) user realm pw method uri nonce nc cnonce auth.
Proof. unfold expected_response, rfc_response, colons. by destruct auth. Qed.

(** ** Comparing responses *)

Lemma diff_bytes_spec d a b :
  0 <= d -> String.length a = String.length b -> (diff_bytes d a b =? 0) = (d =? 0) && String.eqb a b.
Proof.
  revert d b. induction a as [|x a IH]; intros d b Hd Hl; destruct b as [|y b]; try done.
  - cbn. by rewrite andb_true_r.
  - cbn [diff_bytes]. injection Hl as Hl. pose proof (code_range x). pose proof (code_range y).
    assert (0 <= Z.lor d (Z.lxor (code x) (code y))) as Hp.
    { apply Z.lor_nonneg. split; [done|]. apply Z.lxor_nonneg. lia. }
    rewrite IH by done. cbn [String.eqb].
    assert ((Z.lor d (Z.lxor (code x) (code y)) =? 0) = (d =? 0) && Ascii.eqb x y) as ->.
    { destruct (Z.eqb_spec (Z.lor d (Z.lxor (code x) (code y))) 0) as [He | He].
      - apply Z.lor_eq_0_iff in He as [-> He]. apply Z.lxor_eq in He.
        rewrite <- (chr_code x), He, chr_code, Ascii.eqb_refl. done.
      - symmetry. apply andb_false_iff. destruct (Z.eqb_spec d 0) as [-> | ]; [right | by left].
        apply Ascii.eqb_neq. intros ->. by rewrite Z.lxor_nilpotent in He. }
    destruct (d =? 0), (Ascii.eqb x y); done.
Qed.

Lemma constant_time_eq_spec a b : constant_time_eq a b = String.eqb a b.
Proof.
  unfold constant_time_eq. destruct (Nat.eqb_spec (String.length a) (String.length b)) as [He | He]; cbn [negb].
  - by rewrite diff_bytes_spec.
  - symmetry. apply String.eqb_neq. by intros ->.
Qed.

Lemma str_app_inj_l a b c : a +:+ b = a +:+ c -> b = c.
Proof. induction a as [|x a IH]; cbn [String.append]; [done|]. intros [= H]. by apply IH. Qed.

Lemma str_app_inj_r a b c : b +:+ a = c +:+ a -> b = c.
Proof.
  intros H. apply (f_equal str_rev) in H. rewrite !str_rev_app in H. apply str_app_inj_l in H.
  by rewrite <- (str_rev_invol b), H, str_rev_invol.
Qed.

(** The answer to a challenge is read back, and what verifies is its response. *)
Lemma digest_answer_read md5 realm nonce alg qop opaque user pw method uri nc rnd :
  (forall s, length (md5 s) = 16%nat) ->
  Forall (fun s => no_char DQUOTE s = true) [user; realm; nonce; uri] ->
  name_ok alg = true -> no_quote opaque ->
  Forall (fun s => s <> "") [user; realm; nonce] ->
  let auth := qop_auth qop in
  let expected := rfc_response (md5_hex md5) user realm pw method uri nonce (hex_padded 8 nc) (hex_padded 16 rnd) auth in
  let answer r := mkAuth user realm nonce uri r alg (if auth then Some "auth" else None)
    (if auth then Some (hex_padded 8 nc) else None) (if auth then Some (hex_padded 16 rnd) else None) opaque in
  authorization_parse (header_value (compute md5 (mkCred user pw)
    (mkChallenge realm nonce alg qop opaque) method uri nc rnd)) = Ok (answer expected) /\
  forall r, verify md5 (answer r) method pw = true <-> r = expected.
Proof.
  intros Hmd Hq Ha Ho Hne auth expected answer. repeat (apply Forall_cons in Hq as [? Hq]). repeat (apply Forall_cons in Hne as [? Hne]).
  assert (expected <> "" /\ no_char DQUOTE expected = true) as [Hr1 Hr2].
  { unfold expected, rfc_response. destruct auth;
      (split; [by apply md5_hex_nonempty | apply addr_no_char; [done | apply md5_hex_addr]]). }
  split.
  - rewrite compute_header. apply authorization_parse_list; [|done|done | by repeat constructor].
    repeat (apply Forall_cons; split); try done. by apply hex_no_char.
  - intros r. unfold verify, answer. rewrite expected_rfc, constant_time_eq_spec. cbn [au_response].
    rewrite String.eqb_eq. by split.
Qed.

Lemma digest_answer md5 realm nonce opaque user pw method uri nc rnd :
  (forall s, length (md5 s) = 16%nat) ->
  Forall (fun s => no_char DQUOTE s = true) [user; realm; nonce; uri] ->
  (forall o, opaque = Some o -> no_char DQUOTE o = true) ->
  Forall (fun s => s <> "") [user; realm; nonce] ->
  exists a,
    authorization_parse (header_value (compute md5 (mkCred user pw)
      (mkChallenge realm nonce "MD5" (Some "auth") opaque) method uri nc rnd)) = Ok a /\
    (au_username a = user /\ au_realm a = realm /\ au_nonce a = nonce /\ au_uri a = uri /\
     au_nc a = Some (hex_padded 8 nc) /\ au_opaque a = opaque) /\
    verify md5 a method pw = true.
Proof.
  intros Hmd Hq Ho Hne.
  destruct (digest_answer_read md5 realm nonce "MD5" (Some "auth") opaque user pw method uri nc rnd Hmd Hq eq_refl Ho Hne)
    as [Hp Hv].
  eexists. split; [exact Hp|]. split; [done|]. by apply Hv.
Qed.

(** ** Properties *)


(** A digest with the shape of MD5's, to evaluate the model on. *)
Definition toy_digest (s : string) : list Z :=
  replicate 15 7 ++ [Z.of_nat (String.length s) mod 256].


(** No other password. Two different passwords that verify the same
    Authorization exhibit a collision of the digest: two different strings that
    it maps to the same value. *)
Theorem digest_password_unique md5 a method pw pw' :
  verify md5 a method pw = true -> verify md5 a method pw' = true ->
  pw = pw' \/ exists x y, x <> y /\ md5_hex md5 x = md5_hex md5 y.
Proof.
  unfold verify. rewrite !constant_time_eq_spec. intros H1%String.eqb_eq H2%String.eqb_eq.
  rewrite <- H2 in H1. clear H2. unfold expected_response in H1.
  set (in1 := colons [au_username a; au_realm a; pw]) in *.
  set (in2 := colons [au_username a; au_realm a; pw']) in *.
  assert (forall x y, md5_hex md5 x = md5_hex md5 y ->
    x = y \/ exists x y, x <> y /\ md5_hex md5 x = md5_hex md5 y) as Hc.
  { intros x y He. destruct (decide (x = y)); [by left | right; eauto]. }
  assert (md5_hex md5 in1 = md5_hex md5 in2 \/ exists x y, x <> y /\ md5_hex md5 x = md5_hex md5 y) as [He | ?];
    [|destruct (Hc _ _ He) as [Hin | ?]; [left | by right] | by right].
  - destruct (qop_auth (au_qop a)); apply Hc in H1 as [H1 | ?]; try (by right); left;
      unfold colons in H1; cbn [join] in H1; by apply str_app_inj_r in H1.
  - unfold in1, in2, colons in Hin. cbn [join] in Hin. by do 4 apply str_app_inj_l in Hin.
Qed.

Definition toy_authorization : DigestAuthorization :=
  mkAuth "100" "r" "n" "u" "07070707070707070707070707070743" "MD5" None None None None.

Lemma digest_password_unique_witness :
  verify toy_digest toy_authorization "M" "a" = true /\
  verify toy_digest toy_authorization "M" "b" = true /\
  ("a" = "b" \/ exists x y, x <> y /\ md5_hex toy_digest x = md5_hex toy_digest y).
Proof.
  split; [by vm_compute|]. split; [by vm_compute|].
  apply (digest_password_unique toy_digest toy_authorization "M" "a" "b"); by vm_compute.
Defined.

(** A challenge that offers a list of qop values is answered without any. *)
Lemma qop_list_ignored md5 c realm nonce method uri nc rnd :
  exists response,
    header_value (compute md5 c (mkChallenge realm nonce "MD5" (Some "auth,auth-int") None) method uri nc rnd) =
    "Digest " +:+ join ", " [quoted "username" (cr_username c); quoted "realm" realm;
      quoted "nonce" nonce; quoted "uri" uri; quoted "response" response; plain "algorithm" "MD5"].
Proof.
  unfold compute. cbn [header_value ch_qop ch_realm ch_nonce ch_opaque ch_algorithm].
  change (qop_auth (Some "auth,auth-int")) with false. cbn iota.
  eexists. unfold quoted, plain. cbn [join]. rewrite !str_app_assoc. reflexivity.
Qed.
