(* ===== verification/Registrar.v ===== *)
(** The registrar of the extensions (src/src/sip/registrar.rs): one binding per
    address of record, with its expiry.

    [RegistrarOps] and [RegistrarLaws] are what the user agent server relies on;
    [ExtensionRegistrar] is the table of the code, and implements them. Instants
    are nanoseconds on the monotonic clock, given to every operation that reads
    it. *)
From S2P Require Import Prelude RustStr NetAddr.

(** How an extension is called. The shared handles of a browser are known by
    their identity. *)
Inductive ExtTransport :=
  | Sip
  | WebRtc (peer ws pending : Z).

Record Binding := mkBinding {
  contact_uri : string;
  bd_remote : SocketAddr;
  expires_at : Z;
  transport : ExtTransport
}.

Definition is_expired (b : Binding) (now : Z) : bool := expires_at b <=? now.

(** ** The interface *)

Class RegistrarOps (T : Type) := {
  reg_empty : T;
  reg_register_with_transport : T -> string -> string -> SocketAddr -> Z -> ExtTransport -> Z -> T;
  reg_unregister : T -> string -> T;
  reg_lookup : T -> string -> Z -> option Binding;
  reg_purge : T -> Z -> T * list string;
  reg_count : T -> Z -> nat
}.

Definition reg_register {T} `{RegistrarOps T} (t : T) (aor contact : string) (remote : SocketAddr) (expires now : Z) : T :=
  reg_register_with_transport t aor contact remote expires Sip now.

(** Time only goes forward between the operations. *)
Class RegistrarLaws (T : Type) `{RegistrarOps T} : Prop := {
  reg_lookup_empty aor now : reg_lookup reg_empty aor now = None;
  lookup_registered_with t aor contact remote expires tr t0 now aor' :
    t0 <= now ->
    reg_lookup (reg_register_with_transport t aor contact remote expires tr t0) aor' now =
    if String.eqb aor aor' then
      if now <? t0 + expires then Some (mkBinding contact remote (t0 + expires) tr) else None
    else reg_lookup t aor' now;
  lookup_unregistered t aor now aor' :
    reg_lookup (reg_unregister t aor) aor' now = if String.eqb aor aor' then None else reg_lookup t aor' now;
  lookup_purged t t0 aor now :
    t0 <= now -> reg_lookup (reg_purge t t0).1 aor now = reg_lookup t aor now;
  purged_expired t t0 aor : aor ∈ (reg_purge t t0).2 -> reg_lookup t aor t0 = None
}.

Lemma lookup_registered {T} `{RegistrarLaws T} (t : T) aor contact remote expires t0 now aor' : t0 <= now ->
  reg_lookup (reg_register t aor contact remote expires t0) aor' now =
  if String.eqb aor aor' then
    if now <? t0 + expires then Some (mkBinding contact remote (t0 + expires) Sip) else None
  else reg_lookup t aor' now.
Proof. apply lookup_registered_with. Qed.

(** ** The table *)

Record ExtensionRegistrar := mkRegistrar { inner : gmap string Binding }.

Definition unregister (t : ExtensionRegistrar) (aor : string) : ExtensionRegistrar :=
  mkRegistrar (delete aor (inner t)).

Definition register_with_transport (t : ExtensionRegistrar) (aor contact : string)
    (remote : SocketAddr) (expires : Z) (tr : ExtTransport) (now : Z) : ExtensionRegistrar :=
  if expires =? 0 then unregister t aor
  else mkRegistrar (<[aor := mkBinding contact remote (now + expires) tr]> (inner t)).

Definition register (t : ExtensionRegistrar) (aor contact : string) (remote : SocketAddr)
    (expires now : Z) : ExtensionRegistrar :=
  register_with_transport t aor contact remote expires Sip now.

Definition lookup (t : ExtensionRegistrar) (aor : string) (now : Z) : option Binding :=
  match inner t !! aor with
  | Some b => if is_expired b now then None else Some b
  | None => None
  end.

(** [snapshot]: the live bindings, in the order of the map. *)
Definition snapshot (t : ExtensionRegistrar) (now : Z) : list (string * Binding) :=
  List.filter (fun '(_, b) => negb (is_expired b now)) (map_to_list (inner t)).

(** [purge_expired_returning_removed]: the [retain] loop. *)
Definition purge_expired_returning_removed (t : ExtensionRegistrar) (now : Z)
  : ExtensionRegistrar * list string :=
  (mkRegistrar (filter (fun '(_, b) => is_expired b now = false) (inner t)),
   map fst (List.filter (fun '(_, b) => is_expired b now) (map_to_list (inner t)))).
Definition purge_expired (t : ExtensionRegistrar) (now : Z) : ExtensionRegistrar * nat :=
  let '(t, removed) := purge_expired_returning_removed t now in (t, length removed).

#[export] Instance table_ops : RegistrarOps ExtensionRegistrar := {
  reg_empty := mkRegistrar ∅;
  reg_register_with_transport := register_with_transport;
  reg_unregister := unregister;
  reg_lookup := lookup;
  reg_purge := purge_expired_returning_removed;
  reg_count t now := length (snapshot t now)
}.

Lemma lookup_purge_table t t0 aor now :
  t0 <= now -> lookup (purge_expired_returning_removed t t0).1 aor now = lookup t aor now.
Proof.
  intros Ht. unfold lookup, purge_expired_returning_removed. cbn [fst inner].
  destruct (inner t !! aor) as [b|] eqn:Hb.
  - destruct (is_expired b t0) eqn:He.
    + rewrite (map_lookup_filter_None_2 _ (inner t) aor); [|right; intros x Hx Hp; cbn in Hp; congruence].
      unfold is_expired in *. by rewrite (proj2 (Z.leb_le _ now)) by lia.
    + by rewrite (map_lookup_filter_Some_2 _ (inner t) aor b).
  - by rewrite (map_lookup_filter_None_2 _ (inner t) aor) by (by left).
Qed.

#[export] Instance table_laws : RegistrarLaws ExtensionRegistrar.
Proof.
  constructor; cbn.
  - intros aor now. unfold lookup. cbn [inner]. by rewrite lookup_empty.
  - intros t aor contact remote expires tr t0 now aor' Ht.
    unfold register_with_transport, unregister, lookup.
    destruct (Z.eqb_spec expires 0) as [-> | Hz]; cbn [inner].
    + destruct (String.eqb_spec aor aor') as [<- | Hne].
      * rewrite lookup_delete_eq. by rewrite (proj2 (Z.ltb_ge now _)) by lia.
      * by rewrite lookup_delete_ne.
    + destruct (String.eqb_spec aor aor') as [<- | Hne].
      * rewrite lookup_insert_eq. unfold is_expired. cbn [expires_at].
        destruct (Z.leb_spec (t0 + expires) now), (Z.ltb_spec now (t0 + expires)); done || lia.
      * by rewrite lookup_insert_ne.
  - intros t aor now aor'. unfold unregister, lookup. cbn [inner]. destruct (String.eqb_spec aor aor') as [<- | Hne].
    + by rewrite lookup_delete_eq.
    + by rewrite lookup_delete_ne.
  - intros. by apply lookup_purge_table.
  - intros t t0 aor Ha. apply list_elem_of_fmap in Ha as ([a b] & -> & Hab).
    apply list_elem_of_In, List.filter_In in Hab as [Hin He].
    apply list_elem_of_In, elem_of_map_to_list in Hin. unfold lookup. cbn [fst]. by rewrite Hin, He.
Qed.
