(* ===== verification/MessageLog.v ===== *)
(** The log of short messages (src/src/call/message_log.rs): a bounded buffer
    of the MESSAGE requests received and sent. The wall clock is an argument. *)
From S2P Require Import Prelude RustStr Utf8 SipMessage.

Inductive Direction := Inbound | Outbound.

Record SmsMessage := mkSms {
  sms_direction : Direction;
  sms_from : string;
  sms_to : string;
  sms_body : string;
  timestamp : Z
}.

Definition sms_from_inbound_message (req : SipRequest) (now : Z) : option SmsMessage :=
  let h := req_headers req in
  let ct := to_ascii_lowercase (default "" (hdr_get h "content-type")) in
  if negb (starts_with "text/plain" ct) then None
  else if is_utf8 (req_body req) then
    Some (mkSms Inbound (default "" (hdr_get h "from")) (default "" (hdr_get h "to"))
            (req_body req) now)
  else None.

Record MessageLog := mkLog { entries : list SmsMessage; max_size : nat }.

Definition log_new (n : nat) : MessageLog := mkLog [] n.

(** [while entries.len() > max_size { pop_front }]. *)
Fixpoint pop_to {A} (n : nat) (l : list A) : list A :=
  match l with
  | [] => []
  | x :: l' => if (n <? length l)%nat then pop_to n l' else l
  end.

Definition log_push (log : MessageLog) (m : SmsMessage) : MessageLog :=
  if (max_size log =? 0)%nat then log
  else mkLog (pop_to (max_size log) (entries log ++ [m])) (max_size log).

Definition recent (log : MessageLog) (n : nat) : list SmsMessage :=
  if (n =? 0)%nat then [] else take (n `min` length (entries log)) (rev (entries log)).

Lemma pop_to_drop {A} n (l : list A) : pop_to n l = drop (length l - n) l.
Proof.
  induction l as [|x l IH]; [done|]. cbn [pop_to].
  destruct (Nat.ltb_spec n (length (x :: l))) as [Hlt | Hge].
  - rewrite IH. cbn [length] in *. by replace (S (length l) - n)%nat with (S (length l - n)) by lia.
  - by replace (length (x :: l) - n)%nat with 0%nat by lia.
Qed.

(** The newest messages of the log after a sequence of them. *)
Lemma log_pushes_rev n ms : (0 < n)%nat ->
  max_size (fold_left log_push ms (log_new n)) = n /\
  rev (entries (fold_left log_push ms (log_new n))) = take n (rev ms).
Proof.
  intros Hn. induction ms as [|m ms IH] using rev_ind; [cbn; by rewrite take_nil|].
  rewrite fold_left_app. cbn [fold_left]. destruct IH as [Hmax IH].
  destruct (fold_left log_push ms (log_new n)) as [l n']. cbn in Hmax, IH. subst n'.
  unfold log_push. cbn [max_size entries]. rewrite (proj2 (Nat.eqb_neq n 0)) by lia.
  split; [done|]. cbn [entries]. rewrite pop_to_drop, <- firstn_rev, !rev_app_distr.
  cbn [rev app]. rewrite IH. destruct n as [|n]; [lia|]. cbn [firstn].
  by rewrite firstn_firstn, Nat.min_l by lia.
Qed.

(** ** Properties *)

(** The log is the sliding window it means to be: after any sequence of
    messages, [recent k] is the [k] newest ones, newest first, limited by the
    capacity; a capacity of zero keeps nothing. *)
Theorem message_log_recent n ms k :
  recent (fold_left log_push ms (log_new n)) k = take (k `min` n) (rev ms).
Proof.
  destruct n as [|n].
  - rewrite Nat.min_0_r, take_0.
    assert (fold_left log_push ms (log_new 0) = log_new 0) as ->.
    { induction ms as [|m ms IH]; [done|]. exact IH. }
    unfold recent. cbn. by destruct (k =? 0)%nat; rewrite ?Nat.min_0_r.
  - destruct (log_pushes_rev (S n) ms ltac:(lia)) as [_ Hr]. unfold recent.
    destruct (Nat.eqb_spec k 0) as [-> | Hk]; [done|].
    rewrite <- length_rev, Hr, firstn_firstn, length_firstn.
    destruct (Nat.le_gt_cases (length (rev ms)) (k `min` S n)) as [Hl | Hl].
    + rewrite !take_ge by lia. done.
    + f_equal. lia.
Qed.
