(* ===== verification/Uas.v ===== *)
(** The user agent server of the extensions (src/src/sip/uas.rs): it
    authenticates REGISTER requests with digests, keeps the bindings in the
    registrar, admits the INVITEs of registered extensions and hands the calls
    to the handler above.

    [handle_request] is one round of the receive loop: the request that the
    transaction layer delivers, to the responses handed to its server
    transaction and the events sent up, with the new state. The clocks, the
    random numbers of every response and the result of the first send are
    arguments. The table of bindings is any [RegistrarOps]; the theorems rely on
    [RegistrarLaws] only, and hold of [ExtensionRegistrar]. *)
From S2P Require Import Prelude RustStr NetAddr SipMessage SipUtils Transaction Auth Registrar MessageLog.

Definition SUPPORTED_METHODS_ALLOW : string := "INVITE, ACK, BYE, CANCEL, OPTIONS, REFER".

Record UasConfig := mkUasConfig { bind_addr : SocketAddr; realm : string; max_expires : Z }.

Inductive UasEvent :=
  | EvInvite (from_aor : string) (request : SipRequest) (remote : SocketAddr)
  | EvReinvite (request : SipRequest) (remote : SocketAddr)
  | EvBye (request : SipRequest) (remote : SocketAddr)
  | EvCancel (request : SipRequest) (remote : SocketAddr)
  | EvAck (request : SipRequest) (remote : SocketAddr)
  | EvInfo (request : SipRequest) (remote : SocketAddr)
  | EvUnregister (aor : string)
  | EvRefer (request : SipRequest) (remote : SocketAddr).

(** The channel to the handler: not set, or set and open or closed. *)
Inductive upstream := NoHandler | Handler (open : bool).

(** What a request causes. *)
Inductive uas_output := Reply (resp : SipResponse) | Event (ev : UasEvent).

(** The random numbers drawn for a response. *)
Record Rnd := mkRnd { r_skeleton : Z; r_tag : Z; r_nonce : Z }.

(** ** Headers *)

Definition ensure_to_tag (resp : SipResponse) (r : Z) : SipResponse :=
  match hdr_get (resp_headers resp) "to" with
  | Some to =>
      if negb (has_to_tag to) then
        mkResponse (status_code resp) (reason resp)
          (hdr_set (resp_headers resp) "To" (to +:+ ";tag=" +:+ new_tag r)) (resp_body resp)
      else resp
  | None => resp
  end.

Definition set_header (resp : SipResponse) (name v : string) : SipResponse :=
  mkResponse (status_code resp) (reason resp) (hdr_set (resp_headers resp) name v) (resp_body resp).

Fixpoint contact_expires (parts : list string) : option Z :=
  match parts with
  | [] => None
  | part :: parts =>
      match strip_prefix "expires=" (trim part) with
      | Some v =>
          match parse_uint 32 (trim_char DQUOTE v) with
          | Some n => Some n
          | None => contact_expires parts
          end
      | None => contact_expires parts
      end
  end.

Definition parse_register_expires (request : SipRequest) : Z :=
  let h := req_headers request in
  match hdr_get h "contact" ≫= (fun c => contact_expires (split_on ";" c)) with
  | Some n => n
  | None => default 3600 (hdr_get h "expires" ≫= (fun v => parse_uint 32 (trim v)))
  end.

Definition extract_user_from_addr (value : string) : option string :=
  let trimmed := trim value in
  let uri_part :=
    match split_once "<" trimmed with
    | Some (_, rest) => match split_once ">" rest with Some (u, _) => u | None => rest end
    | None => match split_once ";" trimmed with Some (u, _) => u | None => trimmed end
    end in
  let after_scheme := match split_once ":" uri_part with Some (_, r) => r | None => uri_part end in
  match split_once "@" after_scheme with
  | Some (user, _) => if String.eqb user "" then None else Some user
  | None => None
  end.

Definition extract_uri_from_contact (contact : string) : string :=
  let s := trim contact in
  match bracketed s with
  | Some uri => uri
  | None => trim (default s (head (split_on ";" s)))
  end.

(** ** Responses ([ResponderHandle]) *)

Definition quick (request : SipRequest) (status : Z) (reason : string) (r : Rnd) : SipResponse :=
  let resp := build_response_skeleton request status reason (r_skeleton r) in
  if negb (status =? 100) then ensure_to_tag resp (r_tag r) else resp.

Definition respond_with_body (request : SipRequest) (status : Z) (reason content_type body : string)
    (r : Rnd) : SipResponse :=
  let resp := build_response_skeleton request status reason (r_skeleton r) in
  let resp :=
    if negb (String.eqb body "") then
      mkResponse (status_code resp) (SipMessage.reason resp)
        (hdr_set (resp_headers resp) "Content-Type" content_type) body
    else resp in
  ensure_to_tag resp (r_tag r).

Definition quick_with_allow (request : SipRequest) (status : Z) (reason allow : string) (r : Rnd)
  : SipResponse :=
  let resp := build_response_skeleton request status reason (r_skeleton r) in
  let resp := set_header resp "Allow" allow in
  if negb (status =? 100) then ensure_to_tag resp (r_tag r) else resp.

(** The accounts: a user listed twice has the last password. *)
Definition auth_db_of (extensions : list (string * string)) : gmap string string :=
  fold_left (fun db '(user, password) => <[user := password]> db) extensions ∅.

Section uas.
Context (md5 : string -> list Z).
Context {T : Type} `{RegistrarOps T}.

Record ExtensionUas := mkUas {
  config : UasConfig;
  auth_db : gmap string string;
  registrar : T;
  event_tx : upstream;
  registered_gauge : Z;
  message_log : option MessageLog
}.

Definition bind (cfg : UasConfig) (extensions : list (string * string)) (tx : upstream)
    (log : option MessageLog) : ExtensionUas :=
  mkUas cfg (auth_db_of extensions) reg_empty tx 0 log.

Definition set_registrar (u : ExtensionUas) (t : T) (gauge : Z) : ExtensionUas :=
  mkUas (config u) (auth_db u) t (event_tx u) gauge (message_log u).

(** [tx.send]: an event for a closed channel is lost. *)
Definition emit (u : ExtensionUas) (ev : UasEvent) : list uas_output :=
  match event_tx u with
  | Handler true => [Event ev]
  | _ => []
  end.

Definition connected (u : ExtensionUas) : bool :=
  match event_tx u with NoHandler => false | Handler _ => true end.

Definition send_challenge (u : ExtensionUas) (request : SipRequest) (reason : string) (r : Rnd)
  : SipResponse :=
  let nonce := new_call_id (r_nonce r) in
  let header := build_www_authenticate (realm (config u)) nonce false None in
  let resp := build_response_skeleton request 401 reason (r_skeleton r) in
  let resp := ensure_to_tag resp (r_tag r) in
  set_header resp "WWW-Authenticate" header.

Definition handle_register (u : ExtensionUas) (request : SipRequest) (remote : SocketAddr)
    (now : Z) (r : Rnd) : list uas_output * ExtensionUas :=
  let h := req_headers request in
  match authorization_parse <$> hdr_get h "authorization" with
  | None => ([Reply (send_challenge u request "Unauthorized" r)], u)
  | Some (Ok auth) =>
      match auth_db u !! au_username auth with
      | None => ([Reply (quick request 403 "Forbidden" r)], u)
      | Some password =>
          if negb (verify md5 auth "REGISTER" password) then
            ([Reply (send_challenge u request "Unauthorized" r)], u)
          else
            let aor := au_username auth in
            let contact_uri :=
              match hdr_get h "contact" with
              | Some c => extract_uri_from_contact c
              | None => "sip:" +:+ aor +:+ "@" +:+ print_socket remote
              end in
            let expires := Z.min (parse_register_expires request) (max_expires (config u)) in
            let is_unregister := expires =? 0 in
            let t := reg_register (registrar u) aor contact_uri remote (from_secs expires) now in
            let u := set_registrar u t (Z.of_nat (reg_count t now)) in
            let events := if is_unregister then emit u (EvUnregister aor) else [] in
            let resp := build_response_skeleton request 200 "OK" (r_skeleton r) in
            let resp := ensure_to_tag resp (r_tag r) in
            let resp :=
              match hdr_get h "contact" with
              | Some c => set_header resp "Contact" (c +:+ ";expires=" +:+ print_uint expires)
              | None => resp
              end in
            let resp := set_header resp "Expires" (print_uint expires) in
            (events ++ [Reply resp], u)
      end
  | Some _ => ([Reply (send_challenge u request "Bad Authorization" r)], u)
  end.

(** [sent] is the result of sending the 100. *)
Definition handle_invite (u : ExtensionUas) (request : SipRequest) (remote : SocketAddr)
    (now : Z) (rnd : nat -> Rnd) (sent : bool) : list uas_output :=
  let h := req_headers request in
  let is_reinvite := match hdr_get h "to" with Some to => has_to_tag to | None => false end in
  let trying := Reply (quick request 100 "Trying" (rnd 0%nat)) in
  if is_reinvite then
    if negb sent then [trying]
    else trying ::
      (if connected u then emit u (EvReinvite request remote)
       else [Reply (quick request 481 "Call/Transaction Does Not Exist" (rnd 1%nat))])
  else
    match hdr_get h "from" ≫= extract_user_from_addr with
    | None => [Reply (quick request 400 "Bad Request" (rnd 0%nat))]
    | Some from_aor =>
        match reg_lookup (registrar u) from_aor now with
        | None => [Reply (quick request 403 "Forbidden" (rnd 0%nat))]
        | Some _ =>
            if negb sent then [trying]
            else trying ::
              (if connected u then emit u (EvInvite from_aor request remote)
               else [Reply (quick request 503 "Service Unavailable" (rnd 1%nat))])
        end
    end.

Definition handle_bye (u : ExtensionUas) (request : SipRequest) (remote : SocketAddr) (r : Rnd)
  : list uas_output :=
  if connected u then emit u (EvBye request remote) else [Reply (quick request 200 "OK" r)].

Definition handle_message (u : ExtensionUas) (request : SipRequest) (wall : Z) : ExtensionUas :=
  match message_log u with
  | Some log =>
      match sms_from_inbound_message request wall with
      | Some sms =>
          mkUas (config u) (auth_db u) (registrar u) (event_tx u) (registered_gauge u)
            (Some (log_push log sms))
      | None => u
      end
  | None => u
  end.

Definition handle_request (u : ExtensionUas) (request : SipRequest) (remote : SocketAddr)
    (now wall : Z) (rnd : nat -> Rnd) (sent : bool) : list uas_output * ExtensionUas :=
  let r := rnd 0%nat in
  let refuse status reason :=
    ([Reply (quick_with_allow request status reason SUPPORTED_METHODS_ALLOW r)], u) in
  match server_new request remote with
  | Ok _ =>
      match req_method request with
      | Register => handle_register u request remote now r
      | Invite => (handle_invite u request remote now rnd sent, u)
      | Bye => (handle_bye u request remote r, u)
      | Cancel => (Reply (quick request 200 "OK" r) :: emit u (EvCancel request remote), u)
      | Ack => (emit u (EvAck request remote), u)
      | Options => ([Reply (quick request 200 "OK" r)], u)
      | Info =>
          (if connected u then emit u (EvInfo request remote)
           else [Reply (quick request 481 "Call/Transaction Does Not Exist" r)], u)
      | Notify => refuse 481 "Subscription Does Not Exist"
      | Subscribe => refuse 489 "Bad Event"
      | Prack => refuse 481 "Call/Transaction Does Not Exist"
      | Publish => refuse 200 "OK"
      | Update => refuse 481 "Call/Transaction Does Not Exist"
      | Message =>
          ([Reply (quick_with_allow request 200 "OK" SUPPORTED_METHODS_ALLOW r)],
           handle_message u request wall)
      | Refer =>
          (if connected u then emit u (EvRefer request remote)
           else [Reply (quick_with_allow request 405 "Method Not Allowed" SUPPORTED_METHODS_ALLOW r)], u)
      | Other _ => refuse 405 "Method Not Allowed"
      end
  | _ => ([], u)
  end.

(** The periodic task of [run]. *)
Definition purge_tick (u : ExtensionUas) (now : Z) : list uas_output * ExtensionUas :=
  let '(t, removed) := reg_purge (registrar u) now in
  (concat (map (fun aor => emit u (EvUnregister aor)) removed),
   set_registrar u t (Z.of_nat (reg_count t now))).

(** ** Runs *)

Inductive uas_input :=
  | Inbound_ (request : SipRequest) (remote : SocketAddr) (wall : Z) (rnd : nat -> Rnd) (sent : bool)
  | Tick.

Definition uas_step (u : ExtensionUas) (now : Z) (i : uas_input) : list uas_output * ExtensionUas :=
  match i with
  | Inbound_ request remote wall rnd sent => handle_request u request remote now wall rnd sent
  | Tick => purge_tick u now
  end.

(** The registrar is shared with the signaling of the browsers: main.rs hands both the
    same. A browser that registers writes the binding of its extension, which its session
    has authenticated with a token; when the session ends, the binding goes. *)
Inductive shared_input :=
  | OfUas (i : uas_input)
  | BrowserRegisters (aor contact : string) (remote : SocketAddr) (ttl peer ws pending : Z)
  | BrowserGone (aor : string).
Definition shared_step (u : ExtensionUas) (now : Z) (i : shared_input) : list uas_output * ExtensionUas :=
  match i with
  | OfUas i => uas_step u now i
  | BrowserRegisters aor contact remote ttl peer ws pending =>
      ([], set_registrar u (reg_register_with_transport (registrar u) aor contact remote ttl (WebRtc peer ws pending) now) (registered_gauge u))
  | BrowserGone aor => ([], set_registrar u (reg_unregister (registrar u) aor) (registered_gauge u))
  end.
End uas.
Arguments ExtensionUas T : clear implicits.

(** ** Responses mirror their request *)

Record mirrors (req : SipRequest) (resp : SipResponse) : Prop := {
  mr_from : hdr_get (resp_headers resp) "from" = hdr_get (req_headers req) "from";
  mr_call_id : hdr_get (resp_headers resp) "call-id" = hdr_get (req_headers req) "call-id";
  mr_cseq : hdr_get (resp_headers resp) "cseq" = hdr_get (req_headers req) "cseq";
  mr_to to : status_code resp <> 100 -> hdr_get (req_headers req) "to" = Some to ->
    depth_after 0 to = 0 ->
    exists to', hdr_get (resp_headers resp) "to" = Some to' /\ has_to_tag to' = true
}.

Lemma mirrors_skeleton req status reason r :
  mirrors req (build_response_skeleton req status reason r).
Proof.
  destruct (skeleton_headers req status reason r) as (_ & Hf & Ht & Hci & Hcs & _ & _).
  constructor; [done..|]. intros to Hst Hto Hd. rewrite Ht, Hto. eexists. split; [reflexivity|].
  by apply with_to_tag_tagged.
Qed.

(** A header that is none of the mirrored ones. *)
Definition other_header (name : string) : bool :=
  negb (same_header name "from" || same_header name "call-id" || same_header name "cseq"
        || same_header name "to").

Lemma mirrors_set req resp name v :
  other_header name = true -> mirrors req resp -> mirrors req (set_header resp name v).
Proof.
  unfold other_header. rewrite negb_true_iff, !orb_false_iff. intros [[[H1 H2] H3] H4] [].
  constructor; unfold set_header; cbn [resp_headers status_code]; rewrite hdr_get_set, ?H1, ?H2, ?H3, ?H4; done.
Qed.

Lemma mirrors_ensure req resp r : mirrors req resp -> mirrors req (ensure_to_tag resp r).
Proof.
  intros [Hf Hci Hcs Hto]. unfold ensure_to_tag.
  destruct (hdr_get (resp_headers resp) "to") as [to|] eqn:Ht; [|by constructor; rewrite ?Ht].
  destruct (has_to_tag to) eqn:Htag; cbn [negb]; [by constructor; rewrite ?Ht|].
  constructor; cbn [resp_headers status_code]; rewrite ?hdr_get_set; eval_headers; try done.
  intros to0 H1 H2 H3. destruct (Hto to0 H1 H2 H3) as (to' & Ht' & Htag'). congruence.
Qed.

Create HintDb uas.
#[export] Hint Resolve mirrors_skeleton mirrors_ensure : uas.
#[export] Hint Extern 2 (mirrors _ (set_header _ _ _)) => apply mirrors_set; [reflexivity|] : uas.

Lemma mirrors_quick req status reason r : mirrors req (quick req status reason r).
Proof. unfold quick. case_bool; auto with uas. Qed.

Lemma mirrors_allow req status reason allow r : mirrors req (quick_with_allow req status reason allow r).
Proof. unfold quick_with_allow. case_bool; auto with uas. Qed.
#[export] Hint Resolve mirrors_quick mirrors_allow : uas.

Lemma parse_register_expires_range req : 0 <= parse_register_expires req.
Proof.
  unfold parse_register_expires.
  assert (forall parts n, contact_expires parts = Some n -> 0 <= n) as Hc.
  { induction parts as [|p parts IH]; cbn [contact_expires]; intros n; [done|].
    destruct (strip_prefix "expires=" (trim p)); [|by apply IH].
    destruct (parse_uint 32 _) as [m|] eqn:Hp; [|by apply IH].
    intros [= <-]. by apply parse_uint_range in Hp as []. }
  destruct (hdr_get (req_headers req) "contact" ≫= _) as [n|] eqn:Hn.
  - destruct (hdr_get (req_headers req) "contact"); cbn in Hn; [by eapply Hc | done].
  - destruct (hdr_get (req_headers req) "expires") as [v|]; cbn; [|done].
    destruct (parse_uint 32 (trim v)) as [m|] eqn:Hp; cbn; [|done]. by apply parse_uint_range in Hp as [].
Qed.

Section proofs.
Context (md5 : string -> list Z).
Context {T : Type} `{RegistrarLaws T}.

(** The request carries an Authorization of the account [aor] that verifies. *)
Definition authorizes (db : gmap string string) (req : SipRequest) (aor : string) : Prop :=
  exists hdr a pw,
    hdr_get (req_headers req) "authorization" = Some hdr /\ authorization_parse hdr = Ok a /\
    au_username a = aor /\ db !! aor = Some pw /\ verify md5 a "REGISTER" pw = true.

(** The lifetime a REGISTER is granted. *)
Definition granted (cfg : UasConfig) (req : SipRequest) : Z :=
  from_secs (Z.min (parse_register_expires req) (max_expires cfg)).

(** The states reached by a history of requests, purges and browsers. *)
Inductive uas_reach (u0 : ExtensionUas T) : list (Z * shared_input) -> Z -> ExtensionUas T -> Prop :=
  | ur_start t : uas_reach u0 [] t u0
  | ur_step hist t u now i :
      uas_reach u0 hist t u -> t <= now ->
      uas_reach u0 (hist ++ [(now, i)]) now (shared_step md5 u now i).2.

(** What a browser does with the binding of [aor]. *)
Definition of_browser (aor : string) (i : shared_input) : bool :=
  match i with OfUas _ => false | BrowserRegisters a _ _ _ _ _ _ | BrowserGone a => String.eqb a aor end.

(** A REGISTER of the history that gave [aor] the binding [b], which no browser has
    touched since; and a browser that gave it, the last one that touched it. *)
Definition registered_by (cfg : UasConfig) (db : gmap string string) (hist : list (Z * shared_input))
    (aor : string) (b : Binding) : Prop :=
  exists before t req remote wall rnd sent later,
    hist = before ++ (t, OfUas (Inbound_ req remote wall rnd sent)) :: later /\
    forallb (fun p => negb (of_browser aor p.2)) later = true /\ req_method req = Register /\
    authorizes db req aor /\ bd_remote b = remote /\ expires_at b = t + granted cfg req /\ transport b = Sip.
Definition registered_in_browser (hist : list (Z * shared_input)) (aor : string) (b : Binding) : Prop :=
  exists before t contact remote ttl peer ws pending later,
    hist = before ++ (t, BrowserRegisters aor contact remote ttl peer ws pending) :: later /\
    forallb (fun p => negb (of_browser aor p.2)) later = true /\
    b = mkBinding contact remote (t + ttl) (WebRtc peer ws pending).

Lemma registered_later cfg db hist aor b p : of_browser aor p.2 = false ->
  registered_by cfg db hist aor b \/ registered_in_browser hist aor b ->
  registered_by cfg db (hist ++ [p]) aor b \/ registered_in_browser (hist ++ [p]) aor b.
Proof using.
  intros Hp [(before & t & req & remote & wall & rnd & sent & later & -> & Hl & Hb) | (before & t & c & r & ttl & pe & ws & pn & later & -> & Hl & Hb)].
  - left. exists before, t, req, remote, wall, rnd, sent, (later ++ [p]). rewrite <- app_assoc, forallb_app, Hl. cbn. by rewrite Hp.
  - right. exists before, t, c, r, ttl, pe, ws, pn, (later ++ [p]). rewrite <- app_assoc, forallb_app, Hl. cbn. by rewrite Hp.
Qed.

(** What handling a request can do to the table. *)
Lemma handle_request_table (u : ExtensionUas T) req remote now wall rnd sent :
  let u' := (handle_request md5 u req remote now wall rnd sent).2 in
  config u' = config u /\ auth_db u' = auth_db u /\
  (registrar u' = registrar u \/
   exists aor contact, req_method req = Register /\ authorizes (auth_db u) req aor /\
     registrar u' = reg_register (registrar u) aor contact remote (granted (config u) req) now).
Proof using.
  cbv zeta. unfold handle_request. destruct (server_new req remote) as [s | e |]; [|by auto..].
  destruct (req_method req); try (cbn [snd]; by auto).
  - unfold handle_register.
    destruct (hdr_get (req_headers req) "authorization") as [hdr|] eqn:Hh; cbn [fmap option_fmap option_map];
      [|cbn [snd]; by auto].
    destruct (authorization_parse hdr) as [a | e |] eqn:Ha; [|cbn [snd]; by auto..].
    destruct (auth_db u !! au_username a) as [pw|] eqn:Hpw; [|cbn [snd]; by auto].
    destruct (verify md5 a "REGISTER" pw) eqn:Hv; cbn [negb snd]; [|by auto].
    cbn [config auth_db registrar set_registrar].
    split; [done|]. split; [done|]. right. eexists _, _. split; [done|].
    split; [|reflexivity]. by exists hdr, a, pw.
  - cbn [snd]. unfold handle_message. destruct (message_log u); [destruct (sms_from_inbound_message req wall)|]; by auto.
Qed.

(** Every live binding comes from an authenticated REGISTER or from a browser. *)
Lemma reach_bindings cfg exts tx log hist t u :
  uas_reach (bind cfg exts tx log) hist t u ->
  config u = cfg /\ auth_db u = auth_db_of exts /\
  forall aor b now, t <= now -> reg_lookup (registrar u) aor now = Some b ->
    (registered_by cfg (auth_db_of exts) hist aor b \/ registered_in_browser hist aor b) /\ now < expires_at b.
Proof using All.
  induction 1 as [t | hist t u now i Hr (Hc & Hdb & IH) Ht].
  - split; [done|]. split; [done|]. intros aor b now _. cbn [bind registrar].
    by rewrite reg_lookup_empty.
  - assert (forall aor b now', of_browser aor i = false -> now <= now' -> reg_lookup (registrar u) aor now' = Some b ->
      (registered_by cfg (auth_db_of exts) (hist ++ [(now, i)]) aor b \/ registered_in_browser (hist ++ [(now, i)]) aor b) /\ now' < expires_at b) as Hold.
    { intros aor b now' Hi Hn Hl. destruct (IH aor b now' ltac:(lia) Hl) as [Hby Hlt]. split; [|done]. by apply registered_later. }
    destruct i as [[req remote wall rnd sent |] | aor0 contact remote ttl peer ws pending | aor0]; cbn [shared_step uas_step].
    + destruct (handle_request_table u req remote now wall rnd sent) as (Hc' & Hdb' & Htab).
      rewrite Hc', Hdb'. split; [done|]. split; [done|]. intros aor b now' Hn.
      destruct Htab as [-> | (aor0 & contact & Hm & Hauth & ->)]; [by apply Hold|].
      rewrite lookup_registered by done.
      destruct (String.eqb_spec aor0 aor) as [<- | Hne]; [|by apply Hold].
      destruct (Z.ltb_spec now' (now + granted (config u) req)) as [Hlt | ]; [|done].
      intros [= <-]. cbn [expires_at]. split; [|done].
      left. exists hist, now, req, remote, wall, rnd, sent, []. rewrite <- Hdb, <- Hc. done.
    + unfold purge_tick.
      pose proof (fun aor now' => lookup_purged (registrar u) now aor now') as Hp.
      destruct (reg_purge (registrar u) now) as [t' removed]. cbn [fst snd] in *.
      cbn [config auth_db registrar set_registrar]. split; [done|]. split; [done|].
      intros aor b now' Hn. rewrite Hp by done. by apply Hold.
    + split; [done|]. split; [done|]. intros aor b now' Hn. cbn [snd set_registrar registrar]. rewrite lookup_registered_with by done.
      destruct (String.eqb_spec aor0 aor) as [<- | Hne]; [|apply Hold; [by apply String.eqb_neq | done]].
      destruct (Z.ltb_spec now' (now + ttl)) as [Hlt | ]; [|done]. intros [= <-]. cbn [expires_at]. split; [|done].
      right. by exists hist, now, contact, remote, ttl, peer, ws, pending, [].
    + split; [done|]. split; [done|]. intros aor b now' Hn. cbn [snd set_registrar registrar]. rewrite lookup_unregistered.
      destruct (String.eqb_spec aor0 aor) as [<- | Hne]; [done|]. apply Hold; [by apply String.eqb_neq | done].
Qed.

Lemma emit_In (u : ExtensionUas T) ev o : In o (emit u ev) -> o = Event ev /\ event_tx u = Handler true.
Proof using.
  unfold emit. destruct (event_tx u) as [|[]]; cbn; [done | | done]. by intros [<- | []].
Qed.

(** The events of calls come from the admission of INVITEs. *)
Lemma invite_event (u : ExtensionUas T) now i aor req remote :
  In (Event (EvInvite aor req remote)) (uas_step md5 u now i).1 ->
  exists wall rnd sent b, i = Inbound_ req remote wall rnd sent /\ req_method req = Invite /\
    hdr_get (req_headers req) "from" ≫= extract_user_from_addr = Some aor /\
    reg_lookup (registrar u) aor now = Some b.
Proof using.
  destruct i as [req' remote' wall rnd sent |]; cbn [uas_step].
  - unfold handle_request. destruct (server_new req' remote') as [s | e |]; [|done..].
    destruct (req_method req') eqn:Hm; cbn [fst];
      try (unfold handle_bye; repeat case_match; intros Hin; cbn in Hin;
           repeat match goal with H : _ \/ _ |- _ => destruct H as [H | H] end;
           try apply emit_In in Hin as [Hin _]; simplify_eq; done).
    + unfold handle_register. repeat case_match; cbn [fst]; intros Hin; cbn in Hin;
        try (apply in_app_or in Hin as [Hin | Hin]; [|by destruct Hin as [Hin | []]]);
        repeat match goal with H : _ \/ _ |- _ => destruct H as [H | H] end;
        try apply emit_In in Hin as [Hin _]; simplify_eq; done.
    + unfold handle_invite.
      destruct (match hdr_get (req_headers req') "to" with Some to => has_to_tag to | None => false end).
      { destruct sent; cbn [negb]; [destruct (connected u)|]; intros Hin; cbn in Hin;
          repeat match goal with H : _ \/ _ |- _ => destruct H as [H | H] end;
          try apply emit_In in Hin as [Hin _]; simplify_eq; done. }
      destruct (hdr_get (req_headers req') "from" ≫= extract_user_from_addr) as [aor'|] eqn:Hf;
        [|by intros [Hin | []]].
      destruct (reg_lookup (registrar u) aor' now) as [b|] eqn:Hl; [|by intros [Hin | []]].
      intros Hin. exists wall, rnd, sent, b.
      assert (EvInvite aor req remote = EvInvite aor' req' remote') as [= -> -> ->].
      { destruct sent; cbn [negb] in Hin; [destruct (connected u)|]; cbn in Hin;
          repeat match goal with H : _ \/ _ |- _ => destruct H as [H | H] end;
          try apply emit_In in Hin as [Hin _]; by simplify_eq. }
      done.
  - unfold purge_tick. destruct (reg_purge (registrar u) now) as [t' removed]. cbn [fst].
    intros Hin. apply in_concat in Hin as (l & Hl & Hin). apply in_map_iff in Hl as (a & <- & _).
    by apply emit_In in Hin as [Hin _].
Qed.


(** The replies of a request mirror it. *)
Definition reply_ok (req : SipRequest) (o : uas_output) : Prop :=
  match o with Reply resp => mirrors req resp | Event _ => True end.

Lemma emit_reply_ok (u : ExtensionUas T) req ev : Forall (reply_ok req) (emit u ev).
Proof using. unfold emit. repeat case_match; by repeat constructor. Qed.

Lemma reply_reply_ok req resp : mirrors req resp -> Forall (reply_ok req) [Reply resp].
Proof using. intros H1. by apply Forall_singleton. Qed.

#[local] Hint Resolve emit_reply_ok reply_reply_ok : uas.

Lemma handle_request_replies (u : ExtensionUas T) req remote now wall rnd sent :
  Forall (reply_ok req) (handle_request md5 u req remote now wall rnd sent).1.
Proof using.
  unfold handle_request. destruct (server_new req remote) as [s | e |]; [|by constructor..].
  destruct (req_method req); cbn [fst]; try (by auto with uas).
  - unfold handle_register. repeat case_match; cbn [fst];
      try (apply Forall_app; split; [by auto with uas|]);
      apply reply_reply_ok; unfold send_challenge; auto 8 with uas.
  - unfold handle_invite. repeat case_match; repeat (apply Forall_cons; split); cbn [reply_ok]; auto with uas.
  - unfold handle_bye. case_match; auto with uas.
  - constructor; cbn [reply_ok]; auto with uas.
  - case_match; auto with uas.
  - case_match; auto with uas.
Qed.

(** A request that is not an ACK has an effect outside. *)
Lemma handle_request_answers (u : ExtensionUas T) req remote now wall rnd sent s :
  server_new req remote = Ok s -> req_method req <> Ack -> event_tx u <> Handler false ->
  (handle_request md5 u req remote now wall rnd sent).1 <> [].
Proof using.
  intros Hs Hm Hu. unfold handle_request. rewrite Hs.
  assert (forall ev, connected u = true -> emit u ev <> []) as He.
  { intros ev. unfold connected, emit. destruct (event_tx u) as [|[]]; done. }
  destruct (req_method req); try done; cbn [fst].
  - unfold handle_register. repeat case_match; cbn [fst]; try done; by apply not_eq_sym, app_cons_not_nil.
  - unfold handle_invite. repeat case_match; done.
  - unfold handle_bye. case_match; auto.
  - case_match; auto.
  - case_match; auto.
Qed.

(** ** Registering *)

Lemma register_unauthorized (u : ExtensionUas T) req remote now wall rnd sent s :
  server_new req remote = Ok s -> req_method req = Register ->
  hdr_get (req_headers req) "authorization" = None ->
  handle_request md5 u req remote now wall rnd sent =
  ([Reply (send_challenge u req "Unauthorized" (rnd 0%nat))], u).
Proof using.
  intros Hs Hm Ha. unfold handle_request. rewrite Hs, Hm. unfold handle_register. by rewrite Ha.
Qed.

Lemma challenge_header (u : ExtensionUas T) req reason r :
  status_code (send_challenge u req reason r) = 401 /\
  hdr_get (resp_headers (send_challenge u req reason r)) "www-authenticate" =
  Some (build_www_authenticate (realm (config u)) (new_call_id (r_nonce r)) false None).
Proof using.
  unfold send_challenge, set_header. cbn [status_code resp_headers].
  rewrite hdr_get_set. eval_headers. split; [|done]. unfold ensure_to_tag. by repeat case_match.
Qed.

Lemma new_call_id_quotable r : no_char DQUOTE (new_call_id r) = true /\ new_call_id r <> "".
Proof using.
  unfold new_call_id. split; [by rewrite no_char_app, hex_no_char|].
  by destruct (hex_padded 16 r).
Qed.

Lemma register_authorized (u : ExtensionUas T) req remote now wall rnd sent s hdr a pw contact :
  server_new req remote = Ok s -> req_method req = Register ->
  hdr_get (req_headers req) "authorization" = Some hdr -> authorization_parse hdr = Ok a ->
  auth_db u !! au_username a = Some pw -> verify md5 a "REGISTER" pw = true ->
  hdr_get (req_headers req) "contact" = Some contact ->
  exists outs resp,
    (handle_request md5 u req remote now wall rnd sent).1 = outs ++ [Reply resp] /\
    status_code resp = 200 /\
    hdr_get (resp_headers resp) "expires" =
      Some (print_uint (Z.min (parse_register_expires req) (max_expires (config u)))) /\
    registrar (handle_request md5 u req remote now wall rnd sent).2 =
      reg_register (registrar u) (au_username a) (extract_uri_from_contact contact) remote
        (granted (config u) req) now /\
    Forall (fun o => exists ev, o = Event ev) outs.
Proof using.
  intros Hs Hm Hh Ha Hdb Hv Hc. unfold handle_request. rewrite Hs, Hm.
  unfold handle_register. rewrite Hh. cbn [fmap option_fmap option_map]. rewrite Ha, Hdb, Hv, Hc.
  cbn [negb fst snd registrar set_registrar]. eexists _, _. split; [reflexivity|].
  unfold set_header. cbn [status_code resp_headers]. rewrite !hdr_get_set. eval_headers.
  split; [unfold ensure_to_tag; by repeat case_match|]. split_and!; [done | done |].
  case_match; [|constructor]. apply Forall_forall. intros o Ho. apply list_elem_of_In, emit_In in Ho as [-> _].
  by eexists.
Qed.
End proofs.

(** ** Properties *)

(** C33: calls only come from extensions that somebody has authenticated. Under any
    interleaving of requests, purges and the browsers that share the registrar, an INVITE
    is handed up only if the extension in its From holds a binding at that time, which is
    either one that an earlier REGISTER gave it whose digest answered to the password of
    that account, for the time granted to it, or one that a browser gave it with its
    session, for the time of a browser; and no browser has replaced or removed that
    binding since. *)
Theorem calls_authenticated md5 cfg exts tx log hist t u now i aor req remote :
  uas_reach (T := ExtensionRegistrar) md5 (bind cfg exts tx log) hist t u -> t <= now ->
  In (Event (EvInvite aor req remote)) (shared_step md5 u now i).1 ->
  exists b, lookup (registrar u) aor now = Some b /\ now < expires_at b /\
    match transport b with
    | Sip => exists before t0 reg wall rnd sent later,
        hist = before ++ (t0, OfUas (Inbound_ reg (bd_remote b) wall rnd sent)) :: later /\
        forallb (fun p => negb (of_browser aor p.2)) later = true /\
        req_method reg = Register /\ authorizes md5 (auth_db_of exts) reg aor /\ expires_at b = t0 + granted cfg reg
    | WebRtc peer ws pending => exists before t0 ttl later,
        hist = before ++ (t0, BrowserRegisters aor (contact_uri b) (bd_remote b) ttl peer ws pending) :: later /\
        forallb (fun p => negb (of_browser aor p.2)) later = true /\ expires_at b = t0 + ttl
    end.
Proof.
  intros Hr Ht Hin. destruct i as [i | |]; [|done..].
  apply invite_event in Hin as (_ & _ & _ & b & _ & _ & _ & Hl).
  destruct (reach_bindings md5 cfg exts tx log hist t u Hr) as (_ & _ & Hb).
  destruct (Hb aor b now Ht Hl) as [Hby Hlt]. exists b. split; [exact Hl|]. split; [exact Hlt|].
  destruct Hby as [(before & t0 & reg & rm & wall & rnd & sent & later & H1 & H2 & H3 & H4 & <- & H5 & ->) |
    (before & t0 & c & rm & ttl & pe & ws & pn & later & H1 & H2 & ->)].
  - by exists before, t0, reg, wall, rnd, sent, later.
  - by exists before, t0, ttl, later.
Qed.

Definition sample_config : UasConfig := mkUasConfig (mkAddr (V4 0 0 0 0) 5061) "sabiden" 3600.
Definition sample_rnd : nat -> Rnd := fun _ => mkRnd 1 2 3.
Definition sample_phone : SocketAddr := mkAddr (V4 192 168 0 5) 5060.
Definition sample_uas : ExtensionUas ExtensionRegistrar :=
  bind sample_config [("100", "pw")] (Handler true) None.

Definition sample_header (auth : string) : SipHeaders :=
  [("via", "SIP/2.0/UDP 192.168.0.5:5060;branch=z9hG4bKr"); ("from", "<sip:100@h>;tag=f");
   ("to", "<sip:100@h>"); ("call-id", "r@h"); ("cseq", "1 REGISTER");
   ("contact", "<sip:100@192.168.0.5:5060>;expires=60"); ("authorization", auth)].
Definition sample_register : SipRequest :=
  mkRequest Register "sip:h"
    (sample_header (header_value (compute toy_digest (mkCred "100" "pw")
      (mkChallenge "sabiden" "n" "MD5" (Some "auth") None) "REGISTER" "sip:h" 1 7))) "".
Definition sample_call : SipRequest :=
  mkRequest Invite "sip:117@h"
    [("via", "SIP/2.0/UDP 192.168.0.5:5060;branch=z9hG4bKi"); ("from", "<sip:100@h>;tag=g");
     ("to", "<sip:117@h>"); ("call-id", "i@h"); ("cseq", "1 INVITE")] "".
(** The telephone registers, and then the browser of another extension. *)
Definition sample_history : list (Z * shared_input) :=
  [(from_secs 5, OfUas (Inbound_ sample_register sample_phone 0 sample_rnd true));
   (from_secs 6, BrowserRegisters "200" "sip:200@webrtc.peer" sample_phone (from_secs 60) 1 1 1)].
Definition sample_reached : ExtensionUas ExtensionRegistrar :=
  fold_left (fun u p => (shared_step toy_digest u p.1 p.2).2) sample_history sample_uas.
(** A call over SIP from the extension of the browser. *)
Definition sample_browser_call : SipRequest :=
  mkRequest Invite "sip:117@h"
    [("via", "SIP/2.0/UDP 192.168.0.5:5060;branch=z9hG4bKi"); ("from", "<sip:200@h>;tag=g");
     ("to", "<sip:117@h>"); ("call-id", "j@h"); ("cseq", "1 INVITE")] "".

Lemma calls_authenticated_witness :
  (exists b before t0 reg wall rnd sent later, lookup (registrar sample_reached) "100" (from_secs 30) = Some b /\ from_secs 30 < expires_at b /\
    sample_history = before ++ (t0, OfUas (Inbound_ reg (bd_remote b) wall rnd sent)) :: later /\
    authorizes toy_digest (auth_db_of [("100", "pw")]) reg "100" /\ expires_at b = t0 + granted sample_config reg) /\
  (exists b peer ws pending, lookup (registrar sample_reached) "200" (from_secs 30) = Some b /\ transport b = WebRtc peer ws pending).
Proof.
  assert (uas_reach toy_digest sample_uas sample_history (from_secs 6) sample_reached) as Hr.
  { apply (ur_step toy_digest sample_uas (take 1 sample_history) (from_secs 5) (shared_step toy_digest sample_uas (from_secs 5) (OfUas (Inbound_ sample_register sample_phone 0 sample_rnd true))).2); [|by vm_compute].
    apply (ur_step toy_digest sample_uas [] 0 sample_uas (from_secs 5)); [apply ur_start | by vm_compute]. }
  split.
  - destruct (calls_authenticated toy_digest sample_config [("100", "pw")] (Handler true) None sample_history
      (from_secs 6) sample_reached (from_secs 30) (OfUas (Inbound_ sample_call sample_phone 0 sample_rnd true)) "100" sample_call sample_phone Hr)
      as (b & Hl & Hlt & Hb); [by vm_compute | |].
    + match goal with |- In _ ?l =>
        assert (exists r, l = [r; Event (EvInvite "100" sample_call sample_phone)]) as [r ->]
          by (eexists; vm_compute; reflexivity) end.
      right. by left.
    + assert (transport b = Sip) as Htr by (revert Hl; vm_compute; by intros [= <-]). rewrite Htr in Hb.
      destruct Hb as (before & t0 & reg & wall & rnd & sent & later & H1 & _ & _ & H2 & H3). by exists b, before, t0, reg, wall, rnd, sent, later.
  - destruct (calls_authenticated toy_digest sample_config [("100", "pw")] (Handler true) None sample_history
      (from_secs 6) sample_reached (from_secs 30) (OfUas (Inbound_ sample_browser_call sample_phone 0 sample_rnd true)) "200" sample_browser_call sample_phone Hr)
      as (b & Hl & Hlt & Hb); [by vm_compute | |].
    + match goal with |- In _ ?l =>
        assert (exists r, l = [r; Event (EvInvite "200" sample_browser_call sample_phone)]) as [r ->]
          by (eexists; vm_compute; reflexivity) end.
      right. by left.
    + exists b, 1, 1, 1. split; [done|]. revert Hl. vm_compute. by intros [= <-].
Defined.

(** The extension of a browser calls over SIP without a digest: its binding is enough,
    whoever sends the INVITE and from wherever. *)
Lemma browser_extension_calls_without_digest :
  auth_db sample_reached !! "200" = None /\
  In (Event (EvInvite "200" sample_browser_call (mkAddr (V4 192 168 0 66) 5060)))
    (shared_step toy_digest sample_reached (from_secs 30) (OfUas (Inbound_ sample_browser_call (mkAddr (V4 192 168 0 66) 5060) 0 sample_rnd true))).1.
Proof.
  split; [done|]. match goal with |- In ?e ?l => assert (exists r, l = [r; e]) as [r ->] by (eexists; vm_compute; reflexivity) end. right. by left.
Qed.

(** Registration succeeds. A REGISTER without credentials is answered with
    a 401 whose challenge the client can read; a client that knows the password
    of a configured account and answers that challenge is answered with a 200
    that announces the granted lifetime, and from then on, until it has run out,
    the extension is bound to its Contact and its source address. *)
Theorem registration_flow md5 (u : ExtensionUas ExtensionRegistrar) req1 req2 remote now1 now2 wall1 wall2
    rnd1 rnd2 sent1 sent2 s1 s2 user pw uri nc rnd contact :
  (forall s, length (md5 s) = 16%nat) ->
  Forall (fun s => no_char DQUOTE s = true /\ s <> "") [user; realm (config u)] ->
  no_char DQUOTE uri = true -> auth_db u !! user = Some pw -> 0 <= max_expires (config u) ->
  server_new req1 remote = Ok s1 -> req_method req1 = Register ->
  hdr_get (req_headers req1) "authorization" = None ->
  exists resp1 hdr ch,
    handle_request md5 u req1 remote now1 wall1 rnd1 sent1 = ([Reply resp1], u) /\
    status_code resp1 = 401 /\ hdr_get (resp_headers resp1) "www-authenticate" = Some hdr /\
    challenge_parse hdr = Ok ch /\
    (server_new req2 remote = Ok s2 -> req_method req2 = Register ->
     hdr_get (req_headers req2) "authorization" =
       Some (header_value (compute md5 (mkCred user pw) ch "REGISTER" uri nc rnd)) ->
     hdr_get (req_headers req2) "contact" = Some contact ->
     exists outs resp2,
       (handle_request md5 u req2 remote now2 wall2 rnd2 sent2).1 = outs ++ [Reply resp2] /\
       status_code resp2 = 200 /\
       hdr_get (resp_headers resp2) "expires" =
         Some (print_uint (Z.min (parse_register_expires req2) (max_expires (config u)))) /\
       forall now, now2 <= now < now2 + granted (config u) req2 ->
         lookup (registrar (handle_request md5 u req2 remote now2 wall2 rnd2 sent2).2) user now =
         Some (mkBinding (extract_uri_from_contact contact) remote (now2 + granted (config u) req2) Sip)).
Proof.
  intros Hmd Hq Huri Hdb Hmax Hs1 Hm1 Ha1.
  apply Forall_cons in Hq as [[Hu1 Hu2] Hq]. apply Forall_cons in Hq as [[Hr1 Hr2] _].
  destruct (new_call_id_quotable (r_nonce (rnd1 0%nat))) as [Hn1 Hn2].
  destruct (challenge_header u req1 "Unauthorized" (rnd1 0%nat)) as [Hst Hhd].
  exists (send_challenge u req1 "Unauthorized" (rnd1 0%nat)).
  eexists _, (mkChallenge (realm (config u)) (new_call_id (r_nonce (rnd1 0%nat))) "MD5" (Some "auth") None).
  split; [by apply (register_unauthorized md5 u req1 remote now1 wall1 rnd1 sent1 s1)|].
  split; [exact Hst|]. split; [exact Hhd|]. split; [by apply challenge_parse_built|].
  intros Hs2 Hm2 Ha2 Hc2.
  destruct (digest_answer md5 (realm (config u)) (new_call_id (r_nonce (rnd1 0%nat))) None user pw
    "REGISTER" uri nc rnd Hmd) as (a & Ha & (Hau & _) & Hv); [by repeat constructor | done | by repeat constructor|].
  subst user.
  destruct (register_authorized md5 u req2 remote now2 wall2 rnd2 sent2 s2 _ a pw contact Hs2 Hm2 Ha2 Ha Hdb Hv Hc2)
    as (outs & resp & Ho & Hst2 & He & Ht & _).
  exists outs, resp. split; [done|]. split; [done|]. split; [done|]. intros now Hnow. rewrite Ht.
  pose proof (parse_register_expires_range req2).
  change lookup with (reg_lookup (T := ExtensionRegistrar)).
  rewrite lookup_registered by lia.
  rewrite String.eqb_refl. by rewrite (proj2 (Z.ltb_lt _ _)) by lia.
Qed.

Definition sample_first : SipRequest :=
  mkRequest Register "sip:h" (List.firstn 6 (sample_header "")) "".
Definition sample_second : SipRequest :=
  mkRequest Register "sip:h"
    (sample_header (header_value (compute toy_digest (mkCred "100" "pw")
      (mkChallenge "sabiden" (new_call_id 3) "MD5" (Some "auth") None) "REGISTER" "sip:h" 1 7))) "".

Lemma registration_flow_witness :
  exists outs resp2,
    (handle_request toy_digest sample_uas sample_second sample_phone 10 0 sample_rnd true).1 =
      outs ++ [Reply resp2] /\
    status_code resp2 = 200 /\
    lookup (registrar (handle_request toy_digest sample_uas sample_second sample_phone 10 0 sample_rnd true).2)
      "100" (10 + from_secs 59) =
    Some (mkBinding "sip:100@192.168.0.5:5060" sample_phone (10 + from_secs 60) Sip).
Proof.
  destruct (registration_flow toy_digest sample_uas sample_first sample_second sample_phone 0 10 0 0
    sample_rnd sample_rnd true true
    (mkServer sample_first "SIP/2.0/UDP 192.168.0.5:5060;branch=z9hG4bKr" SvTrying None None)
    (mkServer sample_second "SIP/2.0/UDP 192.168.0.5:5060;branch=z9hG4bKr" SvTrying None None)
    "100" "pw" "sip:h" 1 7 "<sip:100@192.168.0.5:5060>;expires=60")
    as (resp1 & hdr & ch & H1 & _ & H3 & H4 & H5).
  - done.
  - by repeat constructor.
  - done.
  - by vm_compute.
  - by vm_compute.
  - by vm_compute.
  - done.
  - by vm_compute.
  - assert (ch = mkChallenge "sabiden" (new_call_id 3) "MD5" (Some "auth") None) as ->.
    { vm_compute in H1. injection H1 as <-. vm_compute in H3. injection H3 as <-.
      vm_compute in H4. by injection H4 as <-. }
    destruct H5 as (outs & resp2 & Ho & Hs & _ & Hl); [by vm_compute | done | by vm_compute | by vm_compute|].
    exists outs, resp2. split; [exact Ho|]. split; [exact Hs|].
    refine (eq_trans (Hl _ _) _); [split; by vm_compute | by vm_compute].
Defined.

(** Every request is answered or handed up, and every answer is well formed.
    A request with a usable Via, other than an ACK, is answered at once or
    reaches the handler above (unless its channel has closed); the answers carry
    the From, Call-ID and CSeq of the request, and a To tag unless they are a
    100. *)
Theorem uas_answers md5 (u : ExtensionUas ExtensionRegistrar) req remote now wall rnd sent s :
  server_new req remote = Ok s ->
  Forall (reply_ok req) (handle_request md5 u req remote now wall rnd sent).1 /\
  (req_method req <> Ack -> event_tx u <> Handler false ->
   (handle_request md5 u req remote now wall rnd sent).1 <> []).
Proof.
  intros Hs. split; [apply handle_request_replies|]. by apply (handle_request_answers md5 u _ _ _ _ _ _ s).
Qed.

Lemma uas_answers_witness :
  (handle_request toy_digest sample_uas sample_call sample_phone 0 0 sample_rnd true).1 <> [].
Proof.
  refine (proj2 (uas_answers toy_digest sample_uas sample_call sample_phone 0 0 sample_rnd true
    (mkServer sample_call "SIP/2.0/UDP 192.168.0.5:5060;branch=z9hG4bKi" SvProceeding None None) _) _ _).
  - by vm_compute.
  - done.
  - done.
Defined.

(** Without a handler a BYE is answered with a 200. *)
Lemma bye_without_handler {T} (u : ExtensionUas T) req remote r :
  event_tx u = NoHandler -> handle_bye u req remote r = [Reply (quick req 200 "OK" r)].
Proof. intros Hu. unfold handle_bye, connected. by rewrite Hu. Qed.
