(* ===== verification/Sdp.v ===== *)
(** The session description (sdp/mod.rs, sdp/parser.rs and the serializer of
    sdp/builder.rs): the records, [parse], [serialize], and the rtpmap attribute.

    What the parser accepts is well formed ([sdp_ok]), and a well-formed
    description survives being written and read, IPv6 addresses included. The
    parser panics only on a line whose type is a character of three or four
    bytes. *)
From S2P Require Import Prelude RustStr Utf8 NetAddr.

(** ** Data *)

Record Origin := mkOrigin {
  o_username : string; o_session_id : Z; o_session_version : Z; o_address : IpAddr }.
Record Connection := mkConnection { c_address : IpAddr }.
Record Timing := mkTiming { t_start : Z; t_stop : Z }.

Inductive Attribute :=
  | Property (k : string)
  | Value (key value : string).

Record MediaDescription := mkMedia {
  m_media : string; m_port : Z; m_protocol : string; m_formats : list string;
  m_connection : option Connection; m_attributes : list Attribute }.

Record SessionDescription := mkSdp {
  s_version : Z; s_origin : Origin; s_name : string; s_connection : option Connection;
  s_timing : Timing; s_attributes : list Attribute; s_media : list MediaDescription }.

Record RtpMap := mkRtpMap {
  rm_payload_type : Z; rm_encoding : string; rm_clock_rate : Z; rm_parameters : option string }.

Definition attr_key (a : Attribute) : string :=
  match a with Property k => k | Value k _ => k end.

(** The errors, one per message of the code. *)
Inductive SdpError :=
  | NotUtf8 | EmptyLine | NoEquals | NotTypeValue | BadVersion
  | OriginFields | ConnectionFields | TimingFields | MediaFields
  | BadNetType | BadAddrType | BadAddress | AddrMismatch
  | BadSessId | BadSessVersion | BadStart | BadStop | BadPort
  | ProtoEmpty | ProtoEmptyToken | ProtoBadChar
  | MissingVersion | MissingOrigin | MissingName | MissingTiming
  | NoAudio.

Abbreviation result := (outcome SdpError).

Definition crlf : string := String (chr 13) (String (chr 10) "").
Abbreviation CR := (chr 13).
Abbreviation LF := (chr 10).

(** ** rtpmap *)

Inductive RtpMapError := RmNoEncoding | RmBadPayloadType | RmNoClockRate | RmBadClockRate.

(** [splitn(2, char::is_whitespace)]: around the first white space. *)
Definition split_ws_once (s : string) : option (string * string) :=
  let '(w, t) := word s in r ← strip_ws t; Some (w, r).

Definition rtpmap_parse (value : string) : outcome RtpMapError RtpMap :=
  '(pt_str, rest) ← ok_or (split_ws_once value) RmNoEncoding;
  pt ← ok_or (parse_uint 8 pt_str) RmBadPayloadType;
  match split_on "/" (trim rest) with
  | encoding :: rate :: parts =>
      r ← ok_or (parse_uint 32 rate) RmBadClockRate;
      Ok (mkRtpMap pt encoding r (head parts))
  | _ => Err RmNoClockRate
  end.

Definition as_rtpmap (a : Attribute) : option RtpMap :=
  match a with
  | Value key value => if String.eqb key "rtpmap" then ok (rtpmap_parse value) else None
  | Property _ => None
  end.

Definition find_rtpmap (sdp : SessionDescription) (pt : Z) : option RtpMap :=
  find_first (fun rm => rm_payload_type rm =? pt)
    (omap as_rtpmap (concat (map m_attributes (s_media sdp)))).

(** ** The serializer *)

Definition addrtype_of (a : IpAddr) : string :=
  match a with V4 _ _ _ _ => "IP4" | V6 _ => "IP6" end.

Definition format_origin (o : Origin) : string :=
  o_username o +:+ " " +:+ print_uint (o_session_id o) +:+ " " +:+
  print_uint (o_session_version o) +:+ " IN " +:+ addrtype_of (o_address o) +:+ " " +:+
  print_ip (o_address o).

Definition format_connection (c : Connection) : string :=
  "IN " +:+ addrtype_of (c_address c) +:+ " " +:+ print_ip (c_address c).

Definition format_timing (t : Timing) : string :=
  print_uint (t_start t) +:+ " " +:+ print_uint (t_stop t).

Definition format_media (m : MediaDescription) : string :=
  fold_left (fun s f => s +:+ " " +:+ f) (m_formats m)
    (m_media m +:+ " " +:+ print_uint (m_port m) +:+ " " +:+ m_protocol m).

Definition format_attr (a : Attribute) : string :=
  match a with Property k => k | Value k v => k +:+ ":" +:+ v end.

Definition writeln_crlf (s line : string) : string := s +:+ line +:+ crlf.

Definition write_attrs (out : string) (l : list Attribute) : string :=
  fold_left (fun out a => writeln_crlf out ("a=" +:+ format_attr a)) l out.
Definition write_connection (out : string) (c : option Connection) : string :=
  match c with Some c => writeln_crlf out ("c=" +:+ format_connection c) | None => out end.
Definition write_media (out : string) (m : MediaDescription) : string :=
  let out := writeln_crlf out ("m=" +:+ format_media m) in
  let out := write_connection out (m_connection m) in
  write_attrs out (m_attributes m).

Definition serialize (sdp : SessionDescription) : string :=
  let out := writeln_crlf "" ("v=" +:+ print_uint (s_version sdp)) in
  let out := writeln_crlf out ("o=" +:+ format_origin (s_origin sdp)) in
  let out := writeln_crlf out ("s=" +:+ s_name sdp) in
  let out := write_connection out (s_connection sdp) in
  let out := writeln_crlf out ("t=" +:+ format_timing (s_timing sdp)) in
  let out := write_attrs out (s_attributes sdp) in
  fold_left write_media (s_media sdp) out.

(** ** The parser *)

(** [chars().next()] on well-formed text. *)
Definition next_char (s : string) : option (string * string) :=
  match s with
  | EmptyString => None
  | _ => let '(_, k) := utf8_head s in Some (str_take k s, str_drop k s)
  end.

(** [&s[n..]]: a panic inside a character or past the end. *)
Definition slice_from (n : nat) (s : string) : result string :=
  if (n <=? String.length s)%nat && boundary (str_drop n s) then Ok (str_drop n s) else Panic.

Definition split_type_value (line : string) : result (string * string) :=
  '(ty, rest) ← ok_or (next_char line) EmptyLine;
  '(eq, _) ← ok_or (next_char rest) NoEquals;
  _ ← ensure (String.eqb eq "=") NotTypeValue;
  val ← slice_from 2 line;
  Ok (ty, val).

Definition check_addrtype (at_ : string) : result unit :=
  ensure (String.eqb at_ "IP4" || String.eqb at_ "IP6") BadAddrType.

Definition sdp_parse_ip (s addrtype : string) : result IpAddr :=
  a ← ok_or (parse_ip s) BadAddress;
  _ ← ensure (match a with
              | V4 _ _ _ _ => String.eqb addrtype "IP4"
              | V6 _ => String.eqb addrtype "IP6"
              end) AddrMismatch;
  Ok a.

Definition parse_origin (val : string) : result Origin :=
  match split_whitespace val with
  | [p0; p1; p2; p3; p4; p5] =>
      _ ← ensure (String.eqb p3 "IN") BadNetType;
      _ ← check_addrtype p4;
      address ← sdp_parse_ip p5 p4;
      sid ← ok_or (parse_uint 64 p1) BadSessId;
      ver ← ok_or (parse_uint 64 p2) BadSessVersion;
      Ok (mkOrigin p0 sid ver address)
  | _ => Err OriginFields
  end.

(** [split(c).next().unwrap_or(s)]. *)
Definition before_char (c : ascii) (s : string) : string := default s (head (split_on c s)).

Definition parse_connection (val : string) : result Connection :=
  match split_whitespace val with
  | [p0; p1; p2] =>
      _ ← ensure (String.eqb p0 "IN") BadNetType;
      _ ← check_addrtype p1;
      address ← sdp_parse_ip (before_char "/" p2) p1;
      Ok (mkConnection address)
  | _ => Err ConnectionFields
  end.

Definition parse_timing (val : string) : result Timing :=
  match split_whitespace val with
  | [p0; p1] =>
      start ← ok_or (parse_uint 64 p0) BadStart;
      stop ← ok_or (parse_uint 64 p1) BadStop;
      Ok (mkTiming start stop)
  | _ => Err TimingFields
  end.

Definition is_rfc4566_token_char (c : ascii) : bool :=
  let z := code c in
  (z =? 0x21) || ((0x23 <=? z) && (z <=? 0x27)) || ((0x2A <=? z) && (z <=? 0x2B))
  || ((0x2D <=? z) && (z <=? 0x2E)) || ((0x30 <=? z) && (z <=? 0x39))
  || ((0x41 <=? z) && (z <=? 0x5A)) || ((0x5E <=? z) && (z <=? 0x7E)).

Fixpoint check_tokens (l : list string) : result unit :=
  match l with
  | [] => Ok tt
  | tok :: l =>
      _ ← ensure (negb (String.eqb tok "")) ProtoEmptyToken;
      _ ← ensure (all_chars is_rfc4566_token_char tok) ProtoBadChar;
      check_tokens l
  end.

Definition validate_proto (s : string) : result string :=
  _ ← ensure (negb (String.eqb s "")) ProtoEmpty;
  _ ← check_tokens (split_on "/" s);
  Ok s.

Definition parse_media (val : string) : result MediaDescription :=
  match split_whitespace val with
  | p0 :: p1 :: p2 :: p3 :: formats =>
      port ← ok_or (parse_uint 16 (before_char "/" p1)) BadPort;
      protocol ← validate_proto p2;
      Ok (mkMedia p0 port protocol (p3 :: formats) None [])
  | _ => Err MediaFields
  end.

Definition parse_attribute (val : string) : Attribute :=
  match split_once ":" val with
  | Some (key, value) => Value key value
  | None => Property val
  end.

(** The variables of the session level. *)
Record Header := mkHeader {
  h_version : option Z; h_origin : option Origin; h_name : option string;
  h_connection : option Connection; h_timing : option Timing; h_attrs : list Attribute }.

Definition session_line (h : Header) (ty val : string) : result Header :=
  let '(mkHeader v o s c t a) := h in
  if String.eqb ty "v" then
    x ← ok_or (parse_uint 32 val) BadVersion; Ok (mkHeader (Some x) o s c t a)
  else if String.eqb ty "o" then
    x ← parse_origin val; Ok (mkHeader v (Some x) s c t a)
  else if String.eqb ty "s" then Ok (mkHeader v o (Some val) c t a)
  else if String.eqb ty "c" then
    x ← parse_connection val; Ok (mkHeader v o s (Some x) t a)
  else if String.eqb ty "t" then
    x ← parse_timing val; Ok (mkHeader v o s c (Some x) a)
  else if String.eqb ty "a" then Ok (mkHeader v o s c t (a ++ [parse_attribute val]))
  else Ok h.

(** The session level, up to the first media line. *)
Fixpoint session_lines (h : Header) (lines : list string) : result (Header * list string) :=
  match lines with
  | [] => Ok (h, [])
  | line :: rest =>
      '(ty, val) ← split_type_value line;
      if String.eqb ty "m" then Ok (h, lines)
      else h ← session_line h ty val; session_lines h rest
  end.

(** A line of a media section. *)
Definition media_line (m : MediaDescription) (ty val : string) : result MediaDescription :=
  let '(mkMedia md port proto fmts conn attrs) := m in
  if String.eqb ty "c" then
    x ← parse_connection val; Ok (mkMedia md port proto fmts (Some x) attrs)
  else if String.eqb ty "a" then
    Ok (mkMedia md port proto fmts conn (attrs ++ [parse_attribute val]))
  else Ok m.

(** The media sections: [m] is the one being read, if any; what comes before
    the first one is skipped. *)
Fixpoint media_sections (cur : option MediaDescription) (lines : list string) :
    result (list MediaDescription) :=
  match lines with
  | [] => Ok (option_list cur)
  | line :: rest =>
      '(ty, val) ← split_type_value line;
      if String.eqb ty "m" then
        m ← parse_media val;
        ms ← media_sections (Some m) rest;
        Ok (option_list cur ++ ms)
      else
        match cur with
        | None => media_sections None rest
        | Some m => m ← media_line m ty val; media_sections (Some m) rest
        end
  end.

(** The non-empty lines, without their carriage returns. *)
Definition lines_of (input : string) : list string :=
  filter (fun l => l <> "") (map (trim_end_char CR) (split_on LF input)).

Definition parse (input : string) : result SessionDescription :=
  '(h, rest) ← session_lines (mkHeader None None None None None []) (lines_of input);
  media ← media_sections None rest;
  version ← ok_or (h_version h) MissingVersion;
  origin ← ok_or (h_origin h) MissingOrigin;
  name ← ok_or (h_name h) MissingName;
  timing ← ok_or (h_timing h) MissingTiming;
  Ok (mkSdp version origin name (h_connection h) timing (h_attrs h) media).

Definition ngn_offer : string :=
  join crlf ["v=0"; "o=- 0 0 IN IP6 2001:db8::1"; "s=-"; "c=IN IP6 2001:db8::1"; "t=0 0";
             "a=sendrecv"; "m=audio 30000/2 RTP/AVP 0 101"; "b=AS:64"; "a=rtpmap:0 PCMU/8000";
             "a=ptime:20"; "m=video 0 RTP/AVP 96"; ""].

Definition ngn_sdp : SessionDescription :=
  mkSdp 0 (mkOrigin "-" 0 0 (V6 [0x2001; 0xdb8; 0; 0; 0; 0; 0; 1])) "-"
    (Some (mkConnection (V6 [0x2001; 0xdb8; 0; 0; 0; 0; 0; 1]))) (mkTiming 0 0) [Property "sendrecv"]
    [mkMedia "audio" 30000 "RTP/AVP" ["0"; "101"] None [Value "rtpmap" "0 PCMU/8000"; Value "ptime" "20"];
     mkMedia "video" 0 "RTP/AVP" ["96"] None []].

Example parse_ngn_offer : parse ngn_offer = Ok ngn_sdp.
Proof. by vm_compute. Qed.

Example serialize_ngn : parse (serialize ngn_sdp) = Ok ngn_sdp.
Proof. by vm_compute. Qed.

Example find_rtpmap_ngn :
  find_rtpmap ngn_sdp 0 = Some (mkRtpMap 0 "PCMU" 8000 None) /\ find_rtpmap ngn_sdp 96 = None.
Proof. by vm_compute. Qed.

(** ** Well-formed descriptions *)

(** The rest of a line: no line feed, no trailing carriage return. *)
Definition text_ok (s : string) : Prop :=
  no_char LF s = true /\ trim_end_char CR s = s /\ is_utf8 s = true.
Definition word_ok (s : string) : Prop := is_word s = true /\ is_utf8 s = true.

Definition attr_ok (a : Attribute) : Prop :=
  text_ok (format_attr a) /\ no_char ":" (attr_key a) = true.
Definition origin_ok (o : Origin) : Prop :=
  word_ok (o_username o) /\ u64 (o_session_id o) /\ u64 (o_session_version o) /\
  ip_ok (o_address o).
Definition connection_ok (c : Connection) : Prop := ip_ok (c_address c).
Definition timing_ok (t : Timing) : Prop := u64 (t_start t) /\ u64 (t_stop t).

Record media_ok (m : MediaDescription) : Prop := {
  mo_media : word_ok (m_media m);
  mo_port : u16 (m_port m);
  mo_protocol : validate_proto (m_protocol m) = Ok (m_protocol m);
  mo_formats : m_formats m <> [] /\ Forall word_ok (m_formats m);
  mo_connection : forall c, m_connection m = Some c -> connection_ok c;
  mo_attributes : Forall attr_ok (m_attributes m) }.

Record sdp_ok (s : SessionDescription) : Prop := {
  so_version : u32 (s_version s);
  so_origin : origin_ok (s_origin s);
  so_name : text_ok (s_name s);
  so_connection : forall c, s_connection s = Some c -> connection_ok c;
  so_timing : timing_ok (s_timing s);
  so_attributes : Forall attr_ok (s_attributes s);
  so_media : Forall media_ok (s_media s) }.

(** ** Lines *)

Definition attr_line (a : Attribute) : string := "a=" +:+ format_attr a.
Definition connection_line (c : Connection) : string := "c=" +:+ format_connection c.
Definition media_lines (m : MediaDescription) : list string :=
  ("m=" +:+ format_media m) ::
  map connection_line (option_list (m_connection m)) ++ map attr_line (m_attributes m).
Definition header_lines (s : SessionDescription) : list string :=
  ["v=" +:+ print_uint (s_version s); "o=" +:+ format_origin (s_origin s); "s=" +:+ s_name s] ++
  map connection_line (option_list (s_connection s)) ++
  ["t=" +:+ format_timing (s_timing s)] ++ map attr_line (s_attributes s).
Definition sdp_lines (s : SessionDescription) : list string :=
  header_lines s ++ concat (map media_lines (s_media s)).

Fixpoint lines_text (l : list string) : string :=
  match l with [] => "" | x :: l => x +:+ crlf +:+ lines_text l end.

Lemma lines_text_app a b : lines_text (a ++ b) = lines_text a +:+ lines_text b.
Proof. induction a as [|x a IH]; cbn [lines_text app]; [done|]. by rewrite IH, !str_app_assoc. Qed.

Lemma write_attrs_lines out l : write_attrs out l = out +:+ lines_text (map attr_line l).
Proof.
  unfold write_attrs. revert out. induction l as [|a l IH]; intros out; cbn [fold_left map lines_text].
  - by rewrite str_app_nil_r.
  - rewrite IH. unfold writeln_crlf, attr_line. by rewrite !str_app_assoc.
Qed.

Lemma write_connection_lines out c :
  write_connection out c = out +:+ lines_text (map connection_line (option_list c)).
Proof.
  destruct c as [c|]; cbn [write_connection option_list map lines_text].
  - done.
  - by rewrite str_app_nil_r.
Qed.

Lemma write_media_lines out m : write_media out m = out +:+ lines_text (media_lines m).
Proof.
  unfold write_media, media_lines. rewrite write_attrs_lines, write_connection_lines.
  cbn [lines_text]. rewrite lines_text_app. unfold writeln_crlf. by rewrite !str_app_assoc.
Qed.

Lemma serialize_lines s : serialize s = lines_text (sdp_lines s).
Proof.
  assert (forall ms out, fold_left write_media ms out =
    out +:+ lines_text (concat (map media_lines ms))) as Hm.
  { induction ms as [|m ms IH]; intros out; cbn [fold_left map concat].
    - by rewrite str_app_nil_r.
    - by rewrite IH, write_media_lines, lines_text_app, str_app_assoc. }
  unfold serialize, sdp_lines, header_lines. rewrite Hm, write_attrs_lines.
  unfold writeln_crlf. rewrite write_connection_lines, !lines_text_app.
  cbn [lines_text]. rewrite !str_app_nil_r, !str_app_assoc. done.
Qed.

(** A line that is read back as it is written. *)
Definition line_ok (l : string) : Prop :=
  text_ok l /\ l <> "".

Lemma lines_of_text l : Forall line_ok l -> lines_of (lines_text l) = l.
Proof.
  unfold lines_of. induction 1 as [|x l [(H1 & H2 & _) H3] Hl IH]; [done|].
  cbn [lines_text]. change (crlf +:+ lines_text l) with (String CR "" +:+ String LF (lines_text l)).
  rewrite <- str_app_assoc, split_on_app.
  - cbn [map]. rewrite trim_end_char_drop, H2. rewrite filter_cons_True by done. by rewrite IH.
  - by rewrite no_char_app, H1.
Qed.

Lemma typed_line_ok c v : text_ok v -> Ascii.eqb LF c = false -> (code c <? 0x80) = true ->
  line_ok (String c (String "=" v)).
Proof.
  intros (H1 & H2 & H3) Hc Ha. split; [split_and! | done].
  - unfold no_char in *. cbn [all_chars]. by rewrite Hc, H1.
  - change (String c (String "=" v)) with (String c "" +:+ String "=" v).
    destruct v as [|d v].
    + by apply trim_end_char_end.
    + change (String "=" (String d v)) with ("=" +:+ String d v).
      rewrite <- str_app_assoc. by apply trim_end_char_app.
  - apply (is_utf8_app (String c (String "=" ""))); [|done]. apply ascii_utf8. cbn. by rewrite Ha.
Qed.

Lemma split_typed_line c v : (code c <? 0x80) = true -> is_utf8 v = true ->
  split_type_value (String c (String "=" v)) = Ok (String c "", v).
Proof.
  intros Hc Hv. unfold split_type_value. cbn [next_char utf8_head]. rewrite Hc.
  cbn [ok_or mbind outcome_bind str_take str_drop next_char utf8_head].
  change (code "=" <? 0x80) with true. cbn [ok_or mbind outcome_bind str_take].
  unfold slice_from. cbn [str_drop String.length]. rewrite is_utf8_boundary by done.
  by destruct v.
Qed.

(** ** Printing and reading the fields *)

Lemma print_ip_word a : ip_ok a -> is_word (print_ip a) = true.
Proof.
  intros Ha. apply graph_word.
  - intros He. apply parse_print_ip in Ha. rewrite He in Ha. done.
  - eapply all_chars_impl; [apply addr_graph | apply print_ip_addr].
Qed.

Lemma addrtype_word a : is_word (addrtype_of a) = true.
Proof. by destruct a. Qed.

Lemma sdp_parse_ip_print a : ip_ok a ->
  sdp_parse_ip (print_ip a) (addrtype_of a) = Ok a /\ check_addrtype (addrtype_of a) = Ok tt.
Proof.
  intros Ha. unfold sdp_parse_ip. rewrite parse_print_ip by done. by destruct a.
Qed.

Lemma parse_format_origin o : origin_ok o -> parse_origin (format_origin o) = Ok o.
Proof.
  intros ([Hu _] & Hs & Hv & Ha). unfold parse_origin.
  replace (format_origin o) with (join " " [o_username o; print_uint (o_session_id o);
    print_uint (o_session_version o); "IN"; addrtype_of (o_address o); print_ip (o_address o)])
    by reflexivity.
  rewrite split_whitespace_join.
  - cbn [String.eqb ensure]. destruct (sdp_parse_ip_print _ Ha) as [H1 H2].
    change (String.eqb "IN" "IN") with true. cbn [ensure mbind outcome_bind].
    rewrite H2. cbn [mbind outcome_bind]. rewrite H1. cbn [mbind outcome_bind].
    rewrite !parse_print_uint by (done || lia). by destruct o.
  - repeat constructor; auto using print_uint_word, addrtype_word, print_ip_word.
Qed.

Lemma before_char_no_char c s : no_char c s = true -> before_char c s = s.
Proof. intros H. unfold before_char. by rewrite split_on_no_char. Qed.

Lemma parse_format_connection c : connection_ok c ->
  parse_connection (format_connection c) = Ok c.
Proof.
  intros Ha. unfold parse_connection.
  replace (format_connection c) with (join " " ["IN"; addrtype_of (c_address c); print_ip (c_address c)])
    by done.
  rewrite split_whitespace_join.
  - destruct (sdp_parse_ip_print _ Ha) as [H1 H2].
    change (String.eqb "IN" "IN") with true. cbn [ensure mbind outcome_bind].
    rewrite H2. cbn [mbind outcome_bind].
    rewrite before_char_no_char by (apply addr_no_char, print_ip_addr; done).
    rewrite H1. by destruct c.
  - repeat constructor; auto using addrtype_word, print_ip_word.
Qed.

Lemma parse_format_timing t : timing_ok t -> parse_timing (format_timing t) = Ok t.
Proof.
  intros [Hs Hp]. unfold parse_timing.
  change (format_timing t) with (join " " [print_uint (t_start t); print_uint (t_stop t)]).
  rewrite split_whitespace_join by (repeat constructor; apply print_uint_word).
  rewrite !parse_print_uint by (done || lia). by destruct t.
Qed.

Lemma parse_format_attr a : no_char ":" (attr_key a) = true -> parse_attribute (format_attr a) = a.
Proof.
  intros H. unfold parse_attribute. destruct a as [k | k v]; cbn [format_attr attr_key] in *.
  - by rewrite split_once_None.
  - change (k +:+ ":" +:+ v) with (k +:+ String ":" v). by rewrite split_once_no_char.
Qed.

Lemma token_chars l : check_tokens l = Ok tt ->
  Forall (fun t => t <> "" /\ all_chars is_rfc4566_token_char t = true) l.
Proof.
  induction l as [|t l IH]; [constructor|]. cbn [check_tokens]. intros H. inv_outcome.
  constructor; [|by apply IH]. split; [|done]. by apply String.eqb_neq, negb_true_iff.
Qed.

Lemma proto_word p : validate_proto p = Ok p -> is_word p = true /\ is_utf8 p = true.
Proof.
  unfold validate_proto. intros H. inv_outcome. destruct a0. apply token_chars in Heq0.
  assert (all_chars is_graph p = true) as Hg.
  { rewrite <- (join_split_on "/" p). induction Heq0 as [|t l [_ Ht] Hl IH]; [done|].
    apply (all_chars_impl _ is_graph) in Ht;
      [|intros c; apply implb_true_iff; revert c; apply ascii_exhaust; by vm_compute].
    destruct l as [|u l]; [done|].
    change (join "/" (t :: u :: l)) with (t +:+ "/" +:+ join "/" (u :: l)).
    by rewrite !all_chars_app, Ht, IH. }
  split.
  - apply graph_word; [by apply String.eqb_neq, negb_true_iff | done].
  - apply ascii_utf8. unfold is_ascii_str. eapply all_chars_impl; [|done].
    unfold is_graph. intros c. lia.
Qed.

Lemma format_media_join m :
  format_media m = join " " (m_media m :: print_uint (m_port m) :: m_protocol m :: m_formats m).
Proof.
  unfold format_media.
  assert (forall l a b, fold_left (fun s f => s +:+ " " +:+ f) l (a +:+ " " +:+ b) =
    a +:+ " " +:+ fold_left (fun s f => s +:+ " " +:+ f) l b) as Hf.
  { induction l as [|x l IH]; intros a b; cbn [fold_left]; [done|].
    rewrite <- IH. by rewrite !str_app_assoc. }
  assert (forall l x, fold_left (fun s f => s +:+ " " +:+ f) l x = join " " (x :: l)) as Hj.
  { induction l as [|y l IH]; intros x; cbn [fold_left]; [done|]. rewrite Hf, IH. done. }
  rewrite !Hf, Hj. done.
Qed.

Lemma parse_format_media m : media_ok m ->
  parse_media (format_media m) =
  Ok (mkMedia (m_media m) (m_port m) (m_protocol m) (m_formats m) None []).
Proof.
  intros [[Hm _] Hp Hpr [Hne Hf] _ _]. unfold parse_media. rewrite format_media_join.
  rewrite split_whitespace_join.
  - destruct (m_formats m) as [|f fs]; [done|].
    rewrite before_char_no_char by (apply digits_no_char; [done | apply print_uint_digits]).
    rewrite parse_print_uint by (done || lia). cbn [ok_or mbind outcome_bind]. by rewrite Hpr.
  - repeat (constructor; auto using print_uint_word); [by apply proto_word|].
    eapply Forall_impl; [done|]. by intros w [? _].
Qed.

(** ** The written lines are plain *)

Lemma trim_end_char_no_char c s : no_char c s = true -> trim_end_char c s = s.
Proof.
  intros H. unfold trim_end_char. unfold no_char in H. rewrite <- all_chars_rev in H.
  destruct (str_rev s) as [|d r] eqn:Hr; [by rewrite <- (str_rev_invol s), Hr|].
  cbn [all_chars drop_while] in *. apply andb_true_iff in H as [H _].
  apply negb_true_iff in H. rewrite H, <- Hr. apply str_rev_invol.
Qed.

Lemma words_text_ok l : Forall word_ok l -> text_ok (join " " l).
Proof.
  intros Hl.
  assert (forall c, ((9 <=? code c) && (code c <=? 13)) || (code c =? 32) = true ->
    Ascii.eqb c " " = false -> no_char c (join " " l) = true) as Hn.
  { intros c Hc Hs. induction Hl as [|w l [Hw _] Hl IH]; [done|].
    apply (word_no_char c) in Hw; [|done]. destruct l as [|v l]; [done|].
    change (join " " (w :: v :: l)) with (w +:+ " " +:+ join " " (v :: l)).
    rewrite !no_char_app, Hw, IH. unfold no_char. cbn [all_chars]. by rewrite Hs. }
  split_and!; [by apply Hn | by apply trim_end_char_no_char, Hn |].
  apply is_utf8_join; [done|]. eapply Forall_impl; [done|]. by intros w [_ ?].
Qed.

Lemma ascii_word_ok s : is_word s = true -> is_ascii_str s = true -> word_ok s.
Proof. split; [done | by apply ascii_utf8]. Qed.

Lemma print_uint_word_ok z : word_ok (print_uint z).
Proof. split; [apply print_uint_word | apply digits_utf8, print_uint_digits]. Qed.

Lemma addr_word_ok a : ip_ok a -> word_ok (print_ip a).
Proof.
  intros Ha. apply ascii_word_ok; [by apply print_ip_word|].
  eapply all_chars_impl; [|apply print_ip_addr]. intros c Hc%addr_graph.
  unfold is_graph in Hc. lia.
Qed.

Lemma addrtype_word_ok a : word_ok (addrtype_of a).
Proof. by destruct a. Qed.

Create HintDb sdp.
Lemma in_word_ok : word_ok "IN".
Proof. by apply ascii_word_ok. Qed.
#[export] Hint Resolve print_uint_word_ok addr_word_ok addrtype_word_ok in_word_ok : sdp.

(** Every element of a literal list. *)
Ltac each := repeat (apply Forall_cons_2; [by eauto with sdp|]); apply Forall_nil_2.

Lemma origin_text o : origin_ok o -> text_ok (format_origin o).
Proof.
  intros (? & ? & ? & ?).
  apply (words_text_ok [o_username o; print_uint (o_session_id o);
    print_uint (o_session_version o); "IN"; addrtype_of (o_address o); print_ip (o_address o)]).
  each.
Qed.

Lemma connection_text c : connection_ok c -> text_ok (format_connection c).
Proof.
  intros ?. apply (words_text_ok ["IN"; addrtype_of (c_address c); print_ip (c_address c)]).
  each.
Qed.

Lemma timing_text t : text_ok (format_timing t).
Proof.
  apply (words_text_ok [print_uint (t_start t); print_uint (t_stop t)]).
  each.
Qed.

Lemma media_text m : media_ok m -> text_ok (format_media m).
Proof.
  intros [Hm _ Hp [_ Hf] _ _]. rewrite format_media_join. apply words_text_ok.
  constructor; [done|]. constructor; [eauto with sdp|]. constructor; [by apply proto_word | done].
Qed.

Lemma print_uint_text z : text_ok (print_uint z).
Proof. apply (words_text_ok [print_uint z]). each. Qed.

#[export] Hint Resolve origin_text connection_text timing_text media_text print_uint_text : sdp.

Lemma attr_ok_text a : attr_ok a -> text_ok (format_attr a).
Proof. by intros [? _]. Qed.
#[export] Hint Resolve attr_ok_text : sdp.

Lemma attr_lines_ok l : Forall attr_ok l -> Forall line_ok (map attr_line l).
Proof.
  intros H. apply Forall_map. eapply Forall_impl; [done|]. intros a Ha.
  apply typed_line_ok; eauto with sdp.
Qed.

Lemma connection_lines_ok c : (forall x, c = Some x -> connection_ok x) ->
  Forall line_ok (map connection_line (option_list c)).
Proof.
  intros H. destruct c as [c|]; [|constructor]. constructor; [|done].
  apply typed_line_ok; eauto with sdp.
Qed.

Lemma sdp_lines_ok s : sdp_ok s -> Forall line_ok (sdp_lines s).
Proof.
  intros [Hv Ho Hn Hc Ht Ha Hm]. unfold sdp_lines, header_lines. rewrite !Forall_app.
  split_and!; eauto using attr_lines_ok, connection_lines_ok.
  - repeat constructor; apply typed_line_ok; eauto with sdp.
  - repeat constructor; apply typed_line_ok; eauto with sdp.
  - induction Hm as [|m ms Hm Hms IH]; [constructor|]. cbn [map concat].
    rewrite Forall_app. split; [|done]. unfold media_lines. constructor.
    + apply typed_line_ok; eauto with sdp.
    + destruct Hm. rewrite Forall_app. eauto using attr_lines_ok, connection_lines_ok.
Qed.

(** ** Reading the lines back *)

#[local] Arguments format_origin : simpl never.
#[local] Arguments format_connection : simpl never.
#[local] Arguments format_timing : simpl never.
#[local] Arguments format_attr : simpl never.
#[local] Arguments format_media : simpl never.
#[local] Arguments parse_origin : simpl never.
#[local] Arguments parse_connection : simpl never.
#[local] Arguments parse_timing : simpl never.
#[local] Arguments parse_attribute : simpl never.
#[local] Arguments parse_uint : simpl never.

Lemma text_utf8 s : text_ok s -> is_utf8 s = true.
Proof. by intros (_ & _ & ?). Qed.

Lemma session_line_step h c v lines : (code c <? 0x80) = true -> text_ok v ->
  String.eqb (String c "") "m" = false ->
  session_lines h (String c (String "=" v) :: lines) =
  h ← session_line h (String c "") v; session_lines h lines.
Proof.
  intros Hc Hv Hm. cbn [session_lines]. rewrite split_typed_line by (done || by apply text_utf8).
  cbn [mbind outcome_bind]. by rewrite Hm.
Qed.

Lemma session_media_step h v lines : text_ok v ->
  session_lines h (String "m" (String "=" v) :: lines) = Ok (h, String "m" (String "=" v) :: lines).
Proof.
  intros Hv. cbn [session_lines]. by rewrite split_typed_line by (done || by apply text_utf8).
Qed.
#[local] Arguments session_lines : simpl never.

Lemma session_attr_lines v o s c t a l lines : Forall attr_ok l ->
  session_lines (mkHeader v o s c t a) (map attr_line l ++ lines) =
  session_lines (mkHeader v o s c t (a ++ l)) lines.
Proof.
  intros Hl. revert a. induction Hl as [|x l [Hx1 Hx2] Hl IH]; intros a; cbn [map app].
  { by rewrite app_nil_r. }
  rewrite (session_line_step _ "a" (format_attr x)) by (done || eauto with sdp).
  cbn [session_line String.eqb]. cbn. rewrite parse_format_attr by done.
  by rewrite IH, <- app_assoc.
Qed.

Lemma session_connection_line v o s t a c rest :
  (forall x, c = Some x -> connection_ok x) ->
  session_lines (mkHeader v o s None t a) (map connection_line (option_list c) ++ rest) =
  session_lines (mkHeader v o s c t a) rest.
Proof.
  intros H. destruct c as [x|]; [|done].
  change (map connection_line (option_list (Some x)) ++ rest)
    with (String "c" (String "=" (format_connection x)) :: rest).
  rewrite (session_line_step _ "c" (format_connection x)) by (done || eauto with sdp).
  cbn [session_line]. cbn. by rewrite parse_format_connection by by apply H.
Qed.

Lemma session_header_lines s rest : sdp_ok s ->
  session_lines (mkHeader None None None None None []) (header_lines s ++ rest) =
  session_lines (mkHeader (Some (s_version s)) (Some (s_origin s)) (Some (s_name s))
    (s_connection s) (Some (s_timing s)) (s_attributes s)) rest.
Proof.
  intros [Hv Ho Hn Hc Ht Ha Hm]. unfold header_lines. rewrite <- !app_assoc. cbn [app].
  rewrite (session_line_step _ "v" (print_uint (s_version s))) by (done || eauto with sdp).
  cbn [session_line]. rewrite parse_print_uint by (done || lia). cbn.
  rewrite (session_line_step _ "o" (format_origin (s_origin s))) by (done || eauto with sdp).
  cbn [session_line]. cbn. rewrite parse_format_origin by done. cbn.
  rewrite (session_line_step _ "s" (s_name s)) by (done || eauto with sdp). cbn.
  rewrite session_connection_line by done.
  rewrite (session_line_step _ "t" (format_timing (s_timing s))) by (done || eauto with sdp).
  cbn [session_line]. cbn. rewrite parse_format_timing by done. cbn.
  by rewrite session_attr_lines.
Qed.

Lemma media_line_step m c v lines : (code c <? 0x80) = true -> text_ok v ->
  String.eqb (String c "") "m" = false ->
  media_sections (Some m) (String c (String "=" v) :: lines) =
  m ← media_line m (String c "") v; media_sections (Some m) lines.
Proof.
  intros Hc Hv Hm. cbn [media_sections]. rewrite split_typed_line by (done || by apply text_utf8).
  cbn [mbind outcome_bind]. by rewrite Hm.
Qed.

Lemma media_start cur v lines : text_ok v ->
  media_sections cur (String "m" (String "=" v) :: lines) =
  m ← parse_media v; ms ← media_sections (Some m) lines; Ok (option_list cur ++ ms).
Proof.
  intros Hv. cbn [media_sections]. by rewrite split_typed_line by (done || by apply text_utf8).
Qed.
#[local] Arguments media_sections : simpl never.

Lemma media_attr_lines md po pr f c a l lines : Forall attr_ok l ->
  media_sections (Some (mkMedia md po pr f c a)) (map attr_line l ++ lines) =
  media_sections (Some (mkMedia md po pr f c (a ++ l))) lines.
Proof.
  intros Hl. revert a. induction Hl as [|x l [Hx1 Hx2] Hl IH]; intros a; cbn [map app].
  { by rewrite app_nil_r. }
  rewrite (media_line_step _ "a" (format_attr x)) by (done || eauto with sdp).
  cbn. rewrite parse_format_attr by done. by rewrite IH, <- app_assoc.
Qed.

Lemma media_connection_line md po pr f a c rest :
  (forall x, c = Some x -> connection_ok x) ->
  media_sections (Some (mkMedia md po pr f None a)) (map connection_line (option_list c) ++ rest) =
  media_sections (Some (mkMedia md po pr f c a)) rest.
Proof.
  intros H. destruct c as [x|]; [|done].
  change (map connection_line (option_list (Some x)) ++ rest)
    with (String "c" (String "=" (format_connection x)) :: rest).
  rewrite (media_line_step _ "c" (format_connection x)) by (done || eauto with sdp).
  cbn. by rewrite parse_format_connection by by apply H.
Qed.

Lemma media_sections_lines cur ms : Forall media_ok ms ->
  media_sections cur (concat (map media_lines ms)) = Ok (option_list cur ++ ms).
Proof.
  intros Hms. revert cur. induction Hms as [|m ms Hm Hms IH]; intros cur.
  { cbn [map concat]. by rewrite app_nil_r. }
  cbn [map concat]. unfold media_lines. cbn [app]. rewrite <- app_assoc.
  rewrite (media_start _ (format_media m)) by eauto with sdp.
  rewrite parse_format_media by done. cbn.
  rewrite media_connection_line by apply Hm. rewrite media_attr_lines by apply Hm.
  rewrite IH. by destruct m.
Qed.

Lemma session_media_lines h ms : Forall media_ok ms ->
  session_lines h (concat (map media_lines ms)) = Ok (h, concat (map media_lines ms)).
Proof.
  intros Hms. destruct Hms as [|m ms Hm Hms]; [done|]. cbn [map concat]. unfold media_lines.
  apply (session_media_step _ (format_media m)). eauto with sdp.
Qed.

Lemma parse_serialize s : sdp_ok s -> parse (serialize s) = Ok s.
Proof.
  intros Hs. unfold parse. rewrite serialize_lines, lines_of_text by by apply sdp_lines_ok.
  unfold sdp_lines. rewrite session_header_lines by done.
  pose proof (so_media _ Hs). rewrite session_media_lines by done. cbn.
  rewrite media_sections_lines by done. by destruct s.
Qed.

(** ** What the parser produces *)

Lemma trim_end_char_suffix c a s : trim_end_char c (a +:+ s) = a +:+ s -> trim_end_char c s = s.
Proof.
  unfold trim_end_char. rewrite str_rev_app. intros H.
  destruct (str_rev s) as [|d r] eqn:Hr; [by rewrite <- (str_rev_invol s), Hr|].
  cbn [drop_while String.append] in *. destruct (Ascii.eqb c d) eqn:Hc.
  - exfalso. apply (f_equal String.length) in H. revert H.
    rewrite str_length_rev, str_length_app, <- (str_length_rev a), <- (str_length_rev s), Hr.
    cbn [String.length].
    assert (forall p x, String.length (drop_while p x) <= String.length x)%nat as Hd.
    { clear. intros p x. induction x as [|e x IH]; cbn; [lia|]. destruct (p e); cbn; lia. }
    specialize (Hd (Ascii.eqb c) (r +:+ str_rev a)). rewrite str_length_app in Hd. lia.
  - rewrite <- Hr. apply str_rev_invol.
Qed.

Lemma text_ok_suffix a s : text_ok (a +:+ s) -> boundary s = true -> text_ok s.
Proof.
  intros (H1 & H2 & H3) Hb. split_and!.
  - rewrite no_char_app in H1. by apply andb_true_iff in H1 as [_ H1].
  - by apply trim_end_char_suffix in H2.
  - by apply is_utf8_cut in H3 as [_ H3].
Qed.

Lemma lines_of_ok input : is_utf8 input = true -> Forall text_ok (lines_of input).
Proof.
  intros Hu. rewrite Forall_forall. intros l Hl. unfold lines_of in Hl.
  apply list_elem_of_filter in Hl as [_ (x & -> & Hx)%list_elem_of_fmap].
  pose proof (split_on_pieces LF input) as Hp. pose proof (split_on_utf8 LF input eq_refl Hu) as Hv.
  rewrite Forall_forall in Hp, Hv. split_and!.
  - by apply all_chars_trim_end_char, Hp.
  - apply trim_end_char_idemp.
  - by apply trim_end_char_utf8, Hv.
Qed.

Lemma split_value_text l ty v : text_ok l -> split_type_value l = Ok (ty, v) -> text_ok v.
Proof.
  intros Hl H. unfold split_type_value in H. inv_outcome. destruct a as [ty' rest]. inv_outcome.
  destruct a as [eq r]. inv_outcome. simplify_eq. unfold slice_from in *.
  destruct (_ && _) eqn:Hb in Heq2; [|done]. apply andb_true_iff in Hb as [_ Hb].
  injection Heq2 as <-. rewrite <- (str_take_drop 2 l) in Hl. by apply text_ok_suffix in Hl.
Qed.

Lemma words_ok v : is_utf8 v = true -> Forall word_ok (split_whitespace v).
Proof.
  intros Hv. apply split_whitespace_utf8 in Hv. pose proof (split_whitespace_words v).
  rewrite Forall_forall in *. split; auto.
Qed.

Lemma sdp_parse_ip_ok s at_ a : sdp_parse_ip s at_ = Ok a -> ip_ok a.
Proof. unfold sdp_parse_ip. intros H. inv_outcome. subst. by apply parse_ip_ok in Heq. Qed.

Lemma parse_origin_ok v o : is_utf8 v = true -> parse_origin v = Ok o -> origin_ok o.
Proof.
  intros Hv H. apply words_ok in Hv. unfold parse_origin in H.
  destruct (split_whitespace v) as [|p0 [|p1 [|p2 [|p3 [|p4 [|p5 [|p6 l]]]]]]]; try done.
  inv_outcome. subst o. apply Forall_inv in Hv. unfold origin_ok. cbn.
  split_and!; [done | by eapply parse_uint_range | by eapply parse_uint_range | by eapply sdp_parse_ip_ok].
Qed.

Lemma parse_connection_ok v c : parse_connection v = Ok c -> connection_ok c.
Proof.
  intros H. unfold parse_connection in H. repeat case_match; try done.
  inv_outcome. subst c. by eapply sdp_parse_ip_ok.
Qed.

Lemma parse_timing_ok v t : parse_timing v = Ok t -> timing_ok t.
Proof.
  intros H. unfold parse_timing in H. repeat case_match; try done.
  inv_outcome. subst t. split; by eapply parse_uint_range.
Qed.

Lemma validate_proto_id s p : validate_proto s = Ok p -> p = s /\ validate_proto s = Ok s.
Proof. intros H. pose proof H as H'. unfold validate_proto in H'. inv_outcome. by subst. Qed.

Lemma parse_media_ok v m : is_utf8 v = true -> parse_media v = Ok m -> media_ok m.
Proof.
  intros Hv H. apply words_ok in Hv. unfold parse_media in H.
  destruct (split_whitespace v) as [|p0 [|p1 [|p2 [|p3 l]]]]; try done.
  inv_outcome. subst m. apply validate_proto_id in Heq0 as [-> Hp].
  rewrite !Forall_cons in Hv. destruct Hv as (H0 & _ & _ & H3 & Hl).
  split; cbn; [done | by eapply parse_uint_range | done | by split; [|constructor] | done | done].
Qed.

Lemma parse_attribute_ok v : text_ok v -> attr_ok (parse_attribute v).
Proof.
  intros Hv. unfold parse_attribute. destruct (split_once ":" v) as [[k x]|] eqn:Hs.
  - apply split_once_Some in Hs as [-> Hk]. split; [done|]. cbn. unfold contains_char in Hk.
    by apply negb_false_iff in Hk.
  - split; [done|]. by apply split_once_None_inv.
Qed.

Record header_ok (h : Header) : Prop := {
  ho_version : forall v, h_version h = Some v -> u32 v;
  ho_origin : forall o, h_origin h = Some o -> origin_ok o;
  ho_name : forall s, h_name h = Some s -> text_ok s;
  ho_connection : forall c, h_connection h = Some c -> connection_ok c;
  ho_timing : forall t, h_timing h = Some t -> timing_ok t;
  ho_attrs : Forall attr_ok (h_attrs h) }.

Lemma session_line_ok h ty v h' : text_ok v -> header_ok h -> session_line h ty v = Ok h' ->
  header_ok h'.
Proof.
  intros Hv [H1 H2 H3 H4 H5 H6] H. pose proof (text_utf8 _ Hv) as Hu.
  destruct h as [ve o s c t a]; cbn in *. unfold session_line in H.
  destruct (String.eqb ty "v"); [|destruct (String.eqb ty "o"); [|destruct (String.eqb ty "s");
    [|destruct (String.eqb ty "c"); [|destruct (String.eqb ty "t"); [|destruct (String.eqb ty "a")]]]]];
    inv_outcome; subst h'; (split; cbn; [..|eauto using parse_attribute_ok]); try done;
    try (intros ? [= <-]); eauto using parse_origin_ok, parse_connection_ok, parse_timing_ok.
  - by eapply parse_uint_range.
  - rewrite Forall_app. eauto using parse_attribute_ok.
Qed.

#[local] Arguments session_line : simpl never.
#[local] Arguments media_line : simpl never.

Lemma session_lines_ok lines h h' rest : Forall text_ok lines -> header_ok h ->
  session_lines h lines = Ok (h', rest) -> header_ok h' /\ Forall text_ok rest.
Proof.
  intros Hl. revert h. induction Hl as [|l lines Hx Hl IH]; intros h Hh H; unfold session_lines in H.
  { by simplify_eq. }
  fold session_lines in H. inv_outcome. destruct a as [ty v].
  destruct (String.eqb ty "m"); [simplify_eq; split; [done | by constructor]|].
  inv_outcome. apply (IH a); [|done]. eapply session_line_ok; [|done|done].
  by eapply split_value_text.
Qed.

Lemma media_line_ok m ty v m' : text_ok v -> media_ok m -> media_line m ty v = Ok m' -> media_ok m'.
Proof.
  intros Hv [H1 H2 H3 H4 H5 H6] H. destruct m as [md po pr f c a]; cbn in *.
  unfold media_line in H. destruct (String.eqb ty "c"); [|destruct (String.eqb ty "a")];
    inv_outcome; subst m'; split; cbn; try done.
  - intros ? [= <-]. by eapply parse_connection_ok.
  - rewrite Forall_app. eauto using parse_attribute_ok.
Qed.

Lemma media_sections_ok lines cur ms : Forall text_ok lines ->
  (forall m, cur = Some m -> media_ok m) -> media_sections cur lines = Ok ms -> Forall media_ok ms.
Proof.
  intros Hl. revert cur ms. induction Hl as [|l lines Hx Hl IH]; intros cur ms Hc H;
    unfold media_sections in H.
  { simplify_eq. destruct cur; [constructor; [by apply Hc | done] | done]. }
  fold media_sections in H. inv_outcome. destruct a as [ty v].
  pose proof (split_value_text _ _ _ Hx Heq) as Hv.
  destruct (String.eqb ty "m").
  - inv_outcome. subst ms. rewrite Forall_app. split.
    + destruct cur; [constructor; [by apply Hc | done] | done].
    + eapply IH; [|done]. intros ? [= <-]. eapply parse_media_ok; [|done]. by apply text_utf8.
  - destruct cur as [m|].
    + inv_outcome. eapply IH; [|done]. intros ? [= <-].
      eapply media_line_ok; [done | by apply Hc | done].
    + by eapply IH.
Qed.

Lemma parse_ok input s : is_utf8 input = true -> parse input = Ok s -> sdp_ok s.
Proof.
  intros Hu H. apply lines_of_ok in Hu. unfold parse in H. inv_outcome. destruct a as [h rest].
  apply session_lines_ok in Heq as [[H1 H2 H3 H4 H5 H6] Hr]; [|done|by split].
  inv_outcome. subst s. split; cbn; auto. by eapply (media_sections_ok _ None).
Qed.

Lemma serialize_utf8 s : sdp_ok s -> is_utf8 (serialize s) = true.
Proof.
  intros Hs. rewrite serialize_lines. apply sdp_lines_ok in Hs as Hl.
  clear Hs. induction Hl as [|l ls [(_ & _ & H1) _] Hl IH]; [done|]. cbn [lines_text].
  by repeat apply is_utf8_app.
Qed.

(** ** Panics *)

(** The lines whose type is a character of more than two bytes. *)
Definition wide_type (l : string) : bool :=
  match next_char l with
  | Some (ty, rest) => (2 <? String.length ty)%nat && starts_with "=" rest
  | None => false
  end.

Lemma next_char_eq s x r : next_char s = Some (x, r) -> x = "=" -> s = String "=" r.
Proof.
  unfold next_char. destruct s as [|c s]; [done|].
  destruct (utf8_head (String c s)) as [ok k] eqn:Hh. intros [= <- <-] Hx.
  pose proof (utf8_head_bounds c s) as Hb. rewrite Hh in Hb.
  destruct k as [|[|k]]; [lia | by injection Hx as -> |].
  exfalso. apply (f_equal String.length) in Hx. revert Hx. destruct s as [|d s]; [cbn in Hb; lia|].
  cbn. lia.
Qed.

Lemma starts_with_eq s :
  starts_with "=" s = match next_char s with Some (x, _) => String.eqb x "=" | None => false end.
Proof.
  destruct (next_char s) as [[x r]|] eqn:Hn.
  - destruct (String.eqb_spec x "=") as [Hx | Hx].
    + pose proof (next_char_eq _ _ _ Hn Hx) as ->. done.
    + apply bool_decide_eq_false. intros [r' Hr]. apply strip_prefix_Some in Hr as ->.
      apply Hx. by injection Hn.
  - destruct s as [|c s]; [done|]. unfold next_char in Hn. by destruct (utf8_head (String c s)).
Qed.

(** The third byte of a long character. *)
Lemma wide_head a s k : utf8_head (String a s) = (true, k) -> (2 < k)%nat ->
  exists b c r, s = String b (String c r) /\ is_cont c = true.
Proof.
  unfold utf8_head. intros H Hk. destruct s as [|b [|c r]]; repeat case_match; simplify_eq; try lia;
    by eexists _, _, _.
Qed.

Lemma str_take_length k s : (k <= String.length s)%nat -> String.length (str_take k s) = k.
Proof.
  revert s. induction k as [|k IH]; intros [|c s] H; cbn in *; try done; [lia|]. rewrite IH; lia.
Qed.

Lemma split_panic l : is_utf8 l = true -> split_type_value l = Panic <-> wide_type l = true.
Proof.
  intros Hu. destruct l as [|a s]; [done|].
  unfold split_type_value, wide_type. cbn [next_char].
  pose proof (utf8_head_bounds a s) as Hb.
  destruct (utf8_head (String a s)) as [ok k] eqn:Hh. cbn [ok_or mbind outcome_bind].
  assert (ok = true) as ->.
  { unfold is_utf8 in Hu. cbn [String.length valid_fuel] in Hu. rewrite Hh in Hu.
    by apply andb_true_iff in Hu as [-> _]. }
  rewrite str_take_length, starts_with_eq by lia.
  destruct (next_char (str_drop k (String a s))) as [[x r]|] eqn:Hn; cbn [ok_or mbind outcome_bind];
    [|by rewrite andb_false_r].
  destruct (String.eqb_spec x "=") as [Hx | Hx]; cbn [ensure mbind outcome_bind];
    [|by rewrite andb_false_r].
  apply next_char_eq in Hn; [|done]. rewrite andb_true_r. unfold slice_from.
  destruct (Nat.ltb_spec 2 k) as [Hk | Hk].
  - apply wide_head in Hh as (b & c & t & -> & Hc); [|done]. cbn [str_drop boundary]. rewrite Hc.
    cbn [negb]. rewrite andb_false_r. done.
  - destruct k as [|[|[|k]]]; [lia | | | lia].
    + cbn in Hn. subst s. assert (boundary r = true) as Hr.
      { apply (is_utf8_around (String a "")) in Hu as [_ Hr]; [|done]. by apply is_utf8_boundary. }
      cbn [str_drop]. rewrite Hr. done.
    + destruct s as [|b s]; [done|]. cbn in Hn. subst s. done.
Qed.

Ltac no_panics :=
  repeat first
    [ by eauto with outcome
    | apply no_panic_bind; [|intros ? _]
    | case_match ].

Lemma parse_origin_no_panic v : no_panic (parse_origin v).
Proof. unfold parse_origin, check_addrtype, sdp_parse_ip. no_panics. Qed.
Lemma parse_connection_no_panic v : no_panic (parse_connection v).
Proof. unfold parse_connection, check_addrtype, sdp_parse_ip. no_panics. Qed.
Lemma parse_timing_no_panic v : no_panic (parse_timing v).
Proof. unfold parse_timing. no_panics. Qed.
Lemma parse_media_no_panic v : no_panic (parse_media v).
Proof.
  assert (forall l, no_panic (check_tokens l)) as Ht.
  { induction l; cbn [check_tokens]; no_panics. }
  unfold parse_media, validate_proto. no_panics.
Qed.
#[export] Hint Resolve parse_origin_no_panic parse_connection_no_panic parse_timing_no_panic
  parse_media_no_panic : outcome.

Lemma session_line_no_panic h ty v : no_panic (session_line h ty v).
Proof. unfold session_line. destruct h. no_panics. Qed.
Lemma media_line_no_panic m ty v : no_panic (media_line m ty v).
Proof. unfold media_line. destruct m. no_panics. Qed.
#[export] Hint Resolve session_line_no_panic media_line_no_panic : outcome.

Lemma session_lines_no_panic h lines : Forall (fun l => no_panic (split_type_value l)) lines ->
  no_panic (session_lines h lines).
Proof.
  intros Hl. revert h. induction Hl as [|l lines Hx Hl IH]; intros h; unfold session_lines; [done|].
  fold session_lines. no_panics.
Qed.

Lemma session_lines_rest h lines h' rest :
  session_lines h lines = Ok (h', rest) -> rest ⊆ lines.
Proof.
  revert h. induction lines as [|l lines IH]; intros h H; unfold session_lines in H.
  { by simplify_eq. }
  fold session_lines in H. inv_outcome. destruct a as [ty v].
  destruct (String.eqb ty "m"); [by simplify_eq|]. inv_outcome. apply IH in H. set_solver.
Qed.

Lemma media_sections_no_panic cur lines : Forall (fun l => no_panic (split_type_value l)) lines ->
  no_panic (media_sections cur lines).
Proof.
  intros Hl. revert cur. induction Hl as [|l lines Hx Hl IH]; intros cur; unfold media_sections; [done|].
  fold media_sections. no_panics.
Qed.

Lemma parse_panic_line input : is_utf8 input = true -> parse input = Panic ->
  exists l, l ∈ lines_of input /\ wide_type l = true.
Proof.
  intros Hu Hp. apply lines_of_ok in Hu as Hl.
  destruct (decide (Exists (fun l => wide_type l = true) (lines_of input))) as [He | Hne].
  { by apply Exists_exists in He. }
  exfalso. revert Hp. apply not_Exists_Forall in Hne; [|intros ?; apply _].
  assert (Forall (fun l => no_panic (split_type_value l)) (lines_of input)) as Hf.
  { rewrite Forall_forall in *. intros l Hx Hs. apply (Hne l Hx), split_panic; [|done].
    by apply text_utf8, Hl. }
  change (no_panic (parse input)). unfold parse. apply no_panic_bind; [by apply session_lines_no_panic|].
  intros [h rest] Hs%session_lines_rest.
  apply no_panic_bind; [|intros; no_panics]. apply media_sections_no_panic.
  rewrite Forall_forall in *. auto.
Qed.

(** ** Properties *)

(** C32: a well-formed description is read back from its text: the version, the
    origin, the name, the connections with IPv4 and IPv6 addresses, the times,
    every attribute, and every media section with its formats. *)
Theorem sdp_roundtrip s : sdp_ok s -> parse (serialize s) = Ok s /\ is_utf8 (serialize s) = true.
Proof. intros Hs. split; [by apply parse_serialize | by apply serialize_utf8]. Qed.

Lemma ngn_sdp_ok : sdp_ok ngn_sdp.
Proof. apply (parse_ok ngn_offer); by vm_compute. Qed.

Lemma sdp_roundtrip_witness :
  parse (serialize ngn_sdp) = Ok ngn_sdp /\ is_utf8 (serialize ngn_sdp) = true.
Proof. apply (sdp_roundtrip ngn_sdp). apply ngn_sdp_ok. Defined.

(** Whatever text is received, a description the parser returns is well
    formed: its numbers are within their widths, its addresses match their
    types, its media names, protocols and formats are single words, and no
    field holds a line break. It therefore survives any further serialization. *)
Theorem parsed_is_well_formed input s :
  is_utf8 input = true -> parse input = Ok s -> sdp_ok s /\ parse (serialize s) = Ok s.
Proof. intros Hu H. apply parse_ok in H; [|done]. split; [done | by apply parse_serialize]. Qed.

Lemma parsed_is_well_formed_witness : sdp_ok ngn_sdp /\ parse (serialize ngn_sdp) = Ok ngn_sdp.
Proof. apply (parsed_is_well_formed ngn_offer); by vm_compute. Defined.

(** The parser panics exactly because of a line whose type is a character
    of three or four bytes followed by an equals sign: such a line is needed,
    and as the first line it is enough. *)
Theorem parse_panics_on_wide_type input : is_utf8 input = true ->
  (parse input = Panic -> exists l, l ∈ lines_of input /\ wide_type l = true) /\
  (forall l rest, lines_of input = l :: rest -> wide_type l = true -> parse input = Panic).
Proof.
  intros Hu. split; [by apply parse_panic_line|]. intros l rest Hl Hw.
  apply lines_of_ok in Hu as Hf. rewrite Hl in Hf. apply Forall_inv, text_utf8 in Hf.
  apply split_panic in Hw; [|done]. unfold parse, session_lines. by rewrite Hl, Hw.
Qed.

(** The line of the hiragana letter a. *)
Definition wide_line : string := String (chr 0xE3) (String (chr 0x81) (String (chr 0x82) "=1")).

Lemma parse_panics_on_wide_type_witness : parse (wide_line +:+ crlf) = Panic.
Proof.
  apply (parse_panics_on_wide_type (wide_line +:+ crlf) ltac:(by vm_compute)) with wide_line (@nil string);
    by vm_compute.
Defined.
