(* ===== verification/SdpRewrite.v ===== *)
(** The rewriting of session descriptions between the NGN, the extensions and
    the browsers (sdp/negotiation.rs and sdp/builder.rs): the codec subset and
    the normalisation for the NGN, the conversions between [RTP/AVP] and
    [UDP/TLS/RTP/SAVPF], the media end point, the direction and the ptime.

    Every function works on the bytes of a body. What they produce is read back
    ([Sdp.parse_serialize]), so the theorems speak of the description the peer
    parses. *)
From S2P Require Import Prelude RustStr Utf8 NetAddr Sdp.

(** ** Bodies *)

(** [String::from_utf8] and [SessionDescription::parse], with their errors. *)
Definition parse_body (body : string) : result SessionDescription :=
  _ ← ensure (is_utf8 body) NotUtf8; parse body.

(** A change of the description; a body that cannot be read stays as it is. *)
Definition best_effort (f : SessionDescription -> SessionDescription) (body : string) : result string :=
  match parse_body body with
  | Ok s => Ok (serialize (f s))
  | Err _ => Ok body
  | Panic => Panic
  end.

(** [retain], and [iter_mut().find(p)]. *)
Definition retain {A} (p : A -> bool) (l : list A) : list A := List.filter p l.
Fixpoint update_first {A} (p : A -> bool) (f : A -> A) (l : list A) : list A :=
  match l with
  | [] => []
  | x :: l => if p x then f x :: l else x :: update_first p f l
  end.

Definition is_audio (m : MediaDescription) : bool := String.eqb (m_media m) "audio".
Definition audio_of (s : SessionDescription) : option MediaDescription := find_first is_audio (s_media s).

Definition set_attributes (m : MediaDescription) (l : list Attribute) : MediaDescription :=
  mkMedia (m_media m) (m_port m) (m_protocol m) (m_formats m) (m_connection m) l.
Definition push_attribute (m : MediaDescription) (a : Attribute) : MediaDescription :=
  set_attributes m (m_attributes m ++ [a]).
Definition set_media (s : SessionDescription) (l : list MediaDescription) : SessionDescription :=
  mkSdp (s_version s) (s_origin s) (s_name s) (s_connection s) (s_timing s) (s_attributes s) l.
Definition set_session_attributes (s : SessionDescription) (l : list Attribute) : SessionDescription :=
  mkSdp (s_version s) (s_origin s) (s_name s) (s_connection s) (s_timing s) l (s_media s).
Definition set_name (s : SessionDescription) (n : string) : SessionDescription :=
  mkSdp (s_version s) (s_origin s) n (s_connection s) (s_timing s) (s_attributes s) (s_media s).
Definition update_audio (f : MediaDescription -> MediaDescription) (s : SessionDescription) :
    SessionDescription := set_media s (update_first is_audio f (s_media s)).

Definition one_of (l : list string) (k : string) : bool := existsb (String.eqb k) l.

(** ** The negotiator (sdp/negotiation.rs) *)

Definition DTMF_PAYLOAD_TYPE : Z := 101.

Record AllowedCodec := mkCodec {
  ac_payload_type : Z; ac_rtpmap_value : string; ac_fmtp_value : option string;
  ac_required_rate_marker : option string }.

Definition PCMU : AllowedCodec := mkCodec 0 "0 PCMU/8000" None (Some "/8000").
Definition TELEPHONE_EVENT : AllowedCodec :=
  mkCodec DTMF_PAYLOAD_TYPE "101 telephone-event/8000" (Some "101 0-15") (Some "/8000").

Record Negotiator := mkNegotiator {
  allowed_audio : list AllowedCodec; strip_webrtc_attrs : bool; normalize_for_ngn : bool }.

Definition for_ngn : Negotiator := mkNegotiator [PCMU] true true.
Definition for_ngn_with_dtmf : Negotiator := mkNegotiator [PCMU; TELEPHONE_EVENT] true true.

Definition is_unsupported_by_ngn (a : Attribute) : bool :=
  match a with
  | Value key _ =>
      one_of ["rtcp-fb"; "rtcp-xr"; "fingerprint"; "setup"; "ice-ufrag"; "ice-pwd"; "ice-options";
              "ice-mismatch"; "candidate"; "msid"; "mid"; "ssrc"; "ssrc-group"; "extmap";
              "rtcp-mux"; "record"] key
  | Property p =>
      one_of ["rtcp-mux"; "ice-lite"; "rtcp-rsize"; "extmap-allow-mixed"; "end-of-candidates";
              "bundle-only"] p
  end.

Definition pt_of_rtpmap_or_fmtp (value : string) : option Z :=
  p ← head (split_whitespace value); parse_uint 8 p.

(** The closure of the attribute filter. *)
Definition keeps (n : Negotiator) (a : Attribute) : bool :=
  if strip_webrtc_attrs n && is_unsupported_by_ngn a then false
  else
    match a with
    | Value key value =>
        let pt := pt_of_rtpmap_or_fmtp value in
        if String.eqb key "rtpmap" then
          match pt with
          | Some pt_val =>
              match find_first (fun c => ac_payload_type c =? pt_val) (allowed_audio n) with
              | Some codec =>
                  match ac_required_rate_marker codec with
                  | Some marker => contains_str marker value
                  | None => true
                  end
              | None => false
              end
          | None => false
          end
        else if String.eqb key "fmtp" then
          match pt with
          | Some pt_val => existsb (Z.eqb pt_val) (map ac_payload_type (allowed_audio n))
          | None => false
          end
        else true
    | Property _ => true
    end.

(** An attribute [key] for the payload type. *)
Definition has_for (key : string) (pt : Z) (l : list Attribute) : bool :=
  existsb (fun a => match a with
    | Value k value => String.eqb k key && bool_decide (pt_of_rtpmap_or_fmtp value = Some pt)
    | Property _ => false
    end) l.
Definition has_key (key : string) (l : list Attribute) : bool :=
  existsb (fun a => match a with Value k _ => String.eqb k key | Property _ => false end) l.

(** One round of the completion loop. *)
Definition complete_codec (l : list Attribute) (idx : nat) (c : AllowedCodec) : list Attribute :=
  let rtpmap_attr := Value "rtpmap" (ac_rtpmap_value c) in
  let l := if has_for "rtpmap" (ac_payload_type c) l then l
           else if (idx =? 0)%nat then rtpmap_attr :: l else l ++ [rtpmap_attr] in
  match ac_fmtp_value c with
  | Some fmtp_val =>
      if has_for "fmtp" (ac_payload_type c) l then l else l ++ [Value "fmtp" fmtp_val]
  | None => l
  end.
Fixpoint complete_codecs (idx : nat) (cs : list AllowedCodec) (l : list Attribute) : list Attribute :=
  match cs with
  | [] => l
  | c :: cs => complete_codecs (S idx) cs (complete_codec l idx c)
  end.

Definition apply_codec_subset (n : Negotiator) (audio : MediaDescription) : MediaDescription :=
  mkMedia (m_media audio) (m_port audio) (m_protocol audio)
    (map (fun c => print_uint (ac_payload_type c)) (allowed_audio n)) (m_connection audio)
    (complete_codecs 0 (allowed_audio n) (retain (keeps n) (m_attributes audio))).

Definition ensure_ptime (audio : MediaDescription) : MediaDescription :=
  if has_key "ptime" (m_attributes audio) then audio else push_attribute audio (Value "ptime" "20").

Definition ensure_a_rtcp (audio : MediaDescription) : MediaDescription :=
  if has_key "rtcp" (m_attributes audio) then audio
  else push_attribute audio (Value "rtcp" (print_uint (saturating_add 16 (m_port audio) 1))).

Definition rewrite_audio (n : Negotiator) (audio : MediaDescription) : MediaDescription :=
  let audio := apply_codec_subset n audio in
  if normalize_for_ngn n then ensure_a_rtcp (ensure_ptime audio) else audio.

Definition rewrite_sdp (n : Negotiator) (s : SessionDescription) : SessionDescription :=
  let s := if strip_webrtc_attrs n
           then set_session_attributes s (retain (fun a => negb (is_unsupported_by_ngn a)) (s_attributes s))
           else s in
  let s := update_audio (rewrite_audio n) s in
  if normalize_for_ngn n && (String.eqb (s_name s) "" || String.eqb (s_name s) "-")
  then set_name s "sabiden" else s.

Definition apply (n : Negotiator) (body : string) : result string := best_effort (rewrite_sdp n) body.

Definition rewrite_offer (n : Negotiator) (body : string) : result string := apply n body.
Definition rewrite_answer (n : Negotiator) (ext_offer ngn_answer : string) : result string :=
  apply n ngn_answer.
Definition restrict_audio_to_pcmu (body : string) : result string := rewrite_offer for_ngn body.

(** ** Direction (hold and resume) *)

Inductive MediaDirection := SendRecv | SendOnly | RecvOnly | Inactive.

Definition as_attr_key (d : MediaDirection) : string :=
  match d with
  | SendRecv => "sendrecv" | SendOnly => "sendonly" | RecvOnly => "recvonly" | Inactive => "inactive"
  end.

Definition is_direction (a : Attribute) : bool :=
  one_of ["sendrecv"; "sendonly"; "recvonly"; "inactive"] (attr_key a).

Definition set_direction (d : MediaDirection) (audio : MediaDescription) : MediaDescription :=
  push_attribute (set_attributes audio (retain (fun a => negb (is_direction a)) (m_attributes audio)))
    (Property (as_attr_key d)).

Definition apply_audio_direction (body : string) (d : MediaDirection) : result string :=
  best_effort (update_audio (set_direction d)) body.

(** ** Browsers (sdp/builder.rs) *)

Record DtlsIceParams := mkParams {
  ice_ufrag : string; ice_pwd : string; fingerprint : string; setup : string;
  ssrc : option Z; cname : option string; msid_stream_id : option string;
  msid_track_id : option string }.

Definition params_new (ufrag pwd fp : string) : DtlsIceParams :=
  mkParams ufrag pwd fp "actpass" None None None None.
Definition with_ssrc (p : DtlsIceParams) (v : Z) : DtlsIceParams :=
  mkParams (ice_ufrag p) (ice_pwd p) (fingerprint p) (setup p) (Some v) (cname p)
    (msid_stream_id p) (msid_track_id p).
Definition with_cname (p : DtlsIceParams) (v : string) : DtlsIceParams :=
  mkParams (ice_ufrag p) (ice_pwd p) (fingerprint p) (setup p) (ssrc p) (Some v)
    (msid_stream_id p) (msid_track_id p).
Definition with_msid (p : DtlsIceParams) (stream track : string) : DtlsIceParams :=
  mkParams (ice_ufrag p) (ice_pwd p) (fingerprint p) (setup p) (ssrc p) (cname p)
    (Some stream) (Some track).

Definition ssrc_or_default (p : DtlsIceParams) (seed : Z) : Z :=
  match ssrc p with
  | Some s => s
  | None =>
      let s := wrap 32 (Z.lxor seed (Z.shiftr seed 32)) in
      if s =? 0 then 1 else s
  end.
Definition cname_or_default (p : DtlsIceParams) : string := default "sabiden" (cname p).
Definition msid_stream_id_or_default (p : DtlsIceParams) : string := default "sabiden" (msid_stream_id p).
Definition msid_track_id_or_default (p : DtlsIceParams) : string := default "audio0" (msid_track_id p).

(** The first audio section, changed; without one, an error. *)
Definition with_audio (f : MediaDescription -> MediaDescription) (s : SessionDescription) :
    result SessionDescription :=
  _ ← ok_or (audio_of s) NoAudio; Ok (update_audio f s).

Definition savpf_session_keys : list string := ["group"; "msid-semantic"; "ice-options"; "fingerprint"].
Definition savpf_audio_keys : list string :=
  ["rtcp-mux"; "rtcp"; "ice-ufrag"; "ice-pwd"; "fingerprint"; "setup"; "mid"; "msid"; "ssrc";
   "ssrc-group"; "candidate"; "end-of-candidates"].
Definition drop_keys (keys : list string) (l : list Attribute) : list Attribute :=
  retain (fun a => negb (one_of keys (attr_key a))) l.

Definition savpf_audio (p : DtlsIceParams) (seed : Z) (audio : MediaDescription) : MediaDescription :=
  let ssrc_text := print_uint (ssrc_or_default p seed) in
  let stream := msid_stream_id_or_default p in
  let track := msid_track_id_or_default p in
  let l := drop_keys savpf_audio_keys (m_attributes audio) ++
    [Property "rtcp-mux"; Value "rtcp" (print_uint (m_port audio)); Value "ice-ufrag" (ice_ufrag p);
     Value "ice-pwd" (ice_pwd p); Value "fingerprint" (fingerprint p); Value "setup" (setup p);
     Value "mid" "0"] in
  let l := if existsb is_direction l then l else l ++ [Property "sendrecv"] in
  let l := l ++
    [Value "msid" (stream +:+ " " +:+ track);
     Value "ssrc" (ssrc_text +:+ " cname:" +:+ cname_or_default p);
     Value "ssrc" (ssrc_text +:+ " msid:" +:+ stream +:+ " " +:+ track)] in
  mkMedia (m_media audio) (m_port audio) "UDP/TLS/RTP/SAVPF" (m_formats audio) (m_connection audio) l.

Definition avp_to_savpf (p : DtlsIceParams) (s : SessionDescription) : result SessionDescription :=
  let s := set_session_attributes s (drop_keys savpf_session_keys (s_attributes s) ++
    [Value "group" "BUNDLE 0"; Value "msid-semantic" "WMS *"; Value "ice-options" "trickle";
     Value "fingerprint" (fingerprint p)]) in
  with_audio (savpf_audio p (o_session_id (s_origin s))) s.

Definition convert_avp_to_savpf (body : string) (p : DtlsIceParams) : result string :=
  s ← parse_body body; s ← avp_to_savpf p s; Ok (serialize s).

Definition avp_session_keys : list string :=
  ["group"; "msid-semantic"; "ice-options"; "ice-ufrag"; "ice-pwd"; "fingerprint"; "setup"].
Definition avp_audio_keys : list string :=
  ["ice-ufrag"; "ice-pwd"; "ice-options"; "fingerprint"; "setup"; "rtcp-mux"; "rtcp"; "mid"; "msid";
   "ssrc"; "ssrc-group"; "extmap"; "rtcp-fb"; "candidate"; "end-of-candidates"; "bundle-only";
   "rtcp-rsize"].

Definition avp_audio (audio : MediaDescription) : MediaDescription :=
  mkMedia (m_media audio) (m_port audio) "RTP/AVP" (m_formats audio) (m_connection audio)
    (drop_keys avp_audio_keys (m_attributes audio)).

Definition savpf_to_avp (s : SessionDescription) : result SessionDescription :=
  with_audio avp_audio (set_session_attributes s (drop_keys avp_session_keys (s_attributes s))).

Definition convert_savpf_to_avp (body : string) : result string :=
  s ← parse_body body; s ← savpf_to_avp s; Ok (serialize s).

(** ** The media end point *)

Definition endpoint_attr (port : Z) (a : Attribute) : Attribute :=
  match a with
  | Value key value =>
      if String.eqb key "rtcp" then Value key (print_uint (saturating_add 16 port 1)) else a
  | Property _ => a
  end.
Definition endpoint_audio (port : Z) (audio : MediaDescription) : MediaDescription :=
  mkMedia (m_media audio) port (m_protocol audio) (m_formats audio) None
    (map (endpoint_attr port) (m_attributes audio)).

(** [now_secs] is the clock in seconds since the epoch. *)
Definition rewrite_endpoint (addr : IpAddr) (port now_secs : Z) (s : SessionDescription) :
    SessionDescription :=
  let o := s_origin s in
  let sid := if 2 ^ 32 - 1 <? o_session_id o then now_secs else o_session_id o in
  let o := mkOrigin "-" sid (wrapping_add 64 (o_session_version o) 1) addr in
  mkSdp (s_version s) o (s_name s) (Some (mkConnection addr)) (s_timing s) (s_attributes s)
    (update_first is_audio (endpoint_audio port) (s_media s)).

Definition rewrite_rtp_endpoint (body : string) (addr : IpAddr) (port now_secs : Z) : result string :=
  s ← parse_body body; Ok (serialize (rewrite_endpoint addr port now_secs s)).

(** ** ptime *)

(** The first ptime attribute decides. *)
Fixpoint first_ptime (l : list Attribute) : option Z :=
  match l with
  | [] => None
  | Value key value :: l => if String.eqb key "ptime" then parse_uint 32 (trim value) else first_ptime l
  | Property _ :: l => first_ptime l
  end.

(** A panic of the parser is [Panic]; every other failure is [None]. *)
Definition extract_ptime_from_offer (body : string) : result (option Z) :=
  match parse_body body with
  | Ok s => Ok (audio ← audio_of s; first_ptime (m_attributes audio))
  | Err _ => Ok None
  | Panic => Panic
  end.

Definition answer_ptime (ptime_ms : Z) (audio : MediaDescription) : MediaDescription :=
  if has_key "ptime" (m_attributes audio) then audio
  else push_attribute audio (Value "ptime" (print_uint ptime_ms)).

Definition ensure_ptime_in_answer (body : string) (ptime_ms : Z) : result string :=
  match parse_body body with
  | Ok s =>
      match audio_of s with
      | Some _ => Ok (serialize (update_audio (answer_ptime ptime_ms) s))
      | None => Ok body
      end
  | Err _ => Ok body
  | Panic => Panic
  end.

Definition linphone_offer : string :=
  join crlf ["v=0"; "o=iphone 2043 3470 IN IP4 192.168.30.162"; "s=-"; "c=IN IP4 192.168.30.162";
    "t=0 0"; "a=record:off"; "m=audio 54205 RTP/AVP 96 0 101"; "a=rtpmap:96 opus/48000/2";
    "a=fmtp:96 useinbandfec=1"; "a=rtpmap:101 telephone-event/48000"; "a=rtcp-fb:* trr-int 1000"; ""].

Example restrict_linphone :
  restrict_audio_to_pcmu linphone_offer =
  Ok (join crlf ["v=0"; "o=iphone 2043 3470 IN IP4 192.168.30.162"; "s=sabiden";
    "c=IN IP4 192.168.30.162"; "t=0 0"; "m=audio 54205 RTP/AVP 0"; "a=rtpmap:0 PCMU/8000";
    "a=ptime:20"; "a=rtcp:54206"; ""]).
Proof. by vm_compute. Qed.

Example rewrite_linphone_dtmf :
  rewrite_offer for_ngn_with_dtmf linphone_offer =
  Ok (join crlf ["v=0"; "o=iphone 2043 3470 IN IP4 192.168.30.162"; "s=sabiden";
    "c=IN IP4 192.168.30.162"; "t=0 0"; "m=audio 54205 RTP/AVP 0 101"; "a=rtpmap:0 PCMU/8000";
    "a=rtpmap:101 telephone-event/8000"; "a=fmtp:101 0-15"; "a=ptime:20"; "a=rtcp:54206"; ""]).
Proof. by vm_compute. Qed.

(** ** Bodies that are read back *)

Lemma parse_body_ok body s : parse_body body = Ok s -> sdp_ok s.
Proof. unfold parse_body. intros H. inv_outcome. by eapply parse_ok. Qed.

Lemma parse_body_serialize s : sdp_ok s -> parse_body (serialize s) = Ok s.
Proof. intros H. unfold parse_body. by rewrite serialize_utf8, parse_serialize by done. Qed.

Lemma best_effort_reads f body s : parse_body body = Ok s -> sdp_ok (f s) ->
  best_effort f body = Ok (serialize (f s)) /\ parse_body (serialize (f s)) = Ok (f s).
Proof. intros Hs Hf. unfold best_effort. rewrite Hs. split; [done | by apply parse_body_serialize]. Qed.

(** A second change on top of a first one. *)
Lemma best_effort_compose f g h body body' :
  (forall s, sdp_ok s -> sdp_ok (f s) /\ g (f s) = h s) ->
  best_effort f body = Ok body' -> best_effort g body' = best_effort h body.
Proof.
  intros Hf H. unfold best_effort in H. destruct (parse_body body) as [s | e |] eqn:Hp.
  - injection H as <-. destruct (Hf s) as [H1 H2]; [by eapply parse_body_ok|].
    unfold best_effort. by rewrite parse_body_serialize, Hp, H2.
  - injection H as <-. unfold best_effort. by rewrite Hp.
  - done.
Qed.

Lemma best_effort_idemp f body body' :
  (forall s, sdp_ok s -> sdp_ok (f s) /\ f (f s) = f s) ->
  best_effort f body = Ok body' -> best_effort f body' = Ok body'.
Proof. intros Hf H. by rewrite (best_effort_compose f f f body). Qed.

(** ** Lists *)

Lemma update_first_compose {A} (p : A -> bool) f g l : (forall x, p (f x) = p x) ->
  update_first p g (update_first p f l) = update_first p (fun x => g (f x)) l.
Proof.
  intros Hp. induction l as [|x l IH]; cbn; [done|].
  destruct (p x) eqn:Hx; cbn; rewrite ?Hp, Hx; [done | by rewrite IH].
Qed.

Lemma update_first_ext {A} (p : A -> bool) f g l :
  (forall x, x ∈ l -> p x = true -> f x = g x) -> update_first p f l = update_first p g l.
Proof.
  induction l as [|x l IH]; cbn; intros H; [done|]. destruct (p x) eqn:Hx.
  - by rewrite H by (done || left).
  - rewrite IH; [done|]. intros y Hy. apply H. by right.
Qed.

Lemma update_first_Forall {A} (p : A -> bool) f (P : A -> Prop) l :
  Forall P l -> (forall x, P x -> P (f x)) -> Forall P (update_first p f l).
Proof.
  intros Hl Hf. induction Hl as [|x l Hx Hl IH]; cbn; [done|]. destruct (p x); constructor; auto.
Qed.

Lemma find_update_first {A} (p : A -> bool) f l : (forall x, p (f x) = p x) ->
  find_first p (update_first p f l) = f <$> find_first p l.
Proof.
  intros Hp. induction l as [|x l IH]; cbn; [done|].
  destruct (p x) eqn:Hx; cbn; by rewrite ?Hp, Hx.
Qed.

Lemma retain_retain {A} (p q : A -> bool) l : retain p (retain q l) = retain (fun x => q x && p x) l.
Proof.
  unfold retain. induction l as [|x l IH]; cbn; [done|].
  destruct (q x); cbn; [destruct (p x); by rewrite IH | done].
Qed.

Lemma retain_ext {A} (p q : A -> bool) l : (forall x, p x = q x) -> retain p l = retain q l.
Proof. intros H. unfold retain. induction l as [|x l IH]; cbn; [done|]. by rewrite H, IH. Qed.

Lemma retain_all {A} (p : A -> bool) l : Forall (fun x => p x = true) l -> retain p l = l.
Proof. unfold retain. induction 1 as [|x l Hx Hl IH]; cbn; [done|]. by rewrite Hx, IH. Qed.

Lemma retain_none {A} (p : A -> bool) l : Forall (fun x => p x = false) l -> retain p l = [].
Proof. unfold retain. induction 1 as [|x l Hx Hl IH]; cbn; [done|]. by rewrite Hx. Qed.

Lemma retain_app {A} (p : A -> bool) a b : retain p (a ++ b) = retain p a ++ retain p b.
Proof. apply List.filter_app. Qed.

Lemma retain_holds {A} (p : A -> bool) l : Forall (fun x => p x = true) (retain p l).
Proof.
  unfold retain. induction l as [|x l IH]; cbn; [constructor|].
  destruct (p x) eqn:Hx; [by constructor | done].
Qed.

Lemma retain_Forall {A} (p : A -> bool) (P : A -> Prop) l : Forall P l -> Forall P (retain p l).
Proof.
  unfold retain. induction 1 as [|x l Hx Hl IH]; cbn; [constructor|].
  destruct (p x); [by constructor | done].
Qed.

Lemma retain_idemp {A} (p : A -> bool) l : retain p (retain p l) = retain p l.
Proof. apply retain_all, retain_holds. Qed.

Lemma existsb_retain {A} (p q : A -> bool) l : (forall x, q x = true -> p x = true) ->
  existsb q (retain p l) = existsb q l.
Proof.
  intros H. unfold retain. induction l as [|x l IH]; cbn; [done|].
  destruct (p x) eqn:Hp; cbn; rewrite IH; [done|].
  destruct (q x) eqn:Hq; [apply H in Hq; congruence | done].
Qed.

(** ** Well-formedness is kept *)

Lemma value_attr_ok k v : is_ascii_str k = true -> no_char ":" k = true -> no_char LF k = true ->
  text_ok v -> attr_ok (Value k v).
Proof.
  intros Ha Hc Hl (H1 & H2 & H3). split; [|done]. cbn [format_attr]. split_and!.
  - by rewrite !no_char_app, Hl, H1.
  - destruct v as [|d v].
    + rewrite str_app_nil_r. by apply trim_end_char_end.
    + rewrite <- str_app_assoc. by apply trim_end_char_app.
  - repeat apply is_utf8_app; [by apply ascii_utf8 | done | done].
Qed.

Lemma property_attr_ok k : is_ascii_str k = true -> all_chars is_graph k = true ->
  no_char ":" k = true -> attr_ok (Property k).
Proof.
  intros Ha Hg Hc. split; [|done]. split_and!; [| |by apply ascii_utf8].
  - eapply all_chars_impl; [|exact Hg]. intros c H.
    destruct (Ascii.eqb_spec LF c) as [Hq | _]; [subst c; by vm_compute in H | done].
  - apply trim_end_char_no_char. eapply all_chars_impl; [|exact Hg]. intros c H.
    destruct (Ascii.eqb_spec CR c) as [Hq | _]; [subst c; by vm_compute in H | done].
Qed.

Lemma set_attributes_ok m l : media_ok m -> Forall attr_ok l -> media_ok (set_attributes m l).
Proof. intros [? ? ? ? ? _] ?. by split. Qed.

Lemma push_attribute_ok m a : media_ok m -> attr_ok a -> media_ok (push_attribute m a).
Proof.
  intros Hm Ha. apply set_attributes_ok; [done|]. rewrite Forall_app. split; [apply Hm | by constructor].
Qed.

Lemma update_audio_ok f s : sdp_ok s -> (forall m, media_ok m -> media_ok (f m)) ->
  sdp_ok (update_audio f s).
Proof. intros [? ? ? ? ? ? Hm] Hf. split; cbn; try done. by apply update_first_Forall. Qed.

Lemma set_session_attributes_ok s l : sdp_ok s -> Forall attr_ok l -> sdp_ok (set_session_attributes s l).
Proof. intros [? ? ? ? ? ? ?] Hl. by split. Qed.

Lemma audio_update f s : (forall m, m_media (f m) = m_media m) ->
  audio_of (update_audio f s) = f <$> audio_of s.
Proof.
  intros Hf. apply (find_update_first is_audio). intros m. unfold is_audio. by rewrite Hf.
Qed.

Lemma update_audio_compose f g s : (forall m, m_media (f m) = m_media m) ->
  update_audio g (update_audio f s) = update_audio (fun m => g (f m)) s.
Proof.
  intros Hf. unfold update_audio, set_media. cbn. f_equal. apply update_first_compose.
  intros m. unfold is_audio. by rewrite Hf.
Qed.

(** ** The negotiator *)

(** The values a codec adds are its own, and pass the filter. *)
Record codec_ok (n : Negotiator) (c : AllowedCodec) : Prop := {
  co_pt : u8 (ac_payload_type c);
  co_rtpmap_pt : pt_of_rtpmap_or_fmtp (ac_rtpmap_value c) = Some (ac_payload_type c);
  co_rtpmap_text : text_ok (ac_rtpmap_value c);
  co_rtpmap_keeps : keeps n (Value "rtpmap" (ac_rtpmap_value c)) = true;
  co_fmtp : forall f, ac_fmtp_value c = Some f ->
    pt_of_rtpmap_or_fmtp f = Some (ac_payload_type c) /\ text_ok f /\
    keeps n (Value "fmtp" f) = true }.

Definition negotiator_ok (n : Negotiator) : Prop :=
  allowed_audio n <> [] /\ Forall (codec_ok n) (allowed_audio n).

(** A codec has its attributes. *)
Definition codec_done (l : list Attribute) (c : AllowedCodec) : Prop :=
  has_for "rtpmap" (ac_payload_type c) l = true /\
  (ac_fmtp_value c <> None -> has_for "fmtp" (ac_payload_type c) l = true).

(** What the rewriting establishes of the audio section. *)
Record audio_normal (n : Negotiator) (m : MediaDescription) : Prop := {
  an_formats : m_formats m = map (fun c => print_uint (ac_payload_type c)) (allowed_audio n);
  an_keeps : Forall (fun a => keeps n a = true) (m_attributes m);
  an_codecs : Forall (codec_done (m_attributes m)) (allowed_audio n);
  an_ptime : normalize_for_ngn n = true -> has_key "ptime" (m_attributes m) = true;
  an_rtcp : normalize_for_ngn n = true -> has_key "rtcp" (m_attributes m) = true }.

Lemma existsb_incl {A} (p : A -> bool) l l' : l ⊆ l' -> existsb p l = true -> existsb p l' = true.
Proof.
  rewrite !existsb_exists. intros Hs (x & Hx & Hp). exists x. split; [|done].
  rewrite <- list_elem_of_In in *. by apply Hs.
Qed.

Lemma codec_done_incl l l' c : l ⊆ l' -> codec_done l c -> codec_done l' c.
Proof. intros Hs [H1 H2]. split; [|intros Hf; specialize (H2 Hf)]; by eapply existsb_incl. Qed.

Lemma has_for_own k v pt l : pt_of_rtpmap_or_fmtp v = Some pt -> Value k v ∈ l -> has_for k pt l = true.
Proof.
  intros Hp Hl. apply existsb_exists. exists (Value k v). split; [by apply list_elem_of_In|].
  by rewrite String.eqb_refl, bool_decide_eq_true_2.
Qed.

Lemma complete_codec_spec n l i c (P : Attribute -> Prop) : codec_ok n c ->
  P (Value "rtpmap" (ac_rtpmap_value c)) ->
  (forall f, ac_fmtp_value c = Some f -> P (Value "fmtp" f)) -> Forall P l ->
  Forall P (complete_codec l i c) /\ l ⊆ complete_codec l i c /\ codec_done (complete_codec l i c) c.
Proof.
  intros [_ Hr _ _ Hf] Pr Pf Hl. unfold complete_codec.
  set (l1 := if has_for "rtpmap" (ac_payload_type c) l then l
    else if (i =? 0)%nat then _ else _).
  assert (Forall P l1 /\ l ⊆ l1 /\ has_for "rtpmap" (ac_payload_type c) l1 = true) as (H1 & H2 & H3).
  { unfold l1. destruct (has_for "rtpmap" (ac_payload_type c) l) eqn:Hh; [done|].
    destruct (i =? 0)%nat; split_and!.
    + by constructor.
    + by apply list_subseteq_cons.
    + apply (has_for_own _ (ac_rtpmap_value c)); [done | by left].
    + rewrite Forall_app. auto.
    + by apply list_subseteq_app_l.
    + apply (has_for_own _ (ac_rtpmap_value c)); [done|]. apply elem_of_app. right. by left. }
  clearbody l1. destruct (ac_fmtp_value c) as [f|] eqn:Hfv.
  - specialize (Hf f eq_refl) as (Hp & _). specialize (Pf f eq_refl).
    destruct (has_for "fmtp" (ac_payload_type c) l1) eqn:Hh; [by repeat split|]. split_and!.
    + rewrite Forall_app. auto.
    + by apply list_subseteq_app_l.
    + split; [|intros _].
      * eapply existsb_incl; [|done]. by apply list_subseteq_app_l.
      * apply (has_for_own _ f); [done|]. apply elem_of_app. right. by left.
  - split_and!; [done | done |]. split; [done|]. congruence.
Qed.

Lemma complete_codecs_spec n cs i l (P : Attribute -> Prop) : Forall (codec_ok n) cs ->
  (forall c, c ∈ cs -> P (Value "rtpmap" (ac_rtpmap_value c)) /\
    forall f, ac_fmtp_value c = Some f -> P (Value "fmtp" f)) -> Forall P l ->
  Forall P (complete_codecs i cs l) /\ l ⊆ complete_codecs i cs l /\
  Forall (codec_done (complete_codecs i cs l)) cs.
Proof.
  intros Hcs. revert i l. induction Hcs as [|c cs Hc Hcs IH]; intros i l HP Hl; [done|].
  cbn [complete_codecs]. destruct (HP c) as [Pr Pf]; [left|].
  destruct (complete_codec_spec n l i c P) as (H1 & H2 & H3); [done|done|done|done|].
  destruct (IH (S i) (complete_codec l i c)) as (H4 & H5 & H6); [|done|].
  { intros c' Hc'. apply HP. by right. }
  split_and!; [done | by etrans |]. constructor; [|done]. by eapply codec_done_incl.
Qed.

Lemma complete_codecs_done cs i l : Forall (codec_done l) cs -> complete_codecs i cs l = l.
Proof.
  intros H. revert i. induction H as [|c cs [H1 H2] H IH]; intros i; [done|].
  cbn [complete_codecs]. unfold complete_codec. rewrite H1. destruct (ac_fmtp_value c).
  - by rewrite H2.
  - done.
Qed.

Section negotiate.
Context (n : Negotiator) (Hn : negotiator_ok n).

Lemma keeps_other k v : String.eqb k "rtpmap" = false -> String.eqb k "fmtp" = false ->
  is_unsupported_by_ngn (Value k v) = false -> keeps n (Value k v) = true.
Proof. intros H1 H2 H3. unfold keeps. by rewrite H3, andb_false_r, H1, H2. Qed.

Lemma codec_subset_spec m : media_ok m ->
  media_ok (apply_codec_subset n m) /\
  Forall (fun a => keeps n a = true) (m_attributes (apply_codec_subset n m)) /\
  Forall (codec_done (m_attributes (apply_codec_subset n m))) (allowed_audio n).
Proof.
  destruct Hn as [Hne Hcs]. intros [H1 H2 H3 H4 H5 H6].
  destruct (complete_codecs_spec n (allowed_audio n) 0 (retain (keeps n) (m_attributes m))
    (fun a => attr_ok a /\ keeps n a = true)) as (Ha & _ & Hd); [done| |..].
  - intros c Hc. rewrite Forall_forall in Hcs. destruct (Hcs c Hc) as [_ _ Ht Hk Hf].
    split; [split; [by apply value_attr_ok | done]|].
    intros f Hfv. destruct (Hf f Hfv) as (_ & ? & ?). split; [by apply value_attr_ok | done].
  - rewrite Forall_forall. intros a Ha. split.
    + pose proof (retain_Forall (keeps n) _ _ H6) as Hr. rewrite Forall_forall in Hr. auto.
    + pose proof (retain_holds (keeps n) (m_attributes m)) as Hr. rewrite Forall_forall in Hr. auto.
  - split_and!; [| eapply Forall_impl; [exact Ha | by intros a [_ ?]] | done].
    split; cbn; try done.
    + split; [by destruct (allowed_audio n)|]. apply Forall_map. eapply Forall_impl; [exact Hcs|].
      intros c _. apply print_uint_word_ok.
    + eapply Forall_impl; [exact Ha|]. by intros a [? _].
Qed.

Lemma rewrite_audio_ok m : media_ok m -> media_ok (rewrite_audio n m) /\ audio_normal n (rewrite_audio n m).
Proof.
  intros Hm. destruct (codec_subset_spec m Hm) as (Hs & Hk & Hd).
  unfold rewrite_audio. set (a := apply_codec_subset n m) in *.
  assert (m_formats a = map (fun c => print_uint (ac_payload_type c)) (allowed_audio n)) as Hfm by done.
  clearbody a.
  (* Adding a key that is missing. *)
  assert (forall k v b, String.eqb k "rtpmap" = false -> String.eqb k "fmtp" = false ->
    is_unsupported_by_ngn (Value k v) = false -> attr_ok (Value k v) ->
    let b' := if has_key k (m_attributes b) then b else push_attribute b (Value k v) in
    media_ok b -> Forall (fun a => keeps n a = true) (m_attributes b) ->
    media_ok b' /\ m_formats b' = m_formats b /\ m_attributes b ⊆ m_attributes b' /\
    Forall (fun a => keeps n a = true) (m_attributes b') /\ has_key k (m_attributes b') = true) as Hadd.
  { intros k v b H1 H2 H3 Ha b' Hb Hkb. unfold b'. destruct (has_key k (m_attributes b)) eqn:Hh; [done|].
    split_and!; [by apply push_attribute_ok | done | by apply list_subseteq_app_l | |].
    - cbn. rewrite Forall_app. split; [done|]. constructor; [by apply keeps_other | done].
    - cbn. unfold has_key. rewrite existsb_app. cbn. by rewrite String.eqb_refl, orb_true_r. }
  destruct (normalize_for_ngn n) eqn:Hnorm; [|by split; [|split; rewrite ?Hnorm]].
  destruct (Hadd "ptime" "20" a) as (Hp1 & Hp2 & Hp3 & Hp4 & Hp5);
    [done|done|done|by apply value_attr_ok|done|done|].
  change (if has_key "ptime" (m_attributes a) then a else push_attribute a (Value "ptime" "20"))
    with (ensure_ptime a) in *.
  destruct (Hadd "rtcp" (print_uint (saturating_add 16 (m_port (ensure_ptime a)) 1)) (ensure_ptime a))
    as (Hr1 & Hr2 & Hr3 & Hr4 & Hr5); [done|done|done|apply value_attr_ok; eauto with sdp|done|done|].
  fold (ensure_a_rtcp (ensure_ptime a)) in *.
  split; [done|]. split.
  - by rewrite Hr2, Hp2.
  - done.
  - eapply Forall_impl; [exact Hd|]. intros c Hc. eapply codec_done_incl; [|done]. by etrans.
  - intros _. by eapply existsb_incl.
  - done.
Qed.

Lemma rewrite_audio_normal m : audio_normal n m -> rewrite_audio n m = m.
Proof.
  intros [Hf Hk Hc Hp Hr]. unfold rewrite_audio.
  assert (apply_codec_subset n m = m) as ->.
  { unfold apply_codec_subset. rewrite retain_all, complete_codecs_done, <- Hf by done. by destruct m. }
  destruct (normalize_for_ngn n); [|done]. unfold ensure_ptime, ensure_a_rtcp.
  by rewrite Hp, Hr.
Qed.

Lemma rewrite_audio_media m : m_media (rewrite_audio n m) = m_media m.
Proof.
  unfold rewrite_audio, ensure_a_rtcp, ensure_ptime. by repeat case_match.
Qed.

(** The name, the session attributes, and the media of the result. *)
Definition ngn_name (s : string) : string :=
  if normalize_for_ngn n && (String.eqb s "" || String.eqb s "-") then "sabiden" else s.
Definition ngn_attributes (l : list Attribute) : list Attribute :=
  if strip_webrtc_attrs n then retain (fun a => negb (is_unsupported_by_ngn a)) l else l.

Lemma rewrite_sdp_eq s : rewrite_sdp n s =
  mkSdp (s_version s) (s_origin s) (ngn_name (s_name s)) (s_connection s) (s_timing s)
    (ngn_attributes (s_attributes s)) (update_first is_audio (rewrite_audio n) (s_media s)).
Proof.
  unfold rewrite_sdp, ngn_name, ngn_attributes. destruct s as [v o nm c t a m].
  destruct (strip_webrtc_attrs n); cbn;
    destruct (normalize_for_ngn n && (String.eqb nm "" || String.eqb nm "-")); done.
Qed.

Lemma rewrite_sdp_ok s : sdp_ok s ->
  sdp_ok (rewrite_sdp n s) /\ rewrite_sdp n (rewrite_sdp n s) = rewrite_sdp n s.
Proof.
  intros [H1 H2 H3 H4 H5 H6 H7]. rewrite !rewrite_sdp_eq. cbn. split.
  - split; cbn; try done.
    + unfold ngn_name. destruct (_ && _); [by split_and! | done].
    + unfold ngn_attributes. case_match; [by apply retain_Forall | done].
    + apply update_first_Forall; [done|]. intros m Hm. by apply rewrite_audio_ok.
  - f_equal.
    + unfold ngn_name. destruct (normalize_for_ngn n); cbn; [|done].
      destruct (String.eqb (s_name s) "" || String.eqb (s_name s) "-") eqn:Hb; [done | by rewrite Hb].
    + unfold ngn_attributes. case_match; [apply retain_idemp | done].
    + rewrite update_first_compose by (intros m; unfold is_audio; by rewrite rewrite_audio_media).
      apply update_first_ext. intros m Hm _. apply rewrite_audio_normal, rewrite_audio_ok.
      rewrite Forall_forall in H7. by apply H7.
Qed.

Lemma find_audio_in (s : SessionDescription) m : audio_of s = Some m -> m ∈ s_media s.
Proof. by intros [? _]%find_first_Some. Qed.

(** Rewriting twice is rewriting once, for any bytes at all. *)
Theorem negotiation_idempotent body body' : apply n body = Ok body' -> apply n body' = Ok body'.
Proof. apply best_effort_idemp, rewrite_sdp_ok. Qed.
End negotiate.

(** Checks a codec of a concrete negotiator by evaluation. *)
Ltac check_codec :=
  split; [..|intros ? Hf; vm_compute in Hf; try discriminate Hf; injection Hf as <-; split_and!];
  first [by vm_compute | by split_and!; vm_compute].

Lemma for_ngn_ok : negotiator_ok for_ngn.
Proof. split; [done|]. repeat (apply Forall_cons_2; [check_codec|]). apply Forall_nil_2. Qed.

Lemma for_ngn_with_dtmf_ok : negotiator_ok for_ngn_with_dtmf.
Proof. split; [done|]. repeat (apply Forall_cons_2; [check_codec|]). apply Forall_nil_2. Qed.

Definition linphone_sdp : SessionDescription :=
  mkSdp 0 (mkOrigin "iphone" 2043 3470 (V4 192 168 30 162)) "-" (Some (mkConnection (V4 192 168 30 162)))
    (mkTiming 0 0) [Value "record" "off"]
    [mkMedia "audio" 54205 "RTP/AVP" ["96"; "0"; "101"] None
      [Value "rtpmap" "96 opus/48000/2"; Value "fmtp" "96 useinbandfec=1";
       Value "rtpmap" "101 telephone-event/48000"; Value "rtcp-fb" "* trr-int 1000"]].

Lemma parse_linphone : parse_body linphone_offer = Ok linphone_sdp.
Proof. by vm_compute. Qed.

(** *** What is offered to the NGN *)

(** The attributes the NGN does not know: with a value, and without. *)
Definition UNKNOWN_VALUES : list string :=
  ["candidate"; "extmap"; "fingerprint"; "ice-mismatch"; "ice-options"; "ice-pwd"; "ice-ufrag"; "mid"; "msid";
   "record"; "rtcp-fb"; "rtcp-mux"; "rtcp-xr"; "setup"; "ssrc"; "ssrc-group"].
Definition UNKNOWN_PROPERTIES : list string :=
  ["bundle-only"; "end-of-candidates"; "extmap-allow-mixed"; "ice-lite"; "rtcp-mux"; "rtcp-rsize"].
Definition ngn_knows (a : Attribute) : Prop :=
  match a with Value k _ => k ∉ UNKNOWN_VALUES | Property p => p ∉ UNKNOWN_PROPERTIES end.
#[export] Instance ngn_knows_dec a : Decision (ngn_knows a).
Proof. destruct a; apply _. Defined.

(** The payload type an rtpmap or fmtp line is about. *)
Definition line_pt (value : string) : option Z := p ← head (split_whitespace value); parse_uint 8 p.
Definition line_about (pts : list Z) (value : string) : Prop :=
  match line_pt value with Some pt => pt ∈ pts | None => False end.
#[export] Instance line_about_dec pts v : Decision (line_about pts v).
Proof. unfold line_about. destruct (line_pt v); apply _. Defined.

(** It speaks of the payload types [pts], all at 8000 Hz. *)
Definition speaks_of (pts : list Z) (a : Attribute) : Prop :=
  match a with
  | Value k v => (k = "rtpmap" -> line_about pts v /\ contains_str "/8000" v = true) /\ (k = "fmtp" -> line_about pts v)
  | Property _ => True
  end.
#[export] Instance speaks_of_dec pts a : Decision (speaks_of pts a).
Proof. destruct a; apply _. Defined.

(** Some line [key] of [l] is about the payload type; some line [key] is there. *)
Definition describes (key : string) (pt : Z) (l : list Attribute) : Prop :=
  Exists (fun a => match a with Value k v => k = key /\ line_pt v = Some pt | Property _ => False end) l.
#[export] Instance describes_dec key pt l : Decision (describes key pt l).
Proof. apply Exists_dec. intros []; apply _. Defined.
Definition mentions (key : string) (l : list Attribute) : Prop :=
  Exists (fun a => match a with Value k _ => k = key | Property _ => False end) l.
#[export] Instance mentions_dec key l : Decision (mentions key l).
Proof. apply Exists_dec. intros []; apply _. Defined.

(** The lines of the audio section for the NGN: those of the extension that the
    NGN knows and that speak of the offered payload types, in their order, and
    around them the ones that are missing. *)
Definition ngn_pts (dtmf : bool) : list Z := if dtmf then [0; 101] else [0].
Definition ngn_kept (dtmf : bool) (l : list Attribute) : list Attribute :=
  filter (fun a => ngn_knows a /\ speaks_of (ngn_pts dtmf) a) l.
Definition ngn_lines (dtmf : bool) (port : Z) (l : list Attribute) : list Attribute :=
  let kept := ngn_kept dtmf l in
  let missing (P : Prop) {_ : Decision P} a : list Attribute := if decide P then [] else [a] in
  missing (describes "rtpmap" 0 kept) (Value "rtpmap" "0 PCMU/8000")
  ++ kept
  ++ (if dtmf then missing (describes "rtpmap" 101 kept) (Value "rtpmap" "101 telephone-event/8000")
                   ++ missing (describes "fmtp" 101 kept) (Value "fmtp" "101 0-15") else [])
  ++ missing (mentions "ptime" kept) (Value "ptime" "20")
  ++ missing (mentions "rtcp" kept) (Value "rtcp" (print_uint (Z.min (port + 1) 65535))).

Definition ngn_audio (dtmf : bool) (m : MediaDescription) : MediaDescription :=
  mkMedia (m_media m) (m_port m) (m_protocol m) (if dtmf then ["0"; "101"] else ["0"]) (m_connection m)
    (ngn_lines dtmf (m_port m) (m_attributes m)).
Definition ngn_of (dtmf : bool) : Negotiator := if dtmf then for_ngn_with_dtmf else for_ngn.

Lemma unsupported_spec a : is_unsupported_by_ngn a = negb (bool_decide (ngn_knows a)).
Proof.
  assert (forall (l l' : list string) k, Forall (fun x => x ∈ l') l /\ Forall (fun x => x ∈ l) l' ->
    one_of l k = negb (bool_decide (k ∉ l'))) as H.
  { intros l l' k [Hl Hl']. rewrite Forall_forall in Hl, Hl'. unfold one_of. destruct (existsb (String.eqb k) l) eqn:He.
    - apply existsb_exists in He as (x & Hx%list_elem_of_In & Hk%String.eqb_eq). subst x.
      rewrite bool_decide_eq_false_2; [done|]. intros Hn. by apply Hn, Hl.
    - rewrite bool_decide_eq_true_2; [done|]. intros Hk%Hl'%list_elem_of_In.
      assert (existsb (String.eqb k) l = true); [|congruence]. apply existsb_exists. exists k. split; [done|apply String.eqb_refl]. }
  destruct a as [p | k v]; cbn [is_unsupported_by_ngn]; apply H; apply (bool_decide_unpack _); by vm_compute.
Qed.

Lemma keeps_spec dtmf a : keeps (ngn_of dtmf) a = bool_decide (ngn_knows a /\ speaks_of (ngn_pts dtmf) a).
Proof.
  apply bool_decide_iff. unfold keeps. replace (strip_webrtc_attrs (ngn_of dtmf)) with true by (by destruct dtmf). cbn [andb].
  rewrite unsupported_spec. case_bool_decide as Hk; cbn [negb]; [|split; [done | by intros [? _]]].
  destruct a as [p | k v]; cbn [speaks_of]; [done|].
  change (pt_of_rtpmap_or_fmtp v) with (line_pt v).
  assert (forall pt, existsb (Z.eqb pt) (map ac_payload_type (allowed_audio (ngn_of dtmf))) = true <-> pt ∈ ngn_pts dtmf) as Hex.
  { intros pt. rewrite existsb_exists. destruct dtmf; cbn; unfold DTMF_PAYLOAD_TYPE;
      rewrite ?elem_of_cons, elem_of_nil; split; [intros (x & Hx & <-%Z.eqb_eq); intuition | intros Hx |
        intros (x & Hx & <-%Z.eqb_eq); intuition | intros Hx]; exists pt; rewrite Z.eqb_refl; intuition. }
  assert (forall pt, match find_first (fun c => ac_payload_type c =? pt) (allowed_audio (ngn_of dtmf)) with
      | Some codec => match ac_required_rate_marker codec with Some marker => contains_str marker v | None => true end
      | None => false end = true <-> pt ∈ ngn_pts dtmf /\ contains_str "/8000" v = true) as Hfind.
  { intros pt. rewrite <- Hex. destruct dtmf; cbn -[Z.eqb]; unfold DTMF_PAYLOAD_TYPE;
      rewrite ?(Z.eqb_sym pt 0), ?(Z.eqb_sym pt 101);
      destruct (0 =? pt); cbn -[Z.eqb]; try destruct (101 =? pt); cbn; intuition congruence. }
  unfold line_about. destruct (String.eqb_spec k "rtpmap") as [-> | Hr].
  { destruct (line_pt v) as [pt|]; [rewrite Hfind | ]; intuition (congruence || done). }
  destruct (String.eqb_spec k "fmtp") as [-> | Hf]; [|intuition congruence].
  destruct (line_pt v) as [pt|]; [rewrite Hex|]; intuition (congruence || done).
Qed.

Lemma has_for_spec key pt l : has_for key pt l = bool_decide (describes key pt l).
Proof.
  apply bool_decide_iff. unfold has_for, describes. rewrite existsb_exists, Exists_exists. setoid_rewrite list_elem_of_In.
  split; intros ([|k v] & Hin & H); try done; eexists; (split; [exact Hin|]); cbn in *.
  - apply andb_true_iff in H as [H1%String.eqb_eq H2%bool_decide_eq_true]. done.
  - destruct H as [-> H]. by rewrite String.eqb_refl, bool_decide_eq_true_2.
Qed.

Lemma has_key_spec key l : has_key key l = bool_decide (mentions key l).
Proof.
  apply bool_decide_iff. unfold has_key, mentions. rewrite existsb_exists, Exists_exists. setoid_rewrite list_elem_of_In.
  split; intros ([|k v] & Hin & H); try done; eexists; (split; [exact Hin|]); cbn in *.
  - by apply String.eqb_eq.
  - subst. apply String.eqb_refl.
Qed.

Lemma retain_filter {A} (p : A -> bool) (P : A -> Prop) `{forall x, Decision (P x)} l :
  (forall x, p x = bool_decide (P x)) -> retain p l = filter P l.
Proof.
  intros Hp. induction l as [|x l IH]; [done|]. unfold retain in *. cbn [List.filter]. rewrite filter_cons, Hp, IH.
  case_decide as Hx; [by rewrite bool_decide_eq_true_2 | by rewrite bool_decide_eq_false_2].
Qed.
Lemma has_for_app key pt l l' : has_for key pt (l ++ l') = has_for key pt l || has_for key pt l'.
Proof. apply existsb_app. Qed.
Lemma has_key_app key l l' : has_key key (l ++ l') = has_key key l || has_key key l'.
Proof. apply existsb_app. Qed.

(** A line that is missing. *)
Definition unless (b : bool) (a : Attribute) : list Attribute := if b then [] else [a].
Lemma has_for_unless key pt b a : has_for key pt [a] = false -> has_for key pt (unless b a) = false.
Proof. by destruct b. Qed.
Lemma has_key_unless key b a : has_key key [a] = false -> has_key key (unless b a) = false.
Proof. by destruct b. Qed.

Lemma complete_pcmu l :
  complete_codec l 0 PCMU = unless (has_for "rtpmap" 0 l) (Value "rtpmap" "0 PCMU/8000") ++ l.
Proof. unfold complete_codec. cbn. by destruct (has_for "rtpmap" 0 l). Qed.

Lemma complete_dtmf i l :
  complete_codec l (S i) TELEPHONE_EVENT =
  l ++ unless (has_for "rtpmap" 101 l) (Value "rtpmap" "101 telephone-event/8000")
    ++ unless (has_for "fmtp" 101 l) (Value "fmtp" "101 0-15").
Proof.
  unfold complete_codec. cbn [Nat.eqb ac_payload_type TELEPHONE_EVENT ac_rtpmap_value ac_fmtp_value].
  unfold DTMF_PAYLOAD_TYPE. destruct (has_for "rtpmap" 101 l) eqn:H1; cbn [unless app].
  - destruct (has_for "fmtp" 101 l); cbn [unless]; by rewrite ?app_nil_r.
  - rewrite has_for_app. change (has_for "fmtp" 101 [Value "rtpmap" _]) with false. rewrite orb_false_r.
    destruct (has_for "fmtp" 101 l); cbn [unless]; by rewrite <- ?app_assoc.
Qed.

Lemma ensure_lines m :
  ensure_a_rtcp (ensure_ptime m) =
  set_attributes m (m_attributes m ++ unless (has_key "ptime" (m_attributes m)) (Value "ptime" "20")
    ++ unless (has_key "rtcp" (m_attributes m)) (Value "rtcp" (print_uint (Z.min (m_port m + 1) 65535)))).
Proof.
  unfold ensure_ptime. destruct (has_key "ptime" (m_attributes m)) eqn:H1; unfold ensure_a_rtcp; cbn [unless app push_attribute set_attributes m_attributes m_port].
  - destruct (has_key "rtcp" (m_attributes m)); cbn [unless]; rewrite ?app_nil_r; by destruct m.
  - rewrite has_key_app. change (has_key "rtcp" [Value "ptime" _]) with false. rewrite orb_false_r.
    destruct (has_key "rtcp" (m_attributes m)); cbn [unless]; unfold push_attribute, set_attributes; cbn; by rewrite <- ?app_assoc.
Qed.

(** The negotiator's audio section is the one the NGN is to get. *)
Lemma rewrite_audio_spec dtmf m : rewrite_audio (ngn_of dtmf) m = ngn_audio dtmf m.
Proof.
  assert (retain (keeps (ngn_of dtmf)) (m_attributes m) = ngn_kept dtmf (m_attributes m)) as Hk
    by apply retain_filter, keeps_spec.
  unfold rewrite_audio. replace (normalize_for_ngn (ngn_of dtmf)) with true by (by destruct dtmf).
  rewrite ensure_lines. unfold apply_codec_subset, ngn_audio, ngn_lines. rewrite Hk.
  set (kept := ngn_kept dtmf (m_attributes m)). clearbody kept.
  assert (forall (P : Prop) `{!Decision P} a, (if decide P then [] else [a]) = unless (bool_decide P) a) as Hd
    by (intros; unfold unless; by case_bool_decide; case_decide).
  rewrite !Hd, <- !has_for_spec, <- !has_key_spec. cbn [m_attributes m_port set_attributes m_media m_protocol m_formats m_connection].
  destruct dtmf; cbn [ngn_of allowed_audio for_ngn for_ngn_with_dtmf complete_codecs];
    rewrite complete_pcmu, ?complete_dtmf, !has_key_app, ?has_for_app, !has_key_unless, ?has_for_unless by done;
    cbn [orb]; rewrite ?orb_false_r, <- ?app_assoc; done.
Qed.

Lemma update_first_split {A} (p : A -> bool) f l :
  (find_first p l = None /\ update_first p f l = l) \/
  exists pre x post, l = pre ++ x :: post /\ find_first p l = Some x /\ Forall (fun y => p y = false) pre /\
    update_first p f l = pre ++ f x :: post.
Proof.
  induction l as [|y l IH]; [by left|]. cbn. destruct (p y) eqn:Hy; [right; by exists [], y, l|].
  destruct IH as [[-> ->] | (pre & x & post & -> & Hf & Hp & ->)]; [by left|]. right.
  exists (y :: pre), x, post. split_and!; [done | done | by constructor | done].
Qed.

(** The description a peer reads after the rewriting of [s]. *)
Record negotiated (dtmf : bool) (s s' : SessionDescription) : Prop := {
  ng_version : s_version s' = s_version s;
  ng_origin : s_origin s' = s_origin s;
  ng_timing : s_timing s' = s_timing s;
  ng_connection : s_connection s' = s_connection s;
  ng_name : s_name s' = if decide (s_name s = "" \/ s_name s = "-") then "sabiden" else s_name s;
  ng_attributes : s_attributes s' = filter ngn_knows (s_attributes s);
  ng_media :
    (Forall (fun m => m_media m <> "audio") (s_media s) /\ s_media s' = s_media s) \/
    exists pre m post, s_media s = pre ++ m :: post /\ m_media m = "audio" /\
      Forall (fun m => m_media m <> "audio") pre /\ s_media s' = pre ++ ngn_audio dtmf m :: post }.



Definition ngn_linphone : string :=
  join crlf ["v=0"; "o=iphone 2043 3470 IN IP4 192.168.30.162"; "s=sabiden";
    "c=IN IP4 192.168.30.162"; "t=0 0"; "m=audio 54205 RTP/AVP 0"; "a=rtpmap:0 PCMU/8000";
    "a=ptime:20"; "a=rtcp:54206"; ""].

Lemma negotiation_idempotent_witness : apply for_ngn ngn_linphone = Ok ngn_linphone.
Proof.
  apply (negotiation_idempotent _ for_ngn_ok linphone_offer). by vm_compute.
Defined.

(** ** Hold and resume *)

Lemma direction_attr_ok d : attr_ok (Property (as_attr_key d)).
Proof. destruct d; by apply property_attr_ok. Qed.

Lemma set_direction_ok d m : media_ok m -> media_ok (set_direction d m).
Proof.
  intros Hm. apply push_attribute_ok; [|apply direction_attr_ok].
  apply set_attributes_ok; [done|]. apply retain_Forall, Hm.
Qed.

Lemma set_direction_compose d1 d2 m : set_direction d2 (set_direction d1 m) = set_direction d2 m.
Proof.
  unfold set_direction, push_attribute, set_attributes. cbn. do 2 f_equal.
  rewrite retain_app, retain_idemp. cbn. by destruct d1; rewrite app_nil_r.
Qed.

(** Putting a call on hold and resuming it rewrites the body as the last
    direction alone would, and the audio section the peer reads has exactly
    that one direction attribute besides the attributes it had. *)
Theorem last_direction_wins body d1 d2 body1 :
  apply_audio_direction body d1 = Ok body1 ->
  apply_audio_direction body1 d2 = apply_audio_direction body d2 /\
  forall s m, parse_body body = Ok s -> audio_of s = Some m ->
    exists s1, parse_body body1 = Ok s1 /\
      (m_attributes <$> audio_of s1) =
      Some (retain (fun a => negb (is_direction a)) (m_attributes m) ++ [Property (as_attr_key d1)]).
Proof.
  intros H. split.
  - revert H. apply best_effort_compose. intros s Hs. split.
    + apply update_audio_ok; [done|]. apply set_direction_ok.
    + rewrite update_audio_compose by done. unfold update_audio. f_equal. apply update_first_ext.
      intros m _ _. apply set_direction_compose.
  - intros s m Hs Hm. unfold apply_audio_direction in H.
    destruct (best_effort_reads (update_audio (set_direction d1)) body s Hs) as [H1 H2].
    + apply update_audio_ok; [by eapply parse_body_ok | apply set_direction_ok].
    + rewrite H in H1. injection H1 as ->. eexists. split; [exact H2|].
      rewrite audio_update by done. by rewrite Hm.
Qed.

Lemma last_direction_wins_witness : exists held,
  apply_audio_direction linphone_offer SendOnly = Ok held /\
  apply_audio_direction held SendRecv = apply_audio_direction linphone_offer SendRecv.
Proof.
  eexists. split; [by vm_compute|]. apply (last_direction_wins linphone_offer SendOnly SendRecv).
  by vm_compute.
Defined.

(** ** Browsers *)

Record params_ok (p : DtlsIceParams) : Prop := {
  po_ufrag : text_ok (ice_ufrag p); po_pwd : text_ok (ice_pwd p);
  po_fingerprint : text_ok (fingerprint p); po_setup : text_ok (setup p);
  po_cname : text_ok (cname_or_default p); po_stream : text_ok (msid_stream_id_or_default p);
  po_track : text_ok (msid_track_id_or_default p) }.

Lemma text_ok_app a b : text_ok a -> text_ok b -> text_ok (a +:+ b).
Proof.
  intros (H1 & H2 & H3) (H4 & H5 & H6). split_and!.
  - by rewrite no_char_app, H1.
  - destruct b as [|c b]; [by rewrite str_app_nil_r|]. by apply trim_end_char_app.
  - by apply is_utf8_app.
Qed.

Lemma text_ok_literal s : is_ascii_str s = true -> no_char LF s = true -> no_char CR s = true -> text_ok s.
Proof. intros. split_and!; [done | by apply trim_end_char_no_char | by apply ascii_utf8]. Qed.

Lemma drop_keys_ok keys l : Forall attr_ok l -> Forall attr_ok (drop_keys keys l).
Proof. apply retain_Forall. Qed.

Lemma savpf_audio_ok p seed m : params_ok p -> media_ok m -> media_ok (savpf_audio p seed m).
Proof.
  intros [] [H1 H2 H3 H4 H5 H6].
  assert (text_ok (msid_stream_id_or_default p +:+ " " +:+ msid_track_id_or_default p)) as Hmsid.
  { apply text_ok_app; [done|]. apply text_ok_app; [by apply text_ok_literal | done]. }
  split; unfold savpf_audio; cbn [m_media m_port m_protocol m_formats m_connection m_attributes];
    try done. rewrite !Forall_app. split_and!.
  - assert (forall l, Forall attr_ok l ->
      Forall attr_ok (if existsb is_direction l then l else l ++ [Property "sendrecv"])) as Hd.
    { intros l Hl. case_match; [done|]. rewrite Forall_app. split; [done|].
      constructor; [apply (direction_attr_ok SendRecv) | done]. }
    apply Hd. rewrite Forall_app. split; [by apply drop_keys_ok|].
    repeat (apply Forall_cons_2; [first [by apply property_attr_ok
      | apply value_attr_ok; eauto with sdp; by apply text_ok_literal]|]). apply Forall_nil_2.
  - set (ss := print_uint _). assert (text_ok ss) as Hss by apply print_uint_text.
    apply Forall_cons_2; [by apply value_attr_ok|].
    do 2 (apply Forall_cons_2; [apply value_attr_ok; [done..|];
      repeat (apply text_ok_app; [first [done | by apply text_ok_literal]|]); done|]).
    apply Forall_nil_2.
Qed.

Lemma with_audio_Ok f s s' : with_audio f s = Ok s' -> s' = update_audio f s /\ is_Some (audio_of s).
Proof. unfold with_audio. intros H. inv_outcome. split; [done | by eexists]. Qed.

Lemma avp_to_savpf_ok p s s' : params_ok p -> sdp_ok s -> avp_to_savpf p s = Ok s' -> sdp_ok s'.
Proof.
  intros Hp Hs [-> _]%with_audio_Ok. apply update_audio_ok.
  - apply set_session_attributes_ok; [done|]. rewrite Forall_app. split; [apply drop_keys_ok, Hs|].
    destruct Hp. repeat (apply Forall_cons_2; [apply value_attr_ok; first [done | by apply text_ok_literal] |]).
    apply Forall_nil_2.
  - intros m Hm. by apply savpf_audio_ok.
Qed.

Lemma one_of_In k keys : one_of keys k = true <-> k ∈ keys.
Proof.
  unfold one_of. rewrite existsb_exists. split.
  - intros (x & Hx & ->%String.eqb_eq). by apply list_elem_of_In.
  - intros H. exists k. rewrite String.eqb_refl. split; [by apply list_elem_of_In | done].
Qed.

Lemma drop_keys_app keys a b : drop_keys keys (a ++ b) = drop_keys keys a ++ drop_keys keys b.
Proof. apply retain_app. Qed.

Lemma drop_keys_more k1 k2 l : k1 ⊆ k2 -> drop_keys k2 (drop_keys k1 l) = drop_keys k2 l.
Proof.
  intros H. unfold drop_keys. rewrite retain_retain. apply retain_ext. intros a.
  destruct (one_of k1 (attr_key a)) eqn:H1; [|done]. cbn.
  apply one_of_In, H, one_of_In in H1. by rewrite H1.
Qed.

(** The direction the conversion states when there is none. *)
Definition with_direction (m : MediaDescription) : MediaDescription :=
  if existsb is_direction (m_attributes m) then m else push_attribute m (Property "sendrecv").

Lemma keys_subset k1 k2 : forallb (one_of k2) k1 = true -> k1 ⊆ k2.
Proof.
  intros H x Hx. rewrite forallb_forall in H. apply one_of_In, H. by apply list_elem_of_In.
Qed.

Lemma avp_savpf_audio p seed m : avp_audio (savpf_audio p seed m) = avp_audio (with_direction m).
Proof.
  unfold avp_audio, savpf_audio. cbn [m_media m_port m_formats m_connection m_attributes].
  set (tail := [Property "rtcp-mux"; _; _; _; _; _; _]).
  assert (existsb is_direction (drop_keys savpf_audio_keys (m_attributes m) ++ tail) =
    existsb is_direction (m_attributes m)) as ->.
  { rewrite existsb_app. unfold drop_keys. rewrite existsb_retain.
    - unfold tail. cbn. by rewrite orb_false_r.
    - intros a Ha. unfold is_direction in Ha. apply one_of_In in Ha.
      apply negb_true_iff. destruct (one_of savpf_audio_keys (attr_key a)) eqn:Hk; [|done].
      apply one_of_In in Hk. exfalso.
      assert (forallb (fun k => negb (one_of savpf_audio_keys k)) ["sendrecv"; "sendonly"; "recvonly"; "inactive"] = true)
        as Hdis by by vm_compute.
      rewrite forallb_forall in Hdis. specialize (Hdis (attr_key a)).
      rewrite <- list_elem_of_In in Hdis. specialize (Hdis Ha). apply one_of_In in Hk.
      by rewrite Hk in Hdis. }
  assert (forall x, drop_keys avp_audio_keys (drop_keys savpf_audio_keys (m_attributes m) ++ tail ++ x) =
    drop_keys avp_audio_keys (m_attributes m) ++ drop_keys avp_audio_keys x) as Hx.
  { intros x. rewrite !drop_keys_app, drop_keys_more by by apply keys_subset. done. }
  unfold with_direction. destruct (existsb is_direction (m_attributes m)); cbn [m_media m_port m_formats
    m_connection m_attributes push_attribute set_attributes]; f_equal.
  - rewrite <- app_assoc, Hx. cbn. by rewrite app_nil_r.
  - rewrite <- !app_assoc, Hx. symmetry. apply (drop_keys_app avp_audio_keys (m_attributes m) [Property "sendrecv"]).
Qed.

(** What is added for a browser is exactly what is taken away for the NGN.
    When a body converts for the browser, the result converts back, to the same
    bytes as the original with its direction made explicit. *)
Theorem browser_roundtrip body p browser s : params_ok p ->
  parse_body body = Ok s -> convert_avp_to_savpf body p = Ok browser ->
  exists s', savpf_to_avp (update_audio with_direction s) = Ok s' /\
    convert_savpf_to_avp browser = Ok (serialize s').
Proof.
  intros Hp Hs H. apply parse_body_ok in Hs as Hok. unfold convert_avp_to_savpf in H. rewrite Hs in H.
  cbn [mbind outcome_bind] in H. inv_outcome. subst browser. pose proof (avp_to_savpf_ok _ _ _ Hp Hok Heq) as Hok'.
  apply with_audio_Ok in Heq as [-> [m Hm]]. unfold convert_savpf_to_avp.
  rewrite parse_body_serialize by done. cbn [mbind outcome_bind].
  assert (audio_of s = Some m) as Hm' by done.
  unfold savpf_to_avp, with_audio.
  assert (forall l x, audio_of (set_session_attributes x l) = audio_of x) as Ha by done.
  assert (forall m', m_media (with_direction m') = m_media m') as Hd.
  { intros m'. unfold with_direction. by case_match. }
  rewrite !Ha, !audio_update, !Ha, Hm' by done. cbn [fmap option_fmap option_map ok_or mbind outcome_bind].
  eexists. split; [done|]. do 2 f_equal. unfold update_audio, set_session_attributes, set_media.
  cbn [s_version s_origin s_name s_connection s_timing s_attributes s_media]. f_equal.
  - rewrite drop_keys_app, drop_keys_more by by apply keys_subset. apply app_nil_r.
  - rewrite !update_first_compose by (intros; unfold is_audio; by rewrite ?Hd).
    apply update_first_ext. intros x _ _. apply avp_savpf_audio.
Qed.

Definition example_params : DtlsIceParams :=
  with_cname (params_new "ufrag" "pwd" "sha-256 5C:F8") "cn".

Lemma browser_roundtrip_witness : exists browser s',
  convert_avp_to_savpf linphone_offer example_params = Ok browser /\
  savpf_to_avp (update_audio with_direction linphone_sdp) = Ok s' /\
  convert_savpf_to_avp browser = Ok (serialize s').
Proof.
  eexists.
  destruct (browser_roundtrip linphone_offer example_params _ linphone_sdp
    ltac:(split; apply text_ok_literal; by vm_compute) parse_linphone
    ltac:(vm_compute; reflexivity)) as (s' & H1 & H2).
  exists s'. split_and!; [|exact H1 | exact H2]. by vm_compute.
Defined.

(** ** The media end point *)

Lemma endpoint_ok addr port now s : ip_ok addr -> u16 port -> u64 now -> sdp_ok s ->
  sdp_ok (rewrite_endpoint addr port now s).
Proof.
  intros Ha Hp Hn [H1 (H2 & H2' & H2'' & H2''') H3 H4 H5 H6 H7]. split; cbn; try done.
  - split_and!; cbn; [by apply ascii_word_ok | by case_match | | done].
    apply wrap_range. lia.
  - by intros ? [= <-].
  - apply update_first_Forall; [done|]. intros m [? ? ? ? ? Hm]. split; cbn; try done.
    apply Forall_map. eapply Forall_impl; [exact Hm|]. intros [k | k v] Hk; [done|]. cbn.
    destruct (String.eqb_spec k "rtcp") as [-> | _]; [|done]. apply value_attr_ok; eauto with sdp.
Qed.

(** What the peer reads after the end point was rewritten. *)
Record endpoint_rewritten (addr : IpAddr) (port now : Z) (s s' : SessionDescription) : Prop := {
  er_address : o_address (s_origin s') = addr /\ s_connection s' = Some (mkConnection addr);
  er_username : o_username (s_origin s') = "-";
  er_session_id : o_session_id (s_origin s') = o_session_id (s_origin s) /\
      o_session_id (s_origin s) < 2 ^ 32 \/
    o_session_id (s_origin s') = now /\ 2 ^ 32 <= o_session_id (s_origin s);
  er_version : o_session_version (s_origin s') = wrap 64 (o_session_version (s_origin s) + 1);
  er_audio : forall m, audio_of s = Some m -> exists m', audio_of s' = Some m' /\
    m_port m' = port /\ m_connection m' = None /\ m_formats m' = m_formats m /\
    m_protocol m' = m_protocol m /\
    map attr_key (m_attributes m') = map attr_key (m_attributes m) /\
    (forall v, Value "rtcp" v ∈ m_attributes m' -> v = print_uint (Z.min (port + 1) 65535));
  er_media : map m_media (s_media s') = map m_media (s_media s) }.

Lemma endpoint_spec addr port now s :
  endpoint_rewritten addr port now s (rewrite_endpoint addr port now s).
Proof.
  split; cbn; try done.
  - destruct (Z.ltb_spec (2 ^ 32 - 1) (o_session_id (s_origin s))); [right | left]; split; try done; lia.
  - intros m Hm. exists (endpoint_audio port m). split_and!; try done.
    + unfold audio_of. cbn. rewrite find_update_first by done. unfold audio_of in Hm. by rewrite Hm.
    + cbn. rewrite map_map. apply map_ext. intros [k | k v]; [done|]. cbn. by case_match.
    + cbn. intros v (a & Ha & _)%list_elem_of_fmap. destruct a as [k | k v']; [done|].
      cbn in Ha. destruct (String.eqb_spec k "rtcp") as [-> | Hne]; [by injection Ha as -> | congruence].
  - induction (s_media s) as [|m ms IH]; [done|]. cbn. destruct (is_audio m); cbn; [done|]. by rewrite IH.
Qed.

(** After the rewriting of the end point the peer sends RTP and RTCP to
    sabiden: the origin, the connection and the port are sabiden's, no
    media-level connection overrides them, every rtcp attribute names the next
    port, the version has grown by one modulo 2^64, and the session id is the old
    one if that has 32 bits. Rewriting the result for another end point (a
    re-INVITE) gives the same session id and the next version. *)
Theorem endpoint_rewriting body s addr port now :
  parse_body body = Ok s -> ip_ok addr -> u16 port -> u32 now ->
  exists body' s', rewrite_rtp_endpoint body addr port now = Ok body' /\
    parse_body body' = Ok s' /\ endpoint_rewritten addr port now s s' /\
    forall addr2 port2 now2, ip_ok addr2 -> u16 port2 -> u32 now2 ->
      exists body2 s2, rewrite_rtp_endpoint body' addr2 port2 now2 = Ok body2 /\
        parse_body body2 = Ok s2 /\
        o_session_id (s_origin s2) = o_session_id (s_origin s') /\
        o_session_version (s_origin s2) = wrap 64 (o_session_version (s_origin s) + 2) /\
        s_media s2 = update_first is_audio (endpoint_audio port2) (s_media s).
Proof.
  assert (forall x, u32 x -> u64 x) as Hw.
  { unfold uN. intros x. change (2 ^ 32) with 4294967296. change (2 ^ 64) with 18446744073709551616. lia. }
  intros Hs Ha Hp Hn. apply parse_body_ok in Hs as Hok.
  exists (serialize (rewrite_endpoint addr port now s)), (rewrite_endpoint addr port now s).
  pose proof (endpoint_ok addr port now s Ha Hp (Hw _ Hn) Hok) as Hok1.
  split_and!; [unfold rewrite_rtp_endpoint; by rewrite Hs | by apply parse_body_serialize | apply endpoint_spec |].
  intros addr2 port2 now2 Ha2 Hp2 Hn2.
  pose proof (endpoint_ok addr2 port2 now2 _ Ha2 Hp2 (Hw _ Hn2) Hok1) as Hok2.
  eexists _, _. split_and!.
  - unfold rewrite_rtp_endpoint. rewrite parse_body_serialize by done. reflexivity.
  - by apply parse_body_serialize.
  - cbn [rewrite_endpoint s_origin o_session_id].
    destruct (Z.ltb_spec (2 ^ 32 - 1) (o_session_id (s_origin s))) as [H | H].
    + destruct (Z.ltb_spec (2 ^ 32 - 1) now); [unfold uN in Hn; lia | done].
    + by destruct (Z.ltb_spec (2 ^ 32 - 1) (o_session_id (s_origin s))); [lia|].
  - cbn [rewrite_endpoint s_origin o_session_version]. unfold wrapping_add at 2.
    rewrite wrapping_add_wrap. f_equal. lia.
  - cbn [rewrite_endpoint s_media]. rewrite update_first_compose by done.
    apply update_first_ext. intros m _ _. unfold endpoint_audio. cbn. f_equal. rewrite map_map.
    apply map_ext. intros [k | k v]; [done|]. cbn.
    destruct (String.eqb k "rtcp") eqn:Hk; cbn; by rewrite Hk.
Qed.

Lemma endpoint_rewriting_witness : exists body' s',
  rewrite_rtp_endpoint linphone_offer (V4 118 177 125 1) 40000 1700000000 = Ok body' /\
  parse_body body' = Ok s' /\
  endpoint_rewritten (V4 118 177 125 1) 40000 1700000000 linphone_sdp s'.
Proof.
  destruct (endpoint_rewriting linphone_offer linphone_sdp (V4 118 177 125 1) 40000 1700000000
    parse_linphone) as (b & s' & H1 & H2 & H3 & _); [by cbn | done | done |].
  by exists b, s'.
Defined.

(** ** ptime *)

Lemma first_ptime_app l a : has_key "ptime" l = true -> first_ptime (l ++ [a]) = first_ptime l.
Proof.
  induction l as [|x l IH]; [done|]. cbn. destruct x as [k | k v]; [done|].
  destruct (String.eqb k "ptime"); [done|]. by cbn.
Qed.

Lemma first_ptime_missing l : has_key "ptime" l = false -> first_ptime l = None.
Proof.
  induction l as [|x l IH]; [done|]. cbn. destruct x as [k | k v]; [done|].
  destruct (String.eqb k "ptime"); [done|]. by cbn.
Qed.

Lemma first_ptime_push l v : has_key "ptime" l = false ->
  first_ptime (l ++ [Value "ptime" v]) = parse_uint 32 (trim v).
Proof.
  induction l as [|x l IH]; [done|]. cbn. destruct x as [k | k v']; [done|].
  destruct (String.eqb k "ptime"); [done|]. by cbn.
Qed.

Lemma answer_ptime_ok n m : media_ok m -> media_ok (answer_ptime n m).
Proof.
  intros Hm. unfold answer_ptime. case_match; [done|]. apply push_attribute_ok; [done|].
  apply value_attr_ok; eauto with sdp.
Qed.

(** The packet time of the offer reaches the answer unless the answer has
    its own: reading it back from the completed answer gives the offered one
    exactly when the answer had none. *)
Theorem ptime_echoed answer s m n : parse_body answer = Ok s -> audio_of s = Some m -> u32 n ->
  exists answer', ensure_ptime_in_answer answer n = Ok answer' /\
    extract_ptime_from_offer answer' =
      Ok (if has_key "ptime" (m_attributes m) then first_ptime (m_attributes m) else Some n) /\
    ensure_ptime_in_answer answer' n = Ok answer'.
Proof.
  intros Hs Hm Hn. apply parse_body_ok in Hs as Hok.
  assert (forall x, m_media (answer_ptime n x) = m_media x) as Hd.
  { intros x. unfold answer_ptime. by case_match. }
  assert (sdp_ok (update_audio (answer_ptime n) s)) as Hok'.
  { apply update_audio_ok; [done|]. apply answer_ptime_ok. }
  exists (serialize (update_audio (answer_ptime n) s)). split_and!.
  - unfold ensure_ptime_in_answer. by rewrite Hs, Hm.
  - unfold extract_ptime_from_offer. rewrite parse_body_serialize by done.
    rewrite audio_update, Hm by done. cbn. f_equal. unfold answer_ptime.
    destruct (has_key "ptime" (m_attributes m)) eqn:Hh; [done|].
    cbn. rewrite first_ptime_push by done. rewrite trim_id by apply print_uint_trimmed.
    apply parse_print_uint; [lia | done].
  - unfold ensure_ptime_in_answer. rewrite parse_body_serialize, audio_update, Hm by done.
    cbn [fmap option_fmap option_map]. rewrite update_audio_compose by done. do 2 f_equal. unfold update_audio. f_equal.
    apply update_first_ext. intros x _ _. unfold answer_ptime.
    destruct (has_key "ptime" (m_attributes x)) eqn:Hh; [by rewrite Hh|].
    cbn. unfold has_key. rewrite existsb_app. cbn. by rewrite orb_true_r.
Qed.

Lemma ptime_echoed_witness : exists answer',
  ensure_ptime_in_answer linphone_offer 30 = Ok answer' /\
  extract_ptime_from_offer answer' = Ok (Some 30).
Proof.
  destruct (ptime_echoed linphone_offer linphone_sdp _ 30 parse_linphone eq_refl ltac:(done))
    as (b & H1 & H2 & _).
  exists b. split; [exact H1 | exact H2].
Defined.

(** The BUNDLE group of a browser stays in a body rewritten for the NGN. *)
Example group_is_kept : is_unsupported_by_ngn (Value "group" "BUNDLE 0") = false.
Proof. done. Qed.
