(* ===== verification/TuProg.v ===== *)
(** Transaction users as programs. The asynchronous functions of sip/register.rs
    and sip/uac.rs await the transaction layer ([send_request] until the final
    response, [send_request_no_wait] for an ACK); here such a function is a tree
    of these two calls, and [run] executes it against any network: a state and
    two functions that say what each call returns. The trace of a run is the
    list of its calls in order. *)
From S2P Require Import Prelude RustStr NetAddr SipMessage SipUtils Transaction Dialog Auth.

Inductive TuError :=
  | LayerFailed
  | TuDialog (e : DialogError)
  | TuAuth (e : AuthError)
  | TuTid (e : TidError)
  | NoWwwAuthenticate
  | AuthNoneMode
  | Rejected (code : Z)
  | Unexpected (code : Z)
  | CancelTimeout.

Abbreviation tu_result := (outcome TuError).

(** [map_err]. *)
Definition map_err {E F A} (f : E -> F) (m : outcome E A) : outcome F A :=
  match m with Ok a => Ok a | Err e => Err (f e) | Panic => Panic end.

Inductive prog (A : Type) : Type :=
  | Done (r : tu_result A)
  | Call (req : SipRequest) (dest : SocketAddr) (k : option SipResponse -> prog A)
  | Post (req : SipRequest) (dest : SocketAddr) (k : bool -> prog A).
Arguments Done {A} r.
Arguments Call {A} req dest k.
Arguments Post {A} req dest k.

#[export] Instance prog_ret : MRet prog := fun A a => Done (Ok a).
#[export] Instance prog_bind : MBind prog := fun A B f =>
  fix bind (p : prog A) : prog B :=
    match p with
    | Done (Ok a) => f a
    | Done (Err e) => Done (Err e)
    | Done Panic => Done Panic
    | Call req dest k => Call req dest (fun o => bind (k o))
    | Post req dest k => Post req dest (fun o => bind (k o))
    end.

(** [layer.send_request(req, dest).await?] and [send_request_no_wait]. *)
Definition send_request (req : SipRequest) (dest : SocketAddr) : prog SipResponse :=
  Call req dest (fun o => Done (ok_or o LayerFailed)).
Definition send_request_no_wait (req : SipRequest) (dest : SocketAddr) : prog unit :=
  Post req dest (fun sent => Done (ensure sent LayerFailed)).

(** [?] on a result computed locally. *)
Definition lift {E A} (f : E -> TuError) (m : outcome E A) : prog A := Done (map_err f m).

Inductive sent :=
  | Awaited (req : SipRequest) (dest : SocketAddr)
  | Posted (req : SipRequest) (dest : SocketAddr).

Definition sent_request (s : sent) : SipRequest :=
  match s with Awaited req _ | Posted req _ => req end.

(** What the network does with a request. *)
Class Network (S : Type) := {
  net_call : S -> SipRequest -> SocketAddr -> option SipResponse * S;
  net_post : S -> SipRequest -> SocketAddr -> bool * S
}.

Section run.
Context {S : Type} `{Network S}.

Fixpoint run {A} (p : prog A) (s : S) : tu_result A * list sent * S :=
  match p with
  | Done r => (r, [], s)
  | Call req dest k =>
      let '(o, s) := net_call s req dest in
      let '(r, l, s) := run (k o) s in (r, Awaited req dest :: l, s)
  | Post req dest k =>
      let '(o, s) := net_post s req dest in
      let '(r, l, s) := run (k o) s in (r, Posted req dest :: l, s)
  end.

(** Running a sequence is running its parts. *)
Lemma run_bind {A B} (p : prog A) (f : A -> prog B) s :
  run (p ≫= f) s =
  let '(r, l, s) := run p s in
  match r with
  | Ok a => let '(r, l', s) := run (f a) s in (r, l ++ l', s)
  | Err e => (Err e, l, s)
  | Panic => (Panic, l, s)
  end.
Proof.
  revert s. induction p as [r | req dest k IH | req dest k IH]; intros s.
  - destruct r; cbn; [|done|done]. by destruct (run (f a) s) as [[]].
  - change (Call req dest k ≫= f) with (Call req dest (fun o => k o ≫= f)). cbn [run].
    destruct (net_call s req dest) as [o s1]. rewrite IH.
    destruct (run (k o) s1) as [[[a | e |] l] s2]; try done.
    by destruct (run (f a) s2) as [[]].
  - change (Post req dest k ≫= f) with (Post req dest (fun o => k o ≫= f)). cbn [run].
    destruct (net_post s req dest) as [o s1]. rewrite IH.
    destruct (run (k o) s1) as [[[a | e |] l] s2]; try done.
    by destruct (run (f a) s2) as [[]].
Qed.

Lemma run_send req dest s :
  run (send_request req dest) s =
  let '(o, s) := net_call s req dest in (ok_or o LayerFailed, [Awaited req dest], s).
Proof. cbn. by destruct (net_call s req dest). Qed.

Lemma run_post req dest s :
  run (send_request_no_wait req dest) s =
  let '(o, s) := net_post s req dest in (ensure o LayerFailed, [Posted req dest], s).
Proof. cbn. by destruct (net_post s req dest). Qed.
End run.

(** A network that gives a list of answers in turn, then none, and takes every
    post. *)
#[export] Instance scripted : Network (list SipResponse) := {
  net_call := fun s _ _ => match s with [] => (None, []) | x :: s => (Some x, s) end;
  net_post := fun s _ _ => (true, s)
}.

(** ** The Via a client writes *)

Lemma print_socket_chars (P : ascii -> bool) a : (forall c, is_addr_char c = true -> P c = true) ->
  P "["%char = true -> P "]"%char = true -> all_chars P (print_socket a) = true.
Proof.
  intros HP H1 H2.
  assert (forall s, all_chars is_addr_char s = true -> all_chars P s = true) as Hs.
  { intros s Hs. eapply all_chars_impl; [|exact Hs]. exact HP. }
  pose proof (Hs _ (print_ip_addr (ip a))) as Hip.
  pose proof (Hs _ (print_uint_addr (sport a))) as Hp. unfold print_socket, print_ip in *.
  destruct (ip a); rewrite ?all_chars_app; rewrite Hip, Hp; cbn [all_chars andb];
    rewrite ?H1, ?H2; cbn [andb];
    by rewrite (HP ":"%char ltac:(by vm_compute)).
Qed.

Lemma print_socket_graph a : all_chars is_graph (print_socket a) = true.
Proof. by apply print_socket_chars; [apply addr_graph | |]. Qed.

Lemma print_socket_no_char c a : is_addr_char c = false -> Ascii.eqb c "[" = false -> Ascii.eqb c "]" = false ->
  no_char c (print_socket a) = true.
Proof.
  intros Hc H1 H2. unfold no_char. apply print_socket_chars; [|by rewrite H1 | by rewrite H2].
  intros d Hd. apply negb_true_iff, Ascii.eqb_neq. congruence.
Qed.

Lemma print_socket_nonempty a : print_socket a <> "".
Proof.
  intros He. apply (f_equal String.length) in He. unfold print_socket in He.
  destruct (ip a); rewrite !str_length_app in He; cbn in He; lia.
Qed.

Lemma parse_via_written a r :
  parse_via ("SIP/2.0/UDP " +:+ print_socket a +:+ ";rport;branch=" +:+ new_branch r) =
  Ok (new_branch r, print_socket a).
Proof.
  unfold parse_via.
  assert (no_char ";" (new_branch r) = true) as Hb.
  { unfold new_branch. by rewrite no_char_app, hex_no_char. }
  assert (split_on ";" ("SIP/2.0/UDP " +:+ print_socket a +:+ ";rport;branch=" +:+ new_branch r) =
    ["SIP/2.0/UDP " +:+ print_socket a; "rport"; "branch=" +:+ new_branch r]) as ->.
  { rewrite <- str_app_assoc.
    change (";rport;branch=" +:+ new_branch r) with (String ";" ("rport" +:+ String ";" ("branch=" +:+ new_branch r))).
    rewrite split_on_app; [|by rewrite no_char_app, print_socket_no_char].
    rewrite split_on_app by done. rewrite split_on_no_char; [done|]. by rewrite no_char_app, Hb. }
  assert (trim (print_socket a) = print_socket a) as Ht by apply trim_id, graph_trimmed, print_socket_graph.
  assert (via_sent_by ("SIP/2.0/UDP " +:+ print_socket a) = print_socket a) as ->.
  { unfold via_sent_by. rewrite trim_id.
    - change ("SIP/2.0/UDP " +:+ print_socket a) with ("SIP/2.0/UDP" +:+ String " " (print_socket a)).
      by rewrite split_once_no_char.
    - pose proof (print_socket_graph a) as Hg. pose proof (print_socket_nonempty a) as Hn.
      destruct (graph_trimmed (print_socket a) Hg) as [_ H2]. split; [done|].
      rewrite str_rev_app. destruct (str_rev (print_socket a)) as [|c s] eqn:Hr.
      { exfalso. apply Hn. by rewrite <- (str_rev_invol (print_socket a)), Hr. }
      rewrite <- all_chars_rev, Hr in Hg. cbn in Hg. apply andb_true_iff in Hg as [Hg _].
      by apply strip_ws_rev_graph. }
  assert (last_branch ["rport"; "branch=" +:+ new_branch r] "" = new_branch r) as ->.
  { cbn [last_branch]. change (strip_prefix "branch=" (trim "rport")) with (@None string). cbv iota beta.
    assert (trim ("branch=" +:+ new_branch r) = "branch=" +:+ new_branch r) as ->.
    { apply trim_id, graph_trimmed. unfold new_branch. by rewrite !all_chars_app, hex_graph. }
    rewrite strip_prefix_app. apply trim_char_id. unfold new_branch. by rewrite no_char_app, hex_no_char. }
  assert (String.eqb (new_branch r) "" = false) as -> by reflexivity.
  by rewrite (proj2 (String.eqb_neq _ "")) by apply print_socket_nonempty.
Qed.
