(* ===== verification/Uac.v ===== *)
(** The user agent client (sip/uac.rs): the INVITE and MESSAGE it builds, the
    retry after a challenge, the dialog and the ACK of a 2xx, CANCEL, BYE and
    re-INVITE, as programs over the transaction layer ([TuProg]). The random
    numbers of the identifiers are arguments; the routes stored by the
    registration are [Routes]. *)
From S2P Require Import Prelude RustStr NetAddr SipMessage SipUtils Transaction Dialog Auth TuProg.

Definition DEFAULT_SESSION_EXPIRES : Z := 300.
Definition MIN_SE : Z := 90.
Definition CANCEL_PROVISIONAL_WAIT : Z := from_secs 32.

(** The two values shared with the registration client (sip/mod.rs). *)
Record Routes := mkRoutes { service_route : option string; outbound_proxy_route : option string }.
Definition store_service_route (r : Routes) (v : option string) : Routes :=
  mkRoutes v (outbound_proxy_route r).
Definition store_outbound_proxy_route (r : Routes) (v : option string) : Routes :=
  mkRoutes (service_route r) v.

Definition extract_user (uri : string) : option string :=
  let after_scheme := match split_once ":" uri with Some (_, x) => x | None => uri end in
  fst <$> split_once "@" after_scheme.

Record UacConfig := mkUacConfig {
  uc_local_uri : string; uc_domain : string; uc_local_addr : SocketAddr; uc_user_agent : string;
  auth_username : option string; auth_password : option string }.

Definition contact_uri (c : UacConfig) : string :=
  let user := default "anonymous" (extract_user (uc_local_uri c)) in
  "sip:" +:+ user +:+ "@" +:+ print_socket (uc_local_addr c).
Definition uc_sent_by (c : UacConfig) : string := print_socket (uc_local_addr c).

Definition strip_port_from_sip_uri (target_uri : string) : string :=
  match split_once "@" target_uri with
  | None => target_uri
  | Some (user, host_part) =>
      let '(host_with_optional_port, params) :=
        match split_once ";" host_part with
        | Some (h, p) => (h, ";" +:+ p)
        | None => (host_part, "")
        end in
      let host_no_port := default host_with_optional_port (head (split_on ":" host_with_optional_port)) in
      (user +:+ "@") +:+ host_no_port +:+ params
  end.

Record InvitePlan := mkPlan {
  pl_request : SipRequest; pl_cseq : Z; pl_target_uri : string; pl_session_expires : Z }.
Record MessagePlan := mkMessagePlan {
  mp_request : SipRequest; mp_cseq : Z; mp_target_uri : string; mp_call_id : string }.

(** The random numbers of a new request. *)
Record Ids := mkIds { id_call : Z; id_tag : Z; id_branch : Z }.

Record Uac := mkUac { uac_config : UacConfig; uac_server : SocketAddr }.

(** The fields common to both builders, from the Via to the Contact. *)
Definition common_headers (c : UacConfig) (target_uri method_name : string) (ids : Ids) : SipHeaders :=
  let h := hdr_set [] "Via" ("SIP/2.0/UDP " +:+ uc_sent_by c +:+ ";rport;branch=" +:+ new_branch (id_branch ids)) in
  let h := hdr_set h "Max-Forwards" "70" in
  let h := hdr_set h "From" (q "Anonymous" +:+ " <" +:+ uc_local_uri c +:+ ">;tag=" +:+ new_tag (id_tag ids)) in
  let h := hdr_set h "To" ("<" +:+ strip_port_from_sip_uri target_uri +:+ ">") in
  let h := hdr_set h "Call-ID" (new_call_id (id_call ids)) in
  let h := hdr_set h "CSeq" (print_uint 1 +:+ " " +:+ method_name) in
  hdr_set h "Contact" ("<" +:+ contact_uri c +:+ ">").

Definition set_route (h : SipHeaders) (routes : Routes) : SipHeaders :=
  match (match outbound_proxy_route routes with Some r => Some r | None => service_route routes end) with
  | Some route => hdr_set h "Route" route
  | None => h
  end.

Definition build_invite (u : Uac) (routes : Routes) (target_uri : string) (sdp_offer : option string)
    (session_expires_secs : option Z) (ids : Ids) : InvitePlan :=
  let c := uac_config u in
  let session_expires := default DEFAULT_SESSION_EXPIRES session_expires_secs in
  let h := common_headers c target_uri "INVITE" ids in
  let h := hdr_set h "Allow" "INVITE, ACK, BYE, CANCEL, OPTIONS" in
  let h := hdr_set h "Supported" "100rel, timer" in
  let h := hdr_set h "Session-Expires" (print_uint session_expires +:+ ";refresher=uac") in
  let h := hdr_set h "Min-SE" (print_uint MIN_SE) in
  let h := set_route h routes in
  let h := hdr_set h "User-Agent" (uc_user_agent c) in
  let req :=
    match sdp_offer with
    | Some body => mkRequest Invite target_uri (hdr_set h "Content-Type" "application/sdp") body
    | None => mkRequest Invite target_uri h ""
    end in
  mkPlan req 1 target_uri session_expires.

Definition build_message (u : Uac) (routes : Routes) (target_uri body : string) (ids : Ids) : MessagePlan :=
  let c := uac_config u in
  let h := common_headers c target_uri "MESSAGE" ids in
  let h := hdr_set h "Allow" "INVITE, ACK, BYE, CANCEL, OPTIONS, MESSAGE" in
  let h := set_route h routes in
  let h := hdr_set h "User-Agent" (uc_user_agent c) in
  let h := hdr_set h "Content-Type" "text/plain;charset=utf-8" in
  mkMessagePlan (mkRequest Message target_uri h body) 1 target_uri (new_call_id (id_call ids)).

Definition send_message (u : Uac) (plan : MessagePlan) : prog SipResponse :=
  send_request (mp_request plan) (uac_server u).

(** ** Established calls *)

Record UacDialog := mkUacDialog {
  inner : Dialog; invite_cseq : Z; ud_session_expires : Z; fallback_peer : SocketAddr }.
Record EstablishedCall := mkEstablished { ec_dialog : UacDialog; ec_response : SipResponse }.
Inductive InviteOutcome := Established (c : EstablishedCall) | Failed (response : SipResponse).

Definition is_2xx (code : Z) : bool := (200 <=? code) && (code <? 300).

Definition dialog_config (c : UacConfig) (plan : InvitePlan) : DialogConfig :=
  mkDialogConfig (uc_local_uri c) (pl_target_uri plan) (contact_uri c) (uc_sent_by c).

(** [r] is the random number of the branch of the ACK. *)
Definition finalize_2xx_to (u : Uac) (plan : InvitePlan) (dest_addr : SocketAddr)
    (response : SipResponse) (r : Z) : prog InviteOutcome :=
  dialog ← lift TuDialog (from_uac_response (pl_request plan) response (dialog_config (uac_config u) plan));
  let ack := build_ack_for_2xx dialog (pl_cseq plan) r in
  let next_hop := next_hop_socket dialog dest_addr in
  _ ← send_request_no_wait ack next_hop;
  mret (Established (mkEstablished
    (mkUacDialog dialog (pl_cseq plan) (pl_session_expires plan) dest_addr) response)).
Definition finalize_2xx (u : Uac) (plan : InvitePlan) (response : SipResponse) (r : Z) : prog InviteOutcome :=
  finalize_2xx_to u plan (uac_server u) response r.

Definition build_via_with_new_branch (sent_by : string) (original : SipRequest) (r : Z) : string :=
  let original_via := default "" (hdr_get (req_headers original) "via") in
  let rport := if contains_str ";rport" original_via then ";rport" else "" in
  "SIP/2.0/UDP " +:+ sent_by +:+ rport +:+ ";branch=" +:+ new_branch r.

Section uac.
Context (md5 : string -> list Z).

(** The INVITE that answers a challenge: [rnd] is drawn for the client nonce,
    [r] for the branch. *)
Definition retry_plan (u : Uac) (plan : InvitePlan) (response : SipResponse) (rnd r : Z) :
    option InvitePlan :=
  username ← auth_username (uac_config u);
  password ← auth_password (uac_config u);
  let '(challenge_header_name, auth_header_name) :=
    if status_code response =? 401 then ("www-authenticate", "Authorization")
    else ("proxy-authenticate", "Proxy-Authorization") in
  raw_challenge ← hdr_get (resp_headers response) challenge_header_name;
  challenge ← ok (challenge_parse raw_challenge);
  let request := pl_request plan in
  let digest := compute md5 (mkCred username password) challenge "INVITE" (req_uri request) 1 rnd in
  let h := hdr_set (req_headers request) "Via"
    (build_via_with_new_branch (uc_sent_by (uac_config u)) request r) in
  let new_cseq := saturating_add 32 (pl_cseq plan) 1 in
  let h := hdr_set h "CSeq" (print_uint new_cseq +:+ " INVITE") in
  let h := hdr_set h auth_header_name (header_value digest) in
  Some (mkPlan (mkRequest (req_method request) (req_uri request) h (req_body request))
    new_cseq (pl_target_uri plan) (pl_session_expires plan)).

Definition retry_invite_with_auth (u : Uac) (plan : InvitePlan) (response : SipResponse) (rnd r : Z) :
    prog (option (InvitePlan * SipResponse)) :=
  match retry_plan u plan response rnd r with
  | None => mret None
  | Some updated_plan =>
      resp2 ← send_request (pl_request updated_plan) (uac_server u);
      mret (Some (updated_plan, resp2))
  end.

(** The random numbers of an attempt: client nonce, new branch, ACK branch. *)
Record InviteRnd := mkInviteRnd { ir_cnonce : Z; ir_branch : Z; ir_ack : Z }.

Definition invite (u : Uac) (plan : InvitePlan) (rnd : InviteRnd) : prog InviteOutcome :=
  response ← send_request (pl_request plan) (uac_server u);
  let code := status_code response in
  if is_2xx code then finalize_2xx u plan response (ir_ack rnd)
  else if ((code =? 401) || (code =? 407)) && bool_decide (is_Some (auth_username (uac_config u)))
          && bool_decide (is_Some (auth_password (uac_config u))) then
    retried ← retry_invite_with_auth u plan response (ir_cnonce rnd) (ir_branch rnd);
    match retried with
    | Some (retry_plan, retry_resp) =>
        if is_2xx (status_code retry_resp) then finalize_2xx u retry_plan retry_resp (ir_ack rnd)
        else mret (Failed retry_resp)
    | None => mret (Failed response)
    end
  else mret (Failed response).

Definition invite_to (u : Uac) (plan : InvitePlan) (dest_addr : SocketAddr) (r : Z) : prog InviteOutcome :=
  response ← send_request (pl_request plan) dest_addr;
  if is_2xx (status_code response) then finalize_2xx_to u plan dest_addr response r
  else mret (Failed response).
End uac.

(** ** CANCEL *)

Inductive CancelOutcome := CancelSent (resp : SipResponse) | NotSent.

Definition copy_field (src : SipHeaders) (key name : string) (h : SipHeaders) : SipHeaders :=
  match hdr_get src key with Some v => hdr_set h name v | None => h end.

Definition build_cancel (invite : SipRequest) (invite_cseq : Z) : SipRequest :=
  let src := req_headers invite in
  let h := copy_field src "via" "Via" [] in
  let h := hdr_set h "Max-Forwards" "70" in
  let h := copy_field src "from" "From" h in
  let h := copy_field src "to" "To" h in
  let h := copy_field src "call-id" "Call-ID" h in
  let h := hdr_set h "CSeq" (print_uint invite_cseq +:+ " CANCEL") in
  let h := fold_left (fun h route => hdr_add h "Route" route) (hdr_get_all src "route") h in
  mkRequest Cancel (req_uri invite) (hdr_set h "User-Agent" "hikari-sip/0.1") "".

(** The watch of the progress: no entry, or the current value, the changes seen
    while waiting, and whether the wait ended by the end of the transaction or
    by the time limit. *)
Inductive watch_end := Dropped | TimedOut.
Record Watch := mkWatch {
  w_initial : InviteResponseProgress; w_changes : list InviteResponseProgress; w_end : watch_end }.

Fixpoint await_change (changes : list InviteResponseProgress) (e : watch_end) :
    tu_result (option InviteResponseProgress) :=
  match changes with
  | [] => match e with Dropped => Ok None | TimedOut => Err CancelTimeout end
  | Pending :: changes => await_change changes e
  | other :: _ => Ok (Some other)
  end.

Definition cancel_progress (w : Watch) : tu_result (option InviteResponseProgress) :=
  match w_initial w with
  | Pending => await_change (w_changes w) (w_end w)
  | other => Ok (Some other)
  end.

(** [watch] is the entry of the table for the transaction, if any. *)
Definition cancel_pending (u : Uac) (plan : InvitePlan)
    (watch : TransactionId -> option Watch) : prog CancelOutcome :=
  invite_id ← lift TuTid (from_request (pl_request plan));
  match watch invite_id with
  | None => mret NotSent
  | Some w =>
      progress ← Done (cancel_progress w);
      match progress with
      | None => mret NotSent
      | Some Provisional =>
          resp ← send_request (build_cancel (pl_request plan) (pl_cseq plan)) (uac_server u);
          mret (CancelSent resp)
      | Some Final => mret NotSent
      | Some Pending => Done (Err CancelTimeout)
      end
  end.

(** ** Requests of an established call

    The handle is changed even when the call fails: the result comes with it. *)

Definition ud_next_hop (ud : UacDialog) : SocketAddr := next_hop_socket (inner ud) (fallback_peer ud).
Definition set_inner (ud : UacDialog) (d : Dialog) : UacDialog :=
  mkUacDialog d (invite_cseq ud) (ud_session_expires ud) (fallback_peer ud).

Definition send_bye (ud : UacDialog) (r : Z) : prog (tu_result SipResponse * UacDialog) :=
  let '(bye, d) := build_bye (inner ud) r in
  Call bye (ud_next_hop ud) (fun o =>
    match o with
    | Some resp => mret (Ok resp, set_inner ud (terminate d))
    | None => mret (Err LayerFailed, set_inner ud d)
    end).

(** The first part of a Session-Expires value. *)
Definition session_expires_value (se : string) : option Z :=
  n ← head (split_on ";" se); parse_uint 32 (trim n).

(** [r] and [r_ack] are the random numbers of the two branches. *)
Definition send_reinvite (ud : UacDialog) (sdp_body : option string) (r r_ack : Z) :
    prog (tu_result SipResponse * UacDialog) :=
  let '(reinv, d) := build_reinvite (inner ud) sdp_body (ud_session_expires ud) MIN_SE r in
  let ud' := set_inner ud d in
  match parse_cseq_number (default "0 INVITE" (hdr_get (req_headers reinv) "cseq")) with
  | Ok cseq =>
      Call reinv (ud_next_hop ud) (fun o =>
        match o with
        | None => mret (Err LayerFailed, ud')
        | Some resp =>
            if is_2xx (status_code resp) then
              Post (build_ack_for_2xx d cseq r_ack) (ud_next_hop ud) (fun sent =>
                if sent then
                  let se := hdr_get (resp_headers resp) "session-expires" ≫= session_expires_value in
                  mret (Ok resp, mkUacDialog d (invite_cseq ud) (default (ud_session_expires ud) se)
                    (fallback_peer ud))
                else mret (Err LayerFailed, ud'))
            else mret (Ok resp, ud')
        end)
  | Err e => mret (Err (TuDialog e), ud')
  | Panic => Done Panic
  end.

(** ** The requests *)

Lemma parse_cseq_written n name : u32 n -> is_word name = true ->
  parse_cseq_number (print_uint n +:+ " " +:+ name) = Ok n.
Proof.
  intros Hn Hw. unfold parse_cseq_number. change (" " +:+ name) with (String " " name).
  rewrite split_whitespace_cons by apply print_uint_word. cbn [head ok_or mbind outcome_bind].
  by rewrite parse_print_uint by (done || lia).
Qed.

(** The fields a retry changes. *)
Definition retried_field (name : string) : bool :=
  existsb (same_header name) ["Via"; "CSeq"; "Authorization"; "Proxy-Authorization"].

(** What identifies a call: the same in the retry. *)
Record same_call (a b : SipRequest) : Prop := {
  sc_method : req_method a = req_method b;
  sc_uri : req_uri a = req_uri b;
  sc_body : req_body a = req_body b;
  sc_fields : forall name, retried_field name = false ->
    hdr_get_all (req_headers a) name = hdr_get_all (req_headers b) name
}.

(** An INVITE and its number. *)
Record plan_ok (p : InvitePlan) : Prop := {
  pk_method : req_method (pl_request p) = Invite;
  pk_number : u32 (pl_cseq p);
  pk_cseq : hdr_get (req_headers (pl_request p)) "cseq" = Some (print_uint (pl_cseq p) +:+ " INVITE")
}.

Lemma same_header_sym a b : same_header a b = same_header b a.
Proof. unfold same_header. by rewrite String.eqb_sym. Qed.

Lemma hdr_get_set_route h routes name : same_header "Route" name = false ->
  hdr_get (set_route h routes) name = hdr_get h name.
Proof.
  intros Hn. unfold set_route. repeat case_match; rewrite ?hdr_get_set, ?Hn; done.
Qed.

(** The identifying headers of an INVITE. *)
Lemma build_invite_headers u routes target sdp se ids :
  let p := build_invite u routes target sdp se ids in
  let h := req_headers (pl_request p) in
  plan_ok p /\ pl_target_uri p = target /\ req_uri (pl_request p) = target /\
  pl_cseq p = 1 /\
  hdr_get h "call-id" = Some (new_call_id (id_call ids)) /\
  hdr_get h "from" = Some (q "Anonymous" +:+ " <" +:+ uc_local_uri (uac_config u) +:+ ">;tag=" +:+ new_tag (id_tag ids)) /\
  hdr_get h "to" = Some ("<" +:+ strip_port_from_sip_uri target +:+ ">") /\
  hdr_get h "contact" = Some ("<" +:+ contact_uri (uac_config u) +:+ ">") /\
  hdr_get h "via" = Some ("SIP/2.0/UDP " +:+ uc_sent_by (uac_config u) +:+ ";rport;branch=" +:+ new_branch (id_branch ids)) /\
  hdr_get h "authorization" = None /\ hdr_get h "proxy-authorization" = None.
Proof.
  cbv zeta. unfold build_invite.
  (* The body adds a Content-Type at most. *)
  assert (forall name h, same_header "Content-Type" name = false ->
    hdr_get (match sdp with
      | Some body => mkRequest Invite target (hdr_set h "Content-Type" "application/sdp") body
      | None => mkRequest Invite target h "" end).(req_headers) name = hdr_get h name) as Hb.
  { intros name h Hn. destruct sdp; cbn [req_headers]; [by rewrite hdr_get_set, Hn | done]. }
  cbn [pl_request pl_cseq pl_target_uri].
  split_and!; [split| | | | | | | | | |]; cbn [pl_request pl_cseq]; try (by destruct sdp);
    rewrite Hb by done; rewrite hdr_get_set; eval_headers; rewrite hdr_get_set_route by done;
    unfold common_headers; rewrite !hdr_get_set; eval_headers; done.
Qed.

(** ** The retry *)

Lemma retry_plan_spec md5 u plan resp rnd r p : plan_ok plan -> pl_cseq plan < 2 ^ 32 - 1 ->
  retry_plan md5 u plan resp rnd r = Some p ->
  plan_ok p /\ pl_cseq p = pl_cseq plan + 1 /\ pl_target_uri p = pl_target_uri plan /\
  same_call (pl_request p) (pl_request plan) /\
  hdr_get (req_headers (pl_request p)) "via" =
    Some (build_via_with_new_branch (uc_sent_by (uac_config u)) (pl_request plan) r).
Proof.
  intros [Hm Hu Hc] Hlt H. unfold retry_plan in H.
  destruct (auth_username (uac_config u)) as [user|]; [cbn [mbind option_bind] in H | done].
  destruct (auth_password (uac_config u)) as [pw|]; [cbn [mbind option_bind] in H | done].
  set (cf := if status_code resp =? 401 then _ else _) in H.
  assert (In cf.2 ["Authorization"; "Proxy-Authorization"]) as Hcf.
  { unfold cf. destruct (status_code resp =? 401); [by left | right; by left]. }
  destruct cf as [ch af]. cbn [snd] in Hcf.
  destruct (hdr_get (resp_headers resp) ch) as [raw|]; [cbn [mbind option_bind] in H | done].
  destruct (ok (challenge_parse raw)) as [chal|]; [cbn [mbind option_bind] in H | done].
  injection H as <-.
  assert (saturating_add 32 (pl_cseq plan) 1 = pl_cseq plan + 1) as Hs.
  { unfold saturating_add. lia. }
  cbn [pl_request pl_cseq pl_target_uri]. rewrite Hs.
  split_and!; [split| | |split|]; cbn [pl_request pl_cseq req_method req_headers req_uri req_body]; try done.
  - unfold uN in *. lia.
  - rewrite !hdr_get_set. by destruct Hcf as [<- | [<- | []]]; eval_headers.
  - intros name Hn. unfold retried_field in Hn. cbn [existsb] in Hn.
    rewrite !orb_false_iff in Hn. destruct Hn as (H1 & H2 & H3 & H4 & _).
    rewrite same_header_sym in H1, H2, H3, H4. rewrite !hdr_get_all_set, H1, H2.
    by destruct Hcf as [<- | [<- | []]]; rewrite ?H3, ?H4.
  - rewrite !hdr_get_set. by destruct Hcf as [<- | [<- | []]]; eval_headers.
Qed.

(** ** Runs of an INVITE *)

(** The call that a run established: the INVITE that was accepted, the dialog
    and the ACK. *)
Record established_by (u : Uac) (p : InvitePlan) (fallback : SocketAddr) (c : EstablishedCall)
    (ack : SipRequest) : Prop := {
  eb_2xx : is_2xx (status_code (ec_response c)) = true;
  eb_dialog : from_uac_response (pl_request p) (ec_response c) (dialog_config (uac_config u) p) =
    Ok (inner (ec_dialog c));
  eb_cseq : invite_cseq (ec_dialog c) = pl_cseq p;
  eb_expires : ud_session_expires (ec_dialog c) = pl_session_expires p;
  eb_ack : request_of (inner (ec_dialog c)) (pl_cseq p) ack /\ req_method ack = Ack;
  eb_next : local_cseq (inner (ec_dialog c)) = pl_cseq p + 1 }.

(** The INVITEs of a run: the first one, and after a challenge a second one with
    the next number and a new branch that is otherwise the same call. *)
Inductive attempts (u : Uac) (plan : InvitePlan) (r : Z) : list InvitePlan -> Prop :=
  | at_one : attempts u plan r [plan]
  | at_two p :
      plan_ok p -> pl_cseq p = pl_cseq plan + 1 -> same_call (pl_request p) (pl_request plan) ->
      hdr_get (req_headers (pl_request p)) "via" =
        Some (build_via_with_new_branch (uc_sent_by (uac_config u)) (pl_request plan) r) ->
      attempts u plan r [plan; p].

(** The result of a run of [invite], from the INVITEs [plans] it sent and what
    it posted after them. *)
Definition invite_result (u : Uac) (plans : list InvitePlan) (posted : list sent)
    (res : tu_result InviteOutcome) : Prop :=
  match res with
  | Ok (Established c) => exists p ack hop, last plans = Some p /\ posted = [Posted ack hop] /\
      hop = next_hop_socket (inner (ec_dialog c)) (uac_server u) /\
      established_by u p (uac_server u) c ack
  | Ok (Failed response) => posted = [] /\ is_2xx (status_code response) = false
  | _ => Forall (fun x => req_method (sent_request x) = Ack) posted
  end.

Section runs.
Context {S : Type} `{Network S}.

Lemma from_uac_local_cseq p resp cfg d n : plan_ok p ->
  from_uac_response (pl_request p) resp cfg = Ok d -> n = pl_cseq p -> local_cseq d = n + 1.
Proof.
  intros [Hm Hu Hc] Hd ->. unfold from_uac_response in Hd. rewrite Hc in Hd. inv_outcome. subst d.
  cbn [local_cseq]. simplify_eq.
  pose proof (parse_cseq_written (pl_cseq p) "INVITE" Hu eq_refl) as Hpc.
  change (" " +:+ "INVITE") with " INVITE" in Hpc. simplify_eq.
  match goal with Hk : parse_cseq_number _ = Ok ?x, Hc : checked _ (?x + 1) = _ |- _ =>
    rewrite Hpc in Hk; injection Hk as <- end.
  match goal with Hk : checked _ _ = Ok _ |- _ => by apply checked_inv in Hk as [-> _] end.
Qed.

(** The 2xx of the INVITE [p]: an established call and its ACK, or an error. *)
Lemma run_finalize u p plans resp r s : plan_ok p -> is_2xx (status_code resp) = true ->
  last plans = Some p ->
  exists res posted s', run (finalize_2xx u p resp r) s = (res, posted, s') /\
    invite_result u plans posted res.
Proof.
  intros Hp H2 Hl. unfold finalize_2xx, finalize_2xx_to. rewrite run_bind.
  destruct (from_uac_response (pl_request p) resp (dialog_config (uac_config u) p)) as [d | e |] eqn:Hd.
  - cbn [run lift map_err]. rewrite run_bind, run_post.
    assert (forall n, req_method (build_ack_for_2xx d n r) = Ack) as Ha.
    { intros n. unfold build_ack_for_2xx. by destruct (compute_request_uri_and_route d). }
    destruct (net_post s _ _) as [o s1]. destruct o; cbn [ensure].
    + eexists _, _, s1. split; [cbn; reflexivity|]. cbn [invite_result].
      eexists p, _, _. split_and!; [done | reflexivity | done |].
      split; try done; cbn [ec_dialog inner ec_response].
      * split; [apply build_ack_request | apply Ha].
      * by eapply from_uac_local_cseq.
    + eexists _, _, _. split; [reflexivity|]. constructor; [apply Ha | done].
  - eexists _, _, _. split; [reflexivity | constructor].
  - eexists _, _, _. split; [reflexivity | constructor].
Qed.

Lemma run_invite md5 u plan rnd s : plan_ok plan -> pl_cseq plan < 2 ^ 32 - 1 ->
  exists plans posted res s', attempts u plan (ir_branch rnd) plans /\
    run (invite md5 u plan rnd) s =
      (res, map (fun p => Awaited (pl_request p) (uac_server u)) plans ++ posted, s') /\
    invite_result u plans posted res.
Proof.
  intros Hp Hlt. unfold invite. rewrite run_bind, run_send.
  destruct (net_call s (pl_request plan) (uac_server u)) as [[resp|] s1]; cbn [ok_or].
  2: { exists [plan], []. eexists _, _. split; [constructor|].
    split; [reflexivity | first [done | by split | constructor]]. }
  destruct (is_2xx (status_code resp)) eqn:H2.
  { destruct (run_finalize u plan [plan] resp (ir_ack rnd) s1) as (res & posted & s2 & -> & Hr); [done..|].
    exists [plan], posted, res, s2. split; [constructor|].
    split; [reflexivity | first [done | by split | constructor]]. }
  destruct (_ && _ && _) eqn:Hc.
  2: { exists [plan], []. eexists _, _. split; [constructor|].
    split; [reflexivity | first [done | by split | constructor]]. }
  rewrite run_bind. unfold retry_invite_with_auth.
  destruct (retry_plan md5 u plan resp (ir_cnonce rnd) (ir_branch rnd)) as [p|] eqn:Hr.
  2: { exists [plan], []. eexists _, _. split; [constructor|].
    split; [reflexivity | first [done | by split | constructor]]. }
  apply retry_plan_spec in Hr as (Hok & Hn & _ & Hsame & Hvia); [|done|done].
  assert (attempts u plan (ir_branch rnd) [plan; p]) as Hat by by constructor.
  rewrite run_bind, run_send.
  destruct (net_call s1 (pl_request p) (uac_server u)) as [[resp2|] s2]; cbn [ok_or].
  2: { exists [plan; p], []. eexists _, _. split; [done|].
    split; [reflexivity | constructor]. }
  cbn [run mret prog_ret]. destruct (is_2xx (status_code resp2)) eqn:H22.
  - destruct (run_finalize u p [plan; p] resp2 (ir_ack rnd) s2) as (res & posted & s3 & -> & Hr); [done..|].
    exists [plan; p], posted, res, s3. split; [done|]. by split.
  - exists [plan; p], []. eexists _, _. split; [done|]. by split.
Qed.
End runs.

(** ** Properties *)

(** Calling over any network. An INVITE built by the client and run against
    any behaviour of the network sends at most two INVITEs: the first numbered
    1 and, only after a challenge, a second one numbered 2 with a new branch and
    otherwise of the same call. A call is established by a 2xx to the last of
    them only; then one ACK is sent, with the number of that INVITE and the
    identity of the dialog, to the dialog's next hop, and the next request of
    the dialog has a greater number. *)
Theorem invite_over_any_network {S} `{Network S} md5 u routes target sdp se ids rnd (s : S) :
  let plan := build_invite u routes target sdp se ids in
  exists plans posted res s', attempts u plan (ir_branch rnd) plans /\
    run (invite md5 u plan rnd) s =
      (res, map (fun p => Awaited (pl_request p) (uac_server u)) plans ++ posted, s') /\
    invite_result u plans posted res.
Proof.
  intros plan. destruct (build_invite_headers u routes target sdp se ids) as (Hp & _ & _ & Hc & _).
  apply run_invite; [exact Hp|]. unfold plan. rewrite Hc. lia.
Qed.

(** ** CANCEL *)

Lemma copy_field_get src key name h k : same_header name k = true -> hdr_get h k = None ->
  same_header key k = true ->
  hdr_get (copy_field src key name h) k = hdr_get src k.
Proof.
  intros Hn Hh Hk. unfold copy_field.
  assert (hdr_get src key = hdr_get src k) as ->.
  { unfold hdr_get. unfold same_header in Hk. apply String.eqb_eq in Hk. by rewrite Hk. }
  destruct (hdr_get src k) as [v|] eqn:Hv; [by rewrite hdr_get_set, Hn | by rewrite Hh].
Qed.

Lemma copy_field_other src key name h k : same_header name k = false ->
  hdr_get (copy_field src key name h) k = hdr_get h k.
Proof. intros Hn. unfold copy_field. case_match; [by rewrite hdr_get_set, Hn | done]. Qed.

Lemma fold_add_route l h k : same_header "Route" k = false ->
  hdr_get (fold_left (fun h route => hdr_add h "Route" route) l h) k = hdr_get h k.
Proof.
  intros Hk. revert h. induction l as [|x l IH]; intros h; cbn [fold_left]; [done|].
  by rewrite IH, hdr_get_add_other.
Qed.

Lemma fold_add_route_all l h :
  hdr_get_all (fold_left (fun h route => hdr_add h "Route" route) l h) "route" =
  hdr_get_all h "route" ++ l.
Proof.
  revert h. induction l as [|x l IH]; intros h; cbn [fold_left]; [by rewrite app_nil_r|].
  rewrite IH, hdr_get_all_add. eval_headers. by rewrite <- app_assoc.
Qed.

Lemma copy_field_all_other src key name h k : same_header name k = false ->
  hdr_get_all (copy_field src key name h) k = hdr_get_all h k.
Proof. intros Hn. unfold copy_field. case_match; [by rewrite hdr_get_all_set, Hn | done]. Qed.

(** What RFC 3261 9.1 asks of a CANCEL. *)
Record cancels (invite cancel : SipRequest) (cseq : Z) : Prop := {
  ca_method : req_method cancel = Cancel;
  ca_uri : req_uri cancel = req_uri invite;
  ca_tid : forall id, from_request invite = Ok id ->
    from_request cancel = Ok (mkTid (branch id) (sent_by id) Cancel);
  ca_fields : forall name, In name ["from"; "to"; "call-id"] ->
    hdr_get (req_headers cancel) name = hdr_get (req_headers invite) name;
  ca_cseq : hdr_get (req_headers cancel) "cseq" = Some (print_uint cseq +:+ " CANCEL");
  ca_route : hdr_get_all (req_headers cancel) "route" = hdr_get_all (req_headers invite) "route" }.

Lemma build_cancel_cancels invite cseq : cancels invite (build_cancel invite cseq) cseq.
Proof.
  unfold build_cancel. split; try done; cbn [req_headers req_method].
  - intros id H. unfold from_request in *. cbn [req_headers req_method].
    rewrite hdr_get_set. eval_headers. rewrite fold_add_route by done. rewrite hdr_get_set. eval_headers.
    rewrite !copy_field_other by done. rewrite hdr_get_set. eval_headers.
    rewrite copy_field_get by done. inv_outcome. rewrite Heq. cbn [ok_or mbind outcome_bind].
    destruct a0 as [b sb]. rewrite Heq0. cbn [mbind outcome_bind]. by inv_outcome; subst id.
  - intros name Hn. rewrite hdr_get_set.
    assert (same_header "User-Agent" name = false /\ same_header "Route" name = false /\
      same_header "CSeq" name = false) as (H1 & H2 & H3).
    { by destruct Hn as [<- | [<- | [<- | []]]]. }
    rewrite H1, fold_add_route, hdr_get_set, H3 by done.
    destruct Hn as [<- | [<- | [<- | []]]].
    + rewrite (copy_field_other _ "call-id"), (copy_field_other _ "to") by done.
      apply copy_field_get; [done| |done]. rewrite hdr_get_set. eval_headers. by rewrite copy_field_other.
    + rewrite (copy_field_other _ "call-id") by done. apply copy_field_get; [done| |done].
      rewrite copy_field_other, hdr_get_set by done. eval_headers. by rewrite copy_field_other.
    + apply copy_field_get; [done| |done].
      rewrite !copy_field_other, hdr_get_set by done. eval_headers. by rewrite copy_field_other.
  - rewrite hdr_get_set. eval_headers. rewrite fold_add_route, hdr_get_set by done. by eval_headers.
  - rewrite hdr_get_all_set. eval_headers. rewrite fold_add_route_all, hdr_get_all_set. eval_headers.
    rewrite !copy_field_all_other, hdr_get_all_set by done. eval_headers. by rewrite copy_field_all_other.
Qed.

(** The first progress of the watch that is not [Pending], if it came in time. *)
Definition observed (w : Watch) : option InviteResponseProgress :=
  find_first (fun p => negb (bool_decide (p = Pending))) (w_initial w :: w_changes w).

Lemma cancel_progress_observed w : cancel_progress w =
  match observed w with
  | Some p => Ok (Some p)
  | None => match w_end w with Dropped => Ok None | TimedOut => Err CancelTimeout end
  end.
Proof.
  unfold cancel_progress, observed. destruct (w_initial w); cbn; try done.
  induction (w_changes w) as [|p l IH]; cbn; [done|]. by destruct p.
Qed.

(** Cancelling over any network. A CANCEL is sent at most once, and exactly
    when the transaction of the INVITE is still in the table and the first
    progress seen of it is a provisional response: never while it is pending, and
    never after a final response. The CANCEL is the one RFC 3261 9.1 asks for:
    the transaction, Request-URI, identity, number and route of the INVITE. *)
Theorem cancel_gated {S} `{Network S} u plan watch (s : S) id : from_request (pl_request plan) = Ok id ->
  let '(res, trace, _) := run (cancel_pending u plan watch) s in
  match watch id with
  | Some w =>
      match observed w with
      | Some Provisional => exists cancel, trace = [Awaited cancel (uac_server u)] /\
          cancels (pl_request plan) cancel (pl_cseq plan)
      | Some _ => trace = [] /\ res = Ok NotSent
      | None => trace = [] /\ res = match w_end w with Dropped => Ok NotSent | TimedOut => Err CancelTimeout end
      end
  | None => trace = [] /\ res = Ok NotSent
  end.
Proof.
  intros Hid. destruct (run (cancel_pending u plan watch) s) as [[res trace] s'] eqn:Hr. revert Hr.
  unfold cancel_pending, lift. rewrite Hid, run_bind. cbn [map_err run].
  destruct (watch id) as [w|]; [|by intros [= <- <- <-]].
  rewrite run_bind. cbn [run]. rewrite cancel_progress_observed.
  destruct (observed w) as [[]|] eqn:Ho.
  - exfalso. unfold observed in Ho. by apply find_first_Some in Ho as [_ Ho].
  - rewrite run_bind, run_send. destruct (net_call s _ _) as [[resp|] s1]; cbn; intros [= <- <- <-];
      (eexists; split; [done | apply build_cancel_cancels]).
  - by intros [= <- <- <-].
  - destruct (w_end w); by intros [= <- <- <-].
Qed.

Definition sample_uac : Uac :=
  mkUac (mkUacConfig "sip:0312345678@ntt" "ntt" (mkAddr (V4 192 0 2 9) 5060) "hikari-sip/0.1" (Some "u") (Some "pw"))
    (mkAddr (V4 192 0 2 1) 5060).
Definition sample_plan : InvitePlan :=
  build_invite sample_uac (mkRoutes None None) "sip:117@ntt" None None (mkIds 1 2 3).
Definition sample_watch (id : TransactionId) : option Watch :=
  Some (mkWatch Pending [Pending; Provisional] Dropped).

Lemma cancel_gated_witness :
  let '(res, trace, _) := run (cancel_pending sample_uac sample_plan sample_watch) [mkResponse 200 "OK" [] ""] in
  exists cancel, trace = [Awaited cancel (uac_server sample_uac)] /\ cancels (pl_request sample_plan) cancel 1.
Proof.
  pose proof (cancel_gated sample_uac sample_plan sample_watch [mkResponse 200 "OK" [] ""]
    (mkTid (new_branch 3) "192.0.2.9:5060" Invite)) as H.
  specialize (H ltac:(by vm_compute)). destruct (run _ _) as [[res trace] s]. exact H.
Defined.
