(* ===== verification/Observability.v ===== *)
(** Observability (src/src/observability/): the counters of the process, the
    dump of SIP messages with its masking of credentials and its rotation, and
    the log of calls.

    The counters are atomic words: an operation that reads and then writes one
    is two steps, and [gauge_execs] runs the steps of several tasks in any order.
    The files of the dump are their names and sizes; what is written and removed
    is returned. *)
From S2P Require Import Prelude RustStr Utf8 SipMessage CarrierRetry.

(** ** Counters *)

Inductive InviteResult := Answered | Busy | Timeout | Error.
Inductive OutboundDirection := Extension | PwaOutbound.

(** [OutboundDirection::as_str]. *)
Definition outbound_str (d : OutboundDirection) : string :=
  match d with Extension => "extension" | PwaOutbound => "pwa_outbound" end.

(** The fields of [Metrics]. *)
Inductive counter :=
  | register_success | register_fail
  | invite_ngn (r : InviteResult)
  | invite_extension (r : InviteResult)
  | invite_pwa_outbound (r : InviteResult)
  | call_active
  | rtp_bridge_ngn_to_ext | rtp_bridge_ext_to_ngn
  | extension_registered
  | invite_blocked_by_rate_limit (d : OutboundDirection)
  | invite_interval_total_ms | invite_interval_samples
  | rtp_ssrc_collision_detected | rtcp_sr_sent
  | ngn_5xx_500 | ngn_5xx_503 | ngn_5xx_other
  | ngn_carrier_retry (o : RetryOutcome).

#[export] Instance InviteResult_eq_dec : EqDecision InviteResult.
Proof. solve_decision. Defined.
#[export] Instance OutboundDirection_eq_dec : EqDecision OutboundDirection.
Proof. solve_decision. Defined.
#[export] Instance RetryOutcome_eq_dec : EqDecision RetryOutcome.
Proof. solve_decision. Defined.
#[export] Instance counter_eq_dec : EqDecision counter.
Proof. solve_decision. Defined.

Definition Metrics : Type := counter -> Z.
Definition metrics_new : Metrics := fun _ => 0.

Definition store (m : Metrics) (c : counter) (v : Z) : Metrics :=
  fun c' => if decide (c' = c) then v else m c'.
Definition fetch_add (m : Metrics) (c : counter) (n : Z) : Metrics := store m c (wrapping_add 64 (m c) n).

Definition record_register (m : Metrics) (success : bool) : Metrics :=
  fetch_add m (if success then register_success else register_fail) 1.
Definition inc_call_active (m : Metrics) : Metrics := fetch_add m call_active 1.
(** With no other task between the load and the subtraction. *)
Definition dec_call_active (m : Metrics) : Metrics :=
  if 0 <? m call_active then store m call_active (wrapping_sub 64 (m call_active) 1) else m.
Definition set_extension_registered (m : Metrics) (n : Z) : Metrics := store m extension_registered n.
Definition add_rtp_ngn_to_ext (m : Metrics) (n : Z) : Metrics := fetch_add m rtp_bridge_ngn_to_ext n.
Definition add_rtp_ext_to_ngn (m : Metrics) (n : Z) : Metrics := fetch_add m rtp_bridge_ext_to_ngn n.
Definition record_invite_ngn (m : Metrics) (r : InviteResult) : Metrics := fetch_add m (invite_ngn r) 1.
Definition record_invite_extension (m : Metrics) (r : InviteResult) : Metrics :=
  fetch_add m (invite_extension r) 1.
Definition record_invite_pwa_outbound (m : Metrics) (r : InviteResult) : Metrics :=
  fetch_add m (invite_pwa_outbound r) 1.
Definition record_invite_blocked_by_rate_limit (m : Metrics) (d : OutboundDirection) : Metrics :=
  fetch_add m (invite_blocked_by_rate_limit d) 1.
Definition record_invite_interval_ms (m : Metrics) (interval_ms : Z) : Metrics :=
  fetch_add (fetch_add m invite_interval_total_ms interval_ms) invite_interval_samples 1.
Definition add_ssrc_collision_detected (m : Metrics) (n : Z) : Metrics :=
  fetch_add m rtp_ssrc_collision_detected n.
Definition add_rtcp_sr_sent (m : Metrics) (n : Z) : Metrics := fetch_add m rtcp_sr_sent n.
Definition record_ngn_carrier_retry (m : Metrics) (o : RetryOutcome) : Metrics :=
  fetch_add m (ngn_carrier_retry o) 1.

Definition record_ngn_5xx (m : Metrics) (status_code : Z) : Metrics :=
  if status_code =? 500 then fetch_add m ngn_5xx_500 1
  else if status_code =? 503 then fetch_add m ngn_5xx_503 1
  else if (status_code =? 501) || (status_code =? 502) || ((504 <=? status_code) && (status_code <=? 599))
  then fetch_add m ngn_5xx_other 1
  else m.

(** ** The gauge of active calls between tasks *)

(** The atomic steps: an increment, the load of a decrement by the task [t],
    and its conditional subtraction. *)
Inductive gauge_step := Inc | Load (t : nat) | Sub (t : nat).

(** The gauge, and the tasks between their load and their subtraction with the
    value loaded. *)
Record gauge_state := mkGauge { value : Z; loaded : list (nat * Z) }.
Definition gauge_start : gauge_state := mkGauge 0 [].

Fixpoint take_loaded (t : nat) (l : list (nat * Z)) : option (Z * list (nat * Z)) :=
  match l with
  | [] => None
  | (t', v) :: l =>
      if (t' =? t)%nat then Some (v, l) else '(x, l') ← take_loaded t l; Some (x, (t', v) :: l')
  end.

Definition gauge_exec (s : gauge_state) (x : gauge_step) : gauge_state :=
  match x with
  | Inc => mkGauge (wrapping_add 64 (value s) 1) (loaded s)
  | Load t => mkGauge (value s) ((t, value s) :: loaded s)
  | Sub t =>
      match take_loaded t (loaded s) with
      | Some (v, l) => mkGauge (if 0 <? v then wrapping_sub 64 (value s) 1 else value s) l
      | None => s
      end
  end.
Definition gauge_execs (s : gauge_state) (l : list gauge_step) : gauge_state := fold_left gauge_exec l s.

(** ** Masking of credentials *)

(** The first line and the rest: [find_crlf]. *)
Definition find_crlf (s : string) : option (string * string) := split_once_str crlf s.

(** [trim_ascii]: spaces and tabs only. *)
Definition is_blank (c : ascii) : bool := Ascii.eqb c " " || Ascii.eqb c "009".
Definition trim_ascii (s : string) : string :=
  str_rev (drop_while is_blank (str_rev (drop_while is_blank s))).

Definition header_name_eq_ignore_case (actual expected_lower : string) : bool :=
  String.eqb (to_ascii_lowercase (trim_ascii actual)) expected_lower.

Definition secret_header (name : string) : bool :=
  header_name_eq_ignore_case name "authorization" || header_name_eq_ignore_case name "proxy-authorization".

Definition sanitize_line (line : string) : string :=
  match split_once ":" line with
  | Some (name, _) => if secret_header name then name +:+ ": <redacted>" else line
  | None => line
  end.

(** The loop over the lines; every turn consumes a line and its end. *)
Fixpoint sanitize_fuel (n : nat) (raw : string) : string :=
  match n with
  | O => ""
  | S n =>
      match find_crlf raw with
      | Some (line, rest) =>
          if String.eqb line "" then crlf +:+ rest
          else sanitize_line line +:+ crlf +:+ sanitize_fuel n rest
      | None => if String.eqb raw "" then "" else sanitize_line raw
      end
  end.
Definition sanitize_message (raw : string) : string := sanitize_fuel (S (String.length raw)) raw.

(** ** The names of the files *)

Inductive TraceDir := Sent | Recv.
Definition dir_str (d : TraceDir) : string := match d with Sent => "sent" | Recv => "recv" end.

Definition is_ascii_alphanumeric (c : ascii) : bool :=
  is_ascii_digit c || ((65 <=? code c) && (code c <=? 90)) || ((97 <=? code c) && (code c <=? 122)).
Definition file_char (c : ascii) : bool :=
  is_ascii_alphanumeric c || Ascii.eqb c "-" || Ascii.eqb c ".".

(** A character of a [str] is the byte that starts it and its continuation
    bytes (128 to 191), which add nothing. *)
Fixpoint escape_chars (s : string) : string :=
  match s with
  | "" => ""
  | String c s =>
      if (128 <=? code c) && (code c <? 192) then escape_chars s
      else String (if file_char c then c else "_") (escape_chars s)
  end.
Definition sanitize_filename_component (s : string) : string :=
  let out := escape_chars s in if String.eqb out "" then "_" else out.

Definition trace_file_name (unix_ms : Z) (dir : TraceDir) (method : string) (call_id : option string) : string :=
  print_uint unix_ms +:+ "_" +:+ dir_str dir +:+ "_" +:+ sanitize_filename_component method +:+ "_" +:+
  sanitize_filename_component (default "nocallid" call_id) +:+ ".txt".

(** The method and the Call-ID of a message: the loop over its lines after the
    first, [method] and [call_id] being the values so far. *)
Definition note_line (line : string) (acc : string * option string) : string * option string :=
  let '(method, call_id) := acc in
  let lower_prefix := to_ascii_lowercase line in
  let call_id_rest :=
    match strip_prefix "call-id:" lower_prefix with
    | Some rest => Some rest
    | None => strip_prefix "i:" lower_prefix
    end in
  match call_id_rest with
  | Some rest =>
      (method, Some (match split_once ":" line with Some (_, v) => trim v | None => trim rest end))
  | None =>
      match strip_prefix "cseq:" lower_prefix with
      | Some rest =>
          if starts_with "RESP-" method then
            let raw_value := match split_once ":" line with Some (_, v) => v | None => rest end in
            (match nth_error (split_whitespace raw_value) 1 with
             | Some m => method +:+ "-" +:+ m
             | None => method
             end, call_id)
          else acc
      | None => acc
      end
  end.

Fixpoint note_lines (lines : list string) (acc : string * option string) : string * option string :=
  match lines with
  | [] => acc
  | line :: lines => if String.eqb line "" then acc else note_lines lines (note_line line acc)
  end.

Definition extract_method_and_call_id (raw : string) : string * option string :=
  if negb (is_utf8 raw) then ("UNKNOWN", None)
  else
    match split_str crlf raw with
    | [] => ("UNKNOWN", None)
    | line :: lines =>
        if String.eqb line "" then ("UNKNOWN", None)
        else
          let method :=
            match strip_prefix "SIP/2.0 " line with
            | Some rest => "RESP-" +:+ default "0" (head (split_whitespace rest))
            | None => default "UNKNOWN" (head (split_whitespace line))
            end in
          note_lines lines (method, None)
    end.

(** ** Rotation *)

Definition MAX_FILES : Z := 1000.
Definition MAX_TOTAL_BYTES : Z := 100 * 1024 * 1024.

Record TraceFile := mkFile { path : string; size : Z }.
Record TraceState := mkTrace { files : list TraceFile; total_bytes : Z }.

(** [rotate] on the fields: the files removed, and the state left. *)
Fixpoint rotate (files : list TraceFile) (total : Z) : list TraceFile * TraceState :=
  match files with
  | [] => ([], mkTrace [] total)
  | oldest :: rest =>
      if (MAX_FILES <? Z.of_nat (length files)) || (MAX_TOTAL_BYTES <? total) then
        let '(removed, st) := rotate rest (saturating_sub total (size oldest)) in (oldest :: removed, st)
      else ([], mkTrace files total)
  end.

(** [SipTraceWriter::open] on the directory's files, oldest first. *)
Definition trace_open (entries : list TraceFile) : TraceState :=
  mkTrace entries (fold_left (fun t f => t + size f) entries 0).

(** [SipTraceWriter::record]: the file written with its content and the files
    removed; [written] is whether the file could be written. *)
Definition trace_record (st : TraceState) (unix_ms : Z) (dir : TraceDir) (method : string)
    (call_id : option string) (raw : string) (written : bool) : (string * string) * list TraceFile * TraceState :=
  let name := trace_file_name unix_ms dir method call_id in
  let payload := sanitize_message raw in
  if written then
    let len := Z.of_nat (String.length payload) in
    let '(removed, st) := rotate (files st ++ [mkFile name len]) (total_bytes st + len) in
    (name, payload, removed, st)
  else (name, payload, [], st).

(** ** Counters *)

Lemma store_same m c v : store m c v c = v.
Proof. unfold store. by rewrite decide_True. Qed.
Lemma store_other m c c' v : c <> c' -> store m c v c' = m c'.
Proof. intros H. unfold store. by rewrite decide_False by congruence. Qed.

(** The counter of a 5xx response. *)
Definition counter_5xx (status_code : Z) : option counter :=
  if (500 <=? status_code) && (status_code <=? 599) then
    Some (if status_code =? 500 then ngn_5xx_500 else if status_code =? 503 then ngn_5xx_503 else ngn_5xx_other)
  else None.

Lemma record_5xx_spec m code :
  record_ngn_5xx m code = match counter_5xx code with Some c => fetch_add m c 1 | None => m end.
Proof.
  unfold record_ngn_5xx, counter_5xx.
  destruct (Z.eqb_spec code 500) as [-> | H500]; [done|]. destruct (Z.eqb_spec code 503) as [-> | H503]; [done|].
  case_bool; case_bool; done || lia.
Qed.

(** ** The gauge between tasks *)

Definition is_inc (x : gauge_step) : bool := match x with Inc => true | _ => false end.
Definition is_load (x : gauge_step) : bool := match x with Load _ => true | _ => false end.
Definition count (p : gauge_step -> bool) (l : list gauge_step) : Z := Z.of_nat (length (List.filter p l)).

(** A call ends at most once, after it began: at any time no more decrements
    have started than increments were made. *)
Definition balanced (l : list gauge_step) : Prop :=
  forall a b, l = a ++ b -> count is_load a <= count is_inc a.

Lemma count_app p a b : count p (a ++ b) = count p a + count p b.
Proof. unfold count. rewrite List.filter_app, length_app. lia. Qed.

Lemma take_loaded_spec t l v l' : take_loaded t l = Some (v, l') ->
  In v (map snd l) /\ length l = S (length l') /\ incl (map snd l') (map snd l).
Proof.
  revert v l'. induction l as [|[t' w] l IH]; intros v l'; cbn [take_loaded]; [done|].
  destruct (t' =? t)%nat.
  - intros [= <- <-]. split_and!; [by left | done | apply incl_tl, incl_refl].
  - destruct (take_loaded t l) as [[x m]|]; cbn [mbind option_bind]; [|done]. intros [= <- <-].
    destruct (IH x m eq_refl) as (H1 & H2 & H3). split_and!; [by right | cbn; lia |].
    cbn [map snd]. apply incl_cons; [by left | by apply incl_tl].
Qed.

(** The gauge is the increments less the decrements that are done. *)
Definition gauge_inv (l : list gauge_step) (s : gauge_state) : Prop :=
  value s = count is_inc l - count is_load l + Z.of_nat (length (loaded s)) /\
  Forall (fun v => 0 < v) (map snd (loaded s)) /\
  Z.of_nat (length (loaded s)) <= count is_load l.

Lemma balanced_gauge l : balanced l -> Z.of_nat (length l) < 2 ^ 64 -> gauge_inv l (gauge_execs gauge_start l).
Proof.
  induction l as [|x l IH] using rev_ind; intros Hb Hl; [by split_and!|].
  rewrite length_app in Hl. cbn [length] in Hl.
  destruct IH as (Hv & Hp & Hn); [intros a b ->; eapply Hb; by rewrite <- app_assoc | lia|].
  pose proof (Hb (l ++ [x]) [] ltac:(by rewrite app_nil_r)) as Hx. rewrite !count_app in Hx.
  pose proof (Hb l [x] eq_refl) as Hl2.
  assert (count is_inc l <= Z.of_nat (length l)) as Hil.
  { unfold count. pose proof (filter_length_le is_inc l). lia. }
  unfold gauge_execs in *. rewrite fold_left_app. cbn [fold_left].
  set (s := fold_left gauge_exec l gauge_start) in *. unfold gauge_inv. rewrite !count_app.
  destruct x as [| t | t]; cbn [gauge_exec value loaded].
  - assert (count is_inc [Inc] = 1 /\ count is_load [Inc] = 0) as [E1 E2] by done. rewrite E1, E2 in *.
    unfold wrapping_add. rewrite wrap_small by (unfold uN; lia). split_and!; [lia | done | lia].
  - assert (count is_inc [Load t] = 0 /\ count is_load [Load t] = 1) as [E1 E2] by done. rewrite E1, E2 in *.
    cbn [length map snd]. split_and!; [lia | by constructor; [lia|] | lia].
  - assert (count is_inc [Sub t] = 0 /\ count is_load [Sub t] = 0) as [E1 E2] by done. rewrite E1, E2 in *.
    destruct (take_loaded t (loaded s)) as [[v rest]|] eqn:Ht; [|split_and!; [lia | done | lia]].
    apply take_loaded_spec in Ht as (H1 & H2 & H3). rewrite Forall_forall in Hp.
    assert (0 < v) as Hv0 by (apply Hp; by apply list_elem_of_In).
    cbn [value loaded]. rewrite (proj2 (Z.ltb_lt 0 v)) by done. unfold wrapping_sub.
    rewrite wrap_small by (unfold uN; lia). split_and!; [lia | | lia].
    apply Forall_forall. intros w Hw. apply Hp, list_elem_of_In, H3, list_elem_of_In, Hw.
Qed.

(** The gauge of active calls. When every call is counted down at most once,
    after it was counted up, the gauge is the number of calls begun less those
    ended, whatever the interleaving of the tasks, and never wraps. *)
Theorem gauge_counts_calls l : balanced l -> Z.of_nat (length l) < 2 ^ 64 ->
  loaded (gauge_execs gauge_start l) = [] -> value (gauge_execs gauge_start l) = count is_inc l - count is_load l /\
  u64 (value (gauge_execs gauge_start l)).
Proof.
  intros Hb Hl He. destruct (balanced_gauge l Hb Hl) as (Hv & _ & _). rewrite He in Hv. cbn [length] in Hv.
  pose proof (Hb l [] ltac:(by rewrite app_nil_r)). split; [lia|]. unfold uN.
  assert (count is_inc l <= Z.of_nat (length l)) by (unfold count; pose proof (filter_length_le is_inc l); lia).
  assert (0 <= count is_load l) by (unfold count; lia). lia.
Qed.

Lemma gauge_counts_calls_witness :
  value (gauge_execs gauge_start [Inc; Inc; Load 0%nat; Load 1%nat; Sub 1%nat; Sub 0%nat]) = 0.
Proof.
  destruct (gauge_counts_calls [Inc; Inc; Load 0%nat; Load 1%nat; Sub 1%nat; Sub 0%nat]) as [H _].
  - intros a b Hab. do 7 (destruct a as [|? a]; [by vm_compute|]; cbn in Hab; try discriminate Hab;
      injection Hab as <- Hab).
  - by vm_compute.
  - by vm_compute.
  - exact H.
Defined.

(** The guard of the decrement holds for one task: a second decrement of the
    last call leaves 0; overlapping ones take the gauge to 2^64 - 1. *)
Lemma guard_not_atomic a b : a <> b ->
  value (gauge_execs (mkGauge 1 []) [Load a; Sub a; Load b; Sub b]) = 0 /\
  value (gauge_execs (mkGauge 1 []) [Load a; Load b; Sub a; Sub b]) = 2 ^ 64 - 1.
Proof.
  intros Hab. unfold gauge_execs. cbn [fold_left gauge_exec value loaded take_loaded]. rewrite !Nat.eqb_refl.
  cbn [value loaded take_loaded mbind option_bind fst snd].
  rewrite (proj2 (Nat.eqb_neq b a)) by congruence. cbn [mbind option_bind value loaded take_loaded].
  by rewrite !Nat.eqb_refl.
Qed.

(** ** Masking *)

Lemma drop_while_head p c s : p c = false -> drop_while p (String c s) = String c s.
Proof. intros H. cbn. by rewrite H. Qed.

Lemma blank_ws c s : is_blank c = true -> strip_ws (String c s) <> None /\ strip_ws_rev (String c s) <> None.
Proof.
  unfold is_blank. rewrite orb_true_iff, !Ascii.eqb_eq. intros [-> | ->]; split; by vm_compute.
Qed.

Lemma trim_ascii_id s : trimmed s -> trim_ascii s = s.
Proof.
  intros [H1 H2]. unfold trim_ascii.
  assert (drop_while is_blank s = s) as ->.
  { destruct s as [|c s]; [done|]. apply drop_while_head. apply not_true_is_false.
    intros Hb. by apply (blank_ws c s) in Hb as [? _]. }
  destruct (str_rev s) as [|c r] eqn:Hr; [by rewrite <- (str_rev_invol s), Hr|].
  rewrite drop_while_head, <- Hr; [by rewrite str_rev_invol|].
  apply not_true_is_false. intros Hb. by apply (blank_ws c r) in Hb as [_ ?].
Qed.

(** A stored name is trimmed and in lower case. *)
Lemma normalized_name k : normalize_header_name k = k -> trimmed k /\ to_ascii_lowercase k = k.
Proof.
  unfold normalize_header_name. destruct (assoc compact_forms _) as [v|] eqn:Hv.
  - cbn [default from_option id]. intros <-. apply assoc_In in Hv.
    assert (forallb (fun '(_, b) => String.eqb (trim b) b && String.eqb (to_ascii_lowercase b) b) compact_forms
      = true) as H by (by vm_compute).
    rewrite forallb_forall in H. apply H in Hv. rewrite andb_true_iff, !String.eqb_eq in Hv.
    destruct Hv as [H1 H2]. split; [|done]. rewrite <- H1. apply trim_trimmed.
  - cbn [default from_option id]. rewrite <- trim_lower. intros <-. split; [apply trim_trimmed|].
    by rewrite trim_lower, to_ascii_lowercase_idemp.
Qed.

Definition masked_name (k : string) : bool := String.eqb k "authorization" || String.eqb k "proxy-authorization".
Definition mask_field (kv : string * string) : string * string :=
  if masked_name kv.1 then (kv.1, "<redacted>") else kv.

(** The sanitizer's test of a name, on the name the serializer writes. *)
Lemma secret_canonical k : normalize_header_name k = k -> secret_header (canonical_header_name k) = masked_name k.
Proof.
  intros Hk. destruct (normalized_name k Hk) as [[H1 H2] Hl].
  assert (trimmed (canonical_header_name k)) as Ht.
  { split.
    - pose proof (strip_ws_lower (canonical_header_name k)) as H. rewrite canonical_lower, Hl, H1 in H.
      by destruct (strip_ws (canonical_header_name k)).
    - pose proof (strip_ws_rev_lower (str_rev (canonical_header_name k))) as H.
      unfold to_ascii_lowercase in *. rewrite string_map_rev in H.
      fold (to_ascii_lowercase (canonical_header_name k)) in H. rewrite canonical_lower in H.
      unfold to_ascii_lowercase in H. rewrite Hl, H2 in H.
      by destruct (strip_ws_rev (str_rev (canonical_header_name k))). }
  unfold secret_header, header_name_eq_ignore_case. rewrite trim_ascii_id by done.
  by rewrite canonical_lower, Hl.
Qed.

Lemma sanitize_field kv : field_ok kv -> sanitize_line (line_text kv) = line_text (mask_field kv).
Proof.
  intros []. unfold sanitize_line, line_text.
  change (": " +:+ kv.2) with (String ":" (" " +:+ kv.2)).
  rewrite split_once_no_char, secret_canonical by (done || by rewrite (no_char_same_lower ":" _ kv.1 eq_refl (canonical_lower kv.1))).
  unfold mask_field. by destruct (masked_name kv.1).
Qed.

(** The masked lines of a message, then its body untouched. *)
Lemma sanitize_lines n L body : Forall (fun l => no_char CR l = true /\ l <> "") L -> L <> [] ->
  (length L < n)%nat ->
  sanitize_fuel n (join crlf L +:+ crlf2 +:+ body) = join crlf (map sanitize_line L) +:+ crlf2 +:+ body.
Proof.
  intros HL. revert n. induction HL as [|x L [Hx Hxe] HL IH]; intros n Hne Hn; [done|].
  destruct n as [|n]; [lia|]. cbn [length] in Hn.
  assert (forall rest, sanitize_fuel (S n) (x +:+ crlf +:+ rest) =
    sanitize_line x +:+ crlf +:+ sanitize_fuel n rest) as Hstep.
  { intros rest. cbn [sanitize_fuel]. unfold find_crlf. unfold crlf at 1 2. rewrite split_once_str_hit by done.
    by rewrite (proj2 (String.eqb_neq x "")). }
  destruct L as [|y L].
  - change (join crlf [x]) with x. change (join crlf (map sanitize_line [x])) with (sanitize_line x).
    change (crlf2 +:+ body) with (crlf +:+ crlf +:+ body). rewrite Hstep. f_equal. f_equal.
    destruct n as [|n]; [lia|]. done.
  - change (join crlf (x :: y :: L)) with (x +:+ crlf +:+ join crlf (y :: L)).
    change (join crlf (map sanitize_line (x :: y :: L)))
      with (sanitize_line x +:+ crlf +:+ join crlf (map sanitize_line (y :: L))).
    rewrite !str_app_assoc, Hstep. rewrite IH; [done | done | lia].
Qed.

(** The first line has no masked name before a colon. *)
Definition start_ok (start : string) : Prop :=
  no_char CR start = true /\ start <> "" /\ sanitize_line start = start.

Definition mask_headers (h : SipHeaders) : SipHeaders := map mask_field h.

Lemma sent_headers_mask h body : sent_headers (mask_headers h) body = map mask_field (sent_headers h body).
Proof.
  unfold sent_headers, mask_headers. rewrite map_app. f_equal. induction h as [|[k v] h IH]; [done|].
  cbn [map List.filter]. unfold mask_field at 1. cbn [fst].
  destruct (masked_name k) eqn:Hm; destruct (String.eqb_spec k "content-length") as [-> | Hne];
    cbn [negb map]; rewrite IH; unfold mask_field at 2; cbn [fst]; rewrite ?Hm; done.
Qed.

Lemma sanitize_written start h body : start_ok start -> Forall field_ok h ->
  sanitize_message (write_message start h body) = write_message start (mask_headers h) body.
Proof.
  intros (Hcr & Hne & Hst) Hf. rewrite !write_message_join. unfold sanitize_message.
  pose proof (sent_headers_ok h body Hf) as Hs.
  set (L := start :: map line_text (sent_headers h body)).
  rewrite sanitize_lines.
  - unfold L. cbn [map]. rewrite Hst, sent_headers_mask, !map_map.
    do 3 f_equal. apply map_ext_in. intros kv Hkv. apply sanitize_field.
    rewrite Forall_forall in Hs. by apply Hs, list_elem_of_In.
  - constructor; [done|]. apply Forall_fmap. eapply Forall_impl; [exact Hs|].
    intros kv Hkv. cbn. by destruct (line_text_ok kv Hkv) as (? & ? & _).
  - done.
  - pose proof (length_join_ge crlf L ltac:(cbn; lia)). rewrite !str_length_app. change (String.length crlf2) with 4%nat. lia.
Qed.

(** The request or response with its credentials masked. *)
Definition mask (m : SipMessage) : SipMessage :=
  match m with
  | Request r => Request (mkRequest (req_method r) (req_uri r) (mask_headers (req_headers r)) (req_body r))
  | Response r => Response (mkResponse (status_code r) (reason r) (mask_headers (resp_headers r)) (resp_body r))
  end.
Definition to_bytes (m : SipMessage) : string :=
  match m with Request r => request_to_bytes r | Response r => response_to_bytes r end.
Definition message_ok (m : SipMessage) : Prop :=
  match m with
  | Request r => request_ok r /\ In (req_method r) known_methods
  | Response r => response_ok r
  end.

(** A name that begins with a word that is no prefix of the masked names. *)
Definition plain_word (w : string) : bool :=
  all_chars (fun c => negb (is_blank c)) w && no_char ":" w &&
  bool_decide (strip_prefix (to_ascii_lowercase w) "authorization" = None) &&
  bool_decide (strip_prefix (to_ascii_lowercase w) "proxy-authorization" = None).

Lemma drop_blanks_end w t : all_chars (fun c => negb (is_blank c)) w = true ->
  exists r, str_rev (drop_while is_blank (t +:+ str_rev w)) = w +:+ r.
Proof.
  intros Hw. induction t as [|d t [r IH]]; cbn [String.append drop_while].
  - exists "". rewrite str_app_nil_r. transitivity (str_rev (str_rev w)); [f_equal | apply str_rev_invol].
    rewrite <- all_chars_rev in Hw. destruct (str_rev w) as [|c s]; [done|].
    cbn in Hw. apply andb_true_iff in Hw as [Hc _]. apply drop_while_head. by destruct (is_blank c).
  - destruct (is_blank d); [by exists r|]. exists (str_rev t +:+ String d "").
    by rewrite str_rev_cons, str_rev_app, str_rev_invol, str_app_assoc.
Qed.

Lemma plain_word_secret w b : plain_word w = true -> secret_header (w +:+ b) = false.
Proof.
  unfold plain_word. rewrite !andb_true_iff, !bool_decide_eq_true. intros [[[Hb _] H1] H2].
  unfold secret_header, header_name_eq_ignore_case, trim_ascii.
  assert (drop_while is_blank (w +:+ b) = w +:+ b) as ->.
  { destruct w as [|c w]; [done|]. cbn [String.append]. apply drop_while_head.
    cbn in Hb. by destruct (is_blank c). }
  rewrite str_rev_app. destruct (drop_blanks_end w (str_rev b) Hb) as [r ->].
  unfold to_ascii_lowercase in *. rewrite string_map_app.
  apply orb_false_iff. split; apply String.eqb_neq; intros He.
  - rewrite <- He, strip_prefix_app in H1. done.
  - rewrite <- He, strip_prefix_app in H2. done.
Qed.

Lemma plain_line w s : plain_word w = true -> sanitize_line (w +:+ s) = w +:+ s.
Proof.
  intros Hw. unfold sanitize_line. destruct (split_once ":" (w +:+ s)) as [[name v]|] eqn:He; [|done].
  assert (exists b, name = w +:+ b) as [b ->]; [|by rewrite plain_word_secret].
  unfold plain_word in Hw. rewrite !andb_true_iff in Hw. destruct Hw as [[[_ Ha] _] _].
  revert name He. induction w as [|c w IH]; intros name He; [by exists name|].
  cbn in Ha. apply andb_true_iff in Ha as [Hc Ha]. cbn [String.append split_once] in He.
  destruct (Ascii.eqb_spec ":" c) as [<- | _]; [done|].
  destruct (split_once ":" (w +:+ s)) as [[n u]|]; [|done]. injection He as <- <-.
  destruct (IH Ha n eq_refl) as [b ->]. by exists b.
Qed.

Lemma message_start_ok m : message_ok m -> start_ok
  match m with
  | Request r => as_str (req_method r) +:+ " " +:+ req_uri r +:+ " SIP/2.0"
  | Response r => "SIP/2.0 " +:+ print_uint (status_code r) +:+ " " +:+ reason r
  end.
Proof.
  destruct m as [r | r].
  - intros [[(_ & Hm & _) (_ & Hu & _) _ _] Hk]. split_and!.
    + by rewrite !no_char_app, Hm, Hu.
    + by destruct (as_str (req_method r)).
    + apply plain_line.
      assert (forallb (fun m => plain_word (as_str m)) known_methods = true) as H by (by vm_compute).
      rewrite forallb_forall in H. by apply H.
  - intros [_ [Hr _] _ _]. split_and!.
    + rewrite !no_char_app, Hr. rewrite (digits_no_char CR (print_uint _)) by (done || apply print_uint_digits). done.
    + done.
    + by apply (plain_line "SIP/2.0").
Qed.

(** C30: the dump of a message hides its credentials and nothing else. The text
    written for a well-formed message is the text of the same message with the
    values of Authorization and Proxy-Authorization replaced; so two messages
    that differ only in these values are dumped alike. *)
Theorem trace_masks_credentials m : message_ok m ->
  sanitize_message (to_bytes m) = to_bytes (mask m) /\
  (forall m', message_ok m' -> mask m' = mask m -> sanitize_message (to_bytes m') = sanitize_message (to_bytes m)).
Proof.
  assert (forall m, message_ok m -> sanitize_message (to_bytes m) = to_bytes (mask m)) as H.
  { intros x Hx. pose proof (message_start_ok x Hx) as Hs. destruct x as [r | r]; cbn [to_bytes mask].
    - apply sanitize_written; [exact Hs | by destruct Hx as [[] _]].
    - apply sanitize_written; [exact Hs | by destruct Hx]. }
  intros Hm. split; [by apply H|]. intros m' Hm' He. by rewrite !H, He.
Qed.

Definition sample_authorized : SipMessage :=
  Request (mkRequest Register "sip:h" [("authorization", "Digest response=1"); ("to", "<sip:1@h>")] "").

Lemma trace_masks_credentials_witness :
  sanitize_message (to_bytes sample_authorized) =
  "REGISTER sip:h SIP/2.0" +:+ crlf +:+ "Authorization: <redacted>" +:+ crlf +:+ "To: <sip:1@h>" +:+ crlf +:+
  "Content-Length: 0" +:+ crlf2.
Proof.
  refine (eq_trans (proj1 (trace_masks_credentials sample_authorized _)) _); [|by vm_compute].
  split; [|by left]. split; [by vm_compute | by vm_compute | | by vm_compute].
  repeat (apply Forall_cons; split); [| |constructor]; split; by vm_compute.
Defined.

(** The parser trims any white space around a name, the sanitizer spaces and tabs
    only: this Authorization is understood, and dumped as it is. *)
Example other_white_space_is_dumped :
  let raw := "REGISTER sip:h SIP/2.0" +:+ crlf +:+ "Authorization" +:+ String "011" ": secret" +:+ crlf2 in
  sanitize_message raw = raw /\
  exists r, parse_message_classified raw = Ok (Request r) /\
    hdr_get (req_headers r) "authorization" = Some "secret".
Proof. split; [by vm_compute|]. eexists. split; [by vm_compute|]. by vm_compute. Qed.

(** ** File names *)

Lemma escape_chars_ok s : all_chars (fun c => file_char c || Ascii.eqb c "_") (escape_chars s) = true.
Proof.
  induction s as [|c s IH]; cbn; [done|]. destruct (_ && _); [done|]. cbn. rewrite IH, andb_true_r.
  destruct (file_char c) eqn:Hc; [by rewrite Hc | done].
Qed.

Lemma file_char_not_slash c : file_char c || Ascii.eqb c "_" = true -> negb (Ascii.eqb "/" c) = true.
Proof.
  revert c. assert (forall c, implb (file_char c || Ascii.eqb c "_") (negb (Ascii.eqb "/" c)) = true) as H.
  { apply ascii_exhaust. by vm_compute. }
  intros c Hc. specialize (H c). by rewrite Hc in H.
Qed.

Lemma component_no_slash s : no_char "/" (sanitize_filename_component s) = true.
Proof.
  unfold sanitize_filename_component. destruct (String.eqb _ ""); [done|].
  pose proof (escape_chars_ok s) as H. revert H. generalize (escape_chars s) as t.
  induction t as [|c t IH]; [done|]. cbn [all_chars]. intros [Hc Ht]%andb_true_iff.
  unfold no_char in *. cbn [all_chars]. rewrite (file_char_not_slash c Hc). by apply IH.
Qed.

Lemma trace_file_name_local ms dir method cid : no_char "/" (trace_file_name ms dir method cid) = true.
Proof.
  unfold trace_file_name. rewrite !no_char_app, !component_no_slash.
  rewrite (digits_no_char "/" (print_uint _)) by (done || apply print_uint_digits). by destruct dir.
Qed.

(** ** Rotation *)

Definition sum_sizes (l : list TraceFile) : Z := foldr (fun f t => size f + t) 0 l.

Lemma trace_open_total entries : total_bytes (trace_open entries) = sum_sizes entries.
Proof.
  unfold trace_open. cbn [total_bytes].
  assert (forall l a, fold_left (fun t f => t + size f) l a = a + sum_sizes l) as ->; [|lia].
  induction l as [|f l IH]; intros a; cbn [fold_left sum_sizes foldr]; [lia|].
  rewrite IH. unfold sum_sizes. lia.
Qed.

Definition sizes_ok (l : list TraceFile) : Prop := Forall (fun f => 0 <= size f) l.
Definition within (l : list TraceFile) : Prop :=
  Z.of_nat (length l) <= MAX_FILES /\ sum_sizes l <= MAX_TOTAL_BYTES.

Lemma sum_sizes_nonneg l : sizes_ok l -> 0 <= sum_sizes l.
Proof. unfold sum_sizes. induction 1; cbn; lia. Qed.

Lemma rotate_spec l : sizes_ok l -> exists kept,
  rotate l (sum_sizes l) = (take (length l - length kept) l, mkTrace kept (sum_sizes kept)) /\
  kept = drop (length l - length kept) l /\ within kept /\
  (forall n, within (drop n l) -> (length (drop n l) <= length kept)%nat).
Proof.
  induction 1 as [|f l Hf Hl IH]; cbn [rotate].
  - exists []. split_and!; try done. intros n _. by rewrite drop_nil.
  - destruct (_ || _) eqn:Hover.
    + destruct IH as (kept & Hr & Hk & Hw & Hmax).
      assert (saturating_sub (sum_sizes (f :: l)) (size f) = sum_sizes l) as ->.
      { change (sum_sizes (f :: l)) with (size f + sum_sizes l). unfold saturating_sub.
        pose proof (sum_sizes_nonneg l Hl). lia. }
      rewrite Hr. exists kept. assert (length kept <= length l)%nat as Hle by (rewrite Hk, length_drop; lia).
      replace (length (f :: l) - length kept)%nat with (S (length l - length kept)) by (cbn; lia).
      cbn [take drop]. split_and!; [done | done | done |]. intros [|n] Hn; [|by apply Hmax].
      exfalso. cbn [drop] in Hn. destruct Hn. lia.
    + exists (f :: l). rewrite Nat.sub_diag. cbn [take drop]. split_and!; try done.
      * unfold within. lia.
      * intros n _. rewrite length_drop. lia.
Qed.

(** The dump is bounded. Starting from any directory, after every record that
    was written at most 1000 files of at most 100 MiB in all are left; the
    files removed are the oldest, and no more than needed; the total kept is the
    sum of the sizes. *)
Theorem trace_bounded st ms dir method cid raw :
  sizes_ok (files st) -> total_bytes st = sum_sizes (files st) ->
  let '(name, payload, removed, st') := trace_record st ms dir method cid raw true in
  let all := files st ++ [mkFile name (Z.of_nat (String.length payload))] in
  all = removed ++ files st' /\ within (files st') /\ sizes_ok (files st') /\
  total_bytes st' = sum_sizes (files st') /\
  (forall n, within (drop n all) -> (length (drop n all) <= length (files st'))%nat).
Proof.
  intros Hs Ht. unfold trace_record. rewrite Ht.
  set (name := trace_file_name ms dir method cid). set (payload := sanitize_message raw).
  set (f := mkFile name _). set (l := files st ++ [f]).
  assert (sizes_ok l) as Hl by (apply Forall_app; split; [done | repeat constructor; cbn; lia]).
  assert (sum_sizes (files st) + Z.of_nat (String.length payload) = sum_sizes l) as ->.
  { unfold l, sum_sizes. clear. induction (files st) as [|x l IH]; cbn in *; lia. }
  destruct (rotate_spec l Hl) as (kept & -> & Hk & Hw & Hmax). cbn [files total_bytes].
  split_and!; try done.
  - rewrite Hk at 2. by rewrite take_drop.
  - rewrite Hk. by apply Forall_drop.
Qed.

Definition sample_full : TraceState := mkTrace (repeat (mkFile "old" 10) 1000) 10000.
Lemma trace_bounded_witness :
  let '(_, _, removed, st) := trace_record sample_full 5 Sent "BYE" None "x" true in
  within (files st) /\ sizes_ok (files st).
Proof.
  pose proof (trace_bounded sample_full 5 Sent "BYE" None "x") as H.
  assert (sizes_ok (files sample_full)) as H1 by (apply Forall_forall; intros f Hf;
    apply list_elem_of_In, repeat_spec in Hf; by subst f).
  specialize (H H1 eq_refl). destruct (trace_record _ _ _ _ _ _ _) as [[[name payload] removed] st].
  destruct H as (_ & H & H' & _). by split.
Defined.
