(* ===== verification/CallLog.v ===== *)
(** The log of calls (src/src/observability/call_log.rs): a bounded buffer with
    one entry per Call-ID. The wall clock is an argument; the lock of the buffer
    makes every operation atomic. *)
From S2P Require Import Prelude RustStr MessageLog.

Inductive Direction := Outbound | Inbound.

Inductive Outcome := Answered | Missed | Failed (status : Z) | Cancelled.

Record CallLogEntry := mkEntry {
  direction : Direction; remote_number : string; start_time : Z; duration : option Z;
  outcome : option Outcome; call_id : string }.

Record CallLog := mkCallLog { call_entries : list CallLogEntry; call_max : nat }.
Definition call_log_new (n : nat) : CallLog := mkCallLog [] n.

Definition new_started (d : Direction) (remote cid : string) (now : Z) : CallLogEntry :=
  mkEntry d remote now None None cid.

Definition record_start (log : CallLog) (d : Direction) (remote cid : string) (now : Z) : CallLog :=
  if existsb (fun e => String.eqb (call_id e) cid) (call_entries log) then log
  else if (call_max log =? 0)%nat then log
  else mkCallLog (pop_to (call_max log) (call_entries log ++ [new_started d remote cid now])) (call_max log).

Definition ended (e : CallLogEntry) (o : Outcome) (now : Z) : CallLogEntry :=
  let duration :=
    match outcome e with
    | None => if start_time e <=? now then Some (now - start_time e) else None
    | Some _ => duration e
    end in
  mkEntry (direction e) (remote_number e) (start_time e) duration (Some o) (call_id e).

(** The first entry of the call, of a list. *)
Fixpoint end_first (cid : string) (o : Outcome) (now : Z) (l : list CallLogEntry) : list CallLogEntry :=
  match l with
  | [] => []
  | e :: l => if String.eqb (call_id e) cid then ended e o now :: l else e :: end_first cid o now l
  end.

Definition record_end (log : CallLog) (cid : string) (o : Outcome) (now : Z) : CallLog :=
  mkCallLog (rev (end_first cid o now (rev (call_entries log)))) (call_max log).

Definition call_recent (log : CallLog) (n : nat) : list CallLogEntry :=
  if (n =? 0)%nat then [] else take (n `min` length (call_entries log)) (rev (call_entries log)).

Inductive log_op :=
  | Start (d : Direction) (remote cid : string) (now : Z)
  | End_ (cid : string) (o : Outcome) (now : Z).
Definition log_op_cid (x : log_op) : string := match x with Start _ _ cid _ | End_ cid _ _ => cid end.
Definition is_start (x : log_op) : bool := match x with Start _ _ _ _ => true | _ => false end.

Definition log_step (log : CallLog) (x : log_op) : CallLog :=
  match x with
  | Start d remote cid now => record_start log d remote cid now
  | End_ cid o now => record_end log cid o now
  end.
Definition log_run (log : CallLog) (l : list log_op) : CallLog := fold_left log_step l log.

Definition ids (log : CallLog) : list string := map call_id (call_entries log).

(** One entry per call, and no more entries than the size. *)
Definition log_inv (log : CallLog) : Prop := NoDup (ids log) /\ (length (call_entries log) <= call_max log)%nat.

Lemma existsb_ids l cid : existsb (fun e => String.eqb (call_id e) cid) l = false <-> cid ∉ map call_id l.
Proof.
  induction l as [|e l IH]; cbn [existsb map]; [split; [intros _; apply not_elem_of_nil | done]|].
  rewrite orb_false_iff, IH, not_elem_of_cons, String.eqb_neq. split; intros [H1 H2]; split; congruence || done.
Qed.

Lemma end_first_absent cid o now l : cid ∉ map call_id l -> end_first cid o now l = l.
Proof.
  induction l as [|e l IH]; cbn [end_first map]; [done|]. rewrite not_elem_of_cons. intros [H1 H2].
  rewrite (proj2 (String.eqb_neq _ _)) by congruence. by rewrite IH.
Qed.

Lemma end_first_at cid o now a e b : call_id e = cid -> cid ∉ map call_id a ->
  end_first cid o now (a ++ e :: b) = a ++ ended e o now :: b.
Proof.
  intros He. induction a as [|x a IH]; cbn [app end_first map]; [intros _; by rewrite He, String.eqb_refl|].
  rewrite not_elem_of_cons. intros [H1 H2].
  rewrite (proj2 (String.eqb_neq _ _)) by congruence. by rewrite IH.
Qed.

Lemma end_first_ids cid o now l : map call_id (end_first cid o now l) = map call_id l.
Proof.
  induction l as [|e l IH]; cbn [end_first map]; [done|]. destruct (String.eqb _ _); cbn [map]; by rewrite ?IH.
Qed.

Lemma record_end_ids log cid o now : ids (record_end log cid o now) = ids log.
Proof. unfold ids, record_end. cbn [call_entries]. by rewrite map_rev, end_first_ids, map_rev, rev_involutive. Qed.

(** The entry of the call [cid] at its place. *)
Lemma record_end_at log cid o now a e b : log_inv log -> call_entries log = a ++ e :: b -> call_id e = cid ->
  call_entries (record_end log cid o now) = a ++ ended e o now :: b.
Proof.
  intros [Hn _] He Hc. unfold record_end. cbn [call_entries]. rewrite He, rev_app_distr. cbn [rev].
  rewrite <- app_assoc. cbn [app]. rewrite end_first_at, rev_app_distr; [|done|].
  - cbn [rev]. by rewrite !rev_involutive, <- app_assoc.
  - rewrite map_rev. intros Hin. apply list_elem_of_In, in_rev in Hin.
    unfold ids in Hn. rewrite He, map_app in Hn. cbn [map] in Hn.
    apply NoDup_app in Hn as (_ & _ & Hn). apply NoDup_cons in Hn as [Hn _].
    apply Hn. rewrite Hc. by apply list_elem_of_In.
Qed.

(** Ending another call leaves the entry where it is. *)
Lemma record_end_other log cid o now a e b : log_inv log -> call_entries log = a ++ e :: b -> call_id e <> cid ->
  exists a' b', call_entries (record_end log cid o now) = a' ++ e :: b' /\ length b' = length b.
Proof.
  intros [Hn _] He Hc. unfold record_end. cbn [call_entries]. rewrite He, rev_app_distr. cbn [rev].
  rewrite <- app_assoc. cbn [app].
  assert (forall p, end_first cid o now (p ++ e :: rev a) =
    end_first cid o now p ++ e :: (if existsb (fun x => String.eqb (call_id x) cid) p then rev a
      else end_first cid o now (rev a))) as ->.
  { induction p as [|x p IH]; cbn [app end_first existsb].
    - by rewrite (proj2 (String.eqb_neq _ _)) by done.
    - destruct (String.eqb (call_id x) cid); [done|]. cbn [orb]. by rewrite IH. }
  rewrite rev_app_distr. cbn [rev]. rewrite <- app_assoc. eexists _, _. split; [reflexivity|].
  rewrite length_rev. assert (forall l, length (end_first cid o now l) = length l) as ->.
  { intros l. rewrite <- (length_map call_id), end_first_ids. by rewrite length_map. }
  by rewrite length_rev.
Qed.

Lemma record_start_inv log d remote cid now : log_inv log -> log_inv (record_start log d remote cid now).
Proof.
  intros [Hn Hl]. unfold record_start. destruct (existsb _ _) eqn:He; [done|].
  destruct (Nat.eqb_spec (call_max log) 0); [done|]. apply existsb_ids in He. unfold log_inv, ids.
  cbn [call_entries call_max]. rewrite pop_to_drop, length_drop. split; [|lia].
  rewrite <- List.skipn_map, map_app. cbn [map call_id new_started].
  eapply sublist_NoDup; [|apply sublist_drop]. apply NoDup_app. split_and!; [done | | by apply NoDup_singleton].
  intros x Hx ->%list_elem_of_singleton. by apply He.
Qed.

Lemma log_step_inv log x : log_inv log -> log_inv (log_step log x).
Proof.
  intros Hi. destruct x as [d remote cid now | cid o now]; cbn [log_step]; [by apply record_start_inv|].
  destruct Hi as [Hn Hl]. split; [by rewrite record_end_ids|].
  rewrite <- (length_map call_id). change (map call_id _) with (ids (record_end log cid o now)).
  rewrite record_end_ids. unfold ids. by rewrite length_map.
Qed.

Lemma log_max log l : call_max (log_run log l) = call_max log.
Proof.
  revert log. induction l as [|x l IH]; intros log; [done|]. cbn [log_run fold_left] in *.
  unfold log_run in IH. rewrite IH. destruct x; cbn [log_step]; [|done].
  unfold record_start. by repeat case_match.
Qed.

(** An entry with few newer ones stays while the operations are about other calls. *)
Lemma entry_stays l log a e b : log_inv log -> call_entries log = a ++ e :: b ->
  Forall (fun x => log_op_cid x <> call_id e) l ->
  (length b + length (List.filter is_start l) < call_max log)%nat ->
  log_inv (log_run log l) /\ exists a' b', call_entries (log_run log l) = a' ++ e :: b'.
Proof.
  revert log a b. induction l as [|x l IH]; intros log a b Hi He Hf Hlen; [split; [done|]; eauto|].
  apply Forall_cons in Hf as [Hx Hf]. cbn [log_run fold_left]. fold (log_run (log_step log x) l).
  pose proof (log_step_inv log x Hi) as Hi'.
  assert (call_max (log_step log x) = call_max log) as Hm by apply (log_max log [x]).
  destruct x as [d remote cid now | cid o now]; cbn [log_step log_op_cid List.filter is_start length] in *.
  - assert (exists a' b', call_entries (record_start log d remote cid now) = a' ++ e :: b' /\
      (length b' <= S (length b))%nat) as (a' & b' & He' & Hb').
    { unfold record_start. destruct (existsb _ _); [exists a, b; split; [done | lia]|].
      destruct (Nat.eqb_spec (call_max log) 0); [exists a, b; split; [done | lia]|].
      cbn [call_entries]. rewrite pop_to_drop, He, <- app_assoc. cbn [app].
      exists (drop (length (a ++ e :: b ++ [new_started d remote cid now]) - call_max log) a),
        (b ++ [new_started d remote cid now]).
      rewrite drop_app_le by (rewrite !length_app; cbn; rewrite !length_app; cbn; lia).
      split; [done|]. rewrite length_app. cbn. lia. }
    eapply IH; [done | exact He' | done | lia].
  - destruct (record_end_other log cid o now a e b Hi He) as (a' & b' & He' & Hb'); [congruence|].
    eapply IH; [done | exact He' | done | lia].
Qed.

(** A call is logged. In any log, a call with a new Call-ID that starts and
    later ends, with at most [max_size - 1] other calls starting in between, is
    in the list of recent calls under its direction and number, with the outcome
    it ended with and the time between the two, and only once. *)
Theorem call_is_logged log d remote cid t0 l o t1 : log_inv log -> cid ∉ ids log ->
  Forall (fun x => log_op_cid x <> cid) l -> (length (List.filter is_start l) < call_max log)%nat -> t0 <= t1 ->
  let log' := record_end (log_run (record_start log d remote cid t0) l) cid o t1 in
  In (mkEntry d remote t0 (Some (t1 - t0)) (Some o) cid) (call_recent log' (call_max log)) /\ NoDup (ids log').
Proof.
  intros Hi Hc Hf Hlen Ht log'. unfold log'.
  assert (exists a, call_entries (record_start log d remote cid t0) = a ++ [new_started d remote cid t0]) as [a Ha].
  { unfold record_start. unfold ids in Hc. rewrite (proj2 (existsb_ids _ _) Hc).
    rewrite (proj2 (Nat.eqb_neq _ 0)) by lia. cbn [call_entries]. rewrite pop_to_drop.
    destruct Hi as [_ Hl]. exists (drop (length (call_entries log ++ [new_started d remote cid t0]) - call_max log)
      (call_entries log)). rewrite drop_app_le; [done|]. rewrite length_app. cbn. lia. }
  assert (call_max (record_start log d remote cid t0) = call_max log) as Hm
    by apply (log_max log [Start d remote cid t0]).
  destruct (entry_stays l (record_start log d remote cid t0) a (new_started d remote cid t0) [])
    as (Hi' & a' & b' & He'); [by apply record_start_inv | exact Ha | exact Hf | cbn; lia |].
  split; [|rewrite record_end_ids; by destruct Hi'].
  set (lg := log_run _ l) in *.
  pose proof (record_end_at lg cid o t1 a' _ b' Hi' He' eq_refl) as Hend.
  unfold call_recent. rewrite (proj2 (Nat.eqb_neq _ 0)) by lia.
  destruct Hi' as [_ Hl]. unfold lg in Hl at 2. rewrite log_max, Hm in Hl.
  rewrite He' in Hl. rewrite length_app in Hl. cbn [length] in Hl.
  rewrite Hend, take_ge by (rewrite length_rev, length_app; cbn [length]; lia).
  apply in_rev. rewrite rev_involutive. apply in_or_app. right. left.
  unfold ended. cbn [outcome new_started start_time direction remote_number call_id].
  by rewrite (proj2 (Z.leb_le t0 t1)).
Qed.

Lemma call_is_logged_witness :
  In (mkEntry Inbound "117" 5 (Some 20) (Some Missed) "a")
    (call_recent (record_end (log_run (record_start (call_log_new 2) Inbound "117" "a" 5)
      [Start Outbound "118" "b" 6; End_ "b" (Failed 486) 7]) "a" Missed 25) 2).
Proof.
  refine (proj1 (call_is_logged (call_log_new 2) Inbound "117" "a" 5
    [Start Outbound "118" "b" 6; End_ "b" (Failed 486) 7] Missed 25 _ _ _ _ _)).
  - split; [constructor | cbn; lia].
  - apply not_elem_of_nil.
  - by repeat constructor.
  - cbn. lia.
  - lia.
Defined.
