(* ===== verification/Transcoder.v ===== *)
(** The audio bridges with conversion (src/src/call/transcoder.rs): between a
    leg that carries G.711 mu-law and one that carries Opus, or a browser.

    Each direction of a bridge is a task: it queues what arrives in a jitter
    buffer, and every 20 ms takes a packet, converts it and sends it in a stream
    of its own. The libraries behind the conversions ([Codec.CodecLib]) are an
    argument ([Section bridges]). The
    clocks, the random numbers and the results of the sends are arguments too.
    The egress state is shared with the task of the sender reports, which only
    reads it. *)
From S2P Require Import Prelude F64 Codec Bytes RustStr Utf8 NetAddr RtpPacket Rtcp Ulaw Jitter RtpSession Observability.

Definition JITTER_PULL_INTERVAL : Z := from_millis 20.
Definition TALKSPURT_GAP_THRESHOLD : Z := from_millis 30.
Definition JITTER_DEPTH : Z := DEFAULT_DEPTH.
Definition RTCP_SR_INTERVAL : Z := from_secs 5.
Definition MAX_INGRESS_GAP : Z := 100.
Definition DEFAULT_OPUS_PT : Z := 111.
(** rtp/mod.rs: the largest datagram that is read whole. *)
Definition RECV_BUF_SIZE : nat := Z.to_nat 9000.
#[global] Opaque RECV_BUF_SIZE.

(** ** One outgoing stream *)

Record RtpEgressState := mkEgress {
  eg_ssrc : Z; eg_seq : Z; eg_timestamp : Z; eg_last_send : option Z; eg_packets : Z; eg_octets : Z;
  sample_rate_hz : Z; anchor : option (NtpTimestamp * Z); last_ingress_seq : option Z }.

(** The three values are drawn at random. *)
Definition new_random (hz ssrc seq ts : Z) : RtpEgressState := mkEgress ssrc seq ts None 0 0 hz None None.

Definition set_eg_ssrc v e :=
  mkEgress v (eg_seq e) (eg_timestamp e) (eg_last_send e) (eg_packets e) (eg_octets e) (sample_rate_hz e) (anchor e)
    (last_ingress_seq e).
Definition set_eg_next q t e :=
  mkEgress (eg_ssrc e) q t (eg_last_send e) (eg_packets e) (eg_octets e) (sample_rate_hz e) (anchor e)
    (last_ingress_seq e).
Definition set_eg_last_send v e :=
  mkEgress (eg_ssrc e) (eg_seq e) (eg_timestamp e) v (eg_packets e) (eg_octets e) (sample_rate_hz e) (anchor e)
    (last_ingress_seq e).
Definition set_eg_ingress v e :=
  mkEgress (eg_ssrc e) (eg_seq e) (eg_timestamp e) (eg_last_send e) (eg_packets e) (eg_octets e) (sample_rate_hz e)
    (anchor e) v.
Definition set_eg_sent p o a e :=
  mkEgress (eg_ssrc e) (eg_seq e) (eg_timestamp e) (eg_last_send e) p o (sample_rate_hz e) a (last_ingress_seq e).

(** The distance of a packet to the one before it. *)
Definition ingress_gap (last : option Z) (ingress_seq : Z) : Z :=
  match last with
  | None => 1
  | Some prev =>
      let raw_gap := wrapping_sub 16 ingress_seq prev in
      if raw_gap =? 0 then 1 else if MAX_INGRESS_GAP <? raw_gap then MAX_INGRESS_GAP else raw_gap
  end.

Definition note_ingress_seq (e : RtpEgressState) (ingress_seq : Z) : Z * RtpEgressState :=
  let gap := ingress_gap (last_ingress_seq e) ingress_seq in
  let e := set_eg_ingress (Some ingress_seq) e in
  let extra_skip := saturating_sub gap 1 in
  (gap, set_eg_next (wrapping_add 16 (eg_seq e) (wrap 16 extra_skip)) (eg_timestamp e) e).

(** The sequence number, the timestamp and the SSRC of the next packet. *)
Definition next (e : RtpEgressState) (ts_increment : Z) : (Z * Z * Z) * RtpEgressState :=
  ((eg_seq e, eg_timestamp e, eg_ssrc e),
   set_eg_next (wrapping_add 16 (eg_seq e) 1) (wrapping_add 32 (eg_timestamp e) ts_increment) e).

Definition next_with_marker (e : RtpEgressState) (ts_increment now : Z) : (Z * Z * Z * bool) * RtpEgressState :=
  let marker :=
    match eg_last_send e with
    | None => true
    | Some prev => TALKSPURT_GAP_THRESHOLD <=? duration_since now prev
    end in
  let '(n, e) := next (set_eg_last_send (Some now) e) ts_increment in ((n, marker), e).

(** [f64::round]: half away from zero. *)
Definition f64_round (x : f64) : f64 :=
  match x with
  | S754_finite s m e =>
      if e <? 0 then
        let q := Z.shiftr (Zpos m + Z.shiftl 1 (- e - 1)) (- e) in
        f64_of_Z (if s then - q else q)
      else x
  | _ => x
  end.
(** [f64::max]; a NaN gives the other value. *)
Definition f64_max (x y : f64) : f64 :=
  match x with S754_nan => y | _ => if SFltb x y then y else x end.

Definition rtp_timestamp_at (e : RtpEgressState) (now_ntp : NtpTimestamp) : option Z :=
  '(anchor_ntp, anchor_rtp) ← anchor e;
  let elapsed_seconds := f64_max (elapsed_from now_ntp anchor_ntp) (S754_zero false) in
  let elapsed_samples := f64_round (f64_mul elapsed_seconds (f64_of_Z (sample_rate_hz e))) in
  let increment := Z.land (f64_to_u64 elapsed_samples) 0xFFFFFFFF in
  Some (wrapping_add 32 anchor_rtp increment).

(** The loop that draws until the value is new, on the values it draws. *)
Fixpoint redraw (old first : Z) (draws : list Z) : Z :=
  if first =? old then match draws with [] => first | d :: draws => redraw old d draws end else first.

Definition check_and_rotate_on_collision (e : RtpEgressState) (ingress_ssrc first : Z) (draws : list Z) :
    bool * RtpEgressState :=
  if negb (ingress_ssrc =? eg_ssrc e) then (false, e) else (true, set_eg_ssrc (redraw (eg_ssrc e) first draws) e).

(** [ntp] is the wall clock. *)
Definition record_sent (e : RtpEgressState) (payload_len sent_rtp_ts : Z) (ntp : NtpTimestamp) : RtpEgressState :=
  set_eg_sent (saturating_add 64 (eg_packets e) 1) (saturating_add 64 (eg_octets e) payload_len)
    (match anchor e with None => Some (ntp, sent_rtp_ts) | a => a end) e.

Definition build_sr (e : RtpEgressState) (now_ntp : NtpTimestamp) : SenderReport :=
  mkSR (eg_ssrc e) now_ntp (default (eg_timestamp e) (rtp_timestamp_at e now_ntp)) (wrap 32 (eg_packets e))
    (wrap 32 (eg_octets e)) [].

(** One turn of the task of the reports: the datagram, if the peer is known. *)
Definition rtcp_sr_tick (e : RtpEgressState) (now_ntp : NtpTimestamp) (dest : option SocketAddr) :
    option (list Z * SocketAddr) :=
  d ← dest; Some (sr_to_bytes (build_sr e now_ntp), d).

(** ** The samples that wait for a whole frame *)

(** [OpusToPcmuAccum] is its buffer. *)
Definition OpusToPcmuAccum : Type := list Z.

(** ** A direction of a bridge *)

(** What a direction shares with the rest of the bridge ([BridgeState] and the
    [LegState]s of its two ends), and what its task keeps for itself. *)
Record Relay (L : Type) := mkRelay {
  egress : RtpEgressState; from_peer : option SocketAddr; to_peer : option SocketAddr;
  packet_count : Z; transcode_errors : Z; metrics : option Metrics; local : L }.
Arguments mkRelay {L}. Arguments egress {L}. Arguments from_peer {L}. Arguments to_peer {L}.
Arguments packet_count {L}. Arguments transcode_errors {L}. Arguments metrics {L}. Arguments local {L}.

(** A direction at the start of a call. *)
Definition relay_start {L} (eg : RtpEgressState) (from to : option SocketAddr) (m : option Metrics) (l : L) : Relay L :=
  mkRelay eg from to 0 0 m l.

Definition set_egress {L} v (r : Relay L) :=
  mkRelay v (from_peer r) (to_peer r) (packet_count r) (transcode_errors r) (metrics r) (local r).
Definition set_from_peer {L} v (r : Relay L) :=
  mkRelay (egress r) v (to_peer r) (packet_count r) (transcode_errors r) (metrics r) (local r).
Definition set_to_peer {L} v (r : Relay L) :=
  mkRelay (egress r) (from_peer r) v (packet_count r) (transcode_errors r) (metrics r) (local r).
Definition set_local {L} (v : L) (r : Relay L) :=
  mkRelay (egress r) (from_peer r) (to_peer r) (packet_count r) (transcode_errors r) (metrics r) v.
Definition set_metrics {L} v (r : Relay L) :=
  mkRelay (egress r) (from_peer r) (to_peer r) (packet_count r) (transcode_errors r) v (local r).
Definition count_packet {L} (r : Relay L) :=
  mkRelay (egress r) (from_peer r) (to_peer r) (wrapping_add 64 (packet_count r) 1) (transcode_errors r) (metrics r)
    (local r).
Definition count_error {L} (r : Relay L) :=
  mkRelay (egress r) (from_peer r) (to_peer r) (packet_count r) (wrapping_add 64 (transcode_errors r) 1) (metrics r)
    (local r).

(** A packet that was made for the other leg: the arrived packet it comes from,
    when and to whom it was sent, and whether the system took it. *)
Record Emission := mkEm { em_in : Z; em_out : RtpPacket; em_time : Z; em_dest : SocketAddr; em_ok : bool }.

(** What the surroundings of one send give: the clocks before and after it, and
    whether it worked. *)
Record SendEnv := mkSend { se_now : Z; se_ntp : NtpTimestamp; se_ok : bool }.

(** A datagram that arrives: the peer is learned, the packet checked and its
    source compared with ours. What is kept is returned. [first] and [draws] are
    the random numbers for a new source. *)
Definition arrive {L} (wanted : RtpPacket -> bool) (r : Relay L) (data : list Z) (src : SocketAddr)
    (first : Z) (draws : list Z) : option RtpPacket * Relay L :=
  let r := set_from_peer (Some src) r in
  match from_bytes (take RECV_BUF_SIZE data) with
  | Ok pkt =>
      if wanted pkt then
        let '(hit, eg) := check_and_rotate_on_collision (egress r) (ssrc pkt) first draws in
        let r := set_egress eg r in
        let r := if hit then set_metrics ((fun m => add_ssrc_collision_detected m 1) <$> metrics r) r else r in
        (Some pkt, r)
      else (None, count_error r)
  | _ => (None, count_error r)
  end.

(** The check of a packet from the NGN: 20 ms of mu-law. *)
Definition ngn_wanted (pkt : RtpPacket) : bool :=
  (payload_type pkt =? PAYLOAD_TYPE_ULAW) && (Z.of_nat (length (payload pkt)) =? SAMPLES_PER_FRAME).
Definition web_wanted (opus_pt : Z) (pkt : RtpPacket) : bool := payload_type pkt =? opus_pt.

(** One packet is numbered, sent, and counted if the send worked. *)
Definition emit_packet {L} (add : Metrics -> Z -> Metrics) (pt inc ingress : Z) (payload : list Z) (dest : SocketAddr)
    (env : SendEnv) (r : Relay L) : Emission * Relay L :=
  let '((seq, ts, sr, mk), eg) := next_with_marker (egress r) inc (se_now env) in
  let r := set_egress eg r in
  let out := mkRtp pt mk seq ts sr payload in
  let em := mkEm ingress out (se_now env) dest (se_ok env) in
  if se_ok env then
    let r := set_egress (record_sent (egress r) (Z.of_nat (length payload)) ts (se_ntp env)) r in
    (em, set_metrics ((fun m => add m 1) <$> metrics r) (count_packet r))
  else (em, r).

(** [for ulaw in ulaw_chunks]: it stops at a send that fails. *)
Fixpoint send_chunks {L} (ingress : Z) (dest : SocketAddr) (env : nat -> SendEnv) (i : nat) (chunks : list (list Z))
    (r : Relay L) : list Emission * Relay L :=
  match chunks with
  | [] => ([], r)
  | ulaw :: chunks =>
      let '(em, r) := emit_packet add_rtp_ext_to_ngn PAYLOAD_TYPE_ULAW SAMPLES_PER_FRAME ingress ulaw dest (env i) r in
      if se_ok (env i) then let '(ems, r) := send_chunks ingress dest env (S i) chunks r in (em :: ems, r)
      else ([em], r)
  end.

Section bridges.
Context (lib : CodecLib).

(** [OpusToPcmuAccum::push]: whole frames are taken from the front of the
    buffer; a frame that fails is lost, with the chunks before it. The fuel is the
    length of the buffer. *)
Fixpoint accum_loop (fuel : nat) (buf : OpusToPcmuAccum) (down : Resampler lib) :
    outcome CodecError (list (list Z)) * OpusToPcmuAccum * Resampler lib :=
  if (length buf <? WB_FRAME_SAMPLES)%nat then (Ok [], buf, down)
  else
    match fuel with
    | O => (Ok [], buf, down)
    | S fuel =>
        let frame := Codec.mkFrame Codec.OPUS_SAMPLE_RATE (take WB_FRAME_SAMPLES buf) in
        let buf := drop WB_FRAME_SAMPLES buf in
        match downsample lib down frame with
        | (Ok nb, down) =>
            if negb (length (samples nb) =? NB_FRAME_SAMPLES)%nat then (Err (WrongLength (length (samples nb))), buf, down)
            else
              let ulaw := map encode_ulaw (samples nb) in
              let '(res, buf, down) := accum_loop fuel buf down in
              (chunks ← res; Ok (ulaw :: chunks), buf, down)
        | (Err e, down) => (Err e, buf, down)
        | (Panic, down) => (Panic, buf, down)
        end
    end.
Definition accum_push (buf : OpusToPcmuAccum) (decoded_wb : list Z) (down : Resampler lib) :=
  accum_loop (length (buf ++ decoded_wb)) (buf ++ decoded_wb) down.

(** [upsampler.process] and [encoder.encode] on a mu-law payload. *)
Definition ulaw_to_opus (up : Resampler lib) (enc : Encoder lib) (ulaw : list Z) :
    outcome CodecError (list Z) * Resampler lib * Encoder lib :=
  let nb := Codec.mkFrame Codec.NARROW_BAND_RATE (map decode_ulaw ulaw) in
  match upsample lib up nb with
  | (Ok wb, up) => let '(res, enc) := encode lib enc wb in (res, up, enc)
  | (Err e, up) => (Err e, up, enc)
  | (Panic, up) => (Panic, up, enc)
  end.

(** ** [ngn_to_web_loop] *)

Record N2W := mkN2W { nw_jitter : JitterBuffer; nw_up : Resampler lib; nw_enc : Encoder lib }.

Inductive bridge_event :=
  | BvRecv (data : list Z) (src : SocketAddr) (now first : Z) (draws : list Z)
  | BvTick (env : nat -> SendEnv)
  (** The other direction learns where our packets go. *)
  | BvPeer (src : SocketAddr).

Definition n2w_recv (r : Relay N2W) data src now first draws : Relay N2W :=
  let '(o, r) := arrive ngn_wanted r data src first draws in
  match o with
  | Some pkt => set_local (mkN2W (push (nw_jitter (local r)) pkt now) (nw_up (local r)) (nw_enc (local r))) r
  | None => r
  end.

Definition n2w_tick (opus_pt : Z) (r : Relay N2W) (env : SendEnv) : list Emission * Relay N2W :=
  let '(o, jb) := pull (nw_jitter (local r)) in
  match o with
  | None => ([], set_local (mkN2W jb (nw_up (local r)) (nw_enc (local r))) r)
  | Some pkt =>
      let '(res, up, enc) := ulaw_to_opus (nw_up (local r)) (nw_enc (local r)) (payload pkt) in
      let r := set_local (mkN2W jb up enc) r in
      match res with
      | Ok opus_payload =>
          match to_peer r with
          | None => ([], r)
          | Some dest =>
              let '(_, eg) := note_ingress_seq (egress r) (sequence pkt) in
              let '(em, r) :=
                emit_packet add_rtp_ngn_to_ext (Z.land opus_pt 0x7f) (Z.of_nat OPUS_FRAME_SAMPLES) (sequence pkt) opus_payload
                  dest env (set_egress eg r) in
              ([em], r)
          end
      | _ => ([], count_error r)
      end
  end.

Definition n2w_step (opus_pt : Z) (r : Relay N2W) (ev : bridge_event) : list Emission * Relay N2W :=
  match ev with
  | BvRecv data src now first draws => ([], n2w_recv r data src now first draws)
  | BvTick env => n2w_tick opus_pt r (env 0%nat)
  | BvPeer src => ([], set_to_peer (Some src) r)
  end.

(** ** [web_to_ngn_loop] *)

Record W2N := mkW2N {
  wn_jitter : JitterBuffer; wn_down : Resampler lib; wn_dec : Decoder lib; wn_accum : OpusToPcmuAccum }.

Definition w2n_recv (opus_pt : Z) (r : Relay W2N) data src now first draws : Relay W2N :=
  let '(o, r) := arrive (web_wanted opus_pt) r data src first draws in
  match o with
  | Some pkt =>
      let l := local r in set_local (mkW2N (push (wn_jitter l) pkt now) (wn_down l) (wn_dec l) (wn_accum l)) r
  | None => r
  end.

Definition w2n_tick (r : Relay W2N) (env : nat -> SendEnv) : list Emission * Relay W2N :=
  let l := local r in
  let '(o, jb) := pull (wn_jitter l) in
  match o with
  | None => ([], set_local (mkW2N jb (wn_down l) (wn_dec l) (wn_accum l)) r)
  | Some pkt =>
      let '(res, dec) := decode lib (wn_dec l) (payload pkt) in
      let r := set_local (mkW2N jb (wn_down l) dec (wn_accum l)) r in
      match res with
      | Ok wb =>
          if bool_decide (samples wb = []) then ([], count_error r)
          else
            let '(_, eg) := note_ingress_seq (egress r) (sequence pkt) in
            let r := set_egress eg r in
            let '(chunks, accum, down) := accum_push (wn_accum l) (samples wb) (wn_down l) in
            let r := set_local (mkW2N jb down dec accum) r in
            match chunks with
            | Ok [] => ([], r)
            | Ok chunks =>
                match to_peer r with
                | None => ([], r)
                | Some dest => send_chunks (sequence pkt) dest env 0 chunks r
                end
            | _ => ([], count_error r)
            end
      | _ => ([], count_error r)
      end
  end.

Definition w2n_step (opus_pt : Z) (r : Relay W2N) (ev : bridge_event) : list Emission * Relay W2N :=
  match ev with
  | BvRecv data src now first draws => ([], w2n_recv opus_pt r data src now first draws)
  | BvTick env => w2n_tick r env
  | BvPeer src => ([], set_to_peer (Some src) r)
  end.

(** ** The bridge to a browser: [ngn_to_peer_loop] and [peer_to_ngn_loop]

    Here a packet is converted as it arrives, without a jitter buffer; the peer
    session numbers what it sends itself, and takes frames. Without a resampler
    and a coder the mu-law payload goes through as it is. *)

Record MediaFrame := mkMedia { mf_pt : Z; mf_rtp_time : Z; mf_payload : list Z }.

Definition N2P : Type := option (Resampler lib * Encoder lib).

(** One datagram: the frame given to the peer session, and whether the loop goes
    on; [ok] is whether the session takes it. *)
Definition n2p_step (opus_pt : Z) (r : Relay N2P) data src first draws (ok : bool) : option MediaFrame * bool * Relay N2P :=
  let '(o, r) := arrive ngn_wanted r data src first draws in
  match o with
  | None => (None, true, r)
  | Some pkt =>
      let '(res, r) :=
        match local r with
        | None => (Ok (PAYLOAD_TYPE_ULAW, payload pkt), r)
        | Some (up, enc) =>
            let '(res, up, enc) := ulaw_to_opus up enc (payload pkt) in
            (p ← res; Ok (opus_pt, p), set_local (Some (up, enc)) r)
        end in
      match res with
      | Ok (pt_out, payload_out) =>
          let ts_increment := match local r with None => SAMPLES_PER_FRAME | Some _ => Z.of_nat OPUS_FRAME_SAMPLES end in
          let '(_, eg) := note_ingress_seq (egress r) (sequence pkt) in
          let '((_, ts, _), eg) := next eg ts_increment in
          let r := set_egress eg r in
          let frame := mkMedia pt_out ts payload_out in
          if ok then
            (Some frame, true, set_metrics ((fun m => add_rtp_ngn_to_ext m 1) <$> metrics r) (count_packet r))
          else (Some frame, false, r)
      | _ => (None, true, count_error r)
      end
  end.

Record P2N := mkP2N { pn_codec : option (Resampler lib * Decoder lib); pn_accum : OpusToPcmuAccum }.

(** The mu-law frames a media frame completes. *)
Definition peer_chunks (l : P2N) (payload : list Z) : outcome CodecError (list (list Z)) * P2N :=
  match pn_codec l with
  | None => (Ok [payload], l)
  | Some (down, dec) =>
      match decode lib dec payload with
      | (Ok wb, dec) =>
          if bool_decide (samples wb = []) then (Err LibraryError, mkP2N (Some (down, dec)) (pn_accum l))
          else
            let '(chunks, accum, down) := accum_push (pn_accum l) (samples wb) down in
            (chunks, mkP2N (Some (down, dec)) accum)
      | (Err e, dec) => (Err e, mkP2N (Some (down, dec)) (pn_accum l))
      | (Panic, dec) => (Panic, mkP2N (Some (down, dec)) (pn_accum l))
      end
  end.

Definition p2n_step (opus_pt : Z) (r : Relay P2N) (frame : MediaFrame) (env : nat -> SendEnv) :
    list Emission * Relay P2N :=
  let expected_pt := match pn_codec (local r) with None => PAYLOAD_TYPE_ULAW | Some _ => opus_pt end in
  if negb (mf_pt frame =? expected_pt) then ([], count_error r)
  else
    let '(chunks, l) := peer_chunks (local r) (mf_payload frame) in
    let r := set_local l r in
    match chunks with
    | Ok [] => ([], r)
    | Ok chunks => match to_peer r with None => ([], r) | Some dest => send_chunks 0 dest env 0 chunks r end
    | _ => ([], count_error r)
    end.
End bridges.

(** ** Does an offer carry Opus? *)

Definition opus_rtpmap (line : string) : option Z :=
  rest ← strip_prefix "a=rtpmap:" (trim line);
  '(pt_str, codec_part) ← split_once " " rest;
  let codec := to_ascii_lowercase (default "" (head (split_on "/" codec_part))) in
  if String.eqb codec "opus" then parse_uint 8 pt_str else None.

(** The lines end with a line feed; a carriage return before it is trimmed with
    the rest. *)
Definition find_opus_payload_type (sdp : string) : option Z :=
  if is_utf8 sdp then head (omap opus_rtpmap (split_on "010" sdp)) else None.
Definition sdp_uses_opus (sdp : string) : bool := bool_decide (is_Some (find_opus_payload_type sdp)).
