(* ===== verification/BridgeStream.v ===== *)
(** What the bridges with conversion promise: the order and the numbers of the
    stream they make, the samples they keep, and the reports they send. *)
From S2P Require Import Prelude F64 Codec Bytes NetAddr RtpPacket Rtcp Ulaw Jitter RtpSession Observability Transcoder.

(** ** The numbers of one stream *)

(** What numbers the next packet: the next sequence number and timestamp, when
    the last packet was sent, and the packet it came from. *)
Definition Numbers : Type := Z * Z * option Z * option Z.
Definition numbers (e : RtpEgressState) : Numbers := (eg_seq e, eg_timestamp e, eg_last_send e, last_ingress_seq e).

Definition numbered_by (n : Numbers) (em : Emission) : Prop :=
  let '(q, ts, prev, ingress) := n in
  sequence (em_out em) = wrapping_add 16 q (ingress_gap ingress (em_in em) - 1) /\
  timestamp (em_out em) = ts /\
  marker (em_out em) =
    (match prev with
     | None => true
     | Some p => Transcoder.TALKSPURT_GAP_THRESHOLD <=? duration_since (em_time em) p
     end).
Definition numbers_after (inc : Z) (em : Emission) : Numbers :=
  (wrapping_add 16 (sequence (em_out em)) 1, wrapping_add 32 (timestamp (em_out em)) inc, Some (em_time em), Some (em_in em)).

(** A sequence of packets numbered from one state to another. *)
Fixpoint numbered (inc : Z) (n : Numbers) (ems : list Emission) (n' : Numbers) : Prop :=
  match ems with
  | [] => n' = n
  | em :: ems => numbered_by n em /\ numbered inc (numbers_after inc em) ems n'
  end.

Lemma numbered_app inc n ems n1 ems' n2 :
  numbered inc n ems n1 -> numbered inc n1 ems' n2 -> numbered inc n (ems ++ ems') n2.
Proof.
  revert n. induction ems as [|em ems IH]; intros n H1 H2; cbn [numbered app] in *; [by subst|].
  destruct H1 as [Hn H1]. split; [done|]. by apply IH.
Qed.

(** [b] is numbered as the packet after [a] in a stream of [inc] samples a packet. *)
Definition follows (inc : Z) (a b : Emission) : Prop :=
  sequence (em_out b) = wrapping_add 16 (sequence (em_out a)) (ingress_gap (Some (em_in a)) (em_in b)) /\
  timestamp (em_out b) = wrapping_add 32 (timestamp (em_out a)) inc /\
  marker (em_out b) = (Transcoder.TALKSPURT_GAP_THRESHOLD <=? duration_since (em_time b) (em_time a)).

Lemma ingress_gap_range last q : 1 <= ingress_gap last q <= 100.
Proof.
  unfold ingress_gap. destruct last as [prev|]; [|lia]. change MAX_INGRESS_GAP with 100.
  assert (0 <= wrapping_sub 16 q prev) by (unfold wrapping_sub; apply wrap_range; lia).
  destruct (Z.eqb_spec (wrapping_sub 16 q prev) 0); [lia|].
  destruct (Z.ltb_spec 100 (wrapping_sub 16 q prev)); lia.
Qed.

(** A gap of at most 100 packets is seen as it is. *)
Lemma ingress_gap_exact k k' : k < k' <= k + 100 -> ingress_gap (Some (k mod 65536)) (k' mod 65536) = k' - k.
Proof.
  intros H. unfold ingress_gap. change MAX_INGRESS_GAP with 100.
  assert (wrapping_sub 16 (k' mod 65536) (k mod 65536) = k' - k) as ->.
  { unfold wrapping_sub, wrap. change (2 ^ 16) with 65536. rewrite <- Zminus_mod. apply Z.mod_small. lia. }
  destruct (Z.eqb_spec (k' - k) 0); [lia|]. destruct (Z.ltb_spec 100 (k' - k)); lia.
Qed.

Lemma wrapping_add_twice w a b c : wrapping_add w (wrapping_add w a b) c = wrapping_add w a (b + c).
Proof. unfold wrapping_add, wrap. by rewrite Zplus_mod_idemp_l, Z.add_assoc. Qed.

Lemma extra_skip gap : 1 <= gap <= 100 -> wrap 16 (saturating_sub gap 1) = gap - 1.
Proof. intros. unfold saturating_sub. rewrite Z.max_l by lia. apply wrap_small. width. Qed.

(** ** One packet *)

Lemma note_ingress_spec e q :
  (note_ingress_seq e q).2 =
  set_eg_next (wrapping_add 16 (eg_seq e) (ingress_gap (last_ingress_seq e) q - 1)) (eg_timestamp e)
    (set_eg_ingress (Some q) e).
Proof.
  unfold note_ingress_seq. cbn [snd eg_seq eg_timestamp set_eg_ingress].
  by rewrite extra_skip by apply ingress_gap_range.
Qed.

Section emit.
Context {L : Type} (add : Metrics -> Z -> Metrics) (pt inc ingress : Z) (pl : list Z) (dest : SocketAddr) (env : SendEnv)
  (r : Relay L).
Let e := egress r.
Let em := (emit_packet add pt inc ingress pl dest env r).1.
Let r' := (emit_packet add pt inc ingress pl dest env r).2.

(** The packet that is made, and the egress state, whether or not the send works. *)
Lemma emit_packet_spec :
  em = mkEm ingress
         (mkRtp pt (match eg_last_send e with
                    | None => true
                    | Some p => Transcoder.TALKSPURT_GAP_THRESHOLD <=? duration_since (se_now env) p
                    end) (eg_seq e) (eg_timestamp e) (eg_ssrc e) pl) (se_now env) dest (se_ok env) /\
  local r' = local r /\ to_peer r' = to_peer r /\ from_peer r' = from_peer r /\
  transcode_errors r' = transcode_errors r /\
  eg_seq (egress r') = wrapping_add 16 (eg_seq e) 1 /\ eg_timestamp (egress r') = wrapping_add 32 (eg_timestamp e) inc /\
  eg_last_send (egress r') = Some (se_now env) /\ last_ingress_seq (egress r') = last_ingress_seq e /\
  eg_ssrc (egress r') = eg_ssrc e /\
  eg_packets (egress r') = (if se_ok env then saturating_add 64 (eg_packets e) 1 else eg_packets e) /\
  eg_octets (egress r') = (if se_ok env then saturating_add 64 (eg_octets e) (Z.of_nat (length pl)) else eg_octets e) /\
  anchor (egress r') =
    (if se_ok env then match anchor e with None => Some (se_ntp env, eg_timestamp e) | a => a end else anchor e).
Proof.
  subst em r' e. unfold emit_packet, next_with_marker, next. cbn [egress set_egress].
  by destruct (se_ok env); cbn; destruct (eg_last_send (egress r)).
Qed.
End emit.

Lemma numbered_follows inc a b : numbered_by (numbers_after inc a) b -> follows inc a b.
Proof.
  intros (Hs & Ht & Hm). split; [|done]. rewrite Hs, wrapping_add_twice. f_equal. lia.
Qed.

(** Counting the packets the system took. *)
Definition count_sent (n : Z) (em : Emission) : Z := if em_ok em then saturating_add 64 n 1 else n.
Definition count_octets (n : Z) (em : Emission) : Z :=
  if em_ok em then saturating_add 64 n (Z.of_nat (length (payload (em_out em)))) else n.

(** One noted packet: its numbers, its source, and the accounts. *)
Lemma noted_packet {L} add pt inc q pl dest env (r : Relay L) :
  let '(em, r') := emit_packet add pt inc q pl dest env (set_egress (note_ingress_seq (egress r) q).2 r) in
  em_in em = q /\ payload_type (em_out em) = pt /\ payload (em_out em) = pl /\ ssrc (em_out em) = eg_ssrc (egress r) /\
  numbered inc (numbers (egress r)) [em] (numbers (egress r')) /\
  local r' = local r /\ eg_ssrc (egress r') = eg_ssrc (egress r) /\
  eg_packets (egress r') = count_sent (eg_packets (egress r)) em /\
  eg_octets (egress r') = count_octets (eg_octets (egress r)) em.
Proof.
  destruct (emit_packet_spec add pt inc q pl dest env (set_egress (note_ingress_seq (egress r) q).2 r))
    as (He & Hl & _ & _ & _ & H1 & H2 & H3 & H4 & H5 & H6 & H7 & _).
  destruct (emit_packet _ _ _ _ _ _ _ _) as [em r']. cbn [fst snd egress set_egress local] in *. subst em.
  cbn [em_in em_out payload_type payload ssrc]. rewrite Hl, H5, H6, H7.
  unfold numbers at 2. rewrite H1, H2, H3, H4, note_ingress_spec. by split_and!.
Qed.

(** ** Packets that arrive *)

Ltac relay_eval :=
  cbn [egress local to_peer from_peer packet_count set_egress set_from_peer set_metrics set_local count_error count_packet].

Lemma arrive_keeps {L} wanted (r : Relay L) data src first draws :
  let '(o, r') := arrive wanted r data src first draws in
  local r' = local r /\ to_peer r' = to_peer r /\ from_peer r' = Some src /\ packet_count r' = packet_count r /\
  (exists ssrc', egress r' = set_eg_ssrc ssrc' (egress r) /\
     (ssrc' = eg_ssrc (egress r) \/
      exists p, from_bytes (take RECV_BUF_SIZE data) = Ok p /\ ssrc p = eg_ssrc (egress r))) /\
  (forall p, o = Some p -> wanted p = true /\ from_bytes (take RECV_BUF_SIZE data) = Ok p).
Proof.
  unfold arrive. assert (egress r = set_eg_ssrc (eg_ssrc (egress r)) (egress r)) as Hid by (by destruct (egress r)).
  destruct (from_bytes (take RECV_BUF_SIZE data)) as [p | e |] eqn:Hp.
  2, 3: relay_eval; split_and!; try done; by eauto 10.
  destruct (wanted p) eqn:Hw; [|relay_eval; split_and!; try done; by eauto 10].
  unfold check_and_rotate_on_collision. cbn [egress set_from_peer].
  destruct (Z.eqb_spec (ssrc p) (eg_ssrc (egress r))) as [Heq|]; cbn [negb]; relay_eval;
    (split_and!; try done; [eauto 10 | by intros ? [= <-]]).
Qed.

(** The packet of a datagram, if it is one the loop wants. *)
Definition arrived (wanted : RtpPacket -> bool) (data : list Z) : option RtpPacket :=
  match from_bytes (take RECV_BUF_SIZE data) with
  | Ok p => if wanted p then Some p else None
  | _ => None
  end.

Lemma arrive_arrived {L} wanted (r : Relay L) data src first draws :
  (arrive wanted r data src first draws).1 = arrived wanted data.
Proof.
  unfold arrive, arrived. destruct (from_bytes _) as [p| |]; [|done|done].
  destruct (wanted p); [|done]. by destruct (check_and_rotate_on_collision _ _ _ _) as [hit eg].
Qed.

Lemma arrived_sequence data p : bytes_ok data -> from_bytes (take RECV_BUF_SIZE data) = Ok p -> u16 (sequence p).
Proof. intros Hd H. by apply (wire_seq _ _ (from_bytes_sound _ _ (Forall_take _ _ _ Hd) H)). Qed.

(** ** From the NGN to the browser *)

Section stream.
Context (lib : CodecLib) (opus_pt : Z).
Let inc := Z.of_nat OPUS_FRAME_SAMPLES.

Fixpoint n2w_run (r : Relay (N2W lib)) (evs : list bridge_event) : list Emission * Relay (N2W lib) :=
  match evs with
  | [] => ([], r)
  | ev :: evs =>
      let '(ems, r) := n2w_step lib opus_pt r ev in
      let '(ems', r) := n2w_run r evs in (ems ++ ems', r)
  end.

Definition event_ok (ev : bridge_event) : Prop :=
  match ev with BvRecv data _ _ _ _ => bytes_ok data | _ => True end.

(** An event without a packet of our own source. *)
Definition no_collision (sr : Z) (ev : bridge_event) : Prop :=
  match ev with
  | BvRecv data _ _ _ _ => forall p, from_bytes (take RECV_BUF_SIZE data) = Ok p -> ssrc p <> sr
  | _ => True
  end.

(** The packets that arrive, in order. *)
Definition accepted (evs : list bridge_event) : list RtpPacket :=
  omap (fun ev => match ev with BvRecv data _ _ _ _ => arrived ngn_wanted data | _ => None end) evs.

(** The outgoing packet [em] carries the sound of the arrived packet [p]. *)
Definition carries (em : Emission) (p : RtpPacket) : Prop :=
  em_in em = sequence p /\
  exists up enc up' enc', ulaw_to_opus lib up enc (payload p) = (Ok (payload (em_out em)), up', enc').

(** Libraries that convert every packet. *)
Definition converts : Prop :=
  forall up enc p, exists pl up' enc', ulaw_to_opus lib up enc (payload p) = (Ok pl, up', enc').

(** A stretch of the task's life: what the jitter buffer served of it, and the
    packets that came out. *)
Record n2w_served (r : Relay (N2W lib)) (evs : list bridge_event) (ems : list Emission) (r' : Relay (N2W lib)) : Prop := {
  ns_jitter : exists out srcs, served (nw_jitter _ (local r)) (accepted evs) out (nw_jitter _ (local r')) /\
    srcs `sublist_of` out /\ Forall2 carries ems srcs /\
    (is_Some (to_peer r) -> converts -> srcs = out);
  ns_peer : is_Some (to_peer r) -> is_Some (to_peer r');
  ns_numbers : numbered inc (numbers (egress r)) ems (numbers (egress r'));
  ns_pt : Forall (fun em => payload_type (em_out em) = Z.land opus_pt 0x7f) ems;
  ns_ssrc : Forall (no_collision (eg_ssrc (egress r))) evs ->
    eg_ssrc (egress r') = eg_ssrc (egress r) /\ Forall (fun em => ssrc (em_out em) = eg_ssrc (egress r)) ems;
  ns_packets : eg_packets (egress r') = foldl count_sent (eg_packets (egress r)) ems;
  ns_octets : eg_octets (egress r') = foldl count_octets (eg_octets (egress r)) ems
}.

Lemma n2w_served_trans r evs ems r1 evs' ems' r2 :
  n2w_served r evs ems r1 -> n2w_served r1 evs' ems' r2 -> n2w_served r (evs ++ evs') (ems ++ ems') r2.
Proof.
  intros [(o1 & s1 & Hj1 & Hs1 & Hc1 & Hr1) Hd1 Hn1 Hp1 Hss1 Hpc1 Ho1]
    [(o2 & s2 & Hj2 & Hs2 & Hc2 & Hr2) Hd2 Hn2 Hp2 Hss2 Hpc2 Ho2]. split.
  - exists (o1 ++ o2), (s1 ++ s2). unfold accepted. rewrite omap_app. split_and!.
    + by eapply served_trans.
    + by apply sublist_app.
    + by apply Forall2_app.
    + intros Hto Hc. by rewrite (Hr1 Hto Hc), (Hr2 (Hd1 Hto) Hc).
  - by auto.
  - by eapply numbered_app.
  - by apply Forall_app.
  - intros [H1 H2]%Forall_app. destruct (Hss1 H1) as [E1 F1]. rewrite E1 in Hss2. destruct (Hss2 H2) as [E2 F2].
    split; [done|]. by apply Forall_app.
  - by rewrite foldl_app, <- Hpc1.
  - by rewrite foldl_app, <- Ho1.
Qed.

(** Without an outgoing packet: the buffer may change, and the source; what came
    out of the buffer was lost to a conversion or for want of a destination. *)
Lemma n2w_served_quiet r evs out r' :
  served (nw_jitter _ (local r)) (accepted evs) out (nw_jitter _ (local r')) ->
  (is_Some (to_peer r) -> converts -> out = []) ->
  (is_Some (to_peer r) -> is_Some (to_peer r')) ->
  (exists s, egress r' = set_eg_ssrc s (egress r) /\
     (Forall (no_collision (eg_ssrc (egress r))) evs -> s = eg_ssrc (egress r))) ->
  n2w_served r evs [] r'.
Proof.
  intros Hj Hout Hto (s & He & Hs). split; rewrite ?He; try done.
  - exists out, []. split_and!; [done | apply sublist_nil_l | constructor | symmetry; auto].
  - intros Hno. by split; [apply Hs|].
Qed.

Lemma n2w_step_served r ev : event_ok ev -> 1 <= depth (nw_jitter _ (local r)) -> jb_ok (nw_jitter _ (local r)) ->
  let '(ems, r') := n2w_step lib opus_pt r ev in n2w_served r [ev] ems r'.
Proof.
  intros Hev Hd Hok.
  assert (exists s, egress r = set_eg_ssrc s (egress r) /\ s = eg_ssrc (egress r)) as (s0 & Hid & Hs0)
    by (exists (eg_ssrc (egress r)); by destruct (egress r)).
  destruct ev as [data src now first draws | env | src]; cbn [n2w_step].
  - unfold n2w_recv. pose proof (arrive_keeps ngn_wanted r data src first draws) as H.
    pose proof (arrive_arrived ngn_wanted r data src first draws) as Ha.
    destruct (arrive ngn_wanted r data src first draws) as [o r1]. cbn [fst] in Ha.
    destruct H as (Hl & Hto & _ & _ & (s & He & Hs) & Ho).
    assert (exists s, egress r1 = set_eg_ssrc s (egress r) /\
      (Forall (no_collision (eg_ssrc (egress r))) [BvRecv data src now first draws] -> s = eg_ssrc (egress r))) as Hs'.
    { exists s. split; [done|]. intros [Hno _]%Forall_cons. destruct Hs as [|(p & Hp & Hc)]; [done|].
      exfalso. by apply (Hno p). }
    assert (accepted [BvRecv data src now first draws] = match o with Some p => [p] | None => [] end) as Hacc
      by (unfold accepted; cbn; rewrite <- Ha; by destruct o).
    destruct o as [p|].
    + destruct (Ho p eq_refl) as [_ Hp].
      apply (n2w_served_quiet _ _ []); [| done | cbn [to_peer set_local]; by rewrite Hto | done].
      rewrite Hacc, Hl. apply served_push; [done|]. by eapply arrived_sequence.
    + apply (n2w_served_quiet _ _ []); [rewrite Hacc, Hl; by apply served_refl | done | by rewrite Hto | done].
  - unfold n2w_tick. destruct (pull (nw_jitter _ (local r))) as [o jb] eqn:Hp.
    apply served_pull in Hp; [|done|done].
    destruct o as [p|]; [|by eapply n2w_served_quiet; [exact Hp | | | exists s0]].
    destruct (ulaw_to_opus _ _ _ _) as [[res up] enc] eqn:Hconv.
    destruct res as [pl | e |];
      try (eapply n2w_served_quiet; [exact Hp | | done | by exists s0];
           intros _ Hc; destruct (Hc (nw_up _ (local r)) (nw_enc _ (local r)) p) as (? & ? & ? & Hc'); congruence).
    cbn [to_peer set_local egress].
    destruct (to_peer r) as [dest|] eqn:Hdest;
      [|eapply n2w_served_quiet; [exact Hp | rewrite Hdest; by intros [] | by rewrite Hdest | by exists s0]].
    set (r1 := set_local (mkN2W lib jb up enc) r).
    pose proof (noted_packet add_rtp_ngn_to_ext (Z.land opus_pt 127) inc (sequence p) pl dest (env 0%nat) r1) as H.
    pose proof (emit_packet_spec add_rtp_ngn_to_ext (Z.land opus_pt 127) inc (sequence p) pl dest (env 0%nat)
      (set_egress (note_ingress_seq (egress r1) (sequence p)).2 r1)) as (_ & _ & Hto & _).
    change (egress r1) with (egress r) in H, Hto. destruct (note_ingress_seq (egress r) (sequence p)) as [g eg].
    cbn [snd] in H, Hto. destruct (emit_packet _ _ _ _ _ _ _ _) as [em r2]. cbn [snd] in Hto.
    destruct H as (Hi & Ht & Hpl & Hs & Hn & Hl & Hs' & Hc & Hc'). split; try done.
    + exists [p], [p]. rewrite Hl. split_and!; [done | done | | done]. constructor; [|constructor].
      split; [done|]. rewrite Hpl. by eauto.
    + rewrite Hto. cbn [to_peer set_egress]. done.
    + by constructor.
    + intros _. split; [done|]. by constructor.
  - apply (n2w_served_quiet _ _ []); [by apply served_refl | done | done | by exists s0].
Qed.

Lemma n2w_run_served r evs : Forall event_ok evs -> 1 <= depth (nw_jitter _ (local r)) -> jb_ok (nw_jitter _ (local r)) ->
  let '(ems, r') := n2w_run r evs in n2w_served r evs ems r'.
Proof.
  revert r. induction evs as [|ev evs IH]; intros r Hev Hd Hok.
  { cbn [n2w_run]. apply (n2w_served_quiet _ _ []); [by apply served_refl | done | done |].
    exists (eg_ssrc (egress r)). by destruct (egress r). }
  apply Forall_cons in Hev as [Hev Hevs]. cbn [n2w_run].
  pose proof (n2w_step_served r ev Hev Hd Hok) as H1. destruct (n2w_step lib opus_pt r ev) as [ems r1].
  pose proof H1 as [(o & so & Hj & _) _ _ _ _ _ _].
  specialize (IH r1 Hevs ltac:(by rewrite (sv_depth _ _ _ _ Hj)) (sv_ok _ _ _ _ Hj)). destruct (n2w_run r1 evs) as [ems' r2].
  by apply (n2w_served_trans _ [ev] _ r1).
Qed.
End stream.

Lemma numbered_pairs inc n ems n' i a b :
  numbered inc n ems n' -> ems !! i = Some a -> ems !! S i = Some b -> follows inc a b.
Proof.
  revert n i. induction ems as [|em ems IH]; intros n i H Ha Hb; [done|].
  destruct H as [_ H]. destruct i as [|i]; [|by eapply IH].
  injection Ha as <-. destruct ems as [|em' ems]; [done|]. injection Hb as <-. destruct H as [H _].
  by apply numbered_follows.
Qed.

Lemma sorted_adjacent ks i k k' : StronglySorted Z.lt ks -> ks !! i = Some k -> ks !! S i = Some k' -> k < k'.
Proof.
  revert i. induction ks as [|x ks IH]; intros i Hs Hk Hk'; [done|].
  apply StronglySorted_cons in Hs as [Hlt Hs]. destruct i as [|i]; [|by apply (IH i)].
  injection Hk as <-. rewrite Forall_forall in Hlt. apply Hlt. by apply (list_elem_of_lookup_2 _ 0).
Qed.

(** A part of a list with keys has its keys. *)
Lemma sublist_of_snd {A B} (l' : list B) (kps : list (A * B)) :
  l' `sublist_of` kps.*2 -> exists kps', kps' `sublist_of` kps /\ kps'.*2 = l'.
Proof.
  revert l'. induction kps as [|[k p] kps IH]; intros l' Hsub; cbn [fmap list_fmap snd] in Hsub.
  { apply sublist_nil_r in Hsub as ->. by exists []. }
  apply sublist_cons_r in Hsub as [Hsub | (l0 & -> & Hsub)]; destruct (IH _ Hsub) as (kps' & Hs & <-).
  - exists kps'. split; [by apply sublist_cons | done].
  - exists ((k, p) :: kps'). split; [by apply sublist_skip | done].
Qed.

Lemma sublist_whole {A} (l k : list A) : l `sublist_of` k -> (length k <= length l)%nat -> l = k.
Proof.
  induction 1 as [| x l k _ IH | x l k Hsub _]; cbn [length]; intros Hl; [done | f_equal; apply IH; lia |].
  apply sublist_length in Hsub. lia.
Qed.

Lemma StronglySorted_sublist (ks ks' : list Z) : ks' `sublist_of` ks -> StronglySorted Z.lt ks -> StronglySorted Z.lt ks'.
Proof.
  induction 1 as [| k ks' ks Hsub IH | k ks' ks _ IH]; [done | | ]; intros [Hf Hs]%StronglySorted_cons.
  - constructor; [by apply IH|]. rewrite Forall_forall in Hf |- *. intros x Hx. apply Hf. by eapply elem_of_sublist.
  - by apply IH.
Qed.

(** ** Properties *)


(** Libraries that answer the same to everything. *)
Definition sample_lib : CodecLib :=
  mkLib unit unit unit (fun e _ _ => (Some ([1; 2; 3], 2%nat), e)) (fun _ _ => Some 960%nat)
    (fun d _ n => (Some (replicate n 5, n), d)) (fun r _ => (Some [], r)).
Definition sample_data (q : Z) : list Z   := RtpPacket.to_bytes (mkRtp 0 false q 0 7 (replicate 160 255)).
Lemma sample_bytes q : bytes_ok (sample_data q).
Proof.
  unfold sample_data, RtpPacket.to_bytes. cbn [marker payload_type].
  repeat apply Forall_app_2; try apply be_bytes_ok; try (apply Forall_replicate; width);
    (apply Forall_cons; split; [vm_compute; split; [discriminate | reflexivity] | by apply Forall_nil]).
Qed.
Definition sample_arrival (q : Z) : bridge_event :=
  BvRecv (sample_data q) (mkAddr (V4 10 0 0 1) 5004) 0 1 [].
Definition sample_tick (ms : Z) : bridge_event := BvTick (fun _ => mkSend (from_millis ms) (mkNtp 0 0) true).
(** Packet 0 comes before packet 65535, and packet 1 never. *)
Definition sample_events : list bridge_event :=
  [sample_arrival 0; sample_arrival 65535; BvPeer (mkAddr (V4 10 0 0 2) 6000); sample_tick 0; sample_tick 20;
   sample_arrival 2; sample_arrival 3; sample_tick 60; sample_tick 80].


(** ** Whole frames out of any decoded lengths *)

Section accum.
Context (lib : CodecLib).

(** The whole frames at the front of a buffer, converted one by one. *)
Inductive takes : OpusToPcmuAccum -> Resampler lib -> list (list Z) -> OpusToPcmuAccum -> Resampler lib -> Prop :=
  | takes_none buf down : takes buf down [] buf down
  | takes_frame frame buf down nb down1 chunks buf' down' :
      length frame = WB_FRAME_SAMPLES ->
      downsample lib down (Codec.mkFrame Codec.OPUS_SAMPLE_RATE frame) = (Ok nb, down1) ->
      length (samples nb) = NB_FRAME_SAMPLES ->
      takes buf down1 chunks buf' down' ->
      takes (frame ++ buf) down (map encode_ulaw (samples nb) :: chunks) buf' down'.

Lemma takes_app buf down chunks buf' down' more :
  takes buf down chunks buf' down' -> takes (buf ++ more) down chunks (buf' ++ more) down'.
Proof. induction 1; [constructor|]. rewrite <- app_assoc. by econstructor. Qed.

Lemma takes_trans buf down c1 buf1 down1 c2 buf2 down2 :
  takes buf down c1 buf1 down1 -> takes buf1 down1 c2 buf2 down2 -> takes buf down (c1 ++ c2) buf2 down2.
Proof. intros T1 T2. induction T1; [done|]. cbn [app]. econstructor; eauto. Qed.

Lemma takes_lengths buf down chunks buf' down' : takes buf down chunks buf' down' ->
  Forall (fun c => length c = 160%nat) chunks /\ (length buf = 960 * length chunks + length buf')%nat /\
  exists front, buf = front ++ buf'.
Proof.
  induction 1 as [| frame buf down nb down1 chunks buf' down' Hl _ Hn _ (IH1 & IH2 & front & IH3)].
  { split_and!; [done | cbn; lia | by exists []]. }
  split_and!; [constructor; [by rewrite length_map|done] | rewrite length_app, Hl, IH2; unfold WB_FRAME_SAMPLES; cbn [length]; lia |].
  exists (frame ++ front). by rewrite IH3, app_assoc.
Qed.

(** The loop takes all the whole frames, whatever the fuel above the length. *)
Lemma accum_loop_takes n buf down chunks buf' down' :
  (length buf <= n)%nat ->
  accum_loop lib n buf down = (Ok chunks, buf', down') <->
  takes buf down chunks buf' down' /\ (length buf' < WB_FRAME_SAMPLES)%nat.
Proof.
  revert buf down chunks. induction n as [|n IH]; intros buf down chunks Hn; cbn [accum_loop];
    destruct (Nat.ltb_spec (length buf) WB_FRAME_SAMPLES) as [Hlt|Hge].
  1, 3: split; [intros [= <- <- <-]; split; [constructor|done]|]; intros [H _]; inv H; [done|];
    rewrite length_app in Hlt; lia.
  { unfold WB_FRAME_SAMPLES in Hge. lia. }
  assert (length (take WB_FRAME_SAMPLES buf) = WB_FRAME_SAMPLES) as Hf by (rewrite length_take; lia).
  assert (length (drop WB_FRAME_SAMPLES buf) <= n)%nat as Hd.
  { rewrite length_drop. unfold WB_FRAME_SAMPLES in *. lia. }
  split.
  - destruct (downsample lib down _) as [[nb | e |] down1] eqn:Hr; try done.
    destruct (Nat.eqb_spec (length (samples nb)) NB_FRAME_SAMPLES) as [Hnb|]; [|done]. cbn [negb].
    destruct (accum_loop lib n _ down1) as [[[cs | e |] b] d] eqn:Hl; try done. cbn [mbind outcome_bind].
    intros [= <- <- <-]. apply IH in Hl as [Ht Hlt]; [|done]. split; [|done].
    rewrite <- (take_drop WB_FRAME_SAMPLES buf). by econstructor.
  - intros [H Hlt]. inv H; [lia|].
    match goal with Hfr : length frame = WB_FRAME_SAMPLES |- _ => rename Hfr into Hframe end.
    rewrite <- Hframe, take_app_length, drop_app_length in *.
    rewrite Hframe in *. rename select (downsample _ _ _ = _) into Hr. rewrite Hr.
    rename select (length (samples nb) = _) into Hnb. rewrite Hnb, Nat.eqb_refl. cbn [negb].
    rename select (takes _ _ _ _ _) into Ht.
    by rewrite (proj2 (IH _ _ _ Hd) (conj Ht Hlt)).
Qed.

Lemma accum_push_takes buf wb down chunks buf' down' :
  accum_push lib buf wb down = (Ok chunks, buf', down') <->
  takes (buf ++ wb) down chunks buf' down' /\ (length buf' < WB_FRAME_SAMPLES)%nat.
Proof. by apply accum_loop_takes. Qed.

(** The front of a buffer is taken alike whether or not more follows. *)
Lemma takes_front n buf down more chunks buf' down' :
  (length buf <= n)%nat -> takes (buf ++ more) down chunks buf' down' -> (length buf' < WB_FRAME_SAMPLES)%nat ->
  exists c1 buf1 down1 c2, takes buf down c1 buf1 down1 /\ (length buf1 < WB_FRAME_SAMPLES)%nat /\
    takes (buf1 ++ more) down1 c2 buf' down' /\ chunks = c1 ++ c2.
Proof.
  revert buf down chunks. induction n as [|n IH]; intros buf down chunks Hn Ht Hlt;
    (destruct (decide (length buf < WB_FRAME_SAMPLES)%nat) as [Hs|Hs];
     [exists [], buf, down, chunks; split_and!; [constructor | done | done | done]|]);
    unfold WB_FRAME_SAMPLES in Hs, Hlt; [lia|].
  inversion Ht as [x1 x2 E1 E2 E3 E4 E5 | frame rest x nb down1 cs b' d' Hf Hr Hnb Ht' E1 E2 E3 E4 E5]; subst.
  { rewrite length_app in Hlt. lia. }
  unfold WB_FRAME_SAMPLES in Hf.
  assert (frame = take 960 buf /\ rest = drop 960 buf ++ more) as [-> ->].
  { rewrite <- (take_drop 960 buf) in E1 at 1. rewrite <- app_assoc in E1.
    apply app_inj_1 in E1 as [-> ->]; [done|]. rewrite length_take. lia. }
  destruct (IH (drop 960 buf) down1 cs) as (c1 & b1 & d1 & c2 & T1 & L1 & T2 & ->); [rewrite length_drop; lia | done | done |].
  exists (map encode_ulaw (samples nb) :: c1), b1, d1, c2. split_and!; [|done | done | done].
  rewrite <- (take_drop 960 buf) at 1. by econstructor.
Qed.

(** Pushing the decoded packets of a stream one by one. *)
Fixpoint accum_all (buf : OpusToPcmuAccum) (wbs : list (list Z)) (down : Resampler lib) :
    outcome CodecError (list (list Z)) * OpusToPcmuAccum * Resampler lib :=
  match wbs with
  | [] => (Ok [], buf, down)
  | wb :: wbs =>
      match accum_push lib buf wb down with
      | (Ok c, buf, down) =>
          let '(res, buf, down) := accum_all buf wbs down in (cs ← res; Ok (c ++ cs), buf, down)
      | other => other
      end
  end.

Lemma accum_all_takes buf wbs down chunks buf' down' : (length buf < WB_FRAME_SAMPLES)%nat ->
  accum_all buf wbs down = (Ok chunks, buf', down') <->
  takes (buf ++ concat wbs) down chunks buf' down' /\ (length buf' < WB_FRAME_SAMPLES)%nat.
Proof.
  revert buf down chunks. induction wbs as [|wb wbs IH]; intros buf down chunks Hb; cbn [accum_all concat].
  - rewrite app_nil_r. split; [intros [= <- <- <-]; split; [constructor|done]|].
    intros [H _]. inv H; [done|]. rewrite length_app in Hb. lia.
  - rewrite app_assoc. split.
    + destruct (accum_push lib buf wb down) as [[[c | e |] b1] d1] eqn:Hp; try done.
      apply accum_push_takes in Hp as [Ht1 Hl1].
      destruct (accum_all b1 wbs d1) as [[[cs | e |] b2] d2] eqn:Ha; try done. intros [= <- <- <-].
      apply IH in Ha as [Ht2 Hl2]; [|done]. split; [|done].
      eapply takes_trans; [|exact Ht2]. by apply takes_app.
    + intros [Ht Hl]. destruct (takes_front _ _ _ _ _ _ _ (Nat.le_refl _) Ht Hl) as (c1 & b1 & d1 & c2 & T1 & L1 & T2 & ->).
      rewrite (proj2 (accum_push_takes _ _ _ _ _ _) (conj T1 L1)).
      by rewrite (proj2 (IH b1 d1 c2 L1) (conj T2 Hl)).
Qed.
(** The reference: frames of 20 ms converted one after the other by one resampler. *)
Fixpoint convert_frames (down : Resampler lib) (frames : list (list Z)) : option (list (list Z) * Resampler lib) :=
  match frames with
  | [] => Some ([], down)
  | frame :: frames =>
      match downsample lib down (Codec.mkFrame Codec.OPUS_SAMPLE_RATE frame) with
      | (Ok nb, down) =>
          if (length (samples nb) =? NB_FRAME_SAMPLES)%nat then
            '(chunks, down) ← convert_frames down frames; Some (map encode_ulaw (samples nb) :: chunks, down)
          else None
      | _ => None
      end
  end.

Lemma takes_convert buf down chunks buf' down' :
  takes buf down chunks buf' down' <->
  exists frames, Forall (fun f => length f = 960%nat) frames /\ buf = concat frames ++ buf' /\
    convert_frames down frames = Some (chunks, down').
Proof.
  split.
  - induction 1 as [buf down | frame buf down nb down1 chunks buf' down' Hl Hr Hnb _ (frames & Hf & -> & Hc)].
    { by exists []. }
    exists (frame :: frames). split_and!; [by constructor | by cbn; rewrite app_assoc|].
    cbn [convert_frames]. rewrite Hr, Hnb, Nat.eqb_refl, Hc. done.
  - intros (frames & Hf & -> & Hc). revert down chunks Hc. induction Hf as [|frame frames Hl _ IH]; intros down chunks Hc.
    { injection Hc as <- <-. constructor. }
    cbn [convert_frames] in Hc. destruct (downsample _ _ _) as [[nb| |] down1] eqn:Hr; [|done|done].
    destruct (Nat.eqb_spec (length (samples nb)) NB_FRAME_SAMPLES) as [Hnb|]; [|done].
    destruct (convert_frames down1 frames) as [[cs d]|] eqn:Hc1; [|done]. injection Hc as <- <-.
    cbn [concat]. rewrite <- app_assoc. by econstructor; eauto.
Qed.
End accum.

(** C16: the packets of 20 ms for the NGN do not depend on how the decoded samples
    are cut into Opus packets. Pushing the packets one by one succeeds with the
    frames, the rest and the state of the resampler that pushing all their samples
    at once gives, and this is the case exactly when: all the samples in order are
    frames of 960 samples and a rest shorter than a frame; the packets are those
    frames, each brought to 160 samples by the one resampler that went through the
    frames before it, and each sample written in mu-law; and the resampler is left
    as the last frame leaves it. So no sample is lost, repeated or changed. *)
Theorem frames_independent_of_packets lib buf wbs down chunks buf' down' :
  (length buf < WB_FRAME_SAMPLES)%nat ->
  (accum_all lib buf wbs down = (Ok chunks, buf', down') <->
   accum_push lib buf (concat wbs) down = (Ok chunks, buf', down')) /\
  (accum_all lib buf wbs down = (Ok chunks, buf', down') <->
   exists frames, Forall (fun f => length f = 960%nat) frames /\
     buf ++ concat wbs = concat frames ++ buf' /\ (length buf' < 960)%nat /\
     convert_frames lib down frames = Some (chunks, down')) /\
  (accum_all lib buf wbs down = (Ok chunks, buf', down') -> Forall (fun c => length c = 160%nat) chunks).
Proof.
  intros Hb. rewrite accum_push_takes. rewrite accum_all_takes by done. split; [done|]. rewrite takes_convert. split.
  - change WB_FRAME_SAMPLES with 960%nat. split.
    + intros [(frames & Hf & He & Hc) Hl]. by exists frames.
    + intros (frames & Hf & He & Hl & Hc). split; [by exists frames | done].
  - intros [Ht Hl]. apply takes_convert in Ht. by destruct (takes_lengths _ _ _ _ _ _ Ht) as (H1 & H2 & H3).
Qed.

(** Five packets of 240 samples, counted up: one frame and a rest. *)
Lemma frames_independent_of_packets_witness :
  let lib := mkLib unit unit Z (fun e _ _ => (None, e)) (fun _ _ => None) (fun d _ _ => (None, d))
    (fun r x => (Some [take 160 x], r + 1)) in
  let wbs := map (fun k => map Z.of_nat (seq (240 * k) 240)) (seq 0 5) in
  exists chunks frames, accum_all lib [] wbs 0 = (Ok chunks, map Z.of_nat (seq 960 240), 1) /\
    accum_push lib [] (concat wbs) 0 = (Ok chunks, map Z.of_nat (seq 960 240), 1) /\
    concat wbs = concat frames ++ map Z.of_nat (seq 960 240) /\ convert_frames lib 0 frames = Some (chunks, 1).
Proof.
  intros lib wbs.
  destruct (accum_all lib [] wbs 0) as [[res buf'] down'] eqn:H. pose proof H as H'. vm_compute in H'.
  injection H' as Hr Hb Hd. assert (down' = 1) as -> by (symmetry; exact Hd). destruct res as [chunks | |]; [| discriminate Hr | discriminate Hr].
  assert (buf' = map Z.of_nat (seq 960 240)) as -> by (rewrite <- Hb; vm_compute; reflexivity).
  destruct (frames_independent_of_packets lib [] wbs 0 chunks (map Z.of_nat (seq 960 240)) 1 ltac:(vm_compute; lia))
    as (H1 & H2 & _).
  destruct (proj1 H2 H) as (frames & _ & Hc & _ & Hf).
  exists chunks, frames. split; [reflexivity|]. split; [exact (proj1 H1 H)|]. split; [exact Hc | exact Hf].
Defined.

(** ** The accounts of a stream *)

(** The egress of [r'] is that of [r] after [ems], as far as the sender reports
    count. *)
Definition accounts {L} (r : Relay L) (ems : list Emission) (r' : Relay L) : Prop :=
  eg_packets (egress r') = foldl count_sent (eg_packets (egress r)) ems /\
  eg_octets (egress r') = foldl count_octets (eg_octets (egress r)) ems.

Lemma accounts_trans {L} (r r1 r2 : Relay L) ems ems' :
  accounts r ems r1 -> accounts r1 ems' r2 -> accounts r (ems ++ ems') r2.
Proof. intros [P1 O1] [P2 O2]. unfold accounts. by rewrite !foldl_app, P2, O2, P1, O1. Qed.

Lemma send_chunks_accounts {L} q dest env i chunks (r : Relay L) :
  let '(ems, r') := send_chunks q dest env i chunks r in accounts r ems r'.
Proof.
  revert i r. induction chunks as [|c chunks IH]; intros i r; [done|]. cbn [send_chunks].
  destruct (emit_packet_spec add_rtp_ext_to_ngn PAYLOAD_TYPE_ULAW SAMPLES_PER_FRAME q c dest (env i) r)
    as (He & _ & _ & _ & _ & _ & _ & _ & _ & _ & Hp & Ho & _).
  destruct (emit_packet _ _ _ _ _ _ _ _) as [em r1]. cbn [fst snd] in *.
  assert (accounts r [em] r1) as H1.
  { unfold accounts. rewrite Hp, Ho, He. cbn [foldl]. unfold count_sent, count_octets. cbn [em_ok em_out payload].
    by destruct (se_ok (env i)). }
  destruct (se_ok (env i)); [|done]. specialize (IH (S i) r1). destruct (send_chunks _ _ _ _ _ r1) as [ems r2].
  by apply (accounts_trans r r1 r2 [em]).
Qed.

Section accounts.
Context (lib : CodecLib) (opus_pt : Z).

Fixpoint w2n_run (r : Relay (W2N lib)) (evs : list bridge_event) : list Emission * Relay (W2N lib) :=
  match evs with
  | [] => ([], r)
  | ev :: evs =>
      let '(ems, r) := w2n_step lib opus_pt r ev in
      let '(ems', r) := w2n_run r evs in (ems ++ ems', r)
  end.

Lemma arrive_accounts {L} wanted (r : Relay L) data src first draws : accounts r [] (arrive wanted r data src first draws).2.
Proof.
  pose proof (arrive_keeps wanted r data src first draws) as H. destruct (arrive _ _ _ _ _ _) as [o r1].
  destruct H as (_ & _ & _ & _ & (s & He & _) & _). unfold accounts. cbn [snd]. by rewrite He.
Qed.

Lemma w2n_tick_accounts r env : let '(ems, r') := w2n_tick lib r env in accounts r ems r'.
Proof.
  unfold w2n_tick. destruct (pull _) as [[p|] jb]; [|done].
  destruct (decode lib _ _) as [[wb | e |] dec]; try done.
  destruct (bool_decide _); [done|]. pose proof (note_ingress_spec (egress r) (sequence p)) as Hn.
  cbn [egress set_local]. destruct (note_ingress_seq (egress r) (sequence p)) as [g eg]. cbn [snd] in Hn. subst eg.
  destruct (accum_push _ _ _ _) as [[[cs | e |] acc] down]; try done.
  destruct cs as [|c cs]; [done|]. cbn [to_peer set_local set_egress]. destruct (to_peer r) as [dest|]; [|done].
  match goal with |- context [send_chunks ?q ?d ?e ?i ?c ?r1] => pose proof (send_chunks_accounts q d e i c r1) as H end.
  destruct (send_chunks _ _ _ _ _ _) as [ems r']. done.
Qed.

Lemma w2n_run_accounts r evs : let '(ems, r') := w2n_run r evs in accounts r ems r'.
Proof.
  revert r. induction evs as [|ev evs IH]; intros r; [done|]. cbn [w2n_run].
  assert (let '(ems, r') := w2n_step lib opus_pt r ev in accounts r ems r') as H1.
  { destruct ev as [data src now first draws | env | src]; cbn [w2n_step]; [| apply w2n_tick_accounts | done].
    unfold w2n_recv. pose proof (arrive_accounts (web_wanted opus_pt) r data src first draws) as H.
    destruct (arrive _ _ _ _ _ _) as [[p|] r1]; done. }
  destruct (w2n_step lib opus_pt r ev) as [ems r1]. specialize (IH r1). destruct (w2n_run r1 evs) as [ems' r2].
  by eapply accounts_trans.
Qed.
End accounts.

Lemma count_sent_total n ems : 0 <= n ->
  foldl count_sent (Z.min n (2 ^ 64 - 1)) ems =
  Z.min (n + Z.of_nat (length (filter (fun em => em_ok em = true) ems))) (2 ^ 64 - 1).
Proof.
  revert n. induction ems as [|em ems IH]; intros n Hn; cbn [foldl]; [cbn [filter list_filter length]; f_equal; lia|].
  unfold count_sent at 2. rewrite filter_cons. destruct (em_ok em).
  - rewrite decide_True by done. cbn [length]. replace (saturating_add 64 (Z.min n (2 ^ 64 - 1)) 1) with (Z.min (n + 1) (2 ^ 64 - 1))
      by (unfold saturating_add; lia).
    rewrite IH by lia. f_equal. lia.
  - rewrite decide_False by done. by apply IH.
Qed.

Definition octets (ems : list Emission) : Z :=
  foldr (fun em n => (if em_ok em then Z.of_nat (length (payload (em_out em))) else 0) + n) 0 ems.
Lemma count_octets_total n ems : 0 <= n ->
  foldl count_octets (Z.min n (2 ^ 64 - 1)) ems = Z.min (n + octets ems) (2 ^ 64 - 1).
Proof.
  revert n. induction ems as [|em ems IH]; intros n Hn; cbn [foldl octets foldr]; [f_equal; lia|].
  unfold count_octets at 2. destruct (em_ok em).
  - replace (saturating_add 64 _ _) with (Z.min (n + Z.of_nat (length (payload (em_out em)))) (2 ^ 64 - 1))
      by (unfold saturating_add; lia).
    rewrite IH by lia. fold (octets ems). f_equal. lia.
  - by rewrite IH.
Qed.

(** In both directions of a bridge the sender report that is built at any
    moment counts exactly the packets, and the octets of their payloads, that the
    system took for sending, modulo 2^32 (as long as they are fewer than 2^64);
    the packets whose sending failed are not counted. It names the source of the
    stream at that moment, and starts without packets. *)
Theorem reports_count_sent lib opus_pt hz sr sq ts from to m evs now :
  let ok l := Z.of_nat (length (filter (fun em => em_ok em = true) l)) in
  let counted {L} (res : list Emission * Relay L) :=
    ok res.1 < 2 ^ 64 -> octets res.1 < 2 ^ 64 ->
    let sr := build_sr (egress res.2) now in
    sr_packet_count sr = ok res.1 mod 2 ^ 32 /\ sr_octet_count sr = octets res.1 mod 2 ^ 32 /\
    sr_ssrc sr = eg_ssrc (egress res.2) /\ sr_reports sr = [] in
  (forall l, Forall event_ok evs -> 1 <= depth (nw_jitter lib l) -> jb_ok (nw_jitter lib l) ->
     counted (n2w_run lib opus_pt (relay_start (new_random hz sr sq ts) from to m l) evs)) /\
  (forall l, counted (w2n_run lib opus_pt (relay_start (new_random hz sr sq ts) from to m l) evs)).
Proof.
  intros ok counted.
  assert (forall L (l : L) (res : list Emission * Relay L),
    accounts (relay_start (new_random hz sr sq ts) from to m l) res.1 res.2 -> counted L res) as Hall.
  { intros L l [ems r] [Hp Ho] H1 H2. cbn [fst snd] in *.
    cbn [relay_start egress new_random eg_packets eg_octets] in Hp, Ho.
    pose proof (count_sent_total 0 ems ltac:(lia)) as Tp. pose proof (count_octets_total 0 ems ltac:(lia)) as To.
    change (Z.min 0 (2 ^ 64 - 1)) with 0 in Tp, To. rewrite Tp in Hp. rewrite To in Ho.
    cbn [build_sr sr_packet_count sr_octet_count sr_ssrc sr_reports]. unfold wrap.
    rewrite Hp, Ho, !Z.min_l by (unfold ok in *; lia). by split_and!. }
  split.
  - intros l Hev Hd Hok. apply (Hall _ l).
    pose proof (n2w_run_served lib opus_pt (relay_start (new_random hz sr sq ts) from to m l) evs Hev Hd Hok) as H.
    destruct (n2w_run _ _ _ _) as [ems r]. by destruct H.
  - intros l. apply (Hall _ l).
    pose proof (w2n_run_accounts lib opus_pt (relay_start (new_random hz sr sq ts) from to m l) evs) as H.
    by destruct (w2n_run _ _ _ _).
Qed.

Lemma reports_count_sent_witness :
  let res := n2w_run sample_lib 111 (relay_start (new_random 48000 9 65534 100) None None None
               (mkN2W sample_lib (jb_new 2) tt tt)) sample_events in
  let sr := build_sr (egress res.2) (mkNtp 0 0) in
  sr_packet_count sr = 4 /\ sr_octet_count sr = 8 /\ sr_ssrc sr = 9.
Proof.
  assert (Forall event_ok sample_events) as He.
  { repeat (apply Forall_cons; split); try done; apply sample_bytes. }
  destruct (proj1 (reports_count_sent sample_lib 111 48000 9 65534 100 None None None sample_events (mkNtp 0 0))
    (mkN2W sample_lib (jb_new 2) tt tt) He ltac:(by vm_compute) (jb_ok_new 2)) as (H1 & H2 & H3 & _);
    [by vm_compute | by vm_compute |].
  split_and!; [exact (eq_trans H1 ltac:(by vm_compute)) | exact (eq_trans H2 ltac:(by vm_compute)) |
    exact (eq_trans H3 ltac:(by vm_compute))].
Defined.
