(* ===== verification/Routing.v ===== *)
(** Which extensions an incoming call rings (src/src/call/routing.rs): the
    rules on weekday, time of day and caller, by priority.

    The local time and the parser of [%H:%M] belong to chrono: the time is a
    record, the parser an argument ([parse_hm]). A time of day is in nanoseconds. *)
From S2P Require Import Prelude RustStr Utf8 NetAddr Registrar.
From stdpp Require Import sorting.
Open Scope Z_scope.

Inductive Weekday := Mon | Tue | Wed | Thu | Fri | Sat | Sun.
#[export] Instance Weekday_eq_dec : EqDecision Weekday.
Proof. solve_decision. Defined.
Definition day : Z := from_secs 86400.
Record LocalTime := mkLocal { weekday_of : Weekday; time_of : Z }.

Record MatchSpec := mkMatch { weekday : option (list string); time_range : option string; from_number : option (list string) }.
Record RoutingRule := mkRule { rule_name : string; priority : Z; match_ : MatchSpec; fork : list string }.
Definition RoutingRules : Type := list RoutingRule.
Inductive RoutingDecision :=
  | Matched (rule_name : string) (bindings : list (string * Binding))
  | NoRule.

Inductive RuleError :=
  | InvalidTimeRange (name range : string)
  | InvalidWeekday (name weekday : string).

(** [&lower[..3]]: a panic inside a character. *)
Definition first_three {E} (lower : string) : outcome E string :=
  if (3 <=? String.length lower)%nat then
    if boundary (String.substring 3 (String.length lower - 3) lower) then Ok (String.substring 0 3 lower) else Panic
  else Ok lower.

Definition weekday_names : list (string * Weekday) :=
  [("mon", Mon); ("tue", Tue); ("wed", Wed); ("thu", Thu); ("fri", Fri); ("sat", Sat); ("sun", Sun)].

Definition parse_weekday {E} (s : string) : outcome E (option Weekday) :=
  head ← first_three (to_ascii_lowercase (trim s));
  Ok (snd <$> find_first (fun p => String.eqb (fst p) head) weekday_names).

(** [[start, end)] on the clock; an end before the start is on the next day. *)
Definition time_in_range (now start end_ : Z) : bool :=
  if start =? end_ then false
  else if start <? end_ then (start <=? now) && (now <? end_)
  else (start <=? now) || (now <? end_).

(** In the order of the wanted names; names without a binding are skipped. *)
Definition filter_bindings_by_aor (all : list (string * Binding)) (wanted : list string) : list (string * Binding) :=
  omap (fun aor => find_first (fun p => String.eqb (fst p) aor) all) wanted.

(** [weekdays.iter().any(|w| parse_weekday(w) == Some(today))]. *)
Fixpoint any_weekday {E} (ws : list string) (today : Weekday) : outcome E bool :=
  match ws with
  | [] => Ok false
  | w :: ws => d ← parse_weekday w; if bool_decide (d = Some today) then Ok true else any_weekday ws today
  end.

(** Higher priority first; the same priority in the order of declaration. *)
Definition before (a b : nat * RoutingRule) : Prop :=
  priority b.2 < priority a.2 \/ (priority a.2 = priority b.2 /\ (a.1 <= b.1)%nat).
#[export] Instance before_dec : RelDecision before.
Proof. unfold RelDecision, before. apply _. Defined.

Section rules.
Context (parse_hm : string -> option Z).

Definition parse_time_range (s : string) : option (Z * Z) :=
  '(start_s, end_s) ← split_once "-" s;
  start ← parse_hm (trim start_s);
  end_ ← parse_hm (trim end_s);
  Some (start, end_).

(** [RoutingRule::matches]. *)
Definition rule_matches (rule : RoutingRule) (now : LocalTime) (from : string) : outcome RuleError bool :=
  w ← match weekday (match_ rule) with
      | Some ws => any_weekday ws (weekday_of now)
      | None => Ok true
      end;
  if negb w then Ok false
  else
    let t := match time_range (match_ rule) with
             | Some r =>
                 match parse_time_range r with
                 | Some (start, end_) => time_in_range (time_of now) start end_
                 | None => false
                 end
             | None => true
             end in
    if negb t then Ok false
    else
      match from_number (match_ rule) with
      | Some numbers => Ok (existsb (String.eqb from) numbers)
      | None => Ok true
      end.

(** The first rule that matches, in a given order. *)
Fixpoint first_match (rs : list (nat * RoutingRule)) (now : LocalTime) (from : string) : outcome RuleError (option RoutingRule) :=
  match rs with
  | [] => Ok None
  | (_, rule) :: rs =>
      m ← rule_matches rule now from;
      if (m : bool) then Ok (Some rule) else first_match rs now from
  end.

Definition evaluate (rules : RoutingRules) (now : LocalTime) (from : string) (all_bindings : list (string * Binding)) :
    outcome RuleError RoutingDecision :=
  if bool_decide (rules = []) then Ok NoRule
  else
    let indexed := merge_sort before (imap pair rules) in
    m ← first_match indexed now from;
    Ok (match m with
        | Some rule => Matched (rule_name rule) (filter_bindings_by_aor all_bindings (fork rule))
        | None => NoRule
        end).

Fixpoint check_weekdays (name : string) (ws : list string) : outcome RuleError unit :=
  match ws with
  | [] => Ok tt
  | w :: ws => d ← parse_weekday w; ensure (bool_decide (is_Some d)) (InvalidWeekday name w) ;; check_weekdays name ws
  end.

(** [RoutingRule::validate]. *)
Definition validate (rule : RoutingRule) : outcome RuleError unit :=
  match time_range (match_ rule) with
  | Some r => ensure (bool_decide (is_Some (parse_time_range r))) (InvalidTimeRange (rule_name rule) r)
  | None => Ok tt
  end ;;
  match weekday (match_ rule) with Some ws => check_weekdays (rule_name rule) ws | None => Ok tt end.

Fixpoint validate_rules (rules : RoutingRules) : outcome RuleError unit :=
  match rules with
  | [] => Ok tt
  | rule :: rules => validate rule ;; validate_rules rules
  end.
End rules.

(** ** Properties *)

(** What a rule asks for, without the order of the tests: [now] is in the time
    range when it is nearer after the start than the end is, around the clock. *)
Definition on_clock (now start end_ : Z) : Prop := (now - start) mod day < (end_ - start) mod day.

Lemma day_pos : 0 < day.
Proof. by vm_compute. Qed.

Lemma mod_day z : - day <= z < day -> z mod day = if z <? 0 then z + day else z.
Proof.
  pose proof day_pos. generalize dependent day. intros d Hd Hz. destruct (Z.ltb_spec z 0); [|apply Z.mod_small; lia].
  symmetry. apply (Z.mod_unique z d (-1)); lia.
Qed.

Lemma time_in_range_clock now start end_ :
  0 <= now < day -> 0 <= start < day -> 0 <= end_ < day ->
  time_in_range now start end_ = true <-> on_clock now start end_.
Proof.
  intros H1 H2 H3. unfold time_in_range, on_clock. rewrite !mod_day by lia. generalize dependent day. intros d **.
  destruct (Z.eqb_spec start end_), (Z.ltb_spec start end_), (Z.ltb_spec (now - start) 0),
    (Z.ltb_spec (end_ - start) 0); rewrite ?andb_true_iff, ?orb_true_iff, ?Z.leb_le, ?Z.ltb_lt; split; intros; try done; lia.
Qed.

Section rules_spec.
Context (parse_hm : string -> option Z).
(** Documented of chrono: a parsed [%H:%M] is a time of day, on the minute. *)
Hypothesis parse_hm_day : forall s t, parse_hm s = Some t -> exists h m, 0 <= h < 24 /\ 0 <= m < 60 /\ t = from_secs (60 * (60 * h + m)).

Record applies (r : RoutingRule) (now : LocalTime) (from : string) : Prop := {
  ap_weekday : forall ws, weekday (match_ r) = Some ws -> exists w, w ∈ ws /\ parse_weekday (E := RuleError) w = Ok (Some (weekday_of now));
  ap_time : forall s, time_range (match_ r) = Some s ->
    exists start end_, parse_time_range parse_hm s = Some (start, end_) /\ on_clock (time_of now) start end_;
  ap_from : forall ns, from_number (match_ r) = Some ns -> from ∈ ns
}.

Lemma parse_time_range_day s start end_ : parse_time_range parse_hm s = Some (start, end_) ->
  0 <= start < day /\ 0 <= end_ < day.
Proof.
  unfold parse_time_range. intros H. destruct (split_once _ s) as [[a b]|]; [|done]. cbn [mbind option_bind] in H. simplify_option_eq.
  repeat match goal with H : parse_hm _ = Some _ |- _ => apply parse_hm_day in H as (? & ? & ? & ? & ->) end.
  unfold day, from_secs, nanos_per_sec. lia.
Qed.

Lemma check_weekdays_known name ws : check_weekdays name ws = Ok tt ->
  forall w, w ∈ ws -> exists d, parse_weekday (E := RuleError) w = Ok (Some d).
Proof.
  induction ws as [|w ws IH]; intros H x Hx; [by apply elem_of_nil in Hx|]. cbn [check_weekdays] in H. inv_outcome.
  rename select (bool_decide _ = true) into Hd. apply bool_decide_eq_true in Hd as [d ->]. apply elem_of_cons in Hx as [->|Hx]; [by exists d | by apply IH].
Qed.

Lemma any_weekday_spec (ws : list string) today :
  (forall w, w ∈ ws -> exists d, parse_weekday (E := RuleError) w = Ok (Some d)) ->
  exists b, any_weekday (E := RuleError) ws today = Ok b /\
    (b = true <-> exists w, w ∈ ws /\ parse_weekday (E := RuleError) w = Ok (Some today)).
Proof.
  induction ws as [|w ws IH]; intros H; cbn [any_weekday].
  { exists false. split; [done|]. split; [done|]. by intros (? & ?%elem_of_nil & _). }
  destruct (H w ltac:(left)) as [d Hd]. rewrite Hd. cbn [mbind outcome_bind].
  destruct IH as (b & Hb & Hiff). { intros x Hx. apply H. by right. }
  case_bool_decide as Hc.
  - injection Hc as ->. exists true. split; [done|]. split; [|done]. intros _. exists w. by split; [left|].
  - exists b. split; [done|]. rewrite Hiff. split; intros (x & Hx & Hp); exists x.
    + by split; [right|].
    + apply elem_of_cons in Hx as [->|Hx]; [congruence|done].
Qed.

(** A rule that was validated is decided without a panic, as it asks. *)
Lemma rule_matches_spec r now from : 0 <= time_of now < day -> validate parse_hm r = Ok tt ->
  exists b, rule_matches parse_hm r now from = Ok b /\ (b = true <-> applies r now from).
Proof.
  intros Hnow Hv. unfold validate in Hv. inv_outcome. rename Hv into Hw.
  unfold rule_matches. destruct r as [name pr [ws tr fn] fk]. cbn [match_ weekday time_range from_number rule_name] in *.
  assert (exists b, (match ws with Some ws => any_weekday (E := RuleError) ws (weekday_of now) | None => Ok true end) = Ok b /\
    (b = true <-> forall l, ws = Some l -> exists w, w ∈ l /\ parse_weekday (E := RuleError) w = Ok (Some (weekday_of now))))
    as (b1 & -> & H1).
  { destruct ws as [ws|]; [|exists true; split; done].
    destruct (any_weekday_spec ws (weekday_of now) (check_weekdays_known name ws Hw)) as (b & -> & Hb).
    exists b. split; [done|]. rewrite Hb. split; [by intros ? ? [= <-] | by intros H; apply H]. }
  assert (exists b, match tr with
                    | Some s => match parse_time_range parse_hm s with
                                | Some (start, end_) => time_in_range (time_of now) start end_
                                | None => false
                                end
                    | None => true
                    end = b /\
    (b = true <-> forall s, tr = Some s ->
       exists start end_, parse_time_range parse_hm s = Some (start, end_) /\ on_clock (time_of now) start end_))
    as (b2 & -> & H2).
  { destruct tr as [s|]; [|exists true; split; done].
    destruct (parse_time_range parse_hm s) as [[start end_]|] eqn:Hp; [|by rewrite bool_decide_eq_false_2 in Heq by (by intros [])].
    destruct (parse_time_range_day _ _ _ Hp) as [Hs He].
    exists (time_in_range (time_of now) start end_). split; [done|].
    rewrite time_in_range_clock by done. split; [intros H ? [= <-]; eauto|].
    intros H. destruct (H s eq_refl) as (? & ? & Hp' & ?). by simplify_eq. }
  assert (exists b, match fn with Some ns => Ok (existsb (String.eqb from) ns) | None => Ok true end = Ok (E := RuleError) b /\
    (b = true <-> forall ns, fn = Some ns -> from ∈ ns)) as (b3 & H3 & H3').
  { destruct fn as [ns|]; [|exists true; split; done]. exists (existsb (String.eqb from) ns). split; [done|].
    rewrite existsb_exists. setoid_rewrite String.eqb_eq. setoid_rewrite <- list_elem_of_In. split; [intros (x & Hx & ->) ? [= <-]; done|].
    intros H. exists from. split; [by apply H | done]. }
  cbn [mbind outcome_bind]. exists (b1 && b2 && b3). split.
  - destruct b1, b2; done.
  - rewrite !andb_true_iff, H1, H2, H3'. split; [intros [[] ?]; by split | by intros []].
Qed.

Lemma validate_rules_all rules : validate_rules parse_hm rules = Ok tt ->
  forall r, r ∈ rules -> validate parse_hm r = Ok tt.
Proof.
  induction rules as [|r rules IH]; intros H x Hx; [by apply elem_of_nil in Hx|]. cbn [validate_rules] in H. inv_outcome.
  apply elem_of_cons in Hx as [->|Hx]; [by destruct a | by apply IH].
Qed.

Lemma first_match_spec rs now from : 0 <= time_of now < day ->
  (forall p, p ∈ rs -> validate parse_hm p.2 = Ok tt) ->
  exists m, first_match parse_hm rs now from = Ok m /\
    match m with
    | None => forall p, p ∈ rs -> ~ applies p.2 now from
    | Some r => exists l1 i l2, rs = l1 ++ (i, r) :: l2 /\ applies r now from /\ forall p, p ∈ l1 -> ~ applies p.2 now from
    end.
Proof.
  intros Hnow. induction rs as [|[i r] rs IH]; intros Hv; cbn [first_match].
  { exists None. split; [done|]. by intros p ?%elem_of_nil. }
  destruct (rule_matches_spec r now from Hnow (Hv (i, r) ltac:(left))) as (b & -> & Hb). cbn [mbind outcome_bind].
  destruct b.
  - exists (Some r). split; [done|]. exists [], i, rs. split; [done|]. split; [by apply Hb|]. by intros p ?%elem_of_nil.
  - assert (~ applies r now from) as Hno by (by rewrite <- Hb).
    destruct IH as (m & -> & Hm). { intros p Hp. apply Hv. by right. }
    exists m. split; [done|]. destruct m as [r'|].
    + destruct Hm as (l1 & j & l2 & -> & Ha & Hl). exists ((i, r) :: l1), j, l2. split; [done|]. split; [done|].
      intros p [->|Hp]%elem_of_cons; [done | by apply Hl].
    + intros p [->|Hp]%elem_of_cons; [done | by apply Hm].
Qed.

#[local] Instance before_total : Total before.
Proof. intros [i a] [j b]. unfold before. cbn. lia. Qed.
#[local] Instance before_trans : Transitive before.
Proof. intros [i a] [j b] [k c]. unfold before. cbn. lia. Qed.

Lemma indexed_elem (rules : RoutingRules) i r : (i, r) ∈ merge_sort before (imap pair rules) <-> rules !! i = Some r.
Proof.
  rewrite (merge_sort_Permutation before (imap pair rules)), elem_of_lookup_imap. split.
  - by intros (j & x & [= -> ->] & H).
  - intros H. by exists i, r.
Qed.

(** C14: rules that pass the check at start-up are decided without a panic at
    every time of day. The rule that is taken applies, and every other rule that
    applies has a lower priority, or the same and is declared later; its
    extensions ring, those that are bound, in the order it names them. When no
    rule applies none is taken. A rule applies when every condition it states
    holds: a weekday of its list, a time from the start (included) to the end
    (excluded) around the clock, a caller of its list. *)
Theorem evaluate_picks rules now from all : 0 <= time_of now < day -> validate_rules parse_hm rules = Ok tt ->
  exists d, evaluate parse_hm rules now from all = Ok d /\
  match d with
  | NoRule => forall r, r ∈ rules -> ~ applies r now from
  | Matched name bs => exists i r, rules !! i = Some r /\ name = rule_name r /\ applies r now from /\
      bs = filter_bindings_by_aor all (fork r) /\
      forall j r', rules !! j = Some r' -> applies r' now from -> before (i, r) (j, r')
  end.
Proof.
  intros Hnow Hv. pose proof (validate_rules_all _ Hv) as Hall. unfold evaluate.
  case_bool_decide as Hn. { subst. exists NoRule. split; [done|]. by intros r ?%elem_of_nil. }
  pose proof (StronglySorted_merge_sort before (imap pair rules)) as Hs.
  destruct (first_match_spec (merge_sort before (imap pair rules)) now from Hnow) as (m & -> & Hm).
  { intros [i r] Hp%indexed_elem. apply Hall. by eapply list_elem_of_lookup_2. }
  cbn [mbind outcome_bind]. eexists. split; [done|]. destruct m as [r|].
  - destruct Hm as (l1 & i & l2 & Hl & Ha & Hb). exists i, r. split_and!; try done.
    + apply indexed_elem. rewrite Hl. apply elem_of_app. right. left.
    + intros j r' Hj Ha'. apply indexed_elem in Hj. rewrite Hl in Hj, Hs. apply StronglySorted_app in Hs as (_ & _ & Hs).
      apply StronglySorted_cons in Hs as [Hs _]. apply elem_of_app in Hj as [Hj|[Hj|Hj]%elem_of_cons].
      * by destruct (Hb _ Hj).
      * injection Hj as -> ->. right. by split.
      * rewrite Forall_forall in Hs. by apply Hs.
  - intros r (i & Hi)%list_elem_of_lookup_1 Ha. by apply (Hm (i, r)); [apply indexed_elem|].
Qed.
End rules_spec.

(** A parser of [%H:%M] for the examples. *)
Definition sample_hm (s : string) : option Z :=
  '(h, m) ← split_once ":" s;
  h ← parse_uint 8 h;
  m ← parse_uint 8 m;
  if (h <? 24) && (m <? 60) then Some (from_secs (60 * (60 * h + m))) else None.
Definition sample_rules : RoutingRules :=
  [mkRule "night" 5 (mkMatch None (Some "22:00-06:00") None) [];
   mkRule "friend" 10 (mkMatch (Some ["Monday"; "tue"]) None (Some ["0312345678"])) ["alice"];
   mkRule "day" 5 (mkMatch None None None) ["bob"; "alice"]].

Lemma sample_hm_day s t : sample_hm s = Some t -> exists h m, 0 <= h < 24 /\ 0 <= m < 60 /\ t = from_secs (60 * (60 * h + m)).
Proof.
  intros H. unfold sample_hm in H. destruct (split_once ":" s) as [[h m]|]; [|done]. cbn [mbind option_bind] in H.
  destruct (parse_uint 8 h) as [h'|] eqn:Hh; [|done]. cbn [mbind option_bind] in H.
  destruct (parse_uint 8 m) as [m'|] eqn:Hm; [|done]. cbn [mbind option_bind] in H.
  destruct ((h' <? 24) && (m' <? 60)) eqn:Hr; [|done]. injection H as <-.
  exists h', m'. apply parse_uint_range in Hh, Hm; [|done|done]. unfold uN in *. lia.
Qed.

Lemma evaluate_picks_witness :
  let b := mkBinding "" (mkAddr (V4 10 0 0 1) 5060) 0 (WebRtc 0 0 0) in
  let now h := mkLocal Mon (from_secs (3600 * h)) in
  evaluate sample_hm sample_rules (now 23) "0312345678" [("alice", b)] = Ok (Matched "friend" [("alice", b)]) /\
  (exists d, evaluate sample_hm sample_rules (now 5) "anonymous" [("alice", b)] = Ok d /\ d = Matched "night" []).
Proof.
  intros b now. split; [by vm_compute|].
  destruct (evaluate_picks sample_hm) with (rules := sample_rules) (now := now 5) (from := "anonymous") (all := [("alice", b)])
    as (d & Hd & _); [| by vm_compute | by vm_compute | exists d; split; [exact Hd|]].
  - exact sample_hm_day.
  - assert (evaluate sample_hm sample_rules (now 5) "anonymous" [("alice", b)] = Ok (Matched "night" [])) as H by (by vm_compute).
    rewrite H in Hd. by injection Hd as <-.
Defined.

(** A weekday whose third byte is inside a character stops the start-up with a
    panic instead of the error for an unknown name. *)
Lemma weekday_check_panics : validate sample_hm (mkRule "r" 0 (mkMatch (Some ["a月"]) None None) []) = Panic.
Proof. by vm_compute. Qed.
Lemma weekday_check_rejects : validate sample_hm (mkRule "r" 0 (mkMatch (Some ["月曜"]) None None) []) = Err (InvalidWeekday "r" "月曜").
Proof. by vm_compute. Qed.
