(* ===== verification/Bridge.v ===== *)
(** The plain bridges (src/src/call/bridge.rs), the choice between them and a
    conversion (call/codec_pipeline.rs), and the end point a bridge is started
    with ([extract_rtp_endpoint] of call/manager.rs).

    A bridge is two tasks that share the learned peers of the two legs: an event
    is one turn of one of them, so a list of events is one interleaving. *)
From S2P Require Import Prelude F64 Codec RustStr Utf8 NetAddr Sdp SdpRewrite Observability Transcoder.

(** ** The relay of datagrams: [RtpBridge] *)

Record RtpBridge := mkBridge {
  ngn_peer : option SocketAddr; ext_peer : option SocketAddr;
  forwarded_to_ext : Z; forwarded_to_ngn : Z; br_metrics : option Metrics }.

Definition bridge_start (ngn ext : option SocketAddr) (m : option Metrics) : RtpBridge := mkBridge ngn ext 0 0 m.

(** Which task: from the NGN to the extension, or back. *)
Inductive Side := ToExt | ToNgn.
#[export] Instance Side_eq_dec : EqDecision Side.
Proof. solve_decision. Defined.

(** A datagram the task receives, and whether the system takes what it sends. *)
Record Turn := mkTurn { t_side : Side; t_data : list Z; t_src : SocketAddr; t_ok : bool }.

(** The sender is learned: the first lock of [forward_loop], on the peer of the leg
    the datagram came in on. *)
Definition learn (b : RtpBridge) (side : Side) (src : SocketAddr) : RtpBridge :=
  match side with
  | ToExt => mkBridge (Some src) (ext_peer b) (forwarded_to_ext b) (forwarded_to_ngn b) (br_metrics b)
  | ToNgn => mkBridge (ngn_peer b) (Some src) (forwarded_to_ext b) (forwarded_to_ngn b) (br_metrics b)
  end.

(** The rest of the turn: the second lock, on the peer of the other leg, and the
    datagram goes there, if it is known. *)
Definition send_on (b : RtpBridge) (side : Side) (data : list Z) (ok : bool) :
    option (list Z * SocketAddr) * RtpBridge :=
  let buf := take RECV_BUF_SIZE data in
  let to_peer := match side with ToExt => ext_peer b | ToNgn => ngn_peer b end in
  match to_peer with
  | None => (None, b)
  | Some dest =>
      (Some (buf, dest),
       if negb ok then b
       else
         match side with
         | ToExt =>
             mkBridge (ngn_peer b) (ext_peer b) (wrapping_add 64 (forwarded_to_ext b) 1) (forwarded_to_ngn b)
               ((fun m => add_rtp_ngn_to_ext m 1) <$> br_metrics b)
         | ToNgn =>
             mkBridge (ngn_peer b) (ext_peer b) (forwarded_to_ext b) (wrapping_add 64 (forwarded_to_ngn b) 1)
               ((fun m => add_rtp_ext_to_ngn m 1) <$> br_metrics b)
         end)
  end.

(** One whole turn of [forward_loop]. *)
Definition forward (b : RtpBridge) (t : Turn) : option (list Z * SocketAddr) * RtpBridge :=
  send_on (learn b (t_side t) (t_src t)) (t_side t) (t_data t) (t_ok t).

(** The other task may run between the two locks: the halves of the turns as the
    two tasks make them. Each task holds the datagram it has read in its own
    buffer. *)
Inductive Half :=
  | HRecv (side : Side) (data : list Z) (src : SocketAddr)
  | HSend (side : Side) (ok : bool).
Definition half_side (h : Half) : Side := match h with HRecv side _ _ | HSend side _ => side end.

Record Halfway := mkHalfway { hw_bridge : RtpBridge; to_ext_buf : option (list Z); to_ngn_buf : option (list Z) }.
Definition held (w : Halfway) (side : Side) : option (list Z) :=
  match side with ToExt => to_ext_buf w | ToNgn => to_ngn_buf w end.
Definition set_held (side : Side) (data : option (list Z)) (b : RtpBridge) (w : Halfway) : Halfway :=
  match side with ToExt => mkHalfway b data (to_ngn_buf w) | ToNgn => mkHalfway b (to_ext_buf w) data end.

Definition half_step (w : Halfway) (h : Half) : option (list Z * SocketAddr) * Halfway :=
  match h with
  | HRecv side data src => (None, set_held side (Some data) (learn (hw_bridge w) side src) w)
  | HSend side ok =>
      match held w side with
      | None => (None, w)
      | Some data => let '(o, b) := send_on (hw_bridge w) side data ok in (o, set_held side None b w)
      end
  end.

Fixpoint half_steps (w : Halfway) (hs : list Half) : list (option (list Z * SocketAddr)) * Halfway :=
  match hs with
  | [] => ([], w)
  | h :: hs =>
      let '(o, w) := half_step w h in
      let '(os, w) := half_steps w hs in (o :: os, w)
  end.

Fixpoint forward_all (b : RtpBridge) (ts : list Turn) : list (option (list Z * SocketAddr)) * RtpBridge :=
  match ts with
  | [] => ([], b)
  | t :: ts =>
      let '(o, b) := forward b t in
      let '(os, b) := forward_all b ts in (o :: os, b)
  end.

(** ** The relay of media frames between two browsers: [WebRtcRelayBridge] *)

Record WebRtcRelay := mkWebRelay { forwarded_caller_to_callee : Z; forwarded_callee_to_caller : Z }.

(** [relay_loop] on the frames of one channel: it stops at a send that fails. The
    frames the other session is given are returned. *)
Fixpoint relay_loop (increment_caller_to_callee : bool) (st : WebRtcRelay) (frames : list (MediaFrame * bool)) :
    list MediaFrame * WebRtcRelay :=
  match frames with
  | [] => ([], st)
  | (frame, ok) :: frames =>
      if negb ok then ([frame], st)
      else
        let st :=
          if increment_caller_to_callee
          then mkWebRelay (wrapping_add 64 (forwarded_caller_to_callee st) 1) (forwarded_callee_to_caller st)
          else mkWebRelay (forwarded_caller_to_callee st) (wrapping_add 64 (forwarded_callee_to_caller st) 1) in
        let '(sent, st) := relay_loop increment_caller_to_callee st frames in (frame :: sent, st)
  end.

(** ** [MediaBridge] *)

Section bridges.
Context (lib : CodecLib).

Inductive MediaBridge :=
  | BridgeRelay (b : RtpBridge)
  | BridgeTranscode (n2w : Relay (N2W lib)) (w2n : Relay (W2N lib))
  | BridgeWebRtcAudio (n2p : Relay (N2P lib)) (p2n : Relay (P2N lib))
  | BridgeWebRtcRelay (st : WebRtcRelay).

(** Packets towards the extension, and towards the NGN. *)
Definition mb_stats (b : MediaBridge) : Z * Z :=
  match b with
  | BridgeRelay b => (forwarded_to_ext b, forwarded_to_ngn b)
  | BridgeTranscode n w => (packet_count n, packet_count w)
  | BridgeWebRtcAudio n p => (packet_count n, packet_count p)
  | BridgeWebRtcRelay st => (forwarded_caller_to_callee st, forwarded_callee_to_caller st)
  end.

Inductive BridgeError := PeerUnknown | NoSuchLeg.

(** Where a datagram put in by hand goes. *)
Definition ngn_destination (b : MediaBridge) : outcome BridgeError SocketAddr :=
  match b with
  | BridgeRelay b => ok_or (ngn_peer b) PeerUnknown
  | BridgeTranscode _ w => ok_or (to_peer w) PeerUnknown
  | BridgeWebRtcAudio _ p => ok_or (to_peer p) PeerUnknown
  | BridgeWebRtcRelay _ => Err NoSuchLeg
  end.
Definition ext_destination (b : MediaBridge) : outcome BridgeError SocketAddr :=
  match b with
  | BridgeRelay b => ok_or (ext_peer b) PeerUnknown
  | BridgeTranscode n _ => ok_or (to_peer n) PeerUnknown
  | BridgeWebRtcAudio _ _ | BridgeWebRtcRelay _ => Err NoSuchLeg
  end.
End bridges.

(** ** The media plan (call/codec_pipeline.rs) *)

Inductive LegCodec := Pcmu | Opus (pt : Z) | UnknownCodec.
Inductive MediaPlan := PlanRelay | PlanTranscode (opus_pt : Z).

(** The lines of [sdp_has_pcmu], in order; [in_audio] is whether the last media
    line was an audio one. *)
Fixpoint pcmu_lines (in_audio : bool) (lines : list string) : bool :=
  match lines with
  | [] => false
  | line :: lines =>
      let line := trim line in
      match strip_prefix "m=" line with
      | Some rest =>
          let in_audio := starts_with "audio " rest in
          let parts := split_whitespace rest in
          if in_audio && bool_decide ("0" ∈ drop 3 parts) then true else pcmu_lines in_audio lines
      | None =>
          let named_pcmu :=
            match strip_prefix "a=rtpmap:" line with
            | Some rest =>
                match split_once " " rest with
                | Some (_, codec_part) =>
                    eq_ignore_ascii_case (default "" (head (split_on "/" codec_part))) "PCMU"
                | None => false
                end
            | None => false
            end in
          if in_audio && named_pcmu then true else pcmu_lines in_audio lines
      end
  end.
Definition sdp_has_pcmu (sdp : string) : bool := is_utf8 sdp && pcmu_lines false (split_on "010" sdp).

Definition detect (sdp : string) : LegCodec :=
  match find_opus_payload_type sdp with
  | Some pt => Opus pt
  | None => if sdp_has_pcmu sdp then Pcmu else UnknownCodec
  end.

Definition select_media_plan (ngn_sdp ext_sdp : string) : MediaPlan :=
  match detect ngn_sdp, detect ext_sdp with
  | Pcmu, Pcmu => PlanRelay
  | Pcmu, Opus pt => PlanTranscode pt
  | Opus _, _ => PlanRelay
  | Pcmu, UnknownCodec => PlanRelay
  | UnknownCodec, _ => PlanRelay
  end.

(** ** [extract_rtp_endpoint] *)

Definition extract_rtp_endpoint (sdp : string) : option SocketAddr :=
  match parse_body sdp with
  | Ok s =>
      media ← find_first (fun m => String.eqb (m_media m) "audio") (s_media s);
      c ← match m_connection media with Some c => Some c | None => s_connection s end;
      Some (mkAddr (c_address c) (m_port media))
  | _ => None
  end.

(** The plan for an extension with Linphone's offer, and for a browser's. *)
Example plan_examples :
  let pcmu := "m=audio 4000 RTP/AVP 0" in
  let opus := "m=audio 9 UDP/TLS/RTP/SAVPF 111 0
a=rtpmap:111 opus/48000/2
" in
  select_media_plan pcmu pcmu = PlanRelay /\ select_media_plan pcmu opus = PlanTranscode 111 /\
  select_media_plan opus pcmu = PlanRelay /\ detect "m=audio 9 RTP/AVP 8" = UnknownCodec.
Proof. by vm_compute. Qed.

(** ** Properties *)

(** The peer a leg has: the last sender heard on it, or the one it started with. *)
Definition heard (side : Side) (init : option SocketAddr) (ts : list Turn) : option SocketAddr :=
  match last (filter (fun t => t_side t = side) ts) with Some t => Some (t_src t) | None => init end.
Definition opposite (side : Side) : Side := match side with ToExt => ToNgn | ToNgn => ToExt end.

(** What a bridge that remembers every turn would send. *)
Definition relayed (b : RtpBridge) (past : list Turn) (t : Turn) : option (list Z * SocketAddr) :=
  dest ← heard (opposite (t_side t)) (match t_side t with ToExt => ext_peer b | ToNgn => ngn_peer b end) past;
  Some (take RECV_BUF_SIZE (t_data t), dest).
Definition delivered (side : Side) (ts : list Turn) (os : list (option (list Z * SocketAddr))) : Z :=
  Z.of_nat (length (filter (fun p => t_side p.1 = side /\ t_ok p.1 = true /\ is_Some p.2) (zip ts os))).

Lemma last_snoc_heard side init ts t :
  heard side init (ts ++ [t]) = if decide (t_side t = side) then Some (t_src t) else heard side init ts.
Proof.
  unfold heard. rewrite filter_app, filter_cons, filter_nil. case_decide.
  - by rewrite last_snoc.
  - by rewrite app_nil_r.
Qed.

(** The state of the two legs after some turns. *)
Definition after_turns (b : RtpBridge) (past : list Turn) (b' : RtpBridge) : Prop :=
  ngn_peer b' = heard ToExt (ngn_peer b) past /\ ext_peer b' = heard ToNgn (ext_peer b) past.

Lemma forward_spec b past b1 t : after_turns b past b1 ->
  (forward b1 t).1 = relayed b past t /\ after_turns b (past ++ [t]) (forward b1 t).2 /\
  (forall side, (match side with ToExt => forwarded_to_ext | ToNgn => forwarded_to_ngn end) (forward b1 t).2 =
     let n := (match side with ToExt => forwarded_to_ext | ToNgn => forwarded_to_ngn end) b1 in
     if decide (t_side t = side /\ t_ok t = true /\ is_Some (relayed b past t)) then wrapping_add 64 n 1 else n).
Proof.
  intros [H1 H2]. unfold forward, learn, send_on, relayed, after_turns. rewrite !last_snoc_heard.
  destruct t as [[] data src ok]; cbn [t_side t_data t_src t_ok opposite];
    [rewrite <- H2; destruct (ext_peer b1) | rewrite <- H1; destruct (ngn_peer b1)];
    cbn [mbind option_bind]; (split_and!; [done | by destruct ok; cbn; rewrite ?H1, ?H2 | by destruct ok; cbn; rewrite ?H1, ?H2 |]);
    intros []; destruct ok; cbn; case_decide as Hd; try done;
    first [by destruct Hd as (? & ? & [? ?]) | exfalso; apply Hd; by split_and!; eauto].
Qed.

Lemma forward_all_spec b past b1 ts : after_turns b past b1 ->
  let '(os, b') := forward_all b1 ts in
  length os = length ts /\
  (forall i t o, ts !! i = Some t -> os !! i = Some o -> o = relayed b (past ++ take i ts) t) /\
  after_turns b (past ++ ts) b' /\
  forall side, let count := match side with ToExt => forwarded_to_ext | ToNgn => forwarded_to_ngn end in
    wrap 64 (count b') = wrap 64 (count b1 + delivered side ts os).
Proof.
  revert past b1. induction ts as [|t ts IH]; intros past b1 Hb; cbn [forward_all].
  { rewrite app_nil_r. split_and!; [done | done | apply Hb |]. intros side. f_equal.
    change (delivered side [] []) with 0. lia. }
  destruct (forward_spec b past b1 t Hb) as (Ho & Hb1 & Hc). destruct (forward b1 t) as [o b2]. cbn [fst snd] in *.
  specialize (IH (past ++ [t]) b2 Hb1). destruct (forward_all b2 ts) as [os b3].
  destruct IH as (Hl & Hos & Hb3 & Hcs). rewrite <- app_assoc in Hb3. split_and!.
  - cbn. by rewrite Hl.
  - intros [|i] t' o' Ht Ho'; cbn in Ht, Ho'.
    + injection Ht as <-. injection Ho' as <-. by rewrite take_0, app_nil_r.
    + rewrite (Hos i t' o' Ht Ho'). cbn [take]. by rewrite <- app_assoc.
  - apply Hb3.
  - intros side. cbn zeta in *. rewrite Hcs, Hc. unfold delivered. cbn [zip zip_with]. rewrite filter_cons.
    cbn [fst snd]. rewrite Ho. repeat case_decide; try done; try tauto;
      cbn [length]; unfold wrapping_add, wrap; rewrite Zplus_mod_idemp_l; f_equal; lia.
Qed.

(** The same, with the turns in halves: the last sender a task has learned, the
    datagram it holds, and where it goes. *)
Definition learned (side : Side) (init : option SocketAddr) (hs : list Half) : option SocketAddr :=
  foldl (fun peer h => match h with HRecv side' _ src => if decide (side' = side) then Some src else peer | _ => peer end)
    init hs.
Definition holding (side : Side) (hs : list Half) : option (list Z) :=
  h ← last (filter (fun h => half_side h = side) hs);
  match h with HRecv _ data _ => Some data | HSend _ _ => None end.
Definition half_relayed (b : RtpBridge) (past : list Half) (h : Half) : option (list Z * SocketAddr) :=
  match h with
  | HRecv _ _ _ => None
  | HSend side _ =>
      data ← holding side past;
      dest ← learned (opposite side) (match side with ToExt => ext_peer b | ToNgn => ngn_peer b end) past;
      Some (take RECV_BUF_SIZE data, dest)
  end.

Definition after_halves (b : RtpBridge) (past : list Half) (w : Halfway) : Prop :=
  ngn_peer (hw_bridge w) = learned ToExt (ngn_peer b) past /\
  ext_peer (hw_bridge w) = learned ToNgn (ext_peer b) past /\
  (forall side, held w side = holding side past).

Lemma holding_snoc side hs h :
  holding side (hs ++ [h]) =
  if decide (half_side h = side) then match h with HRecv _ data _ => Some data | HSend _ _ => None end
  else holding side hs.
Proof.
  unfold holding. rewrite filter_app, filter_cons, filter_nil. case_decide.
  - by rewrite last_snoc.
  - by rewrite app_nil_r.
Qed.

Lemma half_step_spec b past w h : after_halves b past w ->
  (half_step w h).1 = half_relayed b past h /\ after_halves b (past ++ [h]) (half_step w h).2.
Proof.
  intros (H1 & H2 & H3).
  assert (forall side w', (forall side', held w' side' = if decide (side = side') then held w' side else held w side') ->
    half_side h = side -> held w' side = (match h with HRecv _ data _ => Some data | HSend _ _ => None end) ->
    forall side', held w' side' = holding side' (past ++ [h])) as Hheld.
  { intros side w' Hw Hs Hd side'. rewrite Hw, holding_snoc, Hs. case_decide; [done|]. apply H3. }
  destruct h as [side data src | side ok]; cbn [half_step half_relayed].
  - split; [done|]. split_and!.
    + unfold learned. rewrite foldl_snoc. fold (learned ToExt (ngn_peer b) past). by destruct side; cbn.
    + unfold learned. rewrite foldl_snoc. fold (learned ToNgn (ext_peer b) past). by destruct side; cbn.
    + apply (Hheld side); [by destruct side; intros [] | done | by destruct side].
  - rewrite H3. destruct (holding side past) as [data|] eqn:Hd; cbn [mbind option_bind].
    2: { split; [done|]. split_and!; [by unfold learned; rewrite foldl_snoc | by unfold learned; rewrite foldl_snoc|].
         intros side'. rewrite holding_snoc. cbn [half_side]. case_decide; [subst; by rewrite H3 | apply H3]. }
    assert (forall o w', (o, w') = (let '(o, b0) := send_on (hw_bridge w) side data ok in (o, set_held side None b0 w)) ->
      o = (dest ← learned (opposite side) (match side with ToExt => ext_peer b | ToNgn => ngn_peer b end) past;
           Some (take RECV_BUF_SIZE data, dest)) /\ after_halves b (past ++ [HSend side ok]) w') as Hgoal.
    { intros o w'. unfold send_on. destruct side; cbn [opposite]; rewrite <- ?H1, <- ?H2;
        [destruct (ext_peer (hw_bridge w)) as [dest|] eqn:Hp | destruct (ngn_peer (hw_bridge w)) as [dest|] eqn:Hp];
        intros [= -> ->]; (split; [done|]); split_and!;
        lazymatch goal with
        | |- forall side', _ => eapply Hheld; [|done|done]; by intros []
        | |- _ => unfold learned in *; rewrite foldl_snoc; destruct ok; cbn; congruence
        end. }
    destruct (send_on (hw_bridge w) side data ok) as [o b'] eqn:Hs. by apply Hgoal.
Qed.

Lemma half_steps_spec b past w hs : after_halves b past w ->
  let '(os, w') := half_steps w hs in
  length os = length hs /\
  (forall i h, hs !! i = Some h -> os !! i = Some (half_relayed b (past ++ take i hs) h)).
Proof.
  revert past w. induction hs as [|h hs IH]; intros past w Hw; cbn [half_steps]; [done|].
  destruct (half_step_spec b past w h Hw) as [Ho Hw1]. destruct (half_step w h) as [o w1]. cbn [fst snd] in *.
  specialize (IH _ _ Hw1). destruct (half_steps w1 hs) as [os w2]. destruct IH as [Hl Hos]. split; [cbn; by rewrite Hl|].
  intros [|i] h' Hh; cbn in Hh.
  - injection Hh as <-. cbn. by rewrite Ho, app_nil_r.
  - cbn [lookup list_lookup take]. specialize (Hos i h' Hh). rewrite <- app_assoc in Hos. exact Hos.
Qed.

(** C11: a bridge relays symmetrically, under every interleaving of its two tasks:
    each datagram goes, unchanged up to the size of the buffer, to the last
    address heard on the other leg, or to the one of the session description when
    nothing was heard there, and nowhere when none is known. The two counters are
    the numbers of datagrams that were sent, modulo 2^64. The same holds when the
    turns are cut in halves, as the tasks take the locks: whatever the other task
    does between reading a datagram and sending it on, it goes to the last address
    heard on the other leg up to that moment. *)
Theorem relay_symmetric ngn ext m ts hs :
  let b := bridge_start ngn ext m in
  (let '(os, b') := forward_all b ts in
   length os = length ts /\
   (forall i t, ts !! i = Some t -> os !! i = Some (relayed b (take i ts) t)) /\
   wrap 64 (forwarded_to_ext b') = wrap 64 (delivered ToExt ts os) /\
   wrap 64 (forwarded_to_ngn b') = wrap 64 (delivered ToNgn ts os)) /\
  (let '(os, _) := half_steps (mkHalfway b None None) hs in
   length os = length hs /\
   forall i h, hs !! i = Some h -> os !! i = Some (half_relayed b (take i hs) h)).
Proof.
  intros b. split.
  - pose proof (forward_all_spec b [] b ts (conj eq_refl eq_refl)) as H.
    destruct (forward_all b ts) as [os b']. destruct H as (Hl & Hos & _ & Hc). split_and!; [done | | |].
    + intros i t Ht. destruct (lookup_lt_is_Some_2 os i) as [o Ho]; [apply lookup_lt_Some in Ht; lia|].
      by rewrite Ho, (Hos i t o Ht Ho).
    + apply (Hc ToExt).
    + apply (Hc ToNgn).
  - apply (half_steps_spec b []). split_and!; [done | done | by intros []].
Qed.

(** The end point sabiden writes in a description is the one the other side
    finds there: after the rewriting, a reader of the body sends to that address
    and port, for IPv4 and IPv6, whatever connection the audio section or the
    session had before. *)
Theorem rewritten_endpoint_found body s m addr port now :
  parse_body body = Ok s -> audio_of s = Some m -> ip_ok addr -> u16 port -> u32 now ->
  exists body', rewrite_rtp_endpoint body addr port now = Ok body' /\ extract_rtp_endpoint body' = Some (mkAddr addr port).
Proof.
  intros Hs Hm Ha Hp Hn. apply parse_body_ok in Hs as Hok.
  assert (u64 now) as Hn64 by (unfold uN in *; change (2 ^ 32) with 4294967296 in Hn; change (2 ^ 64) with 18446744073709551616; lia).
  pose proof (endpoint_ok addr port now s Ha Hp Hn64 Hok) as Hok1.
  exists (serialize (rewrite_endpoint addr port now s)). split; [unfold rewrite_rtp_endpoint; by rewrite Hs|].
  unfold extract_rtp_endpoint. rewrite parse_body_serialize by done.
  destruct (endpoint_spec addr port now s) as [[_ Hc] _ _ _ Hau _]. destruct (Hau m Hm) as (m' & Hm' & Hport & Hconn & _).
  unfold audio_of in Hm'. change is_audio with (fun m => String.eqb (m_media m) "audio") in Hm'.
  rewrite Hm'. cbn [mbind option_bind]. rewrite Hconn, Hc, Hport. done.
Qed.

Lemma rewritten_endpoint_found_witness :
  let body := "v=0
o=- 1 1 IN IP4 192.0.2.1
s=-
t=0 0
m=audio 4000 RTP/AVP 0
c=IN IP4 192.0.2.2
" in
  extract_rtp_endpoint body = Some (mkAddr (V4 192 0 2 2) 4000) /\
  exists body', rewrite_rtp_endpoint body (V6 [0; 0; 0; 0; 0; 0; 0; 1]) 30000 7 = Ok body' /\
    extract_rtp_endpoint body' = Some (mkAddr (V6 [0; 0; 0; 0; 0; 0; 0; 1]) 30000).
Proof.
  intros body. split; [by vm_compute|].
  eapply (rewritten_endpoint_found body);
    [by vm_compute | by vm_compute | cbn; split; [done|]; repeat (apply Forall_cons; split; [width|]); by apply Forall_nil
     | width | width].
Defined.
