(* ===== verification/Calls.v ===== *)
(** The call manager (src/src/call/manager.rs, call/mod.rs): the table of the
    calls with their bridges, and the forking of an incoming call.

    A bridge is known by what the manager does with it: it holds it, stops it or
    drops it. The workers of a fork are other tasks: what they report arrives as
    events with the time the loop sees them. *)
From S2P Require Import Prelude RustStr NetAddr SipMessage Transaction TuProg Uac.

(** ** The table of the calls *)

Inductive CallState := Idle | Ringing | Connected | Terminated.
#[export] Instance CallState_eq_dec : EqDecision CallState.
Proof. solve_decision. Defined.

Section manager.
Context {B : Type}.

Record CallEntry := mkEntry { ce_state : CallState; ce_bridge : option B }.
(** [next_id] is the counter of [CallId::next], which starts at 1. *)
Record CallManager := mkManager { calls : gmap Z CallEntry; next_id : Z }.
Definition manager_new : CallManager := mkManager ∅ 1.

Inductive CallError := UnknownCall (id : Z) | NoBridge (id : Z).

(** What happens to a bridge that the table lets go. *)
Inductive Release := StoppedBridge (b : B) | DroppedBridge (b : B).
Definition released (r : Release) : B := match r with StoppedBridge b | DroppedBridge b => b end.

Definition create_call (m : CallManager) : Z * CallManager :=
  (next_id m, mkManager (<[next_id m := mkEntry Idle None]> (calls m)) (wrapping_add 64 (next_id m) 1)).

Definition transition (m : CallManager) (id : Z) (st : CallState) : outcome CallError unit * CallManager :=
  match calls m !! id with
  | None => (Err (UnknownCall id), m)
  | Some e => (Ok tt, mkManager (<[id := mkEntry st (ce_bridge e)]> (calls m)) (next_id m))
  end.

(** The bridge that was there is dropped, and so is one for an unknown call. *)
Definition attach_media_bridge (m : CallManager) (id : Z) (b : B) : outcome CallError unit * list Release * CallManager :=
  match calls m !! id with
  | None => (Err (UnknownCall id), [DroppedBridge b], m)
  | Some e =>
      (Ok tt, map DroppedBridge (option_list (ce_bridge e)),
       mkManager (<[id := mkEntry Connected (Some b)]> (calls m)) (next_id m))
  end.

Definition terminate (m : CallManager) (id : Z) : outcome CallError unit * list Release * CallManager :=
  match calls m !! id with
  | None => (Ok tt, [], m)
  | Some e => (Ok tt, map StoppedBridge (option_list (ce_bridge e)), mkManager (delete id (calls m)) (next_id m))
  end.

(** The bridge a datagram is put into. *)
Definition inject (m : CallManager) (id : Z) : outcome CallError B :=
  e ← ok_or (calls m !! id) (UnknownCall id);
  ok_or (ce_bridge e) (NoBridge id).

Definition calls_len (m : CallManager) : nat := size (calls m).
Definition state_of (m : CallManager) (id : Z) : option CallState := ce_state <$> calls m !! id.

(** ** Any use of the table *)

Inductive CallOp :=
  | OpCreate
  | OpTransition (id : Z) (st : CallState)
  | OpAttach (id : Z) (b : B)
  | OpTerminate (id : Z).

Definition call_step (m : CallManager) (o : CallOp) : list Release * CallManager :=
  match o with
  | OpCreate => ([], (create_call m).2)
  | OpTransition id st => ([], (transition m id st).2)
  | OpAttach id b => let '(_, rs, m) := attach_media_bridge m id b in (rs, m)
  | OpTerminate id => let '(_, rs, m) := terminate m id in (rs, m)
  end.

Fixpoint call_run (m : CallManager) (os : list CallOp) : list Release * CallManager :=
  match os with
  | [] => ([], m)
  | o :: os =>
      let '(rs, m) := call_step m o in
      let '(rs', m) := call_run m os in (rs ++ rs', m)
  end.

Definition attached (os : list CallOp) : list B := omap (fun o => match o with OpAttach _ b => Some b | _ => None end) os.
Definition creates (os : list CallOp) : nat := length (List.filter (fun o => match o with OpCreate => true | _ => false end) os).
Definition held (m : CallManager) : list B := omap (fun p => ce_bridge p.2) (map_to_list (calls m)).

Lemma held_insert m id e n : calls m !! id = None ->
  held (mkManager (<[id := e]> (calls m)) n) ≡ₚ option_list (ce_bridge e) ++ held m.
Proof.
  intros H. unfold held. cbn [calls]. rewrite map_to_list_insert by done. cbn.
  by destruct (ce_bridge e).
Qed.

Lemma held_delete m id e n : calls m !! id = Some e ->
  held m ≡ₚ option_list (ce_bridge e) ++ held (mkManager (delete id (calls m)) n).
Proof.
  intros H. rewrite <- (held_insert (mkManager (delete id (calls m)) n) id e n) by apply lookup_delete_eq.
  cbn [calls]. rewrite insert_delete_eq, insert_id by done. done.
Qed.

Lemma held_update m id e e' n : calls m !! id = Some e ->
  option_list (ce_bridge e) ++ held (mkManager (<[id := e']> (calls m)) n) ≡ₚ option_list (ce_bridge e') ++ held m.
Proof.
  intros H. rewrite (held_delete m id e n H). rewrite <- insert_delete_eq.
  pose proof (held_insert (mkManager (delete id (calls m)) n) id e' n (lookup_delete_eq _ _)) as Hi.
  cbn [calls] in Hi. rewrite Hi, !app_assoc. f_equiv. apply Permutation_app_comm.
Qed.

(** Every id in the table was given out. *)
Definition ids_given (m : CallManager) : Prop := forall id, is_Some (calls m !! id) -> 1 <= id < next_id m.

Lemma call_step_spec m o : ids_given m -> 1 <= next_id m -> next_id m + Z.of_nat (creates [o]) < 2 ^ 64 ->
  let '(rs, m') := call_step m o in
  held m ++ attached [o] ≡ₚ held m' ++ map released rs /\ ids_given m' /\
  next_id m' = next_id m + Z.of_nat (creates [o]).
Proof.
  intros Hids Hpos Hmax. destruct o as [| id st | id b | id]; cbn [call_step].
  - cbn [create_call snd attached omap list_omap map next_id].
    assert (calls m !! next_id m = None) as Hnone.
    { destruct (calls m !! next_id m) eqn:H; [|done]. assert (is_Some (calls m !! next_id m)) as Hi%Hids by (by rewrite H). lia. }
    assert (wrapping_add 64 (next_id m) 1 = next_id m + 1) as Hw by (apply wrap_small; unfold uN; cbn in Hmax; lia).
    rewrite Hw. split_and!.
    + rewrite !app_nil_r. by rewrite held_insert.
    + intros k Hk. cbn in *. apply lookup_insert_is_Some in Hk as [<-|[_ Hk%Hids]]; lia.
    + done.
  - unfold transition. destruct (calls m !! id) as [e|] eqn:He; cbn [snd map];
      (split_and!; [| | cbn; lia]); [| | done | done].
    + rewrite !app_nil_r. apply (Permutation_app_inv_l (option_list (ce_bridge e))). symmetry.
      exact (held_update m id e (mkEntry st (ce_bridge e)) (next_id m) He).
    + intros k Hk. cbn in *. apply Hids. apply lookup_insert_is_Some in Hk as [<-|[_ Hk]]; [by rewrite He | done].
  - unfold attach_media_bridge. destruct (calls m !! id) as [e|] eqn:He; cbn [map attached omap list_omap];
      (split_and!; [| | cbn; lia]); [| | done | done].
    + rewrite map_map. cbn [released]. rewrite map_id.
      transitivity (option_list (Some b) ++ held m); [apply Permutation_app_comm|].
      rewrite <- (held_update m id e (mkEntry Connected (Some b)) (next_id m) He). apply Permutation_app_comm.
    + intros k Hk. cbn in *. apply Hids. apply lookup_insert_is_Some in Hk as [<-|[_ Hk]]; [by rewrite He | done].
  - unfold terminate. destruct (calls m !! id) as [e|] eqn:He; cbn [map attached omap list_omap];
      (split_and!; [| | cbn; lia]); [| | done | done].
    + rewrite map_map. cbn [released]. rewrite map_id, app_nil_r. rewrite (held_delete m id e (next_id m) He).
      apply Permutation_app_comm.
    + intros k Hk. cbn in *. apply Hids. apply lookup_delete_is_Some in Hk as [_ Hk]. done.
Qed.

Lemma call_run_spec m os : ids_given m -> 1 <= next_id m -> next_id m + Z.of_nat (creates os) < 2 ^ 64 ->
  let '(rs, m') := call_run m os in
  held m ++ attached os ≡ₚ held m' ++ map released rs /\ ids_given m' /\ next_id m' = next_id m + Z.of_nat (creates os).
Proof.
  revert m. induction os as [|o os IH]; intros m Hids Hpos Hmax; cbn [call_run].
  { rewrite !app_nil_r. split_and!; [done | done | cbn; lia]. }
  assert (creates (o :: os) = creates [o] + creates os)%nat as Hc.
  { change (o :: os) with ([o] ++ os). unfold creates. by rewrite List.filter_app, length_app. }
  assert (attached (o :: os) = attached [o] ++ attached os) as Ha by (by destruct o).
  pose proof (call_step_spec m o Hids) as H1.
  destruct (call_step m o) as [rs m1] eqn:Hs.
  assert (held m ++ attached [o] ≡ₚ held m1 ++ map released rs /\ ids_given m1 /\
    next_id m1 = next_id m + Z.of_nat (creates [o])) as (P1 & I1 & N1).
  { apply H1; lia. }
  specialize (IH m1 I1 ltac:(lia) ltac:(lia)). destruct (call_run m1 os) as [rs' m2]. destruct IH as (P2 & I2 & N2).
  split_and!; [| done | lia].
  rewrite Ha, app_assoc, P1, map_app, <- app_assoc, (Permutation_app_comm (map released rs)), app_assoc, P2.
  rewrite <- app_assoc. f_equiv. apply Permutation_app_comm.
Qed.
End manager.
Arguments CallManager B : clear implicits.
Arguments CallOp B : clear implicits.

(** ** One leg of a fork *)

Inductive LegOutcome :=
  | LegEstablished (plan : InvitePlan) (response : SipResponse)
  | LegFailed (plan : InvitePlan) (status : Z)
  | LegErrored (plan : option InvitePlan).
Inductive IntercomLegOutcome :=
  | IntercomEstablished (dialog : UacDialog) (response : SipResponse)
  | IntercomFailed (status : Z) (response : SipResponse)
  | IntercomErrored.

(** The result of a program as a value; a panic stays one. *)
Fixpoint attempt {A} (p : prog A) : prog (tu_result A) :=
  match p with
  | Done Panic => Done Panic
  | Done r => Done (Ok r)
  | Call req dest k => Call req dest (fun o => attempt (k o))
  | Post req dest k => Post req dest (fun b => attempt (k b))
  end.

(** [UacForker]. *)
Section forker.
Context (md5 : string -> list Z) (u : Uac) (routes : Routes).

Definition forker_invite (target_uri sdp_offer : string) (ids : Ids) (rnd : InviteRnd) : prog LegOutcome :=
  let plan := build_invite u routes target_uri (Some sdp_offer) None ids in
  outcome ← attempt (invite md5 u plan rnd);
  mret (match outcome with
        | Ok (Established call) => LegEstablished plan (ec_response call)
        | Ok (Failed response) => LegFailed plan (status_code response)
        | _ => LegErrored (Some plan)
        end).

Definition forker_invite_intercom (target_uri : string) (dest_addr : SocketAddr) (sdp_offer : string) (ids : Ids) (r : Z) :
    prog IntercomLegOutcome :=
  let plan := build_invite u routes target_uri (Some sdp_offer) None ids in
  outcome ← attempt (invite_to u plan dest_addr r);
  mret (match outcome with
        | Ok (Established call) => IntercomEstablished (ec_dialog call) (ec_response call)
        | Ok (Failed response) => IntercomFailed (status_code response) response
        | _ => IntercomErrored
        end).
End forker.

(** ** [fork_to_extensions] *)

Inductive ForkResult :=
  | Answered (winner_uri : string) (response : SipResponse)
  | AllFailed (last_status : option Z)
  | ForkTimeout.

(** What the loop receives, and when: the report of a worker, or that all the
    workers are gone. *)
Inductive ForkEvent :=
  | Report (t : Z) (uri : string) (o : LegOutcome)
  | AllGone (t : Z).
Definition ev_time (e : ForkEvent) : Z := match e with Report t _ _ | AllGone t => t end.

(** The loop from its [received]-th report on; [now] is the time of the last one.
    After the last event nothing comes before the deadline. *)
Fixpoint fork_loop (total received : nat) (last_status : option Z) (deadline now : Z) (evs : list ForkEvent) : ForkResult :=
  if duration_since deadline now =? 0 then ForkTimeout
  else
    match evs with
    | [] => ForkTimeout
    | ev :: evs =>
        if deadline <=? ev_time ev then ForkTimeout
        else
          match ev with
          | AllGone _ => AllFailed last_status
          | Report t uri o =>
              match o with
              | LegEstablished _ response => Answered uri response
              | LegFailed _ status =>
                  if (total <=? S received)%nat then AllFailed (Some status)
                  else fork_loop total (S received) (Some status) deadline t evs
              | LegErrored _ =>
                  if (total <=? S received)%nat then AllFailed last_status
                  else fork_loop total (S received) last_status deadline t evs
              end
          end
    end.

Definition fork_to_extensions (targets : list string) (overall_timeout start : Z) (evs : list ForkEvent) : ForkResult :=
  if bool_decide (targets = []) then AllFailed None
  else fork_loop (length targets) 0 None (start + overall_timeout) start evs.

(** ** Properties *)

(** C13: after any sequence of operations on the table (fewer than 2^64 calls),
    every bridge that was attached is held by exactly one call, or was let go
    exactly once: stopped when its call ended, dropped when another took its place
    or its call was unknown. When no call is left every bridge was let go. The ids
    of the calls are new numbers, given out in order. *)
Theorem bridges_released_once (B : Type) (os : list (CallOp B)) : Z.of_nat (creates os) < 2 ^ 64 - 1 ->
  let '(rs, m) := call_run manager_new os in
  attached os ≡ₚ held m ++ map released rs /\
  (calls m = ∅ -> attached os ≡ₚ map released rs) /\
  next_id m = 1 + Z.of_nat (creates os) /\
  (forall id, is_Some (calls m !! id) -> 1 <= id <= Z.of_nat (creates os)).
Proof.
  intros H. pose proof (call_run_spec (@manager_new B) os) as Hr.
  destruct (call_run manager_new os) as [rs m]. destruct Hr as (P & I & N).
  - intros id Hid. cbn in Hid. rewrite lookup_empty in Hid. by destruct Hid.
  - cbn. lia.
  - cbn [manager_new next_id]. lia.
  - cbn in P. assert (attached os ≡ₚ held m ++ map released rs) as P' by exact P. cbn in N. split_and!.
    + done.
    + intros He. rewrite P'. unfold held. by rewrite He, map_to_list_empty.
    + done.
    + intros id Hid%I. lia.
Qed.

Lemma bridges_released_once_witness :
  let os := [OpCreate; OpAttach 1 100; OpAttach 1 101; OpCreate; OpAttach 7 102; OpTerminate 1; OpAttach 2 103] in
  (call_run manager_new os).1 = [DroppedBridge 100; DroppedBridge 102; StoppedBridge 101] /\
  attached os ≡ₚ held (call_run manager_new os).2 ++ map released (call_run manager_new os).1.
Proof.
  intros os. split; [by vm_compute|].
  pose proof (bridges_released_once Z os ltac:(by vm_compute)) as H. destruct (call_run manager_new os) as [rs m].
  exact (proj1 H).
Defined.

(** The reports before the deadline, without an answer among them. *)
Definition declined (deadline : Z) (evs : list ForkEvent) : Prop :=
  Forall (fun ev => ev_time ev < deadline /\ exists t uri o, ev = Report t uri o /\
            forall plan resp, o <> LegEstablished plan resp) evs.
Definition leg_status (ev : ForkEvent) : option Z :=
  match ev with Report _ _ (LegFailed _ status) => Some status | _ => None end.
(** The status of the last leg that failed with one. *)
Definition last_failure (init : option Z) (evs : list ForkEvent) : option Z :=
  match last (omap leg_status evs) with Some s => Some s | None => init end.

Lemma last_failure_cons init ev evs :
  last_failure init (ev :: evs) = last_failure (match leg_status ev with Some s => Some s | None => init end) evs.
Proof.
  unfold last_failure. cbn [omap list_omap]. destruct (leg_status ev) as [s|]; [|done].
  rewrite last_cons. by destruct (last (omap leg_status evs)).
Qed.

(** What a result says about the events. *)
Definition fork_result (total received : nat) (lst : option Z) (deadline : Z) (evs : list ForkEvent) (r : ForkResult) : Prop :=
  match r with
  | Answered uri resp => exists l1 t plan l2,
      evs = l1 ++ Report t uri (LegEstablished plan resp) :: l2 /\ declined deadline l1 /\ t < deadline
  | AllFailed st => exists l1 l2, evs = l1 ++ l2 /\ declined deadline l1 /\ st = last_failure lst l1 /\
      ((received + length l1)%nat = total \/ exists t l3, l2 = AllGone t :: l3 /\ t < deadline)
  | ForkTimeout => exists l1 l2, evs = l1 ++ l2 /\ declined deadline l1 /\ (received + length l1 < total)%nat /\
      match l2 with [] => True | ev :: _ => deadline <= ev_time ev end
  end.

Lemma fork_result_cons total received lst deadline ev evs r : declined deadline [ev] ->
  fork_result total (S received) (match leg_status ev with Some s => Some s | None => lst end) deadline evs r ->
  fork_result total received lst deadline (ev :: evs) r.
Proof.
  intros Hev. assert (forall l, declined deadline l -> declined deadline (ev :: l)) as Hcons.
  { intros l Hl. by apply (Forall_app_2 _ [ev]). }
  destruct r as [uri resp | st |]; cbn [fork_result].
  - intros (l1 & t & plan & l2 & -> & Hd & Ht). exists (ev :: l1), t, plan, l2. split_and!; [done | by apply Hcons | done].
  - intros (l1 & l2 & -> & Hd & -> & Hn). exists (ev :: l1), l2. rewrite last_failure_cons. cbn [length].
    split_and!; [done | by apply Hcons | done |]. destruct Hn as [Hn|Hn]; [left; lia | by right].
  - intros (l1 & l2 & -> & Hd & Hn & Hl). exists (ev :: l1), l2. cbn [length].
    split_and!; [done | by apply Hcons | lia | done].
Qed.

Lemma fork_result_last total received lst deadline ev evs : declined deadline [ev] -> S received = total ->
  fork_result total received lst deadline (ev :: evs) (AllFailed (match leg_status ev with Some s => Some s | None => lst end)).
Proof.
  intros Hev Ht. exists [ev], evs. rewrite last_failure_cons. split_and!; [done | done | done | left; cbn; lia].
Qed.

Lemma fork_loop_result total received lst deadline now evs : now < deadline -> (received < total)%nat ->
  fork_result total received lst deadline evs (fork_loop total received lst deadline now evs).
Proof.
  revert received lst now. induction evs as [|ev evs IH]; intros received lst now Hnow Hrec; cbn [fork_loop];
    (replace (duration_since deadline now =? 0) with false by (unfold duration_since; lia)).
  { exists [], []. split_and!; [done | by constructor | cbn; lia | done]. }
  destruct (Z.leb_spec deadline (ev_time ev)) as [Hd|Hd].
  { exists [], (ev :: evs). split_and!; [done | by constructor | cbn; lia | done]. }
  destruct ev as [tm uri o | tm].
  2: { exists [], (AllGone tm :: evs). split_and!; [done | by constructor | done | right; eauto]. }
  destruct o as [plan resp | plan status | plan].
  { exists [], tm, plan, evs. split_and!; [done | by constructor | done]. }
  - assert (declined deadline [Report tm uri (LegFailed plan status)]) as Hdec.
    { constructor; [|constructor]. split; [done|]. by exists tm, uri, (LegFailed plan status). }
    destruct (Nat.leb_spec total (S received)) as [Ht|Ht].
    + apply (fork_result_last _ _ _ _ (Report tm uri (LegFailed plan status))); [done | lia].
    + by apply fork_result_cons, IH.
  - assert (declined deadline [Report tm uri (LegErrored plan)]) as Hdec.
    { constructor; [|constructor]. split; [done|]. by exists tm, uri, (LegErrored plan). }
    destruct (Nat.leb_spec total (S received)) as [Ht|Ht].
    + apply (fork_result_last _ _ _ _ (Report tm uri (LegErrored plan))); [done | lia].
    + by apply fork_result_cons, IH.
Qed.

(** A fork ends with the first answer, when that comes before the deadline and
    before every leg has failed; with the failure of all legs, and the status of
    the last that had one, exactly when every leg (or every worker) was done
    without an answer before the deadline; with a timeout otherwise. It ends in
    every case. *)
Theorem fork_takes_first_answer targets timeout start evs : 0 < timeout ->
  match fork_to_extensions targets timeout start evs with
  | Answered uri resp => exists l1 t plan l2,
      evs = l1 ++ Report t uri (LegEstablished plan resp) :: l2 /\ declined (start + timeout) l1 /\ t < start + timeout
  | AllFailed st => targets = [] /\ st = None \/
      exists l1 l2, evs = l1 ++ l2 /\ declined (start + timeout) l1 /\ st = last_failure None l1 /\
        (length l1 = length targets \/ exists t l3, l2 = AllGone t :: l3 /\ t < start + timeout)
  | ForkTimeout => exists l1 l2, evs = l1 ++ l2 /\ declined (start + timeout) l1 /\ (length l1 < length targets)%nat /\
      match l2 with [] => True | ev :: _ => start + timeout <= ev_time ev end
  end.
Proof.
  intros Ht. unfold fork_to_extensions. case_bool_decide as Hn; [by left|].
  assert (0 < length targets)%nat as Hl by (destruct targets; [done | cbn; lia]).
  pose proof (fork_loop_result (length targets) 0 None (start + timeout) start evs ltac:(lia) Hl) as H.
  destruct (fork_loop _ _ _ _ _ _); cbn [fork_result] in H; [done | by right | done].
Qed.

Lemma fork_takes_first_answer_witness :
  let resp := mkResponse 200 "OK" [] "" in
  let evs := [Report 5 "sip:a" (LegFailed sample_plan 486); Report 9 "sip:b" (LegEstablished sample_plan resp);
              Report 9 "sip:c" (LegErrored None)] in
  let res := fork_to_extensions ["sip:a"; "sip:b"; "sip:c"] 100 0 evs in
  res = Answered "sip:b" resp /\
  match res with
  | Answered uri r => exists l1 t plan l2,
      evs = l1 ++ Report t uri (LegEstablished plan r) :: l2 /\ declined 100 l1 /\ t < 100
  | _ => False
  end.
Proof.
  intros resp evs res. assert (res = Answered "sip:b" resp) as Hr by (by vm_compute). split; [exact Hr|].
  pose proof (fork_takes_first_answer ["sip:a"; "sip:b"; "sip:c"] 100 0 evs ltac:(lia)) as H.
  fold res in H. rewrite Hr in H |- *. exact H.
Defined.
