(* ===== verification/TwoKeys.v ===== *)
(** Tables whose entries are found by either of two keys: a map from the first
    key to the entry, and one from the second key to the first. The orchestrator
    has two of them (call/intercom.rs and call/orchestrator.rs); [stands] relates
    such a pair of maps to the list of its entries. *)
From S2P Require Import Prelude.

Section keys.
Context {A : Type} (f : A -> string).

Lemma key_notin (l : list A) x y : f x ∉ map f l -> y ∈ l -> f x <> f y.
Proof. intros Hx Hy Heq. apply Hx. rewrite Heq. by apply list_elem_of_fmap_2. Qed.

Lemma keys_filter (l : list A) e : NoDup (map f l) -> e ∈ l ->
  l ≡ₚ e :: List.filter (fun x => negb (String.eqb (f x) (f e))) l.
Proof.
  induction l as [|x l IH]; intros H He; [by apply elem_of_nil in He|]. cbn [map] in H. apply NoDup_cons in H as [Hx H].
  cbn [List.filter]. apply elem_of_cons in He as [-> | He].
  - rewrite String.eqb_refl. cbn [negb]. f_equiv. symmetry.
    assert (forall l', (forall y, y ∈ l' -> f y <> f x) -> List.filter (fun y => negb (String.eqb (f y) (f x))) l' = l') as Hall.
    { induction l' as [|y l' IH']; intros Hl; [done|]. cbn [List.filter].
      rewrite (proj2 (String.eqb_neq (f y) (f x))) by (apply Hl; by left). cbn [negb]. f_equal. apply IH'.
      intros z Hz. apply Hl. by right. }
    rewrite Hall; [done|]. intros y Hy. by apply not_eq_sym, (key_notin l).
  - rewrite (proj2 (String.eqb_neq (f x) (f e))) by (by apply (key_notin l)). cbn [negb].
    rewrite Permutation_swap. f_equiv. by apply IH.
Qed.

Lemma keys_find (l : list A) id e : NoDup (map f l) ->
  find_first (fun x => String.eqb (f x) id) l = Some e <-> e ∈ l /\ f e = id.
Proof.
  intros H. split.
  - intros Hf%find_first_Some. by rewrite String.eqb_eq in Hf.
  - intros [He <-]. induction l as [|x l IH]; [by apply elem_of_nil in He|]. cbn [map] in H. apply NoDup_cons in H as [Hx H].
    cbn [find_first]. apply elem_of_cons in He as [-> | He]; [by rewrite String.eqb_refl|].
    rewrite (proj2 (String.eqb_neq (f x) (f e))) by (by apply (key_notin l)). by apply IH.
Qed.

Lemma keys_filter_none (l : list A) id : find_first (fun x => String.eqb (f x) id) l = None ->
  List.filter (fun x => negb (String.eqb (f x) id)) l = l.
Proof.
  induction l as [|x l IH]; [done|]. cbn [find_first List.filter]. destruct (String.eqb (f x) id); [done|].
  intros H. cbn [negb]. by rewrite IH.
Qed.
End keys.

Section two_keys.
Context {A : Type} (f g : A -> string).

(** The entries, no two with a key in common. *)
Definition distinct (l : list A) : Prop := NoDup (map f l) /\ NoDup (map g l).
Definition fresh (l : list A) (e : A) : Prop := (f e ∉ map f l) /\ (g e ∉ map g l).

Record stands (m : gmap string A) (b : gmap string string) (l : list A) : Prop := {
  st_distinct : distinct l;
  st_first : forall id e, m !! id = Some e <-> e ∈ l /\ f e = id;
  st_second : forall id c, b !! id = Some c <-> exists e, e ∈ l /\ g e = id /\ f e = c
}.

Definition with_first (id : string) (l : list A) : option A := find_first (fun e => String.eqb (f e) id) l.
Definition with_second (id : string) (l : list A) : option A := find_first (fun e => String.eqb (g e) id) l.
Definition without_first (id : string) (l : list A) : list A := List.filter (fun e => negb (String.eqb (f e) id)) l.
Definition without_second (id : string) (l : list A) : list A := List.filter (fun e => negb (String.eqb (g e) id)) l.

Lemma stands_empty : stands ∅ ∅ [].
Proof.
  split; [split; constructor | |]; intros id x; rewrite lookup_empty; split; try done.
  - by intros [?%elem_of_nil _].
  - by intros (? & ?%elem_of_nil & _).
Qed.

Lemma stands_insert m b l e : stands m b l -> fresh l e -> stands (<[f e := e]> m) (<[g e := f e]> b) (e :: l).
Proof.
  intros [[D1 D2] C1 C2] [F1 F2]. split.
  - split; cbn [map]; by constructor.
  - intros id x. rewrite lookup_insert_Some, C1, elem_of_cons. split.
    + intros [[<- <-] | [Hne [Hx <-]]]; [by split; [left|] | by split; [right|]].
    + intros [[-> | Hx] <-]; [by left|]. right. split; [|done]. by apply (key_notin _ l).
  - intros id c. rewrite lookup_insert_Some, C2. split.
    + intros [[<- <-] | (Hne & x & Hx & <- & <-)]; [exists e; by split; [left|] | exists x; by split; [right|]].
    + intros (x & Hx & <- & <-). apply elem_of_cons in Hx as [-> | Hx]; [by left|]. right. split; [|eauto].
      by apply (key_notin _ l).
Qed.

(** Taking one entry out of both maps. *)
Lemma stands_remove m b l l' e : stands m b l -> l ≡ₚ e :: l' -> stands (delete (f e) m) (delete (g e) b) l'.
Proof.
  intros [[D1 D2] C1 C2] Hp. rewrite Hp in D1, D2. cbn [map] in D1, D2.
  apply NoDup_cons in D1 as [N1 D1], D2 as [N2 D2].
  assert (forall x, x ∈ l <-> x = e \/ x ∈ l') as Hin by (intros x; by rewrite Hp, elem_of_cons).
  split; [done | |].
  - intros id x. rewrite lookup_delete_Some, C1, Hin. split.
    + intros (Hne & [-> | Hx] & <-); done.
    + intros [Hx <-]. split; [by apply (key_notin _ l') | by split; [right|]].
  - intros id c. rewrite lookup_delete_Some, C2. setoid_rewrite Hin. split.
    + intros (Hne & x & [-> | Hx] & <- & <-); [done | by exists x].
    + intros (x & Hx & <- & <-). split; [by apply (key_notin _ l') | exists x; by split; [right|]].
Qed.

Lemma stands_perm m b l l' : stands m b l -> l ≡ₚ l' -> stands m b l'.
Proof.
  intros [[D1 D2] C1 C2] Hp. split; [by split; rewrite <- Hp | |]; intros; [rewrite C1 | rewrite C2]; by setoid_rewrite Hp.
Qed.

Lemma stands_same m b l l' : stands m b l -> stands m b l' -> l ≡ₚ l'.
Proof.
  intros [[D1 D2] C1 C2] [[D1' D2'] C1' C2']. apply NoDup_Permutation; [by apply (NoDup_fmap_1 f) | by apply (NoDup_fmap_1 f)|].
  intros x. split; intros Hx; [apply (proj1 (C1' (f x) x)) | apply (proj1 (C1 (f x) x))]; [apply C1 | apply C1']; done.
Qed.

Lemma find_by_first m b l id : stands m b l -> m !! id = with_first id l.
Proof. intros [[D1 D2] C1 C2]. apply option_eq. intros e. unfold with_first. rewrite keys_find by done. apply C1. Qed.

Lemma find_by_second m b l id : stands m b l -> (c ← b !! id; m !! c) = with_second id l.
Proof.
  intros [[D1 D2] C1 C2]. apply option_eq. intros e. unfold with_second. rewrite keys_find by done. split.
  - intros (c & (x & Hx & <- & <-)%C2 & [He Heq]%C1)%bind_Some.
    assert (with_first (f x) l = Some x) as H1 by (by apply keys_find).
    assert (with_first (f x) l = Some e) as H2 by (by apply keys_find).
    by simplify_eq.
  - intros [He <-]. apply bind_Some. exists (f e). split; [apply C2; by exists e | by apply C1].
Qed.

Lemma stands_len m b l : stands m b l -> size m = length l.
Proof.
  intros [[D1 D2] C1 C2]. rewrite <- length_map_to_list.
  rewrite <- (length_map f l), <- (length_map fst (map_to_list m)).
  apply Permutation_length, NoDup_Permutation; [apply NoDup_fst_map_to_list | done |].
  intros id. split.
  - intros ([k e] & -> & H%elem_of_map_to_list)%list_elem_of_fmap. apply C1 in H as [He <-]. by apply (list_elem_of_fmap_2 f).
  - intros (e & -> & He)%list_elem_of_fmap. apply list_elem_of_fmap. exists (f e, e). split; [done|].
    apply elem_of_map_to_list. by apply C1.
Qed.

Lemma stands_list m b l : stands m b l -> l ≡ₚ map snd (map_to_list m).
Proof.
  intros [[D1 D2] C1 C2]. apply NoDup_Permutation; [by apply (NoDup_fmap_1 f) | |].
  - apply NoDup_fmap_2_strong; [|apply NoDup_map_to_list]. intros [k e] [k' e'] H H' Heq. cbn in Heq. subst e'.
    apply elem_of_map_to_list, C1 in H as [_ <-], H' as [_ <-]. done.
  - intros x. rewrite list_elem_of_fmap. split.
    + intros Hx. exists (f x, x). split; [done|]. by apply elem_of_map_to_list, C1.
    + intros ([k e] & -> & H). by apply elem_of_map_to_list, C1 in H as [H _].
Qed.

(** An entry that is found by a key, and the list without it. *)
Lemma with_first_split m b l id e : stands m b l -> with_first id l = Some e -> f e = id /\ l ≡ₚ e :: without_first id l.
Proof.
  intros [[D1 D2] _ _] He. apply keys_find in He as [He <-]; [|done]. split; [done|]. by apply keys_filter.
Qed.
Lemma with_second_split m b l id e : stands m b l -> with_second id l = Some e -> g e = id /\ l ≡ₚ e :: without_second id l.
Proof.
  intros [[D1 D2] _ _] He. apply keys_find in He as [He <-]; [|done]. split; [done|]. by apply keys_filter.
Qed.

(** The removals, by either key. *)
Lemma take_by_first m b l id : stands m b l ->
  match m !! id with
  | Some e => with_first id l = Some e /\ stands (delete id m) (delete (g e) b) (without_first id l)
  | None => with_first id l = None /\ without_first id l = l
  end.
Proof.
  intros Hs. rewrite (find_by_first _ _ _ _ Hs). destruct (with_first id l) as [e|] eqn:He.
  - destruct (with_first_split _ _ _ _ _ Hs He) as [<- Hp]. split; [done|]. by apply (stands_remove m b l).
  - split; [done|]. by apply keys_filter_none.
Qed.

Lemma take_by_second m b l id : stands m b l ->
  match b !! id with
  | Some c => exists e, m !! c = Some e /\ with_second id l = Some e /\ stands (delete c m) (delete id b) (without_second id l)
  | None => with_second id l = None /\ without_second id l = l
  end.
Proof.
  intros Hs. pose proof (find_by_second _ _ _ id Hs) as Hf. destruct (b !! id) as [c|] eqn:Hc; cbn [mbind option_bind] in Hf.
  - apply (st_second _ _ _ Hs) in Hc as (e & He & <- & <-).
    assert (m !! f e = Some e) as Hb by (by apply (st_first _ _ _ Hs)). rewrite Hb in *. symmetry in Hf. exists e.
    split; [done|]. split; [done|]. destruct (with_second_split _ _ _ _ _ Hs Hf) as [_ Hp]. by apply (stands_remove m b l).
  - symmetry in Hf. split; [done|]. by apply keys_filter_none.
Qed.
End two_keys.
