(* ===== verification/Intercom.v ===== *)
(** Calls between extensions (src/src/call/intercom.rs): which dialled target is
    an extension, the registry of the calls under way, and their admission.

    The registry has two maps, from the Call-ID of the caller to the call and from
    the one of the callee to the caller's. [TwoKeys] relates such maps to the
    list of the calls they stand for. *)
From S2P Require Import Prelude RustStr NetAddr Registrar TwoKeys.

(** ** The dialled target *)

Inductive DialDestination :=
  | Internal (binding : Binding) (aor : string)
  | Ngn (target : string).

Definition ExtensionAliases : Type := gmap string string.
Definition resolve (a : ExtensionAliases) (target : string) : option string := a !! target.

Definition classify_dial_target (target : string) (registrar : ExtensionRegistrar) (aliases : ExtensionAliases) (now : Z) :
    DialDestination :=
  let resolved_aor := default target (resolve aliases target) in
  match lookup registrar resolved_aor now with
  | Some binding => Internal binding resolved_aor
  | None => Ngn target
  end.

(** ** The registry *)

Record InternalCallEntry := mkCall {
  caller_call_id : string; callee_call_id : string; caller_aor : string; callee_aor : string; bridge_call_id : Z }.

Record InternalCallRegistry := mkCalls {
  by_caller : gmap string InternalCallEntry; callee_to_caller : gmap string string }.
Definition registry_new : InternalCallRegistry := mkCalls ∅ ∅.

Definition call_insert (r : InternalCallRegistry) (e : InternalCallEntry) : InternalCallRegistry :=
  mkCalls (<[caller_call_id e := e]> (by_caller r)) (<[callee_call_id e := caller_call_id e]> (callee_to_caller r)).

Definition lookup_by_caller (r : InternalCallRegistry) (id : string) : option InternalCallEntry := by_caller r !! id.
Definition lookup_by_callee (r : InternalCallRegistry) (id : string) : option InternalCallEntry :=
  caller_id ← callee_to_caller r !! id; by_caller r !! caller_id.

Definition remove_by_caller (r : InternalCallRegistry) (id : string) : option InternalCallEntry * InternalCallRegistry :=
  match by_caller r !! id with
  | None => (None, r)
  | Some e => (Some e, mkCalls (delete id (by_caller r)) (delete (callee_call_id e) (callee_to_caller r)))
  end.

Definition remove_by_callee (r : InternalCallRegistry) (id : string) : option InternalCallEntry * InternalCallRegistry :=
  match callee_to_caller r !! id with
  | None => (None, r)
  | Some caller_id =>
      (by_caller r !! caller_id, mkCalls (delete caller_id (by_caller r)) (delete id (callee_to_caller r)))
  end.

Definition registry_len (r : InternalCallRegistry) : nat := size (by_caller r).
Definition can_accept (r : InternalCallRegistry) (max : nat) : bool := (registry_len r <? max)%nat.

(** ** Admission *)

Record IntercomConfig := mkIntercom { enabled : bool; max_concurrent_internal_calls : nat }.
Definition intercom_default : IntercomConfig := mkIntercom true 4.
Inductive IntercomAdmitError := Disabled | AtCapacity (current max : nat).

Definition try_admit (c : IntercomConfig) (r : InternalCallRegistry) : outcome IntercomAdmitError unit :=
  if negb (enabled c) then Err Disabled
  else if negb (can_accept r (max_concurrent_internal_calls c))
  then Err (AtCapacity (registry_len r) (max_concurrent_internal_calls c))
  else Ok tt.

(** ** What the registry stands for *)

(** The calls under way, no two with a Call-ID in common. *)
Definition distinct_calls (l : list InternalCallEntry) : Prop := distinct caller_call_id callee_call_id l.
Definition stands_for (r : InternalCallRegistry) (l : list InternalCallEntry) : Prop :=
  stands caller_call_id callee_call_id (by_caller r) (callee_to_caller r) l.
(** A call without a Call-ID of those under way. *)
Definition fresh_call (l : list InternalCallEntry) (e : InternalCallEntry) : Prop := fresh caller_call_id callee_call_id l e.

(** ** Any use of the registry *)

Inductive RegistryOp :=
  | InsertCall (e : InternalCallEntry)
  | RemoveByCaller (id : string)
  | RemoveByCallee (id : string).

Definition registry_step (r : InternalCallRegistry) (o : RegistryOp) : option InternalCallEntry * InternalCallRegistry :=
  match o with
  | InsertCall e => (None, call_insert r e)
  | RemoveByCaller id => remove_by_caller r id
  | RemoveByCallee id => remove_by_callee r id
  end.

(** The same on the list of the calls. *)
Definition calls_step (l : list InternalCallEntry) (o : RegistryOp) : option InternalCallEntry * list InternalCallEntry :=
  match o with
  | InsertCall e => (None, e :: l)
  | RemoveByCaller id => (find_first (fun e => String.eqb (caller_call_id e) id) l,
                          List.filter (fun e => negb (String.eqb (caller_call_id e) id)) l)
  | RemoveByCallee id => (find_first (fun e => String.eqb (callee_call_id e) id) l,
                          List.filter (fun e => negb (String.eqb (callee_call_id e) id)) l)
  end.

Fixpoint registry_run (r : InternalCallRegistry) (os : list RegistryOp) : list (option InternalCallEntry) * InternalCallRegistry :=
  match os with
  | [] => ([], r)
  | o :: os => let '(x, r) := registry_step r o in let '(xs, r) := registry_run r os in (x :: xs, r)
  end.
Fixpoint calls_run (l : list InternalCallEntry) (os : list RegistryOp) : list (option InternalCallEntry) * list InternalCallEntry :=
  match os with
  | [] => ([], l)
  | o :: os => let '(x, l) := calls_step l o in let '(xs, l) := calls_run l os in (x :: xs, l)
  end.
(** Every call that is inserted is fresh at that time. *)
Fixpoint fresh_inserts (l : list InternalCallEntry) (os : list RegistryOp) : Prop :=
  match os with
  | [] => True
  | o :: os => (match o with InsertCall e => fresh_call l e | _ => True end) /\ fresh_inserts (calls_step l o).2 os
  end.

Lemma registry_step_refines r l o : stands_for r l -> (match o with InsertCall e => fresh_call l e | _ => True end) ->
  (registry_step r o).1 = (calls_step l o).1 /\ stands_for (registry_step r o).2 (calls_step l o).2.
Proof.
  intros Hsf Hf. destruct o as [e | id | id]; cbn [registry_step calls_step fst snd].
  - split; [done|]. by apply stands_insert.
  - unfold remove_by_caller. pose proof (take_by_first _ _ _ _ _ id Hsf) as H. unfold with_first, without_first in H.
    destruct (by_caller r !! id) as [e|] eqn:He; cbn [fst snd]; destruct H as [-> H]; [by split|]. by rewrite H.
  - unfold remove_by_callee. pose proof (take_by_second _ _ _ _ _ id Hsf) as H. unfold with_second, without_second in H.
    destruct (callee_to_caller r !! id) as [c|] eqn:Hc; cbn [fst snd].
    + destruct H as (e & -> & -> & H). by split.
    + destruct H as [-> H]. by rewrite H.
Qed.

(** C12: as long as every call that is entered has Call-IDs that are not in use,
    the registry is the list of the calls under way: every removal, by either
    Call-ID, returns the call and takes it out of both maps, every lookup by
    either Call-ID finds the call that has it and no other, and the count that
    the admission compares with the limit is their number. *)
Theorem registry_is_the_calls os : fresh_inserts [] os ->
  let '(xs, r) := registry_run registry_new os in
  let '(ys, l) := calls_run [] os in
  xs = ys /\ distinct_calls l /\ registry_len r = length l /\
  (forall id, lookup_by_caller r id = find_first (fun e => String.eqb (caller_call_id e) id) l) /\
  (forall id, lookup_by_callee r id = find_first (fun e => String.eqb (callee_call_id e) id) l) /\
  (forall max, can_accept r max = true <-> (length l < max)%nat).
Proof.
  assert (forall r l, stands_for r l -> fresh_inserts l os ->
    (registry_run r os).1 = (calls_run l os).1 /\ stands_for (registry_run r os).2 (calls_run l os).2) as Hrun.
  { induction os as [|o os IH]; intros r l Hsf Hf; [done|]. destruct Hf as [Hf Hfs].
    destruct (registry_step_refines r l o Hsf Hf) as [H1 H2]. cbn [registry_run calls_run].
    destruct (registry_step r o) as [x r1], (calls_step l o) as [y l1]. cbn [fst snd] in *. subst y.
    destruct (IH r1 l1 H2 Hfs) as [H3 H4]. destruct (registry_run r1 os), (calls_run l1 os). cbn [fst snd] in *. by subst. }
  intros Hf. destruct (Hrun registry_new [] (stands_empty _ _) Hf) as [H1 H2].
  destruct (registry_run registry_new os) as [xs r], (calls_run [] os) as [ys l]. cbn [fst snd] in *.
  assert (registry_len r = length l) as Hlen by exact (stands_len _ _ _ _ _ H2).
  split_and!; [done | apply (st_distinct _ _ _ _ _ H2) | done | | |].
  - intros id. exact (find_by_first _ _ _ _ _ id H2).
  - intros id. exact (find_by_second _ _ _ _ _ id H2).
  - intros max. unfold can_accept. rewrite Hlen. apply Nat.ltb_lt.
Qed.

Lemma registry_is_the_calls_witness :
  let e1 := mkCall "a1" "b1" "alice" "bob" 1 in
  let e2 := mkCall "a2" "b2" "carol" "dave" 2 in
  let os := [InsertCall e1; InsertCall e2; RemoveByCallee "b1"; RemoveByCaller "zz"] in
  fresh_inserts [] os /\ (registry_run registry_new os).1 = [None; None; Some e1; None] /\
  lookup_by_callee (registry_run registry_new os).2 "b2" = Some e2.
Proof.
  intros e1 e2 os.
  assert (fresh_inserts [] os) as Hf.
  { cbn. split_and!; unfold fresh_call, fresh; cbn; try done; rewrite ?elem_of_cons, ?elem_of_nil; naive_solver. }
  split; [exact Hf|]. pose proof (registry_is_the_calls os Hf) as H.
  assert (calls_run [] os = ([None; None; Some e1; None], [e2])) as Hc by (by vm_compute). rewrite Hc in H.
  destruct (registry_run registry_new os) as [xs r]. destruct H as (H1 & _ & _ & _ & H2 & _).
  split; [exact H1 | exact (eq_trans (H2 "b2") ltac:(by vm_compute))].
Defined.

(** Without fresh Call-IDs the two maps part: after a second call to the same
    callee Call-ID, ending the first one hides the second from its callee. *)
Lemma reused_callee_id_hides_call :
  let e1 := mkCall "a1" "b" "alice" "bob" 1 in
  let e2 := mkCall "a2" "b" "carol" "bob" 2 in
  let r := (registry_run registry_new [InsertCall e1; InsertCall e2; RemoveByCaller "a1"]).2 in
  lookup_by_caller r "a2" = Some e2 /\ lookup_by_callee r "b" = None.
Proof. by vm_compute. Qed.

(** ** Admission between tasks *)

(** Dispatchers ask [try_admit] and register their call later; [flying] is how many
    were admitted and have not registered yet. *)
Inductive ServiceStep :=
  | StepAdmit
  | StepRegister (e : InternalCallEntry)
  | StepRemove (o : RegistryOp).
Definition service_step (c : IntercomConfig) (st : InternalCallRegistry * nat) (s : ServiceStep) : InternalCallRegistry * nat :=
  let '(r, flying) := st in
  match s with
  | StepAdmit => match try_admit c r with Ok _ => (r, S flying) | _ => (r, flying) end
  | StepRegister e => match flying with O => (r, O) | S flying => (call_insert r e, flying) end
  | StepRemove o => match o with InsertCall _ => (r, flying) | _ => ((registry_step r o).2, flying) end
  end.
Fixpoint service_run (c : IntercomConfig) (st : InternalCallRegistry * nat) (ss : list ServiceStep) :
    list (InternalCallRegistry * nat) :=
  st :: match ss with [] => [] | s :: ss => service_run c (service_step c st s) ss end.

Lemma insert_len r e : (registry_len (call_insert r e) <= S (registry_len r))%nat.
Proof.
  unfold registry_len. cbn [by_caller call_insert]. rewrite map_size_insert. by case_match; cbn; lia.
Qed.

Lemma remove_len r o : (match o with InsertCall _ => False | _ => True end) ->
  (registry_len (registry_step r o).2 <= registry_len r)%nat.
Proof.
  unfold registry_len. destruct o as [e | id | id]; [done | |]; intros _; cbn [registry_step].
  - unfold remove_by_caller. destruct (by_caller r !! id); cbn [snd by_caller]; [|done]. rewrite map_size_delete. case_match; cbn; lia.
  - unfold remove_by_callee. destruct (callee_to_caller r !! id); cbn [snd by_caller]; [|done].
    rewrite map_size_delete. case_match; cbn; lia.
Qed.

(** The admission is checked before the call is registered, so the limit can be
    exceeded, but only by the calls that were in between: if never more than [k]
    are admitted and not yet registered, there are never more than the limit and
    [k - 1] calls; with one dispatcher at a time the limit is kept. *)
Theorem admission_bounded c ss k : (1 <= k)%nat -> (1 <= max_concurrent_internal_calls c)%nat ->
  Forall (fun st => (snd st <= k)%nat) (service_run c (registry_new, 0%nat) ss) ->
  Forall (fun st => (registry_len (fst st) <= max_concurrent_internal_calls c + (k - 1))%nat)
    (service_run c (registry_new, 0%nat) ss).
Proof.
  intros Hk Hmax.
  assert (forall st, (registry_len (fst st) + snd st < max_concurrent_internal_calls c + k)%nat ->
    Forall (fun st => (snd st <= k)%nat) (service_run c st ss) ->
    Forall (fun st => (registry_len (fst st) <= max_concurrent_internal_calls c + (k - 1))%nat) (service_run c st ss)) as Hall.
  { induction ss as [|s ss IH]; intros st Hst Hfl; cbn [service_run] in *; (constructor; [lia|]); [constructor|].
    apply Forall_cons in Hfl as [_ Hfl]. apply IH; [|done].
    assert (snd (service_step c st s) <= k)%nat as Hnext by (destruct ss; by apply Forall_cons in Hfl as [? _]).
    destruct st as [r fl]. destruct s as [| e | o]; cbn [service_step fst snd] in *.
    - unfold try_admit in *. destruct (enabled c); [|done]. unfold can_accept in *.
      destruct (Nat.ltb_spec (registry_len r) (max_concurrent_internal_calls c)); cbn [negb fst snd] in *; lia.
    - destruct fl as [|fl]; cbn [fst snd] in *; [done|]. pose proof (insert_len r e). lia.
    - destruct o; [done | |]; cbn [fst snd] in *; (pose proof (remove_len r) as Hr; match goal with |- context [registry_step r ?o] => specialize (Hr o I) end; lia). }
  apply Hall. unfold registry_len. cbn. rewrite map_size_empty. lia.
Qed.

Lemma admission_bounded_witness :
  let c := mkIntercom true 1 in
  let e s := mkCall s s "alice" "bob" 1 in
  let st := service_run c (registry_new, 0%nat) [StepAdmit; StepAdmit; StepRegister (e "a"); StepRegister (e "b"); StepAdmit] in
  map (fun s => (registry_len (fst s), snd s)) st = [(0, 0); (0, 1); (0, 2); (1, 1); (2, 0); (2, 0)]%nat /\
  Forall (fun s => (registry_len (fst s) <= 2)%nat) st.
Proof.
  intros c e st. split; [by vm_compute|].
  apply (admission_bounded c [StepAdmit; StepAdmit; StepRegister (e "a"); StepRegister (e "b"); StepAdmit] 2);
    [lia | cbn; lia |]. repeat (apply Forall_cons; split; [apply Nat.leb_le; by vm_compute|]). by apply Forall_nil.
Defined.
