(* ===== verification/HttpDate.v ===== *)
(** The [Date] header of the answers to the NGN (http_date_now and
    format_http_date of src/src/call/orchestrator.rs): a count of seconds since
    1970 as an IMF-fixdate.

    The code uses the algorithm of Hinnant on eras of 400 years;
    [http_date_is_gregorian] compares it with a calendar that goes from each day to
    the next. *)
From S2P Require Import Prelude RustStr.

(** [{:0w}]: zeros in front, up to [w] digits. *)
Definition print_padded (w : nat) (z : Z) : string :=
  let s := print_uint z in
  String.concat "" (repeat "0" (w - String.length s)) +:+ s.

Definition DAY_NAMES : list string := ["Mon"; "Tue"; "Wed"; "Thu"; "Fri"; "Sat"; "Sun"].
Definition MONTH_NAMES : list string :=
  ["Jan"; "Feb"; "Mar"; "Apr"; "May"; "Jun"; "Jul"; "Aug"; "Sep"; "Oct"; "Nov"; "Dec"].

(** Year, month from 1, day from 1. *)
Definition Date : Type := Z * Z * Z.

(** [yoe] to [d]: the date of a day of an era, with the year counted in the era
    from a March. *)
Definition date_of_era_day (doe : Z) : Date :=
  let yoe := (doe - doe / 1460 + doe / 36524 - doe / 146096) / 365 in
  let doy := doe - (365 * yoe + yoe / 4 - yoe / 100) in
  let mp := (5 * doy + 2) / 153 in
  let d := doy - (153 * mp + 2) / 5 + 1 in
  let m := if mp <? 10 then mp + 3 else mp - 9 in
  (yoe, m, d).

Definition civil_from_days (days_since_epoch : Z) : Date :=
  let z := days_since_epoch + 719468 in
  let era := Z.quot (if 0 <=? z then z else z - 146096) 146097 in
  let doe := z - era * 146097 in
  let '(yoe, m, d) := date_of_era_day doe in
  let y := yoe + era * 400 in
  (if m <=? 2 then y + 1 else y, m, d).

Definition format_http_date (secs_since_epoch : Z) : string :=
  let day_seconds := secs_since_epoch mod 86400 in
  let hour := day_seconds / 3600 in
  let minute := day_seconds mod 3600 / 60 in
  let second := day_seconds mod 60 in
  let days_since_epoch := secs_since_epoch / 86400 in
  let dow := Z.to_nat ((days_since_epoch + 3) mod 7) in
  let '(year, m, d) := civil_from_days days_since_epoch in
  let dow_name := nth dow DAY_NAMES "" in
  let month_name := nth (Z.to_nat (m - 1)) MONTH_NAMES "" in
  dow_name +:+ ", " +:+ print_padded 2 d +:+ " " +:+ month_name +:+ " " +:+ print_padded 4 year +:+ " " +:+
    print_padded 2 hour +:+ ":" +:+ print_padded 2 minute +:+ ":" +:+ print_padded 2 second +:+ " GMT".

(** [http_date_now]: the wall clock in nanoseconds; before 1970 it is taken for 1970. *)
Definition http_date_now (since_epoch : option Z) : string :=
  format_http_date (match since_epoch with Some d => as_secs d | None => 0 end).

Example http_date_example : format_http_date 1778485415 = "Mon, 11 May 2026 07:43:35 GMT".
Proof. by vm_compute. Qed.

(** ** The calendar *)

Definition leap (y : Z) : bool := (y mod 4 =? 0) && (negb (y mod 100 =? 0) || (y mod 400 =? 0)).
Definition month_days (y m : Z) : Z :=
  if m =? 2 then if leap y then 29 else 28
  else if (m =? 4) || (m =? 6) || (m =? 9) || (m =? 11) then 30 else 31.
Definition next_day (t : Date) : Date :=
  let '(y, m, d) := t in
  if d <? month_days y m then (y, m, d + 1) else if m <? 12 then (y, m + 1, 1) else (y + 1, 1, 1).

(** The date [n] days after the first of January 1970. *)
Definition nth_day (n : nat) : Date := Nat.iter n next_day (1970, 1, 1).

(** The calendar year of a year counted from March. *)
Definition from_march (t : Date) (era : Z) : Date :=
  let '(y, m, d) := t in (if m <=? 2 then y + era * 400 + 1 else y + era * 400, m, d).

Lemma civil_era z : 0 <= z -> civil_from_days (z - 719468) = from_march (date_of_era_day (z mod 146097)) (z / 146097).
Proof.
  intros Hz. unfold civil_from_days, from_march. replace (z - 719468 + 719468) with z by lia.
  replace (0 <=? z) with true by lia. rewrite Z.quot_div_nonneg by lia.
  replace (z - z / 146097 * 146097) with (z mod 146097) by (pose proof (Z.div_mod z 146097); lia).
  by destruct (date_of_era_day (z mod 146097)) as [[y m] d].
Qed.

Lemma leap_era y k : leap (y + k * 400) = leap y.
Proof.
  unfold leap. rewrite (Z.mod_add y k 400) by done.
  replace (y + k * 400) with (y + (k * 100) * 4) at 1 by lia. rewrite Z.mod_add by done.
  replace (y + k * 400) with (y + (k * 4) * 100) by lia. by rewrite Z.mod_add by done.
Qed.

Lemma next_day_era y m d k : next_day (y + k * 400, m, d) = (let '(y', m', d') := next_day (y, m, d) in (y' + k * 400, m', d')).
Proof.
  unfold next_day, month_days. rewrite leap_era. destruct (d <? _); [done|]. destruct (m <? 12); [done|]. f_equal; f_equal; lia.
Qed.

(** *** Within an era: the years, then the days of a year *)

(** The day of the era a year starts on, and the sum whose quotient by 365 is the year. *)
Definition year_start (y : Z) : Z := 365 * y + y / 4 - y / 100 + y / 400.
Definition year_sum (doe : Z) : Z := doe - doe / 1460 + doe / 36524 - doe / 146096.

Lemma year_sum_mono a b : a <= b -> year_sum a <= year_sum b.
Proof.
  intros Hab. replace b with (a + Z.of_nat (Z.to_nat (b - a))) by lia. generalize (Z.to_nat (b - a)). intros n.
  induction n as [|n IH]; [by rewrite Z.add_0_r|]. etransitivity; [exact IH|].
  replace (a + Z.of_nat (S n)) with (a + Z.of_nat n + 1) by lia. generalize (a + Z.of_nat n). intros x. unfold year_sum.
  change 146096 with (36524 * 4). rewrite <- !Z.div_div by done.
  assert ((x + 1) / 36524 = x / 36524 \/ (x + 1) / 36524 = x / 36524 + 1) by (Z.to_euclidean_division_equations; lia).
  assert ((x + 1) / 1460 <= x / 1460 + 1) by (Z.to_euclidean_division_equations; lia).
  assert (((x + 1) / 36524) / 4 <= (x / 36524) / 4 + ((x + 1) / 36524 - x / 36524)) by (Z.to_euclidean_division_equations; lia). lia.
Qed.

Lemma year_of_day y doe : 0 <= y < 400 -> year_start y <= doe < year_start (y + 1) -> year_sum doe / 365 = y.
Proof.
  intros Hy Hd.
  assert ((year_sum (year_start y) / 365 =? y) && (year_sum (year_start (y + 1) - 1) / 365 =? y) = true) as Hc
    by range_exhaust y 0 400.
  apply andb_true_iff in Hc as [Hc1%Z.eqb_eq Hc2%Z.eqb_eq].
  pose proof (Z.div_le_mono _ _ 365 ltac:(done) (year_sum_mono (year_start y) doe ltac:(lia))).
  pose proof (Z.div_le_mono _ _ 365 ltac:(done) (year_sum_mono doe (year_start (y + 1) - 1) ltac:(lia))). lia.
Qed.

Lemma day_has_year doe : 0 <= doe < 146097 -> exists y k, 0 <= y < 400 /\ doe = year_start y + k /\ 0 <= k < year_start (y + 1) - year_start y.
Proof.
  intros Hd. assert (forall n : nat, doe < year_start (Z.of_nat n) -> exists y, 0 <= y < Z.of_nat n /\ year_start y <= doe < year_start (y + 1)) as H.
  { induction n as [|n IH]; intros Hn; [change (year_start (Z.of_nat 0)) with 0 in Hn; lia|].
    destruct (decide (doe < year_start (Z.of_nat n))) as [Hl|Hl].
    - destruct (IH Hl) as (y & Hy & Hb). exists y. split; [lia | exact Hb].
    - exists (Z.of_nat n). replace (Z.of_nat n + 1) with (Z.of_nat (S n)) by lia. split; lia. }
  destruct (H 400%nat) as (y & Hy & Hb); [change (year_start (Z.of_nat 400)) with 146097; lia|].
  exists y, (doe - year_start y). lia.
Qed.

(** The month and the day of a day of the year that starts in March. *)
Definition month_day (doy : Z) : Z * Z :=
  let mp := (5 * doy + 2) / 153 in (if mp <? 10 then mp + 3 else mp - 9, doy - (153 * mp + 2) / 5 + 1).

Lemma date_of_year y k : 0 <= y < 400 -> 0 <= k < year_start (y + 1) - year_start y ->
  date_of_era_day (year_start y + k) = (y, fst (month_day k), snd (month_day k)).
Proof.
  intros Hy Hk. pose proof (year_of_day y (year_start y + k) Hy ltac:(lia)) as Hyoe. unfold year_sum in Hyoe.
  unfold date_of_era_day. rewrite Hyoe. assert (y / 400 = 0) as H0 by (apply Z.div_small; lia).
  replace (year_start y + k - (365 * y + y / 4 - y / 100)) with k by (unfold year_start; lia). done.
Qed.

Lemma year_length y : 0 <= y < 400 -> year_start (y + 1) - year_start y = (if leap (y + 1) then 366 else 365).
Proof.
  intros Hy. assert ((year_start (y + 1) - year_start y =? if leap (y + 1) then 366 else 365) = true) by range_exhaust y 0 400. lia.
Qed.

Lemma leap_february y m : m <> 2 -> month_days y m = month_days 1 m.
Proof. intros Hm. unfold month_days. by replace (m =? 2) with false by lia. Qed.

(** Day by day, up to the twenty-eighth of February. *)
Lemma month_day_next k : 0 <= k < 364 ->
  let '(m, d) := month_day k in
  month_day (k + 1) = (if (m =? 2) || (d <? month_days 1 m) then (m, d + 1) else if m <? 12 then (m + 1, 1) else (1, 1)) /\
  (m = 2 -> d < 28).
Proof.
  intros Hk.
  assert ((let '(m, d) := month_day k in
    bool_decide (month_day (k + 1) = (if (m =? 2) || (d <? month_days 1 m) then (m, d + 1) else if m <? 12 then (m + 1, 1) else (1, 1))) &&
    (negb (m =? 2) || (d <? 28))) = true) as H by range_exhaust k 0 364.
  destruct (month_day k) as [m d]. apply andb_true_iff in H as [H1%bool_decide_eq_true_1 H2]. split; [exact H1 | lia].
Qed.

Lemma era_days doe : 0 <= doe < 146096 ->
  from_march (date_of_era_day (doe + 1)) 0 = next_day (from_march (date_of_era_day doe) 0).
Proof.
  intros H. destruct (day_has_year doe ltac:(lia)) as (y & k & Hy & -> & Hk). rewrite (date_of_year y k Hy Hk).
  pose proof (year_length y Hy) as Hlen. destruct (decide (k < 364)) as [Hs|Hs].
  - replace (year_start y + k + 1) with (year_start y + (k + 1)) by lia.
    rewrite date_of_year by (try destruct (leap (y + 1)); lia). pose proof (month_day_next k ltac:(lia)) as Hn.
    destruct (month_day k) as [m d]. cbn [fst snd]. destruct Hn as [-> H2]. unfold from_march, next_day.
    destruct (m =? 2) eqn:Em; cbn [orb fst snd].
    + assert (m = 2) as -> by lia. specialize (H2 eq_refl). cbn [Z.leb Z.compare Pos.compare Pos.compare_cont]. unfold month_days. cbn [Z.eqb Pos.eqb].
      assert ((d <? 29) = true) as E9 by lia. assert ((d <? 28) = true) as E8 by lia.
      destruct (leap (y + 0 * 400 + 1)); cbv iota; by rewrite ?E9, ?E8.
    + destruct (m <=? 2) eqn:Em2; first [rewrite (leap_february (y + 0 * 400 + 1)) by lia | rewrite (leap_february (y + 0 * 400)) by lia]; destruct (d <? month_days 1 m) eqn:Ed; cbn [fst snd];
        rewrite ?Em2; try done; destruct (m <? 12) eqn:E12; cbn [fst snd].
      * by replace (m + 1 <=? 2) with true by lia.
      * lia.
      * by replace (m + 1 <=? 2) with false by lia.
      * done.
  - destruct (leap (y + 1)) eqn:El; (destruct (decide (k = 364)) as [->|Hk4]; [|try (assert (k = 365) as -> by lia); try lia]).
    + replace (year_start y + 364 + 1) with (year_start y + 365) by lia. rewrite date_of_year by lia.
      change (month_day 364) with (2, 28). change (month_day 365) with (2, 29). cbn -[leap Z.add]. unfold month_days. cbn [Z.eqb Pos.eqb].
      rewrite !Z.add_0_r. by rewrite El.
    + destruct (decide (y = 399)) as [->|Hy9]; [change (year_start 399) with 145731 in H; first [lia | by vm_compute in El]|].
      replace (year_start y + 365 + 1) with (year_start (y + 1) + 0) by lia. pose proof (year_length (y + 1) ltac:(lia)).
      rewrite date_of_year by (try destruct (leap (y + 1 + 1)); lia).
      change (month_day 365) with (2, 29). change (month_day 0) with (3, 1). cbn -[leap Z.add]. unfold month_days. cbn [Z.eqb Pos.eqb].
      rewrite !Z.add_0_r. rewrite El. cbn -[Z.add]. by rewrite ?Z.add_0_r.
    + destruct (decide (y = 399)) as [->|Hy9]; [change (year_start 399) with 145731 in H; first [lia | by vm_compute in El]|].
      replace (year_start y + 364 + 1) with (year_start (y + 1) + 0) by lia. pose proof (year_length (y + 1) ltac:(lia)).
      rewrite date_of_year by (try destruct (leap (y + 1 + 1)); lia).
      change (month_day 364) with (2, 28). change (month_day 0) with (3, 1). cbn -[leap Z.add]. unfold month_days. cbn [Z.eqb Pos.eqb].
      rewrite !Z.add_0_r. rewrite El. cbn -[Z.add]. by rewrite ?Z.add_0_r.
Qed.

Lemma from_march_era t k : from_march t k = (let '(y, m, d) := from_march t 0 in (y + k * 400, m, d)).
Proof. destruct t as [[y m] d]. cbn. destruct (m <=? 2); f_equal; f_equal; lia. Qed.

Lemma civil_next n : 0 <= n -> civil_from_days (n + 1) = next_day (civil_from_days n).
Proof.
  intros Hn. set (z := n + 719468).
  replace (n + 1) with (z + 1 - 719468) by lia. replace n with (z - 719468) at 1 by lia.
  rewrite !civil_era by lia. pose proof (Z.div_mod z 146097 ltac:(done)) as Hdm. pose proof (Z.mod_pos_bound z 146097 ltac:(done)) as Hb.
  destruct (decide (z mod 146097 = 146096)) as [Hl|Hl].
  - assert ((z + 1) / 146097 = z / 146097 + 1) as -> by (symmetry; apply (Z.div_unique _ _ _ 0); lia).
    assert ((z + 1) mod 146097 = 0) as -> by (symmetry; apply (Z.mod_unique _ _ (z / 146097 + 1)); lia).
    rewrite Hl, (from_march_era _ (z / 146097)).
    change (from_march (date_of_era_day 146096) 0) with (400, 2, 29). cbn [fst snd]. rewrite next_day_era.
    change (date_of_era_day 0) with (0, 3, 1). cbn. f_equal. f_equal. lia.
  - assert ((z + 1) / 146097 = z / 146097) as -> by (symmetry; apply (Z.div_unique _ _ _ (z mod 146097 + 1)); lia).
    assert ((z + 1) mod 146097 = z mod 146097 + 1) as -> by (symmetry; apply (Z.mod_unique _ _ (z / 146097)); lia).
    pose proof (era_days (z mod 146097) ltac:(lia)) as H.
    rewrite (from_march_era (date_of_era_day (z mod 146097 + 1)) (z / 146097)), H.
    rewrite (from_march_era (date_of_era_day (z mod 146097)) (z / 146097)).
    destruct (from_march (date_of_era_day (z mod 146097)) 0) as [[y m] d]. by rewrite next_day_era.
Qed.

Lemma civil_nth n : civil_from_days (Z.of_nat n) = nth_day n.
Proof.
  induction n as [|n IH]; [by vm_compute|]. rewrite Nat2Z.inj_succ. unfold Z.succ. rewrite civil_next by lia. by rewrite IH.
Qed.

(** For every count of seconds the header names the day of the Gregorian
    calendar that is that many days after Thursday the first of January 1970, with
    its day of the week, and the time of day; the leap days of all the years are
    counted. *)
Theorem http_date_is_gregorian n h m s : 0 <= h < 24 -> 0 <= m < 60 -> 0 <= s < 60 ->
  let '(year, month, d) := nth_day n in
  format_http_date (86400 * Z.of_nat n + 3600 * h + 60 * m + s) =
  nth (Z.to_nat ((Z.of_nat n + 3) mod 7)) DAY_NAMES "" +:+ ", " +:+ print_padded 2 d +:+ " " +:+
    nth (Z.to_nat (month - 1)) MONTH_NAMES "" +:+ " " +:+ print_padded 4 year +:+ " " +:+
    print_padded 2 h +:+ ":" +:+ print_padded 2 m +:+ ":" +:+ print_padded 2 s +:+ " GMT".
Proof.
  intros Hh Hm Hs. unfold format_http_date. set (x := 86400 * Z.of_nat n + 3600 * h + 60 * m + s).
  assert (x / 86400 = Z.of_nat n) as -> by (symmetry; apply (Z.div_unique _ _ _ (3600 * h + 60 * m + s)); lia).
  assert (x mod 86400 = 3600 * h + 60 * m + s) as -> by (symmetry; apply (Z.mod_unique _ _ (Z.of_nat n)); lia).
  assert ((3600 * h + 60 * m + s) / 3600 = h) as -> by (symmetry; apply (Z.div_unique _ _ _ (60 * m + s)); lia).
  assert ((3600 * h + 60 * m + s) mod 3600 = 60 * m + s) as -> by (symmetry; apply (Z.mod_unique _ _ h); lia).
  assert ((60 * m + s) / 60 = m) as -> by (symmetry; apply (Z.div_unique _ _ _ s); lia).
  assert ((3600 * h + 60 * m + s) mod 60 = s) as -> by (symmetry; apply (Z.mod_unique _ _ (60 * h + m)); lia).
  rewrite civil_nth. by destruct (nth_day n) as [[year month] d].
Qed.

Lemma http_date_is_gregorian_witness :
  0 <= 23 < 24 /\ nth_day 789 = (1972, 2, 29) /\ format_http_date (86400 * 789 + 3600 * 23) = "Tue, 29 Feb 1972 23:00:00 GMT".
Proof.
  split; [done|]. assert (nth_day 789 = (1972, 2, 29)) as Hd by (by vm_compute). split; [exact Hd|].
  pose proof (http_date_is_gregorian 789 23 0 0 ltac:(lia) ltac:(lia) ltac:(lia)) as H. rewrite Hd in H.
  etransitivity; [|etransitivity; [exact H|]]; by vm_compute.
Defined.
