(* ===== verification/Register.v ===== *)
(** The registration client (src/src/sip/register.rs): the REGISTER it builds,
    the retry after a challenge and the loop that keeps the registration alive,
    as programs over the transaction layer ([TuProg]). *)
From S2P Require Import Prelude F64 RustStr NetAddr SipMessage SipUtils Transaction Auth TuProg Uac Observability.

(** The [sip] section of the configuration (config/mod.rs). *)
Record SipConfig := mkSipConfig {
  sc_server_addr : SocketAddr; sc_bind_addr : option SocketAddr; sc_local_addr : option SocketAddr;
  phone_number : string; domain : string; password : option string; register_expires : Z }.

Definition default_sip_bind_addr : SocketAddr := mkAddr (V6 [0; 0; 0; 0; 0; 0; 0; 0]) 5060.
Definition resolved_bind_addr (c : SipConfig) : SocketAddr := default default_sip_bind_addr (sc_bind_addr c).
(** [Option::expect]. *)
Definition expect_local_addr (c : SipConfig) : tu_result SocketAddr :=
  match sc_local_addr c with Some a => Ok a | None => Panic end.

Record Registrar := mkRegistrar { rg_config : SipConfig; server_addr : SocketAddr; rg_call_id : string; tag : string }.

(** [Registrar::with_metrics]: the identity is drawn once. *)
Definition with_metrics (config : SipConfig) (server : SocketAddr) (r_call r_tag : Z) : Registrar :=
  mkRegistrar config server (new_call_id r_call) (new_tag r_tag).

(** What the process shares: the [CSEQ] counter, the routes of sip/mod.rs. *)
Record Shared := mkShared { cseq_counter : Z; routes : Routes }.

(** [CSEQ.fetch_add(1)]: the value before. *)
Definition next_cseq (w : Shared) : Z * Shared :=
  (cseq_counter w, mkShared (wrapping_add 32 (cseq_counter w) 1) (routes w)).

Definition build_register (g : Registrar) (cseq : Z) (authorization : option string) (r : Z) : tu_result SipRequest :=
  let c := rg_config g in
  local_addr ← expect_local_addr c;
  let aor := "<sip:" +:+ phone_number c +:+ "@" +:+ domain c +:+ ">" in
  let h := hdr_set [] "Via"
    ("SIP/2.0/UDP " +:+ print_socket local_addr +:+ ";rport;branch=" +:+ new_branch r) in
  let h := hdr_set h "Max-Forwards" "70" in
  let h := hdr_set h "From" (aor +:+ ";tag=" +:+ tag g) in
  let h := hdr_set h "To" aor in
  let h := hdr_set h "Call-ID" (rg_call_id g) in
  let h := hdr_set h "CSeq" (print_uint cseq +:+ " REGISTER") in
  let h := hdr_set h "Contact" ("<sip:" +:+ phone_number c +:+ "@" +:+ print_socket local_addr +:+ ">") in
  let h := hdr_set h "Expires" (print_uint (register_expires c)) in
  let h := hdr_set h "Allow" "INVITE, ACK, BYE, CANCEL, OPTIONS, INFO, NOTIFY" in
  let h := hdr_set h "User-Agent" "hikari-sip/0.1" in
  let h := match authorization with Some auth => hdr_set h "Authorization" auth | None => h end in
  Ok (mkRequest Register ("sip:" +:+ domain c) h "").

Definition parse_expires (h : SipHeaders) : Z :=
  default 3600 (hdr_get h "expires" ≫= parse_uint 32).

(** The routes a 200 leaves. *)
Definition store_routes (g : Registrar) (resp : SipResponse) (w : Shared) : Shared :=
  let rt := store_service_route (routes w) (hdr_get (resp_headers resp) "service-route") in
  let rt := store_outbound_proxy_route rt (Some ("<sip:" +:+ print_socket (server_addr g) +:+ ";lr>")) in
  mkShared (cseq_counter w) rt.

(** The random numbers of an attempt: two branches and the client nonce. *)
Record RegRnd := mkRegRnd { rr_branch1 : Z; rr_branch2 : Z; rr_cnonce : Z }.

Section register.
Context (md5 : string -> list Z).

(** The answer to a challenge. *)
Definition answer_challenge (g : Registrar) (password : string) (resp : SipResponse) (rnd : Z) :
    tu_result string :=
  www_auth ← ok_or (hdr_get (resp_headers resp) "www-authenticate") NoWwwAuthenticate;
  challenge ← map_err TuAuth (challenge_parse www_auth);
  let creds := mkCred (phone_number (rg_config g)) password in
  let uri := "sip:" +:+ domain (rg_config g) in
  Ok (header_value (compute md5 creds challenge "REGISTER" uri 1 rnd)).

(** A failed attempt has also taken numbers: the result comes with what is
    shared. *)
Definition register_with_retry (g : Registrar) (w : Shared) (rnd : RegRnd) : prog (tu_result Z * Shared) :=
  let '(cseq, w) := next_cseq w in
  req ← Done (build_register g cseq None (rr_branch1 rnd));
  Call req (server_addr g) (fun o =>
    match o with
    | None => mret (Err LayerFailed, w)
    | Some resp =>
        if status_code resp =? 200 then mret (Ok (parse_expires (resp_headers resp)), store_routes g resp w)
        else if status_code resp =? 401 then
          match password (rg_config g) with
          | None => mret (Err AuthNoneMode, w)
          | Some password =>
              match answer_challenge g password resp (rr_cnonce rnd) with
              | Ok auth =>
                  let '(cseq2, w) := next_cseq w in
                  req2 ← Done (build_register g cseq2 (Some auth) (rr_branch2 rnd));
                  Call req2 (server_addr g) (fun o2 =>
                    match o2 with
                    | None => mret (Err LayerFailed, w)
                    | Some resp2 =>
                        if status_code resp2 =? 200 then
                          mret (Ok (parse_expires (resp_headers resp2)), store_routes g resp2 w)
                        else mret (Err (Rejected (status_code resp2)), w)
                    end)
              | Err e => mret (Err e, w)
              | Panic => Done Panic
              end
          end
        else mret (Err (Unexpected (status_code resp)), w)
    end).

(** ** The loop *)

(** The time to the next attempt, in nanoseconds. *)
Definition refresh_secs (expires : Z) : Z := f64_to_u64 (f64_mul (f64_of_Z expires) f64_nine_tenths).
Definition RETRY_WAIT : Z := from_secs 30.
Definition next_delay (r : tu_result Z) : Z :=
  match r with Ok expires => from_secs (refresh_secs expires) | _ => RETRY_WAIT end.

Record RegState := mkRegState { registered : bool; reg_metrics : Metrics; shared : Shared }.

Definition note_result (st : RegState) (r : tu_result Z) (w : Shared) : RegState :=
  let success := match r with Ok _ => true | _ => false end in
  mkRegState success (record_register (reg_metrics st) success) w.

(** A clock the sleep of the loop moves. *)
Class Clock (S : Type) := { now : S -> Z; sleep : S -> Z -> S }.

(** One turn of the loop: when it began, what was sent, its result, the state
    after it and the sleep that follows. *)
Record attempt (S : Type) := mkAttempt {
  at_start : Z; at_sent : list sent; at_result : tu_result Z; at_state : RegState; at_net : S; at_delay : Z }.

(** The first [n] turns; the loop stops at a panic. *)
Fixpoint register_loop {S} `{Network S} `{Clock S} (n : nat) (g : Registrar) (rnd : nat -> RegRnd)
    (st : RegState) (s : S) : list (attempt S) :=
  match n with
  | O => []
  | Datatypes.S n =>
      let '(r, trace, s') := run (register_with_retry g (shared st) (rnd O)) s in
      match r with
      | Ok (r, w) =>
          let st' := note_result st r w in
          let d := next_delay r in
          mkAttempt S (now s) trace r st' s' d ::
            register_loop n g (fun i => rnd (Datatypes.S i)) st' (sleep s' d)
      | _ => []
      end
  end.
End register.
Arguments mkAttempt {S}.
Arguments at_start {S} a.
Arguments at_sent {S} a.
Arguments at_result {S} a.
Arguments at_state {S} a.
Arguments at_net {S} a.
Arguments at_delay {S} a.

(** ** One attempt *)

Lemma build_register_headers g cseq auth r req : build_register g cseq auth r = Ok req ->
  exists local, sc_local_addr (rg_config g) = Some local /\
  let c := rg_config g in let h := req_headers req in
  req_method req = Register /\ req_uri req = "sip:" +:+ domain c /\
  hdr_get h "via" = Some ("SIP/2.0/UDP " +:+ print_socket local +:+ ";rport;branch=" +:+ new_branch r) /\
  hdr_get h "from" = Some (("<sip:" +:+ phone_number c +:+ "@" +:+ domain c +:+ ">") +:+ ";tag=" +:+ tag g) /\
  hdr_get h "to" = Some ("<sip:" +:+ phone_number c +:+ "@" +:+ domain c +:+ ">") /\
  hdr_get h "call-id" = Some (rg_call_id g) /\
  hdr_get h "cseq" = Some (print_uint cseq +:+ " REGISTER") /\
  hdr_get h "contact" = Some ("<sip:" +:+ phone_number c +:+ "@" +:+ print_socket local +:+ ">") /\
  hdr_get h "expires" = Some (print_uint (register_expires c)) /\
  hdr_get h "authorization" = auth.
Proof.
  unfold build_register, expect_local_addr. destruct (sc_local_addr (rg_config g)) as [local|]; [|done].
  cbn [mbind outcome_bind]. intros H. exists local. split; [done|]. injection H as <-.
  cbn [req_method req_uri req_headers].
  destruct auth as [auth|]; split_and!; try done; rewrite !hdr_get_set; eval_headers; done.
Qed.

(** A REGISTER of the registration [g] with the number [cseq], sent to its
    server. Only a client with a password sends credentials. *)
Definition register_of (g : Registrar) (cseq : Z) (x : sent) : Prop :=
  exists req auth r, x = Awaited req (server_addr g) /\ build_register g cseq auth r = Ok req /\
    (password (rg_config g) = None -> auth = None).

Lemma next_cseq_spec w : u32 (cseq_counter w) ->
  u32 (cseq_counter (next_cseq w).2) /\ routes (next_cseq w).2 = routes w.
Proof. intros _. split; [apply wrap_range; lia | done]. Qed.

Section attempts.
Context {S : Type} `{Network S} (md5 : string -> list Z).

Lemma build_register_ok g cseq auth r : sc_local_addr (rg_config g) <> None ->
  exists req, build_register g cseq auth r = Ok req.
Proof.
  unfold build_register, expect_local_addr. destruct (sc_local_addr (rg_config g)); [|done]. intros _. by eexists.
Qed.

(** The numbers of an attempt that begins with [c]. *)
Definition nth_cseq (c : Z) (i : nat) : Z := wrap 32 (c + Z.of_nat i).

Lemma nth_cseq_0 c : u32 c -> nth_cseq c 0 = c.
Proof. intros Hc. unfold nth_cseq. rewrite Z.add_0_r. by apply wrap_small. Qed.

Lemma nth_cseq_shift c i j : nth_cseq (nth_cseq c i) j = nth_cseq c (i + j).
Proof.
  unfold nth_cseq, wrap. rewrite Zplus_mod_idemp_l. f_equal. lia.
Qed.

Definition own_route (g : Registrar) : string := "<sip:" +:+ print_socket (server_addr g) +:+ ";lr>".

(** An attempt: the requests [trace] it sends, its result and what it shares. *)
Record attempt_ok (g : Registrar) (w : Shared) (trace : list sent) (r : tu_result Z) (w' : Shared) : Prop := {
  ao_sent i x : nth_error trace i = Some x -> register_of g (nth_cseq (cseq_counter w) i) x;
  ao_next : cseq_counter w' = nth_cseq (cseq_counter w) (length trace);
  ao_few : (1 <= length trace <= 2)%nat;
  ao_open : password (rg_config g) = None -> length trace = 1%nat;
  ao_routes : match r with
    | Ok expires => u32 expires /\ outbound_proxy_route (routes w') = Some (own_route g)
    | _ => routes w' = routes w
    end
}.

Lemma challenge_no_panic s : no_panic (challenge_parse s).
Proof.
  unfold challenge_parse. generalize (split_auth_params (trim_start_matches "digest " (trim_start_matches "Digest " s))).
  intros l. generalize (mkChallenge "" "" "MD5" None None). induction l as [|x l IH]; intros c; cbn [challenge_params].
  - apply no_panic_ok.
  - apply no_panic_bind; [apply ok_or_no_panic|]. intros [k v] _. apply IH.
Qed.

Lemma parse_expires_range h : u32 (parse_expires h).
Proof.
  unfold parse_expires. destruct (hdr_get h "expires") as [v|]; [|done]. cbn [mbind option_bind].
  destruct (parse_uint 32 v) as [n|] eqn:Hn; [|done]. by apply parse_uint_range in Hn.
Qed.

(** The traces of one and of two requests. *)
Lemma attempt_one g w r x w' : u32 (cseq_counter w) -> register_of g (cseq_counter w) x ->
  cseq_counter w' = nth_cseq (cseq_counter w) 1 ->
  match r with
  | Ok expires => u32 expires /\ outbound_proxy_route (routes w') = Some (own_route g)
  | _ => routes w' = routes w
  end -> attempt_ok g w [x] r w'.
Proof.
  intros Hc Hx Hn Hr. split; [|done|cbn; lia|done|done].
  intros [|[|i]] y; cbn [nth_error]; [intros [= <-] | done | done]. by rewrite nth_cseq_0.
Qed.

Lemma attempt_two g w r x y w' : u32 (cseq_counter w) -> register_of g (cseq_counter w) x ->
  register_of g (nth_cseq (cseq_counter w) 1) y -> password (rg_config g) <> None ->
  cseq_counter w' = nth_cseq (cseq_counter w) 2 ->
  match r with
  | Ok expires => u32 expires /\ outbound_proxy_route (routes w') = Some (own_route g)
  | _ => routes w' = routes w
  end -> attempt_ok g w [x; y] r w'.
Proof.
  intros Hc Hx Hy Hp Hn Hr. split; [|done|cbn; lia|done|done].
  intros [|[|[|i]]] z; cbn [nth_error]; [intros [= <-] | by intros [= <-] | done | done]. by rewrite nth_cseq_0.
Qed.

(** An attempt never panics when the local address is known. *)
Lemma run_attempt g w rnd s : sc_local_addr (rg_config g) <> None -> u32 (cseq_counter w) ->
  exists r w' trace s', run (register_with_retry md5 g w rnd) s = (Ok (r, w'), trace, s') /\
    attempt_ok g w trace r w'.
Proof.
  intros Hl Hc. unfold register_with_retry, next_cseq. cbn [cseq_counter routes].
  assert (wrapping_add 32 (cseq_counter w) 1 = nth_cseq (cseq_counter w) 1) as -> by done.
  assert (wrapping_add 32 (nth_cseq (cseq_counter w) 1) 1 = nth_cseq (cseq_counter w) 2) as ->.
  { by rewrite <- (nth_cseq_shift _ 1 1). }
  destruct (build_register_ok g (cseq_counter w) None (rr_branch1 rnd) Hl) as [req1 Hr1]. rewrite Hr1.
  assert (register_of g (cseq_counter w) (Awaited req1 (server_addr g))) as H1 by (by exists req1, None, (rr_branch1 rnd)).
  change (Done (Ok req1) ≫= ?f) with (f req1). cbn beta. cbn [run].
  destruct (net_call s req1 (server_addr g)) as [[resp|] s1].
  2: { do 4 eexists. split; [reflexivity | by apply attempt_one]. }
  destruct (status_code resp =? 200).
  { do 4 eexists. split; [reflexivity|]. apply attempt_one; try done. split; [apply parse_expires_range | done]. }
  destruct (status_code resp =? 401).
  2: { do 4 eexists. split; [reflexivity | by apply attempt_one]. }
  destruct (password (rg_config g)) as [pw|] eqn:Hp.
  2: { do 4 eexists. split; [reflexivity | by apply attempt_one]. }
  destruct (answer_challenge md5 g pw resp (rr_cnonce rnd)) as [auth | e |] eqn:Ha.
  - destruct (build_register_ok g (nth_cseq (cseq_counter w) 1) (Some auth) (rr_branch2 rnd) Hl) as [req2 Hr2].
    rewrite Hr2.
    assert (register_of g (nth_cseq (cseq_counter w) 1) (Awaited req2 (server_addr g))) as H2.
    { exists req2, (Some auth), (rr_branch2 rnd). by rewrite Hp. }
    change (Done (Ok req2) ≫= ?f) with (f req2). cbn beta. cbn [run].
    destruct (net_call s1 req2 (server_addr g)) as [[resp2|] s2].
    2: { do 4 eexists. split; [reflexivity | apply attempt_two; done || by rewrite Hp]. }
    destruct (status_code resp2 =? 200); do 4 eexists; (split; [reflexivity|]);
      apply attempt_two; try done; try (by rewrite Hp).
    split; [apply parse_expires_range | done].
  - do 4 eexists. split; [reflexivity | by apply attempt_one].
  - exfalso. revert Ha. unfold answer_challenge. apply no_panic_bind; [apply ok_or_no_panic|].
    intros v _. pose proof (challenge_no_panic v) as Hn. unfold no_panic in Hn.
    by destruct (challenge_parse v).
Qed.

(** ** The loop *)

Context `{Clock S}.

(** The requests of the turns, in order. *)
Definition all_sent (l : list (attempt S)) : list sent := concat (map at_sent l).

(** What a turn [a] does, whatever the network. *)
Record turn_ok (g : Registrar) (a : attempt S) : Prop := {
  to_few : (1 <= length (at_sent a) <= 2)%nat;
  to_open : password (rg_config g) = None -> length (at_sent a) = 1%nat;
  to_result : match at_result a with
    | Ok expires => registered (at_state a) = true /\ u32 expires /\ at_delay a = from_secs (9 * expires / 10) /\
        outbound_proxy_route (routes (shared (at_state a))) = Some (own_route g)
    | _ => registered (at_state a) = false /\ at_delay a = from_secs 30
    end
}.

(** A turn begins when the sleep of the one before it ends. *)
Fixpoint turns_follow (s : S) (l : list (attempt S)) : Prop :=
  match l with
  | [] => True
  | a :: l => at_start a = now s /\ turns_follow (sleep (at_net a) (at_delay a)) l
  end.

Lemma all_sent_cons a l : all_sent (a :: l) = at_sent a ++ all_sent l.
Proof. done. Qed.

Lemma loop_turns n g rnd st s : sc_local_addr (rg_config g) <> None -> u32 (cseq_counter (shared st)) ->
  let l := register_loop md5 n g rnd st s in
  length l = n /\ turns_follow s l /\ Forall (turn_ok g) l /\
  (forall i x, nth_error (all_sent l) i = Some x -> register_of g (nth_cseq (cseq_counter (shared st)) i) x).
Proof.
  intros Hl. revert rnd st s. induction n as [|n IH]; intros rnd st s Hc; cbn [register_loop].
  { split_and!; [done | done | constructor | by intros [|i] x]. }
  destruct (run_attempt g (shared st) (rnd 0%nat) s Hl Hc) as (r & w' & trace & s' & Hr & [Hs Hnx Hf Ho Hrt]).
  rewrite Hr. cbv zeta.
  set (st' := note_result st r w').
  assert (u32 (cseq_counter (shared st'))) as Hc' by (cbn; rewrite Hnx; apply wrap_range; lia).
  destruct (IH (fun i => rnd (Datatypes.S i)) st' (sleep s' (next_delay r)) Hc') as (Hn & Htf & Hall & Hseq).
  split_and!; [by cbn; f_equal | by split | |].
  - constructor; [|done]. split; cbn [at_sent at_result at_state at_delay]; [done | done |].
    destruct r as [e | e |]; cbn; [|done|done]. destruct Hrt as [He Hrt]. split_and!; [done | done | | done].
    unfold refresh_secs. by rewrite nine_tenths_truncated.
  - intros i x. rewrite all_sent_cons. cbn [at_sent]. intros Hx.
    destruct (Nat.lt_ge_cases i (length trace)) as [Hi | Hi].
    + rewrite nth_error_app1 in Hx by done. by apply Hs.
    + rewrite nth_error_app2 in Hx by done. apply Hseq in Hx. cbn [st' note_result shared] in Hx.
      rewrite Hnx, nth_cseq_shift in Hx. by replace (length trace + (i - length trace))%nat with i in Hx by lia.
Qed.
End attempts.

(** ** Properties *)


(** A network without delay that answers from a script, and its clock. *)
#[export] Instance scripted_net : Network (list SipResponse * Z) := {
  net_call := fun s _ _ => match s with ([], t) => (None, s) | (x :: l, t) => (Some x, (l, t)) end;
  net_post := fun s _ _ => (true, s)
}.
#[export] Instance scripted_clock : Clock (list SipResponse * Z) := {
  now := snd; sleep := fun s d => (s.1, s.2 + d)
}.

Definition sample_config (pw : option string) : SipConfig :=
  mkSipConfig (mkAddr (V4 192 0 2 1) 5060) None (Some (mkAddr (V4 192 0 2 9) 5060)) "0312345678" "ntt-east.ne.jp"
    pw 3600.
Definition sample_registrar (pw : option string) : Registrar :=
  with_metrics (sample_config pw) (mkAddr (V4 192 0 2 1) 5060) 1 2.
Definition sample_rnd (i : nat) : RegRnd := mkRegRnd (Z.of_nat i) (Z.of_nat i + 100) 7.
Definition sample_state : RegState := mkRegState false metrics_new (mkShared 1 (mkRoutes None None)).


(** The refresh is in time. For every granted time the client waits nine
    tenths of it, rounded down, the binary rounding of the product changing
    nothing: always less than the granted time, but no time at all for a
    granted time of 0 or 1 second. *)
Theorem refresh_before_expiry e : u32 e -> refresh_secs e = 9 * e / 10 /\ (0 < e -> refresh_secs e < e) /\
  (refresh_secs e = 0 <-> e <= 1).
Proof.
  intros He. unfold refresh_secs. rewrite nine_tenths_truncated by done. unfold uN in He.
  pose proof (Z.div_mod (9 * e) 10 ltac:(lia)). pose proof (Z.mod_pos_bound (9 * e) 10 ltac:(lia)).
  split_and!; lia.
Qed.

Lemma refresh_before_expiry_witness : refresh_secs 3600 = 3240.
Proof. exact (proj1 (refresh_before_expiry 3600 ltac:(done))). Defined.

(** A grant of 0 or 1 second floods the server. Against a network that
    answers every REGISTER at once with a 200 and such an Expires, the attempts
    never sleep: they all begin at the same instant. *)
Theorem short_grant_floods {S} `{Network S} `{Clock S} md5 n g rnd st (s : S) :
  sc_local_addr (rg_config g) <> None -> u32 (cseq_counter (shared st)) ->
  (forall s' req dest, exists resp, net_call s' req dest = (Some resp, s') /\ status_code resp = 200 /\
    parse_expires (resp_headers resp) <= 1) ->
  (forall s', sleep s' 0 = s') ->
  let l := register_loop md5 n g rnd st s in
  length l = n /\ Forall (fun a => at_start a = now s /\ length (at_sent a) = 1%nat) l.
Proof.
  intros Hl Hc Hnet Hsl l. split; [by destruct (loop_turns md5 n g rnd st s Hl Hc)|]. unfold l. clear l.
  revert rnd st Hc. induction n as [|n IH]; intros rnd st Hc; cbn [register_loop]; [constructor|].
  unfold register_with_retry, next_cseq.
  destruct (build_register_ok g (cseq_counter (shared st)) None (rr_branch1 (rnd 0%nat)) Hl) as [req ->].
  change (Done (Ok req) ≫= ?f) with (f req). cbn beta. cbn [run].
  destruct (Hnet s req (server_addr g)) as (resp & -> & -> & He). rewrite Z.eqb_refl. cbn [run mret prog_ret].
  assert (next_delay (Ok (parse_expires (resp_headers resp))) = 0) as ->.
  { cbn [next_delay]. unfold refresh_secs. pose proof (parse_expires_range (resp_headers resp)) as Hr.
    rewrite nine_tenths_truncated by done. unfold uN in Hr.
    pose proof (Z.div_mod (9 * parse_expires (resp_headers resp)) 10 ltac:(lia)).
    pose proof (Z.mod_pos_bound (9 * parse_expires (resp_headers resp)) 10 ltac:(lia)).
    by replace (9 * parse_expires (resp_headers resp) / 10) with 0 by lia. }
  rewrite Hsl. constructor; [done|]. apply IH. apply wrap_range. lia.
Qed.

(** A network that grants one second to every request. *)
Definition granting_net : Network Z := {|
  net_call := fun s _ _ => (Some (mkResponse 200 "OK" [("expires", "1")] ""), s);
  net_post := fun s _ _ => (true, s)
|}.
Definition plain_clock : Clock Z := {| now := fun s => s; sleep := Z.add |}.

Lemma short_grant_floods_witness :
  let l := @register_loop (fun _ => repeat 0 16) Z granting_net plain_clock 1000 (sample_registrar None)
    sample_rnd sample_state 5 in
  length l = 1000%nat /\ Forall (fun a => at_start a = 5 /\ length (at_sent a) = 1%nat) l.
Proof.
  apply (@short_grant_floods Z granting_net plain_clock (fun _ => repeat 0 16) 1000 (sample_registrar None)
    sample_rnd sample_state 5).
  - done.
  - done.
  - intros s' req dest. exists (mkResponse 200 "OK" [("expires", "1")] ""). split_and!; [done | done | by vm_compute].
  - intros s'. apply Z.add_0_r.
Defined.
