(* ===== verification/RegistrationFlow.v ===== *)
(** Registrations end to end: the client of sip/register.rs against the user
    agent server of sip/uas.rs and its table (sip/registrar.rs). The server is the
    network of the client: it answers every request at once, and purges expired
    bindings while the client sleeps. *)
From S2P Require Import Prelude F64 RustStr NetAddr SipMessage SipUtils Transaction Auth Registrar Uas TuProg Uac Register.

Record World := mkWorld { w_uas : ExtensionUas ExtensionRegistrar; w_now : Z; w_count : nat }.

(** The final response among the outputs of the server. *)
Definition final_of (o : uas_output) : option SipResponse :=
  match o with
  | Reply resp => if status_code resp <? 200 then None else Some resp
  | Event _ => None
  end.
Fixpoint final_reply (outs : list uas_output) : option SipResponse :=
  match outs with
  | [] => None
  | o :: outs => match final_of o with Some r => Some r | None => final_reply outs end
  end.

Section flow.
Context (md5 : string -> list Z).
(** The address the server sees, its wall clock and the random numbers it draws
    for each request. *)
Context (remote : SocketAddr) (wall : Z) (rnd : nat -> nat -> Rnd).

#[export] Instance uas_net : Network World := {
  net_call := fun s req _ =>
    let '(outs, u) := handle_request md5 (w_uas s) req remote (w_now s) wall (rnd (w_count s)) true in
    (final_reply outs, mkWorld u (w_now s) (S (w_count s)));
  net_post := fun s _ _ => (true, s)
}.

#[export] Instance uas_clock : Clock World := {
  now := w_now;
  sleep := fun s d =>
    let t := w_now s + d in mkWorld (purge_tick (w_uas s) t).2 t (w_count s)
}.

(** A telephone number. *)
Definition number_ok (s : string) : Prop := all_chars is_ascii_digit s = true /\ s <> "".

(** What the two ends agree on: an account of the server with the password of the
    client. *)
Record agreed (g : Registrar) (u : ExtensionUas ExtensionRegistrar) (local : SocketAddr) (pw : string) : Prop := {
  ag_number : number_ok (phone_number (rg_config g));
  ag_domain : no_char DQUOTE (domain (rg_config g)) = true;
  ag_local : sc_local_addr (rg_config g) = Some local;
  ag_password : password (rg_config g) = Some pw;
  ag_expires : 0 < register_expires (rg_config g) < 2 ^ 32;
  ag_account : auth_db u !! phone_number (rg_config g) = Some pw;
  ag_realm : no_char DQUOTE (realm (Uas.config u)) = true /\ realm (Uas.config u) <> "";
  ag_max : 0 < max_expires (Uas.config u)
}.

(** The lifetime granted, in seconds. *)
Definition lifetime (g : Registrar) (u : ExtensionUas ExtensionRegistrar) : Z :=
  Z.min (register_expires (rg_config g)) (max_expires (Uas.config u)).

(** ** The REGISTER as the server reads it *)

Lemma number_no_char c s : number_ok s -> is_ascii_digit c = false -> no_char c s = true.
Proof. intros [H _] Hc. by apply digits_no_char. Qed.

Lemma register_contact s local : number_ok s ->
  let contact := "<sip:" +:+ s +:+ "@" +:+ print_socket local +:+ ">" in
  split_on ";" contact = [contact] /\ contact_expires [contact] = None /\
  extract_uri_from_contact contact = "sip:" +:+ s +:+ "@" +:+ print_socket local.
Proof.
  intros Hn contact. assert (contact = "<" +:+ ("sip:" +:+ s +:+ "@" +:+ print_socket local) +:+ ">") as Hc.
  { unfold contact. by rewrite !str_app_assoc. }
  split_and!.
  - apply split_on_no_char. unfold contact. rewrite !no_char_app, (number_no_char _ s Hn), print_socket_no_char by done. done.
  - cbn [contact_expires]. rewrite trim_id; [done|]. rewrite Hc. apply Dialog.trimmed_brackets.
  - rewrite Hc. unfold extract_uri_from_contact, bracketed. rewrite trim_id by apply Dialog.trimmed_brackets.
    set (uri := "sip:" +:+ s +:+ "@" +:+ print_socket local).
    change ("<" +:+ uri +:+ ">") with ("" +:+ String "<" (uri +:+ ">")).
    rewrite (split_once_no_char "<" "") by done. change (uri +:+ ">") with (uri +:+ String ">" "").
    rewrite split_once_no_char; [done|]. unfold uri.
    rewrite !no_char_app, (number_no_char _ s Hn), print_socket_no_char by done. done.
Qed.

Lemma register_read g local cseq auth r req : number_ok (phone_number (rg_config g)) ->
  sc_local_addr (rg_config g) = Some local -> u32 (register_expires (rg_config g)) ->
  build_register g cseq auth r = Ok req ->
  (exists s, server_new req remote = Ok s) /\ req_method req = Register /\
  hdr_get (req_headers req) "authorization" = auth /\
  (exists contact, hdr_get (req_headers req) "contact" = Some contact /\
    extract_uri_from_contact contact = "sip:" +:+ phone_number (rg_config g) +:+ "@" +:+ print_socket local) /\
  parse_register_expires req = register_expires (rg_config g).
Proof.
  intros Hn Hl He Hb. apply build_register_headers in Hb as (l & Hl' & Hm & _ & Hv & _ & _ & _ & _ & Hc & Hx & Ha).
  rewrite Hl in Hl'. injection Hl' as <-. destruct (register_contact _ local Hn) as (H1 & H2 & H3).
  split_and!; [|done|done|by eexists|].
  - unfold server_new, from_request. rewrite Hv. cbn [ok_or mbind outcome_bind].
    rewrite parse_via_written. cbn [mbind outcome_bind]. by eexists.
  - unfold parse_register_expires. rewrite Hc. cbn [mbind option_bind]. rewrite H1.
    rewrite H2, Hx. cbn [mbind option_bind default from_option id].
    rewrite trim_id by apply print_uint_trimmed. by rewrite parse_print_uint.
Qed.

Lemma final_reply_events outs resp : Forall (fun o => exists ev, o = Event ev) outs -> status_code resp = 200 ->
  final_reply (outs ++ [Reply resp]) = Some resp.
Proof.
  intros Ho Hs. induction Ho as [|o outs [ev ->] Ho IH]; cbn [app final_reply final_of]; [by rewrite Hs | exact IH].
Qed.

(** ** One attempt *)

Context (Hmd5 : forall s, length (md5 s) = 16%nat).

(** The server after a REGISTER of [number] with [uri]. *)
Definition registers (u u' : ExtensionUas ExtensionRegistrar) (number uri : string) (secs t : Z) : Prop :=
  Uas.config u' = Uas.config u /\ auth_db u' = auth_db u /\
  registrar u' = reg_register (registrar u) number uri remote (from_secs secs) t.

Definition local_uri (g : Registrar) (local : SocketAddr) : string :=
  "sip:" +:+ phone_number (rg_config g) +:+ "@" +:+ print_socket local.

Lemma attempt_succeeds g w rr s local pw : agreed g (w_uas s) local pw ->
  exists x y w' u', run (register_with_retry md5 g w rr) s =
    (Ok (Ok (lifetime g (w_uas s)), w'), [x; y], mkWorld u' (w_now s) (S (S (w_count s)))) /\
    registers (w_uas s) u' (phone_number (rg_config g)) (local_uri g local) (lifetime g (w_uas s)) (w_now s).
Proof.
  intros [Hn Hd Hl Hp He0 Hacc [Hr1 Hr2] Hmax].
  assert (u32 (register_expires (rg_config g))) as He by (unfold uN; lia). unfold register_with_retry, next_cseq. cbn [cseq_counter routes].
  assert (sc_local_addr (rg_config g) <> None) as Hl' by (by rewrite Hl).
  destruct (build_register_ok g (cseq_counter w) None (rr_branch1 rr) Hl') as [req1 Hreq1]. rewrite Hreq1.
  change (Done (Ok req1) ≫= ?f) with (f req1). cbn beta. cbn [run net_call uas_net].
  destruct (register_read g local _ _ _ req1 Hn Hl He Hreq1) as ([s1 Hs1] & Hm1 & Ha1 & _ & _).
  rewrite (register_unauthorized md5 (w_uas s) req1 remote (w_now s) wall _ true s1) by done.
  destruct (challenge_header (w_uas s) req1 "Unauthorized" (rnd (w_count s) 0%nat)) as [Hst Hhd].
  cbn [final_reply final_of]. rewrite Hst. change (401 <? 200) with false. cbv iota.
  rewrite Hst. change (401 =? 200) with false. change (401 =? 401) with true. cbv iota. rewrite Hp.
  destruct (new_call_id_quotable (r_nonce (rnd (w_count s) 0%nat))) as [Hc1 Hc2].
  set (nonce := new_call_id _) in *.
  assert (answer_challenge md5 g pw (send_challenge (w_uas s) req1 "Unauthorized" (rnd (w_count s) 0%nat)) (rr_cnonce rr)
    = Ok (header_value (compute md5 (mkCred (phone_number (rg_config g)) pw)
        (mkChallenge (realm (Uas.config (w_uas s))) nonce "MD5" (Some "auth") None) "REGISTER"
        ("sip:" +:+ domain (rg_config g)) 1 (rr_cnonce rr)))) as ->.
  { unfold answer_challenge. rewrite Hhd. cbn [ok_or mbind outcome_bind].
    unfold build_www_authenticate. by rewrite challenge_parse_built. }
  destruct (digest_answer md5 (realm (Uas.config (w_uas s))) nonce None (phone_number (rg_config g)) pw "REGISTER"
    ("sip:" +:+ domain (rg_config g)) 1 (rr_cnonce rr) Hmd5) as (a & Ha & (Hau & _) & Hv).
  { repeat (apply Forall_cons; split); try done. by apply number_no_char. }
  { done. }
  { repeat (apply Forall_cons; split); try done. by destruct Hn. }
  set (auth := header_value _) in *.
  match goal with |- context [build_register g ?n (Some auth) ?b] =>
    destruct (build_register_ok g n (Some auth) b Hl') as [req2 Hreq2] end. rewrite Hreq2.
  change (Done (Ok req2) ≫= ?f) with (f req2). cbn beta. cbn [run net_call uas_net w_uas w_now w_count].
  destruct (register_read g local _ _ _ req2 Hn Hl He Hreq2) as ([s2 Hs2] & Hm2 & Ha2 & (contact & Hco & Huri) & Hexp).
  rewrite <- Hau in Hacc.
  destruct (register_authorized md5 (w_uas s) req2 remote (w_now s) wall (rnd (S (w_count s))) true s2 auth a pw contact
    Hs2 Hm2 Ha2 Ha Hacc Hv Hco) as (outs & resp & Ho & Hst2 & Hex & Ht & Hev).
  destruct (handle_request_table md5 (w_uas s) req2 remote (w_now s) wall (rnd (S (w_count s))) true) as (Hcf & Hdb & _).
  destruct (handle_request md5 (w_uas s) req2 remote (w_now s) wall (rnd (S (w_count s))) true) as [o u'].
  cbn [fst snd] in *. subst o. rewrite final_reply_events by done.
  rewrite Hst2, Z.eqb_refl. cbn [run mret prog_ret].
  assert (parse_expires (resp_headers resp) = lifetime g (w_uas s)) as ->.
  { unfold parse_expires. rewrite Hex, Hexp. cbn [mbind option_bind]. rewrite parse_print_uint; [done | lia |].
    unfold uN in *. lia. }
  do 4 eexists. split; [reflexivity|]. split_and!; [done | done |].
  rewrite Ht, Hau, Huri. unfold granted, lifetime. by rewrite Hexp.
Qed.

(** ** The loop *)

Lemma agreed_keeps g u u' local pw : Uas.config u' = Uas.config u -> auth_db u' = auth_db u ->
  agreed g u local pw -> agreed g u' local pw /\ lifetime g u' = lifetime g u.
Proof. unfold lifetime. intros Hc Hd []. rewrite Hc. split; [|done]. by split; rewrite ?Hc, ?Hd. Qed.

(** The server holds the binding of the client during [t, t + secs). *)
Definition bound (u : ExtensionUas ExtensionRegistrar) (number uri : string) (t secs : Z) : Prop :=
  forall t', t <= t' < t + from_secs secs ->
    lookup (registrar u) number t' = Some (mkBinding uri remote (t + from_secs secs) Sip).

Lemma registers_bound u u' number uri secs t : 0 <= secs -> registers u u' number uri secs t ->
  bound u' number uri t secs.
Proof.
  intros Hs (_ & _ & Hr) t' Ht. rewrite Hr. change lookup with (reg_lookup (T := ExtensionRegistrar)).
  rewrite lookup_registered by (unfold from_secs, nanos_per_sec in *; lia).
  rewrite String.eqb_refl. by rewrite (proj2 (Z.ltb_lt _ _)) by lia.
Qed.

(** A turn that renewed the binding: it lasts beyond the turn that follows. *)
Record renewed (g : Registrar) (local : SocketAddr) (e : Z) (a : attempt World) : Prop := {
  rn_result : at_result a = Ok e;
  rn_sent : length (at_sent a) = 2%nat;
  rn_bound : bound (w_uas (at_net a)) (phone_number (rg_config g)) (local_uri g local) (at_start a) e;
  rn_next : at_start a + at_delay a < at_start a + from_secs e
}.

Lemma loop_renews n g rr st s local pw : agreed g (w_uas s) local pw ->
  Forall (renewed g local (lifetime g (w_uas s))) (register_loop md5 n g rr st s).
Proof.
  revert rr st s. induction n as [|n IH]; intros rr st s Hag; cbn [register_loop]; [constructor|].
  destruct (attempt_succeeds g (shared st) (rr 0%nat) s local pw Hag) as (x & y & w' & u' & Hr & Hreg).
  rewrite Hr. pose proof Hreg as (Hcf & Hdb & _).
  assert (0 < lifetime g (w_uas s) < 2 ^ 32) as He by (destruct Hag; unfold lifetime; lia).
  constructor.
  - split; cbn [at_result at_sent at_net at_start at_delay w_uas now uas_clock]; [done | done | |].
    + apply (registers_bound (w_uas s)); [lia | done].
    + cbn [next_delay]. unfold refresh_secs. rewrite nine_tenths_truncated by (unfold uN; lia).
      assert (9 * lifetime g (w_uas s) / 10 < lifetime g (w_uas s)) by (apply Z.div_lt_upper_bound; lia).
      unfold from_secs, nanos_per_sec. lia.
  - destruct (agreed_keeps g (w_uas s) u' local pw Hcf Hdb Hag) as [Hag' Hlt]. rewrite <- Hlt.
    set (s' := sleep _ _).
    assert (Uas.config (w_uas s') = Uas.config u' /\ auth_db (w_uas s') = auth_db u') as [H1 H2] by done.
    destruct (agreed_keeps g u' (w_uas s') local pw H1 H2 Hag') as [Hag2 Hlt2]. rewrite <- Hlt2. by apply IH.
Qed.
End flow.

(** C9: the registration is kept alive. A client and a server that agree on an
    account (with a granted lifetime of at least one second): every attempt of the
    client, in all the turns it takes, succeeds with a challenge and an
    answer; and from each attempt to the next the server finds the binding of the
    client's number, at its address and the contact it sent. *)
Theorem registration_kept_alive md5 remote wall rnd n g rr st s local pw :
  (forall x, length (md5 x) = 16%nat) -> agreed g (w_uas s) local pw ->
  sc_local_addr (rg_config g) <> None -> u32 (cseq_counter (shared st)) ->
  let e := lifetime g (w_uas s) in
  let l := @register_loop md5 World (uas_net md5 remote wall rnd) uas_clock n g rr st s in
  length l = n /\ turns_follow s l /\
  Forall (fun a => at_result a = Ok e /\ length (at_sent a) = 2%nat /\
    forall t, at_start a <= t <= at_start a + at_delay a ->
      lookup (registrar (w_uas (at_net a))) (phone_number (rg_config g)) t =
      Some (mkBinding (local_uri g local) remote (at_start a + from_secs e) Sip)) l.
Proof.
  intros Hmd Hag Hl Hc e l.
  destruct (@loop_turns World (uas_net md5 remote wall rnd) md5 uas_clock n g rr st s Hl Hc) as (H1 & H2 & _).
  split_and!; [exact H1 | exact H2 |].
  eapply Forall_impl; [by apply (loop_renews md5 remote wall rnd Hmd n g rr st s local pw)|].
  intros a [Hr Hs Hb Hn]. split_and!; [done | done|]. intros t Ht. apply Hb. fold e in Hn. unfold e in *. lia.
Qed.

Definition flow_config : SipConfig :=
  mkSipConfig (mkAddr (V4 192 0 2 1) 5060) None (Some (mkAddr (V4 192 0 2 9) 5060)) "0312345678" "h" (Some "pw") 3600.
Definition flow_client : Registrar := with_metrics flow_config (mkAddr (V4 192 0 2 1) 5060) 1 2.
Definition flow_world : World :=
  mkWorld (bind (mkUasConfig (mkAddr (V4 192 0 2 1) 5060) "sabiden" 60) [("0312345678", "pw")] NoHandler None) 0 0.
Definition flow_rnd (i j : nat) : Rnd := mkRnd (Z.of_nat i) (Z.of_nat j) (Z.of_nat i + 5).

Lemma registration_kept_alive_witness :
  let l := @register_loop (fun _ => repeat 0 16) World
    (uas_net (fun _ => repeat 0 16) (mkAddr (V4 192 0 2 9) 5060) 0 flow_rnd) uas_clock 5 flow_client sample_rnd
    sample_state flow_world in
  length l = 5%nat /\ Forall (fun a => at_result a = Ok 60) l.
Proof.
  destruct (registration_kept_alive (fun _ => repeat 0 16) (mkAddr (V4 192 0 2 9) 5060) 0 flow_rnd 5 flow_client
    sample_rnd sample_state flow_world (mkAddr (V4 192 0 2 9) 5060) "pw") as (H1 & _ & H3).
  - done.
  - by split.
  - done.
  - done.
  - split; [exact H1|]. eapply Forall_impl; [exact H3|]. intros a (Ha & _). exact Ha.
Defined.
