(* ===== verification/CallSetup.v ===== *)
(** Calls end to end: the client of sip/uac.rs against a callee that asks for
    credentials. The callee is built from the operations of the server side:
    the challenges and the verification of sip/auth.rs, the response skeleton of
    sip/transaction.rs and the dialog of sip/dialog.rs. It is the network of the
    client. *)
From S2P Require Import Prelude RustStr NetAddr SipMessage SipUtils Transaction Dialog Auth TuProg Uac.

(** The state of the callee: the number of nonces it has issued, the dialog it
    has established and the ACKs it has received. *)
Record Callee := mkCallee { ce_nonces : Z; ce_dialog : option Dialog; ce_acks : list SipRequest }.

(** What is fixed: whether it challenges as a proxy, its realm and accounts, its
    Contact, its answer and the random number of its tag. *)
Record CalleeConfig := mkCalleeConfig {
  cc_proxy : bool; cc_realm : string; cc_accounts : gmap string string; cc_contact : string; cc_answer : string;
  cc_dialog : DialogConfig; cc_tag : Z }.

Section callee.
Context (md5 : string -> list Z) (cc : CalleeConfig).

Definition challenge_status : Z := if cc_proxy cc then 407 else 401.
Definition challenge_name : string := if cc_proxy cc then "Proxy-Authenticate" else "WWW-Authenticate".
Definition answer_name : string := if cc_proxy cc then "Proxy-Authorization" else "Authorization".

Definition callee_challenge (s : Callee) (req : SipRequest) : SipResponse * Callee :=
  let resp := build_response_skeleton req challenge_status "Unauthorized" (cc_tag cc) in
  (mkResponse (status_code resp) (reason resp)
     (hdr_set (resp_headers resp) challenge_name
        (build_authenticate_value (cc_realm cc) (new_call_id (ce_nonces s)) false None)) "",
   mkCallee (ce_nonces s + 1) (ce_dialog s) (ce_acks s)).

Definition callee_accept (s : Callee) (req : SipRequest) : option SipResponse * Callee :=
  let resp := accept req 200 "OK" (cc_contact cc) (cc_answer cc) (cc_tag cc) in
  match from_uas_invite req resp (cc_dialog cc) with
  | Ok d => (Some resp, mkCallee (ce_nonces s) (Some d) (ce_acks s))
  | _ => (None, s)
  end.

Definition callee_call (s : Callee) (req : SipRequest) : option SipResponse * Callee :=
  let challenge := let '(resp, s) := callee_challenge s req in (Some resp, s) in
  match authorization_parse <$> hdr_get (req_headers req) answer_name with
  | Some (Ok auth) =>
      match cc_accounts cc !! au_username auth with
      | Some pw => if verify md5 auth "INVITE" pw then callee_accept s req else challenge
      | None => challenge
      end
  | _ => challenge
  end.

#[export] Instance callee_net : Network Callee := {
  net_call := fun s req _ => callee_call s req;
  net_post := fun s req _ => (true, mkCallee (ce_nonces s) (ce_dialog s) (ce_acks s ++ [req]))
}.

(** ** The INVITE of the client as the callee reads it *)

Lemma no_semicolon_tag s : no_char ";" s = true -> forallb not_tag (tail (split_on ";" s)) = true.
Proof. intros H. by rewrite split_on_no_char. Qed.

Lemma no_semicolon_to s : no_char ";" s = true -> has_to_tag s = false.
Proof.
  unfold has_to_tag. generalize 0. generalize EmptyString as cur. unfold no_char.
  induction s as [|c s IH]; intros cur d; [done|]. cbn [all_chars tag_scan]. intros [Hc Hs]%andb_true_iff.
  destruct (Ascii.eqb c "<"); [by apply IH|]. destruct (Ascii.eqb c ">"); [by apply IH|].
  destruct (Ascii.eqb_spec c ";") as [-> | _]; [done|]. cbn [andb]. by apply IH.
Qed.

(** A URI without parameters or quotes. *)
Definition plain_uri (s : string) : Prop := no_char ";" s = true /\ no_char DQUOTE s = true.

Lemma split_once_no_char_parts c d s a b : no_char c s = true -> split_once d s = Some (a, b) ->
  no_char c a = true /\ no_char c b = true.
Proof.
  intros Hs H. apply split_once_Some in H as [-> _]. rewrite no_char_app in Hs.
  apply andb_true_iff in Hs as [Ha Hb]. split; [done|]. unfold no_char in Hb. cbn [all_chars] in Hb.
  by apply andb_true_iff in Hb as [_ Hb].
Qed.

Lemma strip_port_no_semicolon t : no_char ";" t = true -> no_char ";" (strip_port_from_sip_uri t) = true.
Proof.
  intros Ht. unfold strip_port_from_sip_uri. destruct (split_once "@" t) as [[user host]|] eqn:He; [|done].
  destruct (split_once_no_char_parts _ _ _ _ _ Ht He) as [Hu Hh].
  rewrite (split_once_None ";" host) by done. rewrite !no_char_app, Hu. cbn [andb].
  assert (no_char ";" (default host (head (split_on ":" host))) = true) as ->; [|done].
  destruct (split_once ":" host) as [[a b]|] eqn:Hc.
  - destruct (split_once_no_char_parts _ _ _ _ _ Hh Hc) as [Ha _].
    apply split_once_Some in Hc as [-> Hn]. rewrite split_on_app; [done|].
    unfold contains_char in Hn. unfold no_char. by apply negb_false_iff in Hn.
  - rewrite split_on_no_char; [done|]. by apply split_once_None_inv.
Qed.

Context (Hmd5 : forall s, length (md5 s) = 16%nat).

Lemma same_call_get a b name : same_call a b -> retried_field name = false ->
  hdr_get (req_headers a) name = hdr_get (req_headers b) name.
Proof. intros [_ _ _ H] Hn. by rewrite !hdr_get_head, H. Qed.

(** The account of the callee that the client knows. *)
Record agreed (u : Uac) (target user pw : string) : Prop := {
  ag_user : auth_username (uac_config u) = Some user;
  ag_password : auth_password (uac_config u) = Some pw;
  ag_account : cc_accounts cc !! user = Some pw;
  ag_quotable : no_char DQUOTE user = true /\ user <> "" /\ no_char DQUOTE (cc_realm cc) = true /\ cc_realm cc <> "";
  ag_local : no_char ";" (uc_local_uri (uac_config u)) = true;
  ag_target : plain_uri target
}.

Lemma hdr_get_none_fmap {A} h name (f : string -> A) : hdr_get h name = None -> f <$> hdr_get h name = None.
Proof. by intros ->. Qed.

(** The first INVITE is challenged. *)
Lemma first_challenged u routes target sdp se ids s :
  let req := pl_request (build_invite u routes target sdp se ids) in
  callee_call s req = (Some (callee_challenge s req).1, (callee_challenge s req).2).
Proof.
  intros req. destruct (build_invite_headers u routes target sdp se ids)
    as (_ & _ & _ & _ & _ & _ & _ & _ & _ & Ha & Hp). fold req in Ha, Hp.
  unfold callee_call, answer_name.
  assert (hdr_get (req_headers req) (if cc_proxy cc then "Proxy-Authorization" else "Authorization") = None) as ->.
  { by destruct (cc_proxy cc). }
  done.
Qed.

(** The retry that answers the challenge. *)
Lemma retry_answers u target user pw plan s cn br : agreed u target user pw -> plan_ok plan -> pl_cseq plan = 1 ->
  req_uri (pl_request plan) = target ->
  exists p a hdr, retry_plan md5 u plan (callee_challenge s (pl_request plan)).1 cn br = Some p /\
    hdr_get (req_headers (pl_request p)) answer_name = Some hdr /\ authorization_parse hdr = Ok a /\
    au_username a = user /\ verify md5 a "INVITE" pw = true.
Proof.
  intros [Hu Hp Hacc (Hq1 & Hq2 & Hq3 & Hq4) _ [_ Ht]] Hok Hc Huri.
  assert (no_char DQUOTE (new_call_id (ce_nonces s)) = true /\ new_call_id (ce_nonces s) <> "") as [Hn1 Hn2].
  { unfold new_call_id. split; [by rewrite no_char_app, hex_no_char|]. by destruct (hex_padded 16 (ce_nonces s)). }
  unfold retry_plan. rewrite Hu, Hp. cbn [mbind option_bind].
  set (nonce := new_call_id (ce_nonces s)) in *.
  destruct (digest_answer md5 (cc_realm cc) nonce None user pw "INVITE" target 1 cn Hmd5)
    as (a & Ha & (Hau & _) & Hv); [repeat (apply Forall_cons; split); done | done | repeat (apply Forall_cons; split); done|].
  set (hdr := header_value _) in Ha. unfold callee_challenge. cbn [fst status_code resp_headers].
  assert (forall name, hdr_get (hdr_set (resp_headers (build_response_skeleton (pl_request plan) challenge_status
      "Unauthorized" (cc_tag cc))) name (build_authenticate_value (cc_realm cc) nonce false None)) name =
    Some (build_authenticate_value (cc_realm cc) nonce false None)) as Hget.
  { intros name. rewrite hdr_get_set. unfold same_header. by rewrite String.eqb_refl. }
  unfold challenge_status, challenge_name, answer_name in *. destruct (cc_proxy cc).
  - change (status_code (build_response_skeleton (pl_request plan) 407 "Unauthorized" (cc_tag cc)) =? 401) with false.
    cbv iota beta.
    change (hdr_get ?h "proxy-authenticate") with (hdr_get h "Proxy-Authenticate"). rewrite Hget.
    cbn [mbind option_bind]. rewrite challenge_parse_built by done. cbn [ok mbind option_bind]. rewrite Huri.
    eexists _, a, hdr. split; [reflexivity|]. cbn [pl_request req_headers]. split_and!; try done.
    rewrite hdr_get_set. by eval_headers.
  - change (status_code (build_response_skeleton (pl_request plan) 401 "Unauthorized" (cc_tag cc)) =? 401) with true.
    cbv iota beta.
    change (hdr_get ?h "www-authenticate") with (hdr_get h "WWW-Authenticate"). rewrite Hget.
    cbn [mbind option_bind]. rewrite challenge_parse_built by done. cbn [ok mbind option_bind]. rewrite Huri.
    eexists _, a, hdr. split; [reflexivity|]. cbn [pl_request req_headers]. split_and!; try done.
    rewrite hdr_get_set. by eval_headers.
Qed.

(** The callee establishes its dialog for an INVITE of the client. *)
Lemma callee_accepts u routes target sdp se ids req s : no_char ";" (uc_local_uri (uac_config u)) = true ->
  no_char ";" target = true -> same_call req (pl_request (build_invite u routes target sdp se ids)) ->
  exists d, from_uas_invite req (accept req 200 "OK" (cc_contact cc) (cc_answer cc) (cc_tag cc)) (cc_dialog cc) = Ok d /\
    callee_accept s req = (Some (accept req 200 "OK" (cc_contact cc) (cc_answer cc) (cc_tag cc)),
      mkCallee (ce_nonces s) (Some d) (ce_acks s)) /\
    dlg_state d = Confirmed.
Proof.
  intros Hl Ht Hsame.
  destruct (build_invite_headers u routes target sdp se ids) as (_ & _ & _ & _ & Hci & Hfr & Hto & Hco & _).
  rewrite <- (same_call_get _ _ "call-id" Hsame) in Hci by done.
  rewrite <- (same_call_get _ _ "from" Hsame) in Hfr by done.
  rewrite <- (same_call_get _ _ "to" Hsame) in Hto by done.
  rewrite <- (same_call_get _ _ "contact" Hsame) in Hco by done.
  destruct (accept_headers req 200 "OK" (cc_contact cc) (cc_answer cc) (cc_tag cc)) as (Hrt & _).
  rewrite Hto in Hrt. cbn [fmap option_fmap option_map] in Hrt.
  assert (no_char ";" ("<" +:+ strip_port_from_sip_uri target +:+ ">") = true) as Htn.
  { rewrite !no_char_app, strip_port_no_semicolon by done. done. }
  assert (with_to_tag 200 (cc_tag cc) ("<" +:+ strip_port_from_sip_uri target +:+ ">") =
    ("<" +:+ strip_port_from_sip_uri target +:+ ">") +:+ ";tag=" +:+ new_uas_to_tag (cc_tag cc)) as Htag.
  { unfold with_to_tag. by rewrite no_semicolon_to. }
  rewrite Htag in Hrt.
  assert (parse_tag (("<" +:+ strip_port_from_sip_uri target +:+ ">") +:+ ";tag=" +:+ new_uas_to_tag (cc_tag cc)) =
    Some (new_uas_to_tag (cc_tag cc))) as Hpt.
  { apply parse_tag_after; [by apply no_semicolon_tag | | done |].
    - apply graph_trimmed. unfold new_uas_to_tag. by rewrite all_chars_app, hex_graph.
    - unfold new_uas_to_tag. by rewrite no_char_app, hex_no_char. }
  assert (parse_tag (q "Anonymous" +:+ " <" +:+ uc_local_uri (uac_config u) +:+ ">;tag=" +:+ new_tag (id_tag ids)) =
    Some (new_tag (id_tag ids))) as Hpf.
  { replace (q "Anonymous" +:+ " <" +:+ uc_local_uri (uac_config u) +:+ ">;tag=" +:+ new_tag (id_tag ids))
      with ((q "Anonymous" +:+ " <" +:+ uc_local_uri (uac_config u) +:+ ">") +:+ ";tag=" +:+ new_tag (id_tag ids))
      by (by rewrite !str_app_assoc).
    apply parse_tag_after; [| apply graph_trimmed, hex_graph | apply hex_nonempty | by apply hex_no_char].
    apply no_semicolon_tag. by rewrite !no_char_app, Hl. }
  assert (from_uas_invite req (accept req 200 "OK" (cc_contact cc) (cc_answer cc) (cc_tag cc)) (cc_dialog cc) =
    Ok (mkDialog (mkDialogId (new_call_id (id_call ids)) (new_uas_to_tag (cc_tag cc)) (new_tag (id_tag ids)))
      Confirmed (cfg_local_uri (cc_dialog cc)) (cfg_remote_uri (cc_dialog cc)) (extract_uri ("<" +:+ contact_uri (uac_config u) +:+ ">"))
      (record_routes (req_headers req)) 1 (cfg_local_contact (cc_dialog cc)) (cfg_sent_by (cc_dialog cc)))) as Hd.
  { unfold from_uas_invite. rewrite Hci, Hfr, Hrt, Hco. cbn [ok_or mbind outcome_bind].
    rewrite Hpf, Hpt. reflexivity. }
  eexists. split; [exact Hd|]. split; [unfold callee_accept; by rewrite Hd | done].
Qed.

(** The caller's half: the 200 gives an established call and its ACK. *)
Lemma caller_establishes u p callee s r : plan_ok p -> pl_cseq p = 2 ->
  let resp := accept (pl_request p) 200 "OK" (cc_contact cc) (cc_answer cc) (cc_tag cc) in
  from_uas_invite (pl_request p) resp (cc_dialog cc) = Ok callee ->
  exists c ack hop, run (finalize_2xx u p resp r) s =
      (Ok (Established c), [Posted ack hop], mkCallee (ce_nonces s) (ce_dialog s) (ce_acks s ++ [ack])) /\
    mirrored (inner (ec_dialog c)) callee /\ ec_response c = resp /\ local_cseq (inner (ec_dialog c)) = 3 /\
    request_of (inner (ec_dialog c)) 2 ack /\ req_method ack = Ack.
Proof.
  intros [Hm Hu Hcs] Hc resp Hd.
  destruct (caller_agrees (pl_request p) 200 "OK" (cc_contact cc) (cc_answer cc) (cc_tag cc) (cc_dialog cc)
    (dialog_config (uac_config u) p) callee _ 2 Hd Hcs) as (caller & Hcaller & Hmir & _ & Hlc).
  { rewrite Hc. by apply (parse_cseq_written 2 "INVITE"). }
  { lia. }
  unfold finalize_2xx, finalize_2xx_to. rewrite run_bind. unfold lift.
  fold resp in Hcaller. rewrite Hcaller. cbn [map_err run]. rewrite run_bind, run_post. cbn [net_post callee_net ensure].
  cbn [run mret prog_ret]. do 3 eexists. split; [reflexivity|]. cbn [ec_dialog inner ec_response].
  rewrite Hc. split_and!; try done; [apply build_ack_request|].
  unfold build_ack_for_2xx. by destruct (compute_request_uri_and_route caller).
Qed.

Lemma setup u routes target sdp se ids rnd user pw s : agreed u target user pw ->
  let plan := build_invite u routes target sdp se ids in
  exists p c callee ack hop, run (invite md5 u plan rnd) s =
      (Ok (Established c), [Awaited (pl_request plan) (uac_server u); Awaited (pl_request p) (uac_server u); Posted ack hop],
       mkCallee (ce_nonces s + 1) (Some callee) (ce_acks s ++ [ack])) /\
    same_call (pl_request p) (pl_request plan) /\
    mirrored (inner (ec_dialog c)) callee /\ dlg_state callee = Confirmed /\
    resp_body (ec_response c) = cc_answer cc /\ local_cseq (inner (ec_dialog c)) = 3 /\
    request_of (inner (ec_dialog c)) 2 ack /\ req_method ack = Ack.
Proof.
  intros Hag plan. pose proof Hag as [Hu Hp Hacc _ Hl [Ht _]].
  destruct (build_invite_headers u routes target sdp se ids) as (Hok & _ & Huri & Hc & _).
  fold plan in Hok, Huri, Hc.
  unfold invite. rewrite run_bind, run_send. cbn [net_call callee_net].
  pose proof (first_challenged u routes target sdp se ids s) as Hfirst. cbv zeta in Hfirst. fold plan in Hfirst.
  rewrite Hfirst. cbn [ok_or].
  destruct (retry_answers u target user pw plan s (ir_cnonce rnd) (ir_branch rnd) Hag Hok Hc Huri)
    as (p & a & hdr & Hr & Hhdr & Ha & Hau & Hv).
  assert (status_code (callee_challenge s (pl_request plan)).1 = challenge_status) as Hst by done.
  rewrite !Hst.
  assert (is_2xx challenge_status = false /\ (challenge_status =? 401) || (challenge_status =? 407) = true) as [-> ->].
  { unfold challenge_status. by destruct (cc_proxy cc). }
  rewrite Hu, Hp. cbn [andb]. rewrite !(bool_decide_eq_true_2 _) by by eexists. cbn [andb].
  rewrite run_bind. unfold retry_invite_with_auth. rewrite Hr, run_bind, run_send. cbn [net_call callee_net].
  pose proof (retry_plan_spec md5 u plan _ _ _ p Hok ltac:(lia) Hr) as (Hokp & Hcp & _ & Hsame & _).
  destruct (callee_accepts u routes target sdp se ids (pl_request p) (callee_challenge s (pl_request plan)).2)
    as (callee & Hd & Hacp & Hcf); [done..|].
  unfold callee_call. rewrite Hhdr. cbn [fmap option_fmap option_map]. rewrite Ha, Hau, Hacc, Hv, Hacp.
  cbn [ok_or run mret prog_ret]. change (is_2xx (status_code (accept _ 200 _ _ _ _))) with true. cbv iota.
  destruct (caller_establishes u p callee (mkCallee (ce_nonces s + 1) (Some callee) (ce_acks s)) (ir_ack rnd))
    as (c & ack & hop & Hrun & Hmir & Hresp & Hlc & Hack & Hm); [done | lia | done|].
  unfold callee_challenge. cbn [snd ce_nonces ce_acks]. rewrite Hrun. exists p, c, callee, ack, hop. split; [reflexivity|]. rewrite Hresp. by split_and!.
Qed.
End callee.

(** C10: a call is set up through a challenge. When the client knows an account of
    the callee, its INVITE is challenged (401 or 407), repeated with credentials
    the callee verifies, and accepted: the client has an established call and the
    callee a confirmed dialog that mirror each other (Call-ID, tags swapped,
    route sets reversed), the callee has the ACK of the second INVITE, with its
    number 2 and the identity of the dialog, and the caller's next request
    is numbered 3. *)
Theorem call_set_up_through_challenge md5 cc u routes target sdp se ids rnd user pw s :
  (forall x, length (md5 x) = 16%nat) -> agreed cc u target user pw ->
  let plan := build_invite u routes target sdp se ids in
  exists p c callee ack hop, @run Callee (callee_net md5 cc) _ (invite md5 u plan rnd) s =
      (Ok (Established c), [Awaited (pl_request plan) (uac_server u); Awaited (pl_request p) (uac_server u); Posted ack hop],
       mkCallee (ce_nonces s + 1) (Some callee) (ce_acks s ++ [ack])) /\
    same_call (pl_request p) (pl_request plan) /\
    mirrored (inner (ec_dialog c)) callee /\ dlg_state callee = Confirmed /\
    resp_body (ec_response c) = cc_answer cc /\ local_cseq (inner (ec_dialog c)) = 3 /\
    request_of (inner (ec_dialog c)) 2 ack /\ req_method ack = Ack.
Proof. intros Hmd Hag. by apply (setup md5 cc Hmd u routes target sdp se ids rnd user pw s). Qed.

Definition sample_callee_config (proxy : bool) : CalleeConfig :=
  mkCalleeConfig proxy "ntt" {["u" := "pw"]} "<sip:117@192.0.2.1:5070>" "v=0"
    (mkDialogConfig "sip:117@ntt" "sip:0312345678@ntt" "sip:117@192.0.2.1:5070" "192.0.2.1:5060") 9.

Lemma call_set_up_through_challenge_witness :
  exists c callee ack hop, @run Callee (callee_net (fun _ => repeat 0 16) (sample_callee_config true)) _
      (invite (fun _ => repeat 0 16) sample_uac sample_plan (mkInviteRnd 4 5 6)) (mkCallee 0 None []) =
      (Ok (Established c), hop, mkCallee 1 (Some callee) [ack]) /\ mirrored (inner (ec_dialog c)) callee.
Proof.
  destruct (call_set_up_through_challenge (fun _ => repeat 0 16) (sample_callee_config true) sample_uac
    (mkRoutes None None) "sip:117@ntt" None None (mkIds 1 2 3) (mkInviteRnd 4 5 6) "u" "pw" (mkCallee 0 None []))
    as (p & c & callee & ack & hop & Hrun & _ & Hmir & _).
  - done.
  - by split.
  - exists c, callee, ack. eexists. split; [exact Hrun | exact Hmir].
Defined.
