(* ===== verification/SipFields.v ===== *)
(** The header fields and the bodies the orchestrator reads and writes by itself
    (the free functions of src/src/call/orchestrator.rs): option tags, session
    timers, [RAck], To tags, the Request-URI of the NGN, the dial strings of the
    browser, and the responses to the extensions. *)
From S2P Require Import Prelude RustStr Utf8 NetAddr SipMessage SipUtils Transaction Dialog Uas Uac Sdp SdpRewrite HttpDate.

Definition SUPPORTED_METHODS_ALLOW : string := "INVITE, ACK, BYE, CANCEL, OPTIONS".
Definition UAS_INBOUND_2XX_ALLOW : string := "INVITE, ACK, BYE, CANCEL, OPTIONS, UPDATE, INFO, PRACK".
Definition UAS_INBOUND_2XX_SUPPORTED : string := "timer, replaces, 100rel".

(** The version of the package is set by the build. *)
Definition sabiden_server_header (version : string) : string := "sabiden/" +:+ version.

(** ** Option tags and session timers *)

Definition resolve_response_refresher (request_refresher : option string) : string :=
  match request_refresher with
  | Some v => if eq_ignore_ascii_case v "uac" then "uac" else "uas"
  | None => "uas"
  end.

Definition KNOWN_OPTION_TAGS : list string := ["timer"; "replaces"; "100rel"].
Definition OPTION_TAG_100REL : string := "100rel".

Definition unsupported_option_tags (require_value : string) : list string :=
  List.filter (fun t => negb (existsb (fun known => eq_ignore_ascii_case known t) KNOWN_OPTION_TAGS))
    (List.filter (fun t => negb (String.eqb t "")) (map trim (split_on "," require_value))).

Definition header_has_option_tag (header_value : option string) (tag : string) : bool :=
  match header_value with
  | Some value => existsb (fun t => eq_ignore_ascii_case (trim t) tag) (split_on "," value)
  | None => false
  end.

(** The wall clock is an argument, as for [http_date_now]. *)
Definition apply_uas_inbound_2xx_headers (version : string) (since_epoch : option Z) (resp : SipResponse) : SipResponse :=
  let resp := set_header resp "Allow" UAS_INBOUND_2XX_ALLOW in
  let resp := set_header resp "Supported" UAS_INBOUND_2XX_SUPPORTED in
  let resp := set_header resp "Date" (http_date_now since_epoch) in
  set_header resp "Server" (sabiden_server_header version).

Record InboundSessionTimer := mkTimer { session_expires : Z; refresher : option String.string }.

(** One parameter of [Session-Expires]; the last refresher wins. *)
Definition timer_param (acc : option string) (p : string) : option string :=
  match split_once "=" (trim p) with
  | Some (name, v) =>
      if eq_ignore_ascii_case name "refresher" && negb (String.eqb (trim v) "") then Some (to_ascii_lowercase (trim v)) else acc
  | None => acc
  end.
Definition parse_session_expires_header (value : string) : option InboundSessionTimer :=
  match split_on ";" value with
  | secs_str :: parts =>
      session_expires ← parse_uint 32 (trim secs_str);
      Some (mkTimer session_expires (fold_left timer_param parts None))
  | [] => None
  end.

Definition parse_min_se_header (value : string) : option Z :=
  parse_uint 32 (trim (default "" (head (split_on ";" value)))).

(** [split_ascii_whitespace]: the words between spaces, tabs, line ends and form feeds. *)
Definition is_ascii_whitespace (c : ascii) : bool :=
  existsb (Z.eqb (code c)) [9; 10; 12; 13; 32].
Fixpoint ascii_words (cur s : string) : list string :=
  let word := if String.eqb cur "" then [] else [str_rev cur] in
  match s with
  | EmptyString => word
  | String c s => if is_ascii_whitespace c then word ++ ascii_words "" s else ascii_words (String c cur) s
  end.
Definition split_ascii_whitespace (s : string) : list string := ascii_words "" s.

Definition parse_rack_header (rack : string) : option (Z * Z * string) :=
  match split_ascii_whitespace rack with
  | rseq :: rest =>
      rseq ← parse_uint 32 rseq;
      match rest with
      | cseq :: rest =>
          cseq ← parse_uint 32 cseq;
          match rest with
          | [method] => Some (rseq, cseq, method)
          | _ => None
          end
      | [] => None
      end
  | [] => None
  end.

(** ** To tags *)

(** The loop of [extract_to_tag]: the parameters outside angle brackets, trimmed
    (the one being read is reversed). *)
Fixpoint to_params (depth : Z) (after_semi : bool) (cur s : string) : list string :=
  match s with
  | EmptyString => if after_semi then [trim (str_rev cur)] else []
  | String c s =>
      if Ascii.eqb c "<" then to_params (depth + 1) after_semi (String c cur) s
      else if Ascii.eqb c ">" then to_params (depth - 1) after_semi (String c cur) s
      else if Ascii.eqb c ";" && (depth =? 0) then
        (if after_semi then [trim (str_rev cur)] else []) ++ to_params depth true EmptyString s
      else to_params depth after_semi (String c cur) s
  end.
Fixpoint tag_of_params (params : list string) : option string :=
  match params with
  | [] => None
  | p :: params =>
      match split_once "=" p with
      | Some (name, v) =>
          if eq_ignore_ascii_case name "tag" && negb (String.eqb (trim v) "") then Some (trim v) else tag_of_params params
      | None => tag_of_params params
      end
  end.
Definition extract_to_tag (to_header : string) : option string := tag_of_params (to_params 0 false EmptyString to_header).

Definition build_2xx_to_ext (invite : SipRequest) (body contact_uri : string) (r : Rnd) : SipResponse :=
  let resp := build_response_skeleton invite 200 "OK" (r_skeleton r) in
  let resp :=
    if negb (String.eqb body "") then
      mkResponse (status_code resp) (reason resp) (hdr_set (resp_headers resp) "Content-Type" "application/sdp") body
    else resp in
  ensure_to_tag (set_header resp "Contact" ("<" +:+ contact_uri +:+ ">")) (r_tag r).

Definition build_503_with_retry_after (invite : SipRequest) (retry_after_secs : Z) (r : Rnd) : SipResponse :=
  let resp := build_response_skeleton invite 503 "Service Unavailable" (r_skeleton r) in
  ensure_to_tag (set_header resp "Retry-After" (print_uint retry_after_secs)) (r_tag r).

(** ** What a 5xx of the NGN tells *)

Record Ngn5xxHeaderView := mkView {
  hv_reason : option string; hv_retry_after : option string; hv_server : option string;
  hv_warning : option string; hv_via_received : option string; hv_via_rport : option string }.

Definition via_observed (acc : option string * option string) (raw_param : string) : option string * option string :=
  let '(received, rport) := acc in
  match split_once "=" (trim raw_param) with
  | Some (k, v) =>
      if eq_ignore_ascii_case (trim k) "received" && bool_decide (received = None) then (Some (trim v), rport)
      else if eq_ignore_ascii_case (trim k) "rport" && bool_decide (rport = None) then (received, Some (trim v))
      else acc
  | None => acc
  end.
Definition extract_via_received_rport (via : string) : option string * option string :=
  let first := default via (head (split_on "," via)) in
  fold_left via_observed (tail (split_on ";" first)) (None, None).

Definition extract_ngn_5xx_header_view (h : SipHeaders) : Ngn5xxHeaderView :=
  let '(received, rport) := match hdr_get h "via" with Some v => extract_via_received_rport v | None => (None, None) end in
  mkView (hdr_get h "reason") (hdr_get h "retry-after") (hdr_get h "server") (hdr_get h "warning") received rport.

(** The error chain as its texts, the outermost first. *)
Definition classify_ext_reinvite_send_error (chain : list string) : Z * string :=
  if existsb (contains_str "transaction timeout") chain then (408, "Request Timeout") else (500, "Server Internal Error").

(** ** URIs *)

Definition is_valid_pwa_dial_target (target : string) : bool :=
  if String.eqb target "" || (32 <? String.length target)%nat then false
  else all_chars (fun c => is_ascii_digit c || Ascii.eqb c "*" || Ascii.eqb c "#" || Ascii.eqb c "+") target.

Definition extract_user_from_sip_uri (uri : string) : option string :=
  let after_scheme := match split_once ":" uri with Some (_, x) => x | None => uri end in
  '(user_part, _) ← split_once "@" after_scheme;
  if String.eqb user_part "" then None else Some user_part.

Definition ngn_aor_from_uac (u : Uac) : string :=
  let local_uri := uc_local_uri (uac_config u) in
  default local_uri (extract_user_from_sip_uri local_uri).

Definition extract_refer_to_aor (value : string) : option string :=
  let trimmed := trim value in
  let uri_part :=
    match split_once "<" trimmed with
    | Some (_, rest) => match split_once ">" rest with Some (x, _) => x | None => rest end
    | None => match split_once ";" trimmed with Some (uri, _) => uri | None => trimmed end
    end in
  '(scheme, after_scheme) ← split_once ":" uri_part;
  let scheme_lc := to_ascii_lowercase (trim scheme) in
  if negb (String.eqb scheme_lc "sip") && negb (String.eqb scheme_lc "sips") then None
  else
    '(user, _) ← split_once "@" after_scheme;
    if String.eqb user "" then None else Some user.

Definition extract_uri_from_addr (value : string) : string :=
  let trimmed := trim value in
  match bracketed trimmed with
  | Some uri => uri
  | None => trim (default trimmed (head (split_on ";" trimmed)))
  end.

Definition normalize_request_uri_for_ngn (req_uri ngn_server_host : string) (ngn_server_port : Z) : string :=
  match parse_sip_uri req_uri with
  | Ok parsed =>
      if eq_ignore_ascii_case (host parsed) ngn_server_host && bool_decide (port parsed = Some ngn_server_port) &&
         bool_decide (params parsed = []) && bool_decide (uri_headers parsed = []) then req_uri
      else
        let scheme := if String.eqb (scheme parsed) "" then "sip" else scheme parsed in
        match user parsed with
        | Some user => scheme +:+ ":" +:+ user +:+ "@" +:+ ngn_server_host +:+ ":" +:+ print_uint ngn_server_port
        | None => scheme +:+ ":" +:+ ngn_server_host +:+ ":" +:+ print_uint ngn_server_port
        end
  | _ => req_uri
  end.

(** ** Session descriptions *)

(** [str::lines]: the pieces between line feeds, without the carriage return
    before each; a last empty piece is no line. *)
Definition strip_cr (s : string) : string :=
  match str_rev s with String c r => if Ascii.eqb c CR then str_rev r else s | EmptyString => s end.
Definition str_lines (s : string) : list string :=
  let pieces := split_on LF s in
  let last := default "" (last pieces) in
  map strip_cr (take (length pieces - 1) pieces) ++ (if String.eqb last "" then [] else [last]).

Definition is_undirected_or_webrtc_placeholder_sdp (body : string) : bool :=
  if is_utf8 body then
    let lines := map trim_end (str_lines body) in
    let is_zero l := String.eqb l "c=IN IP4 0.0.0.0" in
    existsb is_zero lines &&
    existsb (fun l => negb (is_zero l) && (starts_with "m=audio 9 RTP/AVP" l || starts_with "m=audio 9 UDP/TLS/RTP/SAVPF" l)) lines
  else false.

(** Both parsers read the same text. The second clock is the one of the rewriting. *)
Definition force_rewrite_sdp_for_ngn (ext_offer : string) (ngn_local_ip : IpAddr) (now_secs : Z) : result (option string) :=
  if String.eqb ext_offer "" then Ok None
  else
    match parse (if is_utf8 ext_offer then ext_offer else "") with
    | Ok sdp =>
        let port := match audio_of sdp with Some m => m_port m | None => 0 end in
        match rewrite_rtp_endpoint ext_offer ngn_local_ip port now_secs with
        | Ok bytes => Ok (Some bytes)
        | Err _ => Ok (Some ext_offer)
        | Panic => Panic
        end
    | Err _ => Ok (Some ext_offer)
    | Panic => Panic
    end.

Definition sip_reason_for (status : Z) : string :=
  default "Failure" (snd <$> find_first (fun '(c, _) => c =? status)
    [(100, "Trying"); (180, "Ringing"); (181, "Call Is Being Forwarded"); (182, "Queued"); (183, "Session Progress");
     (200, "OK"); (202, "Accepted"); (301, "Moved Permanently"); (302, "Moved Temporarily"); (400, "Bad Request");
     (401, "Unauthorized"); (403, "Forbidden"); (404, "Not Found"); (405, "Method Not Allowed"); (408, "Request Timeout");
     (480, "Temporarily Unavailable"); (481, "Call/Transaction Does Not Exist"); (486, "Busy Here"); (487, "Request Terminated");
     (488, "Not Acceptable Here"); (500, "Server Internal Error"); (503, "Service Unavailable"); (600, "Busy Everywhere"); (603, "Decline")]).

Definition reason_phrase_for_status (code : Z) : string :=
  default "Decline" (snd <$> find_first (fun '(c, _) => c =? code)
    [(408, "Request Timeout"); (480, "Temporarily Unavailable"); (486, "Busy Here"); (487, "Request Terminated");
     (488, "Not Acceptable Here"); (500, "Server Internal Error"); (503, "Service Unavailable"); (603, "Decline")]).

Example field_examples :
  unsupported_option_tags " Timer, foo ,,100rel,bar" = ["foo"; "bar"] /\
  parse_session_expires_header "1800;Refresher=UAC" = Some (mkTimer 1800 (Some "uac")) /\
  parse_rack_header "123 5  INVITE" = Some (123, 5, "INVITE") /\ parse_rack_header "1 2 INVITE x" = None /\
  extract_to_tag "<sip:a;tag=x@b>;user=phone;Tag= y " = Some "y" /\
  extract_via_received_rport "SIP/2.0/UDP 10.0.0.1;rport;received=192.0.2.1 ;rport=5060, x;rport=1" = (Some "192.0.2.1", Some "5060") /\
  extract_refer_to_aor " <SIPS:alice@example.com>;x=1" = Some "alice" /\ extract_refer_to_aor "tel:117" = None /\
  normalize_request_uri_for_ngn "sip:117@192.168.20.239;transport=udp" "118.177.125.1" 5060 = "sip:117@118.177.125.1:5060" /\
  is_undirected_or_webrtc_placeholder_sdp (join crlf ["c=IN IP4 0.0.0.0"; "m=audio 9 RTP/AVP 0"; ""]) = true /\
  is_undirected_or_webrtc_placeholder_sdp (join crlf ["c=IN IP4 0.0.0.0"; "m=audio 30000 RTP/AVP 0"; ""]) = false.
Proof. by vm_compute. Qed.

(** ** The Request-URI of the NGN *)

Lemma no_char_split_l c s a b : split_once c s = Some (a, b) -> forall k, no_char k s = true -> no_char k a = true.
Proof. intros H k Hk. apply split_once_Some in H as [-> _]. by rewrite no_char_app in Hk; apply andb_true_iff in Hk as [? _]. Qed.

Lemma contains_char_false c s : contains_char c s = false -> no_char c s = true.
Proof. unfold contains_char. by intros H%negb_false_iff. Qed.

Lemma cut_no_char c s : no_char c (cut c s).1 = true.
Proof.
  unfold cut. destruct (split_once c s) as [[a b]|] eqn:Hs; cbn [fst].
  - apply split_once_Some in Hs as [_ Hs]. by apply contains_char_false.
  - by apply split_once_None_inv.
Qed.

Lemma cut_keeps c s k : no_char k s = true -> no_char k (cut c s).1 = true.
Proof.
  unfold cut. destruct (split_once c s) as [[a b]|] eqn:Hs; cbn [fst]; [|done]. by apply (no_char_split_l c s a b).
Qed.

Lemma rsplit_once_Some c s a b : rsplit_once c s = Some (a, b) -> s = a +:+ String c b.
Proof.
  revert a b. induction s as [|d s IH]; intros a b; cbn [rsplit_once]; [done|].
  destruct (rsplit_once c s) as [[x y]|].
  - intros [= <- <-]. by rewrite (IH x y).
  - destruct (Ascii.eqb c d) eqn:Hc; [|done]. intros [= <- <-]. apply Ascii.eqb_eq in Hc as ->. done.
Qed.

Lemma strip_ws_colon a x y : a <> "" -> strip_ws (a +:+ String ":" x) = None -> strip_ws (a +:+ String ":" y) = None.
Proof.
  intros Ha. destruct a as [|c a]; [done|]. cbn [String.append strip_ws].
  destruct a as [|d a]; cbn [String.append]; [|destruct a as [|e a]; cbn [String.append]; [|by case_bool]];
    change (code ":") with 58; cbn [Z.eqb Z.leb Z.compare Pos.compare Pos.compare_cont Pos.eqb andb orb];
    rewrite ?andb_false_r; destruct x, y; rewrite ?andb_false_r, ?andb_false_l; cbn [orb]; by case_bool.
Qed.

(** What a URI that is read consists of. *)
Lemma parse_sip_uri_parts u p : parse_sip_uri u = Ok p ->
  no_char ":" (scheme p) = true /\ to_ascii_lowercase (scheme p) = scheme p /\
  (forall x, scheme p <> "" -> strip_ws (scheme p +:+ String ":" x) = None) /\
  (forall x, user p = Some x -> no_char ":" x = true /\ no_char "?" x = true /\ no_char ";" x = true).
Proof.
  unfold parse_sip_uri. intros H. inv_outcome. destruct a0 as [sch rest].
  pose proof (cut_no_char "?" rest) as Hq. destruct (cut "?" rest) as [r1 hp]. cbn [fst] in Hq.
  pose proof (cut_no_char ";" r1) as Hs. pose proof (cut_keeps ";" r1 "?" Hq) as Hq2. destruct (cut ";" r1) as [r2 pp]. cbn [fst] in Hs, Hq2.
  apply split_once_Some in Heq0 as [Htrim Hsch]. apply contains_char_false in Hsch.
  assert (no_char ":" (to_ascii_lowercase sch) = true /\ to_ascii_lowercase (to_ascii_lowercase sch) = to_ascii_lowercase sch /\
    (forall x, to_ascii_lowercase sch <> "" -> strip_ws (to_ascii_lowercase sch +:+ String ":" x) = None)) as (H1 & H2 & H3).
  { split_and!; [by rewrite no_char_lower | apply to_ascii_lowercase_idemp |]. intros x Hne.
    apply (strip_ws_colon _ (to_ascii_lowercase rest)); [done|].
    pose proof (trim_trimmed u) as [Ht _]. rewrite Htrim in Ht. pose proof (strip_ws_lower (sch +:+ String ":" rest)) as Hl.
    rewrite Ht in Hl. unfold to_ascii_lowercase in *. rewrite string_map_app in Hl. exact Hl. }
  destruct (rsplit_once "@" r2) as [[usr hst]|] eqn:Hr; inv_outcome; destruct a0 as [h po]; inv_outcome; subst p; cbn; split_and!; try done.
  intros x [= <-]. apply rsplit_once_Some in Hr as ->. rewrite no_char_app in Hs, Hq2.
  apply andb_true_iff in Hs as [Hs _], Hq2 as [Hq2 _]. split_and!; [apply cut_no_char | by apply cut_keeps | by apply cut_keeps].
Qed.

Lemma print_uint_ends x z : strip_ws_rev (str_rev (x +:+ print_uint z)) = None.
Proof.
  pose proof (print_uint_digits z) as Hd. rewrite <- all_chars_rev in Hd. rewrite str_rev_app.
  destruct (str_rev (print_uint z)) as [|c s] eqn:Hr.
  - destruct (print_fuel_cons 19 z) as (c & r & Hp & _). unfold print_uint in Hr. rewrite Hp in Hr.
    apply (f_equal String.length) in Hr. by rewrite str_length_rev in Hr.
  - cbn [all_chars] in Hd. apply andb_true_iff in Hd as [Hd _]. cbn [String.append]. by apply strip_ws_rev_digit.
Qed.

Definition userinfo (u : option string) : string := match u with Some x => x +:+ "@" | None => "" end.

(** A URI of an IPv4 host and a port is read as it was written. *)
Lemma parse_written_uri sch usr a b c d p : u16 p -> sch <> "" ->
  no_char ":" sch = true -> to_ascii_lowercase sch = sch -> (forall x, strip_ws (sch +:+ String ":" x) = None) ->
  (forall x, usr = Some x -> no_char ":" x = true /\ no_char "?" x = true /\ no_char ";" x = true) ->
  parse_sip_uri (sch +:+ String ":" (userinfo usr +:+ print_ipv4 a b c d +:+ String ":" (print_uint p))) =
  Ok (mkUri sch usr (print_ipv4 a b c d) (Some p) [] []).
Proof.
  intros Hp Hne Hc Hl Hws Hu. unfold parse_sip_uri. rewrite trim_id.
  2: { split; [apply Hws|]. replace (sch +:+ String ":" (userinfo usr +:+ print_ipv4 a b c d +:+ String ":" (print_uint p)))
    with ((sch +:+ String ":" (userinfo usr +:+ print_ipv4 a b c d +:+ ":")) +:+ print_uint p)
    by (rewrite !str_app_assoc; cbn [String.append]; by rewrite !str_app_assoc). apply print_uint_ends. }
  replace (negb (String.eqb _ "")) with true by (by destruct sch). cbn [ensure mbind outcome_bind].
  rewrite split_once_no_char by done. cbn [ok_or mbind outcome_bind].
  assert (forall k, is_addr_char k = false -> no_char k (print_ipv4 a b c d +:+ String ":" (print_uint p)) = true) as Hno.
  { intros k Hk. rewrite no_char_app. rewrite (addr_no_char k (print_ipv4 a b c d)) by (done || apply print_ipv4_addr). cbn [andb].
    unfold no_char. cbn [all_chars]. destruct (Ascii.eqb_spec k ":") as [->|]; [done|].
    cbn [negb andb]. apply (addr_no_char k); [done | apply print_uint_addr]. }
  assert (forall k, is_addr_char k = false -> (forall x, usr = Some x -> no_char k x = true) -> Ascii.eqb k "@" = false ->
    no_char k (userinfo usr +:+ print_ipv4 a b c d +:+ String ":" (print_uint p)) = true) as Hall.
  { intros k Hk Hx Hat. rewrite no_char_app, Hno by done. destruct usr as [x|]; [|done]. cbn [userinfo].
    rewrite no_char_app, (Hx x) by done. cbn. by rewrite Hat. }
  unfold cut. rewrite (split_once_None "?") by (apply Hall; [done | intros x Hx; by apply Hu in Hx as (_ & ? & _) | done]).
  rewrite (split_once_None ";") by (apply Hall; [done | intros x Hx; by apply Hu in Hx as (_ & _ & ?) | done]).
  assert (parse_hostport (print_ipv4 a b c d +:+ String ":" (print_uint p)) = Ok (print_ipv4 a b c d, Some p)) as Hhp
    by by apply parse_ipv4_hostport.
  assert (negb (String.eqb (print_ipv4 a b c d) "") = true) as Hh by (unfold print_ipv4; by destruct (print_uint a)).
  destruct usr as [x|]; cbn [userinfo].
  - replace ((x +:+ "@") +:+ print_ipv4 a b c d +:+ String ":" (print_uint p))
      with (x +:+ String "@" (print_ipv4 a b c d +:+ String ":" (print_uint p))) by by rewrite str_app_assoc.
    rewrite rsplit_once_last by by apply Hno. rewrite Hhp. cbn [mbind outcome_bind]. rewrite Hh, Hl. cbn [ensure mbind outcome_bind].
    cbn [fmap option_fmap option_map]. destruct (Hu x eq_refl) as (Hx & _). by rewrite (split_once_None ":") by done.
  - change ("" +:+ ?x) with x. rewrite rsplit_once_None by by apply Hno. rewrite Hhp. cbn [mbind outcome_bind]. rewrite Hh, Hl. done.
Qed.

Lemma lower_no_letter h s : all_chars (fun c => is_ascii_digit c || Ascii.eqb c ".") s = true ->
  to_ascii_lowercase h = to_ascii_lowercase s -> h = s.
Proof.
  assert (forall c d, is_ascii_digit d || Ascii.eqb d "." = true -> to_lower c = to_lower d -> c = d) as Hc.
  { intros c d Hd Hl. assert (implb (is_ascii_digit d || Ascii.eqb d ".") (Ascii.eqb (to_lower d) d) = true) as Hi
      by (generalize d; apply ascii_exhaust; by vm_compute).
    rewrite Hd in Hi. cbn in Hi. apply Ascii.eqb_eq in Hi. rewrite Hi in Hl. subst d.
    assert (implb (is_ascii_digit (to_lower c) || Ascii.eqb (to_lower c) ".") (Ascii.eqb c (to_lower c)) = true) as Hj
      by (generalize c; apply ascii_exhaust; by vm_compute).
    rewrite Hd in Hj. by apply Ascii.eqb_eq in Hj. }
  revert h. induction s as [|d s IH]; intros [|c h]; try done. unfold to_ascii_lowercase in *. cbn [all_chars string_map].
  intros [Hd Hs]%andb_true_iff [= H1 H2]. by rewrite (Hc c d Hd H1), (IH h Hs H2).
Qed.

Lemma print_ipv4_no_letter a b c d : all_chars (fun c => is_ascii_digit c || Ascii.eqb c ".") (print_ipv4 a b c d) = true.
Proof.
  assert (forall z, all_chars (fun c => is_ascii_digit c || Ascii.eqb c ".") (print_uint z) = true) as H.
  { intros z. apply (all_chars_impl is_ascii_digit); [|apply print_uint_digits]. intros x Hx. by rewrite Hx. }
  unfold print_ipv4. by rewrite !all_chars_app, !H.
Qed.

(** Every Request-URI that can be read is sent to the P-CSCF: what is sent
    names the same user at the address and the port of the P-CSCF, without
    parameters and headers; one that cannot be read is left as it is; and the
    normalization changes nothing the second time. *)
Theorem normalized_uri_reaches_pcscf u a b c d pt : u16 pt ->
  let pcscf := print_ipv4 a b c d in
  let n := normalize_request_uri_for_ngn u pcscf pt in
  normalize_request_uri_for_ngn n pcscf pt = n /\
  match parse_sip_uri u with
  | Ok p => exists sch, parse_sip_uri n = Ok (mkUri sch (user p) pcscf (Some pt) [] []) /\ (scheme p <> "" -> sch = scheme p)
  | _ => n = u
  end.
Proof.
  intros Hp pcscf n. assert (match parse_sip_uri u with
    | Ok p => exists sch, parse_sip_uri n = Ok (mkUri sch (user p) pcscf (Some pt) [] []) /\ (scheme p <> "" -> sch = scheme p)
    | _ => n = u end) as Hn.
  { unfold n, normalize_request_uri_for_ngn. destruct (parse_sip_uri u) as [p | e |] eqn:Hu; [|done..].
    destruct (_ && _ && _ && _) eqn:Hb.
    - exists (scheme p). split; [|done]. repeat apply andb_true_iff in Hb as [Hb ?Hx].
      apply bool_decide_eq_true_1 in Hx, Hx0, Hx1. apply String.eqb_eq, lower_no_letter in Hb; [|apply print_ipv4_no_letter].
      rewrite Hu. destruct p; cbn in *. by subst.
    - destruct (parse_sip_uri_parts u p Hu) as (H1 & H2 & H3 & H4). clear Hb.
      exists (if String.eqb (scheme p) "" then "sip" else scheme p). split; [|intros Hne; by apply String.eqb_neq in Hne as ->].
      pose proof (parse_written_uri (if String.eqb (scheme p) "" then "sip" else scheme p) (user p) a b c d pt Hp) as Hw.
      assert (forall P : string -> Prop, P "sip" -> (scheme p <> "" -> P (scheme p)) -> P (if String.eqb (scheme p) "" then "sip" else scheme p)) as Hif.
      { intros P Ha Hb. destruct (String.eqb_spec (scheme p) ""); auto. }
      specialize (Hw ltac:(by apply Hif) ltac:(by apply Hif) ltac:(by apply Hif) ltac:(apply Hif; [done | auto]) H4).
      destruct (user p) as [x|]; [|exact Hw]. cbn [userinfo] in Hw. rewrite str_app_assoc in Hw. exact Hw. }
  split; [|exact Hn]. destruct (parse_sip_uri u) as [p | e |] eqn:Hu; [destruct Hn as (sch & Hn & _) | |].
  - unfold normalize_request_uri_for_ngn at 1. rewrite Hn. cbn [host port params uri_headers].
    unfold eq_ignore_ascii_case. by rewrite String.eqb_refl, !bool_decide_eq_true_2.
  - rewrite Hn. exact Hn.
  - rewrite Hn. exact Hn.
Qed.

(** ** To tags *)

Lemma strip_ws_rev_app s r t : strip_ws_rev s = Some r -> strip_ws_rev (s +:+ t) = Some (r +:+ t).
Proof.
  destruct s as [|a [|b [|c s]]]; cbn [strip_ws_rev String.append]; try done;
    repeat case_match; intros [= <-]; done.
Qed.

Lemma strip_ws_prefix s r : strip_ws s = Some r -> exists p, s = p +:+ r.
Proof.
  destruct s as [|a [|b [|c s]]]; cbn; repeat case_match; intros [= <-];
    first [by exists (String a "") | by exists (String a (String b ""))
          | by exists (String a (String b (String c "")))].
Qed.

Lemma one_ws_rev v : strip_ws v = Some "" -> is_Some (strip_ws_rev (str_rev v)).
Proof.
  destruct v as [|a [|b [|c v]]]; cbn [strip_ws]; intros H; [done|..];
    repeat (destruct (_ || _) eqn:? in H || destruct (_ && _) eqn:? in H; try discriminate H); try discriminate H;
    try injection H as ->; unfold str_rev; cbn [rev_acc strip_ws_rev]; case_bool; try (exact (mk_is_Some _ _ eq_refl)); congruence.
Qed.

Lemma trim_nonempty v : strip_ws_rev (str_rev v) = None -> v <> "" -> trim v <> "".
Proof.
  intros Hv Hne. destruct (trim_start_suffix v) as [w Hw]. destruct (decide (trim_start v = "")) as [He|He].
  - exfalso. cut (is_Some (strip_ws_rev (str_rev v))); [by rewrite Hv; intros []|].
    revert He Hne. clear. unfold trim_start. generalize (String.length v). intros n. revert v.
    induction n as [|n IH]; intros v; cbn [trim_start_fuel]; [done|].
    destruct (strip_ws v) as [r|] eqn:Hr; [|done]. intros He _. destruct (decide (r = "")) as [->|Hn]; [by apply one_ws_rev|].
    destruct (IH r He Hn) as [x Hx]. apply strip_ws_prefix in Hr as [p ->]. rewrite str_rev_app.
    eexists. by apply strip_ws_rev_app.
  - intros Ht. apply He. rewrite <- Ht. unfold trim. symmetry. rewrite <- (trim_start_id (trim_start v)) at 1 by apply strip_ws_trim_start.
    apply (trim_id (trim_start v)). split; [apply strip_ws_trim_start|].
    destruct (strip_ws_rev (str_rev (trim_start v))) as [x|] eqn:Hx; [|done].
    apply (strip_ws_rev_app _ _ (str_rev w)) in Hx. rewrite <- str_rev_app, <- Hw in Hx. congruence.
Qed.

Lemma scan_params d sem cur s : tag_scan d sem cur s = existsb param_is_nonempty_tag (to_params d sem cur s).
Proof.
  revert d sem cur. induction s as [|c s IH]; intros d sem cur; cbn [tag_scan to_params].
  - destruct sem; cbn; by rewrite ?orb_false_r.
  - destruct (Ascii.eqb c "<"); [apply IH|]. destruct (Ascii.eqb c ">"); [apply IH|].
    destruct (Ascii.eqb c ";" && (d =? 0)); [|apply IH]. rewrite IH. destruct sem; cbn; [|done]. by destruct (param_is_nonempty_tag _).
Qed.

Lemma to_params_trimmed d sem cur s : Forall trimmed (to_params d sem cur s).
Proof.
  revert d sem cur. induction s as [|c s IH]; intros d sem cur; cbn [to_params].
  - destruct sem; repeat constructor; apply trim_trimmed.
  - destruct (Ascii.eqb c "<"); [apply IH|]. destruct (Ascii.eqb c ">"); [apply IH|].
    destruct (Ascii.eqb c ";" && (d =? 0)); [|apply IH]. apply Forall_app. split; [|apply IH].
    destruct sem; repeat constructor; apply trim_trimmed.
Qed.

(** The tag that is detected is the tag that is found. *)
Lemma has_to_tag_extract s : has_to_tag s = bool_decide (is_Some (extract_to_tag s)).
Proof.
  unfold has_to_tag, extract_to_tag. rewrite scan_params. pose proof (to_params_trimmed 0 false "" s) as Ht.
  induction Ht as [|p l Hp _ IH]; [done|]. cbn [existsb tag_of_params]. unfold param_is_nonempty_tag at 1.
  destruct (split_once "=" p) as [[name v]|] eqn:Hs; [|exact IH].
  destruct (eq_ignore_ascii_case name "tag"); [|exact IH]. cbn [andb].
  destruct (String.eqb_spec v "") as [->|Hv]; [exact IH|]. cbn [negb orb].
  apply split_once_Some in Hs as [-> _]. destruct Hp as [_ Hp]. rewrite str_rev_app, (str_rev_cons "=") , str_app_assoc in Hp.
  replace (String.eqb (trim v) "") with false; [done|]. symmetry. apply String.eqb_neq, trim_nonempty; [|done].
  destruct (strip_ws_rev (str_rev v)) as [x|] eqn:Hx; [|done]. eapply strip_ws_rev_app in Hx. rewrite Hp in Hx. done.
Qed.

Lemma to_params_append d sem cur s u : depth_after d s = 0 -> no_char ";" u = true -> no_char "<" u = true -> no_char ">" u = true ->
  to_params d sem cur (s +:+ String ";" u) = to_params d sem cur s ++ [trim u].
Proof.
  intros Hd H1 H2 H3. revert d sem cur Hd. induction s as [|c s IH]; intros d sem cur Hd; cbn [String.append to_params depth_after] in *.
  - subst d. change (Ascii.eqb ";" "<") with false. change (Ascii.eqb ";" ">") with false.
    change (Ascii.eqb ";" ";" && (0 =? 0)) with true. cbn iota. f_equal.
    assert (forall w, to_params 0 true w u = [trim (str_rev w +:+ u)]) as ->; [|done]. clear -H1 H2 H3.
    induction u as [|c u IH]; intros w; cbn [to_params]; [by rewrite str_app_nil_r|].
    unfold no_char in *. cbn [all_chars] in *. rewrite !andb_true_iff, !negb_true_iff in *. destruct H1 as [H1 ?], H2 as [H2 ?], H3 as [H3 ?].
    rewrite (Ascii.eqb_sym c "<"), (Ascii.eqb_sym c ">"), (Ascii.eqb_sym c ";"), H1, H2, H3. cbn [andb].
    rewrite IH by done. by rewrite str_rev_cons, str_app_assoc.
  - destruct (Ascii.eqb c "<"); [by apply IH|]. destruct (Ascii.eqb c ">"); [by apply IH|].
    destruct (Ascii.eqb c ";" && (d =? 0)); [|by apply IH]. by rewrite IH, app_assoc.
Qed.

Lemma tag_of_params_snoc l x : tag_of_params (l ++ [x]) = match tag_of_params l with Some t => Some t | None => tag_of_params [x] end.
Proof.
  induction l as [|p l IH]; [done|]. cbn [app tag_of_params] in *. rewrite IH.
  destruct (split_once "=" p) as [[name v]|]; [|done]. by destruct (_ && _).
Qed.

Lemma all_graph_trimmed s : all_chars is_graph s = true -> trimmed s.
Proof.
  intros Hs. split.
  - destruct s as [|c s]; [done|]. cbn [all_chars] in Hs. apply andb_true_iff in Hs as [Hc _]. by apply strip_ws_graph.
  - rewrite <- all_chars_rev in Hs. destruct (str_rev s) as [|c t]; [done|]. cbn [all_chars] in Hs.
    apply andb_true_iff in Hs as [Hc _]. by apply strip_ws_rev_graph.
Qed.

Lemma extract_appended to r : depth_after 0 to = 0 -> extract_to_tag to = None ->
  extract_to_tag (to +:+ ";tag=" +:+ new_tag r) = Some (new_tag r).
Proof.
  intros Hd Hn. unfold extract_to_tag in *. change (";tag=" +:+ new_tag r) with (String ";" ("tag=" +:+ new_tag r)).
  assert (forall k, is_addr_char k = false -> no_char k (new_tag r) = true) as Hk by (intros k Hk; apply addr_no_char; [done | apply hex_padded_addr]).
  rewrite to_params_append by (done || (rewrite no_char_app, Hk; done)). rewrite tag_of_params_snoc, Hn.
  assert (trimmed (new_tag r)) as Ht by (apply all_graph_trimmed, (all_chars_impl is_addr_char); [exact addr_graph | apply hex_padded_addr]).
  rewrite trim_id by (apply (trimmed_tag "tag"); [by left | done | done]).
  cbn [tag_of_params]. change ("tag=" +:+ new_tag r) with ("tag" +:+ String "=" (new_tag r)). rewrite split_once_no_char by done.
  rewrite (trim_id (new_tag r)) by done. done.
Qed.

Lemma ensure_tagged resp r to t : hdr_get (resp_headers resp) "to" = Some to -> extract_to_tag to = Some t ->
  ensure_to_tag resp r = resp.
Proof. intros Hto Ht. unfold ensure_to_tag. by rewrite Hto, has_to_tag_extract, Ht. Qed.

(** A response keeps one To tag: one that has no tag is given the new one,
    which is then the tag that is read from it; one that has a tag keeps it, so
    that the provisional and the final responses to a request name one dialog;
    nothing else of the response changes. *)
Theorem to_tag_stays resp r to : hdr_get (resp_headers resp) "to" = Some to -> depth_after 0 to = 0 ->
  let resp' := ensure_to_tag resp r in
  (hdr_get (resp_headers resp') "to" ≫= extract_to_tag) = Some (default (new_tag r) (extract_to_tag to)) /\
  (forall r', ensure_to_tag resp' r' = resp') /\
  (status_code resp' = status_code resp /\ resp_body resp' = resp_body resp /\
   forall name, same_header "To" name = false -> hdr_get (resp_headers resp') name = hdr_get (resp_headers resp) name).
Proof.
  intros Hto Hd resp'. destruct (extract_to_tag to) as [t|] eqn:He.
  - assert (resp' = resp) as -> by by apply (ensure_tagged resp r to t). rewrite Hto. cbn [mbind option_bind default].
    split_and!; [done | | done..]. intros r'. by apply (ensure_tagged resp r' to t).
  - pose proof (extract_appended to r Hd He) as Ha.
    assert (resp' = mkResponse (status_code resp) (reason resp) (hdr_set (resp_headers resp) "To" (to +:+ ";tag=" +:+ new_tag r)) (resp_body resp)) as Hr
      by (unfold resp', ensure_to_tag; by rewrite Hto, has_to_tag_extract, He).
    assert (hdr_get (resp_headers resp') "to" = Some (to +:+ ";tag=" +:+ new_tag r)) as Hg by (rewrite Hr; cbn [resp_headers]; by rewrite hdr_get_set).
    rewrite Hg. cbn [mbind option_bind default]. split_and!; [exact Ha | intros r'; by apply (ensure_tagged resp' r' (to +:+ ";tag=" +:+ new_tag r) (new_tag r)) | by rewrite Hr.. |].
    intros name Hname. rewrite Hr. cbn [resp_headers]. by rewrite hdr_get_set, Hname.
Qed.

Lemma to_tag_stays_witness :
  let resp := mkResponse 180 "Ringing" [("to", "<sip:117;tag=x@ntt>;user=phone")] "" in
  extract_to_tag "<sip:117;tag=x@ntt>;user=phone" = None /\
  (hdr_get (resp_headers (ensure_to_tag resp 255)) "to" ≫= extract_to_tag) = Some "000000ff".
Proof.
  intros resp. split; [by vm_compute|].
  exact (proj1 (to_tag_stays resp 255 "<sip:117;tag=x@ntt>;user=phone" ltac:(by vm_compute) ltac:(by vm_compute))).
Defined.

Lemma normalized_uri_reaches_pcscf_witness :
  u16 5060 /\
  exists sch, parse_sip_uri (normalize_request_uri_for_ngn "sip:117@192.168.20.239;transport=udp" "118.177.125.1" 5060) =
    Ok (mkUri sch (Some "117") "118.177.125.1" (Some 5060) [] []) /\ ("sip" <> "" -> sch = "sip").
Proof.
  split; [width|].
  exact (proj2 (normalized_uri_reaches_pcscf "sip:117@192.168.20.239;transport=udp" 118 177 125 1 5060 ltac:(width))).
Defined.
