(* ===== verification/Handler.v ===== *)
(** Handlers of the orchestrator as state-passing programs.

    A handler works on the shared state of its object and on the outside: it
    sends responses, awaits the answers to its requests, draws random numbers and
    may return early with an error. [World] holds the shared state, what the
    outside will answer and what was written so far; [handler] is the monad over
    it, and [follows] lifts a relation on worlds to it: what a handler keeps, it
    keeps step by step. *)
From S2P Require Import Prelude SipMessage Transaction NetAddr TuProg Uas.

Section handler.
Context {S O : Type}.

(** What the outside does: whether each response could be sent and each bridge
    started, the final response to each request that is awaited, whether each
    request that is not awaited could be sent, and the random numbers. A list
    that has run out stands for success, for no response, and for zero. *)
Record World := mkWorld {
  shared : S; oks : list bool; answers : list (option SipResponse); rnds : list Z; outs : list O }.

Definition handler (A : Type) : Type := World -> Prelude.outcome unit A * World.

#[export] Instance handler_ret : MRet handler := fun A a w => (Ok a, w).
#[export] Instance handler_bind : MBind handler := fun A B f m w =>
  match m w with
  | (Ok a, w) => f a w
  | (Err e, w) => (Err e, w)
  | (Panic, w) => (Panic, w)
  end.

Definition get : handler S := fun w => (Ok (shared w), w).
Definition modify (f : S -> S) : handler unit := fun w =>
  (Ok tt, mkWorld (f (shared w)) (oks w) (answers w) (rnds w) (outs w)).
Definition emit (o : O) : handler unit := fun w =>
  (Ok tt, mkWorld (shared w) (oks w) (answers w) (rnds w) (outs w ++ [o])).
Definition accepted : handler bool := fun w =>
  (Ok (default true (head (oks w))), mkWorld (shared w) (tail (oks w)) (answers w) (rnds w) (outs w)).
Definition awaited : handler (option SipResponse) := fun w =>
  (Ok (default None (head (answers w))), mkWorld (shared w) (oks w) (tail (answers w)) (rnds w) (outs w)).
Definition draw : handler Z := fun w =>
  (Ok (default 0 (head (rnds w))), mkWorld (shared w) (oks w) (answers w) (tail (rnds w)) (outs w)).
Definition draw_rnd : handler Rnd := a ← draw; b ← draw; mret (mkRnd a b 0).

(** [?] on a result computed without the world; the error is only logged. *)
Definition from_outcome {E A} (m : Prelude.outcome E A) : handler A := fun w =>
  (match m with Ok a => Ok a | Err _ => Err tt | Panic => Panic end, w).
Definition fail {A} : handler A := fun w => (Err tt, w).

(** [if let Err(e) = m { warn!(..) }]: the error goes no further. *)
Definition attempt {A} (m : handler A) : handler (option A) := fun w =>
  match m w with
  | (Ok a, w) => (Ok (Some a), w)
  | (Err _, w) => (Ok None, w)
  | (Panic, w) => (Panic, w)
  end.

(** A program of a transaction user; [note] is how its calls are written down. *)
Context (note : sent -> O).
Fixpoint perform {A} (p : prog A) : handler (tu_result A) :=
  match p with
  | Done r => mret r
  | Call req dest k => emit (note (Awaited req dest)) ;; o ← awaited; perform (k o)
  | Post req dest k => emit (note (Posted req dest)) ;; ok ← accepted; perform (k ok)
  end.

(** ** Relations on worlds that handlers follow *)

Definition follows {A} (R : World -> World -> Prop) (m : handler A) : Prop := forall w, R w (m w).2.

Section follows.
Context (R : World -> World -> Prop) `{!PreOrder R}.

Lemma follows_ret {A} (a : A) : follows R (mret a).
Proof using PreOrder0. intros w. reflexivity. Qed.
Lemma follows_bind {A B} (m : handler A) (f : A -> handler B) : follows R m -> (forall a, follows R (f a)) -> follows R (m ≫= f).
Proof using PreOrder0.
  intros Hm Hf w. specialize (Hm w). unfold mbind, handler_bind. destruct (m w) as [[a | e |] w1]; [|done..].
  etransitivity; [exact Hm | apply Hf].
Qed.
(** With what is known of the result of the first step. *)
Lemma follows_bind_post {A B} (Q : A -> Prop) (m : handler A) (f : A -> handler B) :
  follows R m -> (forall w a, (m w).1 = Ok a -> Q a) -> (forall a, Q a -> follows R (f a)) -> follows R (m ≫= f).
Proof using PreOrder0.
  intros Hm HQ Hf w. specialize (Hm w). specialize (HQ w). unfold mbind, handler_bind. destruct (m w) as [[a | e |] w1]; [|done..].
  etransitivity; [exact Hm | by apply Hf, HQ].
Qed.
Lemma follows_attempt {A} (m : handler A) : follows R m -> follows R (attempt m).
Proof using PreOrder0. intros Hm w. specialize (Hm w). unfold attempt. by destruct (m w) as [[a | e |] w1]. Qed.
Lemma follows_get : follows R get.
Proof using PreOrder0. intros w. reflexivity. Qed.
Lemma follows_from_outcome {E A} (o : Prelude.outcome E A) : follows R (from_outcome o).
Proof using PreOrder0. intros w. reflexivity. Qed.
Lemma follows_fail {A} : follows R (fail (A := A)).
Proof using PreOrder0. intros w. reflexivity. Qed.
End follows.

(** ** Triples over a view

    What a theorem needs to know of a world is its view. [wp view v m Post]: from
    every world of view [v], [m] ends with a result and a view as [Post] says. *)

Section wp.
Context {V : Type} (view : World -> V).

Definition wp {A} (v : V) (m : handler A) (Post : Prelude.outcome unit A -> V -> Prop) : Prop :=
  forall w, view w = v -> Post (m w).1 (view (m w).2).

(** The result of a first step: what remains is [f], unless it ended the handler. *)
Definition continue {A B} (f : A -> handler B) (Post : Prelude.outcome unit B -> V -> Prop) (r : Prelude.outcome unit A) (v : V) : Prop :=
  match r with Ok a => wp v (f a) Post | Err e => Post (Err e) v | Panic => Post Panic v end.

Lemma wp_ret {A} v (a : A) (Post : _ -> _ -> Prop) : Post (Ok a) v -> wp v (mret a) Post.
Proof. by intros H w <-. Qed.
Lemma wp_bind {A B} v (m : handler A) (f : A -> handler B) Post : wp v m (continue f Post) -> wp v (m ≫= f) Post.
Proof.
  intros H w Hv. specialize (H w Hv). unfold mbind, handler_bind. destruct (m w) as [[a | e |] w1]; cbn in *; [|done..]. by apply H.
Qed.
Lemma wp_conseq {A} v (m : handler A) (Post Post' : _ -> _ -> Prop) : wp v m Post' -> (forall r v', Post' r v' -> Post r v') -> wp v m Post.
Proof. intros H Hp w Hv. by apply Hp, H. Qed.
Lemma wp_quiet {A} v (m : handler A) (Post : _ -> _ -> Prop) : follows (fun w w' => view w' = view w) m -> (forall r, Post r v) -> wp v m Post.
Proof. intros H Hp w Hv. rewrite H, Hv. apply Hp. Qed.
Lemma wp_attempt {A} v (m : handler A) (Post : _ -> _ -> Prop) :
  wp v m (fun r v' => match r with Ok a => Post (Ok (Some a)) v' | Err _ => Post (Ok None) v' | Panic => Post Panic v' end) ->
  wp v (attempt m) Post.
Proof. intros H w Hv. specialize (H w Hv). unfold attempt. by destruct (m w) as [[a | e |] w1]. Qed.
Lemma wp_get v (Post : _ -> _ -> Prop) : (forall w, view w = v -> Post (Ok (shared w)) v) -> wp v get Post.
Proof. intros H w Hv. cbn. rewrite Hv. by apply H. Qed.
Lemma wp_from_outcome {E A} v (o : Prelude.outcome E A) (Post : _ -> _ -> Prop) :
  Post (match o with Ok a => Ok a | Err _ => Err tt | Panic => Panic end) v -> wp v (from_outcome o) Post.
Proof. by intros H w <-. Qed.
Lemma wp_fail {A} v (Post : _ -> _ -> Prop) : Post (Err tt) v -> wp v (fail (A := A)) Post.
Proof. by intros H w <-. Qed.

(** Views are equal: an equivalence for [follows]. *)
#[export] Instance same_view_preorder : PreOrder (fun w w' => view w' = view w).
Proof. split; [done | intros a b c H1 H2; congruence]. Qed.
End wp.

(** One step of a handler whose result is known. *)
Lemma bind_ok {A B} (m : handler A) (f : A -> handler B) w a w1 : m w = (Ok a, w1) -> (m ≫= f) w = f a w1.
Proof. intros H. unfold mbind, handler_bind. by rewrite H. Qed.
Lemma bind_get {B} (f : S -> handler B) w : (get ≫= f) w = f (shared w) w.
Proof. done. Qed.
Lemma bind_modify {B} g (f : unit -> handler B) w : (modify g ≫= f) w = f tt (modify g w).2.
Proof. done. Qed.
Lemma bind_emit {B} o (f : unit -> handler B) w : (emit o ≫= f) w = f tt (emit o w).2.
Proof. done. Qed.

(** The values a program returns. *)
Fixpoint returns {A} (P : A -> Prop) (p : prog A) : Prop :=
  match p with
  | Done r => forall a, r = Ok a -> P a
  | Call _ _ k => forall o, returns P (k o)
  | Post _ _ k => forall ok, returns P (k ok)
  end.
Lemma perform_returns {A} (P : A -> Prop) (p : prog A) w r : returns P p -> (perform p w).1 = Ok r -> forall a, r = Ok a -> P a.
Proof.
  revert w. induction p as [r' | req dest k IH | req dest k IH]; cbn [returns perform]; intros w Hp H.
  - injection H as <-. done.
  - revert H. unfold mbind, handler_bind. cbn [emit awaited]. by apply IH.
  - revert H. unfold mbind, handler_bind. cbn [emit accepted]. by apply IH.
Qed.

End handler.
Arguments World : clear implicits.
Arguments handler : clear implicits.

Create HintDb frame.
#[export] Hint Resolve follows_ret follows_bind follows_attempt follows_get follows_from_outcome follows_fail : frame.

(** The steps of a handler one by one, on every branch; [finish] ends each. *)
Ltac follow_steps finish :=
  repeat (intros;
    match goal with
    | |- follows _ (mbind _ _) => apply follows_bind; [typeclasses eauto | |]
    | |- follows _ (let '(_, _) := ?p in _) => destruct p
    | |- follows _ (match ?x with _ => _ end) => let E := fresh "E" in destruct x eqn:E
    | |- follows _ _ => solve [finish]
    | |- _ => progress cbv zeta
    end).
