(* ===== verification/Outbound.v ===== *)
(** Calls from an extension to the NGN (UasEventHandler and OutboundCallRegistry
    of src/src/call/orchestrator.rs).

    A call has two dialogs: the one with the extension, where sabiden answers,
    and the one with the NGN, where it calls. The registry keeps both; a BYE from
    either side, and the unregistration of the extension, end the other one.

    The handler of an INVITE waits for the NGN, and may wait and try again; what
    it does between two waits is a step here, and every other handler may run in
    between. So is a CANCEL in three steps: it finds the pending call, marks it,
    and, when the NGN has answered the CANCEL, answers the INVITE. The other
    handlers hold what they work on (the entry is out of the registry, or the
    lock of its dialog is taken) and are one step each. *)
From S2P Require Import Prelude RustStr Utf8 RtpPacket Dtmf NetAddr SipMessage SipUtils Transaction Dialog TuProg Registrar Uas Uac.
From S2P Require Import Sdp SdpRewrite RateLimiter CarrierRetry CallLog Observability Routing Bridge Calls TwoKeys Intercom SipFields Handler.

(** ** The registry *)

Record OutboundCallEntry := mkOut {
  oe_ext_call_id : string; oe_ngn_call_id : string; oe_from_aor : string;
  oe_ext_dialog : Dialog; oe_ngn_dialog : UacDialog;
  (* the INVITE of the extension, for its responder *)
  oe_invite : SipRequest; oe_ext_remote : SocketAddr; oe_bridge : option Z }.

(** [po_id] is the identity of the object, which the registry and the tasks
    share; its flag is in the state. *)
Record PendingOutbound := mkPending { po_id : nat; po_ext_call_id : string; po_plan : InvitePlan; po_invite : SipRequest }.

Record OutboundCallRegistry := mkOutReg {
  by_ext : gmap string OutboundCallEntry; ngn_to_ext : gmap string string; pending : gmap string PendingOutbound }.
Definition out_registry_new : OutboundCallRegistry := mkOutReg ∅ ∅ ∅.

Definition insert_pending (r : OutboundCallRegistry) (p : PendingOutbound) : OutboundCallRegistry :=
  mkOutReg (by_ext r) (ngn_to_ext r) (<[po_ext_call_id p := p]> (pending r)).
Definition take_pending (r : OutboundCallRegistry) (id : string) : OutboundCallRegistry :=
  mkOutReg (by_ext r) (ngn_to_ext r) (delete id (pending r)).
Definition get_pending (r : OutboundCallRegistry) (id : string) : option PendingOutbound := pending r !! id.

Definition insert_confirmed (r : OutboundCallRegistry) (e : OutboundCallEntry) : OutboundCallRegistry :=
  mkOutReg (<[oe_ext_call_id e := e]> (by_ext r)) (<[oe_ngn_call_id e := oe_ext_call_id e]> (ngn_to_ext r)) (pending r).
Definition lookup_by_ext (r : OutboundCallRegistry) (id : string) : option OutboundCallEntry := by_ext r !! id.
Definition lookup_by_ngn (r : OutboundCallRegistry) (id : string) : option OutboundCallEntry :=
  ext_id ← ngn_to_ext r !! id; by_ext r !! ext_id.

Definition remove_by_ext (r : OutboundCallRegistry) (id : string) : option OutboundCallEntry * OutboundCallRegistry :=
  match by_ext r !! id with
  | None => (None, r)
  | Some e => (Some e, mkOutReg (delete id (by_ext r)) (delete (oe_ngn_call_id e) (ngn_to_ext r)) (pending r))
  end.
Definition remove_by_ngn (r : OutboundCallRegistry) (id : string) : option OutboundCallEntry * OutboundCallRegistry :=
  match ngn_to_ext r !! id with
  | None => (None, r)
  | Some ext_id => (by_ext r !! ext_id, mkOutReg (delete ext_id (by_ext r)) (delete id (ngn_to_ext r)) (pending r))
  end.

(** The removals of [drain_by_aor]. *)
Fixpoint drain (r : OutboundCallRegistry) (ids : list string) : list OutboundCallEntry * OutboundCallRegistry :=
  match ids with
  | [] => ([], r)
  | id :: ids =>
      let '(e, r) := remove_by_ext r id in
      let '(l, r) := drain r ids in (option_list e ++ l, r)
  end.
Definition drain_by_aor (r : OutboundCallRegistry) (aor : string) : list OutboundCallEntry * OutboundCallRegistry :=
  drain r (map fst (List.filter (fun p => String.eqb (oe_from_aor p.2) aor) (map_to_list (by_ext r)))).

(** An entry whose dialogs moved on: the entry is shared, and may be out of the registry. *)
Definition update_entry (r : OutboundCallRegistry) (e : OutboundCallEntry) : OutboundCallRegistry :=
  match by_ext r !! oe_ext_call_id e with
  | Some _ => mkOutReg (<[oe_ext_call_id e := e]> (by_ext r)) (ngn_to_ext r) (pending r)
  | None => r
  end.

(** ** The state *)

(** The sockets of a bridge that is prepared, by their addresses, and a bridge. *)
Record OutboundBridgeCtx := mkCtx { ngn_sock : SocketAddr; ext_sock : SocketAddr; ctx_ext_peer : SocketAddr }.
Record OutBridge := mkOutBridge { ob_ctx : OutboundBridgeCtx; ob_ngn_peer : SocketAddr; ob_plan : MediaPlan }.

(** Where the task of an INVITE waits. *)
Inductive Phase :=
  | Inviting
  | RetryWait (response : SipResponse)
  | Retrying.
Record Task := mkTask {
  t_from_aor : string; t_invite : SipRequest; t_remote : SocketAddr; t_call_id : string; t_target : string;
  t_sdp : option string; t_ctx : option OutboundBridgeCtx; t_phase : Phase }.

Record OutState := mkState {
  registry : OutboundCallRegistry;
  limiter : rl_state;
  call_log : option CallLog;
  call_manager : option (CallManager OutBridge);
  metrics : Metrics;
  (* the flags of the pending calls that are set *)
  cancelled : gset nat;
  next_pending : nat;
  tasks : gmap nat Task;
  (* the CANCELs that have found their call, and those that the NGN has answered *)
  cancels_found : list PendingOutbound;
  cancels_sent : list PendingOutbound }.

(** [oc_ext_layer]: the transaction layer of the extensions, when it is attached,
    with the address of its socket. *)
Record OutConfig := mkOutConfig {
  oc_uac : Uac; oc_limits : RateLimiterConfig; oc_ext_layer : option (option SocketAddr); oc_ext_local_addr : option SocketAddr;
  (* whether calls between extensions are enabled, if the service is there *)
  oc_intercom : option bool }.

Inductive Output :=
  | ToExt (request : SipRequest) (resp : SipResponse)
  | ToNgn (request : SipRequest) (resp : SipResponse)
  | NgnInvite (id : nat) (plan : InvitePlan)
  | NgnSent (s : sent)
  | ExtSent (s : sent)
  | LetGo (r : Release (B := OutBridge))
  | ToIntercom (from_aor : string) (request : SipRequest) (binding : Binding) (callee : string)
  | NgnMedia (bridge : Z) (packet : list Z).

Abbreviation handling := (handler OutState Output).

Definition set_registry (f : OutboundCallRegistry -> OutboundCallRegistry) (s : OutState) : OutState :=
  mkState (f (registry s)) (limiter s) (call_log s) (call_manager s) (metrics s) (cancelled s) (next_pending s) (tasks s) (cancels_found s) (cancels_sent s).
Definition set_limiter (f : rl_state -> rl_state) (s : OutState) : OutState :=
  mkState (registry s) (f (limiter s)) (call_log s) (call_manager s) (metrics s) (cancelled s) (next_pending s) (tasks s) (cancels_found s) (cancels_sent s).
Definition set_call_log (f : CallLog -> CallLog) (s : OutState) : OutState :=
  mkState (registry s) (limiter s) (f <$> call_log s) (call_manager s) (metrics s) (cancelled s) (next_pending s) (tasks s) (cancels_found s) (cancels_sent s).
Definition set_manager (m : CallManager OutBridge) (s : OutState) : OutState :=
  mkState (registry s) (limiter s) (call_log s) (Some m) (metrics s) (cancelled s) (next_pending s) (tasks s) (cancels_found s) (cancels_sent s).
Definition set_metrics (f : Metrics -> Metrics) (s : OutState) : OutState :=
  mkState (registry s) (limiter s) (call_log s) (call_manager s) (f (metrics s)) (cancelled s) (next_pending s) (tasks s) (cancels_found s) (cancels_sent s).
Definition set_cancelled (f : gset nat -> gset nat) (s : OutState) : OutState :=
  mkState (registry s) (limiter s) (call_log s) (call_manager s) (metrics s) (f (cancelled s)) (next_pending s) (tasks s) (cancels_found s) (cancels_sent s).
Definition set_tasks (f : gmap nat Task -> gmap nat Task) (s : OutState) : OutState :=
  mkState (registry s) (limiter s) (call_log s) (call_manager s) (metrics s) (cancelled s) (next_pending s) (f (tasks s)) (cancels_found s) (cancels_sent s).
Definition new_pending (s : OutState) : OutState :=
  mkState (registry s) (limiter s) (call_log s) (call_manager s) (metrics s) (cancelled s) (S (next_pending s)) (tasks s) (cancels_found s) (cancels_sent s).
Definition set_cancels (found sent : list PendingOutbound -> list PendingOutbound) (s : OutState) : OutState :=
  mkState (registry s) (limiter s) (call_log s) (call_manager s) (metrics s) (cancelled s) (next_pending s) (tasks s) (found (cancels_found s)) (sent (cancels_sent s)).

(** ** Small steps the handlers share *)

Definition respond_ext (request : SipRequest) (resp : SipResponse) : handling unit :=
  ok ← accepted; if (ok : bool) then emit (ToExt request resp) else fail.
Definition quick_ext (request : SipRequest) (status : Z) (reason : string) : handling unit :=
  r ← draw_rnd; respond_ext request (quick request status reason r).
Definition count (f : Metrics -> Metrics) : handling unit := modify (set_metrics f).
Definition log_end (call_id : string) (o : CallLog.Outcome) (now : Z) : handling unit :=
  modify (set_call_log (fun log => record_end log call_id o now)).

Fixpoint each {A} (f : A -> handling unit) (l : list A) : handling unit :=
  match l with [] => mret tt | a :: l => f a ;; each f l end.
(** [mgr.terminate]; it does not fail. *)
Definition stop_bridge (bridge : option Z) : handling unit :=
  s ← get;
  match bridge, call_manager s with
  | Some id, Some m => let '(_, rs, m) := Calls.terminate m id in modify (set_manager m) ;; each (fun r => emit (LetGo r)) rs
  | _, _ => mret tt
  end.

(** [ngn_dlg.send_bye()]: its error is logged; the dialog of the entry is not used again. *)
Definition bye_ngn (ud : UacDialog) : handling unit :=
  r ← draw; _ ← perform NgnSent (send_bye ud r); mret tt.

(** ** The digit in an INFO (call/dtmf.rs) *)

(** The first character of a text in UTF-8, as its code point. *)
Definition first_char (s : string) : option Z :=
  let cont n := match String.get n s with Some c => code c mod 64 | None => 0 end in
  match s with
  | EmptyString => None
  | String a _ =>
      let a := code a in
      Some (if a <? 0x80 then a
            else if a <? 0xE0 then (a mod 32) * 64 + cont 1%nat
            else if a <? 0xF0 then (a mod 16) * 4096 + cont 1%nat * 64 + cont 2%nat
            else (a mod 8) * 262144 + cont 1%nat * 4096 + cont 2%nat * 64 + cont 3%nat)
  end.

Definition relay_line (acc : option Z * Z) (line : string) : option Z * Z :=
  let '(signal, duration_ms) := acc in
  let line := trim line in
  match strip_prefix "Signal=" line with
  | Some rest => (match first_char (trim rest) with Some c => Some c | None => signal end, duration_ms)
  | None =>
      match strip_prefix "Duration=" line with
      | Some rest => (signal, default duration_ms (parse_uint 32 (trim rest)))
      | None => acc
      end
  end.
Definition parse_application_dtmf_relay (body : string) : option (Z * Z) :=
  if is_utf8 body then
    let '(signal, duration_ms) := fold_left relay_line (str_lines body) (None, 250) in
    (fun c => (c, duration_ms)) <$> signal
  else None.
Definition parse_application_dtmf (body : string) : option Z :=
  if is_utf8 body then first_char (trim body) else None.

Section outbound.
Context (cfg : OutConfig).

Definition ext_sent_by : option SocketAddr :=
  match oc_ext_local_addr cfg with
  | Some a => Some a
  | None => match oc_ext_layer cfg with Some local => local | None => None end
  end.
Definition ext_contact_uri : string :=
  "sip:sabiden@" +:+ print_socket (default (uc_local_addr (uac_config (oc_uac cfg))) ext_sent_by).
Definition build_ext_dialog_cfg (invite : SipRequest) : DialogConfig :=
  let sent_by := match ext_sent_by with Some a => print_socket a | None => "0.0.0.0:0" end in
  mkDialogConfig
    (match hdr_get (req_headers invite) "to" with Some v => extract_uri_from_addr v | None => "sip:sabiden" end)
    (match hdr_get (req_headers invite) "from" with Some v => extract_uri_from_addr v | None => "sip:unknown@sabiden" end)
    ("sip:sabiden@" +:+ sent_by) sent_by.

(** ** The INVITE of an extension *)

(** What an INVITE brings with it: the registrations and the aliases at that time,
    the routes of the client, its random identifiers, and the two sockets for a
    bridge, if both could be bound. *)
Record InviteEnv := mkEnv {
  ie_registrar : option ExtensionRegistrar; ie_aliases : ExtensionAliases; ie_routes : Routes; ie_ids : Ids;
  ie_socks : option (SocketAddr * SocketAddr) }.

Inductive Verdict :=
  | ToNgnVerdict
  | Fails480
  | Dispatch (binding : Binding) (callee : string).

(** The dialled extension, if it is one: nobody calls itself, and nobody calls an
    extension while the calls between extensions are off. *)
Definition dial_verdict (env : InviteEnv) (from_aor uri : string) (now : Z) : Verdict :=
  match oc_intercom cfg, ie_registrar env, extract_user_from_sip_uri uri with
  | Some enabled, Some registrar, Some target_user =>
      let resolved_target := default target_user (resolve (ie_aliases env) target_user) in
      if String.eqb resolved_target from_aor || String.eqb target_user from_aor then Fails480
      else
        match classify_dial_target target_user registrar (ie_aliases env) now with
        | Internal binding callee_aor => if negb enabled then Fails480 else Dispatch binding callee_aor
        | Ngn _ => ToNgnVerdict
        end
  | _, _, _ => ToNgnVerdict
  end.

(** The offer that goes to the NGN, with the sockets of the bridge if there is one.
    Without a manager or an offer there is no bridge; every error leaves the
    offer with the address alone. *)
Definition prepare_outbound_bridge (m : option (CallManager OutBridge)) (ext_offer : string)
    (socks : option (SocketAddr * SocketAddr)) (now_secs : Z) : Prelude.outcome unit (option (OutboundBridgeCtx * string)) :=
  match m with
  | None => Ok None
  | Some _ =>
      if String.eqb ext_offer "" then Ok None
      else
        ext_peer ← ok_or (extract_rtp_endpoint ext_offer) tt;
        '(ngn, ext) ← ok_or socks tt;
        match rewrite_rtp_endpoint ext_offer (ip ngn) (sport ngn) now_secs with
        | Ok rewritten => Ok (Some (mkCtx ngn ext ext_peer, rewritten))
        | Err _ => Err tt
        | Panic => Panic
        end
  end.

Definition offer_for_ngn (env : InviteEnv) (m : option (CallManager OutBridge)) (ext_offer : string) (now_secs : Z) :
    handling (option OutboundBridgeCtx * option string) :=
  let forced := sdp ← from_outcome (force_rewrite_sdp_for_ngn ext_offer (ip (uc_local_addr (uac_config (oc_uac cfg)))) now_secs); mret (None, sdp) in
  '(ctx, sdp) ← match prepare_outbound_bridge m ext_offer (ie_socks env) now_secs with
                | Ok (Some (ctx, rewritten)) => mret (Some ctx, Some rewritten)
                | Ok None | Err _ => forced
                | Panic => from_outcome (E := unit) Panic
                end;
  match sdp with
  | Some s => s' ← from_outcome (rewrite_offer for_ngn_with_dtmf s); mret (ctx, Some s')
  | None => mret (ctx, None)
  end.

Definition known_call_id (call_id : string) : bool := negb (String.eqb call_id "") && negb (String.eqb call_id "<no-call-id>").
Definition invite_call_id (request : SipRequest) : string := default "<no-call-id>" (hdr_get (req_headers request) "call-id").

(** From the admission to the INVITE of the NGN. *)
Definition start_invite (env : InviteEnv) (from_aor : string) (request : SipRequest) (remote : SocketAddr) (now : Z) : handling unit :=
  let call_id := invite_call_id request in
  let server := uac_server (oc_uac cfg) in
  let target := normalize_request_uri_for_ngn (req_uri request) (print_ip (ip server)) (sport server) in
  s ← get;
  '(ctx, sdp_for_ngn) ← offer_for_ngn env (call_manager s) (req_body request) (as_secs now);
  let plan := build_invite (oc_uac cfg) (ie_routes env) target sdp_for_ngn None (ie_ids env) in
  modify (set_call_log (fun log => record_start log CallLog.Outbound (default target (extract_user_from_sip_uri target)) call_id now)) ;;
  let id := next_pending s in
  modify new_pending ;;
  (if known_call_id call_id
   then modify (set_registry (fun r => insert_pending r (mkPending id call_id plan request))) else mret tt) ;;
  emit (NgnInvite id plan) ;;
  modify (set_tasks (fun t => <[id := mkTask from_aor request remote call_id target sdp_for_ngn ctx Inviting]> t)).

(** [handle_invite], up to the first wait. *)
Definition handle_invite (env : InviteEnv) (from_aor : string) (request : SipRequest) (remote : SocketAddr) (now : Z) : handling unit :=
  match dial_verdict env from_aor (req_uri request) now with
  | Fails480 =>
      _ ← attempt (quick_ext request 480 "Temporarily Unavailable");
      count (fun m => record_invite_extension m Observability.Error)
  | Dispatch binding callee => emit (ToIntercom from_aor request binding callee)
  | ToNgnVerdict =>
      s ← get;
      let '(decision, lim) := check_and_record_at (oc_limits cfg) (limiter s) from_aor now in
      modify (set_limiter (fun _ => lim)) ;;
      match decision with
      | Deny retry_after =>
          count (fun m => record_invite_blocked_by_rate_limit m Extension) ;;
          count (fun m => record_invite_extension m Observability.Error) ;;
          r ← draw_rnd;
          _ ← attempt (respond_ext request (build_503_with_retry_after request (as_secs retry_after) r));
          mret tt
      | Allow previous_interval =>
          match previous_interval with
          | Some d => count (fun m => record_invite_interval_ms m (to_u64_or (2 ^ 64 - 1) (as_millis d)))
          | None => mret tt
          end ;;
          start_invite env from_aor request remote now
      end
  end.

(** *** When the NGN has answered *)

(** The answer for the extension, and the bridge if there is one. *)
Definition finalize_outbound_bridge (ctx : option OutboundBridgeCtx) (ext_offer ngn_answer : string) (now_secs : Z) :
    handling (string * option Z) :=
  s ← get;
  match ctx, call_manager s with
  | Some ctx, Some m =>
      if String.eqb ngn_answer "" then fail
      else
        ngn_peer ← from_outcome (ok_or (extract_rtp_endpoint ngn_answer) tt);
        rewritten_for_ext ← from_outcome (rewrite_rtp_endpoint ext_offer (ip (ext_sock ctx)) (sport (ext_sock ctx)) now_secs);
        let bridge := mkOutBridge ctx ngn_peer (select_media_plan ngn_answer ext_offer) in
        started ← accepted;
        if (started : bool) then
          let '(cid, m) := create_call m in
          modify (set_manager m) ;;
          let '(res, rs, m) := attach_media_bridge m cid bridge in
          modify (set_manager m) ;;
          each (fun r => emit (LetGo r)) rs ;;
          from_outcome res ;;
          mret (rewritten_for_ext, Some cid)
        else fail
  | _, _ => mret (ngn_answer, None)
  end.

(** The NGN took the call. *)
Definition invite_established (t : Task) (was_cancelled : bool) (call : EstablishedCall) (now : Z) : handling unit :=
  modify (set_limiter (fun lim => record_success lim (t_from_aor t))) ;;
  if was_cancelled then
    bye_ngn (ec_dialog call) ;;
    count (fun m => record_invite_ngn m Observability.Error) ;;
    log_end (t_call_id t) CallLog.Cancelled now
  else
    let ext_offer := req_body (t_invite t) in
    let answer := resp_body (ec_response call) in
    b ← attempt (finalize_outbound_bridge (t_ctx t) ext_offer answer (as_secs now));
    let '(body_for_ext, bridge) := default (answer, None) b in
    r ← draw_rnd;
    let response_to_ext := build_2xx_to_ext (t_invite t) body_for_ext ext_contact_uri r in
    respond_ext (t_invite t) response_to_ext ;;
    count (fun m => record_invite_ngn m Observability.Answered) ;;
    count (fun m => record_invite_extension m Observability.Answered) ;;
    count inc_call_active ;;
    match from_uas_invite (t_invite t) response_to_ext (build_ext_dialog_cfg (t_invite t)) with
    | Err _ => mret tt
    | Panic => from_outcome (E := unit) Panic
    | Ok ext_dialog =>
        match oc_ext_layer cfg with
        | Some _ =>
            modify (set_registry (fun reg => insert_confirmed reg
              (mkOut (t_call_id t) (dlg_call_id (dlg_id (inner (ec_dialog call)))) (t_from_aor t) ext_dialog (ec_dialog call)
                 (t_invite t) (t_remote t) bridge)))
        | None => mret tt
        end
    end.

(** The NGN refused the call. *)
Definition invite_failed (t : Task) (response : SipResponse) (now : Z) : handling unit :=
  let code := status_code response in
  (if is_5xx code then count (fun m => record_ngn_5xx m code) else mret tt) ;;
  count (fun m => record_invite_ngn m (if code =? 486 then Observability.Busy else Observability.Error)) ;;
  log_end (t_call_id t) (CallLog.Failed code) now ;;
  let retry_after_secs := v ← hdr_get (resp_headers response) "retry-after"; parse_retry_after v in
  modify (set_limiter (fun lim => record_failure_at lim (t_from_aor t) code retry_after_secs now)) ;;
  match retry_after_secs with
  | Some secs =>
      r ← draw_rnd;
      let resp := build_response_skeleton (t_invite t) code (reason response) (r_skeleton r) in
      respond_ext (t_invite t) (ensure_to_tag (set_header resp "Retry-After" (print_uint secs)) (r_tag r))
  | None => quick_ext (t_invite t) code (reason response)
  end.

(** The client failed. *)
Definition invite_lost (t : Task) (was_cancelled : bool) (now : Z) : handling unit :=
  if was_cancelled then log_end (t_call_id t) CallLog.Cancelled now
  else
    count (fun m => record_invite_ngn m Observability.Timeout) ;;
    log_end (t_call_id t) (CallLog.Failed 503) now ;;
    modify (set_limiter (fun lim => record_failure_at lim (t_from_aor t) 503 None now)) ;;
    quick_ext (t_invite t) 503 "Service Unavailable".

(** From the last answer to the end of the task. *)
Definition finish_invite (id : nat) (t : Task) (result : option InviteOutcome) (now : Z) : handling unit :=
  modify (set_tasks (delete id)) ;;
  s ← get;
  let was_cancelled := bool_decide (id ∈ cancelled s) in
  (if known_call_id (t_call_id t) then modify (set_registry (fun r => take_pending r (t_call_id t))) else mret tt) ;;
  match result with
  | Some (Uac.Established call) => invite_established t was_cancelled call now
  | Some (Uac.Failed response) => invite_failed t response now
  | None => invite_lost t was_cancelled now
  end.

(** The answer to the first INVITE: perhaps the call is tried again. [nanos] is
    what the jitter is made of. *)
Definition first_answer (id : nat) (t : Task) (result : option InviteOutcome) (nanos now : Z) : handling unit :=
  let retry :=
    match result with
    | Some (Uac.Failed response) =>
        match decide_retry (status_code response) (resp_headers response) retry_default
                (random_jitter_offset_ms (retry_jitter retry_default) nanos) with
        | Retry _ _ => Some response
        | NoRetry _ => None
        end
    | _ => None
    end in
  match retry with
  | Some response => modify (set_tasks (fun ts => <[id := mkTask (t_from_aor t) (t_invite t) (t_remote t) (t_call_id t)
                       (t_target t) (t_sdp t) (t_ctx t) (RetryWait response)]> ts))
  | None => count (fun m => record_ngn_carrier_retry m NotRetried) ;; finish_invite id t result now
  end.

(** The end of the sleep, or the CANCEL that cuts it short. *)
Definition retry_wake (id : nat) (t : Task) (response : SipResponse) (routes : Routes) (ids : Ids) (now : Z) : handling unit :=
  s ← get;
  if bool_decide (id ∈ cancelled s) then
    count (fun m => record_ngn_carrier_retry m RetryAbortedByCancel) ;;
    finish_invite id t (Some (Uac.Failed response)) now
  else
    emit (NgnInvite id (build_invite (oc_uac cfg) routes (t_target t) (t_sdp t) None ids)) ;;
    modify (set_tasks (fun ts => <[id := mkTask (t_from_aor t) (t_invite t) (t_remote t) (t_call_id t)
      (t_target t) (t_sdp t) (t_ctx t) Retrying]> ts)).

Definition second_answer (id : nat) (t : Task) (result : option InviteOutcome) (now : Z) : handling unit :=
  let succeeded := match result with Some (Uac.Established _) => true | _ => false end in
  count (fun m => record_ngn_carrier_retry m (if succeeded then RetriedSucceeded else RetriedFailed)) ;;
  finish_invite id t result now.

(** ** CANCEL *)

Definition handle_ext_cancel (request : SipRequest) : handling unit :=
  s ← get;
  match call_id ← hdr_get (req_headers request) "call-id"; get_pending (registry s) call_id with
  | Some p => modify (set_cancels (fun found => found ++ [p]) id)
  | None => mret tt
  end.

(** The mark, and the CANCEL to the NGN; [watch] is the progress of its INVITE. *)
Definition cancel_go (i : nat) (watch : TransactionId -> option Watch) : handling unit :=
  s ← get;
  match cancels_found s !! i with
  | None => mret tt
  | Some p =>
      modify (set_cancels (delete i) (fun sent => sent ++ [p])) ;;
      modify (set_cancelled (fun c => {[po_id p]} ∪ c)) ;;
      _ ← perform NgnSent (cancel_pending (oc_uac cfg) (po_plan p) watch);
      mret tt
  end.

Definition cancel_end (i : nat) : handling unit :=
  s ← get;
  match cancels_sent s !! i with
  | None => mret tt
  | Some p =>
      modify (set_cancels id (delete i)) ;;
      _ ← attempt (quick_ext (po_invite p) 487 "Request Terminated");
      count (fun m => record_invite_ngn m Observability.Error)
  end.

(** ** The end of a call *)

Definition handle_ext_bye (request : SipRequest) (now : Z) : handling unit :=
  _ ← attempt (quick_ext request 200 "OK");
  match hdr_get (req_headers request) "call-id" with
  | None => mret tt
  | Some call_id =>
      s ← get;
      let '(entry, reg) := remove_by_ext (registry s) call_id in
      modify (set_registry (fun _ => reg)) ;;
      match entry with
      | None => mret tt
      | Some e =>
          bye_ngn (oe_ngn_dialog e) ;;
          count dec_call_active ;;
          log_end call_id CallLog.Answered now ;;
          stop_bridge (oe_bridge e)
      end
  end.

Definition handle_ngn_bye (ngn_call_id : string) : handling unit :=
  s ← get;
  let '(entry, reg) := remove_by_ngn (registry s) ngn_call_id in
  modify (set_registry (fun _ => reg)) ;;
  match entry with
  | None => mret tt
  | Some e =>
      r ← draw;
      emit (ExtSent (Awaited (build_bye (oe_ext_dialog e) r).1 (oe_ext_remote e))) ;;
      _ ← awaited;
      count dec_call_active ;;
      stop_bridge (oe_bridge e)
  end.

Definition close_unregistered (e : OutboundCallEntry) : handling unit :=
  bye_ngn (oe_ngn_dialog e) ;; count dec_call_active ;; stop_bridge (oe_bridge e).
Definition handle_ext_unregister (aor : string) : handling unit :=
  s ← get;
  let '(drained, reg) := drain_by_aor (registry s) aor in
  modify (set_registry (fun _ => reg)) ;; each close_unregistered drained.

(** ** Changes of a call *)

Definition with_ngn_dialog (e : OutboundCallEntry) (ud : UacDialog) : OutboundCallEntry :=
  mkOut (oe_ext_call_id e) (oe_ngn_call_id e) (oe_from_aor e) (oe_ext_dialog e) ud (oe_invite e) (oe_ext_remote e) (oe_bridge e).
Definition with_ext_dialog (e : OutboundCallEntry) (d : Dialog) : OutboundCallEntry :=
  mkOut (oe_ext_call_id e) (oe_ngn_call_id e) (oe_from_aor e) d (oe_ngn_dialog e) (oe_invite e) (oe_ext_remote e) (oe_bridge e).

Definition relay_session (src : SipHeaders) (resp : SipResponse) : SipResponse :=
  let resp := match hdr_get src "session-expires" with Some se => set_header resp "Session-Expires" se | None => resp end in
  if header_has_option_tag (hdr_get src "require") "timer" then set_header resp "Require" "timer" else resp.
Definition relay_failure (request : SipRequest) (src : SipResponse) (r : Rnd) : SipResponse :=
  let relay := build_response_skeleton request (status_code src) (reason src) (r_skeleton r) in
  let relay := match hdr_get (resp_headers src) "min-se" with Some v => set_header relay "Min-SE" v | None => relay end in
  let relay := match hdr_get (resp_headers src) "retry-after" with Some v => set_header relay "Retry-After" v | None => relay end in
  ensure_to_tag relay (r_tag r).

Definition handle_ext_reinvite (request : SipRequest) (now_secs : Z) : handling unit :=
  let call_id := default "" (hdr_get (req_headers request) "call-id") in
  s ← get;
  match lookup_by_ext (registry s) call_id with
  | None =>
      match get_pending (registry s) call_id with
      | Some _ => quick_ext request 491 "Request Pending"
      | None => quick_ext request 481 "Call/Transaction Does Not Exist"
      end
  | Some e =>
      offer ← from_outcome (force_rewrite_sdp_for_ngn (req_body request) (ip (uc_local_addr (uac_config (oc_uac cfg)))) now_secs);
      offer ← match offer with
              | Some o => o' ← from_outcome (rewrite_offer for_ngn_with_dtmf o); mret (Some o')
              | None => mret None
              end;
      r ← draw; r_ack ← draw;
      res ← perform NgnSent (send_reinvite (oe_ngn_dialog e) offer r r_ack);
      '(res, ud) ← from_outcome res;
      modify (set_registry (fun reg => update_entry reg (with_ngn_dialog e ud))) ;;
      match res with
      | Ok resp =>
          rnd ← draw_rnd;
          if is_2xx (status_code resp) then
            _ ← attempt (respond_ext request
                  (relay_session (resp_headers resp) (build_2xx_to_ext request (resp_body resp) ext_contact_uri rnd)));
            mret tt
          else respond_ext request (relay_failure request resp rnd)
      | Err _ => quick_ext request 500 "Server Internal Error"
      | Panic => from_outcome (E := unit) Panic
      end
  end.

Definition respond_ngn (request : SipRequest) (resp : SipResponse) : handling unit :=
  ok ← accepted; if (ok : bool) then emit (ToNgn request resp) else fail.

(** [chain] are the texts of the error when there is no answer. *)
Definition handle_ngn_reinvite (request : SipRequest) (chain : list string) : handling unit :=
  let call_id := default "" (hdr_get (req_headers request) "call-id") in
  s ← get;
  match lookup_by_ngn (registry s) call_id with
  | None =>
      rnd ← draw_rnd;
      respond_ngn request (ensure_to_tag (build_response_skeleton request 481 "Call/Transaction Does Not Exist" (r_skeleton rnd)) (r_tag rnd))
  | Some e =>
      let sdp_body := if String.eqb (req_body request) "" then None else Some (req_body request) in
      r ← draw;
      let '(ext_reinvite, d) := build_reinvite (oe_ext_dialog e) sdp_body 300 MIN_SE r in
      modify (set_registry (fun reg => update_entry reg (with_ext_dialog e d))) ;;
      emit (ExtSent (Awaited ext_reinvite (oe_ext_remote e))) ;;
      answer ← awaited;
      rnd ← draw_rnd;
      match answer : option SipResponse with
      | Some resp =>
          if is_2xx (status_code resp) then
            let to_ngn := build_response_skeleton request 200 "OK" (r_skeleton rnd) in
            let to_ngn :=
              if String.eqb (resp_body resp) "" then to_ngn
              else mkResponse (status_code to_ngn) (reason to_ngn) (hdr_set (resp_headers to_ngn) "Content-Type" "application/sdp") (resp_body resp) in
            let to_ngn := set_header to_ngn "Contact" ("<" +:+ local_contact (inner (oe_ngn_dialog e)) +:+ ">") in
            respond_ngn request (ensure_to_tag (relay_session (resp_headers resp) to_ngn) (r_tag rnd))
          else respond_ngn request (relay_failure request resp rnd)
      | None =>
          let '(code, why) := classify_ext_reinvite_send_error chain in
          respond_ngn request (ensure_to_tag (build_response_skeleton request code why (r_skeleton rnd)) (r_tag rnd))
      end
  end.

(** ** INFO with a digit *)

(** The random timestamp is the clock in milliseconds. *)
Definition dtmf_ssrc (call_id : string) : Z :=
  let h := fold_left (fun h b => wrap 32 (Z.lxor h (code b) * 0x01000193)) (String.list_ascii_of_string call_id) 0x811c9dc5 in
  if h =? 0 then 0xCAFEBABE else h.
Fixpoint inject_packets (bridge_id : Z) (packets : list RtpPacket) : handling unit :=
  match packets with
  | [] => mret tt
  | p :: packets =>
      s ← get;
      match m ← call_manager s; match Calls.inject m bridge_id with Ok b => Some b | _ => None end with
      | None => mret tt
      | Some _ =>
          ok ← accepted;
          if (ok : bool) then emit (NgnMedia bridge_id (RtpPacket.to_bytes p)) ;; inject_packets bridge_id packets else mret tt
      end
  end.
Definition inject_dtmf_event_to_ngn (bridge_id : Z) (call_id : string) (event now_millis : Z) : handling unit :=
  let now_ts := wrap 32 now_millis in
  packets ← from_outcome (E := unit) (build_dtmf_packet_sequence event (wrap 16 now_ts) now_ts (dtmf_ssrc call_id) 100 50 10);
  inject_packets bridge_id packets.

Definition handle_ext_info (request : SipRequest) (now_millis : Z) : handling unit :=
  let call_id := default "" (hdr_get (req_headers request) "call-id") in
  (* letters outside ASCII never become part of the names *)
  let ct_lower := to_ascii_lowercase (default "" (hdr_get (req_headers request) "content-type")) in
  let digit :=
    if contains_str "application/dtmf-relay" ct_lower then fst <$> parse_application_dtmf_relay (req_body request)
    else if contains_str "application/dtmf" ct_lower then parse_application_dtmf (req_body request)
    else None in
  match digit with
  | None => quick_ext request 415 "Unsupported Media Type"
  | Some digit =>
      _ ← attempt (quick_ext request 200 "OK");
      s ← get;
      match digit_to_event digit with
      | None => mret tt
      | Some event =>
          match e ← lookup_by_ext (registry s) call_id; oe_bridge e, call_manager s with
          | Some bridge_id, Some _ => inject_dtmf_event_to_ngn bridge_id call_id event now_millis
          | _, _ => mret tt
          end
      end
  end.

(** ** The handler *)

(** What happens to the handler: the events of the extensions, those of the NGN,
    and the ends of what its tasks wait for. *)
Inductive OutEvent :=
  | EvInvite (env : InviteEnv) (from_aor : string) (request : SipRequest) (remote : SocketAddr) (now : Z)
  | EvAnswer (id : nat) (result : option InviteOutcome) (nanos now : Z)
  | EvWake (id : nat) (routes : Routes) (ids : Ids) (now : Z)
  | EvReinvite (request : SipRequest) (now_secs : Z)
  | EvBye (request : SipRequest) (now : Z)
  | EvCancel (request : SipRequest)
  | EvCancelGo (i : nat) (watch : TransactionId -> option Watch)
  | EvCancelEnd (i : nat)
  | EvAck (request : SipRequest)
  | EvInfo (request : SipRequest) (now_millis : Z)
  | EvUnregister (aor : string)
  | EvNgnReinvite (request : SipRequest) (chain : list string)
  | EvNgnBye (ngn_call_id : string).

(** [UasEvent::Refer] is not among them: the transfer that it starts shares the registry
    and the dialogs with these calls, and is modelled with what it needs of them in
    [Transfer]. *)
Definition handle_event (ev : OutEvent) : handling unit :=
  match ev with
  | EvInvite env from_aor request remote now => handle_invite env from_aor request remote now
  | EvAnswer id result nanos now =>
      s ← get;
      match tasks s !! id with
      | Some t =>
          match t_phase t with
          | Inviting => first_answer id t result nanos now
          | RetryWait _ => mret tt
          | Retrying => second_answer id t result now
          end
      | None => mret tt
      end
  | EvWake id routes ids now =>
      s ← get;
      match tasks s !! id with
      | Some t => match t_phase t with RetryWait response => retry_wake id t response routes ids now | _ => mret tt end
      | None => mret tt
      end
  | EvReinvite request now_secs => handle_ext_reinvite request now_secs
  | EvBye request now => handle_ext_bye request now
  | EvCancel request => handle_ext_cancel request
  | EvCancelGo i watch => cancel_go i watch
  | EvCancelEnd i => cancel_end i
  | EvAck _ => mret tt
  | EvInfo request now_millis => handle_ext_info request now_millis
  | EvUnregister aor => handle_ext_unregister aor
  | EvNgnReinvite request chain => handle_ngn_reinvite request chain
  | EvNgnBye id => handle_ngn_bye id
  end.

(** The tasks are spawned one by one: an error of one is only logged. *)
Fixpoint run (evs : list OutEvent) (w : World OutState Output) : World OutState Output :=
  match evs with [] => w | ev :: evs => run evs (handle_event ev w).2 end.

End outbound.
