(* ===== verification/Legs.v ===== *)
(** The legs on the NGN, for the calls of telephones and of browsers: the requests
    that are sent in the dialog of a call, and the gauge of the active calls. *)
From S2P Require Import Prelude RustStr NetAddr SipMessage SipUtils Transaction Dialog TuProg Uac Observability Handler.

Definition ngn_id (ud : UacDialog) : string := dlg_call_id (dlg_id (inner ud)).

(** A program that sends no BYE. *)
Fixpoint no_bye {A} (p : prog A) : Prop :=
  match p with
  | Done _ => True
  | Call req _ k => req_method req <> Bye /\ forall o, no_bye (k o)
  | Post req _ k => req_method req <> Bye /\ forall ok, no_bye (k ok)
  end.

Lemma no_bye_bind {A B} (p : prog A) (f : A -> prog B) : no_bye p -> (forall a, no_bye (f a)) -> no_bye (p ≫= f).
Proof.
  intros Hp Hf. induction p as [r | req dest k IH | req dest k IH]; cbn in *.
  - destruct r; [apply Hf | done..].
  - destruct Hp as [? Hp]. split; [done|]. intros o. by apply IH.
  - destruct Hp as [? Hp]. split; [done|]. intros o. by apply IH.
Qed.

Lemma build_reinvite_method d sdp se min r : req_method (build_reinvite d sdp se min r).1 = Invite.
Proof. unfold build_reinvite. destruct (compute_request_uri_and_route d), sdp; done. Qed.
Lemma build_ack_method d cseq r : req_method (build_ack_for_2xx d cseq r) = Ack.
Proof. unfold build_ack_for_2xx. by destruct (compute_request_uri_and_route d). Qed.

Lemma send_reinvite_no_bye ud sdp r r_ack : no_bye (send_reinvite ud sdp r r_ack).
Proof.
  unfold send_reinvite. pose proof (build_reinvite_method (inner ud) sdp (ud_session_expires ud) MIN_SE r) as Hm.
  destruct (build_reinvite _ _ _ _ _) as [req d]. cbn [fst] in Hm. case_match; cbn; [|done..].
  split; [by rewrite Hm|]. intros [resp|]; cbn; [|done]. destruct (is_2xx _); cbn; [|done].
  split; [by rewrite build_ack_method|]. by intros [].
Qed.

(** A BYE in a dialog. *)
Lemma build_bye_request d r : req_method (build_bye d r).1 = Bye /\ hdr_get (req_headers (build_bye d r).1) "call-id" = Some (dlg_call_id (dlg_id d)).
Proof.
  destruct (build_op_request d (OpBye r)) as [[Hci _ _ _ _ _] _]. split; [|exact Hci].
  unfold build_bye. by destruct (compute_request_uri_and_route d).
Qed.

Lemma build_reinvite_id d sdp se min r : dlg_id (build_reinvite d sdp se min r).2 = dlg_id d.
Proof. unfold build_reinvite. by destruct (compute_request_uri_and_route d). Qed.
Lemma send_reinvite_id ud sdp r r_ack : returns (fun x => ngn_id x.2 = ngn_id ud) (send_reinvite ud sdp r r_ack).
Proof.
  unfold send_reinvite. pose proof (build_reinvite_id (inner ud) sdp (ud_session_expires ud) MIN_SE r) as Hd.
  destruct (build_reinvite _ _ _ _ _) as [req d]. cbn [snd] in Hd. unfold ngn_id. rewrite <- Hd.
  case_match; cbn; [|by intros ? [= <-] | done]. intros [resp|]; cbn; [|by intros ? [= <-]].
  destruct (is_2xx _); cbn; [|by intros ? [= <-]]. by intros [] ? [= <-].
Qed.

(** ** The gauge *)

Definition inc (g : Z) : Z := wrapping_add 64 g 1.

Definition dec (g : Z) : Z := if 0 <? g then wrapping_sub 64 g 1 else g.

Lemma dec_gauge m : dec_call_active m call_active = dec (m call_active).
Proof. unfold dec_call_active, dec, store. destruct (0 <? m call_active); [by rewrite decide_True | done]. Qed.

Lemma iter_dec n k : Z.of_nat (k + n) < 2 ^ 64 -> Nat.iter k dec (Z.of_nat (k + n)) = Z.of_nat n.
Proof.
  revert n. induction k as [|k IH]; intros n H; [done|]. replace (S k + n)%nat with (k + S n)%nat in H |- * by lia.
  change (dec (Nat.iter k dec (Z.of_nat (k + S n))) = Z.of_nat n). rewrite IH by done. unfold dec, wrapping_sub, wrap.
  rewrite (proj2 (Z.ltb_lt _ _)) by lia. rewrite Z.mod_small by lia. lia.
Qed.
Lemma record_5xx_gauge m code : record_ngn_5xx m code call_active = m call_active.
Proof. unfold record_ngn_5xx. by repeat case_match. Qed.
#[export] Hint Resolve record_5xx_gauge : frame.
