(* ===== verification/OutboundLegs.v ===== *)
(** What becomes of the calls that the NGN took (call/orchestrator.rs,
    UasEventHandler): over any sequence of events every leg on the NGN is in the
    registry, was ended with a BYE, or was ended by the NGN, and the gauge of the
    active calls counts the registry.

    The steps that do not concern the legs are passed over with [frame]: what
    they leave as it was. *)
From S2P Require Import Prelude RustStr Utf8 NetAddr SipMessage SipUtils Transaction Dialog Auth TuProg Registrar Uas Uac.
From S2P Require Import Sdp SdpRewrite RateLimiter CarrierRetry CallLog Observability Routing Bridge Calls TwoKeys Intercom SipFields Handler Outbound Legs.

Abbreviation world := (World OutState Output).

(** ** The legs of a world *)

(** The Call-IDs of an entry: the extension's, the one it is registered with, and
    that of the dialog its BYE is sent in. *)
Definition leg (e : OutboundCallEntry) : string * (string * string) :=
  (oe_ext_call_id e, (oe_ngn_call_id e, ngn_id (oe_ngn_dialog e))).
Definition leg_ext (p : string * (string * string)) : string := p.1.
Definition leg_ngn (p : string * (string * string)) : string := p.2.1.

Definition legs (w : world) : gmap string (string * (string * string)) := leg <$> by_ext (registry (shared w)).
Definition back (w : world) : gmap string string := ngn_to_ext (registry (shared w)).
Definition gauge (w : world) : Z := metrics (shared w) call_active.

Definition bye_of (o : Output) : option string :=
  match o with
  | NgnSent (Awaited req _) => if decide (req_method req = Bye) then hdr_get (req_headers req) "call-id" else None
  | _ => None
  end.
(** The Call-IDs of the BYEs sent to the NGN. *)
Definition byes (w : world) : list string := omap bye_of (outs w).

(** ** Frames *)

Record frame (w w' : world) : Prop := {
  fr_legs : legs w' = legs w;
  fr_back : back w' = back w;
  fr_gauge : gauge w' = gauge w;
  fr_byes : byes w' = byes w;
  fr_tasks : tasks (shared w') = tasks (shared w);
  fr_next : next_pending (shared w') = next_pending (shared w);
  fr_oks : oks w = [] -> oks w' = []
}.

#[export] Instance frame_preorder : PreOrder frame.
Proof.
  split; [by intros w; split | intros a b c [] []]. split; [congruence.. | auto].
Qed.

(** What leaves the legs as they are, and perhaps not the tasks. *)
Record still (w w' : world) : Prop := {
  sl_legs : legs w' = legs w;
  sl_back : back w' = back w;
  sl_gauge : gauge w' = gauge w;
  sl_byes : byes w' = byes w;
  sl_oks : oks w = [] -> oks w' = []
}.
#[export] Instance still_preorder : PreOrder still.
Proof.
  split; [by intros w; split | intros a b c [] []]. split; [congruence.. | auto].
Qed.
Lemma frame_still w w' : frame w w' -> still w w'.
Proof. by intros []. Qed.

Abbreviation quiet := (follows frame).

Lemma quiet_accepted : quiet accepted.
Proof. intros w. split; [done..|]. cbn. by intros ->. Qed.
Lemma quiet_awaited : quiet awaited.
Proof. by intros w. Qed.
Lemma quiet_draw : quiet draw.
Proof. by intros w. Qed.
Lemma quiet_draw_rnd : quiet draw_rnd.
Proof. by intros w. Qed.
Lemma byes_emit o w : byes (emit o w).2 = byes w ++ option_list (bye_of o).
Proof. unfold byes. cbn [outs emit snd]. rewrite omap_app. cbn. by destruct (bye_of o). Qed.
Lemma quiet_emit o : bye_of o = None -> quiet (emit o).
Proof. intros Ho w. split; try done. by rewrite byes_emit, Ho, app_nil_r. Qed.
Lemma quiet_count f : (forall m, f m call_active = m call_active) -> quiet (count f).
Proof. intros Hf w. split; try done. apply Hf. Qed.
Lemma quiet_set_limiter f : quiet (modify (set_limiter f)).
Proof. by intros w. Qed.
Lemma quiet_set_call_log f : quiet (modify (set_call_log f)).
Proof. by intros w. Qed.
Lemma quiet_set_manager m : quiet (modify (set_manager m)).
Proof. by intros w. Qed.
Lemma quiet_set_cancelled f : quiet (modify (set_cancelled f)).
Proof. by intros w. Qed.
Lemma quiet_set_cancels f g : quiet (modify (set_cancels f g)).
Proof. by intros w. Qed.
Lemma quiet_insert_pending p : quiet (modify (set_registry (fun r => insert_pending r p))).
Proof. by intros w. Qed.
Lemma quiet_take_pending id : quiet (modify (set_registry (fun r => take_pending r id))).
Proof. by intros w. Qed.
Lemma quiet_each {A} (f : A -> handling unit) l : (forall a, quiet (f a)) -> quiet (each f l).
Proof. intros Hf. induction l; cbn [each]; eauto with frame typeclass_instances. Qed.

#[export] Hint Resolve quiet_accepted quiet_awaited quiet_draw quiet_draw_rnd quiet_emit quiet_count quiet_set_limiter
  quiet_set_call_log quiet_set_manager quiet_set_cancelled quiet_set_cancels quiet_insert_pending quiet_take_pending quiet_each : frame.

Ltac quiets := follow_steps ltac:(eauto with frame typeclass_instances).

Lemma quiet_respond_ext request resp : quiet (respond_ext request resp).
Proof. unfold respond_ext. quiets. Qed.
#[export] Hint Resolve quiet_respond_ext : frame.
Lemma quiet_respond_ngn request resp : quiet (respond_ngn request resp).
Proof. unfold respond_ngn. quiets. Qed.
Lemma quiet_quick_ext request status reason : quiet (quick_ext request status reason).
Proof. unfold quick_ext. quiets. Qed.
Lemma quiet_log_end id o now : quiet (log_end id o now).
Proof. unfold log_end. quiets. Qed.
Lemma quiet_stop_bridge b : quiet (stop_bridge b).
Proof. unfold stop_bridge. quiets. Qed.
#[export] Hint Resolve quiet_respond_ngn quiet_quick_ext quiet_log_end quiet_stop_bridge : frame.

Lemma quiet_perform {A} (p : prog A) : no_bye p -> quiet (perform NgnSent p).
Proof.
  induction p as [r | req dest k IH | req dest k IH]; cbn [no_bye perform]; [by intros; quiets | |]; intros [Hb Hk].
  - quiets. apply quiet_emit. cbn. by rewrite decide_False.
  - quiets.
Qed.

Lemma cancel_pending_no_bye u plan watch : no_bye (cancel_pending u plan watch).
Proof.
  unfold cancel_pending, lift. apply no_bye_bind; [done|]. intros id. destruct (watch id) as [wt|]; [|done].
  apply no_bye_bind; [done|]. intros [[]|]; try done. apply no_bye_bind; [|done]. by cbn.
Qed.

Lemma bind_count {B} g (f : unit -> handling B) w : (count g ≫= f) w = f tt (modify (set_metrics g) w).2.
Proof. done. Qed.

(** ** The steps that end a leg *)

(** The BYEs [ids] were sent and as many calls taken off the gauge. *)
Record closes (ids : list string) (w w' : world) : Prop := {
  cl_legs : legs w' = legs w;
  cl_back : back w' = back w;
  cl_gauge : gauge w' = Nat.iter (length ids) dec (gauge w);
  cl_byes : byes w' = byes w ++ ids;
  cl_tasks : tasks (shared w') = tasks (shared w);
  cl_next : next_pending (shared w') = next_pending (shared w);
  cl_oks : oks w = [] -> oks w' = []
}.

Lemma frame_closes w w' : frame w w' <-> closes [] w w'.
Proof. split; intros []; split; try done; by rewrite ?app_nil_r in *. Qed.
Lemma closes_app a b w1 w2 w3 : closes a w1 w2 -> closes b w2 w3 -> closes (a ++ b) w1 w3.
Proof.
  intros [A1 A2 A3 A4 A5 A6 A7] [B1 B2 B3 B4 B5 B6 B7]. split; try congruence; [|rewrite B4, A4; by rewrite app_assoc|auto].
  rewrite B3, A3, length_app, (Nat.add_comm (length a)). by rewrite Nat.iter_add.
Qed.

(** A BYE to the NGN; it does not fail. *)
Lemma bye_ngn_run ud w : exists w', bye_ngn ud w = (Ok tt, w') /\ byes w' = byes w ++ [ngn_id ud] /\
  legs w' = legs w /\ back w' = back w /\ gauge w' = gauge w /\ tasks (shared w') = tasks (shared w) /\
  next_pending (shared w') = next_pending (shared w) /\ (oks w = [] -> oks w' = []).
Proof.
  unfold bye_ngn, send_bye, mbind, handler_bind, draw. cbv beta iota. set (r := default 0 (head (rnds w))). clearbody r.
  destruct (build_bye_request (inner ud) r) as [Hm Hc]. destruct (build_bye (inner ud) r) as [bye d]. cbn [fst] in *.
  cbn [perform]. unfold mbind, handler_bind, emit, awaited. cbn [shared oks answers rnds outs].
  destruct (default None (head (answers w))); (eexists; split; [reflexivity|]; split; [|done]);
    unfold byes; cbn [outs]; rewrite omap_app; cbn; by rewrite Hm, decide_True, Hc.
Qed.

(** What a handler does with an entry it took: the BYE, the gauge, and the rest. *)
Lemma close_ngn ud (rest : handling unit) w : quiet rest ->
  closes [ngn_id ud] w ((bye_ngn ud ;; count dec_call_active ;; rest) w).2.
Proof.
  intros Hq. destruct (bye_ngn_run ud w) as (w1 & H1 & Hb & Hl & Hbk & Hg & Ht & Hn & Ho).
  unfold mbind, handler_bind. rewrite H1. cbn [count modify].
  match goal with |- closes _ _ (rest ?x).2 => set (w2 := x) end.
  apply (closes_app [ngn_id ud] [] w w2); [|apply frame_closes, Hq].
  split; try done. cbn [length Nat.iter]. rewrite <- Hg. apply dec_gauge.
Qed.

Lemma emit_each_ok {A} (f : A -> Output) l (w : world) : (each (fun a => emit (f a)) l w).1 = Ok tt.
Proof. revert w. induction l as [|a l IH]; intros w; cbn [each]; [done|]. unfold mbind, handler_bind. apply IH. Qed.
Lemma stop_bridge_ok b w : (stop_bridge b w).1 = Ok tt.
Proof.
  unfold stop_bridge, mbind, handler_bind. cbn [Handler.get]. destruct b, (call_manager (shared w)); try done.
  destruct (Calls.terminate _ _) as [[? rs] m]. cbn [modify]. apply emit_each_ok.
Qed.

Lemma close_one e w : closes [ngn_id (oe_ngn_dialog e)] w (close_unregistered e w).2 /\ (close_unregistered e w).1 = Ok tt.
Proof.
  split; [apply close_ngn, quiet_stop_bridge|]. unfold close_unregistered, mbind, handler_bind.
  destruct (bye_ngn_run (oe_ngn_dialog e) w) as (w1 & -> & _). apply stop_bridge_ok.
Qed.

Lemma close_each es w :
  closes (map (fun e => ngn_id (oe_ngn_dialog e)) es) w (each close_unregistered es w).2.
Proof.
  revert w. induction es as [|e es IH]; intros w; cbn [each map]; [by apply frame_closes|].
  destruct (close_one e w) as [Hc Hok]. unfold mbind, handler_bind. destruct (close_unregistered e w) as [? w1].
  cbn [fst snd] in *. subst. by apply (closes_app [_] _ w w1).
Qed.

(** ** The registry and the list of its calls *)

Definition reg_stands (r : OutboundCallRegistry) (l : list (string * (string * string))) : Prop :=
  stands leg_ext leg_ngn (leg <$> by_ext r) (ngn_to_ext r) l.
Definition stand (w : world) (l : list (string * (string * string))) : Prop := reg_stands (registry (shared w)) l.

Lemma remove_ext_stands r id l : reg_stands r l ->
  exists l', reg_stands (remove_by_ext r id).2 l' /\ l ≡ₚ option_list (leg <$> (remove_by_ext r id).1) ++ l'.
Proof.
  intros Hs. pose proof (take_by_first leg_ext leg_ngn _ _ _ id Hs) as H. unfold remove_by_ext.
  rewrite lookup_fmap in H. destruct (by_ext r !! id) as [e|] eqn:He; cbn [fmap option_fmap option_map] in H.
  - destruct H as [Hw H]. exists (without_first leg_ext id l). split.
    + unfold reg_stands. cbn [snd by_ext ngn_to_ext]. by rewrite fmap_delete.
    + apply (with_first_split leg_ext leg_ngn _ _ _ _ _ Hs) in Hw as [_ Hp]. exact Hp.
  - exists l. by split.
Qed.

Lemma remove_ngn_stands r id l : reg_stands r l ->
  exists l', reg_stands (remove_by_ngn r id).2 l' /\
    l ≡ₚ option_list (leg <$> (remove_by_ngn r id).1) ++ l' /\
    match (remove_by_ngn r id).1 with Some e => oe_ngn_call_id e = id | None => ngn_to_ext r !! id = None end.
Proof.
  intros Hs. pose proof (take_by_second leg_ext leg_ngn _ _ _ id Hs) as H. unfold remove_by_ngn.
  destruct (ngn_to_ext r !! id) as [x|] eqn:Hx; [|by exists l].
  destruct H as (p & Hp & Hw & H). rewrite lookup_fmap in Hp. destruct (by_ext r !! x) as [e|] eqn:He; [|done].
  cbn in Hp. injection Hp as <-. apply (with_second_split leg_ext leg_ngn _ _ _ _ _ Hs) in Hw as [Hid Hperm].
  eexists. split; [|split; [exact Hperm | exact Hid]]. unfold reg_stands. cbn [snd by_ext ngn_to_ext]. by rewrite fmap_delete.
Qed.

Lemma drain_stands ids r l : reg_stands r l ->
  exists l', reg_stands (drain r ids).2 l' /\ l ≡ₚ map leg (drain r ids).1 ++ l'.
Proof.
  revert r l. induction ids as [|id ids IH]; intros r l Hs; [by exists l|]. cbn [drain].
  destruct (remove_ext_stands r id l Hs) as (l1 & Hs1 & Hp1). destruct (remove_by_ext r id) as [e r1].
  destruct (IH r1 l1 Hs1) as (l2 & Hs2 & Hp2). destruct (drain r1 ids) as [es r2]. cbn [fst snd] in *.
  exists l2. split; [done|]. rewrite Hp1, Hp2, map_app, app_assoc. by destruct e.
Qed.

(** The legs [gone] left the registry, with the BYEs [byed]. *)
Record moves (gone : list (string * (string * string))) (byed : list string) (l : list (string * (string * string))) (w w' : world) : Prop := {
  mv_stand : exists l', stand w' l' /\ l ≡ₚ gone ++ l';
  mv_byes : byes w' = byes w ++ byed;
  mv_gauge : gauge w' = Nat.iter (length gone) dec (gauge w);
  mv_tasks : tasks (shared w') = tasks (shared w);
  mv_next : next_pending (shared w') = next_pending (shared w);
  mv_oks : oks w = [] -> oks w' = []
}.

Lemma moves_frame l w w' : frame w w' -> stand w l -> moves [] [] l w w'.
Proof.
  intros [H1 H2 H3 H4 H5 H6 H7] Hs. split; rewrite ?app_nil_r; try done. exists l. split; [|done].
  unfold stand, reg_stands, legs, back in *. by rewrite H1, H2.
Qed.

Lemma moves_frame_r gone byed l w w1 w' : moves gone byed l w w1 -> frame w1 w' -> moves gone byed l w w'.
Proof.
  intros [(l' & Hs & Hp) B1 B2 B3 B4 B5] F. destruct (moves_frame l' w1 w' F Hs) as [(l'' & Hs' & Hp') C1 C2 C3 C4 C5].
  rewrite app_nil_r in C1. split; try congruence; [exists l''; split; [done | by rewrite Hp, Hp'] | by rewrite C2 | auto].
Qed.
Lemma moves_frame_l gone byed l w w1 w' : frame w w1 -> moves gone byed l w1 w' -> moves gone byed l w w'.
Proof. intros [F1 F2 F3 F4 F5 F6 F7] [M1 M2 M3 M4 M5 M6]. split; try congruence; auto. Qed.

(** Entries are taken out, and their legs closed. *)
Lemma take_and_close l w reg es ids w' :
  (exists l', reg_stands reg l' /\ l ≡ₚ map leg es ++ l') ->
  closes ids (modify (set_registry (fun _ => reg)) w).2 w' -> length ids = length es ->
  moves (map leg es) ids l w w'.
Proof.
  intros (l' & Hs & Hp) [C1 C2 C3 C4 C5 C6 C7] Hlen. split; try done.
  - exists l'. split; [|done]. unfold stand, reg_stands, legs, back in *. by rewrite C1, C2.
  - by rewrite C3, length_map, Hlen.
Qed.

(** ** A change of an entry that is in the registry *)

(** What leaves everything as it was as long as the entry is there. *)
Definition kept (e : OutboundCallEntry) (w w' : world) : Prop := legs w !! oe_ext_call_id e = Some (leg e) -> frame w w'.
#[export] Instance kept_preorder e : PreOrder (kept e).
Proof.
  split; [intros w _; reflexivity|]. intros a b c Hab Hbc H. specialize (Hab H). etransitivity; [exact Hab|].
  apply Hbc. by rewrite (fr_legs _ _ Hab).
Qed.
Lemma quiet_kept {A} e (m : handling A) : quiet m -> follows (kept e) m.
Proof. intros Hm w _. apply Hm. Qed.
Lemma kept_update e e' : leg e' = leg e -> follows (kept e) (modify (set_registry (fun r => update_entry r e'))).
Proof.
  intros Hl w Hk. assert (oe_ext_call_id e' = oe_ext_call_id e) as Hid by (by injection Hl).
  unfold legs in Hk. rewrite lookup_fmap in Hk. unfold update_entry. split; try done; unfold legs, back; cbn [modify snd shared set_registry registry].
  - rewrite Hid. destruct (by_ext (registry (shared w)) !! oe_ext_call_id e) eqn:Ho; [|done]. cbn [by_ext].
    rewrite fmap_insert. apply insert_id. by rewrite lookup_fmap, Ho, Hl.
  - by case_match.
Qed.
#[export] Hint Resolve quiet_kept kept_update : frame.

Section handlers.
Context (cfg : OutConfig).

Lemma ext_bye_moves request now l w : stand w l ->
  exists es, moves (map leg es) (map (fun e => ngn_id (oe_ngn_dialog e)) es) l w (handle_ext_bye request now w).2.
Proof.
  intros Hs. unfold handle_ext_bye.
  pose proof (follows_attempt frame _ (quiet_quick_ext request 200 "OK") w) as Hq.
  destruct (attempt (quick_ext request 200 "OK") w) as [o w1] eqn:Ha; cbn [snd] in *.
  destruct o as [a | [] |]; [rewrite (bind_ok _ _ _ _ _ Ha) | by (unfold mbind, handler_bind; rewrite Ha; exists []; apply moves_frame)..].
  destruct (hdr_get (req_headers request) "call-id") as [call_id|]; [|by exists []; apply moves_frame].
  destruct (moves_frame l w w1 Hq Hs) as [(l1 & Hs1 & Hp1) _ _ _ _ _].
  destruct (remove_ext_stands (registry (shared w1)) call_id l1 Hs1) as (l2 & Hs2 & Hp2).
  rewrite bind_get. destruct (remove_by_ext (registry (shared w1)) call_id) as [[e|] reg];
    cbn [fst snd option_list fmap option_fmap option_map] in *; rewrite bind_modify.
  - exists [e]. apply (moves_frame_l _ _ l w w1 _ Hq).
    eapply (take_and_close l w1 reg [e] [ngn_id (oe_ngn_dialog e)]); [|apply (close_ngn (oe_ngn_dialog e) (log_end call_id CallLog.Answered now ;; stop_bridge (oe_bridge e))); quiets | done].
    exists l2. split; [done|]. by rewrite Hp1.
  - exists []. apply (moves_frame_l _ _ l w w1 _ Hq).
    apply (take_and_close l w1 reg [] []); [|by apply frame_closes | done]. exists l2. split; [done|]. by rewrite Hp1.
Qed.

Lemma unregister_moves aor l w : stand w l ->
  exists es, moves (map leg es) (map (fun e => ngn_id (oe_ngn_dialog e)) es) l w (handle_ext_unregister aor w).2.
Proof.
  intros Hs. unfold handle_ext_unregister. rewrite bind_get. unfold drain_by_aor.
  match goal with |- context [drain _ ?ids] => destruct (drain_stands ids (registry (shared w)) l Hs) as (l' & Hs' & Hp); destruct (drain _ ids) as [es reg] end.
  rewrite bind_modify. cbn [fst snd] in *. exists es. eapply (take_and_close l w reg es); [by exists l' | apply close_each | by rewrite length_map].
Qed.

Lemma ngn_bye_moves id l w : stand w l ->
  exists es, moves (map leg es) [] l w (handle_ngn_bye id w).2 /\
    map leg_ngn (map leg es) = if bool_decide (is_Some (back w !! id)) then [id] else [].
Proof.
  intros Hs. unfold handle_ngn_bye. rewrite bind_get.
  destruct (remove_ngn_stands (registry (shared w)) id l Hs) as (l' & Hs' & Hp & Hid). unfold back.
  assert (match (remove_by_ngn (registry (shared w)) id).1 with
          | Some _ => is_Some (ngn_to_ext (registry (shared w)) !! id) | None => True end) as Hk.
  { clear. unfold remove_by_ngn. destruct (ngn_to_ext _ !! id) as [x|]; cbn [fst]; [by destruct (by_ext _ !! x) | done]. }
  destruct (remove_by_ngn (registry (shared w)) id) as [[e|] reg]; cbn [fst snd option_list fmap option_fmap option_map] in *; rewrite bind_modify.
  - exists [e]. split; [|rewrite bool_decide_true by done; cbn; by rewrite Hid].
    rewrite (bind_ok draw _ _ _ _ eq_refl), bind_emit, (bind_ok awaited _ _ _ _ eq_refl), bind_count.
    match goal with |- moves _ _ _ _ (stop_bridge _ ?w2).2 => apply (moves_frame_r _ _ _ _ w2); [|apply quiet_stop_bridge] end.
    split; cbn; try done; [by exists l' | by rewrite omap_app | apply dec_gauge].
  - exists []. split; [|rewrite bool_decide_false; [done|]; rewrite Hid; by intros []].
    split; cbn; rewrite ?app_nil_r; try done. by exists l'.
Qed.

Lemma lookup_leg w l id e : stand w l -> by_ext (registry (shared w)) !! id = Some e -> legs w !! oe_ext_call_id e = Some (leg e).
Proof.
  intros Hs He. unfold legs. assert ((leg <$> by_ext (registry (shared w))) !! id = Some (leg e)) as H.
  { by rewrite lookup_fmap, He. }
  pose proof H as Hid. apply (st_first _ _ _ _ _ Hs) in Hid as [_ Hid]. cbn in Hid. by rewrite Hid.
Qed.

Lemma quiet_cancel request : quiet (handle_ext_cancel request).
Proof. unfold handle_ext_cancel. quiets. Qed.
Lemma quiet_cancel_go i watch : quiet (cancel_go cfg i watch).
Proof. unfold cancel_go. quiets. apply quiet_perform, cancel_pending_no_bye. Qed.
Lemma quiet_cancel_end i : quiet (cancel_end i).
Proof. unfold cancel_end. quiets. Qed.

Lemma quiet_inject bridge packets : quiet (inject_packets bridge packets).
Proof. induction packets; cbn [inject_packets]; quiets. Qed.
Lemma quiet_info request now : quiet (handle_ext_info request now).
Proof. unfold handle_ext_info, inject_dtmf_event_to_ngn. pose proof quiet_inject. quiets. Qed.

Lemma reinvite_frame request now l w : stand w l -> frame w (handle_ext_reinvite cfg request now w).2.
Proof.
  intros Hs. unfold handle_ext_reinvite. rewrite bind_get.
  destruct (lookup_by_ext _ _) as [e|] eqn:He; [|case_match; apply quiet_quick_ext].
  match goal with |- frame w (?m w).2 => assert (follows (kept e) m) as H end; [|by apply H, (lookup_leg w l _ e Hs He)].
  do 4 (apply follows_bind; [typeclasses eauto | solve [quiets] | intros ?]).
  apply (follows_bind_post _ (fun r => forall x, r = Ok x -> ngn_id x.2 = ngn_id (oe_ngn_dialog e))).
  - by apply quiet_kept, quiet_perform, send_reinvite_no_bye.
  - intros w' r H. apply (perform_returns _ _ _ _ _ (send_reinvite_id _ _ _ _) H).
  - intros r Hr. apply (follows_bind_post _ (fun x => ngn_id x.2 = ngn_id (oe_ngn_dialog e))); [quiets | |].
    + intros ? ? H. destruct r as [x | |]; [|done..]. cbn in H. injection H as <-. by apply Hr.
    + intros [res ud] Hud. assert (leg (with_ngn_dialog e ud) = leg e) by (unfold leg; cbn in *; by rewrite Hud). quiets.
Qed.

Lemma ngn_reinvite_frame request chain l w : stand w l -> frame w (handle_ngn_reinvite request chain w).2.
Proof.
  intros Hs. unfold handle_ngn_reinvite. rewrite bind_get.
  destruct (lookup_by_ngn _ _) as [e|] eqn:He.
  2:{ match goal with |- frame w (?m w).2 => assert (quiet m) as H by quiets; exact (H w) end. }
  apply bind_Some in He as (x & _ & He).
  match goal with |- frame w (?m w).2 => assert (follows (kept e) m) as H; [|by apply H, (lookup_leg w l _ e Hs He)] end.
  assert (forall d, leg (with_ext_dialog e d) = leg e) by done. quiets.
Qed.

(** *** The INVITEs *)

Lemma quiet_still {A} (m : handling A) : quiet m -> follows still m.
Proof. intros Hm w. apply frame_still, Hm. Qed.

Lemma quiet_offer_for_ngn env m offer now : quiet (offer_for_ngn cfg env m offer now).
Proof. unfold offer_for_ngn. quiets. Qed.

(** A task that is new, or none. *)
Record invited (request : SipRequest) (w w' : world) : Prop := {
  iv_still : still w w';
  iv_tasks : (tasks (shared w') = tasks (shared w) /\ next_pending (shared w') = next_pending (shared w)) \/
    exists t, t_invite t = request /\ t_call_id t = invite_call_id request /\
      tasks (shared w') = <[next_pending (shared w) := t]> (tasks (shared w)) /\ next_pending (shared w') = S (next_pending (shared w))
}.
Lemma invited_frame request w w' : frame w w' -> invited request w w'.
Proof. intros F. split; [by apply frame_still | left; by destruct F]. Qed.
Lemma invited_frame_l request w w1 w' : frame w w1 -> invited request w1 w' -> invited request w w'.
Proof.
  intros F [Hs Ht]. split; [etransitivity; [by apply frame_still | done]|].
  by rewrite (fr_tasks _ _ F), (fr_next _ _ F) in Ht.
Qed.
(** After steps that change nothing. *)
Lemma invited_bind {A B} request (m : handling A) (f : A -> handling B) w : quiet m ->
  (forall a w1, frame w w1 -> invited request w (f a w1).2) -> invited request w ((m ≫= f) w).2.
Proof.
  intros Hm Hf. specialize (Hm w). unfold mbind, handler_bind. destruct (m w) as [[a | e |] w1]; [by apply Hf | by apply invited_frame..].
Qed.

Lemma start_invited env from_aor request remote now w : invited request w (start_invite cfg env from_aor request remote now w).2.
Proof.
  unfold start_invite. cbv zeta. rewrite bind_get. apply invited_bind; [apply quiet_offer_for_ngn|]. intros [ctx sdp] w1 F.
  apply invited_frame_l with w1; [done|]. rewrite bind_modify, bind_modify.
  destruct (known_call_id (invite_call_id request)); rewrite ?bind_modify, ?(bind_ok (mret tt) _ _ _ _ eq_refl), bind_emit;
    (split; [split; try done; cbn [snd modify]; unfold byes; cbn; rewrite omap_app; apply app_nil_r|]; right; rewrite <- (fr_next _ _ F); eexists; split_and!; [| | reflexivity..]; reflexivity).
Qed.

Lemma invite_invited env from_aor request remote now w : invited request w (handle_invite cfg env from_aor request remote now w).2.
Proof.
  unfold handle_invite. destruct (dial_verdict _ _ _ _ _) as [| |binding callee].
  - rewrite bind_get. destruct (check_and_record_at _ _ _ _) as [d lim]. rewrite bind_modify.
    apply invited_frame_l with (modify (set_limiter (fun _ => lim)) w).2; [apply quiet_set_limiter|]. destruct d as [prev | retry_after].
    + apply invited_bind; [quiets|]. intros _ w1 F. apply invited_frame_l with w1; [done|]. apply start_invited.
    + apply invited_frame. match goal with |- frame ?w (?m ?w).2 => assert (quiet m) as H by quiets; exact (H w) end.
  - apply invited_frame. match goal with |- frame ?w (?m ?w).2 => assert (quiet m) as H by quiets; exact (H w) end.
  - apply invited_frame. by apply quiet_emit.
Qed.

(** *** The answer that is sent to the extension *)

(** An initial INVITE as the extensions send it. *)
Record invite_ok (request : SipRequest) : Prop := {
  io_call_id : is_Some (hdr_get (req_headers request) "call-id");
  io_from : is_Some (hdr_get (req_headers request) "from" ≫= parse_tag);
  io_to : exists to, hdr_get (req_headers request) "to" = Some to /\ has_to_tag to = false;
  io_contact : is_Some (hdr_get (req_headers request) "contact");
  io_sdp : no_panic (parse_body (req_body request))
}.

Lemma appended_tag a t : trimmed t -> t <> "" -> no_char ";" t = true -> is_Some (parse_tag (a +:+ ";tag=" +:+ t)).
Proof.
  intros Ht Hne Hc. unfold parse_tag. change (";tag=" +:+ t) with (String ";" ("tag=" +:+ t)).
  rewrite split_on_append, (split_on_no_char _ ("tag=" +:+ t)) by (by rewrite no_char_app).
  destruct (split_on ";" a) as [|x l] eqn:He; [by apply split_on_nonempty in He|]. cbn [app tail]. clear He.
  induction l as [|y l IH]; cbn [app first_tag].
  - rewrite trim_id by (apply (trimmed_tag "tag"); [by left | done | done]). by rewrite strip_prefix_app.
  - by destruct (strip_prefix "tag=" (trim y)).
Qed.
Lemma appended_uas_tag a r : is_Some (parse_tag (a +:+ ";tag=" +:+ new_uas_to_tag r)).
Proof.
  pose proof (hex_padded_addr 8 r) as Hx. unfold new_uas_to_tag. apply appended_tag; [by apply (hex_suffix_trimmed "s" "abiden-") | done |].
  by rewrite no_char_app, (addr_no_char ";" _ eq_refl Hx).
Qed.
Lemma appended_new_tag a r : is_Some (parse_tag (a +:+ ";tag=" +:+ new_tag r)).
Proof.
  apply appended_tag; [| by apply hex_nonempty | by apply hex_no_char].
  by apply graph_trimmed, hex_graph.
Qed.

Lemma answer_to request body contact r : invite_ok request ->
  is_Some (hdr_get (resp_headers (build_2xx_to_ext request body contact r)) "to" ≫= parse_tag).
Proof.
  intros [_ _ (to & Hto & Hn) _ _]. destruct (skeleton_headers request 200 "OK" (r_skeleton r)) as (_ & _ & Ht & _).
  rewrite Hto in Ht. unfold build_2xx_to_ext. cbv zeta.
  set (resp := build_response_skeleton request 200 "OK" (r_skeleton r)) in *.
  set (resp' := if negb (String.eqb body "") then _ else resp).
  assert (hdr_get (resp_headers (set_header resp' "Contact" ("<" +:+ contact +:+ ">"))) "to" = Some (with_to_tag 200 (r_skeleton r) to)) as Hc.
  { unfold set_header. cbn [resp_headers]. rewrite hdr_get_set. eval_headers. subst resp'. case_match; cbn [resp_headers]; [rewrite hdr_get_set; eval_headers|]; exact Ht. }
  unfold ensure_to_tag. rewrite Hc. destruct (has_to_tag (with_to_tag _ _ _)); cbn [negb].
  - rewrite Hc. unfold with_to_tag. rewrite Hn. apply appended_uas_tag.
  - cbn [resp_headers]. rewrite hdr_get_set. eval_headers. apply appended_new_tag.
Qed.

Lemma answer_dialog request body contact r dcfg : invite_ok request ->
  exists d, from_uas_invite request (build_2xx_to_ext request body contact r) dcfg = Ok d.
Proof.
  intros Hok. destruct (answer_to request body contact r Hok) as [lt (to & Hto & Hlt)%bind_Some].
  destruct Hok as [[ci Hci] [rt (from & Hf & Hrt)%bind_Some] _ [ct Hct] _].
  unfold from_uas_invite. rewrite Hci, Hf, Hto, Hct. cbn [ok_or mbind outcome_bind]. rewrite Hrt, Hlt. cbn [ok_or fmap option_fmap option_map].
  assert (status_code (build_2xx_to_ext request body contact r) = 200) as ->; [|by eexists].
  unfold build_2xx_to_ext, ensure_to_tag. by repeat case_match.
Qed.

(** *** The call that the NGN took *)

Lemma rewrite_endpoint_safe body addr port now : no_panic (parse_body body) -> no_panic (rewrite_rtp_endpoint body addr port now).
Proof. unfold rewrite_rtp_endpoint, no_panic. by destruct (parse_body body). Qed.

(** The bridge fails at most with an error, which is passed over. *)
Lemma finalize_runs ctx offer answer now w : no_panic (parse_body offer) ->
  exists b w1, attempt (finalize_outbound_bridge ctx offer answer now) w = (Ok b, w1) /\ frame w w1.
Proof.
  intros Hp. assert (frame w (attempt (finalize_outbound_bridge ctx offer answer now) w).2) as F.
  { apply follows_attempt; [typeclasses eauto|]. unfold finalize_outbound_bridge. quiets. }
  assert (exists o, (attempt (finalize_outbound_bridge ctx offer answer now) w).1 = Ok o) as [o Ho].
  { unfold attempt, finalize_outbound_bridge. rewrite bind_get.
    destruct ctx as [ctx|]; [|by eexists]. destruct (call_manager (shared w)) as [m|]; [|by eexists].
    destruct (String.eqb answer ""); [by eexists|]. destruct (extract_rtp_endpoint answer) as [peer|]; [|by eexists].
    rewrite (bind_ok (from_outcome (ok_or (Some peer) tt)) _ _ peer _ eq_refl).
    pose proof (rewrite_endpoint_safe offer (ip (ext_sock ctx)) (sport (ext_sock ctx)) now Hp) as Hs.
    destruct (rewrite_rtp_endpoint _ _ _ _) as [body | e |]; [|by eexists | done].
    rewrite (bind_ok (from_outcome (E := _) (Ok body)) _ _ body _ eq_refl). cbv zeta.
    rewrite (bind_ok accepted _ _ _ _ eq_refl). destruct (default true (head (oks w))); [|by eexists].
    destruct (create_call m) as [cid m1]. rewrite bind_modify. destruct (attach_media_bridge m1 cid _) as [[res rs] m2] eqn:Ha.
    rewrite bind_modify. unfold mbind, handler_bind.
    match goal with |- context [each ?f rs ?x] => pose proof (emit_each_ok LetGo rs x) as He; destruct (each f rs x) as [o w2] end.
    cbn [fst] in He. subst o. assert (res <> Panic) as Hr.
    { unfold attach_media_bridge in Ha. destruct (calls m1 !! cid); by injection Ha as <- _ _. }
    destruct res; cbn; [by eexists..|done]. }
  destruct (attempt _ w) as [r w1]. cbn [fst snd] in *. subst r. by exists o, w1.
Qed.

Lemma draw_rnd_runs w : exists r w1, draw_rnd w = (Ok r, w1) /\ frame w w1.
Proof. unfold draw_rnd. do 2 eexists. split; [reflexivity | done]. Qed.
Lemma respond_runs request resp w : oks w = [] -> exists w1, respond_ext request resp w = (Ok tt, w1) /\ frame w w1 /\ oks w1 = [].
Proof.
  intros Ho. unfold respond_ext. eexists. split; [unfold mbind, handler_bind; cbn [accepted]; by rewrite Ho|].
  split; [|done]. split; try done. unfold byes. cbn. rewrite omap_app. apply app_nil_r.
Qed.

(** A call that is taken is in the registry, under both its Call-IDs. *)
Record takes (c n : string) (w w' : world) : Prop := {
  tk_legs : legs w' = <[c := (c, (n, n))]> (legs w);
  tk_back : back w' = <[n := c]> (back w);
  tk_gauge : gauge w' = inc (gauge w);
  tk_byes : byes w' = byes w;
  tk_tasks : tasks (shared w') = tasks (shared w);
  tk_next : next_pending (shared w') = next_pending (shared w);
  tk_oks : oks w' = []
}.
Lemma takes_frame_l c n w w1 w' : frame w w1 -> takes c n w1 w' -> takes c n w w'.
Proof. intros [F1 F2 F3 F4 F5 F6 F7] [T1 T2 T3 T4 T5 T6 T7]. split; congruence. Qed.

Lemma established_takes t call now w : invite_ok (t_invite t) -> is_Some (oc_ext_layer cfg) -> oks w = [] ->
  takes (t_call_id t) (ngn_id (ec_dialog call)) w (invite_established cfg t false call now w).2.
Proof.
  intros Hi [local Hl] Ho. unfold invite_established. rewrite bind_modify.
  set (w1 := (modify _ w).2). assert (frame w w1) as F1 by apply quiet_set_limiter. cbv zeta.
  destruct (finalize_runs (t_ctx t) (req_body (t_invite t)) (resp_body (ec_response call)) (as_secs now) w1 (io_sdp _ Hi)) as (b & w2 & H2 & F2).
  rewrite (bind_ok _ _ _ _ _ H2). destruct (default (resp_body (ec_response call), None) b) as [body bridge].
  destruct (draw_rnd_runs w2) as (r & w3 & H3 & F3). rewrite (bind_ok _ _ _ _ _ H3).
  destruct (respond_runs (t_invite t) (build_2xx_to_ext (t_invite t) body (ext_contact_uri cfg) r) w3) as (w4 & H4 & F4 & Ho4).
  { apply (fr_oks _ _ F3), (fr_oks _ _ F2), (fr_oks _ _ F1), Ho. }
  rewrite (bind_ok _ _ _ _ _ H4), !bind_count.
  destruct (answer_dialog (t_invite t) body (ext_contact_uri cfg) r (build_ext_dialog_cfg cfg (t_invite t)) Hi) as [d Hd]. rewrite Hd, Hl.
  apply (takes_frame_l _ _ _ w4); [by rewrite F1, F2, F3, F4|].
  split; try done. unfold legs. cbn. by rewrite fmap_insert.
Qed.

(** A call that was cancelled in time gets a BYE at once. *)
Record refuses (n : string) (w w' : world) : Prop := {
  rf_legs : legs w' = legs w;
  rf_back : back w' = back w;
  rf_gauge : gauge w' = gauge w;
  rf_byes : byes w' = byes w ++ [n];
  rf_tasks : tasks (shared w') = tasks (shared w);
  rf_next : next_pending (shared w') = next_pending (shared w);
  rf_oks : oks w = [] -> oks w' = []
}.
Lemma cancelled_refuses t call now w : refuses (ngn_id (ec_dialog call)) w (invite_established cfg t true call now w).2.
Proof.
  unfold invite_established. rewrite bind_modify. set (w1 := (modify _ w).2).
  assert (frame w w1) as [F1 F2 F3 F4 F5 F6 F7] by apply quiet_set_limiter.
  destruct (bye_ngn_run (ec_dialog call) w1) as (w2 & H2 & B1 & B2 & B3 & B4 & B5 & B6 & B7). rewrite (bind_ok _ _ _ _ _ H2).
  match goal with |- refuses _ _ (?m w2).2 => assert (quiet m) as Hq by quiets; destruct (Hq w2) as [Q1 Q2 Q3 Q4 Q5 Q6 Q7] end.
  split; try congruence; auto.
Qed.

Lemma quiet_failed t response now : quiet (invite_failed t response now).
Proof. unfold invite_failed. quiets. Qed.
Lemma quiet_lost t c now : quiet (invite_lost t c now).
Proof. unfold invite_lost. quiets. Qed.

Lemma finish_cases id t result now w : invite_ok (t_invite t) -> is_Some (oc_ext_layer cfg) -> oks w = [] ->
  let w0 := (modify (set_tasks (delete id)) w).2 in
  let w' := (finish_invite cfg id t result now w).2 in
  match result with
  | Some (Uac.Established call) => takes (t_call_id t) (ngn_id (ec_dialog call)) w0 w' \/ refuses (ngn_id (ec_dialog call)) w0 w'
  | _ => frame w0 w'
  end.
Proof.
  intros Hi Hl Ho w0 w'. subst w'. unfold finish_invite. rewrite bind_modify. fold w0. rewrite bind_get. cbv zeta.
  assert (exists w1, frame w0 w1 /\ oks w1 = [] /\ forall (f : unit -> handling unit),
    ((if known_call_id (t_call_id t) then modify (set_registry (fun r => take_pending r (t_call_id t))) else mret tt) ≫= f) w0 = f tt w1) as (w1 & F & Ho1 & H1).
  { destruct (known_call_id (t_call_id t)).
    - exists (modify (set_registry (fun r => take_pending r (t_call_id t))) w0).2. split_and!; [apply quiet_take_pending | done | done].
    - exists w0. by split_and!. }
  rewrite H1. destruct result as [[call | response]|].
  - destruct (bool_decide _).
    + right. destruct (cancelled_refuses t call now w1) as [R1 R2 R3 R4 R5 R6 R7], F as [F1 F2 F3 F4 F5 F6 F7]. split; try congruence; auto.
    + left. apply (takes_frame_l _ _ _ w1); [done|]. by apply established_takes.
  - etransitivity; [exact F | apply quiet_failed].
  - etransitivity; [exact F | apply quiet_lost].
Qed.

(** A task ends with [result], or waits for something else. *)
Definition settles (id : nat) (t : Task) (result : option InviteOutcome) (w w' : world) : Prop :=
  let w0 := (modify (set_tasks (delete id)) w).2 in
  match result with
  | Some (Uac.Established call) => takes (t_call_id t) (ngn_id (ec_dialog call)) w0 w' \/ refuses (ngn_id (ec_dialog call)) w0 w'
  | _ => frame w0 w'
  end.
Definition rephases (id : nat) (t : Task) (w w' : world) : Prop :=
  still w w' /\ next_pending (shared w') = next_pending (shared w) /\
  exists t', t_invite t' = t_invite t /\ t_call_id t' = t_call_id t /\ tasks (shared w') = <[id := t']> (tasks (shared w)).

Lemma settles_frame_l id t result w w1 w' : frame w w1 -> settles id t result w1 w' -> settles id t result w w'.
Proof.
  intros F. assert (frame (modify (set_tasks (delete id)) w).2 (modify (set_tasks (delete id)) w1).2) as F0.
  { destruct F as [F1 F2 F3 F4 F5 F6 F7]. split; try done. cbn. by rewrite F5. }
  unfold settles. destruct result as [[call | response]|]; [|intros H; by etransitivity..].
  intros [H | [R1 R2 R3 R4 R5 R6 R7]]; [left; by apply (takes_frame_l _ _ _ _ _ F0) | right].
  destruct F0 as [F1 F2 F3 F4 F5 F6 F7]. split; try congruence; auto.
Qed.

Lemma second_settles id t result now w : invite_ok (t_invite t) -> is_Some (oc_ext_layer cfg) -> oks w = [] ->
  settles id t result w (second_answer cfg id t result now w).2.
Proof.
  intros Hi Hl Ho. unfold second_answer. cbv zeta. rewrite bind_count. eapply settles_frame_l; [|by apply finish_cases].
  by apply quiet_count.
Qed.

Lemma first_settles id t result nanos now w : invite_ok (t_invite t) -> is_Some (oc_ext_layer cfg) -> oks w = [] ->
  settles id t result w (first_answer cfg id t result nanos now w).2 \/
  ((forall call, result <> Some (Uac.Established call)) /\ rephases id t w (first_answer cfg id t result nanos now w).2).
Proof.
  intros Hi Hl Ho. unfold first_answer. cbv zeta.
  match goal with |- context [match ?r with Some _ => _ | None => _ end] => destruct r eqn:Hr end.
  - right. split; [intros call ->; discriminate|]. split; [by split|]. split; [done|]. eexists. split_and!; [| | reflexivity]; reflexivity.
  - left. rewrite bind_count. eapply settles_frame_l; [|by apply finish_cases]. by apply quiet_count.
Qed.

Lemma wake_settles id t response routes ids now w : invite_ok (t_invite t) -> is_Some (oc_ext_layer cfg) -> oks w = [] ->
  settles id t None w (retry_wake cfg id t response routes ids now w).2 \/ rephases id t w (retry_wake cfg id t response routes ids now w).2.
Proof.
  intros Hi Hl Ho. unfold retry_wake. rewrite bind_get. case_match.
  - left. rewrite bind_count. eapply (settles_frame_l id t None); [|by apply (finish_cases id t (Some (Uac.Failed response)))].
    by apply quiet_count.
  - right. rewrite bind_emit. split.
    + split; try done. unfold byes. cbn. rewrite omap_app. apply app_nil_r.
    + split; [done|]. eexists. split_and!; [| | reflexivity]; reflexivity.
Qed.

(** ** The accounts *)

(** [seen] are the Call-IDs of the INVITEs so far, [tk] the Call-IDs of the calls
    the NGN took, and [en] those it ended. *)
Record accounts (seen tk en : list string) (w : world) : Prop := {
  ac_oks : oks w = [];
  ac_calls : exists l, stand w l /\ Forall (fun p => p.2.1 = p.2.2 /\ leg_ext p ∈ seen) l /\
    tk ≡ₚ map leg_ngn l ++ byes w ++ en /\ gauge w = Z.of_nat (length l);
  ac_tasks : forall id t, tasks (shared w) !! id = Some t ->
    invite_ok (t_invite t) /\ t_call_id t ∈ seen /\ legs w !! t_call_id t = None /\ (id < next_pending (shared w))%nat;
  ac_distinct : forall i j t u, tasks (shared w) !! i = Some t -> tasks (shared w) !! j = Some u ->
    t_call_id t = t_call_id u -> i = j
}.

Lemma accounts_still seen tk en w w' : still w w' ->
  tasks (shared w') = tasks (shared w) -> next_pending (shared w') = next_pending (shared w) ->
  accounts seen tk en w -> accounts seen tk en w'.
Proof.
  intros [S1 S2 S3 S4 S5] Ht Hn [A1 (l & A2 & A3 & A4 & A5) A6 A7]. split; [auto | | by rewrite Ht, Hn, S1 | by rewrite Ht].
  exists l. rewrite S4, S3. split_and!; try done. unfold stand, reg_stands, legs, back in *. by rewrite S1, S2.
Qed.
Lemma accounts_frame seen tk en w w' : frame w w' -> accounts seen tk en w -> accounts seen tk en w'.
Proof. intros F. apply accounts_still; [by apply frame_still | by destruct F..]. Qed.

Lemma accounts_invited seen tk en request w w' : invite_ok request -> invite_call_id request ∉ seen ->
  invited request w w' -> accounts seen tk en w -> accounts (invite_call_id request :: seen) tk en w'.
Proof.
  intros Hi Hnew [S [[Ht Hn] | (t & T1 & T2 & T3 & T4)]] [A1 (l & A2 & A3 & A4 & A5) A6 A7];
    (split; [by apply (sl_oks _ _ S) | exists l; rewrite (sl_byes _ _ S), (sl_gauge _ _ S); split_and!; try done | |]).
  1, 5: destruct S as [S1 S2 S3 S4 S5]; unfold stand, reg_stands, legs, back in *; by rewrite S1, S2.
  1, 4: eapply Forall_impl; [exact A3|]; intros p [? ?]; split; [done | by right].
  - intros id t H. rewrite Ht in H. rewrite Hn, (sl_legs _ _ S). destruct (A6 id t H) as (? & ? & ? & ?). split_and!; try done. by right.
  - intros i j t u. rewrite Ht. apply A7.
  - assert (legs w !! t_call_id t = None) as Hnone.
    { rewrite T2. destruct (legs w !! invite_call_id request) as [p|] eqn:Hp; [|done]. exfalso. apply Hnew.
      apply (st_first _ _ _ _ _ A2) in Hp as [Hp <-]. rewrite Forall_forall in A3. by apply A3. }
    intros id u. rewrite T3, T4, (sl_legs _ _ S). intros [[<- <-] | [Hne H]]%lookup_insert_Some.
    + rewrite T1. split_and!; [done | rewrite T2; by left | done | lia].
    + destruct (A6 id u H) as (? & ? & ? & ?). split_and!; try done; [by right | lia].
  - intros i j a b. rewrite T3. intros [[<- <-] | [Hi' Ha]]%lookup_insert_Some [[<- <-] | [Hj Hb]]%lookup_insert_Some Heq; [done | | |by apply (A7 i j a b)].
    + exfalso. apply Hnew. rewrite <- T2, Heq. by apply (A6 j b).
    + exfalso. apply Hnew. rewrite <- T2, <- Heq. by apply (A6 i a).
Qed.

Lemma accounts_rephases seen tk en id t w w' : tasks (shared w) !! id = Some t -> rephases id t w w' ->
  accounts seen tk en w -> accounts seen tk en w'.
Proof.
  intros Ht (S & Hn & t' & T1 & T2 & T3) [A1 (l & A2 & A3 & A4 & A5) A6 A7]. split; [by apply (sl_oks _ _ S) | | |].
  - exists l. rewrite (sl_byes _ _ S), (sl_gauge _ _ S). split_and!; try done.
    destruct S as [S1 S2 S3 S4 S5]. unfold stand, reg_stands, legs, back in *. by rewrite S1, S2.
  - intros i u. rewrite T3, Hn, (sl_legs _ _ S). intros [[<- <-] | [Hne H]]%lookup_insert_Some; [|by apply A6].
    rewrite T1, T2. by apply A6.
  - intros i j a b. rewrite T3. intros [[<- <-] | [Hi Ha]]%lookup_insert_Some [[<- <-] | [Hj Hb]]%lookup_insert_Some; [done | | |by apply A7].
    + rewrite T2. by apply A7.
    + rewrite T2. by apply A7.
Qed.

(** The task is gone from the table. *)
Lemma accounts_untasked seen tk en id w : accounts seen tk en w -> accounts seen tk en (modify (set_tasks (delete id)) w).2.
Proof.
  intros [A1 A2 A6 A7]. split; try done.
  - intros i t. cbn. intros [_ H]%lookup_delete_Some. by apply A6.
  - intros i j a b. cbn. intros [_ Ha]%lookup_delete_Some [_ Hb]%lookup_delete_Some. by apply A7.
Qed.

Lemma accounts_takes seen tk en id t c n w w' : tasks (shared w) !! id = Some t -> c = t_call_id t ->
  n ∉ tk -> Z.of_nat (S (length tk)) < 2 ^ 64 ->
  takes c n (modify (set_tasks (delete id)) w).2 w' -> accounts seen tk en w -> accounts seen (tk ++ [n]) en w'.
Proof.
  intros Ht -> Hfresh Hbound [T1 T2 T3 T4 T5 T6 T7] HA. pose proof HA as [A1 (l & A2 & A3 & A4 & A5) A6 A7].
  destruct (A6 id t Ht) as (B1 & B2 & B3 & B4).
  assert (length l <= length tk)%nat as Hlen by (rewrite A4, length_app, length_map; lia).
  destruct (accounts_untasked seen tk en id w HA) as [_ _ C6 C7]. split; [done | | |].
  - exists ((t_call_id t, (n, n)) :: l). split_and!.
    + unfold stand, reg_stands, legs, back in *. rewrite T1, T2. apply (stands_insert leg_ext leg_ngn _ _ l (t_call_id t, (n, n)) A2). split.
      * intros (p & Hp & Hin)%list_elem_of_fmap. pose proof (proj2 (st_first _ _ _ _ _ A2 (t_call_id t) p) (conj Hin (eq_sym Hp))). congruence.
      * cbn. intros Hin. apply Hfresh. rewrite A4. by apply elem_of_app; left.
    + by constructor.
    + cbn [map]. rewrite T4, A4. cbn [leg_ngn fst snd]. by rewrite Permutation_app_comm.
    + rewrite T3. change (gauge (modify (set_tasks (delete id)) w).2) with (gauge w). rewrite A5. unfold inc, wrapping_add, wrap.
      cbn [length]. rewrite Z.mod_small by lia. lia.
  - intros i u. rewrite T5, T6, T1. intros H. destruct (C6 i u H) as (D1 & D2 & D3 & D4). split_and!; try done.
    rewrite lookup_insert_None. split; [done|]. intros Heq.
    change (delete id (tasks (shared w)) !! i = Some u) in H. apply lookup_delete_Some in H as [Hne H]. by apply Hne, (A7 id i t u).
  - intros i j a b. rewrite T5. apply C7.
Qed.

Lemma accounts_refuses seen tk en id n w w' :
  refuses n (modify (set_tasks (delete id)) w).2 w' -> accounts seen tk en w -> accounts seen (tk ++ [n]) en w'.
Proof.
  intros [R1 R2 R3 R4 R5 R6 R7] [A1 (l & A2 & A3 & A4 & A5) A6 A7]%(accounts_untasked _ _ _ id). split; [auto | | by rewrite R5, R6, R1 | by rewrite R5].
  exists l. rewrite R3, R4. split_and!; try done.
  - unfold stand, reg_stands, legs, back in *. by rewrite R1, R2.
  - rewrite A4, <- !app_assoc. f_equiv. f_equiv. by rewrite Permutation_app_comm.
Qed.

(** Legs leave the registry: sabiden sent a BYE for each, or the NGN did. *)
Lemma accounts_moves seen tk en ended es byed l w w' : Z.of_nat (length tk) < 2 ^ 64 ->
  accounts seen tk en w -> stand w l -> moves (map leg es) byed l w w' ->
  map leg_ngn (map leg es) = byed ++ ended \/ (ended = [] /\ byed = map (fun e => ngn_id (oe_ngn_dialog e)) es) ->
  accounts seen tk (en ++ ended) w'.
Proof.
  intros Hbound [A1 (l0 & A2 & A3 & A4 & A5) A6 A7] Hl [(l' & M1 & M1') M2 M3 M4 M5 M6] Hby.
  assert (l0 ≡ₚ l) as Hp by exact (stands_same _ _ _ _ _ _ A2 Hl). rewrite Hp in A3, A4, A5.
  rewrite M1', Forall_app in A3. destruct A3 as [A3 A3'].
  assert (map leg_ngn (map leg es) = byed ++ ended) as Hgone.
  { destruct Hby as [? | [-> ->]]; [done|]. rewrite app_nil_r. clear - A3. induction es as [|e es IH]; [done|]. cbn [map] in *.
    apply Forall_cons in A3 as [[H _] A3]. rewrite IH by done. by f_equal. }
  assert (length l = length es + length l')%nat as Hlen by (rewrite M1', length_app, length_map; done).
  assert (length l <= length tk)%nat as Hle by (rewrite A4, length_app, length_map; lia).
  split; [auto | | |by rewrite M4].
  - exists l'. split_and!; [done | done | | ].
    + rewrite A4, M1', map_app, Hgone, M2. solve_Permutation.
    + rewrite M3, A5, length_map, Hlen. apply iter_dec. lia.
  - intros id t. rewrite M4, M5. intros H. destruct (A6 id t H) as (B1 & B2 & B3 & B4). split_and!; try done.
    destruct (legs w' !! t_call_id t) as [p|] eqn:Hq; [|done]. exfalso.
    apply (st_first _ _ _ _ _ M1) in Hq as [Hq Hid].
    assert (p ∈ l) as Hin by (rewrite M1'; apply elem_of_app; by right).
    assert (legs w !! t_call_id t = Some p) by (apply (st_first _ _ _ _ _ Hl); done). congruence.
Qed.

(** ** A run *)

(** The NGN takes a call by answering an INVITE that waits for it. *)
Definition took (ev : OutEvent) (w : world) : list string :=
  match ev with
  | EvAnswer id (Some (Uac.Established call)) _ _ =>
      match tasks (shared w) !! id with
      | Some t => match t_phase t with RetryWait _ => [] | _ => [ngn_id (ec_dialog call)] end
      | None => []
      end
  | _ => []
  end.
(** It ends one that is registered with a BYE. *)
Definition hung_up (ev : OutEvent) (w : world) : list string :=
  match ev with
  | EvNgnBye id => if bool_decide (is_Some (back w !! id)) then [id] else []
  | _ => []
  end.
Fixpoint over (f : OutEvent -> world -> list string) (evs : list OutEvent) (w : world) : list string :=
  match evs with
  | [] => []
  | ev :: evs => f ev w ++ over f evs (handle_event cfg ev w).2
  end.
Definition taken : list OutEvent -> world -> list string := over took.
Definition ended : list OutEvent -> world -> list string := over hung_up.

Definition invite_of (ev : OutEvent) : option SipRequest := match ev with EvInvite _ _ request _ _ => Some request | _ => None end.
Definition initial (w : world) : Prop :=
  by_ext (registry (shared w)) = ∅ /\ ngn_to_ext (registry (shared w)) = ∅ /\ tasks (shared w) = ∅ /\ gauge w = 0 /\ outs w = [] /\ oks w = [].
Definition registered (w : world) : list OutboundCallEntry := map snd (map_to_list (by_ext (registry (shared w)))).

Lemma accounts_initial w : initial w -> accounts [] [] [] w.
Proof.
  intros (H1 & H2 & H3 & H4 & H5 & H6). split; [done | | by rewrite H3 | by rewrite H3].
  exists []. unfold stand, reg_stands, byes. rewrite H1, H2, H4, H5. split_and!; try done. rewrite fmap_empty. apply stands_empty.
Qed.

Definition established_id (result : option InviteOutcome) : list string :=
  match result with Some (Uac.Established call) => [ngn_id (ec_dialog call)] | _ => [] end.

Lemma accounts_settles seen tk en id t result w w' : tasks (shared w) !! id = Some t ->
  NoDup (tk ++ established_id result) -> Z.of_nat (length (tk ++ established_id result)) < 2 ^ 64 ->
  settles id t result w w' -> accounts seen tk en w -> accounts seen (tk ++ established_id result) en w'.
Proof.
  intros Ht Hnd Hlen Hs HA. unfold settles in Hs. destruct result as [[call | response]|]; cbn [established_id] in *.
  - destruct Hs as [Hs | Hs]; [|by apply (accounts_refuses _ _ _ id _ w)].
    apply (accounts_takes _ _ _ id t (t_call_id t) _ w); try done.
    + intros Hin. apply NoDup_app in Hnd as (_ & Hnd & _). apply (Hnd _ Hin). by left.
    + rewrite length_app in Hlen. cbn in Hlen. lia.
  - rewrite app_nil_r. by eapply accounts_frame, accounts_untasked.
  - rewrite app_nil_r. by eapply accounts_frame, accounts_untasked.
Qed.

Lemma accounts_answer seen tk en id result nanos now w : is_Some (oc_ext_layer cfg) ->
  let ev := EvAnswer id result nanos now in
  NoDup (tk ++ took ev w) -> Z.of_nat (length (tk ++ took ev w)) < 2 ^ 64 -> accounts seen tk en w ->
  accounts seen (tk ++ took ev w) en (handle_event cfg ev w).2.
Proof.
  intros Hl ev Hnd Hlen HA. subst ev. cbn [handle_event]. rewrite bind_get.
  assert (forall t ph, tasks (shared w) !! id = Some t -> t_phase t = ph -> (forall r, ph <> RetryWait r) ->
    took (EvAnswer id result nanos now) w = established_id result) as Htook.
  { intros t ph Ht <- Hr. cbn. rewrite Ht. unfold established_id. case_match; [|done]. case_match; [|done]. case_match; [done | by exfalso; eapply Hr | done]. }
  destruct (tasks (shared w) !! id) as [t|] eqn:Ht.
  2:{ assert (took (EvAnswer id result nanos now) w = []) as ->; [|by rewrite app_nil_r]. cbn. by repeat case_match; simplify_eq. }
  destruct (ac_tasks _ _ _ _ HA id t Ht) as (B1 & _). destruct (t_phase t) as [|r|] eqn:Hph.
  - specialize (Htook t Inviting eq_refl Hph ltac:(done)). rewrite Htook in *.
    destruct (first_settles id t result nanos now w B1 Hl (ac_oks _ _ _ _ HA)) as [Hs | [Hne Hs]].
    + by apply (accounts_settles _ _ _ id t result w).
    + assert (established_id result = []) as ->.
      { unfold established_id. case_match; [|done]. case_match; [|done]. subst. by exfalso; eapply Hne. }
      rewrite app_nil_r. by apply (accounts_rephases _ _ _ id t w).
  - assert (took (EvAnswer id result nanos now) w = []) as ->; [|by rewrite app_nil_r].
    cbn. rewrite Ht, Hph. by repeat case_match.
  - specialize (Htook t Retrying eq_refl Hph ltac:(done)). rewrite Htook in *.
    apply (accounts_settles _ _ _ id t result w); try done. by apply second_settles, HA.
Qed.

Lemma accounts_wake seen tk en id routes ids now w : is_Some (oc_ext_layer cfg) ->
  Z.of_nat (length tk) < 2 ^ 64 -> NoDup tk -> accounts seen tk en w ->
  accounts seen tk en (handle_event cfg (EvWake id routes ids now) w).2.
Proof.
  intros Hl Hlen Hnd HA. cbn [handle_event]. rewrite bind_get. destruct (tasks (shared w) !! id) as [t|] eqn:Ht; [|done].
  destruct (ac_tasks _ _ _ _ HA id t Ht) as (B1 & _). destruct (t_phase t) as [|r|]; [done | | done].
  destruct (wake_settles id t r routes ids now w B1 Hl (ac_oks _ _ _ _ HA)) as [Hs | Hs].
  - rewrite <- (app_nil_r tk). apply (accounts_settles _ _ _ id t None w); cbn [established_id]; by rewrite ?app_nil_r.
  - by apply (accounts_rephases _ _ _ id t w).
Qed.

Lemma accounts_step seen tk en ev w : is_Some (oc_ext_layer cfg) ->
  (forall request, invite_of ev = Some request -> invite_ok request /\ invite_call_id request ∉ seen) ->
  NoDup (tk ++ took ev w) -> Z.of_nat (length (tk ++ took ev w)) < 2 ^ 64 -> accounts seen tk en w ->
  accounts (option_list (invite_call_id <$> invite_of ev) ++ seen) (tk ++ took ev w) (en ++ hung_up ev w) (handle_event cfg ev w).2.
Proof.
  intros Hl Hinv Hnd Hlen HA. destruct (ac_calls _ _ _ _ HA) as (l & Hs & _).
  assert (forall m : handling unit, quiet m -> accounts seen tk en (m w).2) as Hq.
  { intros m Hm. by apply (accounts_frame _ _ _ w). }
  destruct ev; rewrite ?app_nil_r in *.
  - destruct (Hinv request eq_refl). apply (accounts_invited _ _ _ _ w); try done. apply invite_invited.
  - by apply accounts_answer.
  - by apply accounts_wake.
  - apply (accounts_frame _ _ _ w); [by apply (reinvite_frame _ _ l) | done].
  - destruct (ext_bye_moves request now l w Hs) as (es & Hm).
    pose proof (accounts_moves seen tk en [] es _ l w _ Hlen HA Hs Hm (or_intror (conj eq_refl eq_refl))) as H.
    by rewrite app_nil_r in H.
  - apply Hq, quiet_cancel.
  - apply Hq, quiet_cancel_go.
  - apply Hq, quiet_cancel_end.
  - done.
  - apply Hq, quiet_info.
  - destruct (unregister_moves aor l w Hs) as (es & Hm).
    pose proof (accounts_moves seen tk en [] es _ l w _ Hlen HA Hs Hm (or_intror (conj eq_refl eq_refl))) as H.
    by rewrite app_nil_r in H.
  - apply (accounts_frame _ _ _ w); [by apply (ngn_reinvite_frame _ _ l) | done].
  - destruct (ngn_bye_moves ngn_call_id l w Hs) as (es & Hm & Hid).
    exact (accounts_moves seen tk en _ es [] l w _ Hlen HA Hs Hm (or_introl Hid)).
Qed.

Lemma accounts_run evs seen tk en w : is_Some (oc_ext_layer cfg) ->
  Forall invite_ok (omap invite_of evs) -> NoDup (map invite_call_id (omap invite_of evs) ++ seen) ->
  NoDup (tk ++ taken evs w) -> Z.of_nat (length (tk ++ taken evs w)) < 2 ^ 64 -> accounts seen tk en w ->
  exists seen', accounts seen' (tk ++ taken evs w) (en ++ ended evs w) (run cfg evs w).
Proof.
  intros Hl. revert seen tk en w. induction evs as [|ev evs IH]; intros seen tk en w Hok Hids Hnd Hlen HA.
  { exists seen. by rewrite !app_nil_r. }
  unfold taken, ended in *. cbn [over run] in *. rewrite !app_assoc in *.
  apply (IH (option_list (invite_call_id <$> invite_of ev) ++ seen)).
  - cbn in Hok. destruct (invite_of ev); [by apply Forall_cons in Hok as [_ Hok] | done].
  - cbn in Hids. destruct (invite_of ev); [|done]. cbn in *. by rewrite Permutation_middle in Hids.
  - done.
  - done.
  - apply accounts_step; try done.
    + intros request Hr. cbn in Hok, Hids. rewrite Hr in Hok, Hids. apply Forall_cons in Hok as [Hok _]. split; [done|].
      cbn in Hids. apply NoDup_cons in Hids as [Hids _]. intros Hin. apply Hids, elem_of_app. by right.
    + by apply NoDup_app in Hnd as [Hnd _].
    + rewrite length_app in Hlen. lia.
Qed.


End handlers.

(** Two calls: one is hung up by the extension, the other one stays, with an INVITE
    that was cancelled while the NGN answered. *)
Definition sample_config : OutConfig :=
  mkOutConfig sample_uac default_config (Some None) (Some (mkAddr (V4 192 168 30 1) 5060)) None.
Definition sample_world : world :=
  mkWorld (mkState out_registry_new ∅ None (Some manager_new) metrics_new ∅ 0 ∅ [] []) [] [] [] [].
Definition sample_env (port : Z) : InviteEnv :=
  mkEnv None ∅ (mkRoutes None None) (mkIds 1 2 3) (Some (mkAddr (V4 118 177 72 238) port, mkAddr (V4 192 168 30 1) (port + 2))).
Definition sample_invite (call_id : string) : SipRequest :=
  mkRequest Invite "sip:117@192.168.30.1" [("via", "SIP/2.0/UDP 192.168.30.5"); ("from", "<sip:a@x>;tag=f1"); ("to", "<sip:117@x>");
    ("call-id", call_id); ("cseq", "1 INVITE"); ("contact", "<sip:a@192.168.30.5>")] linphone_offer.
Definition sample_call (call_id : string) : EstablishedCall :=
  mkEstablished (mkUacDialog (mkDialog (mkDialogId call_id "l" "r") Confirmed "sip:me@ntt" "sip:117@ntt" "sip:117@118.177.125.1" []
    2 "sip:me@118.177.72.238" "118.177.72.238:5060") 1 300 (mkAddr (V4 118 177 125 1) 5060)) (mkResponse 200 "OK" [] linphone_offer).
Definition sample_events : list OutEvent :=
  [EvInvite (sample_env 40000) "a" (sample_invite "e1") (mkAddr (V4 192 168 30 5) 5060) 0;
   EvInvite (sample_env 41000) "b" (sample_invite "e2") (mkAddr (V4 192 168 30 5) 5060) 0;
   EvAnswer 0 (Some (Uac.Established (sample_call "n1"))) 0 0;
   EvInvite (sample_env 42000) "c" (sample_invite "e3") (mkAddr (V4 192 168 30 5) 5060) 0;
   EvCancel (mkRequest Cancel "sip:117@192.168.30.1" [("call-id", "e3")] "");
   EvAnswer 1 (Some (Uac.Established (sample_call "n2"))) 0 0;
   EvCancelGo 0 (fun _ => None);
   EvAnswer 2 (Some (Uac.Established (sample_call "n3"))) 0 0;
   EvBye (mkRequest Bye "sip:117@192.168.30.1" [("call-id", "e1")] "") 0;
   EvCancelEnd 0].

Lemma sample_invite_ok call_id : invite_ok (sample_invite call_id).
Proof.
  split; [by exists call_id | by exists "f1" | by exists "<sip:117@x>" | by exists "<sip:a@192.168.30.5>" |].
  cbn [sample_invite req_body]. intros H. vm_compute in H. discriminate.
Qed.


(** What the hypotheses leave out. The 200 OK to the extension is not sent: the
    leg is in no table, and no BYE is sent. *)
Lemma unsent_answer_loses_leg :
  let evs := [EvInvite (sample_env 40000) "a" (sample_invite "e1") (mkAddr (V4 192 168 30 5) 5060) 0;
    EvAnswer 0 (Some (Uac.Established (sample_call "n1"))) 0 0] in
  let w := mkWorld (shared sample_world) [true; false] [] [] [] in
  let w' := run sample_config evs w in
  taken sample_config evs w = ["n1"] /\ registered w' = [] /\ byes w' = [] /\ ended sample_config evs w = [].
Proof. by vm_compute. Qed.

(** A second INVITE with the Call-ID of a call in progress replaces it. *)
Lemma reused_call_id_loses_leg :
  let evs := [EvInvite (sample_env 40000) "a" (sample_invite "e1") (mkAddr (V4 192 168 30 5) 5060) 0;
    EvAnswer 0 (Some (Uac.Established (sample_call "n1"))) 0 0;
    EvInvite (sample_env 41000) "b" (sample_invite "e1") (mkAddr (V4 192 168 30 6) 5060) 0;
    EvAnswer 1 (Some (Uac.Established (sample_call "n2"))) 0 0] in
  let w' := run sample_config evs sample_world in
  map oe_ngn_call_id (registered w') = ["n2"] /\ byes w' = [] /\ gauge w' = 2.
Proof. by vm_compute. Qed.

(** An INVITE that is cancelled before the NGN answers gets two final responses,
    with two To tags: that of the INVITE's task, and that of the CANCEL's. *)
Definition finals (w : world) : list (Z * option string) :=
  omap (fun o => match o with
    | ToExt _ resp => Some (status_code resp, hdr_get (resp_headers resp) "to" ≫= parse_tag)
    | _ => None
    end) (outs w).
Lemma cancelled_invite_answered_twice :
  let evs := [EvInvite (sample_env 40000) "a" (sample_invite "e1") (mkAddr (V4 192 168 30 5) 5060) 0;
    EvCancel (mkRequest Cancel "sip:117@192.168.30.1" [("call-id", "e1")] "");
    EvCancelGo 0 (fun _ => None);
    EvAnswer 0 (Some (Uac.Failed (mkResponse 487 "Request Terminated" [] ""))) 0 0;
    EvCancelEnd 0] in
  let w := mkWorld (shared sample_world) [] [] [1; 2; 3; 4] [] in
  finals (run sample_config evs w) = [(487, Some "sabiden-00000001"); (487, Some "sabiden-00000003")].
Proof. by vm_compute. Qed.
