(* ===== verification/SdpAnswer.v ===== *)
(** The answer the NGN gets to its offer (restrict_answer_to_ngn_offer_subset of
    src/src/sdp/builder.rs): the formats both sides named, in the order of the
    offer, and nothing about the others. *)
From S2P Require Import Prelude RustStr Utf8 NetAddr Sdp SdpRewrite.

(** The errors of the function itself, and those of the descriptions. *)
Inductive AnswerError := BadBody (e : SdpError) | NoAudioLine | NoCommonFormat.
Abbreviation answer := (outcome AnswerError).

Definition described (body : string) : answer SessionDescription :=
  match parse_body body with Ok s => Ok s | Err e => Err (BadBody e) | Panic => Panic end.

Definition is_unsupported_by_ngn_answer (a : Attribute) : bool :=
  match a with
  | Value key _ =>
      one_of ["rtcp-fb"; "rtcp-xr"; "fingerprint"; "setup"; "ice-ufrag"; "ice-pwd"; "ice-options";
              "ice-mismatch"; "candidate"; "msid"; "mid"; "ssrc"; "ssrc-group"; "extmap";
              "rtcp-mux"; "record"] key
  | Property p =>
      one_of ["rtcp-mux"; "ice-lite"; "rtcp-rsize"; "extmap-allow-mixed"; "end-of-candidates";
              "bundle-only"] p
  end.
Definition pt_of_rtpmap_or_fmtp_value (value : string) : option Z :=
  p ← head (split_whitespace value); parse_uint 8 p.

(** The formats of the first audio section. *)
Definition parse_audio_formats_and_rtpmap (body : string) : answer (list string) :=
  s ← described body; audio ← ok_or (audio_of s) NoAudioLine; Ok (m_formats audio).

(** The closure of the attribute filter. *)
Definition keeps_pt (keep_pts : list string) (a : Attribute) : bool :=
  if is_unsupported_by_ngn_answer a then false
  else
    match a with
    | Value key value =>
        if String.eqb key "rtpmap" || String.eqb key "fmtp" then
          match pt_of_rtpmap_or_fmtp_value value with
          | Some pt => one_of keep_pts (print_uint pt)
          | None => false
          end
        else true
    | Property _ => true
    end.
Definition subset_audio (keep_pts : list string) (m : MediaDescription) : MediaDescription :=
  mkMedia (m_media m) (m_port m) (m_protocol m) keep_pts (m_connection m) (retain (keeps_pt keep_pts) (m_attributes m)).
Definition subset_sdp (keep_pts : list string) (s : SessionDescription) : SessionDescription :=
  update_audio (subset_audio keep_pts)
    (set_session_attributes s (retain (fun a => negb (is_unsupported_by_ngn_answer a)) (s_attributes s))).
Definition build_answer_with_format_subset (ext_answer : string) (keep_pts : list string) : answer string :=
  s ← described ext_answer; _ ← ok_or (audio_of s) NoAudioLine; Ok (serialize (subset_sdp keep_pts s)).

Definition common_formats (offered answered : list string) : list string := retain (one_of answered) offered.
Definition restrict_answer_to_ngn_offer_subset (ngn_offer ext_answer : string) : answer string :=
  offered ← parse_audio_formats_and_rtpmap ngn_offer;
  answered ← parse_audio_formats_and_rtpmap ext_answer;
  let intersection := common_formats offered answered in
  _ ← ensure (negb (bool_decide (intersection = []))) NoCommonFormat;
  build_answer_with_format_subset ext_answer intersection.

(** ** What the NGN reads *)

(** It is about one of the formats, if it is about any. *)
Definition about_formats (formats : list string) (a : Attribute) : Prop :=
  match a with
  | Value k v => k = "rtpmap" \/ k = "fmtp" -> match line_pt v with Some n => print_uint n ∈ formats | None => False end
  | Property _ => True
  end.
#[export] Instance about_formats_dec formats a : Decision (about_formats formats a).
Proof. destruct a as [p | k v]; cbn; [apply _|]. destruct (line_pt v); apply _. Defined.

(** The answer the NGN is to get for the audio section [o] of its offer, where the
    extension answered [sa], whose first audio section is [a]. *)
Definition common (o a : MediaDescription) : list string := filter (fun f => f ∈ m_formats a) (m_formats o).
Definition answer_audio (o a : MediaDescription) : MediaDescription :=
  mkMedia (m_media a) (m_port a) (m_protocol a) (common o a) (m_connection a)
    (filter (fun x => ngn_knows x /\ about_formats (common o a) x) (m_attributes a)).
Definition answer_for (o : MediaDescription) (sa : SessionDescription) (pre : list MediaDescription) (a : MediaDescription)
    (post : list MediaDescription) : SessionDescription :=
  mkSdp (s_version sa) (s_origin sa) (s_name sa) (s_connection sa) (s_timing sa) (filter ngn_knows (s_attributes sa))
    (pre ++ answer_audio o a :: post).

Lemma one_of_true l k : one_of l k = true <-> k ∈ l.
Proof. apply one_of_In. Qed.
Lemma is_unsupported_same a : is_unsupported_by_ngn_answer a = is_unsupported_by_ngn a.
Proof. by destruct a. Qed.
Lemma described_ok body s : described body = Ok s -> parse_body body = Ok s.
Proof. unfold described. destruct (parse_body body); congruence. Qed.
Lemma formats_ok body l : parse_audio_formats_and_rtpmap body = Ok l ->
  exists s m, parse_body body = Ok s /\ audio_of s = Some m /\ l = m_formats m.
Proof.
  unfold parse_audio_formats_and_rtpmap. intros H. apply bind_Ok_inv in H as (s & Hs%described_ok & H).
  apply bind_Ok_inv in H as (m & Hm%ok_or_Ok_inv & [= <-]). eauto.
Qed.

Lemma keeps_pt_spec keep a : keeps_pt keep a = bool_decide (ngn_knows a /\ about_formats keep a).
Proof.
  apply bool_decide_iff. unfold keeps_pt. rewrite is_unsupported_same, unsupported_spec.
  case_bool_decide as Hk; cbn [negb]; [|split; [done | by intros [? _]]].
  destruct a as [p | key v]; cbn [about_formats]; [done|].
  change (pt_of_rtpmap_or_fmtp_value v) with (line_pt v).
  destruct (String.eqb_spec key "rtpmap"), (String.eqb_spec key "fmtp"); cbn [orb];
    [| | | by split; [intros _; split; [|intros []]|]];
    (destruct (line_pt v) as [n'|]; [rewrite one_of_true|]; intuition (congruence || done)).
Qed.

(** The code's descriptions are those. *)
Lemma common_formats_spec o a : common_formats (m_formats o) (m_formats a) = common o a.
Proof. apply retain_filter. intros f. apply bool_decide_iff, one_of_true. Qed.

Lemma subset_sdp_spec o sa a : audio_of sa = Some a ->
  exists pre post, s_media sa = pre ++ a :: post /\ Forall (fun m => m_media m <> "audio") pre /\ m_media a = "audio" /\
    subset_sdp (common o a) sa = answer_for o sa pre a post.
Proof.
  intros Ha. destruct (update_first_split is_audio (subset_audio (common o a)) (s_media sa))
    as [[Hf _] | (pre & m & post & Hm & Hf & Hpre & Hu)]; unfold audio_of in Ha; [congruence|].
  assert (m = a) as -> by congruence. exists pre, post. apply find_first_Some in Ha as [_ Hau%String.eqb_eq].
  split_and!; [done | eapply Forall_impl; [exact Hpre|]; by intros x Hx%String.eqb_neq | done |].
  unfold subset_sdp, update_audio, answer_for, set_media, set_session_attributes. cbn. rewrite Hu. unfold subset_audio, answer_audio.
  f_equal; [apply retain_filter; intros x; by rewrite is_unsupported_same, unsupported_spec, negb_involutive|].
  do 3 f_equal. apply retain_filter, keeps_pt_spec.
Qed.

Lemma subset_sdp_ok keep s : sdp_ok s -> keep <> [] -> Forall word_ok keep -> sdp_ok (subset_sdp keep s).
Proof.
  intros Hs Hne Hw. apply update_audio_ok.
  - apply set_session_attributes_ok; [done|]. apply retain_Forall, Hs.
  - intros m [? ? ? ? ? Ha]. split; cbn; try done. by apply retain_Forall.
Qed.

Lemma audio_of_split pre a post s : s_media s = pre ++ a :: post -> Forall (fun m => m_media m <> "audio") pre ->
  m_media a = "audio" -> audio_of s = Some a.
Proof.
  intros Hm Hpre Ha. unfold audio_of. rewrite Hm. clear Hm. induction Hpre as [|x pre Hx _ IH]; cbn.
  - unfold is_audio. by rewrite Ha.
  - unfold is_audio at 1. by rewrite (proj2 (String.eqb_neq _ _) Hx).
Qed.

Lemma formats_of body s m : parse_body body = Ok s -> audio_of s = Some m -> parse_audio_formats_and_rtpmap body = Ok (m_formats m).
Proof. intros Hs Hm. unfold parse_audio_formats_and_rtpmap, described. by rewrite Hs; cbn; rewrite Hm. Qed.

(** C17: the NGN gets an answer exactly when its offer and the extension's answer can
    both be read, both have an audio section, and these have a format in common. The
    answer can be read, and it is the extension's, changed in three places only: its
    session attributes are exactly those the NGN knows, in their order; the first
    audio section names the common formats, in the order of the NGN's offer; and of
    that section's attributes exactly those remain, in their order, that the NGN knows
    and that are not about another format. The version, the origin, the name, the
    connection, the timing, the other media and the rest of the audio section stay
    as they were. *)
Theorem answer_is_subset (ngn_offer ext_answer body : string) :
  restrict_answer_to_ngn_offer_subset ngn_offer ext_answer = Ok body <->
  exists so o sa pre a post, parse_body ngn_offer = Ok so /\ audio_of so = Some o /\
    parse_body ext_answer = Ok sa /\ s_media sa = pre ++ a :: post /\
    Forall (fun m => m_media m <> "audio") pre /\ m_media a = "audio" /\
    common o a <> [] /\ body = serialize (answer_for o sa pre a post) /\
    parse_body body = Ok (answer_for o sa pre a post).
Proof.
  unfold restrict_answer_to_ngn_offer_subset. split.
  - intros H.
    apply bind_Ok_inv in H as (lo & (so & o & Hso & Ho & ->)%formats_ok & H).
    apply bind_Ok_inv in H as (la & (sa & a & Hsa & Ha & ->)%formats_ok & H).
    rewrite common_formats_spec in H.
    apply bind_Ok_inv in H as (? & Hne%ensure_Ok_inv & H). apply negb_true_iff, bool_decide_eq_false in Hne.
    unfold build_answer_with_format_subset, described in H. rewrite Hsa in H. cbn [mbind outcome_bind] in H. rewrite Ha in H.
    cbn [ok_or mbind outcome_bind] in H. injection H as <-.
    destruct (subset_sdp_spec o sa a Ha) as (pre & post & Hm & Hpre & Hau & Heq).
    exists so, o, sa, pre, a, post. rewrite <- Heq. split_and!; try done.
    apply parse_body_serialize, subset_sdp_ok; [by eapply parse_body_ok | done |].
    rewrite <- common_formats_spec. apply retain_Forall. apply find_audio_in in Ho. apply parse_body_ok, so_media in Hso.
    rewrite Forall_forall in Hso. by apply Hso, mo_formats in Ho as [_ ?].
  - intros (so & o & sa & pre & a & post & Hso & Ho & Hsa & Hm & Hpre & Hau & Hne & -> & _).
    pose proof (audio_of_split _ _ _ _ Hm Hpre Hau) as Ha.
    rewrite (formats_of _ _ _ Hso Ho). cbn [mbind outcome_bind]. rewrite (formats_of _ _ _ Hsa Ha). cbn [mbind outcome_bind].
    rewrite common_formats_spec, bool_decide_eq_false_2 by done. cbn [negb ensure mbind outcome_bind].
    unfold build_answer_with_format_subset, described. rewrite Hsa. cbn [mbind outcome_bind]. rewrite Ha. cbn [ok_or mbind outcome_bind].
    destruct (subset_sdp_spec o sa a Ha) as (pre' & post' & Hm' & Hpre' & Hau' & ->).
    assert (pre' = pre /\ post' = post) as [-> ->]; [|done].
    rewrite Hm in Hm'. clear -Hm' Hpre Hpre' Hau.
    revert pre' Hpre' Hm'. induction Hpre as [|x pre Hx _ IH]; intros pre' Hpre' Hm'; destruct Hpre' as [|y pre' Hy Hpre'];
      cbn [app] in Hm'; simplify_eq; [done|].
    by destruct (IH pre' Hpre') as [-> ->].
Qed.

(** The offer of the NGN and a browser's answer once it is [RTP/AVP]. *)
Definition ngn_offer_sample : string :=
  join crlf ["v=0"; "o=- 1 1 IN IP4 118.177.125.1"; "s=-"; "c=IN IP4 118.177.125.1"; "t=0 0"; "m=audio 24252 RTP/AVP 0 8 101";
    "a=rtpmap:0 PCMU/8000"; "a=rtpmap:8 PCMA/8000"; "a=rtpmap:101 telephone-event/8000"; "a=fmtp:101 0-15"; ""].
Definition ext_answer_sample : string :=
  join crlf ["v=0"; "o=- 2 2 IN IP4 192.168.30.10"; "s=-"; "c=IN IP4 192.168.30.10"; "t=0 0"; "m=audio 40000 RTP/AVP 111 101 0";
    "a=mid:0"; "a=rtpmap:111 opus/48000/2"; "a=rtpmap:101 telephone-event/8000"; "a=rtpmap:0 PCMU/8000"; ""].

Example restrict_sample : restrict_answer_to_ngn_offer_subset ngn_offer_sample ext_answer_sample =
  Ok (join crlf ["v=0"; "o=- 2 2 IN IP4 192.168.30.10"; "s=-"; "c=IN IP4 192.168.30.10"; "t=0 0"; "m=audio 40000 RTP/AVP 0 101";
    "a=rtpmap:101 telephone-event/8000"; "a=rtpmap:0 PCMU/8000"; ""]).
Proof. by vm_compute. Qed.

Lemma answer_is_subset_witness :
  exists body so o sa pre a post, restrict_answer_to_ngn_offer_subset ngn_offer_sample ext_answer_sample = Ok body /\
    parse_body ngn_offer_sample = Ok so /\ audio_of so = Some o /\ parse_body ext_answer_sample = Ok sa /\
    s_media sa = pre ++ a :: post /\ common o a = ["0"; "101"] /\ parse_body body = Ok (answer_for o sa pre a post).
Proof.
  destruct (restrict_answer_to_ngn_offer_subset ngn_offer_sample ext_answer_sample) as [body | e |] eqn:E;
    [| exfalso; vm_compute in E; discriminate E | exfalso; vm_compute in E; discriminate E].
  destruct (proj1 (answer_is_subset ngn_offer_sample ext_answer_sample body) E)
    as (so & o & sa & pre & a & post & Hso & Ho & Hsa & Hm & Hpre & Hau & Hne & _ & Hp).
  exists body, so, o, sa, pre, a, post. repeat (split; [assumption || reflexivity|]). split; [|exact Hp].
  pose proof (audio_of_split _ _ _ _ Hm Hpre Hau) as Ha.
  vm_compute in Hso. injection Hso as <-. vm_compute in Ho. injection Ho as <-. vm_compute in Hsa. injection Hsa as <-.
  vm_compute in Ha. injection Ha as <-. vm_compute. reflexivity.
Defined.

(** Formats are compared by number: a dynamic number that is another codec on each
    side counts as common. *)
Lemma same_number_other_codec :
  let line f := join crlf ["v=0"; "o=- 1 1 IN IP4 10.0.0.1"; "s=-"; "c=IN IP4 10.0.0.1"; "t=0 0"; "m=audio 4000 RTP/AVP 96"; f; ""] in
  restrict_answer_to_ngn_offer_subset (line "a=rtpmap:96 telephone-event/8000") (line "a=rtpmap:96 opus/48000/2") =
  Ok (line "a=rtpmap:96 opus/48000/2").
Proof. by vm_compute. Qed.
