(* ===== verification/Fork.v ===== *)
(** An incoming call offered to every binding at once (fork_to_bindings and
    run_webrtc_leg of src/src/call/orchestrator.rs, with PendingAnswers of
    src/src/webrtc/signaling.rs).

    Each binding has a task of its own, and the fork collects what they report.
    The tasks, the collecting loop and the sessions of the browsers share the
    registry of the browsers' legs and the tables of the answers that are awaited,
    each behind its lock. A step of the model is what one of them does between
    two points where another one can run; the theorems are about every
    interleaving of the steps. *)
From S2P Require Import Prelude RustStr SipMessage Transaction Registrar SdpRewrite Transcoder.

(** ** Awaited answers *)

Inductive AnswerOutcome := AnswerSdp (sdp : string) | AnswerDecline (status : Z).

(** A one-shot channel: empty, with its value, or without a sender or receiver. *)
Inductive Shot := Empty | Sent (o : AnswerOutcome) | SenderGone | ReceiverGone.

(** The tables of all sessions, each known by a number, and the channels. *)
Record PendingAnswers := mkAnswers { tables : gmap Z (gmap string nat); shots : gmap nat Shot; next_shot : nat }.
Definition pending_new : PendingAnswers := mkAnswers ∅ ∅ 0.
Definition table (a : PendingAnswers) (p : Z) : gmap string nat := default ∅ (tables a !! p).

Definition drop_sender (m : gmap nat Shot) (id : nat) : gmap nat Shot :=
  match m !! id with Some Empty => <[id := SenderGone]> m | _ => m end.
Definition drop_receiver (a : PendingAnswers) (id : nat) : PendingAnswers :=
  mkAnswers (tables a) (match shots a !! id with Some Empty => <[id := ReceiverGone]> (shots a) | _ => shots a end) (next_shot a).
Definition drop_entry (t : gmap string nat) (call_id : string) (m : gmap nat Shot) : gmap nat Shot :=
  match t !! call_id with Some id => drop_sender m id | None => m end.

Definition pending_register (a : PendingAnswers) (p : Z) (call_id : string) : nat * PendingAnswers :=
  let id := next_shot a in
  (id, mkAnswers (<[p := <[call_id := id]> (table a p)]> (tables a))
         (<[id := Empty]> (drop_entry (table a p) call_id (shots a))) (S id)).
Definition pending_cancel (a : PendingAnswers) (p : Z) (call_id : string) : PendingAnswers :=
  mkAnswers (<[p := delete call_id (table a p)]> (tables a)) (drop_entry (table a p) call_id (shots a)) (next_shot a).
(** [deliver] and [decline]. *)
Definition pending_send (a : PendingAnswers) (p : Z) (call_id : string) (o : AnswerOutcome) : bool * PendingAnswers :=
  match table a p !! call_id with
  | None => (false, a)
  | Some id =>
      let ts := <[p := delete call_id (table a p)]> (tables a) in
      match shots a !! id with
      | Some Empty => (true, mkAnswers ts (<[id := Sent o]> (shots a)) (next_shot a))
      | _ => (false, mkAnswers ts (shots a) (next_shot a))
      end
  end.
Definition deliver (a : PendingAnswers) (p : Z) (call_id sdp : string) : bool * PendingAnswers :=
  pending_send a p call_id (AnswerSdp sdp).
Definition decline (a : PendingAnswers) (p : Z) (call_id : string) (status : Z) : bool * PendingAnswers :=
  pending_send a p call_id (AnswerDecline status).
Definition cancel_all (a : PendingAnswers) (p : Z) : nat * PendingAnswers :=
  (size (table a p),
   mkAnswers (<[p := ∅]> (tables a)) (fold_left drop_sender (map snd (map_to_list (table a p))) (shots a)) (next_shot a)).
Definition pending_len (a : PendingAnswers) (p : Z) : nat := size (table a p).

(** ** The legs *)

Record WebRtcLegArtifacts := mkArtifacts { wa_peer : Z; wa_opus_payload_type : Z }.

Inductive LegResult :=
  | Established (aor winner_uri : string) (response : SipResponse) (webrtc_handle : option WebRtcLegArtifacts) (webrtc_ws : option Z)
  | LegFailed (aor : string) (status : Z)
  | LegErrored (aor : string).

(** The registry of the browsers' legs; the handle of a leg has its Call-ID too,
    which is the same for all of them. *)
Record WebRtcLegHandle := mkHandle { lh_ws : Z; lh_pending : Z }.
Record WebRtcLegRegistry := mkLegs { reg_legs : list WebRtcLegHandle; reg_closed : bool }.
Definition legs_new : WebRtcLegRegistry := mkLegs [] false.
Definition try_register_webrtc_leg (r : WebRtcLegRegistry) (h : WebRtcLegHandle) : bool * WebRtcLegRegistry :=
  if reg_closed r then (false, r) else (true, mkLegs (reg_legs r ++ [h]) false).
Definition close_and_drain_webrtc_legs (r : WebRtcLegRegistry) : list WebRtcLegHandle * WebRtcLegRegistry :=
  (reg_legs r, mkLegs [] true).

(** Where the task of a leg is: a telephone's waits for its INVITE; a browser's
    for its own offer, then it reserves the answer, registers, sends the offer,
    waits for the answer until an instant, and hands it to the peer. *)
Inductive LegPhase :=
  | SipInviting
  | WebOffering
  | WebOffered (offer : string)
  | WebReserved (offer : string) (shot : nat)
  | WebRegistered (offer : string) (shot : nat)
  | WebWaiting (shot : nat) (until : Z)
  | WebAccepting (answer : string)
  | Finished (report : option LegResult).
Record Leg := mkLeg { lg_aor : string; lg_uri : string; lg_transport : ExtTransport; lg_phase : LegPhase }.
Definition start_leg (p : string * Binding) : Leg :=
  mkLeg p.1 (contact_uri p.2) (transport p.2) (match transport p.2 with Sip => SipInviting | WebRtc _ _ _ => WebOffering end).

(** ** Which failure is reported *)

Definition final_response_class_rank (code : Z) : Z :=
  if in_range3 code 600 699 then 4
  else if in_range3 code 400 499 then 3
  else if in_range3 code 500 599 then 2
  else if in_range3 code 300 399 then 1
  else 0.
Definition should_replace_status (current : option Z) (new : Z) : bool :=
  match current with
  | None => true
  | Some cur => final_response_class_rank cur <? final_response_class_rank new
  end.
Definition best_status (current : option Z) (new : Z) : option Z :=
  if should_replace_status current new then Some new else current.

(** ** The fork *)

Inductive ForkResult :=
  | Answered (winner_uri : string) (response : SipResponse) (webrtc_handle : option WebRtcLegArtifacts) (webrtc_ws : option Z)
  | AllFailed (last_status : option Z)
  | ForkTimeout.

Inductive ForkOutput := Offer (ws : Z) (call_id sdp : string) | Cancel (ws : Z) (call_id : string) | PeerClosed (peer : Z).

(** Collecting, with what it breaks out of the loop with; the handles still to
    be cancelled; returned. *)
Inductive Stage := Collecting | Decided (r : ForkResult) | Cancelling (r : ForkResult) (hs : list WebRtcLegHandle) | Returned (r : ForkResult).

(** [fk_reports] is all that was sent into the channel, and [fk_received] how
    much of it the loop has taken. *)
Record Fork := mkFork {
  fk_call_id : string; fk_timeout : Z; fk_deadline : Z;
  fk_legs : list Leg; fk_registry : WebRtcLegRegistry;
  fk_reports : list LegResult; fk_received : nat; fk_last_status : option Z; fk_winner_ws : option Z;
  fk_stage : Stage; fk_answers : PendingAnswers; fk_out : list ForkOutput }.

Definition set_leg (i : nat) (ph : LegPhase) (f : Fork) : Fork :=
  mkFork (fk_call_id f) (fk_timeout f) (fk_deadline f)
    (alter (fun l => mkLeg (lg_aor l) (lg_uri l) (lg_transport l) ph) i (fk_legs f)) (fk_registry f)
    (fk_reports f) (fk_received f) (fk_last_status f) (fk_winner_ws f) (fk_stage f) (fk_answers f) (fk_out f).
Definition set_registry (r : WebRtcLegRegistry) (f : Fork) : Fork :=
  mkFork (fk_call_id f) (fk_timeout f) (fk_deadline f) (fk_legs f) r (fk_reports f) (fk_received f) (fk_last_status f)
    (fk_winner_ws f) (fk_stage f) (fk_answers f) (fk_out f).
Definition set_collected (received : nat) (last : option Z) (winner : option Z) (f : Fork) : Fork :=
  mkFork (fk_call_id f) (fk_timeout f) (fk_deadline f) (fk_legs f) (fk_registry f) (fk_reports f) received last winner
    (fk_stage f) (fk_answers f) (fk_out f).
Definition set_stage (s : Stage) (f : Fork) : Fork :=
  mkFork (fk_call_id f) (fk_timeout f) (fk_deadline f) (fk_legs f) (fk_registry f) (fk_reports f) (fk_received f)
    (fk_last_status f) (fk_winner_ws f) s (fk_answers f) (fk_out f).
Definition set_answers (a : PendingAnswers) (f : Fork) : Fork :=
  mkFork (fk_call_id f) (fk_timeout f) (fk_deadline f) (fk_legs f) (fk_registry f) (fk_reports f) (fk_received f)
    (fk_last_status f) (fk_winner_ws f) (fk_stage f) a (fk_out f).
Definition write (o : ForkOutput) (f : Fork) : Fork :=
  mkFork (fk_call_id f) (fk_timeout f) (fk_deadline f) (fk_legs f) (fk_registry f) (fk_reports f) (fk_received f)
    (fk_last_status f) (fk_winner_ws f) (fk_stage f) (fk_answers f) (fk_out f ++ [o]).
(** A task ends with its report, or without one when it panics. *)
Definition report (i : nat) (r : option LegResult) (f : Fork) : Fork :=
  let f := set_leg i (Finished r) f in
  mkFork (fk_call_id f) (fk_timeout f) (fk_deadline f) (fk_legs f) (fk_registry f) (fk_reports f ++ option_list r) (fk_received f)
    (fk_last_status f) (fk_winner_ws f) (fk_stage f) (fk_answers f) (fk_out f).

Definition fork_start (bindings : list (string * Binding)) (call_id : string) (overall_timeout now : Z) (a : PendingAnswers) : Fork :=
  mkFork call_id overall_timeout (now + overall_timeout) (map start_leg bindings) legs_new [] 0 None None
    (if (length bindings =? 0)%nat then Returned (AllFailed None)
     else if overall_timeout =? 0 then Decided ForkTimeout else Collecting) a [].

Definition leg_over (l : Leg) : bool := match lg_phase l with Finished _ => true | _ => false end.

(** One round of the loop, which the channel or the timer woke. *)
Definition take_report (r : LegResult) (now : Z) (f : Fork) : Fork :=
  let received := S (fk_received f) in
  let go_on (f : Fork) :=
    if (length (fk_legs f) <=? received)%nat then set_stage (Decided (AllFailed (fk_last_status f))) f
    else if fk_deadline f <=? now then set_stage (Decided ForkTimeout) f
    else f in
  match r with
  | Established _ winner_uri response h ws =>
      set_stage (Decided (Answered winner_uri response h ws)) (set_collected received (fk_last_status f) ws f)
  | LegFailed _ status =>
      let f := set_collected received (best_status (fk_last_status f) status) (fk_winner_ws f) f in
      if in_range3 status 600 699 then set_stage (Decided (AllFailed (fk_last_status f))) f else go_on f
  | LegErrored _ => go_on (set_collected received (fk_last_status f) (fk_winner_ws f) f)
  end.
Definition collect (now : Z) (f : Fork) : Fork :=
  match fk_reports f !! fk_received f with
  | Some r => take_report r now f
  | None =>
      if forallb leg_over (fk_legs f) then set_stage (Decided (AllFailed (fk_last_status f))) f
      else if fk_deadline f <=? now then set_stage (Decided ForkTimeout) f
      else f
  end.

(** The cancelling loop: the winner is left alone. *)
Definition cancel_leg (h : WebRtcLegHandle) (f : Fork) : Fork :=
  if bool_decide (fk_winner_ws f = Some (lh_ws h)) then f
  else
    let f := set_answers (pending_cancel (fk_answers f) (lh_pending h) (fk_call_id f)) f in
    write (Cancel (lh_ws h) (fk_call_id f)) f.

Definition poll (now : Z) (f : Fork) : Fork :=
  match fk_stage f with
  | Collecting => collect now f
  | Decided r =>
      let '(hs, reg) := close_and_drain_webrtc_legs (fk_registry f) in set_stage (Cancelling r hs) (set_registry reg f)
  | Cancelling r [] => set_stage (Returned r) f
  | Cancelling r (h :: hs) => set_stage (Cancelling r hs) (cancel_leg h f)
  | Returned _ => f
  end.

(** ** The tasks of the legs *)

(** What a telephone's INVITE came to ([LegOutcome]). *)
Inductive Invited := InvEstablished (response : SipResponse) | InvFailed (status : Z) | InvErrored.
Definition sip_leg (l : Leg) (o : Invited) : LegResult :=
  match o with
  | InvEstablished response => Established (lg_aor l) (lg_uri l) response None None
  | InvFailed status => LegFailed (lg_aor l) status
  | InvErrored => LegErrored (lg_aor l)
  end.

(** The 200 OK made for the NGN from a browser's answer; [media]: whether the
    peer's media could be taken. *)
Definition webrtc_answer (l : Leg) (peer ws : Z) (call_id answer : string) (media : bool) : option LegResult :=
  match (match convert_savpf_to_avp answer with Ok b => Some b | Err _ => Some answer | Panic => None end) with
  | None => None
  | Some body_for_ngn =>
      let opus_pt := default DEFAULT_OPUS_PT (find_opus_payload_type answer) in
      let h := hdr_set [] "Via" "SIP/2.0/WS webrtc.peer;branch=z9hG4bKwebrtc" in
      let h := hdr_set h "From" "<sip:webrtc>;tag=webrtc" in
      let h := hdr_set h "To" ("<" +:+ lg_uri l +:+ ">;tag=webrtc-" +:+ lg_aor l) in
      let h := hdr_set h "Call-ID" call_id in
      let h := hdr_set h "CSeq" "1 INVITE" in
      let h := hdr_set h "Content-Type" "application/sdp" in
      Some (Established (lg_aor l) (lg_uri l) (mkResponse 200 "OK" h body_for_ngn)
              (if media then Some (mkArtifacts peer opus_pt) else None) (Some ws))
  end.

(** The next step of a browser's task; [ok]: whether the session took the
    message, [res]: what the peer answered. *)
Inductive LegInput :=
  | OfferMade (offer : option string)
  | Go (ok : bool) (now : Z)
  | AnswerTaken (ok media : bool).

Definition web_step (i : nat) (l : Leg) (peer ws p : Z) (inp : LegInput) (f : Fork) : Fork :=
  match lg_phase l, inp with
  | WebOffering, OfferMade (Some sdp) => set_leg i (WebOffered sdp) f
  | WebOffering, OfferMade None => report i (Some (LegErrored (lg_aor l))) f
  | WebOffered offer, Go _ _ =>
      let '(shot, a) := pending_register (fk_answers f) p (fk_call_id f) in
      set_leg i (WebReserved offer shot) (set_answers a f)
  | WebReserved offer shot, Go _ _ =>
      let '(registered, reg) := try_register_webrtc_leg (fk_registry f) (mkHandle ws p) in
      if registered then set_leg i (WebRegistered offer shot) (set_registry reg f)
      else
        let f := set_answers (pending_cancel (fk_answers f) p (fk_call_id f)) f in
        report i (Some (LegErrored (lg_aor l))) (write (Cancel ws (fk_call_id f)) f)
  | WebRegistered offer shot, Go ok now =>
      if ok then set_leg i (WebWaiting shot (now + fk_timeout f)) (write (Offer ws (fk_call_id f) offer) f)
      else
        let f := set_answers (pending_cancel (fk_answers f) p (fk_call_id f)) f in
        report i (Some (LegErrored (lg_aor l))) f
  | WebWaiting shot until, Go _ now =>
      match shots (fk_answers f) !! shot with
      | Some (Sent (AnswerSdp answer)) => set_leg i (WebAccepting answer) f
      | Some (Sent (AnswerDecline status)) => report i (Some (LegFailed (lg_aor l) status)) f
      | Some Empty =>
          if until <=? now then
            let a := pending_cancel (drop_receiver (fk_answers f) shot) p (fk_call_id f) in
            report i (Some (LegFailed (lg_aor l) 408)) (set_answers a f)
          else f
      | _ => report i (Some (LegErrored (lg_aor l))) f
      end
  | WebAccepting answer, AnswerTaken true media => report i (webrtc_answer l peer ws (fk_call_id f) answer media) f
  | WebAccepting _, AnswerTaken false _ => report i (Some (LegErrored (lg_aor l))) (write (PeerClosed peer) f)
  | _, _ => f
  end.

(** ** Interleavings *)

Inductive ForkEvent :=
  | Poll (now : Z)
  | SipLeg (i : nat) (o : Invited)
  | WebLeg (i : nat) (inp : LegInput)
  (* the sessions of the browsers, for this call or another one *)
  | Browser (p : Z) (call_id : string) (o : AnswerOutcome)
  | SessionOver (p : Z).

Definition fork_step (f : Fork) (e : ForkEvent) : Fork :=
  match e with
  | Poll now => poll now f
  | SipLeg i o =>
      match fk_legs f !! i with
      | Some l => match lg_phase l with SipInviting => report i (Some (sip_leg l o)) f | _ => f end
      | None => f
      end
  | WebLeg i inp =>
      match fk_legs f !! i with
      | Some l => match lg_transport l with WebRtc peer ws p => web_step i l peer ws p inp f | Sip => f end
      | None => f
      end
  | Browser p call_id o => set_answers (pending_send (fk_answers f) p call_id o).2 f
  | SessionOver p => set_answers (cancel_all (fk_answers f) p).2 f
  end.
Definition fork_run (f : Fork) (es : list ForkEvent) : Fork := fold_left fork_step es f.

(** ** What the status of a failed fork is *)

Definition status_of (r : LegResult) : option Z := match r with LegFailed _ s => Some s | _ => None end.
Definition statuses (l : list LegResult) : list Z := omap status_of l.

(** The earliest among those of the highest class. *)
Definition best_of (l : list Z) (s : Z) : Prop :=
  exists before after, l = before ++ s :: after /\
    Forall (fun x => final_response_class_rank x < final_response_class_rank s) before /\
    Forall (fun x => final_response_class_rank x <= final_response_class_rank s) after.
Definition reported_status (l : list LegResult) (last : option Z) : Prop :=
  match last with Some s => best_of (statuses l) s | None => statuses l = [] end.

Lemma best_fold (l : list Z) :
  match fold_left best_status l None with Some s => best_of l s | None => l = [] end.
Proof.
  induction l as [|x l IH] using rev_ind; [done|]. rewrite fold_left_app. cbn [fold_left].
  destruct (fold_left best_status l None) as [s|].
  - destruct IH as (b & a & -> & Hb & Ha). unfold best_status, should_replace_status.
    destruct (Z.ltb_spec (final_response_class_rank s) (final_response_class_rank x)) as [Hlt | Hge].
    + exists (b ++ s :: a), []. rewrite <- app_assoc. split; [done|]. split; [|done]. apply Forall_app; split.
      * eapply Forall_impl; [exact Hb|]. cbn. lia.
      * constructor; [done|]. eapply Forall_impl; [exact Ha|]. cbn. lia.
    + exists b, (a ++ [x]). rewrite <- app_assoc. split; [done|]. split; [done|]. apply Forall_app. auto.
  - subst l. exists [], []. done.
Qed.

Lemma statuses_snoc l r : statuses (l ++ [r]) = statuses l ++ option_list (status_of r).
Proof. unfold statuses. by rewrite omap_app. Qed.

(** ** What the loop has collected *)

Definition failure (r : LegResult) : Prop := match r with Established _ _ _ _ _ => False | _ => True end.
Definition global_failure (r : LegResult) : Prop :=
  match r with LegFailed _ s => in_range3 s 600 699 = true | _ => False end.
Definition taken (f : Fork) : list LegResult := take (fk_received f) (fk_reports f).

(** Why the loop may end with a result. *)
Definition decided_by (es : list ForkEvent) (f : Fork) (r : ForkResult) : Prop :=
  match r with
  | Answered winner_uri response h ws =>
      fk_winner_ws f = ws /\
      exists before aor, taken f = before ++ [Established aor winner_uri response h ws] /\ Forall failure before
  | AllFailed last =>
      fk_winner_ws f = None /\ last = fk_last_status f /\ Forall failure (taken f) /\
      ((length (fk_legs f) <= fk_received f)%nat \/
       (exists before x, taken f = before ++ [x] /\ global_failure x) \/
       (forallb leg_over (fk_legs f) = true /\ fk_received f = length (fk_reports f)))
  | ForkTimeout =>
      fk_winner_ws f = None /\ Forall failure (taken f) /\
      (fk_timeout f = 0 \/ exists t, Poll t ∈ es /\ fk_deadline f <= t)
  end.

Record collects (es : list ForkEvent) (f : Fork) : Prop := {
  co_received : (fk_received f <= length (fk_reports f))%nat;
  co_last : fk_last_status f = fold_left best_status (statuses (taken f)) None;
  co_stage : match fk_stage f with
             | Collecting => fk_winner_ws f = None /\ (fk_received f < length (fk_legs f))%nat /\ Forall failure (taken f)
             | Decided r | Cancelling r _ | Returned r => decided_by es f r
             end
}.

(** What the other tasks leave to the loop: they only report, and only while
    they run. *)
Record background (f f' : Fork) : Prop := {
  bg_deadline : fk_deadline f' = fk_deadline f;
  bg_timeout : fk_timeout f' = fk_timeout f;
  bg_call : fk_call_id f' = fk_call_id f;
  bg_received : fk_received f' = fk_received f;
  bg_last : fk_last_status f' = fk_last_status f;
  bg_winner : fk_winner_ws f' = fk_winner_ws f;
  bg_stage : fk_stage f' = fk_stage f;
  bg_legs : length (fk_legs f') = length (fk_legs f);
  bg_reports : exists more, fk_reports f' = fk_reports f ++ more;
  bg_over : forallb leg_over (fk_legs f) = true -> fk_legs f' = fk_legs f /\ fk_reports f' = fk_reports f
}.
#[export] Instance background_preorder : PreOrder background.
Proof.
  split.
  - intros f. split; try done. exists []. by rewrite app_nil_r.
  - intros a b c [] []. split; try congruence.
    + destruct bg_reports0 as [l1 H1], bg_reports1 as [l2 H2]. exists (l1 ++ l2). by rewrite H2, H1, <- app_assoc.
    + intros H. destruct (bg_over0 H) as [H1 H2]. rewrite <- H1 in H. destruct (bg_over1 H) as [H3 H4]. split; congruence.
Qed.

Lemma decided_more es es' f r : es ⊆ es' -> decided_by es f r -> decided_by es' f r.
Proof. intros Hs. destruct r; [done..|]. intros (Hw & Hf & Ht). split; [done|]. split; [done|]. destruct Ht as [|(t & Ht & Hd)]; eauto. Qed.

Lemma background_taken f f' : (fk_received f <= length (fk_reports f))%nat -> background f f' -> taken f' = taken f.
Proof. intros H []. destruct bg_reports0 as [more Hm]. unfold taken. rewrite bg_received0, Hm. by apply take_app_le. Qed.

Lemma background_decided es f f' r : (fk_received f <= length (fk_reports f))%nat -> background f f' -> decided_by es f r -> decided_by es f' r.
Proof.
  intros Hr Hb. pose proof (background_taken f f' Hr Hb) as Ht. destruct Hb.
  destruct r; cbn [decided_by]; rewrite Ht, ?bg_winner0, ?bg_last0, ?bg_legs0, ?bg_received0, ?bg_timeout0, ?bg_deadline0; try done.
  intros (Hw & Hl & Hf & He). do 3 (split; [done|]). destruct He as [|[|[Ho He]]]; eauto. destruct (bg_over0 Ho) as [-> ->]. eauto.
Qed.

Lemma collects_background es e f f' : background f f' -> collects es f -> collects (es ++ [e]) f'.
Proof.
  intros Hb [Hr Hl Hs]. pose proof (background_taken f f' Hr Hb) as Ht.
  pose proof (fun r => background_decided es f f' r Hr Hb) as Hd. destruct Hb, bg_reports0 as [more Hm]. split.
  - rewrite bg_received0, Hm, length_app. lia.
  - by rewrite Ht, bg_last0.
  - rewrite bg_stage0. destruct (fk_stage f); [by rewrite bg_winner0, bg_received0, bg_legs0, Ht|..];
      (apply (decided_more es); [by apply list_subseteq_app_l | by apply Hd]).
Qed.

(** ** A round of the loop *)

Lemma take_report_step (l : list LegResult) n r : l !! n = Some r -> take (S n) l = take n l ++ [r] /\ (S n <= length l)%nat.
Proof. intros H. split; [by apply take_S_r|]. apply lookup_lt_Some in H. lia. Qed.

Lemma taken_collected n last winner f : taken (set_collected n last winner f) = take n (fk_reports f).
Proof. done. Qed.

Lemma Forall_snoc {A} (P : A -> Prop) l x : Forall P l -> P x -> Forall P (l ++ [x]).
Proof. intros Hl Hx. apply Forall_app. auto. Qed.

(** What is left of a round once the report is counted. *)
Definition go_on (now : Z) (f : Fork) : Fork :=
  if (length (fk_legs f) <=? fk_received f)%nat then set_stage (Decided (AllFailed (fk_last_status f))) f
  else if fk_deadline f <=? now then set_stage (Decided ForkTimeout) f
  else f.

Record counted (f : Fork) : Prop := {
  ct_stage : fk_stage f = Collecting;
  ct_received : (fk_received f <= length (fk_reports f))%nat;
  ct_last : fk_last_status f = fold_left best_status (statuses (taken f)) None;
  ct_winner : fk_winner_ws f = None;
  ct_failures : Forall failure (taken f)
}.

Lemma collects_go_on es now f : counted f -> collects (es ++ [Poll now]) (go_on now f).
Proof.
  intros [Hs Hr Hl Hw Hf]. unfold go_on. destruct (Nat.leb_spec (length (fk_legs f)) (fk_received f)); [|destruct (Z.leb_spec (fk_deadline f) now)].
  - by split; [| |cbn; eauto].
  - split; [done..|]. cbn. do 2 (split; [done|]). right. exists now. split; [set_solver | done].
  - split; [done..|]. rewrite Hs. split; [done|]. split; [lia | done].
Qed.

Lemma counted_next es f r last :
  collects es f -> fk_stage f = Collecting -> fk_reports f !! fk_received f = Some r -> failure r ->
  last = fold_left best_status (option_list (status_of r)) (fk_last_status f) ->
  counted (set_collected (S (fk_received f)) last (fk_winner_ws f) f).
Proof.
  intros [_ Hl Hst] Hs Hr Hf ->. rewrite Hs in Hst.
  destruct Hst as (Hw & _ & Hfs). destruct (take_report_step _ _ _ Hr) as [Ht Hlen].
  split; cbn; [done | done | | done |]; rewrite ?taken_collected, Ht.
  - change (take (fk_received f) (fk_reports f)) with (taken f). by rewrite statuses_snoc, fold_left_app, <- Hl.
  - by apply Forall_snoc.
Qed.

Lemma collects_taken es now f r :
  collects es f -> fk_stage f = Collecting -> fk_reports f !! fk_received f = Some r -> collects (es ++ [Poll now]) (take_report r now f).
Proof.
  intros Hc Hs Hr. pose proof (fun last => counted_next es f r last Hc Hs Hr) as Hn.
  destruct r as [aor uri response h ws | aor status | aor]; cbn [take_report].
  - destruct (take_report_step _ _ _ Hr) as [Ht Hlen]. destruct Hc as [_ Hl Hst]. rewrite Hs in Hst. destruct Hst as (Hw & _ & Hfs).
    split; cbn; [done | |].
    + rewrite Ht, omap_app, app_nil_r. exact Hl.
    + split; [done|]. rewrite Ht. eauto.
  - specialize (Hn (best_status (fk_last_status f) status) I eq_refl). cbv zeta. destruct (in_range3 status 600 699) eqn:Hg.
    + destruct Hn as [_ Hrec Hlast Hwin Hfail]. split; cbn [set_stage fk_received fk_reports fk_last_status fk_stage]; [done | done|].
      cbn [decided_by]. do 3 (split; [done|]). right; left. destruct (take_report_step _ _ _ Hr) as [Ht _].
      exists (take (fk_received f) (fk_reports f)), (LegFailed aor status). rewrite <- Ht. done.
    + exact (collects_go_on es now _ Hn).
  - exact (collects_go_on es now _ (Hn (fk_last_status f) I eq_refl)).
Qed.

Lemma collects_wait es now f :
  collects es f -> fk_stage f = Collecting -> fk_reports f !! fk_received f = None -> collects (es ++ [Poll now]) (collect now f).
Proof.
  intros [Hr Hl Hst] Hs Hn. rewrite Hs in Hst. destruct Hst as (Hw & Hlt & Hf). unfold collect. rewrite Hn. apply lookup_ge_None in Hn.
  destruct (forallb leg_over (fk_legs f)) eqn:Ho; [|destruct (Z.leb_spec (fk_deadline f) now)].
  - split; [done..|]. cbn. do 3 (split; [done|]). right; right. split; [done | lia].
  - split; [done..|]. cbn. do 2 (split; [done|]). right. exists now. split; [set_solver | done].
  - split; [done..|]. by rewrite Hs.
Qed.

Lemma collects_cancel es e now f hs r h :
  collects es f -> fk_stage f = Cancelling r (h :: hs) -> e = Poll now -> collects (es ++ [e]) (set_stage (Cancelling r hs) (cancel_leg h f)).
Proof.
  intros [Hr Hl Hs] Hst ->. rewrite Hst in Hs. apply (decided_more _ (es ++ [Poll now])) in Hs; [|by apply list_subseteq_app_l].
  unfold cancel_leg. case_bool; by split.
Qed.

Lemma collects_poll es now f : collects es f -> collects (es ++ [Poll now]) (poll now f).
Proof.
  intros Hc. pose proof Hc as [Hr Hl Hs]. unfold poll. destruct (fk_stage f) as [|r|r [|h hs]|r] eqn:Hst.
  - destruct (fk_reports f !! fk_received f) eqn:Hn.
    + unfold collect. rewrite Hn. by apply collects_taken.
    + by apply collects_wait.
  - split; [done..|]. apply (decided_more es); [by apply list_subseteq_app_l | exact Hs].
  - split; [done..|]. apply (decided_more es); [by apply list_subseteq_app_l | exact Hs].
  - by eapply collects_cancel.
  - apply (collects_background es (Poll now) f); [reflexivity | done].
Qed.

(** ** What the other tasks do *)


Lemma not_all_over (l : list Leg) i x : l !! i = Some x -> leg_over x = false -> forallb leg_over l = false.
Proof.
  intros Hi Hx. apply not_true_is_false. rewrite forallb_forall. intros Hall. apply list_elem_of_lookup_2, list_elem_of_In, Hall in Hi. congruence.
Qed.

Lemma background_answers a f : background f (set_answers a f).
Proof. split; try done. exists []. by rewrite app_nil_r. Qed.
Lemma background_write o f : background f (write o f).
Proof. split; try done. exists []. by rewrite app_nil_r. Qed.
Lemma background_registry r f : background f (set_registry r f).
Proof. split; try done. exists []. by rewrite app_nil_r. Qed.
Lemma background_leg i ph l f : fk_legs f !! i = Some l -> leg_over l = false -> background f (set_leg i ph f).
Proof.
  intros Hi Hl. split; try done; cbn.
  - by rewrite length_alter.
  - exists []. by rewrite app_nil_r.
  - by rewrite (not_all_over _ _ _ Hi Hl).
Qed.
Lemma background_report i r l f : fk_legs f !! i = Some l -> leg_over l = false -> background f (report i r f).
Proof.
  intros Hi Hl. split; try done; cbn.
  - by rewrite length_alter.
  - by exists (option_list r).
  - by rewrite (not_all_over _ _ _ Hi Hl).
Qed.

Ltac backgrounds :=
  repeat first
    [ reflexivity
    | etransitivity; [|first
        [ apply background_answers | apply background_write | apply background_registry
        | eapply background_leg; [cbn; eassumption | eassumption]
        | eapply background_report; [cbn; eassumption | eassumption] ]] ].

Lemma web_step_background i l peer ws p inp f : fk_legs f !! i = Some l -> background f (web_step i l peer ws p inp f).
Proof.
  intros Hi. unfold web_step.
  assert (forall ph, lg_phase l = ph -> (forall r, ph <> Finished r) -> leg_over l = false) as Hl.
  { intros ph Hp Hn. unfold leg_over. destruct (lg_phase l) as [| | | | | | | r]; [done..|]. by destruct (Hn r). }
  destruct (lg_phase l) eqn:Hp, inp as [[?|] | ok now | [] media]; try reflexivity;
    pose proof (Hl _ eq_refl ltac:(done)) as Ho; clear Hl;
    repeat match goal with |- context [match ?x with _ => _ end] => destruct x eqn:? end; backgrounds.
Qed.

Lemma fork_step_collects es e f : collects es f -> collects (es ++ [e]) (fork_step f e).
Proof.
  intros Hc. destruct e as [now | i o | i inp | p id o | p]; cbn [fork_step].
  - by apply collects_poll.
  - apply (collects_background _ _ f); [|done]. destruct (fk_legs f !! i) as [l|] eqn:Hi; [|reflexivity].
    destruct (lg_phase l) eqn:Hp; try reflexivity. apply (background_report i _ l); [done|]. unfold leg_over. by rewrite Hp.
  - apply (collects_background _ _ f); [|done]. destruct (fk_legs f !! i) as [l|] eqn:Hi; [|reflexivity].
    destruct (lg_transport l); [reflexivity|]. by apply web_step_background.
  - apply (collects_background _ _ f); [apply background_answers | done].
  - apply (collects_background _ _ f); [apply background_answers | done].
Qed.

Lemma start_collects bindings call_id timeout now a : collects [] (fork_start bindings call_id timeout now a).
Proof.
  split; [cbn; lia | done|]. unfold fork_start. cbn [fk_stage]. case_bool; cbn.
  - rewrite length_map. apply Nat.eqb_eq in Hb. do 3 (split; [done|]). left. lia.
  - split; [done|]. split; [done|]. left. lia.
  - rewrite length_map. apply Nat.eqb_neq in Hb. split; [done|]. split; [lia | done].
Qed.

Lemma fork_run_collects es es' f : collects es f -> collects (es ++ es') (fork_run f es').
Proof.
  revert es f. induction es' as [|e es' IH]; intros es f Hc; [by rewrite app_nil_r|]. cbn [fork_run fold_left].
  change (e :: es') with ([e] ++ es'). rewrite app_assoc. by apply IH, fork_step_collects.
Qed.

(** ** Which browsers are told *)

(** The handles that are still to be cancelled. *)
Definition handles (f : Fork) : list WebRtcLegHandle :=
  reg_legs (fk_registry f) ++ match fk_stage f with Cancelling _ hs => hs | _ => [] end.
Definition covered (f : Fork) (ws : Z) : Prop :=
  ws ∈ map lh_ws (handles f) \/ Cancel ws (fk_call_id f) ∈ fk_out f \/ fk_winner_ws f = Some ws.
(** The leg of a session, with where it is. *)
Definition leg_at (f : Fork) (ws : Z) (ph : LegPhase) : Prop :=
  exists i l peer p, fk_legs f !! i = Some l /\ lg_transport l = WebRtc peer ws p /\ lg_phase l = ph.

Record covers (f : Fork) : Prop := {
  cv_offer : forall ws c sdp, Offer ws c sdp ∈ fk_out f -> covered f ws;
  cv_leg : forall ws offer shot, leg_at f ws (WebRegistered offer shot) -> covered f ws;
  cv_cancel : forall ws c, Cancel ws c ∈ fk_out f ->
    (fk_stage f <> Collecting /\ fk_winner_ws f <> Some ws) \/ exists aor, leg_at f ws (Finished (Some (LegErrored aor)));
  cv_report : forall aor uri response h ws, Established aor uri response h (Some ws) ∈ fk_reports f ->
    leg_at f ws (Finished (Some (Established aor uri response h (Some ws))));
  cv_open : fk_stage f = Collecting -> fk_winner_ws f = None;
  cv_closed : (exists r, fk_stage f = Returned r \/ exists hs, fk_stage f = Cancelling r hs) ->
    reg_legs (fk_registry f) = [] /\ (reg_closed (fk_registry f) = true \/ fk_legs f = [])
}.

Lemma leg_at_set i ph f l ws ph' : fk_legs f !! i = Some l ->
  leg_at (set_leg i ph f) ws ph' -> leg_at f ws ph' \/ (ph' = ph /\ exists peer p, lg_transport l = WebRtc peer ws p).
Proof.
  intros Hi (j & l' & peer & p & Hj & Ht & Hp). cbn in Hj. destruct (decide (j = i)) as [-> | Hne].
  - rewrite list_lookup_alter_eq, Hi in Hj. injection Hj as <-. cbn in Ht, Hp. eauto.
  - rewrite list_lookup_alter_ne in Hj by congruence. left. by exists j, l', peer, p.
Qed.
Lemma leg_at_keep i ph f l ws r : fk_legs f !! i = Some l -> leg_over l = false ->
  leg_at f ws (Finished r) -> leg_at (set_leg i ph f) ws (Finished r).
Proof.
  intros Hi Ho (j & l' & peer & p & Hj & Ht & Hp). assert (j <> i) as Hne.
  { intros ->. unfold leg_over in Ho. rewrite Hi in Hj. injection Hj as ->. by rewrite Hp in Ho. }
  exists j, l', peer, p. cbn. by rewrite list_lookup_alter_ne by congruence.
Qed.
Lemma leg_at_new i ph f l peer ws p : fk_legs f !! i = Some l -> lg_transport l = WebRtc peer ws p -> leg_at (set_leg i ph f) ws ph.
Proof.
  intros Hi Ht. eexists i, _, peer, p. cbn. rewrite list_lookup_alter_eq, Hi. split; [reflexivity | done].
Qed.

(** Steps that write nothing and do not register. *)
Lemma covers_answers a f : covers f -> covers (set_answers a f).
Proof. intros []. by split. Qed.

Section leg_steps.
Context (f : Fork) (i : nat) (l : Leg) (Hi : fk_legs f !! i = Some l) (Ho : leg_over l = false) (Hc : covers f).

Lemma legs_left : fk_legs f <> [].
Proof using Hi. intros H. by rewrite H in Hi. Qed.

Lemma covers_move ph :
  (forall r, ph <> Finished r) -> (forall peer ws p offer shot, lg_transport l = WebRtc peer ws p -> ph = WebRegistered offer shot -> covered f ws) ->
  covers (set_leg i ph f).
Proof using Hi Ho Hc.
  intros Hn Hreg. destruct Hc as [H1 H2 H3 H4 H5 H6]. split.
  - exact H1.
  - intros ws offer shot [H | (Heq & peer & p & Ht)]%(leg_at_set _ _ _ l); [by eapply H2 | by eapply Hreg | done].
  - intros ws c H. destruct (H3 ws c H) as [|[aor Ha]]; [by left|]. right. exists aor. by eapply leg_at_keep.
  - intros. by eapply leg_at_keep; [..|apply H4].
  - exact H5.
  - intros H. destruct (H6 H) as [Hr [Hcl | Hl]]; [by split; [|left]|]. by destruct legs_left.
Qed.

Lemma covers_report r :
  (forall aor uri response h ws, r = Some (Established aor uri response h (Some ws)) -> exists peer p, lg_transport l = WebRtc peer ws p) ->
  covers (report i r f).
Proof using Hi Ho Hc.
  intros Hr. destruct Hc as [H1 H2 H3 H4 H5 H6]. split.
  - exact H1.
  - intros ws offer shot [H | (Heq & _)]%(leg_at_set i (Finished r) f l); [by eapply H2 | done | done].
  - intros ws c H. destruct (H3 ws c H) as [|[aor Ha]]; [by left|]. right. exists aor. by apply (leg_at_keep i (Finished r) f l).
  - intros aor uri response h ws [H | H]%elem_of_app.
    + by apply (leg_at_keep i (Finished r) f l), H4.
    + destruct r as [r|]; [|by apply elem_of_nil in H]. apply list_elem_of_singleton in H as <-.
      edestruct Hr as (peer & p & Ht); [done|]. by apply (leg_at_new i (Finished _) f l peer ws p).
  - exact H5.
  - intros H. destruct (H6 H) as [Hre [Hcl | Hl]]; [by split; [|left]|]. by destruct legs_left.
Qed.
End leg_steps.

Lemma covered_write o f ws : covered f ws -> covered (write o f) ws.
Proof. intros [H | [H | H]]; [by left | right; left; apply elem_of_app; by left | by right; right]. Qed.

Lemma covers_write o f :
  covers f -> (forall ws c sdp, o = Offer ws c sdp -> covered f ws) ->
  (forall ws c, o = Cancel ws c ->
    (fk_stage f <> Collecting /\ fk_winner_ws f <> Some ws) \/ exists aor, leg_at f ws (Finished (Some (LegErrored aor)))) ->
  covers (write o f).
Proof.
  intros [H1 H2 H3 H4 H5 H6] Ho Hc. split; [| | |exact H4 | exact H5 | exact H6].
  - intros ws c sdp [H | H]%elem_of_app; apply covered_write; [by eapply H1|]. apply list_elem_of_singleton in H as <-. by eapply Ho.
  - intros ws offer shot H. by eapply covered_write, H2.
  - intros ws c [H | H]%elem_of_app; [by eapply H3|]. apply list_elem_of_singleton in H as <-. by eapply Hc.
Qed.

Lemma covers_register f h i l : fk_legs f !! i = Some l -> reg_closed (fk_registry f) = false -> covers f ->
  let f' := set_registry (mkLegs (reg_legs (fk_registry f) ++ [h]) false) f in covers f' /\ covered f' (lh_ws h).
Proof.
  intros Hi Hcl [H1 H2 H3 H4 H5 H6] f'.
  assert (forall ws, covered f ws -> covered f' ws) as Hmono.
  { intros ws [H | H]; [|by right]. left. unfold handles in H |- *. cbn. rewrite map_app, elem_of_app in H. rewrite !map_app, !elem_of_app.
    destruct H; [left; by left | by right]. }
  split.
  - split; [| |exact H3 | exact H4 | exact H5|].
    + intros ws c sdp H. by eapply Hmono, H1.
    + intros ws offer shot H. by eapply Hmono, H2.
    + intros H. destruct (H6 H) as [_ [H' | H']]; [congruence|]. by rewrite H' in Hi.
  - left. unfold handles. cbn. rewrite !map_app, !elem_of_app. left; right. by left.
Qed.

(** ** The steps *)

Lemma web_step_covers i l peer ws p inp f :
  fk_legs f !! i = Some l -> lg_transport l = WebRtc peer ws p -> covers f -> covers (web_step i l peer ws p inp f).
Proof.
  intros Hi Ht Hc. unfold web_step.
  assert (forall ph, lg_phase l = ph -> (forall r, ph <> Finished r) -> leg_over l = false) as Hl.
  { intros ph Hp Hn. unfold leg_over. destruct (lg_phase l) as [| | | | | | | r]; [done..|]. by destruct (Hn r). }
  assert (forall f', covers f' -> fk_legs f' !! i = Some l -> leg_over l = false -> covers (report i (Some (LegErrored (lg_aor l))) f')) as Herr.
  { intros f' Hc' Hi' Ho. by apply (covers_report f' i l). }
  destruct (lg_phase l) eqn:Hp, inp as [[sdp|] | ok now | ok media]; try exact Hc;
    pose proof (Hl _ eq_refl ltac:(done)) as Ho; clear Hl.
  - by apply (covers_move f i l).
  - by apply Herr.
  - cbn. apply (covers_move _ i l); [done | done | by apply covers_answers | done..].
  - unfold try_register_webrtc_leg. destruct (reg_closed (fk_registry f)) eqn:Hcl; cbn zeta iota beta.
    + change (covers (write (Cancel ws (fk_call_id f)) (report i (Some (LegErrored (lg_aor l))) (set_answers (pending_cancel (fk_answers f) p (fk_call_id f)) f)))).
      apply covers_write; [by apply Herr; [apply covers_answers|..] | done|]. intros ? ? [= <- <-]. right. exists (lg_aor l).
      by apply (leg_at_new i (Finished (Some (LegErrored (lg_aor l)))) f l peer ws p).
    + destruct (covers_register f (mkHandle ws p) i l Hi Hcl Hc) as [Hc' Hcov].
      apply (covers_move _ i l); [done | done | done | done|]. intros peer' ws' p' ? ? Ht' _. rewrite Ht in Ht'. by injection Ht' as -> -> ->.
  - destruct ok.
    + apply (covers_move _ i l); [done | done | | done | done]. apply covers_write; [done | | done]. intros ? ? ? [= <- <- <-].
      apply (cv_leg f Hc ws offer shot). by exists i, l, peer, p.
    + apply Herr; [by apply covers_answers | done | done].
  - destruct (shots (fk_answers f) !! shot) as [[| [answer | status] | |]|]; [case_bool | | | | |]; try (by apply Herr).
    + by apply (covers_report _ i l); [| |apply covers_answers|].
    + exact Hc.
    + by apply (covers_move _ i l).
    + by apply (covers_report _ i l).
  - destruct ok.
    + apply (covers_report f i l); [done | done | done|]. intros aor uri response h ws' Hw. unfold webrtc_answer in Hw.
      destruct (convert_savpf_to_avp answer) as [b | e |]; [..|done]; injection Hw as <- <- <- <- <-; eauto.
    + apply Herr; [|done | done]. by apply covers_write.
Qed.

(** A round of the loop leaves the legs alone. *)
Record round (f f' : Fork) : Prop := {
  ro_legs : fk_legs f' = fk_legs f;
  ro_call : fk_call_id f' = fk_call_id f;
  ro_registry : fk_registry f' = fk_registry f;
  ro_reports : fk_reports f' = fk_reports f;
  ro_out : fk_out f' = fk_out f;
  ro_stage : (fk_stage f' = Collecting /\ fk_winner_ws f' = fk_winner_ws f) \/ exists r, fk_stage f' = Decided r
}.

Lemma collect_round now f : fk_stage f = Collecting -> round f (collect now f).
Proof.
  intros Hs. unfold collect. destruct (fk_reports f !! fk_received f) as [[| aor status | aor]|]; cbn [take_report];
    case_bool; split; cbn; try done; eauto.
Qed.

Lemma covers_round f f' : fk_stage f = Collecting -> round f f' -> covers f -> covers f'.
Proof.
  intros Hs [R1 R2 R3 R4 R5 R6] [H1 H2 H3 H4 H5 H6].
  assert (forall ws ph, leg_at f ws ph <-> leg_at f' ws ph) as Hleg by (intros; unfold leg_at; by rewrite R1).
  assert (forall ws, covered f ws -> covered f' ws) as Hmono.
  { intros ws [H | [H | H]]; [left | right; left | by rewrite (H5 Hs) in H].
    - unfold handles in H |- *. rewrite R3. rewrite Hs in H. by destruct R6 as [[-> _] | [r ->]].
    - by rewrite R5, R2. }
  split.
  - intros ws c sdp H. rewrite R5 in H. by eapply Hmono, H1.
  - intros ws offer shot H. by eapply Hmono, H2, Hleg.
  - intros ws c H. rewrite R5 in H. destruct (H3 ws c H) as [[? _] | [aor Ha]]; [done|]. right. exists aor. by apply Hleg.
  - intros. rewrite R4 in *. by apply Hleg, H4.
  - intros H. destruct R6 as [[_ ->] | [r Hr]]; [by apply H5 | congruence].
  - intros [r [H | [hs H]]]; destruct R6 as [[? _] | [? ?]]; congruence.
Qed.

Lemma covers_stage f s reg : covers f -> fk_stage f <> Collecting -> s <> Collecting ->
  (forall ws, covered f ws -> covered (set_stage s (set_registry reg f)) ws) ->
  reg_legs reg = [] -> reg_closed reg = true \/ fk_legs f = [] -> covers (set_stage s (set_registry reg f)).
Proof.
  intros [H1 H2 H3 H4 H5 H6] Hn Hs Hmono Hr Hcl. split; [| | |exact H4 | done | done].
  - intros ws c sdp H. by eapply Hmono, H1.
  - intros ws offer shot H. by eapply Hmono, H2.
  - intros ws c H. destruct (H3 ws c H) as [[_ ?]|]; [by left | by right].
Qed.

Lemma covers_poll now f : covers f -> covers (poll now f).
Proof.
  intros Hc. unfold poll. destruct (fk_stage f) as [|r|r [|h hs]|r] eqn:Hs; [|cbn zeta..|exact Hc].
  - by apply (covers_round f); [|apply collect_round|].
  - unfold close_and_drain_webrtc_legs. apply covers_stage; [done | congruence | done | | done | by left]. intros ws [H | H]; [left | by right].
    unfold handles in H |- *. by rewrite Hs, app_nil_r in H.
  - destruct (cv_closed f Hc ltac:(eauto)) as [Hr Hcl]. apply (covers_stage f (Returned r) (fk_registry f)); [done | congruence | done | | done..].
    intros ws [H | H]; [left | by right]. unfold handles in H |- *. by rewrite Hs in H.
  - destruct (cv_closed f Hc ltac:(eauto)) as [Hr Hcl]. unfold cancel_leg. case_bool.
    + apply bool_decide_eq_true in Hb. apply (covers_stage f (Cancelling r hs) (fk_registry f)); [done | congruence | done | | done..].
      intros ws [H | H]; [|by right]. unfold covered, handles in H |- *. rewrite Hs, Hr in H. cbn in H |- *. rewrite Hr.
      apply elem_of_cons in H as [-> | H]; [by right; right | by left].
    + apply bool_decide_eq_false in Hb. set (a := pending_cancel _ _ _). set (g := write _ (set_answers a f)).
      assert (covers g) as Hg.
      { apply covers_write; [by apply covers_answers | done|]. intros ? ? [= <- <-]. left. split; [cbn; congruence | done]. }
      apply (covers_stage g (Cancelling r hs) (fk_registry g)); [done | cbn; congruence | done | | done..].
      intros ws [H | H]; [|by right]. unfold covered, handles in H |- *. cbn in H |- *. rewrite Hs in H. rewrite Hr in H |- *. cbn in H |- *.
      apply elem_of_cons in H as [-> | H]; [|by left]. right; left. apply elem_of_app. right. by left.
Qed.

Lemma fork_step_covers f e : covers f -> covers (fork_step f e).
Proof.
  intros Hc. destruct e as [now | i o | i inp | p id o | p]; cbn [fork_step].
  - by apply covers_poll.
  - destruct (fk_legs f !! i) as [l|] eqn:Hi; [|done]. destruct (lg_phase l) eqn:Hp; try done.
    apply (covers_report f i l); [done | unfold leg_over; by rewrite Hp | done|]. by destruct o.
  - destruct (fk_legs f !! i) as [l|] eqn:Hi; [|done]. destruct (lg_transport l) eqn:Ht; [done|]. by apply web_step_covers.
  - by apply covers_answers.
  - by apply covers_answers.
Qed.

Lemma start_covers bindings call_id timeout now a : covers (fork_start bindings call_id timeout now a).
Proof.
  split; cbn [fork_start fk_out fk_reports fk_winner_ws fk_registry fk_legs fk_stage].
  - intros ? ? ? H. by apply elem_of_nil in H.
  - intros ws offer shot (i & l & peer & p & Hi & Ht & Hp). exfalso. cbn in Hi. rewrite list_lookup_fmap in Hi.
    destruct (bindings !! i) as [[aor b]|]; [|done]. injection Hi as <-. cbn in Hp, Ht. by rewrite Ht in Hp.
  - intros ? ? H. by apply elem_of_nil in H.
  - intros ? ? ? ? ? H. by apply elem_of_nil in H.
  - done.
  - intros [r H]. split; [done|]. revert H. case_bool; intros [[=] | [? [=]]]. right. apply Nat.eqb_eq, nil_length_inv in Hb. by subst.
Qed.
Lemma fork_run_covers f es : covers f -> covers (fork_run f es).
Proof. revert f. induction es as [|e es IH]; intros f Hc; [done|]. by apply IH, fork_step_covers. Qed.

(** The sessions of the legs stay what they are. *)
Definition session_of (t : ExtTransport) : option Z := match t with WebRtc _ ws _ => Some ws | Sip => None end.
Definition sessions (f : Fork) : list Z := omap (fun l => session_of (lg_transport l)) (fk_legs f).

Lemma sessions_alter ph i (l : list Leg) :
  omap (fun l => session_of (lg_transport l)) (alter (fun l => mkLeg (lg_aor l) (lg_uri l) (lg_transport l) ph) i l) =
  omap (fun l => session_of (lg_transport l)) l.
Proof. revert i. induction l as [|x l IH]; intros [|i]; [done..|]. cbn. by rewrite IH. Qed.

Lemma one_leg f ws ph ph' : NoDup (sessions f) -> leg_at f ws ph -> leg_at f ws ph' -> ph = ph'.
Proof.
  unfold sessions. intros Hnd (i & l & peer & p & Hi & Ht & Hp) (j & l' & peer' & p' & Hj & Ht' & Hp'). revert i j Hnd Hi Hj.
  induction (fk_legs f) as [|x ls IH]; intros i j Hnd Hi Hj; [done|]. cbn in Hnd.
  assert (forall k y q r, ls !! k = Some y -> lg_transport y = WebRtc q ws r -> ws ∈ omap (fun l => session_of (lg_transport l)) ls) as Hin.
  { intros k y q r Hk Hy. apply list_elem_of_omap. exists y. split; [by eapply list_elem_of_lookup_2 | by rewrite Hy]. }
  destruct i as [|i], j as [|j]; cbn in Hi, Hj.
  - congruence.
  - injection Hi as ->. rewrite Ht in Hnd. apply NoDup_cons in Hnd as [Hn _]. destruct Hn. by eapply Hin.
  - injection Hj as ->. rewrite Ht' in Hnd. apply NoDup_cons in Hnd as [Hn _]. destruct Hn. by eapply Hin.
  - apply (IH i j); [|done..]. destruct (session_of (lg_transport x)); [by apply NoDup_cons in Hnd as [_ ?] | done].
Qed.

(** What a step may do to the legs. *)
Record same_sessions (f f' : Fork) : Prop := {
  ss_sessions : sessions f' = sessions f;
  ss_call : fk_call_id f' = fk_call_id f;
  ss_timeout : fk_timeout f' = fk_timeout f;
  ss_deadline : fk_deadline f' = fk_deadline f
}.
#[export] Instance same_sessions_preorder : PreOrder same_sessions.
Proof. split; [done | intros a b c [] []]. split; congruence. Qed.

Lemma web_step_sessions i l peer ws p inp f : same_sessions f (web_step i l peer ws p inp f).
Proof.
  unfold web_step. destruct (lg_phase l), inp as [[sdp|] | ok now | [] media];
    repeat match goal with |- context [match ?x with _ => _ end] => destruct x end; split; try done; apply sessions_alter.
Qed.
Lemma poll_sessions now f : same_sessions f (poll now f).
Proof.
  unfold poll. destruct (fk_stage f) as [|r|r [|h hs]|r] eqn:Hs; try done.
  - destruct (collect_round now f Hs) as [R1 R2 _ _ _ _]. split; [unfold sessions; by rewrite R1 | done | |].
    all: unfold collect; destruct (fk_reports f !! fk_received f) as [[]|]; cbn [take_report]; by case_bool.
  - unfold cancel_leg. by case_bool.
Qed.
Lemma fork_run_sessions f es : same_sessions f (fork_run f es).
Proof.
  revert f. induction es as [|e es IH]; intros f; [done|]. etransitivity; [|apply IH].
  destruct e as [now | i o | i inp | p id o | p]; cbn [fork_step]; [apply poll_sessions | | |done..].
  - destruct (fk_legs f !! i) as [l|]; [|done]. destruct (lg_phase l); try done. split; [apply sessions_alter | done..].
  - destruct (fk_legs f !! i) as [l|]; [|done]. destruct (lg_transport l); [done|]. apply web_step_sessions.
Qed.

Lemma start_sessions bindings call_id timeout now a :
  sessions (fork_start bindings call_id timeout now a) = omap (fun b => session_of (transport b.2)) bindings.
Proof.
  unfold sessions, fork_start. cbn [fk_legs]. induction bindings as [|[aor b] l IH]; [done|]. cbn [map omap list_omap start_leg lg_transport].
  cbn. destruct (session_of (transport b)); [by f_equal | done].
Qed.

(** The result has the reports for it, in the order they came. *)
Definition reports_for (f : Fork) (r : ForkResult) : Prop :=
  exists got rest, fk_reports f = got ++ rest /\
  match r with
  | Answered winner_uri response h ws =>
      exists before aor, got = before ++ [Established aor winner_uri response h ws] /\ Forall failure before
  | AllFailed last =>
      Forall failure got /\ reported_status got last /\
      ((length (fk_legs f) <= length got)%nat \/ (exists before x, got = before ++ [x] /\ global_failure x) \/
       (forallb leg_over (fk_legs f) = true /\ rest = []))
  | ForkTimeout => Forall failure got
  end.

Lemma collects_reports es f r : collects es f -> decided_by es f r -> reports_for f r.
Proof.
  intros [Hr Hl _] Hd. exists (taken f), (drop (fk_received f) (fk_reports f)). split; [by unfold taken; rewrite take_drop|].
  assert (length (taken f) = fk_received f) as Hlen by (unfold taken; rewrite length_take; lia).
  destruct r as [uri response h ws | last |]; cbn [decided_by] in Hd.
  - by destruct Hd as [_ Hd].
  - destruct Hd as (_ & -> & Hf & He). split; [done|]. split.
    + unfold reported_status. rewrite Hl. apply best_fold.
    + rewrite Hlen. destruct He as [|[|[Ho He]]]; [by left | by right; left|]. right; right. split; [done|]. rewrite He. apply drop_all.
  - by destruct Hd as (_ & Hf & _).
Qed.

(** C8: However the tasks of the legs, the browsers and the fork itself interleave,
    what an incoming call's fork returns is right: the first leg whose answer
    arrives wins; a failed fork reports the earliest status of the highest class,
    and gives up early only on a 6xx or when no leg is left; it times out only at
    its deadline. By then every browser that was offered the call is the winner or
    was told to stop ringing, and, when the bindings are of different sessions,
    the winner was not. *)
Theorem fork_settles (bindings : list (string * Binding)) (call_id : string) (timeout now : Z) (a : PendingAnswers) (es : list ForkEvent) (r : ForkResult)
    (Hr : fk_stage (fork_run (fork_start bindings call_id timeout now a) es) = Returned r) :
  let f := fork_run (fork_start bindings call_id timeout now a) es in
  let winner := match r with Answered _ _ _ ws => ws | _ => None end in
  reports_for f r /\
  (r = ForkTimeout -> timeout = 0 \/ exists t, Poll t ∈ es /\ now + timeout <= t) /\
  (forall ws c sdp, Offer ws c sdp ∈ fk_out f -> winner = Some ws \/ Cancel ws call_id ∈ fk_out f) /\
  (NoDup (omap (fun b => session_of (transport b.2)) bindings) -> forall ws c, winner = Some ws -> ~ Cancel ws c ∈ fk_out f).
Proof.
  intros f winner. pose proof (fork_run_collects [] es _ (start_collects bindings call_id timeout now a)) as Hco. cbn [app] in Hco.
  pose proof (fork_run_covers _ es (start_covers bindings call_id timeout now a)) as Hcv.
  destruct (fork_run_sessions (fork_start bindings call_id timeout now a) es) as [Hses Hid Hto Hdl]. fold f in Hr, Hco, Hcv, Hses, Hid, Hto, Hdl.
  pose proof (co_stage _ _ Hco) as Hd. rewrite Hr in Hd. pose proof (collects_reports es f r Hco Hd) as Hrep.
  assert (fk_winner_ws f = winner) as Hw by (subst winner; destruct r; by destruct Hd as [-> _]).
  split; [done|]. split; [|split].
  - intros ->. destruct Hd as (_ & _ & Hd). by rewrite Hto, Hdl in Hd.
  - intros ws c sdp H. destruct (cv_offer f Hcv _ _ _ H) as [H' | [H' | H']]; [|by right; rewrite Hid in H' | left; congruence].
    unfold handles in H'. rewrite Hr in H'. destruct (cv_closed f Hcv ltac:(eauto)) as [Hn _]. rewrite Hn in H'. by apply elem_of_nil in H'.
  - intros Hnd ws c Hws Hin. rewrite <- start_sessions with (call_id := call_id) (timeout := timeout) (now := now) (a := a), <- Hses in Hnd.
    destruct (cv_cancel f Hcv ws c Hin) as [[_ Hne] | [aor Ha]]; [congruence|]. subst winner. destruct r as [uri response h ws' | |]; [|done..].
    rewrite Hws in Hrep. destruct Hrep as (got & rest & Hreps & before & aor' & Hgot & _).
    assert (Established aor' uri response h (Some ws) ∈ fk_reports f) as He by (rewrite Hreps, Hgot, !elem_of_app; left; right; by left).
    apply (cv_report f Hcv) in He. by pose proof (one_leg f ws _ _ Hnd Ha He).
Qed.

(** ** The fork returns *)

Lemma poll_leaves now f : fk_deadline f <= now -> fk_stage f = Collecting -> exists r, fk_stage (poll now f) = Decided r.
Proof.
  intros Hd Hs. unfold poll. rewrite Hs. unfold collect. apply Z.leb_le in Hd.
  destruct (fk_reports f !! fk_received f) as [[| aor status | aor]|]; cbn [take_report]; cbn; rewrite ?Hd; case_bool; eauto.
Qed.
Lemma run_poll now n f : fork_run f (replicate (S n) (Poll now)) = fork_run (poll now f) (replicate n (Poll now)).
Proof. done. Qed.
Lemma poll_cancels now hs : forall r f, fk_stage f = Cancelling r hs ->
  fk_stage (fork_run f (replicate (S (length hs)) (Poll now))) = Returned r.
Proof. induction hs as [|h hs IH]; intros r f Hs; rewrite run_poll; unfold poll; rewrite Hs; [done|]. by apply IH. Qed.
Lemma poll_drains now r f : fk_stage f = Decided r ->
  fk_stage (fork_run f (replicate (2 + length (reg_legs (fk_registry f))) (Poll now))) = Returned r.
Proof. intros Hs. cbn [Nat.add]. rewrite run_poll. unfold poll. rewrite Hs. by apply poll_cancels. Qed.

(** From any state a fork can reach, it returns after its deadline, whatever
    the telephones and browsers do: it needs as many steps as there are browsers
    to be told, and three more. *)
Theorem fork_returns (f : Fork) (t : Z) (Ht : fk_deadline f <= t) :
  exists r n, (n <= 3 + length (handles f))%nat /\ fk_stage (fork_run f (replicate n (Poll t))) = Returned r.
Proof.
  unfold handles. rewrite length_app. destruct (fk_stage f) as [|r|r hs|r] eqn:Hs.
  - destruct (poll_leaves t f Ht Hs) as [r Hr]. exists r, (3 + length (reg_legs (fk_registry f)))%nat. split; [lia|].
    assert (fk_registry (poll t f) = fk_registry f) as Hreg by (unfold poll; rewrite Hs; by apply collect_round).
    cbn [Nat.add]. rewrite run_poll, <- Hreg. by apply poll_drains.
  - exists r, (2 + length (reg_legs (fk_registry f)))%nat. split; [lia|]. by apply poll_drains.
  - exists r, (S (length hs)). split; [lia|]. by apply poll_cancels.
  - exists r, 0%nat. split; [lia | done].
Qed.

(** ** Runs *)

Definition phone : string * Binding := ("100", mkBinding "sip:100@192.168.0.5" (NetAddr.mkAddr (NetAddr.V4 192 168 0 5) 5060) 3600 Sip).
Definition tab (n : Z) : string * Binding :=
  ("20" +:+ print_uint n, mkBinding ("sip:20" +:+ print_uint n) (NetAddr.mkAddr (NetAddr.V4 192 168 0 6) 443) 3600 (WebRtc n n n)).
(** A browser's leg up to its offer; up to its registration. *)
Definition registered (i : nat) : list ForkEvent := [WebLeg i (OfferMade (Some "v=0")); WebLeg i (Go true 0); WebLeg i (Go true 0)].
Definition ring (i : nat) : list ForkEvent := registered i ++ [WebLeg i (Go true 0)].

(** Of two browsers the second answers: the first is told. *)
Definition answered_run : list ForkEvent :=
  ring 0 ++ ring 1 ++ [Browser 2 "call" (AnswerSdp "v=0"); WebLeg 1 (Go true 1); WebLeg 1 (AnswerTaken true true); Poll 2; Poll 2; Poll 2; Poll 2; Poll 2].
Lemma fork_settles_witness :
  let f := fork_run (fork_start [tab 1; tab 2] "call" 30 0 pending_new) answered_run in
  exists response h, fk_stage f = Returned (Answered "sip:202" response h (Some 2)) /\
    fk_out f = [Offer 1 "call" "v=0"; Offer 2 "call" "v=0"; Cancel 1 "call"] /\
    (forall c, ~ Cancel 2 c ∈ fk_out f).
Proof.
  eexists _, _. split; [vm_compute; reflexivity|]. split; [vm_compute; reflexivity|]. intros c.
  refine (proj2 (proj2 (proj2 (fork_settles [tab 1; tab 2] "call" 30 0 pending_new answered_run _ _))) _ 2 c _).
  - vm_compute. reflexivity.
  - vm_compute. apply NoDup_cons. split; [|apply NoDup_singleton]. intros H. apply list_elem_of_singleton in H. discriminate.
  - reflexivity.
Defined.
Lemma fork_returns_witness :
  exists r n, (n <= 5)%nat /\
    fk_stage (fork_run (fork_run (fork_start [tab 1; tab 2] "call" 30 0 pending_new) (ring 0 ++ ring 1)) (replicate n (Poll 30))) = Returned r.
Proof. refine (fork_returns (fork_run (fork_start [tab 1; tab 2] "call" 30 0 pending_new) (ring 0 ++ ring 1)) 30 _). vm_compute. discriminate. Defined.

(** A leg registers and sends its offer in two steps: when the fork ends between
    them, the browser is told to stop before it is offered the call, and then rings. *)
Lemma offer_after_cancel :
  let f := fork_run (fork_start [phone; tab 1] "call" 30 0 pending_new)
    (registered 1 ++ [SipLeg 0 (InvFailed 603); Poll 1; Poll 1; Poll 1; Poll 1; WebLeg 1 (Go true 1); WebLeg 1 (Go true 1)]) in
  fk_stage f = Returned (AllFailed (Some 603)) /\ fk_out f = [Cancel 1 "call"; Offer 1 "call" "v=0"] /\
  forallb leg_over (fk_legs f) = true.
Proof. by vm_compute. Qed.

(** A second telephone that answers is left in its call. *)
Lemma second_answer_kept_up :
  let ok := mkResponse 200 "OK" [] "" in
  let f := fork_run (fork_start [phone; phone] "call" 30 0 pending_new)
    [SipLeg 0 (InvEstablished ok); SipLeg 1 (InvEstablished ok); Poll 1; Poll 1; Poll 1] in
  fk_stage f = Returned (Answered "sip:100@192.168.0.5" ok None None) /\ fk_out f = [] /\ forallb leg_over (fk_legs f) = true.
Proof. by vm_compute. Qed.


(** When the future of the fork is dropped, as the CANCEL of the NGN does, the
    tasks of the legs go on and none of them tells a browser to stop: it rings on. *)
Definition cancels (f : Fork) : list ForkOutput := List.filter (fun o => match o with Cancel _ _ => true | _ => false end) (fk_out f).

Lemma dropped_web_step i l peer ws p inp f : reg_closed (fk_registry f) = false ->
  let f' := web_step i l peer ws p inp f in reg_closed (fk_registry f') = false /\ cancels f' = cancels f.
Proof.
  intros Ho. assert (forall o, match o with Cancel _ _ => False | _ => True end -> List.filter (fun o => match o with Cancel _ _ => true | _ => false end) (fk_out f ++ [o]) = cancels f) as Hw.
  { intros o Hno. rewrite List.filter_app. unfold cancels. destruct o; try done; apply app_nil_r. }
  unfold web_step, try_register_webrtc_leg. rewrite Ho.
  repeat match goal with |- context [match ?x with _ => _ end] => destruct x end; split; try done; by apply Hw.
Qed.

Lemma dropped_fork_never_cancels es : forall f, reg_closed (fk_registry f) = false -> (forall now, Poll now ∉ es) ->
  cancels (fork_run f es) = cancels f.
Proof.
  induction es as [|e es IH]; intros f Ho Hno; cbn [fork_run fold_left]; [done|].
  assert (reg_closed (fk_registry (fork_step f e)) = false /\ cancels (fork_step f e) = cancels f) as [Ho' <-].
  { destruct e as [now | i o | i inp | |]; [by destruct (Hno now); left | | | done..]; cbn [fork_step].
    - destruct (fk_legs f !! i) as [l|]; [|done]. by destruct (lg_phase l).
    - destruct (fk_legs f !! i) as [l|]; [|done]. destruct (lg_transport l); [done|]. by apply dropped_web_step. }
  apply IH; [done|]. intros now. specialize (Hno now). set_solver.
Qed.
