(* ===== verification/Inbound.v ===== *)
(** Calls from the NGN to the extensions (NgnInboundHandler of
    src/src/call/orchestrator.rs).

    The handler of an INVITE waits for the fork ([Fork]) and, when its 180 was
    reliable, for the PRACK; what it does between two waits is a step here, and
    every other handler may run in between. A browser that goes away is handled
    in two steps: its calls leave the table, and then each is ended with a BYE of
    which the answer is awaited. The other handlers are one step each. *)
From S2P Require Import Prelude RustStr Dtmf NetAddr SipMessage SipUtils Transaction Dialog TuProg Registrar MessageLog Uas Uac.
From S2P Require Import Sdp SdpRewrite SdpAnswer CallLog Observability Routing Transcoder Bridge Calls SipFields Handler Fork.

(** ** Reliable provisional responses *)

Module Reliable.
Definition T1 : Z := from_millis 500.
Definition T2 : Z := from_secs 4.
Definition TIMER_LIMIT : Z := from_secs 32.

(** The task that sends a reliable 18x again; [r_due] is the end of its sleep. *)
Record Retransmit := mkRetransmit { r_started : Z; r_interval : Z; r_due : Z }.
Definition spawn_reliable_provisional_retransmit (now : Z) : Retransmit := mkRetransmit now T1 (now + T1).
(** It wakes at [now]; whether it tries to send, and what it goes on with. *)
Definition retransmit_wake (r : Retransmit) (now : Z) (ok : bool) : bool * option Retransmit :=
  if now <? r_due r then (false, Some r)
  else if TIMER_LIMIT <=? now - r_started r then (false, None)
  else if ok then
    let interval := Z.min (r_interval r * 2) T2 in (true, Some (mkRetransmit (r_started r) interval (now + interval)))
  else (true, None).
Definition random_initial_rseq (r : Z) : Z := 1 + r mod 0x7FFFFFFF.
End Reliable.
Import Reliable.

(** [rc_id] is the identity of the object: the one-shot channel is its, and the
    task of the INVITE keeps its receiver. *)
Record Rc100relState := mkRc {
  rc_id : nat; rseq : Z; invite_cseq : Z; prack_tx : bool; prack_rx : bool; retransmit_task : option Retransmit }.

(** ** The state *)

(** The bridges of incoming calls: to the NGN, and to the peer of a browser or
    to a socket for the extension. *)
Inductive Far := ToPeer (peer opus_pt : Z) | ToSocket (sock ext_peer : SocketAddr) (plan : MediaPlan).
Record InBridge := mkInBridge { ib_ngn_sock : SocketAddr; ib_ngn_peer : SocketAddr; ib_far : Far }.

Record WebRtcInboundEntry := mkWebIn { wi_dialog : option Dialog; wi_layer : bool; wi_fallback_peer : SocketAddr; wi_ws : Z }.
(** A call a browser placed ([WebRtcOutboundEntry]), as far as a BYE of the NGN needs it. *)
Record WebRtcOutboundEntry := mkWebOut { wo_ws : Z; wo_bridge_call_id : Z }.

Inductive InPhase :=
  | Alerting
  | Forking
  | AwaitingPrack (result : ForkResult) (rc : nat) (until : Z).
Record InTask := mkInTask {
  it_request : SipRequest; it_remote : SocketAddr; it_call_id : string;
  it_timer : option InboundSessionTimer; it_tag : option string; it_reliable : bool;
  it_bindings : list (string * Binding); it_phase : InPhase }.
Definition set_phase (t : InTask) (ph : InPhase) : InTask :=
  mkInTask (it_request t) (it_remote t) (it_call_id t) (it_timer t) (it_tag t) (it_reliable t) (it_bindings t) ph.

(** The tables by Call-ID: the calls that are up; those of browsers, of the
    voicemail, and the ones browsers placed. *)
Record CallTables := mkTables {
  active : gmap string (option Z); webrtc_active : gmap string WebRtcInboundEntry;
  voicemail_active : gmap string nat; webrtc_outbound_active : gmap string WebRtcOutboundEntry }.
(** The INVITEs that are not done: their transactions, the notifications of a
    CANCEL (and those that were given), and the reliable responses (and those
    whose PRACK was passed on). *)
Record Waits := mkWaits {
  pending : gmap string nat; in_flight : gmap string nat; notified : gset nat;
  rc100rel : gmap string Rc100relState; pracked : gset nat }.
Record Books := mkBooks {
  call_log : option CallLog; call_manager : option (CallManager InBridge); metrics : Metrics; message_log : option MessageLog }.
(** [closing]: the calls of a browser that went away, out of the table. *)
Record InState := mkInState {
  tables : CallTables; waits : Waits; books : Books; in_tasks : gmap nat InTask; next_task : nat;
  closing : list (string * WebRtcInboundEntry) }.

(** [in_socket]: the local address of the socket, when the system tells it. *)
Record InConfig := mkInConfig {
  in_socket : option SocketAddr; ngn_local_addr : option SocketAddr;
  bridge_ngn_bind_ip : option IpAddr; bridge_ext_bind_ip : option IpAddr;
  voicemail_recorder : bool; routing_rules : RoutingRules; package_version : string;
  outbound_forwarder : bool; in_layer : bool; push : bool; recording : bool }.

Inductive InOutput :=
  (* the response to the INVITE of a task; to another request *)
  | Answer (id : nat) (resp : SipResponse)
  | Reply (request : SipRequest) (resp : SipResponse)
  | Resend18x (call_id : string)
  | ForwardReinvite (id : nat) (request : SipRequest)
  | ForwardBye (call_id : string)
  | StartFork (id : nat) (bindings : list (string * Binding)) (sdp call_id : string)
  | NotifyPush (aors : list string) (from call_id : string)
  | ToWeb (ws : Z) (msg : ServerMessage)
  | ByeNgn (s : sent)
  | StartVoicemail (call_id remote_number : string) (sock : SocketAddr)
  | StopRecording (call_id : string)
  | StopVoicemail (call_id : string)
  | LetGo (r : Release (B := InBridge))
  | InjectDtmf (bridge event : Z)
with ServerMessage := WsCancel (call_id : string) | WsBye.

Abbreviation handling := (handler InState InOutput).

Definition set_tables (f : CallTables -> CallTables) (s : InState) : InState :=
  mkInState (f (tables s)) (waits s) (books s) (in_tasks s) (next_task s) (closing s).
Definition set_waits (f : Waits -> Waits) (s : InState) : InState :=
  mkInState (tables s) (f (waits s)) (books s) (in_tasks s) (next_task s) (closing s).
Definition set_books (f : Books -> Books) (s : InState) : InState :=
  mkInState (tables s) (waits s) (f (books s)) (in_tasks s) (next_task s) (closing s).
Definition set_in_tasks (f : gmap nat InTask -> gmap nat InTask) (s : InState) : InState :=
  mkInState (tables s) (waits s) (books s) (f (in_tasks s)) (next_task s) (closing s).
Definition new_task (s : InState) : InState :=
  mkInState (tables s) (waits s) (books s) (in_tasks s) (S (next_task s)) (closing s).
Definition set_closing (f : list (string * WebRtcInboundEntry) -> list (string * WebRtcInboundEntry)) (s : InState) : InState :=
  mkInState (tables s) (waits s) (books s) (in_tasks s) (next_task s) (f (closing s)).

Definition set_active (f : gmap string (option Z) -> gmap string (option Z)) (c : CallTables) : CallTables :=
  mkTables (f (active c)) (webrtc_active c) (voicemail_active c) (webrtc_outbound_active c).
Definition set_webrtc_active (f : gmap string WebRtcInboundEntry -> gmap string WebRtcInboundEntry) (c : CallTables) : CallTables :=
  mkTables (active c) (f (webrtc_active c)) (voicemail_active c) (webrtc_outbound_active c).
Definition set_voicemail_active (f : gmap string nat -> gmap string nat) (c : CallTables) : CallTables :=
  mkTables (active c) (webrtc_active c) (f (voicemail_active c)) (webrtc_outbound_active c).
Definition set_webrtc_outbound_active (f : gmap string WebRtcOutboundEntry -> gmap string WebRtcOutboundEntry) (c : CallTables) : CallTables :=
  mkTables (active c) (webrtc_active c) (voicemail_active c) (f (webrtc_outbound_active c)).

Definition set_pending (f : gmap string nat -> gmap string nat) (w : Waits) : Waits :=
  mkWaits (f (pending w)) (in_flight w) (notified w) (rc100rel w) (pracked w).
Definition set_in_flight (f : gmap string nat -> gmap string nat) (w : Waits) : Waits :=
  mkWaits (pending w) (f (in_flight w)) (notified w) (rc100rel w) (pracked w).
Definition notify (id : nat) (w : Waits) : Waits :=
  mkWaits (pending w) (in_flight w) ({[id]} ∪ notified w) (rc100rel w) (pracked w).
Definition set_rc100rel (f : gmap string Rc100relState -> gmap string Rc100relState) (w : Waits) : Waits :=
  mkWaits (pending w) (in_flight w) (notified w) (f (rc100rel w)) (pracked w).
Definition set_pracked (id : nat) (w : Waits) : Waits :=
  mkWaits (pending w) (in_flight w) (notified w) (rc100rel w) ({[id]} ∪ pracked w).

Definition set_log (f : CallLog -> CallLog) (b : Books) : Books :=
  mkBooks (f <$> call_log b) (call_manager b) (metrics b) (message_log b).
Definition set_manager (m : CallManager InBridge) (b : Books) : Books :=
  mkBooks (call_log b) (Some m) (metrics b) (message_log b).
Definition set_metrics (f : Metrics -> Metrics) (b : Books) : Books :=
  mkBooks (call_log b) (call_manager b) (f (metrics b)) (message_log b).
Definition set_messages (f : MessageLog -> MessageLog) (b : Books) : Books :=
  mkBooks (call_log b) (call_manager b) (metrics b) (f <$> message_log b).

(** ** Small steps the handlers share *)

Definition count (f : Metrics -> Metrics) : handling unit := modify (set_books (set_metrics f)).
Definition log_end (call_id : string) (o : CallLog.Outcome) (now : Z) : handling unit :=
  modify (set_books (set_log (fun log => record_end log call_id o now))).
Definition drop_pending (call_id : string) : handling unit := modify (set_waits (set_pending (delete call_id))).
(** Dropping the state of the reliable response aborts its retransmissions. *)
Definition cleanup_rc100rel (call_id : string) : handling unit := modify (set_waits (set_rc100rel (delete call_id))).

(** [tx.respond] on the transaction of an INVITE, and [respond]. *)
Definition answer_invite (id : nat) (resp : SipResponse) : handling unit :=
  ok ← accepted; if (ok : bool) then emit (Answer id resp) else fail.
Definition respond_invite (id : nat) (request : SipRequest) (status : Z) (why : string) : handling unit :=
  r ← draw_rnd;
  answer_invite id (ensure_to_tag (build_response_skeleton request status why (r_skeleton r)) (r_tag r)).
(** Another request: its own transaction, and [Allow] in most answers. *)
Definition reply (request : SipRequest) (remote : SocketAddr) (resp : SipResponse) : handling unit :=
  _ ← from_outcome (server_new request remote);
  ok ← accepted; if (ok : bool) then emit (Reply request resp) else fail.
Definition reply_with (request : SipRequest) (remote : SocketAddr) (status : Z) (why : string) (allow : bool) : handling unit :=
  r ← draw;
  let resp := build_response_skeleton request status why r in
  reply request remote (if allow then set_header resp "Allow" SUPPORTED_METHODS_ALLOW else resp).

Fixpoint each {A} (f : A -> handling unit) (l : list A) : handling unit :=
  match l with [] => mret tt | a :: l => f a ;; each f l end.
Definition stop_bridge (bridge : option Z) : handling unit :=
  s ← get;
  match bridge, call_manager (books s) with
  | Some id, Some m => let '(_, rs, m) := terminate m id in modify (set_books (set_manager m)) ;; each (fun r => emit (LetGo r)) rs
  | _, _ => mret tt
  end.
(** [ws.send]; that the browser is gone is only logged. *)
Definition tell (ws : Z) (msg : ServerMessage) : handling unit := emit (ToWeb ws msg).

Definition remote_number (request : SipRequest) : string :=
  match hdr_get (req_headers request) "from" with
  | Some from => let uri := extract_uri_from_addr from in default uri (extract_user_from_sip_uri uri)
  | None => "unknown"
  end.
Definition from_number (request : SipRequest) : string :=
  default "unknown" (from ← hdr_get (req_headers request) "from"; extract_user_from_sip_uri (extract_uri_from_addr from)).

Definition is_unspecified (a : IpAddr) : bool :=
  match a with
  | V4 a b c d => (a =? 0) && (b =? 0) && (c =? 0) && (d =? 0)
  | V6 segments => forallb (fun x => x =? 0) segments
  end.

Section inbound.
Context (parse_hm : string -> option Z) (cfg : InConfig).

Definition contact_addr : option SocketAddr := match ngn_local_addr cfg with Some a => Some a | None => in_socket cfg end.
Definition bridge_ngn_ip : IpAddr :=
  match bridge_ngn_bind_ip cfg with
  | Some ip => ip
  | None =>
      match ip <$> in_socket cfg with
      | Some ip => if is_unspecified ip then V4 127 0 0 1 else ip
      | None => V4 127 0 0 1
      end
  end.
Definition bridge_ext_ip : IpAddr := default bridge_ngn_ip (bridge_ext_bind_ip cfg).

(** What a step takes from outside: the clocks, and the sockets it can bind on an
    address: the one with the NGN's marking, and the one for an extension. *)
Record Env := mkEnv {
  e_now : Z; e_since_epoch : option Z; e_bind_ngn : IpAddr -> option SocketAddr; e_bind_ext : IpAddr -> option SocketAddr }.

(** ** The bridge *)

Definition attach_bridge (m : CallManager InBridge) (call_id : string) (bridge : InBridge) : handling unit :=
  let '(cid, m) := create_call m in
  modify (set_books (set_manager m)) ;;
  let '(res, rs, m) := attach_media_bridge m cid bridge in
  modify (set_books (set_manager m)) ;;
  each (fun r => emit (LetGo r)) rs ;;
  from_outcome res ;;
  modify (set_tables (set_active (insert call_id (Some cid)))).

Definition start_bridge_for_inbound (env : Env) (ngn_offer ext_answer call_id : string) (webrtc_handle : option WebRtcLegArtifacts) : handling string :=
  s ← get;
  match call_manager (books s) with
  | None => fail
  | Some m =>
      if String.eqb ngn_offer "" || String.eqb ext_answer "" then fail
      else
        ngn_peer ← from_outcome (ok_or (extract_rtp_endpoint ngn_offer) tt);
        sabiden_ngn_addr ← from_outcome (ok_or (e_bind_ngn env bridge_ngn_ip) tt);
        let rewrite :=
          pcmu_only ← from_outcome (restrict_answer_to_ngn_offer_subset ngn_offer ext_answer);
          from_outcome (rewrite_rtp_endpoint pcmu_only (ip sabiden_ngn_addr) (sport sabiden_ngn_addr) (as_secs (e_now env))) in
        match webrtc_handle with
        | Some h =>
            rewritten ← rewrite;
            attach_bridge m call_id (mkInBridge sabiden_ngn_addr ngn_peer (ToPeer (wa_peer h) (wa_opus_payload_type h))) ;;
            mret rewritten
        | None =>
            ext_peer ← from_outcome (ok_or (extract_rtp_endpoint ext_answer) tt);
            ext_sock ← from_outcome (ok_or (e_bind_ext env bridge_ext_ip) tt);
            rewritten ← rewrite;
            started ← accepted;
            if (started : bool) then
              attach_bridge m call_id
                (mkInBridge sabiden_ngn_addr ngn_peer (ToSocket ext_sock ext_peer (select_media_plan ngn_offer ext_answer))) ;;
              mret rewritten
            else fail
        end
  end.

(** ** The voicemail *)

Definition try_start_voicemail (env : Env) (id : nat) (request : SipRequest) (call_id : string) : handling bool :=
  if negb (voicemail_recorder cfg) || String.eqb (req_body request) "" then mret false
  else
    match e_bind_ngn env bridge_ngn_ip with
    | None => mret false
    | Some sock =>
        match rewrite_rtp_endpoint (req_body request) (ip sock) (sport sock) (as_secs (e_now env)) with
        | Panic => from_outcome (E := unit) Panic
        | Err _ => mret false
        | Ok rewritten =>
            contact ← from_outcome (ok_or contact_addr tt);
            r ← draw_rnd;
            let resp := build_response_skeleton request 200 "OK" (r_skeleton r) in
            let resp := mkResponse (status_code resp) (reason resp) (hdr_set (resp_headers resp) "Content-Type" "application/sdp") rewritten in
            let resp := ensure_to_tag resp (r_tag r) in
            let resp := apply_uas_inbound_2xx_headers (package_version cfg) (e_since_epoch env) resp in
            let resp := set_header resp "Contact" ("<sip:sabiden@" +:+ print_socket contact +:+ ">") in
            ok ← accepted;
            if (ok : bool) then
              emit (Answer id resp) ;;
              emit (StartVoicemail call_id (remote_number request) sock) ;;
              modify (set_tables (set_voicemail_active (insert call_id id))) ;;
              mret true
            else mret false
        end
    end.
(** [unwrap_or(false)], and the gauge. *)
Definition voicemail_or (env : Env) (id : nat) (request : SipRequest) (call_id : string) (otherwise : handling unit) : handling unit :=
  started ← attempt (try_start_voicemail env id request call_id);
  if default false started then count inc_call_active else otherwise.

(** ** The INVITE of the NGN *)

(** What an INVITE meets when it comes: the registrations, the local time, and
    whether the call is one that an extension placed. *)
Record Arrival := mkArrival { a_env : Env; a_registrar : ExtensionRegistrar; a_local : LocalTime; a_outbound_call : bool }.

(** The end of an INVITE that is refused before it rings. *)
Definition refused (call_id : string) (status : Z) (now : Z) : handling unit :=
  drop_pending call_id ;; log_end call_id (CallLog.Failed status) now.

(** From the 180 to the table of the INVITEs that ring. *)
Definition ring (env : Env) (id : nat) (request : SipRequest) (remote : SocketAddr) (via call_id : string)
    (timer : option InboundSessionTimer) (bindings : list (string * Binding)) : handling unit :=
  let h := req_headers request in
  let invite_wants_100rel :=
    header_has_option_tag (hdr_get h "supported") OPTION_TAG_100REL || header_has_option_tag (hdr_get h "require") OPTION_TAG_100REL in
  let invite_cseq_num := default 0 (v ← hdr_get h "cseq"; w ← head (split_whitespace v); parse_uint 32 w) in
  r ← draw_rnd;
  contact ← from_outcome (ok_or contact_addr tt);
  let ringing := build_response_skeleton request 180 "Ringing" (r_skeleton r) in
  let ringing := set_header ringing "Contact" ("<sip:sabiden@" +:+ print_socket contact +:+ ">") in
  let ringing := apply_uas_inbound_2xx_headers (package_version cfg) (e_since_epoch env) ringing in
  let ringing := ensure_to_tag ringing (r_tag r) in
  ringing ← (if invite_wants_100rel then
    n ← draw;
    let rseq := random_initial_rseq n in
    let ringing := set_header (set_header (set_header ringing "Require" OPTION_TAG_100REL) "RSeq" (print_uint rseq)) "Via" via in
    modify (set_waits (set_rc100rel (insert call_id
      (mkRc id rseq invite_cseq_num true true (Some (spawn_reliable_provisional_retransmit (e_now env))))))) ;;
    mret ringing
  else mret ringing);
  answer_invite id ringing ;;
  let tag := to ← hdr_get (resp_headers ringing) "to"; extract_to_tag to in
  modify (set_in_tasks (insert id (mkInTask request remote call_id timer tag invite_wants_100rel bindings Alerting))).

(** The routing, and what becomes of a call for nobody. *)
Definition route_invite (a : Arrival) (id : nat) (request : SipRequest) (remote : SocketAddr) (via call_id : string)
    (timer : option InboundSessionTimer) : handling unit :=
  let env := a_env a in
  let now := e_now env in
  let all_bindings := snapshot (a_registrar a) now in
  decision ← from_outcome (evaluate parse_hm (routing_rules cfg) (a_local a) (from_number request) all_bindings);
  let bindings := match decision with Matched _ filtered => filtered | NoRule => all_bindings end in
  if bool_decide (bindings = []) then
    voicemail_or env id request call_id
      (respond_invite id request 480 "Temporarily Unavailable" ;;
       drop_pending call_id ;;
       count (fun m => record_invite_ngn m Observability.Error) ;;
       log_end call_id CallLog.Missed now)
  else
    (if push cfg then emit (NotifyPush (map fst bindings) (from_number request) call_id) else mret tt) ;;
    ring env id request remote via call_id timer bindings.

(** [handle_invite], up to the fork. *)
Definition handle_invite (a : Arrival) (request : SipRequest) (remote : SocketAddr) : handling unit :=
  let env := a_env a in
  let now := e_now env in
  let h := req_headers request in
  call_id ← from_outcome (ok_or (hdr_get h "call-id") tt);
  stx ← from_outcome (server_new request remote);
  s ← get;
  let id := next_task s in
  modify new_task ;;
  modify (set_waits (set_pending (insert call_id id))) ;;
  r0 ← draw;
  answer_invite id (build_response_skeleton request 100 "Trying" r0) ;;
  modify (set_books (set_log (fun log => record_start log CallLog.Inbound (remote_number request) call_id now))) ;;
  let unsupported := match hdr_get h "require" with Some v => unsupported_option_tags v | None => [] end in
  if negb (bool_decide (unsupported = [])) then
    r ← draw_rnd;
    answer_invite id (ensure_to_tag (set_header (build_response_skeleton request 420 "Bad Extension" (r_skeleton r))
      "Unsupported" (join ", " unsupported)) (r_tag r)) ;;
    drop_pending call_id ;;
    count (fun m => record_invite_ngn m Observability.Error) ;;
    log_end call_id (CallLog.Failed 420) now
  else
    let timer := v ← hdr_get h "session-expires"; parse_session_expires_header v in
    let min_se := Z.max (default MIN_SE (v ← hdr_get h "min-se"; parse_min_se_header v)) MIN_SE in
    let to_has_tag := match hdr_get h "to" with Some to => has_to_tag to | None => false end in
    if negb to_has_tag && match timer with Some t => session_expires t <? min_se | None => false end then
      r ← draw_rnd;
      answer_invite id (ensure_to_tag (set_header (build_response_skeleton request 422 "Session Interval Too Small" (r_skeleton r))
        "Min-SE" (print_uint min_se)) (r_tag r)) ;;
      refused call_id 422 now
    else if to_has_tag then
      if outbound_forwarder cfg && a_outbound_call a then emit (ForwardReinvite id request)
      else
        respond_invite id request 481 "Call/Transaction Does Not Exist" ;;
        refused call_id 481 now
    else route_invite a id request remote (sx_response_via stx) call_id timer.

(** The INVITE rings, and a CANCEL finds it from now on. *)
Definition start_fork (id : nat) (t : InTask) : handling unit :=
  modify (set_waits (set_in_flight (insert (it_call_id t) id))) ;;
  modify (set_in_tasks (insert id (set_phase t Forking))) ;;
  emit (StartFork id (it_bindings t) (req_body (it_request t)) (it_call_id t)).

(** *** When the fork has ended *)

(** The NGN took the call back: the fork is dropped where it is. *)
Definition invite_cancelled (id : nat) (t : InTask) (now : Z) : handling unit :=
  modify (set_in_tasks (delete id)) ;;
  cleanup_rc100rel (it_call_id t) ;;
  respond_invite id (it_request t) 487 "Request Terminated" ;;
  drop_pending (it_call_id t) ;;
  modify (set_waits (set_in_flight (delete (it_call_id t)))) ;;
  count (fun m => record_invite_extension m Observability.Error) ;;
  count (fun m => record_invite_ngn m Observability.Error) ;;
  log_end (it_call_id t) CallLog.Missed now.

(** The dialog with the NGN, for the BYE when the browser goes away. *)
Definition inbound_dialog (request : SipRequest) (resp : SipResponse) (contact : SocketAddr) : Prelude.outcome unit (option Dialog) :=
  let contact_uri := "sip:sabiden@" +:+ print_socket contact in
  let dlg_cfg := mkDialogConfig
    (match hdr_get (req_headers request) "to" with Some v => extract_uri v | None => contact_uri end)
    (match hdr_get (req_headers request) "from" with Some v => extract_uri v | None => "sip:unknown@unknown" end)
    contact_uri (print_socket contact) in
  match from_uas_invite request resp dlg_cfg with Ok d => Ok (Some d) | Err _ => Ok None | Panic => Panic end.

(** The 200 OK. *)
Definition response_for_ngn (env : Env) (t : InTask) (body : string) (contact : SocketAddr) (r : Rnd) : SipResponse :=
  let request := it_request t in
  let resp := build_response_skeleton request 200 "OK" (r_skeleton r) in
  let resp :=
    if String.eqb body "" then resp
    else mkResponse (status_code resp) (reason resp) (hdr_set (resp_headers resp) "Content-Type" "application/sdp") body in
  let resp :=
    match it_tag t with
    | Some tag =>
        match hdr_get (req_headers request) "to" with
        | Some orig_to => set_header resp "To" (if has_to_tag orig_to then orig_to else orig_to +:+ ";tag=" +:+ tag)
        | None => resp
        end
    | None => ensure_to_tag resp (r_tag r)
    end in
  let resp :=
    match it_timer t with
    | Some timer =>
        set_header (set_header resp "Session-Expires"
          (print_uint (Z.max (session_expires timer) MIN_SE) +:+ ";refresher=" +:+ resolve_response_refresher (refresher timer))) "Require" "timer"
    | None => resp
    end in
  let resp := apply_uas_inbound_2xx_headers (package_version cfg) (e_since_epoch env) resp in
  set_header resp "Contact" ("<sip:sabiden@" +:+ print_socket contact +:+ ">").

(** The 200 OK of an answered fork, and what is kept of the call. *)
Definition go_up (env : Env) (id : nat) (t : InTask) (webrtc_ws : option Z) (body : string) : handling unit :=
  let request := it_request t in
  let call_id := it_call_id t in
  body ← (if String.eqb body "" then mret body
          else
            ptime ← from_outcome (extract_ptime_from_offer (req_body request));
            match ptime with Some p => from_outcome (ensure_ptime_in_answer body p) | None => mret body end);
  contact ← from_outcome (ok_or contact_addr tt);
  r ← draw_rnd;
  let resp := response_for_ngn env t body contact r in
  dialog ← (match webrtc_ws with Some _ => from_outcome (inbound_dialog request resp contact) | None => mret None end);
  answer_invite id resp ;;
  count (fun m => record_invite_ngn m Observability.Answered) ;;
  count (fun m => record_invite_extension m Observability.Answered) ;;
  modify (set_tables (set_active (fun tbl => match tbl !! call_id with Some _ => tbl | None => <[call_id := None]> tbl end))) ;;
  match webrtc_ws with
  | Some ws => modify (set_tables (set_webrtc_active (insert call_id (mkWebIn dialog (in_layer cfg) (it_remote t) ws))))
  | None => mret tt
  end ;;
  count inc_call_active ;;
  cleanup_rc100rel call_id.

(** An extension took the call. *)
Definition fork_answered (env : Env) (id : nat) (t : InTask) (response : SipResponse)
    (webrtc_handle : option WebRtcLegArtifacts) (webrtc_ws : option Z) : handling unit :=
  let request := it_request t in
  let call_id := it_call_id t in
  s ← get;
  let bridged_mode := bool_decide (is_Some (call_manager (books s))) in
  started ← attempt (start_bridge_for_inbound env (req_body request) (resp_body response) call_id webrtc_handle);
  match started with
  | None =>
      if bridged_mode || is_undirected_or_webrtc_placeholder_sdp (resp_body response) then
        match webrtc_ws with Some ws => tell ws (WsCancel call_id) | None => mret tt end ;;
        cleanup_rc100rel call_id ;;
        respond_invite id request 502 "Bad Gateway" ;;
        drop_pending call_id ;;
        count (fun m => record_invite_extension m Observability.Error) ;;
        count (fun m => record_invite_ngn m Observability.Error) ;;
        mret None
      else mret (Some (resp_body response))
  | Some rewritten => mret (Some rewritten)
  end ≫= fun body =>
  match body with
  | None => mret tt
  | Some body => go_up env id t webrtc_ws body
  end.

Definition fork_failed (env : Env) (id : nat) (t : InTask) (code : Z) (why : string) (result : Observability.InviteResult) : handling unit :=
  let call_id := it_call_id t in
  voicemail_or env id (it_request t) call_id
    (respond_invite id (it_request t) code why ;;
     drop_pending call_id ;;
     count (fun m => record_invite_extension m result) ;;
     count (fun m => record_invite_ngn m result) ;;
     log_end call_id CallLog.Missed (e_now env)) ;;
  cleanup_rc100rel call_id.

Definition finish_invite (env : Env) (id : nat) (t : InTask) (result : ForkResult) : handling unit :=
  modify (set_in_tasks (delete id)) ;;
  match result with
  | Fork.Answered _ response webrtc_handle webrtc_ws => fork_answered env id t response webrtc_handle webrtc_ws
  | AllFailed last_status =>
      let code := default 486 last_status in
      fork_failed env id t code (reason_phrase_for_status code) (if code =? 486 then Observability.Busy else Observability.Error)
  | ForkTimeout => fork_failed env id t 408 "Request Timeout" Observability.Timeout
  end.

(** [wait_for_prack], up to its wait: without the receiver there is nothing to
    wait for. *)
Definition PRACK_TIMER : Z := from_secs 32.
Definition fork_done (env : Env) (id : nat) (t : InTask) (result : ForkResult) : handling unit :=
  s ← get;
  if bool_decide (id ∈ notified (waits s)) then invite_cancelled id t (e_now env)
  else
    modify (set_waits (set_in_flight (delete (it_call_id t)))) ;;
    match (if it_reliable t then rc100rel (waits s) !! it_call_id t else None) with
    | Some rc =>
        if prack_rx rc then
          modify (set_waits (set_rc100rel (insert (it_call_id t) (mkRc (rc_id rc) (rseq rc) (invite_cseq rc) (prack_tx rc) false (retransmit_task rc))))) ;;
          modify (set_in_tasks (insert id (set_phase t (AwaitingPrack result (rc_id rc) (e_now env + PRACK_TIMER)))))
        else finish_invite env id t result
    | None => finish_invite env id t result
    end.

(** The PRACK came, the other end of the channel is gone, or the time is up. *)
Definition prack_wake (env : Env) (id : nat) (t : InTask) (result : ForkResult) (rc : nat) (until : Z) : handling unit :=
  s ← get;
  let waiting := match rc100rel (waits s) !! it_call_id t with Some x => (rc_id x =? rc)%nat && prack_tx x | None => false end in
  if bool_decide (rc ∈ pracked (waits s)) || negb waiting then finish_invite env id t result
  else if until <=? e_now env then
    modify (set_in_tasks (delete id)) ;;
    cleanup_rc100rel (it_call_id t) ;;
    respond_invite id (it_request t) 408 "Request Timeout" ;;
    drop_pending (it_call_id t) ;;
    count (fun m => record_invite_extension m Observability.Timeout) ;;
    count (fun m => record_invite_ngn m Observability.Timeout) ;;
    log_end (it_call_id t) (CallLog.Failed 408) (e_now env)
  else mret tt.

(** ** The other requests of the NGN *)

(** [handle_prack]: every mismatch is a 481. *)
Definition prack_matches (request : SipRequest) (rc : Rc100relState) : bool :=
  match rack ← hdr_get (req_headers request) "rack"; parse_rack_header rack with
  | Some (rs, cs, method) => (rs =? rseq rc) && (cs =? invite_cseq rc) && eq_ignore_ascii_case method "INVITE"
  | None => false
  end.
Definition handle_prack (request : SipRequest) (remote : SocketAddr) : handling unit :=
  let refuse := reply_with request remote 481 "Call/Transaction Does Not Exist" true in
  s ← get;
  match call_id ← hdr_get (req_headers request) "call-id"; pair call_id <$> rc100rel (waits s) !! call_id with
  | None => refuse
  | Some (call_id, rc) =>
      if negb (prack_matches request rc) then refuse
      else
        modify (set_waits (set_rc100rel (insert call_id (mkRc (rc_id rc) (rseq rc) (invite_cseq rc) false (prack_rx rc) (retransmit_task rc))))) ;;
        reply_with request remote 200 "OK" false ;;
        (if prack_tx rc then modify (set_waits (set_pracked (rc_id rc))) else mret tt) ;;
        cleanup_rc100rel call_id
  end.

Definition handle_cancel (request : SipRequest) (remote : SocketAddr) : handling unit :=
  reply_with request remote 200 "OK" false ;;
  s ← get;
  match cid ← hdr_get (req_headers request) "call-id"; in_flight (waits s) !! cid with
  | Some id => modify (set_waits (notify id))
  | None => mret tt
  end.

(** [handle_bye]; [outbound_call]: the call is one that an extension placed. *)
Definition handle_bye (env : Env) (request : SipRequest) (remote : SocketAddr) (outbound_call : bool) : handling unit :=
  let now := e_now env in
  reply_with request remote 200 "OK" false ;;
  match hdr_get (req_headers request) "call-id" with
  | None => mret tt
  | Some cid =>
      s ← get;
      match webrtc_outbound_active (tables s) !! cid with
      | Some entry =>
          modify (set_tables (set_webrtc_outbound_active (delete cid))) ;;
          stop_bridge (Some (wo_bridge_call_id entry)) ;;
          count dec_call_active ;;
          log_end cid CallLog.Answered now ;;
          tell (wo_ws entry) WsBye
      | None =>
          if outbound_forwarder cfg && outbound_call then emit (ForwardBye cid)
          else
            drop_pending cid ;;
            let removed := active (tables s) !! cid in
            modify (set_tables (set_active (delete cid))) ;;
            match removed with
            | Some _ => count dec_call_active ;; log_end cid CallLog.Answered now
            | None => mret tt
            end ;;
            match voicemail_active (tables s) !! cid with
            | Some _ =>
                modify (set_tables (set_voicemail_active (delete cid))) ;;
                emit (StopVoicemail cid) ;; count dec_call_active ;; log_end cid CallLog.Answered now
            | None => mret tt
            end ;;
            (if recording cfg then emit (StopRecording cid) else mret tt) ;;
            stop_bridge (default None removed) ;;
            match webrtc_active (tables s) !! cid with
            | Some entry => modify (set_tables (set_webrtc_active (delete cid))) ;; tell (wi_ws entry) WsBye
            | None => mret tt
            end
      end
  end.

Definition handle_message (env : Env) (request : SipRequest) (remote : SocketAddr) : handling unit :=
  match sms_from_inbound_message request (e_now env) with
  | Some sms => modify (set_books (set_messages (fun log => log_push log sms)))
  | None => mret tt
  end ;;
  reply_with request remote 200 "OK" true.

(** [handle_inbound]. Each datagram is an arrival of its own: neither the code nor the
    layer below it absorbs a retransmitted INVITE. *)
Definition handle_inbound (a : Arrival) (request : SipRequest) (remote : SocketAddr) : handling unit :=
  let answer status why := reply_with request remote status why true in
  match req_method request with
  | Invite => handle_invite a request remote
  | Bye => handle_bye (a_env a) request remote (a_outbound_call a)
  | Ack => match hdr_get (req_headers request) "call-id" with Some call_id => drop_pending call_id | None => mret tt end
  | SipMessage.Cancel => handle_cancel request remote
  | Options => answer 200 "OK"
  | Notify => answer 481 "Subscription Does Not Exist"
  | Subscribe | Publish => answer 489 "Bad Event"
  | Prack => handle_prack request remote
  | Update | Info => answer 481 "Call/Transaction Does Not Exist"
  | Message => handle_message (a_env a) request remote
  | Refer => answer 405 "Method Not Allowed"
  | _ => answer 405 "Method Not Allowed"
  end.

(** ** Browsers that go away *)

(** [close_pwa_inbound_for_ws]: the calls of the session leave the table. *)
Definition close_pwa_inbound (ws : Z) : handling unit :=
  s ← get;
  let entries := List.filter (fun p => wi_ws p.2 =? ws) (map_to_list (webrtc_active (tables s))) in
  modify (set_tables (set_webrtc_active (filter (fun p => wi_ws p.2 <> ws)))) ;;
  modify (set_closing (fun l => l ++ entries)).
(** [send_bye] on the entry, and what follows its answer. *)
Definition send_bye (e : WebRtcInboundEntry) : handling unit :=
  match wi_dialog e with
  | Some d =>
      if wi_layer e then
        r ← draw;
        let '(bye, d) := build_bye d r in
        emit (ByeNgn (Awaited bye (next_hop_socket d (wi_fallback_peer e)))) ;;
        _ ← awaited; mret tt
      else mret tt
  | None => mret tt
  end.
Definition close_next (i : nat) (now : Z) : handling unit :=
  s ← get;
  match closing s !! i with
  | None => mret tt
  | Some (cid, entry) =>
      modify (set_closing (delete i)) ;;
      send_bye entry ;;
      s ← get;
      modify (set_tables (set_active (delete cid))) ;;
      stop_bridge (default None (active (tables s) !! cid)) ;;
      drop_pending cid ;;
      count dec_call_active ;;
      log_end cid CallLog.Answered now
  end.

(** The sweeper; [closed]: the sessions that are gone. *)
Definition sweep_webrtc_active (closed : list Z) : handling unit :=
  modify (set_tables (set_webrtc_active (filter (fun p => wi_ws p.2 ∉ closed)))).

(** A digit typed in the browser. *)
Definition inject_dtmf_to_ngn (call_id : string) (digit : Z) : handling bool :=
  s ← get;
  match event ← digit_to_event digit; bridge ← mjoin (active (tables s) !! call_id);
        _ ← call_manager (books s); Some (bridge, event) with
  | Some (bridge, event) => emit (InjectDtmf bridge event) ;; mret true
  | None => mret false
  end.

(** ** The handler *)

Inductive InEvent :=
  | EvInbound (a : Arrival) (request : SipRequest) (remote : SocketAddr)
  | EvGo (id : nat)
  | EvForkDone (env : Env) (id : nat) (result : ForkResult)
  | EvCancelled (id : nat) (now : Z)
  | EvPrackWake (env : Env) (id : nat)
  | EvResend (call_id : string) (now : Z)
  | EvWsClosed (ws : Z)
  | EvCloseNext (i : nat) (now : Z)
  | EvSweep (closed : list Z)
  | EvDigit (call_id : string) (digit : Z).

Definition resend_18x (call_id : string) (now : Z) : handling unit :=
  s ← get;
  match rc ← rc100rel (waits s) !! call_id; r ← retransmit_task rc; Some (rc, r) with
  | Some (rc, r) =>
      ok ← (if now <? r_due r then mret true else accepted);
      let '(sends, r) := retransmit_wake r now ok in
      modify (set_waits (set_rc100rel (insert call_id (mkRc (rc_id rc) (rseq rc) (invite_cseq rc) (prack_tx rc) (prack_rx rc) r)))) ;;
      if sends && ok then emit (Resend18x call_id) else mret tt
  | None => mret tt
  end.

Definition with_task (id : nat) (f : InTask -> handling unit) : handling unit :=
  s ← get; match in_tasks s !! id with Some t => f t | None => mret tt end.
Definition handle_event (ev : InEvent) : handling unit :=
  match ev with
  | EvInbound a request remote => handle_inbound a request remote
  | EvGo id => with_task id (fun t => match it_phase t with Alerting => start_fork id t | _ => mret tt end)
  | EvForkDone env id result => with_task id (fun t => match it_phase t with Forking => fork_done env id t result | _ => mret tt end)
  | EvCancelled id now =>
      with_task id (fun t =>
        s ← get;
        match it_phase t with
        | Forking => if bool_decide (id ∈ notified (waits s)) then invite_cancelled id t now else mret tt
        | _ => mret tt
        end)
  | EvPrackWake env id =>
      with_task id (fun t => match it_phase t with AwaitingPrack result rc until => prack_wake env id t result rc until | _ => mret tt end)
  | EvResend call_id now => resend_18x call_id now
  | EvWsClosed ws => close_pwa_inbound ws
  | EvCloseNext i now => close_next i now
  | EvSweep closed => sweep_webrtc_active closed
  | EvDigit call_id digit => _ ← inject_dtmf_to_ngn call_id digit; mret tt
  end.

Definition step (w : World InState InOutput) (ev : InEvent) : World InState InOutput := (handle_event ev w).2.
Definition run (w : World InState InOutput) (evs : list InEvent) : World InState InOutput := fold_left step evs w.
End inbound.

Definition in_initial (books : Books) : InState :=
  mkInState (mkTables ∅ ∅ ∅ ∅) (mkWaits ∅ ∅ ∅ ∅ ∅) books ∅ 0 [].
