(* ===== verification/InboundCalls.v ===== *)
(** What becomes of the INVITEs of the NGN (call/orchestrator.rs,
    NgnInboundHandler): over any sequence of events each gets one final response,
    and none but a refusal before its reliable 180 was acknowledged.

    A step is followed on what the theorems need of the world, its [view]. *)
From S2P Require Import Prelude RustStr NetAddr SipMessage SipUtils Transaction Dialog TuProg Registrar MessageLog Uas Uac.
From S2P Require Import Sdp SdpRewrite SdpAnswer CallLog Observability Routing Transcoder Bridge Calls SipFields Handler Fork Inbound.

Abbreviation world := (World InState InOutput).

(** ** The view *)

Record View := mkView {
  v_answers : list (nat * SipResponse); v_forwards : list nat; v_tasks : gmap nat InTask; v_next : nat;
  v_rc : gmap string Rc100relState; v_pracked : gset nat }.

Definition answer_of (o : InOutput) : option (nat * SipResponse) := match o with Answer id resp => Some (id, resp) | _ => None end.
Definition forward_of (o : InOutput) : option nat := match o with ForwardReinvite id _ => Some id | _ => None end.
Definition view (w : world) : View :=
  mkView (omap answer_of (outs w)) (omap forward_of (outs w)) (in_tasks (shared w)) (next_task (shared w))
    (rc100rel (waits (shared w))) (pracked (waits (shared w))).

Abbreviation quiet := (follows (fun w w' => view w' = view w)).
Abbreviation triple := (wp view).

Definition with_answer (id : nat) (resp : SipResponse) (v : View) : View :=
  mkView (v_answers v ++ [(id, resp)]) (v_forwards v) (v_tasks v) (v_next v) (v_rc v) (v_pracked v).
Definition with_tasks (f : gmap nat InTask -> gmap nat InTask) (v : View) : View :=
  mkView (v_answers v) (v_forwards v) (f (v_tasks v)) (v_next v) (v_rc v) (v_pracked v).
Definition with_rc (f : gmap string Rc100relState -> gmap string Rc100relState) (v : View) : View :=
  mkView (v_answers v) (v_forwards v) (v_tasks v) (v_next v) (f (v_rc v)) (v_pracked v).

Lemma view_emit o : answer_of o = None -> forward_of o = None -> quiet (emit o).
Proof. intros Ha Hf w. unfold view. cbn. rewrite !omap_app. cbn. by rewrite Ha, Hf, !app_nil_r. Qed.
Lemma view_accepted : quiet accepted.
Proof. done. Qed.
Lemma view_awaited : quiet awaited.
Proof. done. Qed.
Lemma view_draw : quiet draw.
Proof. done. Qed.
Lemma view_draw_rnd : quiet draw_rnd.
Proof. done. Qed.
Lemma quiet_tables f : quiet (modify (set_tables f)).
Proof. done. Qed.
Lemma quiet_books f : quiet (modify (set_books f)).
Proof. done. Qed.
Lemma quiet_closing f : quiet (modify (set_closing f)).
Proof. done. Qed.
Lemma quiet_pending f : quiet (modify (set_waits (set_pending f))).
Proof. done. Qed.
Lemma quiet_in_flight f : quiet (modify (set_waits (set_in_flight f))).
Proof. done. Qed.
Lemma quiet_notify id : quiet (modify (set_waits (notify id))).
Proof. done. Qed.
Lemma view_each {A} (f : A -> handling unit) l : (forall a, quiet (f a)) -> quiet (each f l).
Proof. intros Hf. induction l; cbn [each]; eauto with frame typeclass_instances. Qed.

Create HintDb inbound.
#[export] Hint Resolve follows_ret follows_bind follows_attempt follows_get follows_from_outcome follows_fail : inbound.
#[export] Hint Resolve view_emit view_accepted view_awaited view_draw view_draw_rnd quiet_tables quiet_books quiet_closing
  quiet_pending quiet_in_flight quiet_notify view_each : inbound.

Ltac quiets := follow_steps ltac:(eauto with inbound typeclass_instances).

Lemma view_count f : quiet (count f).
Proof. unfold count. quiets. Qed.
Lemma view_log_end id o now : quiet (log_end id o now).
Proof. unfold log_end. quiets. Qed.
Lemma quiet_drop_pending id : quiet (drop_pending id).
Proof. unfold drop_pending. quiets. Qed.
Lemma view_stop_bridge b : quiet (stop_bridge b).
Proof. unfold stop_bridge. quiets. Qed.
Lemma quiet_tell ws msg : quiet (tell ws msg).
Proof. unfold tell. quiets. Qed.
Lemma quiet_reply request remote resp : quiet (reply request remote resp).
Proof. unfold reply. quiets. Qed.
#[export] Hint Resolve view_count view_log_end quiet_drop_pending view_stop_bridge quiet_tell quiet_reply : inbound.
Lemma quiet_reply_with request remote status why allow : quiet (reply_with request remote status why allow).
Proof. unfold reply_with. quiets. Qed.
Lemma quiet_refused id status now : quiet (refused id status now).
Proof. unfold refused. quiets. Qed.
#[export] Hint Resolve quiet_reply_with quiet_refused : inbound.

Section inbound.
Context (parse_hm : string -> option Z) (cfg : InConfig).

Lemma quiet_attach_bridge m id b : quiet (attach_bridge m id b).
Proof. unfold attach_bridge. quiets. Qed.
Lemma quiet_start_bridge env offer answer id h : quiet (start_bridge_for_inbound cfg env offer answer id h).
Proof. pose proof quiet_attach_bridge. unfold start_bridge_for_inbound. quiets. Qed.

(** Steps that always go on, and steps that change the view. *)
Lemma accepted_triple v (Post : _ -> _ -> Prop) : (forall ok, Post (Ok ok) v) -> triple v accepted Post.
Proof. intros H w <-. exact (H _). Qed.
Lemma draw_triple v (Post : _ -> _ -> Prop) : (forall r, Post (Ok r) v) -> triple v draw Post.
Proof. intros H w <-. exact (H _). Qed.
Lemma draw_rnd_triple v (Post : _ -> _ -> Prop) : (forall r, Post (Ok r) v) -> triple v draw_rnd Post.
Proof. intros H w <-. exact (H _). Qed.
Lemma sent_triple v id resp (Post : _ -> _ -> Prop) : Post (Ok tt) (with_answer id resp v) -> triple v (emit (Answer id resp)) Post.
Proof. intros H w <-. unfold view. cbn. rewrite !omap_app, app_nil_r. exact H. Qed.
Lemma emit_triple v o (Post : _ -> _ -> Prop) : answer_of o = None -> forward_of o = None -> Post (Ok tt) v -> triple v (emit o) Post.
Proof. intros Ha Hf H w Hw. pose proof (view_emit o Ha Hf w) as Hq. cbv beta in Hq. by rewrite Hq, Hw. Qed.
Lemma tables_triple v f (Post : _ -> _ -> Prop) : Post (Ok tt) v -> triple v (modify (set_tables f)) Post.
Proof. intros H w <-. exact H. Qed.
Lemma forward_triple v id request (Post : _ -> _ -> Prop) :
  Post (Ok tt) (mkView (v_answers v) (v_forwards v ++ [id]) (v_tasks v) (v_next v) (v_rc v) (v_pracked v)) ->
  triple v (emit (ForwardReinvite id request)) Post.
Proof. intros H w <-. unfold view. cbn. rewrite !omap_app, app_nil_r. exact H. Qed.
Lemma answer_triple v id resp (Post : _ -> _ -> Prop) :
  Post (Ok tt) (with_answer id resp v) -> Post (Err tt) v -> triple v (answer_invite id resp) Post.
Proof.
  intros Hok Herr. apply wp_bind, accepted_triple. intros []; cbn [continue]; [by apply sent_triple | by apply wp_fail].
Qed.
Lemma tasks_triple v f (Post : _ -> _ -> Prop) : Post (Ok tt) (with_tasks f v) -> triple v (modify (set_in_tasks f)) Post.
Proof. intros H w <-. exact H. Qed.
Lemma rc_triple v f (Post : _ -> _ -> Prop) : Post (Ok tt) (with_rc f v) -> triple v (modify (set_waits (set_rc100rel f))) Post.
Proof. intros H w <-. exact H. Qed.

(** *** Handlers that end an INVITE *)

(** The responses [l] to the INVITE, of the status [P] says, and no more than
    one; exactly one when the handler was not cut short. *)
Record settles (id : nat) (call_id : string) (P : Z -> Prop) (v : View) (r : Prelude.outcome unit unit) (v' : View) : Prop := {
  se_answers : exists l, v_answers v' = v_answers v ++ map (pair id) l /\ (length l <= 1)%nat /\
    Forall (fun resp => P (status_code resp)) l /\ (r = Ok tt -> length l = 1%nat);
  se_forwards : v_forwards v' = v_forwards v;
  se_tasks : v_tasks v' = v_tasks v;
  se_next : v_next v' = v_next v;
  se_rc : v_rc v' = v_rc v \/ v_rc v' = delete call_id (v_rc v);
  se_pracked : v_pracked v' = v_pracked v
}.

Lemma settled id call_id (P : Z -> Prop) v v' resp r : P (status_code resp) -> v' = v \/ v' = with_rc (delete call_id) v ->
  settles id call_id P v r (with_answer id resp v').
Proof. intros Hp [-> | ->]; (split; [exists [resp]; auto | ..]); auto. Qed.
Lemma unsettled id call_id (P : Z -> Prop) v v' r : r <> Ok tt -> v' = v \/ v' = with_rc (delete call_id) v -> settles id call_id P v r v'.
Proof.
  intros Hr [-> | ->]; (split; [|auto..]); exists []; (split; [by rewrite app_nil_r|]); (split; [cbn; lia|]); by split.
Qed.
(** The reliable response is forgotten at the end. *)
Lemma settles_cleanup id call_id P v r v' : settles id call_id P v (Ok tt) v' -> settles id call_id P v r (with_rc (delete call_id) v').
Proof.
  intros [(l & Ha & Hl & Hp & H1) Hf Ht Hn [Hr | Hr] Hk]; (split; cbn; try done; [exists l; auto|]); right; rewrite Hr; [done|].
  apply delete_delete_eq.
Qed.

Lemma status_tag resp r : status_code (ensure_to_tag resp r) = status_code resp.
Proof. unfold ensure_to_tag. destruct (hdr_get _ _); [|done]. by destruct (negb _). Qed.
Lemma status_header resp n value : status_code (set_header resp n value) = status_code resp.
Proof. done. Qed.
Lemma status_uas_headers version e resp : status_code (apply_uas_inbound_2xx_headers version e resp) = status_code resp.
Proof. done. Qed.

Lemma respond_triple v id request status why (Post : _ -> _ -> Prop) :
  (forall resp, status_code resp = status -> Post (Ok tt) (with_answer id resp v)) -> Post (Err tt) v ->
  triple v (respond_invite id request status why) Post.
Proof.
  intros Hok Herr. apply wp_bind, draw_rnd_triple. intros r. cbn [continue]. apply answer_triple; [|done]. apply Hok. by rewrite status_tag.
Qed.

(** A response, and then nothing the view shows. *)
Lemma respond_settles v0 v id call_id (P : Z -> Prop) request status why (rest : handling unit) : P status -> quiet rest ->
  v = v0 \/ v = with_rc (delete call_id) v0 ->
  triple v (respond_invite id request status why ;; rest) (settles id call_id P v0).
Proof.
  intros Hp Hq Hv. apply wp_bind, respond_triple; cbn [continue].
  - intros resp Hs. apply wp_quiet; [done|]. intros r. apply settled; [by rewrite Hs | done].
  - by apply unsettled.
Qed.

Lemma cancelled_settles v id t now :
  triple v (invite_cancelled id t now) (settles id (it_call_id t) (fun s => s = 487) (with_tasks (delete id) v)).
Proof.
  apply wp_bind, tasks_triple. cbn [continue]. apply wp_bind, rc_triple. cbn [continue].
  apply respond_settles; [done | quiets | by right].
Qed.

(** *** The voicemail *)

Definition is_final (s : Z) : Prop := 200 <= s.

Lemma voicemail_triple v env id request call_id (Post : _ -> _ -> Prop) :
  (forall resp, status_code resp = 200 -> Post (Ok (Some true)) (with_answer id resp v)) ->
  Post (Ok (Some false)) v -> Post (Ok None) v -> Post Panic v ->
  triple v (attempt (try_start_voicemail cfg env id request call_id)) Post.
Proof.
  intros Hok Hfalse Hnone Hpanic. apply wp_attempt. unfold try_start_voicemail.
  destruct (negb _ || _); [by apply wp_ret|]. destruct (e_bind_ngn env _) as [sock|]; [|by apply wp_ret].
  destruct (rewrite_rtp_endpoint _ _ _ _) as [rewritten | e |]; [|by apply wp_ret | by apply wp_from_outcome].
  apply wp_bind, wp_from_outcome. destruct (contact_addr cfg) as [contact|]; cbn [ok_or continue]; [|done].
  apply wp_bind, draw_rnd_triple. intros r. cbn [continue]. apply wp_bind, accepted_triple. intros [|]; cbn [continue]; [|by apply wp_ret].
  apply wp_bind, sent_triple. cbn [continue]. apply wp_bind, emit_triple; [done..|]. cbn [continue].
  apply wp_bind, tables_triple. cbn [continue]. apply wp_ret, Hok. by rewrite status_header, status_uas_headers, status_tag.
Qed.

Lemma voicemail_or_settles v id env request call_id (P : Z -> Prop) (otherwise : handling unit) :
  P 200 -> triple v otherwise (settles id call_id P v) -> triple v (voicemail_or cfg env id request call_id otherwise) (settles id call_id P v).
Proof.
  intros Hp Ho. apply wp_bind, voicemail_triple; cbn [continue default from_option Datatypes.id].
  - intros resp Hs. apply wp_quiet; [quiets|]. intros r. apply settled; [by rewrite Hs | by left].
  - exact Ho.
  - exact Ho.
  - apply unsettled; [done | by left].
Qed.

(** *** The end of the fork *)

Lemma cleanup_settles v id call_id P (m : handling unit) :
  triple v m (settles id call_id P v) -> triple v (m ;; cleanup_rc100rel call_id) (settles id call_id P v).
Proof.
  intros H. apply wp_bind. eapply wp_conseq; [exact H|]. intros [[] | [] |] v' Hv; cbn [continue]; [|done..].
  apply rc_triple. by apply settles_cleanup.
Qed.

Lemma fork_failed_settles v env id t code why result : is_final code ->
  triple v (fork_failed cfg env id t code why result) (settles id (it_call_id t) is_final v).
Proof.
  intros Hc. apply cleanup_settles, voicemail_or_settles; [unfold is_final; lia|]. apply respond_settles; [done | quiets | by left].
Qed.

Lemma status_response env t body contact r : status_code (response_for_ngn cfg env t body contact r) = 200.
Proof.
  unfold response_for_ngn. rewrite status_header, status_uas_headers.
  destruct (it_timer t) as [tm|]; rewrite ?status_header; (destruct (it_tag t); [destruct (hdr_get _ _); rewrite ?status_header|rewrite status_tag]);
    by destruct (String.eqb body "").
Qed.

Lemma go_up_settles v env id t ws body : triple v (go_up cfg env id t ws body) (settles id (it_call_id t) is_final v).
Proof.
  assert (forall r, r <> Ok tt -> settles id (it_call_id t) is_final v r v) as Hcut by (intros; apply unsettled; auto).
  unfold go_up. apply wp_bind, wp_quiet; [quiets|]. intros [body' | [] |]; cbn [continue]; [|by apply Hcut..].
  apply wp_bind, wp_from_outcome. destruct (contact_addr cfg) as [contact|]; cbn [ok_or continue]; [|by apply Hcut].
  apply wp_bind, draw_rnd_triple. intros r. cbn [continue]. apply wp_bind, wp_quiet; [quiets|]. intros [d | [] |]; cbn [continue]; [|by apply Hcut..].
  apply wp_bind, answer_triple; cbn [continue]; [|by apply Hcut].
  set (v1 := with_answer _ _ v). assert (forall r, settles id (it_call_id t) is_final v r v1) as Hv1.
  { intros r'. apply settled; [|by left]. rewrite status_response. unfold is_final; lia. }
  do 3 (apply wp_bind, wp_quiet; [quiets|]; intros [[] | [] |]; cbn [continue]; [|by apply Hv1..]).
  apply wp_bind, wp_quiet; [quiets|]. intros [[] | [] |]; cbn [continue]; [|by apply Hv1..].
  apply wp_bind, wp_quiet; [quiets|]. intros [[] | [] |]; cbn [continue]; [|by apply Hv1..].
  apply rc_triple. by apply settles_cleanup.
Qed.

Lemma fork_answered_settles v env id t response h ws : triple v (fork_answered cfg env id t response h ws) (settles id (it_call_id t) is_final v).
Proof.
  pose proof quiet_start_bridge as Hsb. unfold fork_answered. apply wp_bind, wp_get. intros w _. cbn [continue].
  apply wp_bind, wp_quiet; [eauto with inbound typeclass_instances|]. intros [started | [] |]; cbn [continue]; [|apply unsettled; auto..].
  apply wp_bind. destruct started as [rewritten|].
  - apply wp_ret. cbn [continue]. apply go_up_settles.
  - destruct (_ || _).
    + apply wp_bind, wp_quiet; [quiets|]. intros [[] | [] |]; cbn [continue]; [|apply unsettled; auto..].
      apply wp_bind, rc_triple. cbn [continue]. apply wp_bind, respond_triple; cbn [continue]; [|apply unsettled; auto].
      intros resp Hs. assert (forall r, settles id (it_call_id t) is_final v r (with_answer id resp (with_rc (delete (it_call_id t)) v))) as Hv1.
      { intros r. apply settled; [rewrite Hs; unfold is_final; lia | by right]. }
      do 3 (apply wp_bind, wp_quiet; [quiets|]; intros [[] | [] |]; cbn [continue]; [|by apply Hv1..]).
      apply wp_ret. cbn [continue]. by apply wp_ret.
    + apply wp_ret. cbn [continue]. apply go_up_settles.
Qed.

(** *** An INVITE that comes *)

Definition rseq_of (resp : SipResponse) : option string := hdr_get (resp_headers resp) "rseq".
Definition finals (l : list SipResponse) : nat := length (List.filter (fun resp => 200 <=? status_code resp) l).
Definition plain (resp : SipResponse) : Prop := status_code resp < 200 -> rseq_of resp = None.

Lemma skeleton_rseq request status why r : rseq_of (build_response_skeleton request status why r) = None.
Proof.
  unfold rseq_of, build_response_skeleton. cbn [resp_headers]. rewrite hdr_get_head.
  by repeat (rewrite ?copy_header_get_all, ?fold_add_get_all, ?copy_to_get_all; eval_headers).
Qed.
Lemma rseq_header resp n value : same_header n "rseq" = false -> rseq_of (set_header resp n value) = rseq_of resp.
Proof. intros H. unfold rseq_of, set_header. cbn [resp_headers]. by rewrite hdr_get_set, H. Qed.
Lemma rseq_tag resp r : rseq_of (ensure_to_tag resp r) = rseq_of resp.
Proof.
  unfold ensure_to_tag. destruct (hdr_get _ _); [|done]. destruct (negb _); [|done]. unfold rseq_of. cbn [resp_headers].
  by rewrite hdr_get_set.
Qed.

Definition cid_of (resp : SipResponse) : option string := hdr_get (resp_headers resp) "call-id".
Lemma cid_header resp n value : same_header n "call-id" = false -> cid_of (set_header resp n value) = cid_of resp.
Proof. intros H. unfold cid_of, set_header. cbn [resp_headers]. by rewrite hdr_get_set, H. Qed.
Lemma cid_tag resp r : cid_of (ensure_to_tag resp r) = cid_of resp.
Proof.
  unfold ensure_to_tag. destruct (hdr_get _ _); [|done]. destruct (negb _); [|done]. unfold cid_of. cbn [resp_headers].
  by rewrite hdr_get_set.
Qed.
(** A response of the call [c] with the RSeq [n]. *)
Definition early_for (c : string) (n : Z) (resp : SipResponse) : Prop := cid_of resp = Some c /\ rseq_of resp = Some (print_uint n).

(** What the arrival of the INVITE [id] of a call comes to: refused, handed to the
    side of the calls to the NGN, or ringing. *)
Inductive arrival (id : nat) (call_id : string) (v : View) (r : Prelude.outcome unit unit) (v' : View) (l : list SipResponse) : Prop :=
  | arr_refused : v_tasks v' = v_tasks v -> v_forwards v' = v_forwards v -> (finals l <= 1)%nat -> (r = Ok tt -> finals l = 1%nat) ->
      Forall plain l -> v_rc v' = v_rc v \/ (exists rc, rc_id rc = id /\ v_rc v' = <[call_id := rc]> (v_rc v)) -> arrival id call_id v r v' l
  | arr_forward : v_tasks v' = v_tasks v -> v_forwards v' = v_forwards v ++ [id] -> finals l = 0%nat ->
      Forall plain l -> v_rc v' = v_rc v -> arrival id call_id v r v' l
  | arr_rings t : v_tasks v' = <[id := t]> (v_tasks v) -> it_call_id t = call_id -> it_phase t = Alerting ->
      v_forwards v' = v_forwards v -> finals l = 0%nat ->
      (if it_reliable t
       then exists rc ringing, rc_id rc = id /\ prack_tx rc = true /\ prack_rx rc = true /\ v_rc v' = <[call_id := rc]> (v_rc v) /\
         ringing ∈ l /\ early_for call_id (rseq rc) ringing
       else v_rc v' = v_rc v /\ Forall plain l) -> arrival id call_id v r v' l.
Record arrives (id : nat) (call_id : string) (v : View) (r : Prelude.outcome unit unit) (v' : View) : Prop := {
  ar_answers : exists l, v_answers v' = v_answers v ++ map (pair id) l /\ arrival id call_id v r v' l;
  ar_next : v_next v' = v_next v;
  ar_pracked : v_pracked v' = v_pracked v
}.

Lemma arrives_refused id call_id v r v1 v' l0 : finals l0 = 0%nat -> Forall plain l0 ->
  v_answers v1 = v_answers v ++ map (pair id) l0 -> v_forwards v1 = v_forwards v -> v_tasks v1 = v_tasks v -> v_next v1 = v_next v ->
  v_pracked v1 = v_pracked v -> v_rc v1 = v_rc v \/ (exists rc, rc_id rc = id /\ v_rc v1 = <[call_id := rc]> (v_rc v)) ->
  v' = v1 /\ r <> Ok tt \/ (exists resp, 200 <= status_code resp /\ v' = with_answer id resp v1) -> arrives id call_id v r v'.
Proof.
  intros Hf Hp Ha Hfw Ht Hn Hk Hrc [[-> Hr] | (resp & Hs & ->)]; (split; cbn; [|done..]).
  - exists l0. split; [done|]. apply arr_refused; [done | done | lia | by intros | done | done].
  - exists (l0 ++ [resp]). split; [by rewrite Ha, map_app, app_assoc|]. assert (finals (l0 ++ [resp]) = 1%nat) as H1.
    { unfold finals in *. rewrite List.filter_app, length_app, Hf. cbn. rewrite (proj2 (Z.leb_le _ _) Hs). done. }
    apply arr_refused; [done | done | lia | done | | done]. apply Forall_app. split; [done|]. constructor; [|done].
    intros Hlt. lia.
Qed.

Section arrival.
Context (id : nat) (call_id : string) (v : View) (trying : SipResponse).
Context (Htry : status_code trying = 100) (Hplain : rseq_of trying = None).
Abbreviation v1 := (with_answer id trying v).
Abbreviation arrived := (arrives id call_id v).

Lemma trying_finals : finals [trying] = 0%nat.
Proof using Htry. unfold finals. cbn. by rewrite Htry. Qed.
Lemma trying_plain : Forall plain [trying].
Proof using Hplain. constructor; [by intros _ | done]. Qed.

Lemma cut_short v2 r : r <> Ok tt -> v2 = v1 \/ (exists rc, rc_id rc = id /\ v2 = with_rc (insert call_id rc) v1) -> arrived r v2.
Proof using Htry Hplain.
  intros Hr [-> | (rc & Hrc & ->)].
  - apply (arrives_refused id call_id v r v1 _ [trying] trying_finals trying_plain); auto.
  - apply (arrives_refused id call_id v r (with_rc (insert call_id rc) v1) _ [trying] trying_finals trying_plain); cbn; eauto.
Qed.
Lemma refused_at resp r : 200 <= status_code resp -> arrived r (with_answer id resp v1).
Proof using Htry Hplain. intros Hs. apply (arrives_refused id call_id v r v1 _ [trying] trying_finals trying_plain); eauto. Qed.

(** A refusal, and then nothing the view shows. *)
Lemma refuse_arrives resp (rest : handling unit) : 200 <= status_code resp -> quiet rest -> triple v1 (answer_invite id resp ;; rest) arrived.
Proof using Htry Hplain.
  intros Hs Hq. apply wp_bind, answer_triple; cbn [continue]; [|apply cut_short; auto]. apply wp_quiet; [done|]. intros r. by apply refused_at.
Qed.
Lemma respond_arrives request status why (rest : handling unit) : 200 <= status -> quiet rest ->
  triple v1 (respond_invite id request status why ;; rest) arrived.
Proof using Htry Hplain.
  intros Hs Hq. apply wp_bind, respond_triple; cbn [continue]; [|apply cut_short; auto]. intros resp Hr.
  apply wp_quiet; [done|]. intros r. apply refused_at. lia.
Qed.

Lemma ringing_arrives t resp v2 : status_code resp = 180 -> it_call_id t = call_id -> it_phase t = Alerting ->
  (if it_reliable t then exists rc, rc_id rc = id /\ prack_tx rc = true /\ prack_rx rc = true /\ v2 = with_rc (insert call_id rc) v1 /\
     early_for call_id (rseq rc) resp
   else v2 = v1 /\ rseq_of resp = None) ->
  forall r, arrived r (with_tasks (insert id t) (with_answer id resp v2)).
Proof using Htry Hplain.
  intros Hs Hc Hp Hrel r.
  assert (v_answers v2 = v_answers v ++ [(id, trying)] /\ v_forwards v2 = v_forwards v /\ v_tasks v2 = v_tasks v /\ v_next v2 = v_next v /\
    v_pracked v2 = v_pracked v) as (Ha & Hf & Ht & Hn & Hk) by (destruct (it_reliable t); [destruct Hrel as (rc & _ & _ & _ & -> & _)|destruct Hrel as [-> _]]; done).
  split; cbn; [|done..]. exists [trying; resp]. split; [by rewrite Ha, <- app_assoc|]. apply (arr_rings id call_id v r _ _ t); cbn; [by rewrite Ht | done | done | done | |].
  - unfold finals. cbn. by rewrite Htry, Hs.
  - destruct (it_reliable t).
    + destruct Hrel as (rc & H1 & H2 & H3 & -> & H4). exists rc, resp. do 4 (split; [done|]). split; [right; by left | done].
    + destruct Hrel as [-> H]. split; [done|]. constructor; [by intros _|]. constructor; [by intros _ | done].
Qed.

Lemma ring_arrives env request remote via timer bindings : hdr_get (req_headers request) "call-id" = Some call_id ->
  triple v1 (ring cfg env id request remote via call_id timer bindings) arrived.
Proof using Htry Hplain.
  intros Hcid. unfold ring. cbv zeta. apply wp_bind, draw_rnd_triple. intros r. cbn [continue].
  apply wp_bind, wp_from_outcome. destruct (contact_addr cfg) as [contact|]; cbn [ok_or continue]; [|apply cut_short; auto].
  set (ringing := ensure_to_tag _ (r_tag r)). assert (status_code ringing = 180) as Hs by (by unfold ringing; rewrite status_tag, status_uas_headers, status_header).
  assert (rseq_of ringing = None) as Hn.
  { unfold ringing, apply_uas_inbound_2xx_headers. rewrite rseq_tag, !rseq_header by done. apply skeleton_rseq. }
  assert (cid_of ringing = Some call_id) as Hc.
  { unfold ringing, apply_uas_inbound_2xx_headers. rewrite cid_tag, !cid_header by done.
    destruct (skeleton_headers request 180 "Ringing" (r_skeleton r)) as (_ & _ & _ & Hsk & _). by transitivity (hdr_get (req_headers request) "call-id"). }
  clearbody ringing. destruct (_ || _).
  - apply wp_bind, wp_bind, draw_triple. intros n. cbn [continue]. apply wp_bind, rc_triple. cbn [continue]. apply wp_ret. cbn [continue].
    apply wp_bind, answer_triple; cbn [continue]; [|apply cut_short; [done|]; right; eexists; split; [|reflexivity]; done].
    apply tasks_triple, ringing_arrives; [by rewrite !status_header | done | done|]. cbn [it_reliable]. eexists. split; [|split; [|split; [|split; [reflexivity|]]]]; try done.
    split; [by rewrite !cid_header|]. rewrite rseq_header by done. unfold rseq_of, set_header. cbn [resp_headers]. by rewrite hdr_get_set.
  - apply wp_bind, wp_ret. cbn [continue]. apply wp_bind, answer_triple; cbn [continue]; [|apply cut_short; auto].
    apply tasks_triple, ringing_arrives; done.
Qed.

Lemma route_arrives a request remote via timer : hdr_get (req_headers request) "call-id" = Some call_id ->
  triple v1 (route_invite parse_hm cfg a id request remote via call_id timer) arrived.
Proof using Htry Hplain.
  intros Hcid. unfold route_invite. cbv zeta. apply wp_bind, wp_quiet; [quiets|]. intros [decision | [] |]; cbn [continue]; [|apply cut_short; auto..].
  case_bool_decide.
  - unfold voicemail_or. apply wp_bind, voicemail_triple; cbn [continue default from_option Datatypes.id].
    + intros resp Hs. apply wp_quiet; [quiets|]. intros r. apply refused_at. lia.
    + apply respond_arrives; [lia | quiets].
    + apply respond_arrives; [lia | quiets].
    + apply cut_short; auto.
  - apply wp_bind, wp_quiet; [quiets|]. intros [[] | [] |]; cbn [continue]; [|apply cut_short; auto..]. by apply ring_arrives.
Qed.
End arrival.

Definition next_id (v : View) : View := mkView (v_answers v) (v_forwards v) (v_tasks v) (S (v_next v)) (v_rc v) (v_pracked v).
Lemma new_triple v (Post : _ -> _ -> Prop) : Post (Ok tt) (next_id v) -> triple v (modify new_task) Post.
Proof. intros H w <-. exact H. Qed.

Lemma handle_invite_triple v a request remote :
  triple v (handle_invite parse_hm cfg a request remote) (fun r v' => (r <> Ok tt /\ v' = v) \/
    exists call_id, hdr_get (req_headers request) "call-id" = Some call_id /\ arrives (v_next v) call_id (next_id v) r v').
Proof.
  unfold handle_invite. cbv zeta. apply wp_bind, wp_from_outcome. destruct (hdr_get _ "call-id") as [call_id|] eqn:Hcid; cbn [ok_or continue]; [|by left].
  apply wp_bind, wp_from_outcome. destruct (server_new request remote) as [stx | e |]; cbn [continue]; [|by left..].
  apply wp_bind, wp_get. intros w Hw. cbn [continue]. apply wp_bind, new_triple. cbn [continue].
  assert (next_task (shared w) = v_next v) as -> by (by rewrite <- Hw).
  eapply wp_conseq; [|intros r v' H; right; exists call_id; split; [done | exact H]].
  apply wp_bind, wp_quiet; [quiets|]. intros [[] | [] |]; cbn [continue];
    [|by apply (arrives_refused _ _ _ _ (next_id v) _ []); rewrite ?app_nil_r; auto..].
  apply wp_bind, draw_triple. intros r0. cbn [continue].
  set (trying := build_response_skeleton request 100 "Trying" r0). assert (status_code trying = 100) as Htry by done.
  pose proof (skeleton_rseq request 100 "Trying" r0 : rseq_of trying = None) as Hplain. clearbody trying.
  apply wp_bind, answer_triple; cbn [continue]; [|by apply (arrives_refused _ _ _ _ (next_id v) _ []); rewrite ?app_nil_r; auto].
  apply wp_bind, wp_quiet; [quiets|]. intros [[] | [] |]; cbn [continue]; [|apply (cut_short _ _ _ trying); auto..].
  destruct (negb _).
  { apply wp_bind, draw_rnd_triple. intros r. cbn [continue]. apply refuse_arrives; [done | done | by rewrite status_tag | quiets]. }
  destruct (_ && _).
  { apply wp_bind, draw_rnd_triple. intros r. cbn [continue]. apply refuse_arrives; [done | done | by rewrite status_tag | quiets]. }
  destruct (match hdr_get _ "to" with Some _ => _ | None => _ end).
  - destruct (_ && _).
    + apply forward_triple. split; [|done..]. exists [trying]. split; [done|].
      apply arr_forward; [done | done | by apply trying_finals | by apply trying_plain | done].
    + apply respond_arrives; [done | done | lia | quiets].
  - by apply route_arrives.
Qed.

(** *** Every event *)

Definition no_tx (rc : Rc100relState) : Rc100relState := mkRc (rc_id rc) (rseq rc) (invite_cseq rc) false (prack_rx rc) (retransmit_task rc).
Definition no_rx (rc : Rc100relState) : Rc100relState := mkRc (rc_id rc) (rseq rc) (invite_cseq rc) (prack_tx rc) false (retransmit_task rc).
Definition with_retransmit (r : option Reliable.Retransmit) (rc : Rc100relState) : Rc100relState :=
  mkRc (rc_id rc) (rseq rc) (invite_cseq rc) (prack_tx rc) (prack_rx rc) r.

(** What the end of a fork may be told: a failure has a final status. *)
Definition result_ok (r : ForkResult) : Prop := match r with AllFailed (Some s) => is_final s | _ => True end.

(** The PRACK of [ev] is for [rc]. *)
Definition acknowledges (ev : InEvent) (call_id : string) (rc : Rc100relState) : Prop :=
  exists a request remote, ev = EvInbound a request remote /\ req_method request = Prack /\
    hdr_get (req_headers request) "call-id" = Some call_id /\ prack_matches request rc = true.

(** Why the handler of an INVITE need not wait for a PRACK. *)
Definition released (v : View) (t : InTask) : Prop :=
  match it_phase t with
  | AwaitingPrack _ k _ => k ∈ v_pracked v \/ ~ (exists rc, v_rc v !! it_call_id t = Some rc /\ rc_id rc = k /\ prack_tx rc = true)
  | _ => it_reliable t = true -> ~ (exists rc, v_rc v !! it_call_id t = Some rc /\ prack_rx rc = true)
  end.

Inductive effect (ev : InEvent) (v : View) (r : Prelude.outcome unit unit) (v' : View) : Prop :=
  | ef_none : v' = v -> effect ev v r v'
  | ef_invite a request remote call_id : ev = EvInbound a request remote -> req_method request = Invite ->
      hdr_get (req_headers request) "call-id" = Some call_id -> arrives (v_next v) call_id (next_id v) r v' -> effect ev v r v'
  | ef_phase id t : v_tasks v !! id = Some t -> it_phase t = Alerting -> v' = with_tasks (insert id (set_phase t Forking)) v -> effect ev v r v'
  | ef_waits id t rc result until : v_tasks v !! id = Some t -> v_rc v !! it_call_id t = Some rc -> prack_rx rc = true -> it_phase t = Forking ->
      it_reliable t = true -> result_ok result -> v' = with_tasks (insert id (set_phase t (AwaitingPrack result (rc_id rc) until))) (with_rc (insert (it_call_id t) (no_rx rc)) v) ->
      effect ev v r v'
  | ef_cut id t s : v_tasks v !! id = Some t -> s = 487 \/ s = 408 ->
      settles id (it_call_id t) (fun s' => s' = s) (with_tasks (delete id) v) r v' -> effect ev v r v'
  | ef_finished id t : v_tasks v !! id = Some t -> released v t ->
      settles id (it_call_id t) is_final (with_tasks (delete id) v) r v' -> effect ev v r v'
  | ef_resend c rc x : v_rc v !! c = Some rc -> v' = with_rc (insert c (with_retransmit x rc)) v -> effect ev v r v'
  | ef_prack c rc pr : acknowledges ev c rc -> v_rc v !! c = Some rc ->
      (pr = v_pracked v \/ pr = {[rc_id rc]} ∪ v_pracked v) ->
      (v' = with_rc (insert c (no_tx rc)) v \/ v' = mkView (v_answers v) (v_forwards v) (v_tasks v) (v_next v) (delete c (v_rc v)) pr) ->
      effect ev v r v'.

Lemma quiet_effect ev v (m : handling unit) : quiet m -> triple v m (effect ev v).
Proof. intros H. apply wp_quiet; [done|]. intros r. by apply ef_none. Qed.

Lemma pracked_triple v id (Post : _ -> _ -> Prop) :
  Post (Ok tt) (mkView (v_answers v) (v_forwards v) (v_tasks v) (v_next v) (v_rc v) ({[id]} ∪ v_pracked v)) ->
  triple v (modify (set_waits (set_pracked id))) Post.
Proof. intros H w <-. exact H. Qed.

Lemma prack_effect a request remote v : req_method request = Prack ->
  triple v (handle_prack request remote) (effect (EvInbound a request remote) v).
Proof.
  intros Hm. unfold handle_prack. cbv zeta. apply wp_bind, wp_get. intros w Hw. cbn [continue].
  assert (rc100rel (waits (shared w)) = v_rc v) as -> by (by rewrite <- Hw).
  destruct (hdr_get (req_headers request) "call-id") as [c|] eqn:Hc; cbn; [|apply quiet_effect; quiets].
  destruct (v_rc v !! c) as [rc|] eqn:Hrc; cbn; [|apply quiet_effect; quiets].
  destruct (prack_matches request rc) eqn:Hp; cbn [negb]; [|apply quiet_effect; quiets].
  assert (acknowledges (EvInbound a request remote) c rc) as Hack by (by exists a, request, remote).
  apply wp_bind, rc_triple. cbn [continue]. change (mkRc _ _ _ false _ _) with (no_tx rc).
  apply wp_bind, wp_quiet; [quiets|]. intros [[] | [] |]; cbn [continue]; [|by apply (ef_prack _ v _ _ c rc (v_pracked v)); auto..].
  destruct (prack_tx rc); apply wp_bind; [apply pracked_triple | apply wp_ret]; cbn [continue]; apply rc_triple.
  - apply (ef_prack _ v _ _ c rc ({[rc_id rc]} ∪ v_pracked v)); [done | done | by right|]. right. unfold with_rc. cbn. by rewrite delete_insert_eq.
  - apply (ef_prack _ v _ _ c rc (v_pracked v)); [done | done | by left|]. right. unfold with_rc. cbn. by rewrite delete_insert_eq.
Qed.

Lemma finish_settles env v id t result : result_ok result ->
  triple v (finish_invite cfg env id t result) (settles id (it_call_id t) is_final (with_tasks (delete id) v)).
Proof.
  intros Hr. apply wp_bind, tasks_triple. cbn [continue].
  destruct result as [uri response h ws | last |]; [apply fork_answered_settles | apply fork_failed_settles | apply fork_failed_settles; unfold is_final; lia].
  destruct last; cbn in *; [done | unfold is_final; lia].
Qed.

Lemma cut_effect ev v id t (m : handling unit) s : v_tasks v !! id = Some t -> s = 487 \/ s = 408 ->
  triple v m (settles id (it_call_id t) (fun s' => s' = s) (with_tasks (delete id) v)) -> triple v m (effect ev v).
Proof. intros Ht Hs H. eapply wp_conseq; [exact H|]. intros r v' Hv. by eapply ef_cut. Qed.
Lemma finished_effect ev env v id t result : v_tasks v !! id = Some t -> result_ok result -> released v t ->
  triple v (finish_invite cfg env id t result) (effect ev v).
Proof. intros Ht Hr Hrel. eapply wp_conseq; [by apply finish_settles|]. intros r v' Hv. by eapply ef_finished. Qed.

Lemma fork_done_effect ev env v id t result : v_tasks v !! id = Some t -> it_phase t = Forking -> result_ok result ->
  triple v (fork_done cfg env id t result) (effect ev v).
Proof.
  intros Ht Hp Hr. apply wp_bind, wp_get. intros w Hw. cbn [continue]. assert (rc100rel (waits (shared w)) = v_rc v) as -> by (by rewrite <- Hw).
  case_bool_decide; [apply (cut_effect _ _ id t _ 487); [done | by left | apply cancelled_settles]|].
  apply wp_bind, wp_quiet; [quiets|]. intros [[] | [] |]; cbn [continue]; [|by apply ef_none..].
  destruct (it_reliable t) eqn:Hrel; [destruct (v_rc v !! it_call_id t) as [rc|] eqn:Hrc; [destruct (prack_rx rc) eqn:Hrx|]|].
  - apply wp_bind, rc_triple. cbn [continue]. apply tasks_triple. by apply (ef_waits _ v _ _ id t rc result (e_now env + PRACK_TIMER)).
  - apply finished_effect; [done | done|]. unfold released. rewrite Hp. intros _ (rc' & H1 & H2). congruence.
  - apply finished_effect; [done | done|]. unfold released. rewrite Hp. intros _ (rc' & H1 & H2). congruence.
  - apply finished_effect; [done | done|]. unfold released. rewrite Hp. congruence.
Qed.

Lemma prack_wake_effect ev env v id t result k until : v_tasks v !! id = Some t -> it_phase t = AwaitingPrack result k until -> result_ok result ->
  triple v (prack_wake cfg env id t result k until) (effect ev v).
Proof.
  intros Ht Hp Hr. unfold prack_wake. cbv zeta. apply wp_bind, wp_get. intros w Hw. cbn [continue].
  assert (rc100rel (waits (shared w)) = v_rc v) as -> by (by rewrite <- Hw). assert (pracked (waits (shared w)) = v_pracked v) as -> by (by rewrite <- Hw).
  set (waiting := match _ with Some _ => _ | None => _ end). destruct (bool_decide (k ∈ v_pracked v) || negb waiting) eqn:Hw'.
  - apply finished_effect; [done | done|]. unfold released. rewrite Hp. apply orb_true_iff in Hw' as [Hk | Hk].
    + left. by apply bool_decide_eq_true in Hk.
    + right. intros (rc & Hrc & Hid & Htx). apply negb_true_iff in Hk. subst waiting. rewrite Hrc, Hid, Htx, Nat.eqb_refl in Hk. done.
  - destruct (until <=? e_now env); [|by apply wp_ret, ef_none].
    apply (cut_effect _ _ id t _ 408); [done | by right|]. apply wp_bind, tasks_triple. cbn [continue]. apply wp_bind, rc_triple. cbn [continue].
    apply respond_settles; [done | quiets | by right].
Qed.

Lemma resend_effect ev c now v : triple v (resend_18x c now) (effect ev v).
Proof.
  unfold resend_18x. apply wp_bind, wp_get. intros w Hw. cbn [continue]. assert (rc100rel (waits (shared w)) = v_rc v) as -> by (by rewrite <- Hw).
  destruct (v_rc v !! c) as [rc|] eqn:Hrc; cbn; [|by apply wp_ret, ef_none].
  destruct (retransmit_task rc) as [x|]; cbn; [|by apply wp_ret, ef_none].
  apply wp_bind, wp_quiet; [quiets|]. intros [ok | [] |]; cbn [continue]; [|by apply ef_none..].
  destruct (Reliable.retransmit_wake x now ok) as [sends x']. apply wp_bind, rc_triple. cbn [continue].
  apply wp_quiet; [quiets|]. intros r. by apply (ef_resend _ v _ _ c rc x').
Qed.

(** The results of the forks in the events. *)
Definition event_ok (ev : InEvent) : Prop := match ev with EvForkDone _ _ result => result_ok result | _ => True end.
Definition results_ok (v : View) : Prop := forall id t result k until,
  v_tasks v !! id = Some t -> it_phase t = AwaitingPrack result k until -> result_ok result.

Lemma task_effect ev v id (f : InTask -> handling unit) :
  (forall t, v_tasks v !! id = Some t -> triple v (f t) (effect ev v)) -> triple v (with_task id f) (effect ev v).
Proof.
  intros H. apply wp_bind, wp_get. intros w Hw. cbn [continue]. assert (in_tasks (shared w) = v_tasks v) as -> by (by rewrite <- Hw).
  destruct (v_tasks v !! id) as [t|]; [by apply H | by apply wp_ret, ef_none].
Qed.

Lemma inbound_effect a request remote v : triple v (handle_inbound parse_hm cfg a request remote) (effect (EvInbound a request remote) v).
Proof.
  unfold handle_inbound. cbv zeta. destruct (req_method request) eqn:Hm; try solve [apply quiet_effect; quiets].
  - eapply wp_conseq; [apply handle_invite_triple|]. intros r v' [[_ ->] | (call_id & Hc & Ha)]; [by apply ef_none|]. by eapply ef_invite.
  - apply quiet_effect. unfold handle_bye. quiets.
  - apply quiet_effect. unfold handle_cancel. quiets.
  - by apply prack_effect.
  - apply quiet_effect. unfold handle_message. quiets.
Qed.

Lemma event_effect ev v : event_ok ev -> results_ok v -> triple v (handle_event parse_hm cfg ev) (effect ev v).
Proof.
  intros Hok Hres. destruct ev as [a request remote | id | env id result | id now | env id | c now | ws | i now | closed | c digit];
    cbn [handle_event event_ok] in *.
  - apply inbound_effect.
  - apply task_effect. intros t Ht. destruct (it_phase t) eqn:Hp; try (by apply wp_ret, ef_none). unfold start_fork.
    apply wp_bind, wp_quiet; [quiets|]. intros [[] | [] |]; cbn [continue]; [|by apply ef_none..].
    apply wp_bind, tasks_triple. cbn [continue]. apply emit_triple; [done..|]. by eapply ef_phase.
  - apply task_effect. intros t Ht. destruct (it_phase t) eqn:Hp; try (by apply wp_ret, ef_none). by apply fork_done_effect.
  - apply task_effect. intros t Ht. apply wp_bind, wp_get. intros w Hw. cbn [continue].
    destruct (it_phase t) eqn:Hp; try (by apply wp_ret, ef_none). case_bool_decide; [|by apply wp_ret, ef_none].
    apply (cut_effect _ _ id t _ 487); [done | by left | apply cancelled_settles].
  - apply task_effect. intros t Ht. destruct (it_phase t) eqn:Hp; try (by apply wp_ret, ef_none).
    apply prack_wake_effect; [done | done | by eapply Hres].
  - apply resend_effect.
  - apply quiet_effect. unfold close_pwa_inbound. quiets.
  - apply quiet_effect. unfold close_next, send_bye. quiets.
  - apply quiet_effect. unfold sweep_webrtc_active. quiets.
  - apply quiet_effect. unfold inject_dtmf_to_ngn. quiets.
Qed.
End inbound.

(** ** Every INVITE is answered once *)

Definition final_answer (id : nat) (p : nat * SipResponse) : bool := (p.1 =? id)%nat && (200 <=? status_code p.2).
Definition done_count (v : View) (id : nat) : nat :=
  length (List.filter (final_answer id) (v_answers v)) + length (List.filter (Nat.eqb id) (v_forwards v)).

(** [whole]: no handler was cut short so far. *)
Record accounted (whole : Prop) (v : View) : Prop := {
  ac_once : forall id, (done_count v id <= 1)%nat;
  ac_task : forall id t, v_tasks v !! id = Some t -> done_count v id = 0%nat /\ (id < v_next v)%nat;
  ac_next : forall id, (v_next v <= id)%nat -> done_count v id = 0%nat;
  ac_all : whole -> forall id, (id < v_next v)%nat -> v_tasks v !! id = None -> done_count v id = 1%nat
}.

Lemma count_map id id' l : length (List.filter (final_answer id) (map (pair id') l)) = if decide (id' = id) then finals l else 0%nat.
Proof.
  unfold finals. induction l as [|x l IH]; cbn; [by destruct (decide _)|]. unfold final_answer at 1. cbn. destruct (decide (id' = id)) as [-> | Hne].
  - rewrite Nat.eqb_refl. cbn. destruct (200 <=? status_code x); cbn; by rewrite IH.
  - rewrite (proj2 (Nat.eqb_neq id' id)) by done. exact IH.
Qed.
Lemma done_answers v v' id l x : v_answers v' = v_answers v ++ map (pair id) l -> v_forwards v' = v_forwards v ->
  done_count v' x = (done_count v x + if decide (id = x) then finals l else 0)%nat.
Proof. intros Ha Hf. unfold done_count. rewrite Ha, Hf, List.filter_app, length_app, count_map. lia. Qed.
Lemma done_same v v' x : v_answers v' = v_answers v -> v_forwards v' = v_forwards v -> done_count v' x = done_count v x.
Proof. intros Ha Hf. unfold done_count. by rewrite Ha, Hf. Qed.

Lemma finals_all l : Forall (fun resp => is_final (status_code resp)) l -> finals l = length l.
Proof.
  unfold finals. induction 1 as [|x l Hx Hl IH]; cbn; [done|]. unfold is_final in Hx. rewrite (proj2 (Z.leb_le _ _) Hx). cbn. by rewrite IH.
Qed.

(** The tasks are the same ones. *)
Lemma accounted_same whole v v' : v_answers v' = v_answers v -> v_forwards v' = v_forwards v -> v_next v' = v_next v ->
  (forall id, is_Some (v_tasks v' !! id) <-> is_Some (v_tasks v !! id)) -> accounted whole v -> accounted whole v'.
Proof.
  intros Ha Hf Hn Ht [H1 H2 H3 H4]. assert (forall x, done_count v' x = done_count v x) as Hd by (intros; by apply done_same). split.
  - intros id. by rewrite Hd.
  - intros id t Hid. destruct (proj1 (Ht id) (mk_is_Some _ _ Hid)) as [t' Ht']. rewrite Hd, Hn. by eapply H2.
  - intros id Hid. rewrite Hd. apply H3. by rewrite <- Hn.
  - intros Hw id Hid Hnone. rewrite Hd. apply H4; [done | by rewrite <- Hn|]. apply eq_None_not_Some. rewrite <- Ht. by apply eq_None_not_Some.
Qed.

Lemma accounted_settles (whole : Prop) v id t call_id P r v' : v_tasks v !! id = Some t -> (forall s, P s -> is_final s) ->
  settles id call_id P (with_tasks (delete id) v) r v' -> accounted whole v -> accounted (whole /\ r = Ok tt) v'.
Proof.
  intros Ht HP [(l & Ha & Hl & Hp & Hr) Hf Hts Hn _ _] [H1 H2 H3 H4]. cbn in *.
  assert (forall x, done_count v' x = done_count v x + if decide (id = x) then length l else 0)%nat as Hd.
  { intros x. rewrite (done_answers v v' id l) by done. rewrite finals_all; [done|]. eapply Forall_impl; [exact Hp|]. auto. }
  destruct (H2 id t Ht) as [H0 Hlt]. split.
  - intros x. rewrite Hd. specialize (H1 x). destruct (decide (id = x)) as [<- |]; lia.
  - intros x tx Hx. rewrite Hts in Hx. apply lookup_delete_Some in Hx as [Hne Hx]. rewrite Hd, decide_False by done. rewrite Hn.
    destruct (H2 x tx Hx). split; lia.
  - intros x Hx. rewrite Hn in Hx. rewrite Hd, decide_False by lia. rewrite H3; lia.
  - intros [Hw Hok] x Hx Hnone. rewrite Hn in Hx. rewrite Hd. destruct (decide (id = x)) as [<- | Hne]; [rewrite (Hr Hok); lia|].
    rewrite Hts, lookup_delete_ne in Hnone by done. rewrite (H4 Hw x Hx Hnone). lia.
Qed.

Lemma accounted_arrives (whole : Prop) v call_id r v' : arrives (v_next v) call_id (next_id v) r v' ->
  accounted whole v -> accounted (whole /\ r = Ok tt) v'.
Proof.
  intros [(l & Ha & Harr) Hn _] [H1 H2 H3 H4]. cbn in Ha, Hn. set (id := v_next v) in *.
  assert (done_count v id = 0%nat) as H0 by (apply H3; lia).
  assert (v_tasks v !! id = None) as Hfresh by (destruct (v_tasks v !! id) as [t|] eqn:Ht; [apply H2 in Ht; lia | done]).
  assert (exists k, (k <= 1)%nat /\ (forall x, done_count v' x = done_count v x + if decide (id = x) then k else 0)%nat /\
    (forall x, x <> id -> v_tasks v' !! x = v_tasks v !! x) /\ (is_Some (v_tasks v' !! id) -> k = 0%nat) /\
    (r = Ok tt -> v_tasks v' !! id = None -> k = 1%nat)) as (k & Hk & Hd & Hts & Ht0 & Ht1).
  { destruct Harr as [Ht Hf Hfin Hfin' _ _ | Ht Hf Hfin _ _ | t Ht _ _ Hf Hfin _]; cbn in Ht, Hf.
    - exists (finals l). split; [done|]. split; [intros x; by apply done_answers|]. rewrite Ht. split; [done|]. split; [by rewrite Hfresh; intros [? ?] | auto].
    - exists 1%nat. split; [done|]. split; [|rewrite Ht, Hfresh; split; [done|]; split; [by intros [? ?] | done]].
      intros x. unfold done_count. rewrite Ha, Hf, !List.filter_app, !length_app, count_map, Hfin. cbn [List.filter]. destruct (decide (id = x)) as [<- | Hne].
      + rewrite Nat.eqb_refl. cbn. lia.
      + rewrite (proj2 (Nat.eqb_neq x id)) by congruence. cbn. lia.
    - exists 0%nat. split; [lia|]. split; [intros x; rewrite (done_answers v v' id l x Ha Hf), Hfin; lia|]. rewrite Ht. split; [|split; [done|]].
      + intros x Hx. by rewrite lookup_insert_ne.
      + intros _ Hnone. by rewrite lookup_insert_eq in Hnone. }
  split.
  - intros x. rewrite Hd. specialize (H1 x). destruct (decide (id = x)) as [<- |]; lia.
  - intros x tx Hx. rewrite Hd, Hn. destruct (decide (id = x)) as [<- | Hne]; [rewrite (Ht0 (mk_is_Some _ _ Hx)); lia|].
    rewrite Hts in Hx by congruence. destruct (H2 x tx Hx). lia.
  - intros x Hx. rewrite Hn in Hx. rewrite Hd, decide_False by lia. rewrite H3; lia.
  - intros [Hw Hok] x Hx Hnone. rewrite Hn in Hx. rewrite Hd. destruct (decide (id = x)) as [<- | Hne]; [rewrite (Ht1 Hok Hnone); lia|].
    rewrite Hts in Hnone by congruence. rewrite (H4 Hw x); [lia | lia | done].
Qed.

Lemma results_subset v v' : (forall id t, v_tasks v' !! id = Some t -> v_tasks v !! id = Some t \/ (forall res k u, it_phase t <> AwaitingPrack res k u)) ->
  results_ok v -> results_ok v'.
Proof. intros H Hr id t res k u Ht Hp. destruct (H id t Ht) as [H' | H']; [by eapply Hr | by destruct (H' res k u)]. Qed.

Lemma effect_results ev v r v' : effect ev v r v' -> results_ok v -> results_ok v'.
Proof.
  intros He Hr. destruct He as [-> | a req remote c _ _ _ [(l & _ & Harr) _ _] | id t Ht Hp -> | id t rc result until Ht Hrc Hrx Hp Hrel Hok ->
    | id t s Ht Hs Hset | id t Ht Hrel Hset | c rc x Hrc -> | c rc pr _ Hrc _ Hv'].
  - done.
  - revert Hr. apply results_subset. intros x tx Hx.
    destruct Harr as [Hts _ _ _ _ _ | Hts _ _ _ _ | t Hts _ Hp _ _ _]; rewrite Hts in Hx; [by left | by left|].
    apply lookup_insert_Some in Hx as [[_ <-] | [_ Hx]]; [right; by rewrite Hp | by left].
  - revert Hr. apply results_subset. intros x tx Hx. cbn in Hx. apply lookup_insert_Some in Hx as [[_ <-] | [_ Hx]]; [by right | by left].
  - intros x tx res k u Hx Hph. cbn in Hx. apply lookup_insert_Some in Hx as [[_ <-] | [_ Hx]]; [by injection Hph as <- _ _ | by eapply Hr].
  - revert Hr. apply results_subset. intros x tx Hx. rewrite (se_tasks _ _ _ _ _ _ Hset) in Hx. cbn in Hx. left. by apply lookup_delete_Some in Hx as [_ Hx].
  - revert Hr. apply results_subset. intros x tx Hx. rewrite (se_tasks _ _ _ _ _ _ Hset) in Hx. cbn in Hx. left. by apply lookup_delete_Some in Hx as [_ Hx].
  - revert Hr. apply results_subset. by left.
  - revert Hr. apply results_subset. intros x tx Hx. left. by destruct Hv' as [-> | ->].
Qed.

Lemma is_Some_insert {A} (m : gmap nat A) i x y j : m !! i = Some x -> is_Some (<[i := y]> m !! j) <-> is_Some (m !! j).
Proof. intros Hi. destruct (decide (i = j)) as [<- | Hne]; [rewrite lookup_insert_eq, Hi; by split | by rewrite lookup_insert_ne]. Qed.

Lemma accounted_weaken (whole whole' : Prop) v : (whole' -> whole) -> accounted whole v -> accounted whole' v.
Proof. intros H []. split; auto. Qed.

Lemma effect_accounted ev whole v r v' : effect ev v r v' -> accounted whole v -> accounted (whole /\ r = Ok tt) v'.
Proof.
  intros He Ha. assert (accounted (whole /\ r = Ok tt) v) as Ha' by (eapply accounted_weaken; [|exact Ha]; tauto).
  destruct He as [-> | a req remote c _ _ _ Harr | id t Ht Hp -> | id t rc result until Ht Hrc Hrx Hp Hrel Hok ->
    | id t s Ht Hs Hset | id t Ht Hrel Hset | c rc x Hrc -> | c rc pr _ Hrc _ Hv'].
  - done.
  - by eapply accounted_arrives.
  - revert Ha'. apply accounted_same; try done. intros x. by eapply is_Some_insert.
  - revert Ha'. apply accounted_same; try done. intros x. by eapply is_Some_insert.
  - eapply accounted_settles; [done | | done | done]. intros s' ->. unfold is_final. destruct Hs; lia.
  - by eapply accounted_settles.
  - revert Ha'. by apply accounted_same.
  - revert Ha'. apply accounted_same; by destruct Hv' as [-> | ->].
Qed.

Section runs.
Context (parse_hm : string -> option Z) (cfg : InConfig).

(** No handler was cut short, by an error or a panic. *)
Fixpoint uncut (w : world) (evs : list InEvent) : Prop :=
  match evs with
  | [] => True
  | ev :: evs => (handle_event parse_hm cfg ev w).1 = Ok tt /\ uncut (step parse_hm cfg w ev) evs
  end.

Lemma step_effect ev w : event_ok ev -> results_ok (view w) ->
  effect ev (view w) (handle_event parse_hm cfg ev w).1 (view (step parse_hm cfg w ev)).
Proof. intros Hok Hr. by apply event_effect. Qed.

Lemma accounted_run evs : forall whole w, Forall event_ok evs -> results_ok (view w) -> accounted whole (view w) ->
  accounted (whole /\ uncut w evs) (view (run parse_hm cfg w evs)).
Proof.
  induction evs as [|ev evs IH]; intros whole w Hok Hr Ha; cbn [run fold_left uncut].
  - eapply accounted_weaken; [|exact Ha]. tauto.
  - apply Forall_cons in Hok as [He Hok]. pose proof (step_effect ev w He Hr) as Heff.
    eapply accounted_weaken; [|apply (IH (whole /\ (handle_event parse_hm cfg ev w).1 = Ok tt) (step parse_hm cfg w ev))];
      [tauto | done | by eapply effect_results | by eapply effect_accounted].
Qed.

Lemma initial_accounted books oks answers rnds : accounted True (view (mkWorld (in_initial books) oks answers rnds [])).
Proof. split; cbn; [intros; unfold done_count; cbn; lia | done | done | intros _ id H; lia]. Qed.

(** C4: Whatever the NGN, the extensions, the browsers and the clocks do, the handling of
    an INVITE that arrived from the NGN is settled at most once, by a final response or
    by handing it over as the re-INVITE of a call that an extension placed, and not
    while an extension may still take the call. In a run in which no handler was cut
    short by a send that failed or a panic it is settled exactly once when its handler
    is done. Every arrival counts for itself: the code takes a retransmitted INVITE as
    a new one. *)
Theorem invite_answered_once (books : Books) (oks : list bool) (answers : list (option SipResponse)) (rnds : list Z) (evs : list InEvent)
    (Hok : Forall event_ok evs) :
  let w0 := mkWorld (in_initial books) oks answers rnds [] in
  let w := run parse_hm cfg w0 evs in
  (forall id, (done_count (view w) id <= 1)%nat) /\
  (forall id t, in_tasks (shared w) !! id = Some t -> done_count (view w) id = 0%nat) /\
  (uncut w0 evs -> forall id, (id < next_task (shared w))%nat -> in_tasks (shared w) !! id = None -> done_count (view w) id = 1%nat).
Proof.
  intros w0 w. destruct (accounted_run evs True w0) as [H1 H2 _ H4]; [done | done | apply initial_accounted|]. fold w in H1, H2, H4.
  split; [done|]. split; [intros id t Ht; by eapply H2|]. intros Hu. by apply H4.
Qed.
End runs.

(** ** No final response before the PRACK *)

(** A PRACK came, in the same call, for the RSeq of a response to the INVITE. *)
Definition acked (evs : list InEvent) (v : View) (id : nat) : Prop :=
  exists ev c rc ringing, ev ∈ evs /\ acknowledges ev c rc /\ (id, ringing) ∈ v_answers v /\ early_for c (rseq rc) ringing.
Definition invite_id (ev : InEvent) : option string :=
  match ev with
  | EvInbound _ request _ => if decide (req_method request = Invite) then hdr_get (req_headers request) "call-id" else None
  | _ => None
  end.
Definition invite_ids (evs : list InEvent) : list string := omap invite_id evs.

Definition waiting (v : View) (id : nat) (t : InTask) : Prop :=
  exists rc, v_rc v !! it_call_id t = Some rc /\ rc_id rc = id /\ prack_tx rc = true /\
    ((forall res k u, it_phase t <> AwaitingPrack res k u) -> prack_rx rc = true).
(** An early response that asks for a PRACK. *)
Definition reliable_early (v : View) (id : nat) : Prop :=
  exists ringing, (id, ringing) ∈ v_answers v /\ status_code ringing < 200 /\ is_Some (rseq_of ringing).
Definition other_final (resp : SipResponse) : Prop := is_final (status_code resp) /\ status_code resp <> 487 /\ status_code resp <> 408.

Record waits_ok (evs : list InEvent) (v : View) : Prop := {
  wo_next : forall id resp, (id, resp) ∈ v_answers v -> (id < v_next v)%nat;
  wo_task : forall id t, v_tasks v !! id = Some t -> (id < v_next v)%nat /\ it_call_id t ∈ invite_ids evs /\
    (forall res k u, it_phase t = AwaitingPrack res k u -> k = id);
  wo_distinct : forall id t id' t', v_tasks v !! id = Some t -> v_tasks v !! id' = Some t' -> it_call_id t = it_call_id t' -> id = id';
  wo_rc : forall c rc, v_rc v !! c = Some rc -> c ∈ invite_ids evs /\ (rc_id rc < v_next v)%nat /\
    (forall t, v_tasks v !! rc_id rc = Some t -> it_call_id t = c /\
       exists ringing, (rc_id rc, ringing) ∈ v_answers v /\ early_for c (rseq rc) ringing) /\
    (forall id t, v_tasks v !! id = Some t -> it_call_id t = c -> rc_id rc = id);
  wo_wait : forall id t, v_tasks v !! id = Some t -> it_reliable t = true -> acked evs v id \/ waiting v id t;
  wo_plain : forall id t resp, v_tasks v !! id = Some t -> it_reliable t = false -> (id, resp) ∈ v_answers v -> plain resp;
  wo_pracked : forall k, k ∈ v_pracked v -> (k < v_next v)%nat /\ forall t, v_tasks v !! k = Some t -> acked evs v k;
  wo_final : forall id resp, (id, resp) ∈ v_answers v -> other_final resp -> reliable_early v id -> acked evs v id
}.

Lemma acked_more evs evs' v v' id : evs ⊆ evs' -> v_answers v ⊆ v_answers v' -> acked evs v id -> acked evs' v' id.
Proof. intros He Ha (ev & c & rc & ringing & H1 & H2 & H3 & H4). exists ev, c, rc, ringing. auto. Qed.
Lemma invite_ids_more evs ev c : c ∈ invite_ids evs -> c ∈ invite_ids (evs ++ [ev]).
Proof. unfold invite_ids. rewrite omap_app, elem_of_app. by left. Qed.

(** Steps that start no INVITE: tasks and reliable responses only go away or move
    on, and only one INVITE is answered. *)
Record moves (v v' : View) (id0 : nat) (l : list SipResponse) : Prop := {
  mo_answers : v_answers v' = v_answers v ++ map (pair id0) l;
  mo_next : v_next v' = v_next v;
  mo_tasks : forall id t', v_tasks v' !! id = Some t' -> exists t, v_tasks v !! id = Some t /\
    it_call_id t' = it_call_id t /\ it_reliable t' = it_reliable t;
  mo_rc : forall c rc', v_rc v' !! c = Some rc' -> exists rc, v_rc v !! c = Some rc /\ rc_id rc' = rc_id rc /\ rseq rc' = rseq rc
}.

Lemma in_moved v v' id0 l id resp : moves v v' id0 l -> (id, resp) ∈ v_answers v' -> (id, resp) ∈ v_answers v \/ (id = id0 /\ resp ∈ l).
Proof.
  intros [Ha _ _ _] H. rewrite Ha in H. apply elem_of_app in H as [H | H]; [by left|]. right. by apply list_elem_of_fmap in H as (x & [= -> ->] & Hx).
Qed.

Lemma waits_moves evs ev v v' id0 l : waits_ok evs v -> moves v v' id0 l ->
  is_Some (v_tasks v !! id0) \/ l = [] -> Forall (fun resp => is_final (status_code resp)) l ->
  (l <> [] -> v_tasks v' !! id0 = None) ->
  (forall id t res k u, v_tasks v' !! id = Some t -> it_phase t = AwaitingPrack res k u -> k = id) ->
  (forall id t, v_tasks v' !! id = Some t -> it_reliable t = true -> acked (evs ++ [ev]) v' id \/ waiting v' id t) ->
  (forall k, k ∈ v_pracked v' -> (k < v_next v)%nat /\ forall t, v_tasks v' !! k = Some t -> acked (evs ++ [ev]) v' k) ->
  (forall resp, resp ∈ l -> other_final resp -> reliable_early v id0 -> acked evs v id0) ->
  waits_ok (evs ++ [ev]) v'.
Proof.
  intros Hv Hm Hs0 Hl Hgone Hph Hwait Hpr Hfin. pose proof Hm as [Ha Hn Ht Hr]. destruct Hv as [W1 W2 W3 W4 _ W6 _ W8].
  assert (forall id, acked evs v id -> acked (evs ++ [ev]) v' id) as Hmono.
  { intros id. apply acked_more; [by apply list_subseteq_app_l | rewrite Ha; by apply list_subseteq_app_l]. }
  assert (forall id, reliable_early v' id -> reliable_early v id) as Hearly.
  { intros id (ringing & H & Hs & Hq). destruct (in_moved _ _ _ _ _ _ Hm H) as [H' | [-> H']]; [by exists ringing|].
    rewrite Forall_forall in Hl. apply Hl in H'. unfold is_final in H'. lia. }
  split.
  - intros id resp H. rewrite Hn. destruct (in_moved _ _ _ _ _ _ Hm H) as [H' | [-> H']]; [by eapply W1|].
    destruct Hs0 as [[t0 Ht0] | ->]; [by apply W2 in Ht0 as [? _] | by apply elem_of_nil in H'].
  - intros id t H. destruct (Ht id t H) as (t1 & H1 & Hc & _). rewrite Hn, Hc. destruct (W2 id t1 H1) as (? & ? & _).
    split; [done|]. split; [by apply invite_ids_more|]. intros res k u. by apply Hph.
  - intros id t id' t' H H' Hc. destruct (Ht id t H) as (t1 & H1 & Hc1 & _), (Ht id' t' H') as (t2 & H2 & Hc2 & _). eapply W3; [done..|congruence].
  - intros c rc H. destruct (Hr c rc H) as (rc1 & H1 & Hid & Hq). destruct (W4 c rc1 H1) as (Hin & Hlt & Hmine & Hall). rewrite Hn, Hid, Hq.
    split; [by apply invite_ids_more|]. split; [done|]. split.
    + intros t Hx. destruct (Ht _ t Hx) as (t1 & Hx1 & Hc & _). rewrite Hc. destruct (Hmine t1 Hx1) as (? & ringing & Hin' & ?). split; [done|].
      exists ringing. split; [|done]. rewrite Ha. apply elem_of_app. by left.
    + intros id t Hx Hc. destruct (Ht _ t Hx) as (t1 & Hx1 & Hc1 & _). apply (Hall id t1); congruence.
  - exact Hwait.
  - intros id t resp H Hrel Hin. destruct (Ht id t H) as (t1 & H1 & _ & Hrel1). destruct (in_moved _ _ _ _ _ _ Hm Hin) as [H' | [-> H']];
      [eapply W6; [done | congruence | done]|]. rewrite Hgone in H; [done|]. by intros ->; apply elem_of_nil in H'.
  - intros k Hk. rewrite Hn. by apply Hpr.
  - intros id resp H Hother He%Hearly. destruct (in_moved _ _ _ _ _ _ Hm H) as [H' | [-> H']]; [by eapply Hmono, W8|]. by eapply Hmono, Hfin.
Qed.

Lemma acked_next evs ev v v' id : v_answers v ⊆ v_answers v' -> acked evs v id -> acked (evs ++ [ev]) v' id.
Proof. apply acked_more. by apply list_subseteq_app_l. Qed.

(** A step without an answer. *)
Lemma waits_silent evs ev v v' : waits_ok evs v -> moves v v' 0 [] -> v_pracked v' = v_pracked v ->
  (forall id t res k u, v_tasks v' !! id = Some t -> it_phase t = AwaitingPrack res k u -> k = id) ->
  (forall id t, v_tasks v' !! id = Some t -> it_reliable t = true -> acked (evs ++ [ev]) v' id \/ waiting v' id t) ->
  waits_ok (evs ++ [ev]) v'.
Proof.
  intros Hv Hm Hk Hph Hw. pose proof Hm as [Ha _ Ht _]. cbn in Ha. rewrite app_nil_r in Ha.
  apply (waits_moves evs ev v v' 0%nat []); [done | done | by right | done | done | done | done | | by intros ? ?%elem_of_nil].
  intros k. rewrite Hk. intros Hin.
  destruct (wo_pracked _ _ Hv k Hin) as [Hlt Hall]. split; [done|]. intros t Hx. destruct (Ht _ _ Hx) as (t1 & H1 & _).
  apply (acked_next _ _ v); [by rewrite Ha | by eapply Hall].
Qed.

Lemma moves_refl v : moves v v 0 [].
Proof. split; [by rewrite app_nil_r | done | eauto | eauto]. Qed.

Lemma waits_quiet evs ev v : waits_ok evs v -> waits_ok (evs ++ [ev]) v.
Proof.
  intros Hv. apply (waits_silent _ _ v v); [done | apply moves_refl | done | |].
  - intros id t res k u Ht. by apply (wo_task _ _ Hv id t Ht).
  - intros id t Ht Hr. destruct (wo_wait _ _ Hv id t Ht Hr); [left; by apply (acked_next _ _ v) | by right].
Qed.

(** The phase of one task moves on. *)
Lemma moves_phase v id t ph f : v_tasks v !! id = Some t ->
  (forall c rc', f (v_rc v) !! c = Some rc' -> exists rc, v_rc v !! c = Some rc /\ rc_id rc' = rc_id rc /\ rseq rc' = rseq rc) ->
  moves v (with_tasks (insert id (set_phase t ph)) (with_rc f v)) 0 [].
Proof.
  intros Ht Hf. split; cbn; [by rewrite app_nil_r | done | | exact Hf]. intros id' t' H.
  apply lookup_insert_Some in H as [[<- <-] | [_ H]]; eauto.
Qed.

Lemma waits_phase evs ev v id t : waits_ok evs v -> v_tasks v !! id = Some t -> it_phase t = Alerting ->
  waits_ok (evs ++ [ev]) (with_tasks (insert id (set_phase t Forking)) v).
Proof.
  intros Hv Ht Hp. apply (waits_silent _ _ v _ Hv); [by apply (moves_phase v id t Forking (fun x => x)); eauto | done | |].
  - intros id' t' res k u H. cbn in H. apply lookup_insert_Some in H as [[<- <-] | [_ H]]; [done|]. by apply (wo_task _ _ Hv id' t' H).
  - intros id' t' H Hr. assert (exists t1, v_tasks v !! id' = Some t1 /\ it_reliable t1 = true /\ it_call_id t1 = it_call_id t' /\
      ((forall res k u, it_phase t' <> AwaitingPrack res k u) -> forall res k u, it_phase t1 <> AwaitingPrack res k u)) as (t1 & H1 & Hr1 & Hc1 & Hp1).
    { cbn in H. apply lookup_insert_Some in H as [[<- <-] | [_ H]]; [|by exists t'].
      exists t. do 3 (split; [done|]). intros _ res k u. by rewrite Hp. }
    destruct (wo_wait _ _ Hv id' t1 H1 Hr1) as [| (rc & Hrc & Hid & Htx & Hrx)]; [left; by apply (acked_next _ _ v)|]. right.
    exists rc. rewrite <- Hc1. do 3 (split; [done|]). intros Hno. by apply Hrx, Hp1.
Qed.

Lemma waits_wait evs ev v id t rc result until : waits_ok evs v -> v_tasks v !! id = Some t -> v_rc v !! it_call_id t = Some rc ->
  waits_ok (evs ++ [ev])
    (with_tasks (insert id (set_phase t (AwaitingPrack result (rc_id rc) until))) (with_rc (insert (it_call_id t) (no_rx rc)) v)).
Proof.
  intros Hv Ht Hrc. destruct (wo_rc _ _ Hv _ _ Hrc) as (_ & _ & _ & Hall). pose proof (Hall id t Ht eq_refl) as Hid.
  apply (waits_silent _ _ v _ Hv); [|done| |].
  - apply (moves_phase v id t); [done|]. intros c rc' H. apply lookup_insert_Some in H as [[<- <-] | [_ H]]; eauto.
  - intros id' t' res k u H. cbn in H. apply lookup_insert_Some in H as [[<- <-] | [_ H]]; [by intros [= _ <- _]|]. by apply (wo_task _ _ Hv id' t' H).
  - intros id' t' H Hr. cbn in H. apply lookup_insert_Some in H as [[<- <-] | [Hne H]].
    + destruct (wo_wait _ _ Hv id t Ht Hr) as [| (rc1 & Hrc1 & _ & Htx & _)]; [left; by apply (acked_next _ _ v)|]. right.
      exists (no_rx rc). cbn. rewrite lookup_insert_eq. split; [done|]. split; [done|]. split; [congruence|]. intros Hno. by destruct (Hno result (rc_id rc) until).
    + destruct (wo_wait _ _ Hv id' t' H Hr) as [| (rc1 & Hrc1 & ?)]; [left; by apply (acked_next _ _ v)|]. right. exists rc1. cbn.
      rewrite lookup_insert_ne; [done|]. intros Hc. apply Hne. by eapply (wo_distinct _ _ Hv).
Qed.

(** A handler that was released, and whose 180 was reliable, had its PRACK. *)
Lemma released_acked evs v id t : waits_ok evs v -> v_tasks v !! id = Some t -> released v t -> reliable_early v id -> acked evs v id.
Proof.
  intros Hv Ht Hrel (ringing & Hring & Hs & [x Hx]).
  destruct (it_reliable t) eqn:Hrt; [|by rewrite (wo_plain _ _ Hv id t ringing Ht Hrt Hring Hs) in Hx].
  destruct (wo_wait _ _ Hv id t Ht Hrt) as [| (rc & Hrc' & Hid & Htx & Hrx)]; [done|]. unfold released in Hrel.
  destruct (it_phase t) as [| | res k u] eqn:Hp; [destruct (Hrel Hrt); exists rc; auto..|].
  destruct (wo_task _ _ Hv id t Ht) as (_ & _ & Hk'). rewrite (Hk' res k u Hp) in Hrel.
  destruct Hrel as [Hrel | Hrel]; [by eapply (wo_pracked _ _ Hv)|]. destruct Hrel. eauto.
Qed.

Lemma waits_settles evs ev v id t P r v' : waits_ok evs v -> v_tasks v !! id = Some t -> (forall s, P s -> is_final s) ->
  ((forall s, P s -> s = 487 \/ s = 408) \/ released v t) ->
  settles id (it_call_id t) P (with_tasks (delete id) v) r v' -> waits_ok (evs ++ [ev]) v'.
Proof.
  intros Hv Ht HP Hrel [(l & Ha & _ & Hl & _) Hf Hts Hn Hrc Hk]. cbn in *.
  assert (moves v v' id l) as Hm.
  { split; [done | done | |].
    - intros id' t' H. rewrite Hts in H. apply lookup_delete_Some in H as [_ H]. eauto.
    - intros c rc' H. destruct Hrc as [Hd | Hd]; rewrite Hd in H; [eauto|]. apply lookup_delete_Some in H as [_ H]. eauto. }
  assert (forall id', acked evs v id' -> acked (evs ++ [ev]) v' id') as Hmono by (intros; apply (acked_next _ _ v); [rewrite Ha; by apply list_subseteq_app_l | done]).
  apply (waits_moves evs ev v v' id l); try done.
  - by left.
  - eapply Forall_impl; [exact Hl|]. auto.
  - intros _. rewrite Hts. apply lookup_delete_eq.
  - intros id' t' res k u H. rewrite Hts in H. apply lookup_delete_Some in H as [_ H]. by apply (wo_task _ _ Hv id' t' H).
  - intros id' t' H Hr'. rewrite Hts in H. apply lookup_delete_Some in H as [Hne H].
    destruct (wo_wait _ _ Hv id' t' H Hr') as [| (rc & Hrc' & ?)]; [left; by apply Hmono|]. right. exists rc. split; [|done].
    destruct Hrc as [-> | ->]; [done|]. rewrite lookup_delete_ne; [done|]. intros Hc. apply Hne. by eapply (wo_distinct _ _ Hv).
  - intros k. rewrite Hk. intros Hin. destruct (wo_pracked _ _ Hv k Hin) as [Hlt Hall]. split; [done|]. intros t' H.
    rewrite Hts in H. apply lookup_delete_Some in H as [_ H]. by eapply Hmono, Hall.
  - intros resp Hin (_ & H487 & H408) He. destruct Hrel as [Hrel | Hrel].
    { rewrite Forall_forall in Hl. destruct (Hrel _ (Hl _ Hin)); done. }
    by eapply released_acked.
Qed.

Lemma waits_resend evs ev v c rc x : waits_ok evs v -> v_rc v !! c = Some rc ->
  waits_ok (evs ++ [ev]) (with_rc (insert c (with_retransmit x rc)) v).
Proof.
  intros Hv Hrc. apply (waits_silent _ _ v _ Hv); [|done| |].
  - split; cbn; [by rewrite app_nil_r | done | eauto|]. intros c' rc' H. apply lookup_insert_Some in H as [[<- <-] | [_ H]]; eauto.
  - intros id t res k u H. by apply (wo_task _ _ Hv id t H).
  - intros id t H Hr. destruct (wo_wait _ _ Hv id t H Hr) as [| (rc1 & Hrc1 & Hx)]; [left; by apply (acked_next _ _ v)|]. right.
    unfold waiting. cbn. destruct (decide (c = it_call_id t)) as [-> | Hne]; [|exists rc1; by rewrite lookup_insert_ne].
    rewrite Hrc in Hrc1. injection Hrc1 as ->. exists (with_retransmit x rc1). by rewrite lookup_insert_eq.
Qed.

Lemma waits_prack evs ev v c rc pr v' : waits_ok evs v -> acknowledges ev c rc -> v_rc v !! c = Some rc ->
  pr = v_pracked v \/ pr = {[rc_id rc]} ∪ v_pracked v ->
  v' = with_rc (insert c (no_tx rc)) v \/ v' = mkView (v_answers v) (v_forwards v) (v_tasks v) (v_next v) (delete c (v_rc v)) pr ->
  waits_ok (evs ++ [ev]) v'.
Proof.
  intros Hv Hack Hrc Hpr Hv'. destruct (wo_rc _ _ Hv _ _ Hrc) as (_ & Hlt & Hmine & Hall).
  assert (v_answers v' = v_answers v /\ v_tasks v' = v_tasks v /\ v_next v' = v_next v) as (Ha & Hts & Hn) by (by destruct Hv' as [-> | ->]).
  assert (forall t, v_tasks v !! rc_id rc = Some t -> acked (evs ++ [ev]) v' (rc_id rc)) as Hnew.
  { intros t Ht. destruct (Hmine t Ht) as (_ & ringing & Hring & Hq). exists ev, c, rc, ringing. rewrite Ha.
    split; [apply elem_of_app; right; by left | done]. }
  assert (forall id, acked evs v id -> acked (evs ++ [ev]) v' id) as Hmono by (intros; apply (acked_next _ _ v); [by rewrite Ha | done]).
  apply (waits_moves evs ev v v' 0%nat []); [done | | by right | done | done | | | | by intros ? ?%elem_of_nil].
  - split; [by rewrite Ha, app_nil_r | done | rewrite Hts; eauto|]. intros c' rc' H. destruct Hv' as [-> | ->]; cbn in H.
    + apply lookup_insert_Some in H as [[<- <-] | [_ H]]; eauto.
    + apply lookup_delete_Some in H as [_ H]. eauto.
  - intros id t res k u H. rewrite Hts in H. by apply (wo_task _ _ Hv id t H).
  - intros id t H Hr. rewrite Hts in H. destruct (decide (it_call_id t = c)) as [Hc | Hc].
    + left. rewrite <- (Hall id t H Hc). apply (Hnew t). by rewrite (Hall id t H Hc).
    + destruct (wo_wait _ _ Hv id t H Hr) as [| (rc1 & Hrc1 & Hx)]; [left; by apply Hmono|]. right. exists rc1. split; [|done].
      destruct Hv' as [-> | ->]; cbn; [by rewrite lookup_insert_ne | by rewrite lookup_delete_ne].
  - intros k Hk. rewrite Hts. destruct (decide (k = rc_id rc)) as [-> | Hne]; [split; [done | exact Hnew]|].
    assert (k ∈ v_pracked v) as Hk' by (destruct Hv' as [-> | ->], Hpr as [-> | ->]; cbn in Hk; try done; by apply elem_of_union in Hk as [?%elem_of_singleton | ?]).
    destruct (wo_pracked _ _ Hv k Hk') as [? Hacked]. split; [done|]. intros t Ht. by eapply Hmono, Hacked.
Qed.

(** What the arrival of an INVITE leaves behind. *)
Lemma arrival_facts id call_id v r v' l : v_tasks v !! id = None -> arrival id call_id (next_id v) r v' l ->
  (v_tasks v' = v_tasks v \/ exists t, v_tasks v' = <[id := t]> (v_tasks v) /\ it_call_id t = call_id /\ it_phase t = Alerting) /\
  (v_rc v' = v_rc v \/ exists x, rc_id x = id /\ v_rc v' = <[call_id := x]> (v_rc v) /\
     (is_Some (v_tasks v' !! id) -> exists ringing, ringing ∈ l /\ early_for call_id (rseq x) ringing)) /\
  (forall t, v_tasks v' !! id = Some t -> it_reliable t = true ->
     exists x, v_rc v' !! call_id = Some x /\ rc_id x = id /\ prack_tx x = true /\ prack_rx x = true) /\
  (forall t, v_tasks v' !! id = Some t -> it_reliable t = false -> Forall plain l) /\
  (Forall plain l \/ finals l = 0%nat).
Proof.
  intros Hfresh [Ht Hf _ _ Hp Hrc | Ht Hf Hfin Hp Hrc | t Ht Hc Hph Hf Hfin Hrel]; cbn in Ht, Hrc || cbn in Ht.
  - rewrite Ht, Hfresh. split; [by left|]. split; [|split; [done|]; split; [done | by left]].
    destruct Hrc as [-> | (x & Hx & ->)]; [by left | right; exists x]. do 2 (split; [done|]). by intros [? ?].
  - rewrite Ht, Hfresh, Hrc. split; [by left|]. split; [by left|]. split; [done|]. split; [done | by left].
  - rewrite Ht, lookup_insert_eq. split; [right; by exists t|]. split; [|split; [|split; [|by right]]].
    + destruct (it_reliable t); [|left; by destruct Hrel as [-> _]]. right. destruct Hrel as (x & ringing & Hx & _ & _ & Hr & Hin & Hq).
      exists x. do 2 (split; [done|]). eauto.
    + intros t' [= <-] Hr. rewrite Hr in Hrel. destruct Hrel as (x & ringing & Hx & Htx & Hrx & -> & _). exists x. by rewrite lookup_insert_eq.
    + intros t' [= <-] Hr. rewrite Hr in Hrel. by destruct Hrel.
Qed.

Lemma waits_arrives evs ev v call_id r v' : waits_ok evs v -> arrives (v_next v) call_id (next_id v) r v' ->
  invite_id ev = Some call_id -> call_id ∉ invite_ids evs -> waits_ok (evs ++ [ev]) v'.
Proof.
  intros Hv [(l & Ha & Harr) Hn Hk] Hev Hnew. cbn in Ha, Hn, Hk. set (id := v_next v) in *.
  assert (forall x t, v_tasks v !! x = Some t -> (x < id)%nat /\ it_call_id t <> call_id) as Hold.
  { intros x t Hx. destruct (wo_task _ _ Hv x t Hx) as (? & Hin & _). split; [done|]. intros Heq. by rewrite Heq in Hin. }
  assert (v_tasks v !! id = None) as Hfresh by (destruct (v_tasks v !! id) eqn:Hx; [apply Hold in Hx; lia | done]).
  assert (forall x resp, (x, resp) ∈ v_answers v' -> ((x, resp) ∈ v_answers v /\ (x < id)%nat) \/ (x = id /\ resp ∈ l)) as Hin.
  { intros x resp H. rewrite Ha in H. apply elem_of_app in H as [H | H]; [left; split; [done | by eapply (wo_next _ _ Hv)]|].
    right. by apply list_elem_of_fmap in H as (y & [= -> ->] & Hy). }
  destruct (arrival_facts id call_id v r v' l Hfresh Harr) as (Hts & Hrc & Hwait & Hplain & Hfin).
  assert (forall x t, v_tasks v' !! x = Some t -> (v_tasks v !! x = Some t /\ x <> id) \/ (x = id /\ it_call_id t = call_id /\ it_phase t = Alerting)) as Htask.
  { intros x t H. destruct Hts as [Hts | (t' & Hts & Hc & Hp)]; rewrite Hts in H; [left; split; [done|]; intros ->; congruence|].
    apply lookup_insert_Some in H as [[<- <-] | [? H]]; [by right | by left]. }
  assert (forall x, acked evs v x -> acked (evs ++ [ev]) v' x) as Hmono by (intros; apply (acked_next _ _ v); [rewrite Ha; by apply list_subseteq_app_l | done]).
  assert (forall c rc, v_rc v' !! c = Some rc -> (v_rc v !! c = Some rc /\ (rc_id rc < id)%nat /\ c <> call_id) \/ (c = call_id /\ rc_id rc = id /\
    (is_Some (v_tasks v' !! id) -> exists ringing, ringing ∈ l /\ early_for call_id (rseq rc) ringing))) as Hrcs.
  { intros c rc H. destruct Hrc as [Hrc | (x & Hx & Hrc & Hring)]; rewrite Hrc in H; [|apply lookup_insert_Some in H as [[<- <-] | [_ H]]; [by right|]];
      left; destruct (wo_rc _ _ Hv c rc H) as (Hc & ? & _); (split; [done|]; split; [done|]; by intros ->). }
  assert (call_id ∈ invite_ids (evs ++ [ev])) as Hmine by (unfold invite_ids; rewrite omap_app; cbn; rewrite Hev; apply elem_of_app; right; by left).
  split.
  - intros x resp H. rewrite Hn. destruct (Hin x resp H) as [[_ ?] | [-> _]]; lia.
  - intros x t H. rewrite Hn. destruct (Htask x t H) as [[H' _] | (-> & -> & Hp)].
    + destruct (wo_task _ _ Hv x t H') as (Hlt & Hc & Hk'). split; [fold id in Hlt; lia|]. split; [by apply invite_ids_more | done].
    + split; [lia|]. split; [done|]. by rewrite Hp.
  - intros x t x' t' H H' Hc. destruct (Htask x t H) as [[H1 _] | (-> & Hc1 & _)], (Htask x' t' H') as [[H2 _] | (-> & Hc2 & _)]; [|..|done].
    + by eapply (wo_distinct _ _ Hv).
    + destruct (Hold x t H1). congruence.
    + destruct (Hold x' t' H2). congruence.
  - intros c rc H. rewrite Hn. destruct (Hrcs c rc H) as [(H' & Hlt & Hc) | (-> & Hid & Hring)].
    + destruct (wo_rc _ _ Hv c rc H') as (Hc' & _ & Hone & Hall). split; [by apply invite_ids_more|]. split; [lia|]. split.
      * intros t Ht. destruct (Htask _ t Ht) as [[Ht' _] | (Heq & _)]; [|lia]. destruct (Hone t Ht') as (? & ringing & Hr & ?). split; [done|].
        exists ringing. split; [|done]. rewrite Ha. apply elem_of_app. by left.
      * intros x t Hx Hcx. destruct (Htask x t Hx) as [[Hx' _] | (-> & Hc2 & _)]; [by eapply Hall | congruence].
    + split; [done|]. split; [lia|]. split.
      * intros t Ht. rewrite Hid in Ht. destruct (Htask _ t Ht) as [[_ ?] | (_ & Hc & _)]; [done|]. split; [done|].
        destruct Hring as (ringing & Hr & Hq); [by exists t|]. exists ringing. split; [|done]. rewrite Ha, Hid. apply elem_of_app. right.
        by apply list_elem_of_fmap_2.
      * intros x t Hx Hcx. destruct (Htask x t Hx) as [[Hx' _] | (-> & _)]; [by apply Hold in Hx' as [_ ?] | done].
  - intros x t H Hr. destruct (Htask x t H) as [[H' _] | (-> & Hc & Hp)].
    + destruct (wo_wait _ _ Hv x t H' Hr) as [| (rc & Hrc' & Hx)]; [left; by apply Hmono|]. right. exists rc. split; [|done].
      destruct Hrc as [-> | (y & _ & -> & _)]; [done|]. rewrite lookup_insert_ne; [done|]. intros Hc. by destruct (Hold x t H').
    + right. destruct (Hwait t H Hr) as (y & Hy & Hyid & Htx & Hrx). exists y. by rewrite Hc.
  - intros x t resp H Hr Hx. destruct (Htask x t H) as [[H' Hne] | (-> & _)]; (destruct (Hin _ _ Hx) as [[Hx' ?] | [Heq Hx']]; [|]); try lia.
    + by eapply (wo_plain _ _ Hv).
    + specialize (Hplain t H Hr). rewrite Forall_forall in Hplain. by apply Hplain.
  - intros k. rewrite Hk, Hn. intros Hin'. destruct (wo_pracked _ _ Hv k Hin') as [Hlt Hall]. split; [fold id in Hlt; lia|]. intros t Ht.
    destruct (Htask k t Ht) as [[Ht' _] | (-> & _)]; [by eapply Hmono, Hall | fold id in Hlt; lia].
  - intros x resp H Hother (ringing & Hring & Hs & [q Hq]). destruct (Hin _ _ H) as [[H' Hlt] | [-> H']], (Hin _ _ Hring) as [[Hr' Hlt'] | [Heq Hr']]; try lia.
    + apply Hmono, (wo_final _ _ Hv x resp); [done | done|]. by exists ringing.
    + exfalso. destruct Hfin as [Hp | H0].
      * rewrite Forall_forall in Hp. by rewrite (Hp _ Hr' Hs) in Hq.
      * destruct Hother as (Hof & _). unfold finals in H0. apply nil_length_inv in H0. apply list_elem_of_In in H'.
        assert (In resp (List.filter (fun resp => 200 <=? status_code resp) l)) as Hbad by (apply filter_In; split; [done | by apply Z.leb_le]).
        by rewrite H0 in Hbad.
Qed.

Lemma effect_waits evs ev v r v' : effect ev v r v' -> (forall c, invite_id ev = Some c -> c ∉ invite_ids evs) ->
  waits_ok evs v -> waits_ok (evs ++ [ev]) v'.
Proof.
  intros He Hnew Hv. destruct He as [-> | a req remote c -> Hm Hc Harr | id t Ht Hp -> | id t rc result until Ht Hrc Hrx Hp Hrel Hok ->
    | id t s Ht Hs Hset | id t Ht Hrel Hset | c rc x Hrc -> | c rc pr Hack Hrc Hpr Hv'].
  - by apply waits_quiet.
  - assert (invite_id (EvInbound a req remote) = Some c) as Hi by (cbn; by rewrite decide_True). eapply waits_arrives; eauto.
  - by apply waits_phase.
  - by apply waits_wait.
  - eapply waits_settles; [done | done | | | done].
    + intros s' ->. unfold is_final. destruct Hs; lia.
    + left. intros s' ->. done.
  - eapply waits_settles; [done | done | done | by right | done].
  - by apply waits_resend.
  - by eapply waits_prack.
Qed.

Section pracks.
Context (parse_hm : string -> option Z) (cfg : InConfig).

Lemma waits_run evs : forall before w, NoDup (invite_ids (before ++ evs)) -> Forall event_ok evs -> results_ok (view w) ->
  waits_ok before (view w) -> waits_ok (before ++ evs) (view (run parse_hm cfg w evs)).
Proof.
  induction evs as [|ev evs IH]; intros before w Hnd Hok Hr Hw; cbn [run fold_left]; [by rewrite app_nil_r|].
  apply Forall_cons in Hok as [He Hok]. pose proof (step_effect parse_hm cfg ev w He Hr) as Heff.
  change (ev :: evs) with ([ev] ++ evs) in *. rewrite app_assoc in *. apply IH; [done | done | by eapply effect_results|].
  eapply effect_waits; [done | | done]. intros c Hc. unfold invite_ids in *. rewrite !omap_app in Hnd. cbn in Hnd. rewrite Hc in Hnd.
  rewrite <- app_assoc in Hnd. apply NoDup_app in Hnd as (_ & Hnd & _). intros Hin. eapply Hnd; [exact Hin | by left].
Qed.

Lemma initial_waits books oks answers rnds : waits_ok [] (view (mkWorld (in_initial books) oks answers rnds [])).
Proof. split; cbn; intros *; by rewrite ?elem_of_nil, ?lookup_empty, ?elem_of_empty. Qed.

(** C5: In a run whose INVITEs are all of different calls (none is retransmitted, and
    none is a re-INVITE), however the handlers interleave: when the 180 to an INVITE was
    reliable, nothing but the refusals of a CANCEL (487) and of a timeout (408) is
    answered to it before a PRACK has come, in its call, that acknowledges the RSeq of
    that 180. *)
Theorem no_final_before_prack (books : Books) (oks : list bool) (answers : list (option SipResponse)) (rnds : list Z) (evs : list InEvent)
    (Hok : Forall event_ok evs) (Hcalls : NoDup (invite_ids evs)) (id : nat) (ringing resp : SipResponse) :
  let w := run parse_hm cfg (mkWorld (in_initial books) oks answers rnds []) evs in
  Answer id ringing ∈ outs w -> status_code ringing < 200 -> is_Some (rseq_of ringing) ->
  Answer id resp ∈ outs w -> other_final resp ->
  exists a prack remote early c n cseq method, EvInbound a prack remote ∈ evs /\ req_method prack = Prack /\
    Answer id early ∈ outs w /\ early_for c n early /\ hdr_get (req_headers prack) "call-id" = Some c /\
    (rack ← hdr_get (req_headers prack) "rack"; parse_rack_header rack) = Some (n, cseq, method).
Proof.
  intros w Hring Hs Hq Hresp Hf. pose proof (waits_run evs [] (mkWorld (in_initial books) oks answers rnds []) Hcalls Hok) as Hw.
  specialize (Hw ltac:(done) (initial_waits books oks answers rnds)). fold w in Hw. cbn [app] in Hw.
  assert (forall x, Answer id x ∈ outs w <-> (id, x) ∈ v_answers (view w)) as Hout.
  { intros x. cbn. rewrite list_elem_of_omap. split; [intros H; by exists (Answer id x)|]. intros (o & Ho & Hx). destruct o; try done. by injection Hx as -> ->. }
  destruct (wo_final _ _ Hw id resp) as (ev & c & rc & early & Hev & (a & prack & remote & -> & Hm & Hc & Hpm) & Hearly & Hr);
    [by apply Hout | done | exists ringing; by rewrite <- Hout|].
  exists a, prack, remote, early, c, (rseq rc). unfold prack_matches in Hpm.
  destruct (rack ← hdr_get (req_headers prack) "rack"; parse_rack_header rack) as [[[n cs] method]|]; [|done].
  apply andb_true_iff in Hpm as [[Hn _]%andb_true_iff _]. apply Z.eqb_eq in Hn as ->. exists cs, method. by rewrite Hout.
Qed.
End pracks.

(** ** Runs *)

Definition sbc : SocketAddr := mkAddr (V4 118 177 72 238) 5060.
Definition pcscf : SocketAddr := mkAddr (V4 118 177 125 1) 5060.
Definition sample_config (voicemail : bool) : InConfig :=
  mkInConfig (Some sbc) None None None voicemail [] "0.1.0" false true false false.
Definition sample_env (now : Z) : Env :=
  mkEnv now (Some 0) (fun a => Some (mkAddr a 40000)) (fun a => Some (mkAddr a 40002)).
Definition sample_registrar : ExtensionRegistrar := mkRegistrar {[ Fork.phone.1 := mkBinding (Registrar.contact_uri Fork.phone.2) (bd_remote Fork.phone.2) (from_secs 3600) Sip ]}.
Definition sample_arrival (now : Z) : Arrival := mkArrival (sample_env now) sample_registrar (mkLocal Mon 0) false.
Definition ngn_invite (call_id : string) : SipRequest :=
  mkRequest Invite "sip:0312345678@118.177.72.238" [("via", "SIP/2.0/UDP 118.177.125.1;branch=z9hG4bK1"); ("from", "<sip:090@ntt>;tag=f1");
    ("to", "<sip:0312345678@ntt>"); ("call-id", call_id); ("cseq", "1 INVITE"); ("contact", "<sip:090@118.177.125.1>"); ("supported", "100rel")]
    ngn_offer_sample.
Definition ngn_request (m : SipMethod) (cseq call_id : string) (extra : SipHeaders) : SipRequest :=
  mkRequest m "sip:sabiden@118.177.72.238" ([("via", "SIP/2.0/UDP 118.177.125.1;branch=z9hG4bK2"); ("from", "<sip:090@ntt>;tag=f1");
    ("to", "<sip:0312345678@ntt>;tag=x"); ("call-id", call_id); ("cseq", cseq)] ++ extra) "".
Definition from_ngn (now : Z) (request : SipRequest) : InEvent := EvInbound (sample_arrival now) request pcscf.
Definition sample_world : world :=
  mkWorld (in_initial (mkBooks (Some (call_log_new 10)) (Some manager_new) metrics_new None)) [] [] [] [].
Definition no_rules (s : string) : option Z := None.
Definition sample_run := run no_rules.
(** The codes that are answered to each INVITE. *)
Definition codes (w : world) : list (nat * Z) := map (fun p => (p.1, status_code p.2)) (v_answers (view w)).
Definition picked_up : ForkResult := Fork.Answered "sip:100@192.168.0.5" (mkResponse 200 "OK" [] ext_answer_sample) None None.
Definition answered_events : list InEvent :=
  [from_ngn 0 (ngn_invite "n1"); EvGo 0; EvForkDone (sample_env 1) 0 picked_up;
   from_ngn 2 (ngn_request Prack "2 PRACK" "n1" [("rack", "1 1 INVITE")]); EvPrackWake (sample_env 3) 0].
Definition nth_answer (w : world) (n : nat) : SipResponse := default (mkResponse 0 "" [] "") (snd <$> v_answers (view w) !! n).

Lemma invite_answered_once_witness :
  let w := sample_run (sample_config false) sample_world answered_events in
  done_count (view w) 0 = 1%nat /\ codes w = [(0%nat, 100); (0%nat, 180); (0%nat, 200)].
Proof.
  split; [|vm_compute; reflexivity].
  refine (proj2 (proj2 (invite_answered_once no_rules (sample_config false) (mkBooks (Some (call_log_new 10)) (Some manager_new) metrics_new None)
    [] [] [] answered_events _)) _ 0%nat _ _); [by repeat constructor | vm_compute; tauto | vm_compute; lia | vm_compute; reflexivity].
Defined.

Lemma no_final_before_prack_witness :
  let w := sample_run (sample_config false) sample_world answered_events in
  exists a prack remote early c n cseq method, EvInbound a prack remote ∈ answered_events /\ req_method prack = Prack /\
    Answer 0 early ∈ outs w /\ early_for c n early /\ hdr_get (req_headers prack) "call-id" = Some c /\
    (rack ← hdr_get (req_headers prack) "rack"; parse_rack_header rack) = Some (n, cseq, method).
Proof.
  intros w.
  refine (no_final_before_prack no_rules (sample_config false) (mkBooks (Some (call_log_new 10)) (Some manager_new) metrics_new None)
    [] [] [] answered_events _ _ 0%nat (nth_answer w 1) (nth_answer w 2) _ _ _ _ _).
  - by repeat constructor.
  - vm_compute. apply NoDup_singleton.
  - apply (list_elem_of_lookup_2 _ 1%nat). vm_compute. reflexivity.
  - by vm_compute.
  - vm_compute. eauto.
  - apply (list_elem_of_lookup_2 _ 4%nat). vm_compute. reflexivity.
  - by vm_compute.
Defined.

(** *** The retransmissions of a reliable 18x *)

Import Reliable.

(** The instants at which the task sends, when it wakes as in [wakes]. *)
Fixpoint resends (r : option Retransmit) (wakes : list (Z * bool)) : list Z :=
  match r, wakes with
  | Some r, (now, ok) :: wakes => let '(sends, r) := retransmit_wake r now ok in (if sends then [now] else []) ++ resends r wakes
  | _, _ => []
  end.

Lemma resends_spaced wakes : forall r k j t, r_interval r = gap false k -> r_started r + earliest false (S k) <= r_due r ->
  resends (Some r) wakes !! j = Some t -> r_started r + earliest false (S k + j) <= t < r_started r + TIMER_LIMIT.
Proof.
  induction wakes as [|[now ok] wakes IH]; intros r k j t Hi Hd; cbn [resends]; [done|]. unfold retransmit_wake.
  destruct (Z.ltb_spec now (r_due r)) as [|Hnow]; [by apply IH|].
  destruct (Z.leb_spec TIMER_LIMIT (now - r_started r)) as [|Hlim]; [by destruct wakes as [|[??]?]|].
  assert (resends (if ok then Some (mkRetransmit (r_started r) (Z.min (r_interval r * 2) Reliable.T2) (now + Z.min (r_interval r * 2) Reliable.T2)) else None) wakes
    !! pred j = Some t -> (0 < j)%nat -> r_started r + earliest false (S k + j) <= t < r_started r + TIMER_LIMIT) as Hrest.
  { destruct ok; [|by destruct wakes as [|[??]?]]. intros Ht Hj. replace (S k + j)%nat with (S (S k) + pred j)%nat by lia.
    assert (Z.min (r_interval r * 2) Reliable.T2 = gap false (S k)) as Hg by (rewrite Hi; cbn [gap]; change Reliable.T2 with Transaction.T2; lia).
    rewrite Hg in Ht. apply (IH _ (S k) (pred j) t) in Ht; [done | done|]. cbn [r_started r_due].
    change (earliest false (S (S k))) with (earliest false (S k) + gap false (S k)). lia. }
  destruct ok; cbn; (destruct j as [|j]; cbn; [intros [= <-]; rewrite Nat.add_0_r; cbn in *; lia | intros Ht; apply Hrest; [done | lia]]).
Qed.

(** A reliable 18x is sent again ten times at most, whenever its task is woken:
    the (k+1)-th time no earlier than half a second, doubled each time up to four,
    after the one before, and never once 32 seconds have passed. *)
Theorem reliable_18x_bounded (start : Z) (wakes : list (Z * bool)) :
  let times := resends (Some (spawn_reliable_provisional_retransmit start)) wakes in
  (length times <= 10)%nat /\
  forall k t, times !! k = Some t -> start + earliest false (S k) <= t < start + TIMER_LIMIT.
Proof.
  intros times. assert (forall k t, times !! k = Some t -> start + earliest false (S k) <= t < start + TIMER_LIMIT) as Hall.
  { intros k t Ht. by apply (resends_spaced wakes (spawn_reliable_provisional_retransmit start) 0) in Ht. }
  split; [|done]. destruct (decide (length times <= 10)%nat) as [|Hlong]; [done|].
  destruct (lookup_lt_is_Some_2 times 10%nat) as [t Ht]; [lia|]. apply Hall in Ht. destruct (earliest_limit false) as [Hlim _].
  change (retx_limit false) with 10%nat in Hlim. change TIMER_LIMIT with TIMER_B in Ht. lia.
Qed.

(** Woken in time, it is sent ten times. *)
Example resends_sample : resends (Some (spawn_reliable_provisional_retransmit 0)) (map (fun k => (from_millis (500 * Z.of_nat k), true)) (seq 1 70)) =
  map from_millis [500; 1500; 3500; 7500; 11500; 15500; 19500; 23500; 27500; 31500].
Proof. vm_compute. reflexivity. Qed.

(** ** Calls that do not end as they should *)

(** A CANCEL that comes before the fork was entered in the table is answered, and
    changes nothing: the telephones are called, and no 487 is sent. *)
Lemma early_cancel_is_lost :
  let w := sample_run (sample_config false) sample_world
    [from_ngn 0 (ngn_invite "n1"); from_ngn 0 (ngn_request SipMessage.Cancel "1 CANCEL" "n1" []); EvGo 0; EvCancelled 0 0] in
  codes w = [(0%nat, 100); (0%nat, 180)] /\ it_phase <$> in_tasks (shared w) !! 0%nat = Some Forking.
Proof. vm_compute. done. Qed.

(** A 200 OK that cannot be sent leaves the call and its bridge behind. *)
Lemma unsent_200_leaves_bridge :
  let w := sample_run (sample_config false) (mkWorld (shared sample_world) [true; true; true; true; false] [] [] []) answered_events in
  codes w = [(0%nat, 100); (0%nat, 180)] /\ in_tasks (shared w) !! 0%nat = None /\ active (tables (shared w)) !! "n1" = Some (Some 1).
Proof. vm_compute. done. Qed.

(** The voicemail's 200 OK has another tag in To than the 180 before it. *)
Lemma voicemail_retags :
  let w := sample_run (sample_config true) (mkWorld (shared sample_world) [] [] [1; 2; 3; 4; 5; 6] [])
    [from_ngn 0 (ngn_invite "n1"); EvGo 0; from_ngn 2 (ngn_request Prack "2 PRACK" "n1" [("rack", "5 1 INVITE")]); EvForkDone (sample_env 1) 0 ForkTimeout] in
  map (fun p => (status_code p.2, hdr_get (resp_headers p.2) "to")) (v_answers (view w)) =
    [(100, Some "<sip:0312345678@ntt>"); (180, Some "<sip:0312345678@ntt>;tag=sabiden-00000002");
     (200, Some "<sip:0312345678@ntt>;tag=sabiden-00000006")].
Proof. vm_compute. done. Qed.

(** When the PRACK of an answered call never comes, the NGN gets a 408 and the
    telephone that answered nothing: it stays in its call. *)
Lemma no_prack_strands_extension :
  let w := sample_run (sample_config false) sample_world
    [from_ngn 0 (ngn_invite "n1"); EvGo 0; EvForkDone (sample_env 1) 0 picked_up; EvPrackWake (sample_env (from_secs 33)) 0] in
  codes w = [(0%nat, 100); (0%nat, 180); (0%nat, 408)] /\ length (outs w) = 4%nat /\ in_tasks (shared w) !! 0%nat = None.
Proof. vm_compute. done. Qed.

(** A BYE that comes while the calls of a browser are being closed takes its call
    off the gauge twice: with the call of another browser still up it says none. *)
Definition tab_picked_up (ws : Z) : ForkResult :=
  Fork.Answered "ws:1" (mkResponse 200 "OK" [] ext_answer_sample) (Some (mkArtifacts 5 111)) (Some ws).
Definition tab_call (id : string) (task : nat) (ws : Z) : list InEvent :=
  [from_ngn 0 (ngn_invite id); EvGo task; from_ngn 2 (ngn_request Prack "2 PRACK" id [("rack", "1 1 INVITE")]);
   EvForkDone (sample_env 1) task (tab_picked_up ws)].
Lemma bye_while_closing_counts_twice :
  let up := tab_call "n1" 0 7 ++ tab_call "n2" 1 8 in
  let closing := [EvWsClosed 7; from_ngn 3 (ngn_request SipMessage.Bye "2 BYE" "n1" []); EvCloseNext 0 4] in
  let gauge w := metrics (books (shared w)) Observability.call_active in
  let w := sample_run (sample_config false) sample_world (up ++ closing) in
  gauge (sample_run (sample_config false) sample_world up) = 2 /\ gauge w = 0 /\
  map fst (map_to_list (active (tables (shared w)))) = ["n2"].
Proof. vm_compute. done. Qed.
