(* ===== verification/Tokens.v ===== *)
(** The tokens of the browsers (src/src/webrtc/auth.rs), with HMAC-SHA256 and
    the URL-safe base64 as arguments. *)
From S2P Require Import Prelude Bytes RustStr.

Record AuthClaims := mkClaims { ext_id : string; expiry : Z }.
Inductive AuthError := Malformed | BadExpiry | BadSignature | TokenExpired | BadEncoding.

Section tokens.
(** [hmac secret msg]; the two directions of the encoding. *)
Context (hmac : list Z -> string -> list Z) (b64_encode : list Z -> string) (b64_decode : string -> option (list Z)).

Definition sign_bytes (secret : list Z) (msg : string) : list Z := hmac secret msg.
(** [format!("{}.{}", ext_id, expiry)]. *)
Definition signed (ext_id : string) (expiry : Z) : string := ext_id +:+ "." +:+ print_uint expiry.
Definition issue (secret : list Z) (ext_id : string) (expiry : Z) : string :=
  signed ext_id expiry +:+ "." +:+ b64_encode (sign_bytes secret (signed ext_id expiry)).

Definition verify (secret : list Z) (now : Z) (token : string) : outcome AuthError AuthClaims :=
  match split_on "." token with
  | [ext_id; expiry_str; sig_b64] =>
      ensure (negb (String.eqb ext_id "")) Malformed ;;
      expiry ← ok_or (parse_uint 64 expiry_str) BadExpiry;
      ensure (negb (expiry <=? now)) TokenExpired ;;
      let expected := sign_bytes secret (signed ext_id expiry) in
      actual ← ok_or (b64_decode sig_b64) BadEncoding;
      ensure (bool_decide (expected = actual)) BadSignature ;;
      Ok (mkClaims ext_id expiry)
  | _ => Err Malformed
  end.

(** ** What a token says *)

Definition claims_ok (c : AuthClaims) : Prop := ext_id c <> "" /\ no_char "." (ext_id c) = true /\ uN 64 (expiry c).

Lemma digits_no_dot z : no_char "." (print_uint z) = true.
Proof. apply digits_no_char; [done | apply print_uint_digits]. Qed.

(** Accepted claims are well formed, and the signature is of them. *)
Lemma verify_Ok secret now token c : verify secret now token = Ok c ->
  claims_ok c /\ now < expiry c /\ exists text sig, split_on "." token = [ext_id c; text; sig] /\
    parse_uint 64 text = Some (expiry c) /\ b64_decode sig = Some (sign_bytes secret (signed (ext_id c) (expiry c))).
Proof.
  unfold verify. pose proof (split_on_pieces "." token) as Hp. destruct (split_on "." token) as [|e [|t [|s [|? ?]]]] eqn:Hs; try done.
  intros H. apply bind_Ok_inv in H as ([] & He & H). apply ensure_Ok_inv in He.
  apply bind_Ok_inv in H as (x & Hx & H). apply ok_or_Ok_inv in Hx.
  apply bind_Ok_inv in H as ([] & Ht & H). apply ensure_Ok_inv in Ht.
  apply bind_Ok_inv in H as (a & Ha & H). apply ok_or_Ok_inv in Ha.
  apply bind_Ok_inv in H as ([] & Hb & H). apply ensure_Ok_inv, bool_decide_eq_true in Hb. injection H as <-. cbn.
  inversion Hp as [|? ? Hdot _]; subst. split; [|split].
  - split; [|split; [done | by eapply parse_uint_range]]. cbn. intros ->. done.
  - apply negb_true_iff, Z.leb_gt in Ht. done.
  - exists t, s. by rewrite Hx, Ha.
Qed.

(** No other claims have the same signed text. *)
Lemma signed_inj c e x : claims_ok c -> uN 64 x -> signed e x = signed (ext_id c) (expiry c) -> mkClaims e x = c.
Proof.
  intros (_ & Hd & Hx) Hx' H. unfold signed in H. cbn [String.append] in H.
  pose proof (rsplit_once_last "." e (print_uint x) (digits_no_dot x)) as He.
  pose proof (rsplit_once_last "." (ext_id c) (print_uint (expiry c)) (digits_no_dot _)) as Hc. rewrite H, Hc in He. injection He as He Hp.
  pose proof (parse_print_uint 64 x ltac:(lia) Hx') as Hr. rewrite <- Hp, parse_print_uint in Hr by done. injection Hr as Hr.
  destruct c as [e0 x0]. cbn in He, Hr. by subst.
Qed.

Hypothesis b64_roundtrip : forall b, bytes_ok b -> b64_decode (b64_encode b) = Some b.
Hypothesis b64_plain : forall b, bytes_ok b -> no_char "." (b64_encode b) = true.
Hypothesis hmac_bytes : forall secret msg, bytes_ok (hmac secret msg).

Lemma verify_issue secret now c : claims_ok c ->
  verify secret now (issue secret (ext_id c) (expiry c)) = if now <? expiry c then Ok c else Err TokenExpired.
Proof.
  intros (He & Hd & Hx). unfold verify, issue, signed at 1.
  assert (split_on "." ((ext_id c +:+ "." +:+ print_uint (expiry c)) +:+ "." +:+ b64_encode (sign_bytes secret (signed (ext_id c) (expiry c)))) =
    [ext_id c; print_uint (expiry c); b64_encode (sign_bytes secret (signed (ext_id c) (expiry c)))]) as ->.
  { rewrite !str_app_assoc. cbn [String.append]. rewrite split_on_app by done. rewrite split_on_app by apply digits_no_dot.
    by rewrite split_on_no_char by apply b64_plain, hmac_bytes. }
  assert (String.eqb (ext_id c) "" = false) as -> by (by apply String.eqb_neq). cbn [negb].
  rewrite parse_print_uint by done. cbn. rewrite Z.ltb_antisym. destruct (expiry c <=? now); [done|]. cbn.
  rewrite b64_roundtrip by apply hmac_bytes. cbn. rewrite bool_decide_eq_true_2 by done. cbn. by destruct c.
Qed.

(** C29: A token is accepted until its expiry, and for the claims it was issued for
    alone: an accepted one carries a MAC, under the secret, of a text that no other
    claims have. *)
Theorem tokens_bind_claims (secret : list Z) (now : Z) :
  (forall c, claims_ok c -> verify secret now (issue secret (ext_id c) (expiry c)) = if now <? expiry c then Ok c else Err TokenExpired) /\
  (forall token c, verify secret now token = Ok c ->
     claims_ok c /\ now < expiry c /\
     (exists text sig, split_on "." token = [ext_id c; text; sig] /\
        b64_decode sig = Some (sign_bytes secret (signed (ext_id c) (expiry c)))) /\
     forall e x, uN 64 x -> signed e x = signed (ext_id c) (expiry c) -> mkClaims e x = c).
Proof.
  split; [intros c; apply verify_issue|]. intros token c H. destruct (verify_Ok _ _ _ _ H) as (Hc & Ht & text & sig & Hs & _ & Hb).
  split; [done|]. split; [done|]. split; [by exists text, sig|]. intros e x. by apply signed_inj.
Qed.
End tokens.

(** ** A token *)

(** A text form of bytes for the samples: two letters each. *)
Fixpoint letters (b : list Z) : string :=
  match b with [] => "" | z :: b => String (chr (65 + z / 16)) (String (chr (65 + z mod 16)) (letters b)) end.
Fixpoint unletters (s : string) : option (list Z) :=
  match s with
  | EmptyString => Some []
  | String a (String b s) => l ← unletters s; Some ((code a - 65) * 16 + (code b - 65) :: l)
  | _ => None
  end.
Definition toy_hmac (secret : list Z) (msg : string) : list Z := [Z.of_nat (String.length msg) mod 256; fold_left Z.add secret 0 mod 256].

Lemma letters_roundtrip b : bytes_ok b -> unletters (letters b) = Some b.
Proof.
  induction 1 as [|z b Hz _ IH]; cbn; [done|]. rewrite IH. cbn. change (0 <= z < 256) in Hz.
  pose proof (Z.mod_pos_bound z 16 ltac:(lia)). pose proof (Z.div_mod z 16 ltac:(lia)).
  rewrite !code_chr by lia. do 2 f_equal. lia.
Qed.
Lemma letters_plain b : bytes_ok b -> no_char "." (letters b) = true.
Proof.
  induction 1 as [|z b Hz _ IH]; [done|]. cbn [letters]. unfold no_char in *. cbn [all_chars]. rewrite IH, andb_true_r.
  assert (forall x, 0 <= x < 16 -> negb (Ascii.eqb "." (chr (65 + x))) = true) as H.
  { intros x Hx. destruct (Ascii.eqb_spec "." (chr (65 + x))) as [He|]; [|done]. apply (f_equal code) in He. rewrite code_chr in He by lia. assert (code "." = 46) by done. lia. }
  change (0 <= z < 256) in Hz. pose proof (Z.mod_pos_bound z 16 ltac:(lia)). pose proof (Z.div_mod z 16 ltac:(lia)).
  by rewrite !H by lia.
Qed.

Lemma tokens_bind_claims_witness :
  verify toy_hmac unletters [1; 2] 99 (issue toy_hmac letters [1; 2] "tab1" 100) = Ok (mkClaims "tab1" 100) /\
  verify toy_hmac unletters [1; 2] 100 (issue toy_hmac letters [1; 2] "tab1" 100) = Err TokenExpired.
Proof.
  assert (claims_ok (mkClaims "tab1" 100)) as Hc by (split; [done|]; split; [done | by unfold uN]).
  assert (forall secret msg, bytes_ok (toy_hmac secret msg)) as Hb.
  { intros secret msg. apply Forall_cons. split; [apply (wrap_range 8); lia|]. apply Forall_cons. split; [apply (wrap_range 8); lia | constructor]. }
  split.
  - exact (proj1 (tokens_bind_claims toy_hmac letters unletters letters_roundtrip letters_plain Hb [1; 2] 99) (mkClaims "tab1" 100) Hc).
  - exact (proj1 (tokens_bind_claims toy_hmac letters unletters letters_roundtrip letters_plain Hb [1; 2] 100) (mkClaims "tab1" 100) Hc).
Defined.

(** An extension whose name has a dot is given tokens that are never accepted. *)
Lemma dotted_name_is_malformed : verify toy_hmac unletters [1; 2] 0 (issue toy_hmac letters [1; 2] "a.b" 100) = Err Malformed.
Proof. vm_compute. done. Qed.
