(* ===== verification/Wav.v ===== *)
(** WAV files (src/src/call/voicemail/wav.rs): the writer of the voicemail and of
    the recordings, and a reader of the RIFF format to hold it against.

    The outcome of each write of the system is an argument: [None], or the bytes
    that were written before it failed. Seeks succeed. *)
From S2P Require Import Prelude Bytes RustStr.

Definition WAV_HEADER_LEN : nat := 44.
Definition WAV_SAMPLE_RATE : Z := 8000.
Definition WAV_CHANNELS : Z := 1.
Definition WAV_BITS_PER_SAMPLE : Z := 16.

Fixpoint fourcc (s : string) : list Z := match s with EmptyString => [] | String c s => code c :: fourcc s end.

(** The file with its cursor, and the fields of the writer. *)
Record WavWriter := mkWav { wav_file : list Z; wav_cursor : nat; data_bytes : Z; finalized : bool }.

(** [write_all] at the cursor. *)
Definition write_at (f : list Z) (at_ : nat) (data : list Z) : list Z := take at_ f ++ data ++ drop (at_ + length data) f.
Definition put (w : WavWriter) (data : list Z) (io : option nat) : bool * WavWriter :=
  let written := match io with None => data | Some n => take n data end in
  (bool_decide (io = None),
   mkWav (write_at (wav_file w) (wav_cursor w) written) (wav_cursor w + length written) (data_bytes w) (finalized w)).
Definition seek (w : WavWriter) (at_ : nat) : WavWriter := mkWav (wav_file w) at_ (data_bytes w) (finalized w).

Definition make_header_placeholder : list Z :=
  let byte_rate := WAV_SAMPLE_RATE * WAV_CHANNELS * WAV_BITS_PER_SAMPLE / 8 in
  let block_align := WAV_CHANNELS * WAV_BITS_PER_SAMPLE / 8 in
  fourcc "RIFF" ++ le_bytes 4 0 ++ fourcc "WAVE" ++
  fourcc "fmt " ++ le_bytes 4 16 ++ le_bytes 2 1 ++ le_bytes 2 WAV_CHANNELS ++ le_bytes 4 WAV_SAMPLE_RATE ++
    le_bytes 4 byte_rate ++ le_bytes 2 block_align ++ le_bytes 2 WAV_BITS_PER_SAMPLE ++
  fourcc "data" ++ le_bytes 4 0.

(** [WavWriter::create]. *)
Definition wav_create (io : option nat) : bool * WavWriter := put (mkWav [] 0 0 false) make_header_placeholder io.

Definition write_samples (w : WavWriter) (samples : list Z) (io : option nat) : bool * WavWriter :=
  match samples with
  | [] => (true, w)
  | _ =>
      let '(ok, w) := put w (flat_map (fun s => le_bytes 2 (wrap 16 s)) samples) io in
      if ok then
        let added := wrap 32 (Z.of_nat (length samples) * 2) in
        (true, mkWav (wav_file w) (wav_cursor w) (saturating_add 32 (data_bytes w) added) (finalized w))
      else (false, w)
  end.

Definition finalize (w : WavWriter) (io1 io2 : option nat) : bool * WavWriter :=
  if finalized w then (true, w)
  else
    let riff_size := saturating_add 32 36 (data_bytes w) in
    let '(ok, w) := put (seek w 4) (le_bytes 4 riff_size) io1 in
    if negb ok then (false, w)
    else
      let '(ok, w) := put (seek w 40) (le_bytes 4 (data_bytes w)) io2 in
      if negb ok then (false, w) else (true, mkWav (wav_file w) (wav_cursor w) (data_bytes w) true).

(** ** A reader *)

Definition le_value (l : list Z) : Z := foldr (fun b a => b + 256 * a) 0 l.

#[global] Arguments le_value : simpl never.

(** The chunks of a RIFF file: an id, a size, and that many bytes, padded to an
    even number. *)
Fixpoint chunks (fuel : nat) (l : list Z) : option (list (list Z * list Z)) :=
  match l, fuel with
  | [], _ => Some []
  | _, O => None
  | _, S fuel =>
      let size := Z.to_nat (le_value (take 4 (drop 4 l))) in
      let body := drop 8 l in
      if bool_decide (8 <= length l)%nat && bool_decide (size <= length body)%nat then
        rest ← chunks fuel (drop (size + size mod 2) body); Some ((take 4 l, take size body) :: rest)
      else None
  end.
Definition chunk (id : string) (l : list (list Z * list Z)) : option (list Z) :=
  snd <$> find (fun p => bool_decide (p.1 = fourcc id)) l.

(** 16-bit linear PCM of one channel at 8000 Hz. *)
Definition pcm_format (fmt : list Z) : bool :=
  match fmt with
  | [f0; f1; c0; c1; r0; r1; r2; r3; b0; b1; b2; b3; a0; a1; w0; w1] =>
      (le_value [f0; f1] =? 1) && (le_value [c0; c1] =? 1) && (le_value [r0; r1; r2; r3] =? 8000) &&
      (le_value [b0; b1; b2; b3] =? 16000) && (le_value [a0; a1] =? 2) && (le_value [w0; w1] =? 16)
  | _ => false
  end.
Fixpoint samples_of (l : list Z) : option (list Z) :=
  match l with
  | [] => Some []
  | lo :: hi :: l => s ← samples_of l; Some (as_iN 16 (le_value [lo; hi]) :: s)
  | _ => None
  end.
Definition read_wav (f : list Z) : option (list Z) :=
  if bool_decide (take 4 f = fourcc "RIFF") && (le_value (take 4 (drop 4 f)) =? Z.of_nat (length f) - 8) &&
     bool_decide (take 4 (drop 8 f) = fourcc "WAVE") then
    l ← chunks (length f) (drop 12 f);
    fmt ← chunk "fmt " l;
    data ← chunk "data" l;
    if pcm_format fmt then samples_of data else None
  else None.

(** ** What is written is read *)

Lemma le_value_bytes n z : 0 <= z < 256 ^ Z.of_nat n -> le_value (le_bytes n z) = z.
Proof.
  revert z. induction n as [|n IH]; intros z Hz; [change (0 <= z < 1) in Hz; change (0 = z); lia|]. unfold le_value in *. change (le_bytes (S n) z) with (z mod 256 :: le_bytes n (z / 256)).
  cbn [foldr]. rewrite IH.
  - pose proof (Z.div_mod z 256 ltac:(lia)). lia.
  - replace (Z.of_nat (S n)) with (1 + Z.of_nat n) in Hz by lia. rewrite Z.pow_add_r in Hz by lia.
    split; [apply Z.div_pos; lia | apply Z.div_lt_upper_bound; lia].
Qed.

Definition pcm_bytes (samples : list Z) : list Z := flat_map (fun s => le_bytes 2 (wrap 16 s)) samples.
Lemma length_pcm samples : length (pcm_bytes samples) = (2 * length samples)%nat.
Proof. induction samples as [|s l IH]; cbn; [done|]. rewrite length_app, length_le_bytes. fold (pcm_bytes l). lia. Qed.
Lemma samples_pcm samples : Forall i16 samples -> samples_of (pcm_bytes samples) = Some samples.
Proof.
  induction 1 as [|s l Hs _ IH]; [done|]. cbn [pcm_bytes flat_map].
  assert (le_bytes 2 (wrap 16 s) = [wrap 16 s mod 256; wrap 16 s / 256 mod 256]) as He by done. rewrite He. cbn [app samples_of]. rewrite <- He.
  rewrite le_value_bytes by (change (uN 16 (wrap 16 s)); apply wrap_range; lia). fold (pcm_bytes l). rewrite IH. cbn.
  do 2 f_equal. assert (as_iN 16 (wrap 16 s) = as_iN 16 s) as -> by (unfold as_iN, wrap; by rewrite Z.mod_mod). by apply as_iN_small.
Qed.

(** The header with its sizes, and the samples. *)
Definition wav_bytes (riff data : Z) (pcm : list Z) : list Z :=
  fourcc "RIFF" ++ le_bytes 4 riff ++ take 32 (drop 8 make_header_placeholder) ++ le_bytes 4 data ++ pcm.

Lemma le_bytes_4 z : exists a b c d, le_bytes 4 z = [a; b; c; d].
Proof. by repeat eexists. Qed.

Lemma chunks_step fuel i0 i1 i2 i3 s0 s1 s2 s3 body rest : le_value [s0; s1; s2; s3] = Z.of_nat (length body) -> (length body mod 2 = 0)%nat ->
  chunks (S fuel) ([i0; i1; i2; i3; s0; s1; s2; s3] ++ body ++ rest) = (r ← chunks fuel rest; Some (([i0; i1; i2; i3], body) :: r)).
Proof.
  intros Hs He. cbn [chunks app take drop]. rewrite !take_0, !drop_0, Hs, Nat2Z.id, He, Nat.add_0_r, length_app.
  rewrite bool_decide_eq_true_2 by (cbn; lia). rewrite bool_decide_eq_true_2 by lia. cbn [andb].
  by rewrite drop_app_length, take_app_length.
Qed.

Lemma read_wav_bytes samples : Forall i16 samples -> 36 + 2 * Z.of_nat (length samples) < 2 ^ 32 ->
  read_wav (wav_bytes (36 + 2 * Z.of_nat (length samples)) (2 * Z.of_nat (length samples)) (pcm_bytes samples)) = Some samples.
Proof.
  intros Hs Hn. set (n := Z.of_nat (length samples)) in *. pose proof (le_value_bytes 4 (36 + 2 * n) ltac:(lia)) as H1.
  pose proof (le_value_bytes 4 (2 * n) ltac:(lia)) as H2. pose proof (length_pcm samples) as Hl. unfold wav_bytes.
  destruct (le_bytes_4 (36 + 2 * n)) as (a & b & c & d & Hr). destruct (le_bytes_4 (2 * n)) as (a' & b' & c' & d' & Hd). rewrite Hr in *. rewrite Hd in *.
  set (pcm := pcm_bytes samples) in *.
  assert (take 32 (drop 8 make_header_placeholder) = [87;65;86;69;102;109;116;32;16;0;0;0;1;0;1;0;64;31;0;0;128;62;0;0;2;0;16;0;100;97;116;97]) as -> by (vm_compute; reflexivity).
  set (f := _ ++ _ ++ _ ++ _ ++ pcm). assert (length f = (44 + 2 * length samples)%nat) as Hf by (unfold f; cbn [app fourcc length]; lia).
  unfold read_wav. rewrite Hf.
  assert (drop 12 f = [102;109;116;32;16;0;0;0] ++ [1;0;1;0;64;31;0;0;128;62;0;0;2;0;16;0] ++ [100;97;116;97;a';b';c';d'] ++ pcm ++ []) as ->
    by (rewrite app_nil_r; reflexivity).
  change (take 4 (drop 4 f)) with [a; b; c; d]. change (take 4 (drop 8 f)) with (fourcc "WAVE"). change (take 4 f) with (fourcc "RIFF").
  rewrite H1, !bool_decide_eq_true_2 by done. replace (36 + 2 * n =? Z.of_nat (44 + 2 * length samples) - 8) with true by (symmetry; apply Z.eqb_eq; lia).
  cbn [andb]. change (44 + 2 * length samples)%nat with (S (S (42 + 2 * length samples))).
  rewrite chunks_step by done. rewrite chunks_step; [| rewrite H2, Hl; lia | rewrite Hl, Nat.mul_comm; apply Nat.Div0.mod_mul].
  change (chunks _ []) with (Some (@nil (list Z * list Z))). cbn [mbind option_bind].
  change (samples_of pcm = Some samples). by apply samples_pcm.
Qed.

(** ** A file that is written *)

(** All the samples of [writes], when nothing fails. *)
Fixpoint write_all_samples (w : WavWriter) (writes : list (list Z)) : WavWriter :=
  match writes with [] => w | l :: writes => write_all_samples (write_samples w l None).2 writes end.

(** What the file holds before it is finalized. *)
Record recording (w : WavWriter) (samples : list Z) : Prop := {
  rec_file : wav_file w = make_header_placeholder ++ pcm_bytes samples;
  rec_cursor : wav_cursor w = length (wav_file w);
  rec_size : data_bytes w = 2 * Z.of_nat (length samples);
  rec_open : finalized w = false }.

Lemma write_at_end f data : write_at f (length f) data = f ++ data.
Proof. unfold write_at. rewrite firstn_all, drop_ge by lia. by rewrite app_nil_r. Qed.

Lemma recording_new : (wav_create None).1 = true /\ recording (wav_create None).2 [].
Proof. split; [done|]. split; try done. Qed.

Lemma recording_write w samples l : recording w samples -> 2 * Z.of_nat (length (samples ++ l)) < 2 ^ 32 ->
  (write_samples w l None).1 = true /\ recording (write_samples w l None).2 (samples ++ l).
Proof.
  intros [Hf Hc Hs Ho] Hn. rewrite length_app in Hn. destruct l as [|x l]; [by rewrite app_nil_r|].
  unfold write_samples, put. rewrite bool_decide_eq_true_2 by done. cbn [fst snd]. split; [done|].
  fold (pcm_bytes (x :: l)). set (l' := x :: l) in *. split; cbn [wav_file wav_cursor data_bytes finalized].
  - rewrite Hc, write_at_end, Hf. unfold pcm_bytes. by rewrite flat_map_app, app_assoc.
  - rewrite Hc, write_at_end, !length_app. lia.
  - rewrite Hs, wrap_small by (unfold uN; lia). rewrite length_app. unfold saturating_add. lia.
  - done.
Qed.

Lemma finalize_recording w samples : recording w samples -> 36 + 2 * Z.of_nat (length samples) < 2 ^ 32 ->
  (finalize w None None).1 = true /\
  wav_file (finalize w None None).2 = wav_bytes (36 + 2 * Z.of_nat (length samples)) (2 * Z.of_nat (length samples)) (pcm_bytes samples).
Proof.
  intros [Hf Hc Hs Ho] Hn. unfold finalize. rewrite Ho. unfold put. rewrite bool_decide_eq_true_2 by done. cbn [negb seek wav_file wav_cursor data_bytes].
  split; [done|]. rewrite Hs, Hf. unfold saturating_add. rewrite Z.min_l by lia.
  destruct (le_bytes_4 (36 + 2 * Z.of_nat (length samples))) as (a & b & c & d & Hr). destruct (le_bytes_4 (2 * Z.of_nat (length samples))) as (a' & b' & c' & d' & Hd).
  unfold wav_bytes. rewrite Hr, Hd. vm_compute. reflexivity.
Qed.

(** A WAV file that was written in any pieces, without a failure and below
    the 4 GiB of its sizes, is read by the RIFF format as exactly the samples that
    were written. *)
Theorem wav_reads_back (writes : list (list Z)) (Hs : Forall (Forall i16) writes) (Hn : 36 + 2 * Z.of_nat (length (concat writes)) < 2 ^ 32) :
  read_wav (wav_file (finalize (write_all_samples (wav_create None).2 writes) None None).2) = Some (concat writes).
Proof.
  assert (forall ws w samples, recording w samples -> 2 * Z.of_nat (length (samples ++ concat ws)) < 2 ^ 32 ->
    recording (write_all_samples w ws) (samples ++ concat ws)) as Hall.
  { induction ws as [|l ws IH]; intros w samples Hw Hlt; cbn [write_all_samples concat] in *; [by rewrite app_nil_r|].
    rewrite app_assoc in *. apply IH; [|done]. apply recording_write; [done|]. rewrite length_app in Hlt. lia. }
  specialize (Hall writes _ [] (proj2 recording_new)). cbn [app] in Hall. specialize (Hall ltac:(lia)).
  destruct (finalize_recording _ _ Hall Hn) as [_ ->]. apply read_wav_bytes; [by apply Forall_concat | done].
Qed.

Lemma wav_reads_back_witness :
  read_wav (wav_file (finalize (write_all_samples (wav_create None).2 [[1; -2]; []; [32767; -32768]]) None None).2) = Some [1; -2; 32767; -32768].
Proof. apply (wav_reads_back [[1; -2]; []; [32767; -32768]]); [repeat constructor; done | done]. Defined.
