(* ===== verification/Recording.v ===== *)
(** The voicemail (src/src/call/voicemail/mod.rs) and the recordings of calls
    (src/src/call/recording.rs), with the files of their directories.

    The directories are maps from file names; a file gets its contents when its
    writer is done. The JSON of serde is an argument, and so is the transcriber. *)
From S2P Require Import Prelude Bytes RustStr RtpPacket Ulaw Transcoder Wav.

(** [sanitize_id]: one character for each character; the continuation bytes of one
    outside ASCII are passed over. *)
Definition is_alphanumeric (c : ascii) : bool :=
  is_ascii_digit c || ((65 <=? code c) && (code c <=? 90)) || ((97 <=? code c) && (code c <=? 122)).
Definition safe_char (c : ascii) : bool := is_alphanumeric c || Ascii.eqb c "-" || Ascii.eqb c "_" || Ascii.eqb c ".".
Fixpoint sanitize_chars (raw : string) : string :=
  match raw with
  | EmptyString => EmptyString
  | String c raw =>
      if safe_char c then String c (sanitize_chars raw)
      else if (0x80 <=? code c) && (code c <=? 0xBF) then sanitize_chars raw
      else String "_" (sanitize_chars raw)
  end.
Definition sanitize_id (raw : string) : string :=
  let s := sanitize_chars raw in
  if String.eqb s "" || String.eqb s "." || String.eqb s ".." then "_" else s.

Abbreviation Files := (gmap string (list Z)).

Definition EXT_WAV : string := "wav".
Definition EXT_META : string := "json".
Definition TRANSCRIPT_EXT : string := "txt".
Definition named (id ext : string) : string := sanitize_id id +:+ "." +:+ ext.

(** [max_duration]: 0 is as good as none. *)
Definition max_duration (secs : Z) : Z := if secs =? 0 then from_secs ((2 ^ 64 - 1) / 2) else from_secs secs.
Definition duration_of (total_samples : Z) : Z := wrapping_mul 64 total_samples 1000 / SAMPLE_RATE.

(** [StubTranscriber]. *)
Definition PLACEHOLDER_TEXT : string := "(transcription unavailable - configure backend)".
Definition build_transcriber (backend : string) : option (string -> option string) :=
  if String.eqb backend "stub" then Some (fun _ => Some PLACEHOLDER_TEXT) else None.

(** *** The metadata files *)

Section files.
Context {M : Type} (to_json : M -> list Z) (from_json : list Z -> option M) (recorded_at : M -> Z).

(** [run_transcription_hook]: the transcript is written beside the WAV file. *)
Definition run_transcription_hook (transcriber : option (string -> option string)) (id : string) (files : Files) : Files :=
  match transcriber with
  | Some transcribe =>
      match transcribe (named id EXT_WAV) with Some text => <[named id TRANSCRIPT_EXT := fourcc text]> files | None => files end
  | None => files
  end.

(** The end of a recording: the WAV file, its transcript and its metadata. *)
Definition store (transcriber : option (string -> option string)) (id : string) (meta : M) (w : WavWriter) (io1 io2 : option nat) (files : Files) : option M * Files :=
  let '(ok, w) := finalize w io1 io2 in
  let files := <[named id EXT_WAV := wav_file w]> files in
  if ok then (Some meta, <[named id EXT_META := to_json meta]> (run_transcription_hook transcriber id files)) else (None, files).

Definition get (files : Files) (id : string) : outcome unit (option (M * string)) :=
  match files !! named id EXT_META with
  | None => Ok None
  | Some bytes => meta ← ok_or (from_json bytes) tt; Ok (Some (meta, named id EXT_WAV))
  end.
Definition delete_file (files : Files) (id : string) : bool * Files :=
  let found := bool_decide (is_Some (files !! named id EXT_META)) || bool_decide (is_Some (files !! named id EXT_WAV)) in
  (found, delete (named id TRANSCRIPT_EXT) (delete (named id EXT_WAV) (delete (named id EXT_META) files))).

(** [load_list]: [names] is the order in which the system lists the directory. *)
Definition is_json (name : string) : bool :=
  match rsplit_once "." name with Some (stem, ext) => negb (String.eqb stem "") && eq_ignore_ascii_case ext EXT_META | None => false end.
(** The sort is stable. *)
Fixpoint insert_newest (m : M) (l : list M) : list M :=
  match l with [] => [m] | x :: l => if recorded_at x <=? recorded_at m then m :: x :: l else x :: insert_newest m l end.
Definition newest_first (l : list M) : list M := foldr insert_newest [] l.
Definition load_list (files : Files) (names : list string) : list M :=
  newest_first (omap (fun name => if is_json name then bytes ← files !! name; from_json bytes else None) names).
End files.

(** ** The voicemail *)

Record VoicemailFile := mkVoicemail { vf_call_id : string; vf_remote_number : string; vf_recorded_at : Z; vf_duration_ms : Z }.

(** What the loop of a recording is woken with. A stop that comes while a datagram
    is written wakes nobody: [stops] of them are lost. *)
Inductive VmEvent := VmDatagram (data : list Z) (io : option nat) (stops : nat) | VmStop | VmDeadline | VmRecvError.

(** [consume_rtp_datagram]: the samples that were written. *)
Definition pcmu_of (p : RtpPacket) : option (list Z) := if payload_type p =? PAYLOAD_TYPE_ULAW then Some (payload p) else None.
Definition consume_rtp_datagram (w : WavWriter) (data : list Z) (io : option nat) : option nat * WavWriter :=
  match from_bytes (take RECV_BUF_SIZE data) with
  | Ok p =>
      match pcmu_of p with
      | None => (None, w)
      | Some bytes => let '(ok, w) := write_samples w (map decode_ulaw bytes) io in (if ok then Some (length bytes) else None, w)
      end
  | _ => (None, w)
  end.
(** The loop; [false]: it still waits. *)
Fixpoint recording_loop (w : WavWriter) (total : Z) (evs : list VmEvent) : bool * WavWriter * Z :=
  match evs with
  | [] => (false, w, total)
  | VmDatagram data io _ :: evs =>
      let '(n, w) := consume_rtp_datagram w data io in recording_loop w (total + Z.of_nat (default 0%nat n)) evs
  | _ :: _ => (true, w, total)
  end.

Section voicemail.
Context (to_json : VoicemailFile -> list Z) (transcriber : option (string -> option string)).

(** [run_recording_loop], once the loop has ended. *)
Definition run_recording_loop (call_id remote_number : string) (now_ms : Z) (evs : list VmEvent) (io io1 io2 : option nat) (files : Files) : option (option VoicemailFile * Files) :=
  let '(ok, w) := wav_create io in
  if negb ok then Some (None, <[named call_id EXT_WAV := wav_file w]> files)
  else
    let '(ended, w, total) := recording_loop w 0 evs in
    if ended then
      Some (store to_json transcriber call_id (mkVoicemail call_id remote_number now_ms (duration_of total)) w io1 io2 files)
    else None.
End voicemail.

(** *** What is heard *)

Definition heard (data : list Z) : list Z :=
  match from_bytes (take RECV_BUF_SIZE data) with Ok p => default [] (pcmu_of p) | _ => [] end.
Definition spoken (datagrams : list (list Z)) : list Z := map decode_ulaw (concat (map heard datagrams)).

Lemma decode_ulaw_i16 b : u8 b -> i16 (decode_ulaw b).
Proof.
  intros Hb. assert (((-32768 <=? decode_ulaw b) && (decode_ulaw b <? 32768)) = true) as H by byte_exhaust b.
  apply andb_true_iff in H. width.
Qed.
Lemma heard_bytes data : bytes_ok data -> bytes_ok (heard data).
Proof.
  intros Hb. apply (Forall_take _ RECV_BUF_SIZE) in Hb. unfold heard. destruct (from_bytes _) as [p| |] eqn:Hp; [|constructor..].
  unfold pcmu_of. destruct (payload_type p =? _); [|constructor].
  apply from_bytes_sound in Hp; [|done]. destruct (wire_split _ _ Hp) as (b0 & b1 & csrc & ext & pad & Hd & _). cbn [default].
  rewrite Hd in Hb. rewrite !Forall_cons, !Forall_app in Hb. by destruct Hb as (_ & _ & _ & _ & _ & _ & _ & Hb & _).
Qed.
Lemma spoken_i16 datagrams : Forall bytes_ok datagrams -> Forall i16 (spoken datagrams).
Proof.
  intros H. unfold spoken. apply Forall_map. eapply Forall_impl; [|exact decode_ulaw_i16].
  apply Forall_concat, Forall_map. eapply Forall_impl; [exact H | exact heard_bytes].
Qed.

(** What a datagram adds to the file, when its write does not fail. *)
Lemma consume_recording w samples data : recording w samples -> 2 * Z.of_nat (length (samples ++ map decode_ulaw (heard data))) < 2 ^ 32 ->
  let '(n, w) := consume_rtp_datagram w data None in
  default 0%nat n = length (heard data) /\ recording w (samples ++ map decode_ulaw (heard data)).
Proof.
  intros Hw Hn. unfold consume_rtp_datagram, heard in *. destruct (from_bytes _) as [p| |]; [|cbn; by rewrite app_nil_r..].
  destruct (pcmu_of p) as [bytes|]; cbn [default] in *; [|cbn; by rewrite app_nil_r].
  pose proof (recording_write w samples (map decode_ulaw bytes) Hw Hn) as [Hok Hr].
  destruct (write_samples w _ None) as [ok w']. cbn [fst snd] in *. by subst ok.
Qed.

Lemma loop_hears l : forall w samples total e rest, (match e with VmDatagram _ _ _ => False | _ => True end) ->
  recording w samples -> 2 * Z.of_nat (length (samples ++ spoken (map fst l))) < 2 ^ 32 ->
  exists w', recording_loop w total (map (fun p => VmDatagram p.1 None p.2) l ++ e :: rest) = (true, w', total + Z.of_nat (length (spoken (map fst l)))) /\
    recording w' (samples ++ spoken (map fst l)).
Proof.
  induction l as [|[data stops] l IH]; intros w samples total e rest He Hw Hn.
  - exists w. cbn. rewrite app_nil_r, Z.add_0_r. split; [by destruct e | done].
  - assert (spoken (map fst ((data, stops) :: l)) = map decode_ulaw (heard data) ++ spoken (map fst l)) as Hs by (unfold spoken; cbn; by rewrite map_app).
    rewrite Hs, app_assoc in *. cbn [map app recording_loop fst snd].
    pose proof (consume_recording w samples data Hw) as Hc. destruct (consume_rtp_datagram w data None) as [n w1].
    destruct Hc as [Hlen Hw1]; [rewrite length_app in Hn; lia|].
    destruct (IH w1 _ (total + Z.of_nat (default 0%nat n)) e rest He Hw1 Hn) as (w' & -> & Hw'). exists w'. split; [|done].
    rewrite Hlen, length_app, length_map. f_equal. lia.
Qed.

(** *** The directory *)

Lemma named_inj id a b : named id a = named id b -> a = b.
Proof. unfold named. intros H. apply (inj _) in H. by injection H. Qed.
Lemma store_get {M} (to_json : M -> list Z) (from_json : list Z -> option M) tr id meta w samples files :
  (forall m, from_json (to_json m) = Some m) -> recording w samples -> Forall i16 samples -> 36 + 2 * Z.of_nat (length samples) < 2 ^ 32 ->
  let '(r, files) := store to_json tr id meta w None None files in
  r = Some meta /\ get from_json files id = Ok (Some (meta, named id EXT_WAV)) /\
  (f ← files !! named id EXT_WAV; read_wav f) = Some samples.
Proof.
  intros Hj Hw Hs Hn. unfold store. destruct (finalize_recording w samples Hw Hn) as [Hok Hf]. destruct (finalize w None None) as [ok w'].
  cbn [fst snd] in *. subst ok. split; [done|]. unfold get. rewrite lookup_insert_eq. cbn [ok_or mbind]. rewrite Hj. split; [done|].
  assert (forall a b, a <> b -> named id a <> named id b) as Hne by (intros a b Hab ?; by apply Hab, (named_inj id)).
  rewrite lookup_insert_ne by by apply Hne.
  assert (run_transcription_hook tr id (<[named id EXT_WAV:=wav_file w']> files) !! named id EXT_WAV = Some (wav_file w')) as ->.
  { unfold run_transcription_hook. destruct tr as [tr|]; [|apply lookup_insert_eq]. destruct (tr _); [|apply lookup_insert_eq].
    rewrite lookup_insert_ne by by apply Hne. apply lookup_insert_eq. }
  cbn [mbind option_bind]. rewrite Hf. by apply read_wav_bytes.
Qed.

Section heard.
Context (to_json : VoicemailFile -> list Z) (from_json : list Z -> option VoicemailFile) (transcriber : option (string -> option string)).
Hypothesis json_roundtrip : forall m, from_json (to_json m) = Some m.

(** A message left on the voicemail is kept whole: what its file holds is the
    decoded voice of every mu-law packet that came until the recording ended, in
    order, and its duration is theirs. Other datagrams, and stops that come while a
    packet is written, leave no trace. *)
Theorem voicemail_keeps_message (call_id remote_number : string) (now_ms : Z) (l : list (list Z * nat)) (e : VmEvent) (rest : list VmEvent) (files : Files)
    (Hb : Forall bytes_ok (map fst l)) (He : match e with VmDatagram _ _ _ => False | _ => True end)
    (Hn : 36 + 2 * Z.of_nat (length (spoken (map fst l))) < 2 ^ 32) :
  let meta := mkVoicemail call_id remote_number now_ms (Z.of_nat (length (spoken (map fst l))) * 1000 / SAMPLE_RATE) in
  exists files', run_recording_loop to_json transcriber call_id remote_number now_ms (map (fun p => VmDatagram p.1 None p.2) l ++ e :: rest) None None None files =
    Some (Some meta, files') /\
  get from_json files' call_id = Ok (Some (meta, named call_id EXT_WAV)) /\
  (f ← files' !! named call_id EXT_WAV; read_wav f) = Some (spoken (map fst l)).
Proof.
  intros meta. unfold run_recording_loop. destruct recording_new as [Hok Hw]. destruct (wav_create None) as [ok w]. cbn [fst snd] in *. subst ok. cbn [negb].
  destruct (loop_hears l w [] 0 e rest He Hw) as (w' & -> & Hw'); [cbn [app]; lia|]. cbn [app] in Hw'.
  assert (duration_of (0 + Z.of_nat (length (spoken (map fst l)))) = vf_duration_ms meta) as ->.
  { unfold duration_of, wrapping_mul. rewrite wrap_small; [done | unfold uN; lia]. }
  pose proof (store_get to_json from_json transcriber call_id meta w' _ files json_roundtrip Hw' (spoken_i16 _ Hb) Hn) as Hs.
  unfold meta in *. cbn [vf_duration_ms]. destruct (store _ _ _ _ _ _ _ _) as [r files'] eqn:Hst. destruct Hs as (-> & Hg & Hr). by exists files'.
Qed.
End heard.

(** *** File names *)

Lemma sanitize_chars_safe s : all_chars safe_char (sanitize_chars s) = true.
Proof.
  induction s as [|c s IH]; [done|]. cbn [sanitize_chars]. destruct (safe_char c) eqn:Hc; [cbn [all_chars]; by rewrite Hc|].
  destruct ((0x80 <=? code c) && (code c <=? 0xBF)); [done|]. cbn [all_chars]. by rewrite IH.
Qed.
Lemma sanitize_safe raw : all_chars safe_char (sanitize_id raw) = true.
Proof. unfold sanitize_id. destruct (_ || _); [done | apply sanitize_chars_safe]. Qed.
Lemma sanitize_plain s : all_chars safe_char s = true -> s <> "" -> s <> "." -> s <> ".." -> sanitize_id s = s.
Proof.
  intros Hs H0 H1 H2. assert (sanitize_chars s = s) as Hid.
  { clear - Hs. induction s as [|c s IH]; [done|]. cbn [all_chars sanitize_chars] in *. apply andb_true_iff in Hs as [-> Hs]. by rewrite IH. }
  unfold sanitize_id. apply String.eqb_neq in H0, H1, H2. by rewrite Hid, H0, H1, H2.
Qed.

(** The name of a stored file is a plain name in the directory of the files,
    whatever the Call-ID: no separator, no control character, and not the directory
    itself or its parent. *)
Theorem sanitized_is_plain (raw : string) :
  all_chars safe_char (sanitize_id raw) = true /\ sanitize_id raw <> "" /\ sanitize_id raw <> "." /\ sanitize_id raw <> ".." /\
  sanitize_id (sanitize_id raw) = sanitize_id raw.
Proof.
  assert (sanitize_id raw <> "" /\ sanitize_id raw <> "." /\ sanitize_id raw <> "..") as Hd.
  { unfold sanitize_id. destruct (String.eqb_spec (sanitize_chars raw) ""); [done|]. destruct (String.eqb_spec (sanitize_chars raw) "."); [done|].
    by destruct (String.eqb_spec (sanitize_chars raw) ".."). }
  split; [apply sanitize_safe|]. destruct Hd as (H0 & H1 & H2). do 3 (split; [done|]). apply sanitize_plain; [apply sanitize_safe | done..].
Qed.

(** Call-IDs that differ only in replaced characters share their files: the second
    message replaces the first. *)
Lemma call_ids_collide : sanitize_id "a@host" = sanitize_id "a_host".
Proof. done. Qed.

(** ** The recordings *)

Record RecordingFile := mkRecording { rf_recording_id : string; rf_call_id : string; rf_remote_number : string; rf_started_at : Z; rf_duration_ms : Z }.
Inductive RecordingError := AlreadyRecording (call_id : string) | Setup | NotFound (call_id : string).

(** The task of a recording: it waits for a packet, or writes one; or it is done.
    [rt_open]: a sender is left; [rt_notified]: it was waiting when it was told to stop. *)
Inductive RecPhase := RecWaiting | RecWriting (pcm : list Z) | RecDone (result : option RecordingFile).
Record RecTask := mkRecTask {
  rt_file : RecordingFile; rt_writer : WavWriter; rt_samples : Z; rt_queue : list RtpPacket; rt_open : bool; rt_notified : bool; rt_phase : RecPhase }.
(** [rec_seq] is the static counter of the recording ids. *)
Record CallRecorder := mkRecorder { rec_active : gmap string nat; rec_tasks : list RecTask; rec_seq : Z; rec_files : Files }.
Definition recorder_new : CallRecorder := mkRecorder ∅ [] 0 ∅.

Definition CHANNEL : nat := 256.
Definition next_recording_id (call_id : string) (ms seq : Z) : string := sanitize_id call_id +:+ "-" +:+ print_uint ms +:+ "-" +:+ print_uint seq.

Inductive RecEvent :=
  | RecStart (call_id remote_number : string) (now_ms : Z) (io : option nat)
  | RecStop (call_id : string)
  (* a packet for the recording of a call: [sender_for] and [try_send] *)
  | RecFeed (call_id : string) (p : RtpPacket)
  (* what the task of a recording is woken with *)
  | RecTake (i : nat)
  | RecWrote (i : nat) (io io1 io2 : option nat)
  | RecStopped (i : nat) (io1 io2 : option nat)
  | RecExpired (i : nat) (io1 io2 : option nat)
  | RecHungUp (i : nat) (io1 io2 : option nat).
Inductive RecOutput :=
  | RecStarted (i : nat) (recording_id : string)
  | RecRefused (e : RecordingError)
  (* the stop waits for the task *)
  | RecJoins (i : nat)
  | RecTook (i : nat) (p : RtpPacket)
  | RecDropped (i : nat) (p : RtpPacket).

Section recorder.
Context (to_json : RecordingFile -> list Z) (transcriber : option (string -> option string)).

Definition rec_update (r : CallRecorder) (i : nat) (t : RecTask) : CallRecorder :=
  mkRecorder (rec_active r) (<[i := t]> (rec_tasks r)) (rec_seq r) (rec_files r).
Definition set_rec_phase (t : RecTask) (ph : RecPhase) : RecTask :=
  mkRecTask (rt_file t) (rt_writer t) (rt_samples t) (rt_queue t) (rt_open t) (rt_notified t) ph.

(** [start]. *)
Definition rec_start (r : CallRecorder) (call_id remote_number : string) (now_ms : Z) (io : option nat) : list RecOutput * CallRecorder :=
  match rec_active r !! call_id with
  | Some _ => ([RecRefused (AlreadyRecording call_id)], r)
  | None =>
      let id := next_recording_id call_id now_ms (rec_seq r) in
      let seq := wrapping_add 64 (rec_seq r) 1 in
      let '(ok, w) := wav_create io in
      if negb ok then ([RecRefused Setup], mkRecorder (rec_active r) (rec_tasks r) seq (<[named id EXT_WAV := wav_file w]> (rec_files r)))
      else
        let i := length (rec_tasks r) in
        ([RecStarted i id],
         mkRecorder (<[call_id := i]> (rec_active r))
           (rec_tasks r ++ [mkRecTask (mkRecording id call_id remote_number now_ms 0) w 0 [] true false RecWaiting]) seq (rec_files r))
  end.
(** [stop], up to the join. *)
Definition rec_stop (r : CallRecorder) (call_id : string) : list RecOutput * CallRecorder :=
  match rec_active r !! call_id with
  | None => ([RecRefused (NotFound call_id)], r)
  | Some i =>
      ([RecJoins i],
       mkRecorder (delete call_id (rec_active r))
         (alter (fun t => mkRecTask (rt_file t) (rt_writer t) (rt_samples t) (rt_queue t) false
            (match rt_phase t with RecWaiting => true | _ => rt_notified t end) (rt_phase t)) i (rec_tasks r)) (rec_seq r) (rec_files r))
  end.
Definition rec_feed (r : CallRecorder) (call_id : string) (p : RtpPacket) : list RecOutput * CallRecorder :=
  match rec_active r !! call_id with
  | None => ([], r)
  | Some i =>
      match rec_tasks r !! i with
      | Some t =>
          match rt_phase t with
          | RecDone _ => ([RecDropped i p], r)
          | _ =>
              if (length (rt_queue t) <? CHANNEL)%nat then
                ([RecTook i p],
                 rec_update r i (mkRecTask (rt_file t) (rt_writer t) (rt_samples t) (rt_queue t ++ [p]) (rt_open t) (rt_notified t) (rt_phase t)))
              else ([RecDropped i p], r)
          end
      | None => ([], r)
      end
  end.
(** The loop has ended. *)
Definition rec_finish (r : CallRecorder) (i : nat) (t : RecTask) (io1 io2 : option nat) : CallRecorder :=
  let f := rt_file t in
  let meta := mkRecording (rf_recording_id f) (rf_call_id f) (rf_remote_number f) (rf_started_at f) (duration_of (rt_samples t)) in
  let '(result, files) := store to_json transcriber (rf_recording_id f) meta (rt_writer t) io1 io2 (rec_files r) in
  mkRecorder (rec_active r) (<[i := set_rec_phase t (RecDone result)]> (rec_tasks r)) (rec_seq r) files.

(** [run_recording_loop]. *)
Definition rec_take (r : CallRecorder) (i : nat) (t : RecTask) : CallRecorder :=
  match rt_queue t with
  | [] => r
  | p :: queue =>
      let t := mkRecTask (rt_file t) (rt_writer t) (rt_samples t) queue (rt_open t) (rt_notified t) (rt_phase t) in
      rec_update r i (match pcmu_of p with Some bytes => set_rec_phase t (RecWriting (map decode_ulaw bytes)) | None => t end)
  end.
Definition rec_wrote (r : CallRecorder) (i : nat) (t : RecTask) (pcm : list Z) (io io1 io2 : option nat) : CallRecorder :=
  let '(ok, w) := write_samples (rt_writer t) pcm io in
  let t' := mkRecTask (rt_file t) w (if ok then rt_samples t + Z.of_nat (length pcm) else rt_samples t) (rt_queue t) (rt_open t) (rt_notified t) RecWaiting in
  if ok then rec_update r i t' else rec_finish r i t' io1 io2.

Definition rec_step (r : CallRecorder) (ev : RecEvent) : list RecOutput * CallRecorder :=
  let woken i f := match rec_tasks r !! i with Some t => match rt_phase t with RecWaiting => ([], f t) | _ => ([], r) end | None => ([], r) end in
  match ev with
  | RecStart call_id remote_number now_ms io => rec_start r call_id remote_number now_ms io
  | RecStop call_id => rec_stop r call_id
  | RecFeed call_id p => rec_feed r call_id p
  | RecTake i => woken i (rec_take r i)
  | RecWrote i io io1 io2 =>
      match rec_tasks r !! i with
      | Some t => match rt_phase t with RecWriting pcm => ([], rec_wrote r i t pcm io io1 io2) | _ => ([], r) end
      | None => ([], r)
      end
  | RecStopped i io1 io2 => woken i (fun t => if rt_notified t then rec_finish r i t io1 io2 else r)
  | RecExpired i io1 io2 => woken i (fun t => rec_finish r i t io1 io2)
  | RecHungUp i io1 io2 => woken i (fun t => match rt_queue t with [] => if rt_open t then r else rec_finish r i t io1 io2 | _ => r end)
  end.
Fixpoint rec_run (r : CallRecorder) (evs : list RecEvent) : list RecOutput * CallRecorder :=
  match evs with
  | [] => ([], r)
  | ev :: evs => let '(o, r) := rec_step r ev in let '(os, r) := rec_run r evs in (o ++ os, r)
  end.
End recorder.

(** *** What is kept of a call *)

Definition voice (l : list RtpPacket) : list Z := map decode_ulaw (concat (omap pcmu_of l)).
Definition taken_by (i : nat) (os : list RecOutput) : list RtpPacket :=
  omap (fun o => match o with RecTook j p => if (i =? j)%nat then Some p else None | _ => None end) os.
(** Everything that was taken, for the size of the files. *)
Definition fed (evs : list RecEvent) : list RtpPacket := omap (fun ev => match ev with RecFeed _ p => Some p | _ => None end) evs.
Definition started (evs : list RecEvent) : nat := length (List.filter (fun ev => match ev with RecStart _ _ _ _ => true | _ => false end) evs).

Definition rec_event_ok (ev : RecEvent) : Prop :=
  match ev with
  | RecStart _ _ _ io => io = None
  | RecFeed _ p => bytes_ok (payload p)
  | RecWrote _ io io1 io2 => io = None /\ io1 = None /\ io2 = None
  | RecStopped _ io1 io2 | RecExpired _ io1 io2 | RecHungUp _ io1 io2 => io1 = None /\ io2 = None
  | _ => True
  end.

Section kept.
Context (to_json : RecordingFile -> list Z) (from_json : list Z -> option RecordingFile) (transcriber : option (string -> option string)).
Hypothesis json_roundtrip : forall m, from_json (to_json m) = Some m.

(** The file of a recording holds what it heard. *)
Definition holds (files : Files) (meta : RecordingFile) (h : list RtpPacket) : Prop :=
  get from_json files (rf_recording_id meta) = Ok (Some (meta, named (rf_recording_id meta) EXT_WAV)) /\
  (f ← files !! named (rf_recording_id meta) EXT_WAV; read_wav f) = Some (voice h) /\
  rf_duration_ms meta = Z.of_nat (length (voice h)) * 1000 / SAMPLE_RATE.

Definition task_ok (files : Files) (l : list RtpPacket) (t : RecTask) : Prop :=
  Forall (fun p => bytes_ok (payload p)) l /\ 36 + 2 * Z.of_nat (length (voice l)) < 2 ^ 32 /\
  match rt_phase t with
  | RecWaiting => exists h, l = h ++ rt_queue t /\ recording (rt_writer t) (voice h) /\ rt_samples t = Z.of_nat (length (voice h))
  | RecWriting pcm => exists h p, l = h ++ p :: rt_queue t /\ pcm = voice [p] /\ recording (rt_writer t) (voice h) /\ rt_samples t = Z.of_nat (length (voice h))
  | RecDone result => exists meta h, result = Some meta /\ rf_recording_id meta = rf_recording_id (rt_file t) /\ l = h ++ rt_queue t /\ holds files meta h
  end.
Definition id_ok (i : nat) (t : RecTask) : Prop := exists call_id ms, rf_recording_id (rt_file t) = next_recording_id call_id ms (Z.of_nat i).

Record rec_ok (os : list RecOutput) (r : CallRecorder) : Prop := {
  ro_seq : rec_seq r = Z.of_nat (length (rec_tasks r));
  ro_task : forall i t, rec_tasks r !! i = Some t -> task_ok (rec_files r) (taken_by i os) t /\ id_ok i t;
  ro_none : forall i, rec_tasks r !! i = None -> taken_by i os = [] }.

Lemma voice_app a b : voice (a ++ b) = voice a ++ voice b.
Proof. unfold voice. by rewrite omap_app, concat_app, map_app. Qed.
Lemma voice_i16 l : Forall (fun p => bytes_ok (payload p)) l -> Forall i16 (voice l).
Proof.
  intros H. unfold voice. apply Forall_map. eapply Forall_impl; [|exact decode_ulaw_i16]. apply Forall_concat.
  induction H as [|p l Hp _ IH]; [constructor|]. cbn. unfold pcmu_of at 1. destruct (payload_type p =? _); [by constructor | done].
Qed.

(** Two recordings never have the same names. *)
Lemma recording_id_last call_id ms n : rsplit_once "-" (next_recording_id call_id ms n) = Some (sanitize_id call_id +:+ "-" +:+ print_uint ms, print_uint n).
Proof.
  unfold next_recording_id. rewrite <- !str_app_assoc, (str_app_assoc _ "-" (print_uint n)). apply rsplit_once_last.
  apply digits_no_char; [done | apply print_uint_digits].
Qed.
Lemma digits_safe s : all_chars is_ascii_digit s = true -> all_chars safe_char s = true.
Proof.
  induction s as [|c s IH]; [done|]. cbn [all_chars]. intros [Hc Hs]%andb_true_iff. rewrite IH by done.
  unfold safe_char, is_alphanumeric. by rewrite Hc.
Qed.
Lemma recording_id_safe call_id ms n : sanitize_id (next_recording_id call_id ms n) = next_recording_id call_id ms n.
Proof.
  pose proof (recording_id_last call_id ms n) as Hl. apply sanitize_plain; [|by intros He; rewrite He in Hl..].
  unfold next_recording_id. by rewrite !all_chars_app, sanitize_safe, !(digits_safe (print_uint _)) by apply print_uint_digits.
Qed.
Lemma recording_ids_differ call_id ms n call_id' ms' n' : uN 64 n -> uN 64 n' ->
  next_recording_id call_id ms n = next_recording_id call_id' ms' n' -> n = n'.
Proof.
  intros Hn Hn' H. pose proof (recording_id_last call_id ms n) as Hl. rewrite H, recording_id_last in Hl. injection Hl as _ Hp.
  pose proof (parse_print_uint 64 n ltac:(lia) Hn) as Hr. rewrite <- Hp, parse_print_uint in Hr by done. by injection Hr.
Qed.
Lemma named_differ i t j t' a b : id_ok i t -> id_ok j t' -> i <> j -> Z.of_nat i < 2 ^ 64 -> Z.of_nat j < 2 ^ 64 -> no_char "." a = true -> no_char "." b = true ->
  named (rf_recording_id (rt_file t)) a <> named (rf_recording_id (rt_file t')) b.
Proof.
  intros (c & ms & Hi) (c' & ms' & Hj) Hne Hbi Hbj Ha Hb He. unfold named in He. rewrite Hi, Hj, !recording_id_safe in He. cbn [String.append] in He.
  pose proof (rsplit_once_last "." (next_recording_id c ms (Z.of_nat i)) a Ha) as H1. rewrite He, rsplit_once_last in H1 by done. injection H1 as H1 _.
  apply recording_ids_differ in H1; unfold uN in *; lia.
Qed.

Lemma taken_by_app i a b : taken_by i (a ++ b) = taken_by i a ++ taken_by i b.
Proof. apply omap_app. Qed.

Lemma store_other_file tr id meta w files name : (forall ext, no_char "." ext = true -> name <> named id ext) ->
  (store to_json tr id meta w None None files).2 !! name = files !! name.
Proof.
  intros Hne. unfold store. destruct (finalize w None None) as [ok w'].
  assert (forall ext (x : list Z) m, no_char "." ext = true -> <[named id ext := x]> m !! name = m !! name) as Hi by (intros; apply lookup_insert_ne; by intros <-; eapply Hne).
  destruct ok; cbn [snd]; rewrite ?Hi by done; [|done]. unfold run_transcription_hook.
  destruct tr as [tr|]; [destruct (tr _)|]; by rewrite !Hi.
Qed.

Lemma holds_other files files' meta h : (forall ext, no_char "." ext = true -> files' !! named (rf_recording_id meta) ext = files !! named (rf_recording_id meta) ext) ->
  holds files meta h -> holds files' meta h.
Proof. intros He (Hg & Hr & Hd). unfold holds, get. rewrite !He by done. done. Qed.

(** Other tasks go on as they are, whatever becomes of the files of one. *)
Lemma task_ok_other files files' l t : task_ok files l t ->
  (forall ext, no_char "." ext = true -> files' !! named (rf_recording_id (rt_file t)) ext = files !! named (rf_recording_id (rt_file t)) ext) -> task_ok files' l t.
Proof.
  intros (Hb & Hn & Hp) He. split; [done|]. split; [done|]. destruct (rt_phase t); try done.
  destruct Hp as (meta & h & Hr & Hid & Hl & Hh). exists meta, h. do 3 (split; [done|]). rewrite <- Hid in He. by eapply holds_other.
Qed.

Definition small (r : CallRecorder) : Prop := Z.of_nat (length (rec_tasks r)) + 1 < 2 ^ 64.

Lemma rec_ok_task os r r' os' i t t' : rec_ok os r -> small r -> rec_tasks r !! i = Some t ->
  rec_seq r' = rec_seq r -> rec_tasks r' = <[i := t']> (rec_tasks r) -> rt_file t' = rt_file t ->
  task_ok (rec_files r') (taken_by i (os ++ os')) t' -> (forall j, j <> i -> taken_by j os' = []) ->
  (forall name, (forall ext, no_char "." ext = true -> name <> named (rf_recording_id (rt_file t)) ext) -> rec_files r' !! name = rec_files r !! name) ->
  rec_ok (os ++ os') r'.
Proof.
  intros Hr Hsm Ht Hseq Hts Hfile Hok Hother Hfiles. pose proof (lookup_lt_Some _ _ _ Ht) as Hlt. split.
  - by rewrite Hseq, Hts, length_insert, (ro_seq _ _ Hr).
  - intros j u Hj. rewrite Hts in Hj. destruct (decide (j = i)) as [-> | Hne].
    + rewrite list_lookup_insert_eq in Hj by done. injection Hj as <-. split; [done|]. destruct (proj2 (ro_task _ _ Hr i t Ht)) as (c & ms & Hid).
      exists c, ms. by rewrite Hfile.
    + rewrite list_lookup_insert_ne in Hj by done. destruct (ro_task _ _ Hr j u Hj) as [Hu Hid]. split; [|done].
      rewrite taken_by_app, Hother, app_nil_r by done. eapply task_ok_other; [exact Hu|]. intros ext Hext. apply Hfiles. intros ext' Hext'.
      apply lookup_lt_Some in Hj. unfold small in Hsm. eapply named_differ; [exact Hid | exact (proj2 (ro_task _ _ Hr i t Ht)) | done | lia | lia | done..].
  - intros j Hj. rewrite Hts in Hj. apply lookup_ge_None in Hj. rewrite length_insert in Hj. rewrite taken_by_app, Hother, app_nil_r by lia.
    by apply (ro_none _ _ Hr), lookup_ge_None.
Qed.

(** Steps that touch no task but with a waiting one, and no file. *)
Lemma rec_ok_update os r i t t' : rec_ok os r -> small r -> rec_tasks r !! i = Some t -> rt_file t' = rt_file t ->
  task_ok (rec_files r) (taken_by i os) t' -> rec_ok os (rec_update r i t').
Proof.
  intros Hr Hsm Ht Hf Hok. rewrite <- (app_nil_r os). apply (rec_ok_task os r _ [] i t t'); try done. by rewrite app_nil_r.
Qed.

Lemma finish_ok os r i t : rec_ok os r -> small r -> rec_tasks r !! i = Some t -> rt_phase t = RecWaiting ->
  rec_ok os (rec_finish to_json transcriber r i t None None).
Proof.
  intros Hr Hsm Ht Hp. destruct (ro_task _ _ Hr i t Ht) as [(Hb & Hn & Hph) _]. rewrite Hp in Hph. destruct Hph as (h & Hl & Hw & Hs).
  unfold rec_finish. set (meta := mkRecording _ _ _ _ _). set (id := rf_recording_id (rt_file t)).
  assert (Forall (fun p => bytes_ok (payload p)) h /\ 36 + 2 * Z.of_nat (length (voice h)) < 2 ^ 32) as [Hbh Hnh].
  { rewrite Hl in Hb, Hn. apply Forall_app in Hb as [Hb _]. rewrite voice_app, length_app in Hn. split; [done | lia]. }
  pose proof (store_get to_json from_json transcriber id meta (rt_writer t) (voice h) (rec_files r) json_roundtrip Hw (voice_i16 h Hbh) Hnh) as Hst.
  pose proof (store_other_file transcriber id meta (rt_writer t) (rec_files r)) as Hoth.
  destruct (store _ _ _ _ _ _ _ _) as [result files]. destruct Hst as (-> & Hg & Hrd). cbn [snd] in Hoth.
  rewrite <- (app_nil_r os). apply (rec_ok_task os r _ [] i t (set_rec_phase t (RecDone (Some meta)))); try done.
  rewrite app_nil_r. split; [done|]. split; [done|]. exists meta, h. do 3 (split; [done|]). split; [done|]. split; [done|].
  unfold meta. cbn [rf_duration_ms]. rewrite Hs. unfold duration_of, wrapping_mul. rewrite wrap_small; [done | unfold uN; lia].
Qed.

Lemma voice_one p : voice [p] = map decode_ulaw (default [] (pcmu_of p)).
Proof. unfold voice. cbn. destruct (pcmu_of p); cbn; [by rewrite app_nil_r | done]. Qed.

Lemma take_ok os r i t : rec_ok os r -> small r -> rec_tasks r !! i = Some t -> rt_phase t = RecWaiting -> rec_ok os (rec_take r i t).
Proof.
  intros Hr Hsm Ht Hp. unfold rec_take. destruct (ro_task _ _ Hr i t Ht) as [(Hb & Hn & Hph) _]. rewrite Hp in Hph. destruct Hph as (h & Hl & Hw & Hs).
  destruct (rt_queue t) as [|p queue]; [done|]. apply (rec_ok_update os r i t); [done.. | by destruct (pcmu_of p) | ].
  pose proof (voice_one p) as Hv. destruct (pcmu_of p) as [bytes|]; (split; [done|]; split; [done|]); cbn [set_rec_phase rt_phase rt_queue rt_writer rt_samples].
  - exists h, p. by rewrite Hv.
  - rewrite Hp. exists (h ++ [p]). rewrite <- app_assoc, voice_app, Hv, app_nil_r. done.
Qed.

Lemma wrote_ok os r i t pcm : rec_ok os r -> small r -> rec_tasks r !! i = Some t -> rt_phase t = RecWriting pcm ->
  rec_ok os (rec_wrote to_json transcriber r i t pcm None None None).
Proof.
  intros Hr Hsm Ht Hp. destruct (ro_task _ _ Hr i t Ht) as [(Hb & Hn & Hph) _]. rewrite Hp in Hph. destruct Hph as (h & p & Hl & Hpcm & Hw & Hs).
  assert (2 * Z.of_nat (length (voice h ++ pcm)) < 2 ^ 32) as Hlen.
  { rewrite Hl, voice_app in Hn. change (p :: rt_queue t) with ([p] ++ rt_queue t) in Hn. rewrite voice_app, !length_app in Hn. rewrite Hpcm, length_app. lia. }
  destruct (recording_write (rt_writer t) (voice h) pcm Hw Hlen) as [Hok Hw']. unfold rec_wrote. destruct (write_samples _ _ _) as [ok w']. cbn [fst snd] in *. subst ok.
  apply (rec_ok_update os r i t); [done..|]. split; [done|]. split; [done|]. cbn [rt_phase rt_queue rt_writer rt_samples].
  exists (h ++ [p]). rewrite <- app_assoc, voice_app, <- Hpcm, length_app. split; [done|]. split; [done | lia].
Qed.

Lemma start_ok os r call_id remote_number now_ms : rec_ok os r -> small r ->
  let '(o, r') := rec_start r call_id remote_number now_ms None in rec_ok (os ++ o) r' /\ (length (rec_tasks r') <= S (length (rec_tasks r)))%nat.
Proof.
  intros Hr Hsm. unfold rec_start. destruct (rec_active r !! call_id) as [i|].
  { split; [|lia]. split; [apply Hr | intros j t Hj; rewrite taken_by_app, app_nil_r; by apply Hr | intros j Hj; rewrite taken_by_app, app_nil_r; by apply Hr]. }
  pose proof recording_new as [Hok Hw]. destruct (wav_create None) as [ok w]. cbn [fst snd] in *. subst ok. cbn [negb]. split; [|cbn; rewrite length_app; cbn; lia].
  assert (forall j, taken_by j (os ++ [RecStarted (length (rec_tasks r)) (next_recording_id call_id now_ms (rec_seq r))]) = taken_by j os) as Hsame
    by (intros; by rewrite taken_by_app, app_nil_r).
  split; cbn [rec_tasks rec_seq rec_files].
  - rewrite (ro_seq _ _ Hr), length_app. unfold wrapping_add. rewrite wrap_small by (unfold uN; unfold small in Hsm; lia). cbn [length]. lia.
  - intros j t Hj. rewrite Hsame. apply lookup_app_Some in Hj as [Hj | [Hge Hj]]; [by apply Hr|].
    apply list_lookup_singleton_Some in Hj as [Hj <-]. assert (j = length (rec_tasks r)) as -> by lia. split.
    + rewrite (ro_none _ _ Hr) by (apply lookup_ge_None; lia). split; [constructor|]. split; [done|]. by exists [].
    + exists call_id, now_ms. cbn. by rewrite (ro_seq _ _ Hr).
  - intros j Hj. rewrite Hsame. apply (ro_none _ _ Hr), lookup_ge_None. apply lookup_ge_None in Hj. rewrite length_app in Hj. lia.
Qed.

Lemma alter_insert {A} (f : A -> A) (l : list A) : forall (i : nat) x, l !! i = Some x -> alter f i l = <[i := f x]> l.
Proof. induction l as [|y l IH]; intros [|i] x H; cbn in *; [done.. | by injection H as -> |]. f_equal. by apply IH. Qed.
Lemma alter_none {A} (f : A -> A) (l : list A) : forall (i : nat), l !! i = None -> alter f i l = l.
Proof. induction l as [|y l IH]; intros [|i] H; cbn in *; [done..|]. f_equal. by apply IH. Qed.

Lemma stop_ok os r call_id : rec_ok os r -> small r ->
  let '(o, r') := rec_stop r call_id in rec_ok (os ++ o) r' /\ length (rec_tasks r') = length (rec_tasks r).
Proof.
  intros Hr Hsm. unfold rec_stop.
  assert (forall o r', (forall j, taken_by j o = []) -> rec_seq r' = rec_seq r -> rec_tasks r' = rec_tasks r -> rec_files r' = rec_files r -> rec_ok (os ++ o) r') as Hsame.
  { intros o r' Ho Hs Ht Hf. split; [by rewrite Hs, Ht, (ro_seq _ _ Hr)| |]; intros j; [intros t|]; intros Hj; rewrite taken_by_app, Ho, app_nil_r; rewrite Ht in Hj; [rewrite Hf|]; by apply Hr. }
  destruct (rec_active r !! call_id) as [i|]; [|split; [by apply Hsame | done]]. cbn [rec_tasks]. rewrite length_alter. split; [|done].
  destruct (rec_tasks r !! i) as [t|] eqn:Ht.
  - match goal with |- context [alter ?f i _] => apply (rec_ok_task os r _ _ i t (f t)) end; try done.
    + cbn [rec_tasks]. by rewrite (alter_insert _ _ _ t Ht).
    + rewrite taken_by_app, app_nil_r. exact (proj1 (ro_task _ _ Hr i t Ht)).
  - apply Hsame; [done | done | | done]. cbn [rec_tasks]. by apply alter_none.
Qed.

Lemma finish_length r i t io1 io2 : length (rec_tasks (rec_finish to_json transcriber r i t io1 io2)) = length (rec_tasks r).
Proof. unfold rec_finish. destruct (store _ _ _ _ _ _ _ _). apply length_insert. Qed.
Lemma rec_ok_quiet os r o : rec_ok os r -> (forall j, taken_by j o = []) -> rec_ok (os ++ o) r.
Proof. intros Hr Ho. split; [apply Hr | intros j t Hj | intros j Hj]; rewrite taken_by_app, Ho, app_nil_r; by apply Hr. Qed.

Lemma task_took files l t p : task_ok files l t -> (match rt_phase t with RecDone _ => False | _ => True end) -> bytes_ok (payload p) ->
  36 + 2 * Z.of_nat (length (voice (l ++ [p]))) < 2 ^ 32 ->
  task_ok files (l ++ [p]) (mkRecTask (rt_file t) (rt_writer t) (rt_samples t) (rt_queue t ++ [p]) (rt_open t) (rt_notified t) (rt_phase t)).
Proof.
  intros (Hb & _ & Hp) Hph Hbp Hn. split; [apply Forall_app; split; [done | by repeat constructor]|]. split; [done|]. cbn [rt_phase rt_queue rt_writer rt_samples].
  destruct (rt_phase t); [| |done].
  - destruct Hp as (h & -> & Hw & Hs). exists h. by rewrite <- app_assoc.
  - destruct Hp as (h & q & -> & Hpcm & Hw & Hs). exists h, q. by rewrite <- app_assoc.
Qed.

Lemma feed_ok os r call_id p : rec_ok os r -> small r -> bytes_ok (payload p) ->
  (forall i, 36 + 2 * Z.of_nat (length (voice (taken_by i os ++ [p]))) < 2 ^ 32) ->
  let '(o, r') := rec_feed r call_id p in
  rec_ok (os ++ o) r' /\ length (rec_tasks r') = length (rec_tasks r) /\ forall i, (length (voice (taken_by i o)) <= length (voice [p]))%nat.
Proof.
  intros Hr Hsm Hbp Hn. unfold rec_feed.
  assert (forall o, (forall j, taken_by j o = []) -> rec_ok (os ++ o) r /\ length (rec_tasks r) = length (rec_tasks r) /\
    forall i, (length (voice (taken_by i o)) <= length (voice [p]))%nat) as Hquiet.
  { intros o Ho. split; [by apply rec_ok_quiet|]. split; [done|]. intros i. rewrite Ho. cbn. lia. }
  destruct (rec_active r !! call_id) as [i|]; [|by apply Hquiet]. destruct (rec_tasks r !! i) as [t|] eqn:Ht; [|by apply Hquiet].
  assert (forall j, taken_by j [RecTook i p] = if (j =? i)%nat then [p] else []) as Htook by (intros j; cbn; by destruct (_ =? _)%nat).
  destruct (rt_phase t) eqn:Hp; [| |by apply Hquiet]; (destruct (length (rt_queue t) <? CHANNEL)%nat; [|by apply Hquiet]).
  all: split; [|split; [apply length_insert | intros j; rewrite Htook; destruct (j =? i)%nat; cbn; lia]].
  all: rewrite <- Hp; match goal with |- rec_ok _ (rec_update _ _ ?t') => apply (rec_ok_task os r _ _ i t t' Hr Hsm Ht) end; try done.
  1, 3: rewrite taken_by_app, Htook, Nat.eqb_refl; apply task_took; [exact (proj1 (ro_task _ _ Hr i t Ht)) | by rewrite Hp | done | apply Hn].
  all: intros j Hj; rewrite Htook; by rewrite (proj2 (Nat.eqb_neq j i) Hj).
Qed.

(** Every step keeps the invariant. *)
Lemma step_ok os r ev : rec_ok os r -> small r -> rec_event_ok ev ->
  (forall i, 36 + 2 * Z.of_nat (length (voice (taken_by i os)) + length (voice (fed [ev]))) < 2 ^ 32) ->
  let '(o, r') := rec_step to_json transcriber r ev in
  rec_ok (os ++ o) r' /\ (length (rec_tasks r') <= length (rec_tasks r) + started [ev])%nat /\
  forall i, (length (voice (taken_by i o)) <= length (voice (fed [ev])))%nat.
Proof.
  intros Hr Hsm Hev Hn.
  assert (forall r', rec_ok os r' -> (length (rec_tasks r') = length (rec_tasks r)) -> rec_ok (os ++ []) r' /\
    (length (rec_tasks r') <= length (rec_tasks r) + started [ev])%nat /\ forall i, (length (voice (taken_by i [])) <= length (voice (fed [ev])))%nat) as Hsilent.
  { intros r' Hr' Hl. rewrite app_nil_r, Hl. split; [done|]. split; [lia|]. cbn. lia. }
  destruct ev as [c n ms io | c | c p | i | i io io1 io2 | i io1 io2 | i io1 io2 | i io1 io2]; cbn [rec_step].
  - cbn in Hev. subst io. pose proof (start_ok os r c n ms Hr Hsm) as H. destruct (rec_start r c n ms None) as [o r'] eqn:Hs. destruct H as [H Hl].
    split; [done|]. split; [cbn; lia|]. intros j. unfold rec_start in Hs. destruct (rec_active r !! c); [injection Hs as <- _; cbn; lia|].
    destruct (wav_create None) as [[|] w]; injection Hs as <- _; cbn; lia.
  - pose proof (stop_ok os r c Hr Hsm) as H. destruct (rec_stop r c) as [o r'] eqn:Hs. destruct H as [H Hl]. split; [done|]. split; [cbn; lia|].
    intros j. unfold rec_stop in Hs. destruct (rec_active r !! c); injection Hs as <- _; cbn; lia.
  - pose proof (feed_ok os r c p Hr Hsm Hev) as H. destruct (rec_feed r c p) as [o r']. destruct H as (H & Hl & Hv).
    { intros j. specialize (Hn j). rewrite voice_app, length_app. cbn [fed omap list_omap] in Hn. cbn in Hn |- *. lia. }
    split; [done|]. split; [cbn; lia | exact Hv].
  - destruct (rec_tasks r !! i) as [t|] eqn:Ht; [|by apply Hsilent]. destruct (rt_phase t) eqn:Hp; [|by apply Hsilent..].
    apply Hsilent; [by apply take_ok|]. unfold rec_take. destruct (rt_queue t); [done | apply length_insert].
  - destruct Hev as (-> & -> & ->). destruct (rec_tasks r !! i) as [t|] eqn:Ht; [|by apply Hsilent]. destruct (rt_phase t) eqn:Hp; [by apply Hsilent| |by apply Hsilent].
    apply Hsilent; [by apply wrote_ok|]. unfold rec_wrote, rec_finish. destruct (write_samples _ _ _) as [[|] w]; [apply length_insert|].
    destruct (store _ _ _ _ _ _ _ _). apply length_insert.
  - destruct Hev as (-> & ->). destruct (rec_tasks r !! i) as [t|] eqn:Ht; [|by apply Hsilent]. destruct (rt_phase t) eqn:Hp; [|by apply Hsilent..].
    destruct (rt_notified t); [|by apply Hsilent]. apply Hsilent; [by apply finish_ok | apply finish_length].
  - destruct Hev as (-> & ->). destruct (rec_tasks r !! i) as [t|] eqn:Ht; [|by apply Hsilent]. destruct (rt_phase t) eqn:Hp; [|by apply Hsilent..].
    apply Hsilent; [by apply finish_ok | apply finish_length].
  - destruct Hev as (-> & ->). destruct (rec_tasks r !! i) as [t|] eqn:Ht; [|by apply Hsilent]. destruct (rt_phase t) eqn:Hp; [|by apply Hsilent..].
    destruct (rt_queue t); [|by apply Hsilent]. destruct (rt_open t); [by apply Hsilent|]. apply Hsilent; [by apply finish_ok | apply finish_length].
Qed.

Lemma run_ok evs : forall os r, rec_ok os r -> Forall rec_event_ok evs ->
  Z.of_nat (length (rec_tasks r) + started evs) + 1 < 2 ^ 64 ->
  (forall i, 36 + 2 * Z.of_nat (length (voice (taken_by i os)) + length (voice (fed evs))) < 2 ^ 32) ->
  let '(o, r') := rec_run to_json transcriber r evs in rec_ok (os ++ o) r'.
Proof.
  induction evs as [|ev evs IH]; intros os r Hr Hev Hst Hn; [cbn; by rewrite app_nil_r|].
  apply Forall_cons in Hev as [Hev Hevs]. cbn [rec_run].
  assert (started (ev :: evs) = started [ev] + started evs)%nat as Hs by (unfold started; cbn; by destruct ev).
  assert (fed (ev :: evs) = fed [ev] ++ fed evs) as Hf by (unfold fed; cbn; by destruct ev). rewrite Hs in Hst. rewrite Hf, voice_app, length_app in Hn.
  pose proof (step_ok os r ev Hr) as H. destruct (rec_step to_json transcriber r ev) as [o r1].
  destruct H as (Hr1 & Hl & Hv); [unfold small; lia | done | intros i; specialize (Hn i); lia|].
  specialize (IH (os ++ o) r1 Hr1 Hevs). destruct (rec_run to_json transcriber r1 evs) as [os' r']. rewrite app_assoc. apply IH; [lia|].
  intros i. rewrite taken_by_app, voice_app, length_app. specialize (Hn i). specialize (Hv i). lia.
Qed.
Lemma step_small r ev : (length (rec_tasks (rec_step to_json transcriber r ev).2) <= length (rec_tasks r) + started [ev])%nat.
Proof.
  destruct ev; cbn [rec_step]; unfold rec_start, rec_stop, rec_feed, rec_take, rec_wrote, rec_finish, rec_update; repeat case_match;
    cbn; rewrite ?length_app, ?length_insert, ?length_alter; cbn; lia.
Qed.
Lemma rec_run_small evs : forall r, (length (rec_tasks (rec_run to_json transcriber r evs).2) <= length (rec_tasks r) + started evs)%nat.
Proof.
  induction evs as [|ev evs IH]; intros r; cbn [rec_run]; [cbn; lia|]. pose proof (step_small r ev) as Hs.
  destruct (rec_step _ _ r ev) as [o r1]. specialize (IH r1). destruct (rec_run _ _ r1 evs) as [os r']. cbn [snd] in *.
  unfold started in *. cbn in *. destruct ev; cbn in *; lia.
Qed.
Lemma recorder_new_ok : rec_ok [] recorder_new.
Proof. split; [done | intros i t Hi; by destruct i | done]. Qed.

(** *** The task of a recording that is left to run *)

(** The packet at hand is written, and then [n] of the queue are. *)
Definition drain (i n : nat) : list RecEvent := RecWrote i None None None :: concat (replicate n [RecTake i; RecWrote i None None None]).
(** What ends the loop of a task whose queue is empty. *)
Definition ends (i : nat) (t : RecTask) (ev : RecEvent) : Prop :=
  ev = RecExpired i None None \/ (ev = RecStopped i None None /\ rt_notified t = true) \/ (ev = RecHungUp i None None /\ rt_open t = false).

(** A waiting task, with the invariant. *)
Record waits (os : list RecOutput) (r : CallRecorder) (i : nat) (t : RecTask) : Prop := {
  wa_ok : rec_ok os r; wa_small : small r; wa_task : rec_tasks r !! i = Some t; wa_phase : rt_phase t = RecWaiting }.
Definition same_task (t t' : RecTask) : Prop := rt_file t' = rt_file t /\ rt_open t' = rt_open t /\ rt_notified t' = rt_notified t.

Lemma update_waits os r i t t' : rec_ok os (rec_update r i t') -> small r -> rec_tasks r !! i = Some t -> rt_phase t' = RecWaiting -> waits os (rec_update r i t') i t'.
Proof.
  intros Hr Hsm Ht Hp. split; [done | | | done].
  - unfold small in *. cbn. by rewrite length_insert.
  - cbn. apply list_lookup_insert_eq. by eapply lookup_lt_Some.
Qed.
Lemma wrote_waits os r i t : rec_ok os r -> small r -> rec_tasks r !! i = Some t -> match rt_phase t with RecDone _ => False | _ => True end ->
  exists r' t', rec_step to_json transcriber r (RecWrote i None None None) = ([], r') /\ waits os r' i t' /\ rt_queue t' = rt_queue t /\ same_task t t'.
Proof.
  intros Hr Hsm Ht Hp. cbn [rec_step]. rewrite Ht. destruct (rt_phase t) as [|pcm|] eqn:Hph; [by exists r, t | | done].
  pose proof (wrote_ok os r i t pcm Hr Hsm Ht Hph) as Hok. destruct (ro_task _ _ Hr i t Ht) as [(Hb & Hn & Hq) _]. rewrite Hph in Hq.
  destruct Hq as (h & p & Hl & Hpcm & Hw & _). unfold rec_wrote in *.
  assert (2 * Z.of_nat (length (voice h ++ pcm)) < 2 ^ 32) as Hlen.
  { rewrite Hl, voice_app in Hn. change (p :: rt_queue t) with ([p] ++ rt_queue t) in Hn. rewrite voice_app, !length_app in Hn. rewrite Hpcm, length_app. lia. }
  destruct (recording_write (rt_writer t) (voice h) pcm Hw Hlen) as [Hwok _]. destruct (write_samples _ _ _) as [ok w']. cbn [fst] in Hwok. subst ok.
  do 2 eexists. split; [done|]. split; [by eapply update_waits | done].
Qed.
Lemma take_waits os r i t p q : waits os r i t -> rt_queue t = p :: q ->
  exists r' t', rec_run to_json transcriber r [RecTake i; RecWrote i None None None] = ([], r') /\ waits os r' i t' /\ rt_queue t' = q /\ same_task t t'.
Proof.
  intros [Hr Hsm Ht Hp] Hq. cbn [rec_run]. pose proof (take_ok os r i t Hr Hsm Ht Hp) as Hok. unfold rec_take in Hok. rewrite Hq in Hok.
  cbn [rec_step]. rewrite Ht, Hp. unfold rec_take. rewrite Hq. cbv zeta. pose proof (lookup_lt_Some _ _ _ Ht) as Hlt.
  match type of Hok with rec_ok _ (rec_update _ _ ?u) => destruct (wrote_waits os (rec_update r i u) i u) as (r' & t' & Hs & Hw & Hq' & Hsame) end.
  - done.
  - unfold small in *. cbn. by rewrite length_insert.
  - cbn. by apply list_lookup_insert_eq.
  - destruct (pcmu_of p); cbn; [done | by rewrite Hp].
  - cbn [rec_step] in Hs. rewrite Hs. exists r', t'. split; [done|]. split; [done|]. unfold same_task in *. by destruct (pcmu_of p).
Qed.
Lemma run_app r evs evs' : rec_run to_json transcriber r (evs ++ evs') =
  let '(o, r1) := rec_run to_json transcriber r evs in let '(o', r2) := rec_run to_json transcriber r1 evs' in (o ++ o', r2).
Proof.
  revert r. induction evs as [|ev evs IH]; intros r; cbn [app rec_run]; [by destruct (rec_run _ _ r evs')|].
  destruct (rec_step _ _ r ev) as [o r1]. rewrite IH. destruct (rec_run _ _ r1 evs) as [o1 r2]. destruct (rec_run _ _ r2 evs') as [o2 r3]. by rewrite app_assoc.
Qed.
Lemma drain_waits os i : forall q r t, waits os r i t -> rt_queue t = q ->
  exists r' t', rec_run to_json transcriber r (concat (replicate (length q) [RecTake i; RecWrote i None None None])) = ([], r') /\ waits os r' i t' /\ rt_queue t' = [] /\ same_task t t'.
Proof.
  induction q as [|p q IH]; intros r t Hw Hq; [by exists r, t|]. destruct (take_waits os r i t p q Hw Hq) as (r1 & t1 & H1 & Hw1 & Hq1 & Hs1).
  destruct (IH r1 t1 Hw1 Hq1) as (r' & t' & H2 & Hw' & Hq' & Hs'). exists r', t'. cbn [length replicate concat]. rewrite run_app, H1, H2.
  split; [done|]. split; [done|]. split; [done|]. unfold same_task in *. by destruct Hs1 as (-> & -> & ->) in Hs'.
Qed.

(** Left to run and then ended, the task has written every packet it was given. *)
Lemma drained_holds os r i t ev : rec_ok os r -> small r -> rec_tasks r !! i = Some t -> match rt_phase t with RecDone _ => False | _ => True end -> ends i t ev ->
  exists r' meta, rec_run to_json transcriber r (drain i (length (rt_queue t)) ++ [ev]) = ([], r') /\
    rf_recording_id meta = rf_recording_id (rt_file t) /\ holds (rec_files r') meta (taken_by i os).
Proof.
  intros Hr Hsm Ht Hp He. destruct (wrote_waits os r i t Hr Hsm Ht Hp) as (r1 & t1 & H1 & Hw1 & Hq1 & Hs1).
  destruct (drain_waits os i (rt_queue t) r1 t1 Hw1 Hq1) as (r2 & t2 & H2 & [Hr2 Hsm2 Ht2 Hp2] & Hq2 & Hs2).
  assert (rec_step to_json transcriber r2 ev = ([], rec_finish to_json transcriber r2 i t2 None None)) as Hstep.
  { destruct Hs1 as (_ & Ho1 & Hn1), Hs2 as (_ & Ho2 & Hn2). destruct He as [-> | [[-> Hn] | [-> Ho]]]; cbn [rec_step]; rewrite Ht2, Hp2; [done | |].
    - by rewrite Hn2, Hn1, Hn.
    - by rewrite Hq2, Ho2, Ho1, Ho. }
  pose proof (finish_ok os r2 i t2 Hr2 Hsm2 Ht2 Hp2) as Hok. unfold drain. cbn [app rec_run]. rewrite H1, run_app, H2. cbn [rec_run]. rewrite Hstep.
  unfold rec_finish in *. destruct (store _ _ _ _ _ _ _ _) as [result files]. eexists.
  destruct (ro_task _ _ Hok i (set_rec_phase t2 (RecDone result))) as [(_ & _ & Hd) _]; [cbn; apply list_lookup_insert_eq; by eapply lookup_lt_Some|].
  cbn [set_rec_phase rt_phase rt_file rt_queue rec_files] in Hd. destruct Hd as (meta & h & _ & Hid & Hl & Hh). rewrite Hq2, app_nil_r in Hl. subst h.
  exists meta. split; [done|]. split; [|exact Hh]. destruct Hs1 as (Hf1 & _), Hs2 as (Hf2 & _). by rewrite Hid, Hf2, Hf1.
Qed.

(** Whatever the order in which recordings are started and stopped, packets come
    and their tasks go on, a recording that ended well stays readable under its id:
    its file holds the decoded voice of the packets that were taken for it, and of no
    other call, but for those still in the queue when it ended; its duration is that
    of the voice, and no later recording overwrites it. *)
Theorem recordings_kept (evs : list RecEvent) (i : nat) (t : RecTask) (result : option RecordingFile)
    (Hev : Forall rec_event_ok evs) (Hst : Z.of_nat (started evs) + 1 < 2 ^ 64) (Hn : 36 + 2 * Z.of_nat (length (voice (fed evs))) < 2 ^ 32) :
  let '(os, r) := rec_run to_json transcriber recorder_new evs in
  rec_tasks r !! i = Some t -> rt_phase t = RecDone result ->
  exists meta h, result = Some meta /\ taken_by i os = h ++ rt_queue t /\ rf_recording_id meta = rf_recording_id (rt_file t) /\
    get from_json (rec_files r) (rf_recording_id meta) = Ok (Some (meta, named (rf_recording_id meta) EXT_WAV)) /\
    (f ← rec_files r !! named (rf_recording_id meta) EXT_WAV; read_wav f) = Some (voice h) /\
    rf_duration_ms meta = Z.of_nat (length (voice h)) * 1000 / SAMPLE_RATE.
Proof.
  pose proof (run_ok evs [] recorder_new recorder_new_ok Hev Hst (fun _ => Hn)) as H. destruct (rec_run _ _ _ _) as [os r]. intros Ht Hp.
  destruct (ro_task _ _ H i t Ht) as [(_ & _ & Hph) _]. rewrite Hp in Hph. destruct Hph as (meta & h & Hr & Hid & Hl & Hg & Hw & Hd).
  by exists meta, h.
Qed.
End kept.

(** ** Examples *)

Section example.

(** Some codec for the metadata. *)
Definition rec_key (m : RecordingFile) : string * string * string * Z * Z := (rf_recording_id m, rf_call_id m, rf_remote_number m, rf_started_at m, rf_duration_ms m).
Definition rec_encode (m : RecordingFile) : list Z := [Z.pos (encode (rec_key m))].
Definition rec_decode (l : list Z) : option RecordingFile :=
  match l with [Z.pos p] => '(a, b, c, d, e) ← decode p; Some (mkRecording a b c d e) | _ => None end.
Definition vm_key (m : VoicemailFile) : string * string * Z * Z := (vf_call_id m, vf_remote_number m, vf_recorded_at m, vf_duration_ms m).
Definition vm_encode (m : VoicemailFile) : list Z := [Z.pos (encode (vm_key m))].
Definition vm_decode (l : list Z) : option VoicemailFile :=
  match l with [Z.pos p] => '(a, b, c, d) ← decode p; Some (mkVoicemail a b c d) | _ => None end.
Lemma rec_codec m : rec_decode (rec_encode m) = Some m.
Proof. unfold rec_decode, rec_encode. rewrite decode_encode. by destruct m. Qed.
Lemma vm_codec m : vm_decode (vm_encode m) = Some m.
Proof. unfold vm_decode, vm_encode. rewrite decode_encode. by destruct m. Qed.

Definition pcmu_datagram (seq : Z) (voice : list Z) : list Z := [0x80; 0; 0; seq; 0; 0; 0; 0; 0; 0; 0; 1] ++ voice.
Definition pcma_datagram : list Z := [0x80; 8; 0; 9; 0; 0; 0; 0; 0; 0; 0; 1; 0x55].

(** A message of two packets, with one of another codec and one stop between them. *)
Lemma voicemail_keeps_message_witness :
  let l := [(pcmu_datagram 1 [0xFF; 0x80], 0%nat); (pcma_datagram, 0%nat); (pcmu_datagram 2 [0x00], 1%nat)] in
  spoken (map fst l) = [0; 32124; -32124] /\
  exists files', run_recording_loop vm_encode None "a" "b" 7 (map (fun p => VmDatagram p.1 None p.2) l ++ [VmStop]) None None None ∅ =
    Some (Some (mkVoicemail "a" "b" 7 0), files') /\
  get vm_decode files' "a" = Ok (Some (mkVoicemail "a" "b" 7 0, "a.wav")) /\
  (f ← files' !! "a.wav"; read_wav f) = Some (spoken (map fst l)).
Proof.
  intros l. split; [vm_compute; reflexivity|].
  apply (voicemail_keeps_message vm_encode vm_decode None vm_codec "a" "b" 7 l VmStop [] ∅); [|done | vm_compute; reflexivity].
  repeat constructor; done.
Defined.

Definition pcmu_packet (seq : Z) (voice : list Z) : RtpPacket := default (mkRtp 0 false 0 0 0 []) (match from_bytes (pcmu_datagram seq voice) with Ok p => Some p | _ => None end).

(** Two recordings at once; the second is told to stop with a packet in its queue. *)
Definition recorder_evs : list RecEvent :=
  [RecStart "a" "x" 5 None; RecStart "b" "y" 5 None; RecFeed "a" (pcmu_packet 1 [0xFF; 0x80]); RecFeed "b" (pcmu_packet 1 [0x00]);
   RecTake 0; RecWrote 0 None None None; RecTake 1; RecWrote 1 None None None; RecFeed "b" (pcmu_packet 2 [0xFF]); RecStop "b"; RecStopped 1 None None;
   RecExpired 0 None None; RecFeed "a" (pcmu_packet 2 [0x80])].
Definition recorder_end : list RecOutput * CallRecorder := rec_run rec_encode None recorder_new recorder_evs.

Lemma recordings_kept_witness :
  match rec_tasks recorder_end.2 !! 1%nat with
  | Some t => map sequence (rt_queue t) = [2] /\
      exists meta h, Some (mkRecording "b-5-1" "b" "y" 5 0) = Some meta /\ taken_by 1 recorder_end.1 = h ++ rt_queue t /\ rf_recording_id meta = rf_recording_id (rt_file t) /\
        get rec_decode (rec_files recorder_end.2) (rf_recording_id meta) = Ok (Some (meta, named (rf_recording_id meta) EXT_WAV)) /\
        (f ← rec_files recorder_end.2 !! named (rf_recording_id meta) EXT_WAV; read_wav f) = Some (voice h) /\
        rf_duration_ms meta = Z.of_nat (length (voice h)) * 1000 / SAMPLE_RATE
  | None => False
  end.
Proof.
  destruct (rec_tasks recorder_end.2 !! 1%nat) as [t|] eqn:Ht; [|vm_compute in Ht; discriminate].
  assert (rt_phase t = RecDone (Some (mkRecording "b-5-1" "b" "y" 5 0)) /\ map sequence (rt_queue t) = [2]) as [Hp Hq].
  { revert Ht. vm_compute. intros [= <-]. done. }
  split; [done|]. unfold recorder_end in *.
  assert (Forall rec_event_ok recorder_evs) as Hev by (repeat constructor; done).
  pose proof (recordings_kept rec_encode rec_decode None rec_codec recorder_evs 1 t (Some (mkRecording "b-5-1" "b" "y" 5 0)) Hev
    ltac:(vm_compute; reflexivity) ltac:(vm_compute; reflexivity)) as H.
  destruct (rec_run rec_encode None recorder_new recorder_evs) as [os r]. exact (H Ht Hp).
Defined.

(** A recording that reached its longest duration stays the recording of its call: a
    second one is refused until somebody stops the first. *)
Lemma expired_recording_blocks :
  (rec_step rec_encode None recorder_end.2 (RecStart "a" "x" 6 None)).1 = [RecRefused (AlreadyRecording "a")].
Proof. vm_compute. reflexivity. Qed.

(** A stop that comes while a datagram is written is not heard: the message goes on
    with the packets that come after it. *)
Lemma stop_while_writing_is_lost :
  match wav_create None with
  | (_, w) => (recording_loop w 0 [VmDatagram (pcmu_datagram 1 [0xFF]) None 1; VmDatagram (pcmu_datagram 2 [0xFF]) None 0]).1 .1 = false
  end.
Proof. vm_compute. reflexivity. Qed.
End example.
