(* ===== verification/BrowserCalls.v ===== *)
(** Calls a browser places to the NGN (UasEventHandler of
    src/src/call/orchestrator.rs, from handle_pwa_outbound_offer_impl on), its
    holds and its short messages.

    The offer of a browser is answered at once; the task it leaves behind calls
    the NGN, and may wait and call again. What the task does between two waits is
    a step here, and every other handler may run in between. A browser that goes
    away is handled in two steps: its calls leave the table, and then each is
    ended with a BYE. So is a hold: the entry is found, and then the lock of its
    dialog is taken. The entries are shared: a hold that waits keeps the entry of
    a call that has ended meanwhile. The BYE of the NGN is the part of
    [Inbound.handle_bye] that concerns these calls, with the dialogs that the
    table of [Inbound] leaves out.

    Of the texts of the errors for a browser only the numbers are kept. A call to
    an extension is passed on to the dispatch between extensions. *)
From S2P Require Import Prelude RustStr NetAddr SipMessage SipUtils Transaction Dialog TuProg Registrar MessageLog Uac.
From S2P Require Import Dtmf Sdp SdpRewrite RateLimiter CarrierRetry CallLog Observability Transcoder Bridge Calls Intercom SipFields Handler.

(** ** The state *)

Record WebBridge := mkWebBridge { wb_ngn_sock : SocketAddr; wb_ngn_peer : SocketAddr; wb_peer : Z; wb_opus_pt : Z }.

(** [WebRtcOutboundEntry]; the key in [entries] is the identity of the object. *)
Record WebOutEntry := mkWebOut {
  we_dialog : UacDialog; we_ws : Z; we_bridge_call_id : Z; we_last_ngn_offer_sdp : string; we_hold_state : bool }.

(** Where the task of a call waits. *)
Inductive WebPhase :=
  | WebInviting
  | WebRetryWait (response : SipResponse)
  | WebRetrying.
(** [wt_plan_call_id]: the Call-ID of the first INVITE, under which the call is logged. *)
Record WebTask := mkWebTask {
  wt_uri : string; wt_ws : Z; wt_peer : Z; wt_sock : SocketAddr; wt_sdp : string; wt_browser_answer : string;
  wt_rate_aor : string; wt_plan_call_id : string; wt_phase : WebPhase }.
Definition set_web_phase (t : WebTask) (ph : WebPhase) : WebTask :=
  mkWebTask (wt_uri t) (wt_ws t) (wt_peer t) (wt_sock t) (wt_sdp t) (wt_browser_answer t) (wt_rate_aor t) (wt_plan_call_id t) ph.

(** A hold that has found its entry. *)
Record HoldTask := mkHold { ho_call_id : string; ho_entry : nat; ho_hold : bool; ho_offer : string }.

Record WebState := mkWebState {
  webrtc_outbound_active : gmap string nat;
  entries : gmap nat WebOutEntry;
  limiter : rl_state;
  call_log : option CallLog;
  call_manager : option (CallManager WebBridge);
  metrics : Metrics;
  message_log : option MessageLog;
  web_tasks : gmap nat WebTask;
  next_web : nat;
  (* the calls of a browser that went away, out of the table; the holds that wait for a dialog *)
  web_closing : list (string * nat);
  holds : list HoldTask }.

(** [wc_intercom]: whether calls between extensions are enabled, if the service is there. *)
Record WebConfig := mkWebConfig {
  wc_uac : Uac; wc_limits : RateLimiterConfig; wc_bridge_ngn_bind_ip : option IpAddr; wc_intercom : option bool; wc_recording : bool }.

Inductive HoldError := UnknownCallId | Rejected (status : Z) | TransportFailed.
Inductive SmsSendOutcome := Sent (status : Z) | SmsRejected (status : Z).

Inductive WebOutput :=
  | WebInvite (id : nat) (plan : InvitePlan)
  | WebNgnSent (s : sent)
  (* a message that is pushed to the browser: an error with the numbers in its text, or a BYE *)
  | PushError (ws : Z) (code : string) (told : list Z)
  | PushBye (ws : Z)
  | WebLetGo (r : Release (B := WebBridge))
  | WebIntercom (ws : Z) (target : string) (binding : Binding) (callee : string)
  | WebStopRecording (call_id : string)
  | WebInjectDtmf (bridge event : Z)
  | HoldResult (call_id : string) (hold : bool) (result : Prelude.outcome HoldError unit).

Abbreviation handling := (handler WebState WebOutput).

Definition set_table (f : gmap string nat -> gmap string nat) (s : WebState) : WebState :=
  mkWebState (f (webrtc_outbound_active s)) (entries s) (limiter s) (call_log s) (call_manager s) (metrics s) (message_log s) (web_tasks s) (next_web s) (web_closing s) (holds s).
Definition set_entries (f : gmap nat WebOutEntry -> gmap nat WebOutEntry) (s : WebState) : WebState :=
  mkWebState (webrtc_outbound_active s) (f (entries s)) (limiter s) (call_log s) (call_manager s) (metrics s) (message_log s) (web_tasks s) (next_web s) (web_closing s) (holds s).
Definition set_limiter (f : rl_state -> rl_state) (s : WebState) : WebState :=
  mkWebState (webrtc_outbound_active s) (entries s) (f (limiter s)) (call_log s) (call_manager s) (metrics s) (message_log s) (web_tasks s) (next_web s) (web_closing s) (holds s).
Definition set_call_log (f : CallLog -> CallLog) (s : WebState) : WebState :=
  mkWebState (webrtc_outbound_active s) (entries s) (limiter s) (f <$> call_log s) (call_manager s) (metrics s) (message_log s) (web_tasks s) (next_web s) (web_closing s) (holds s).
Definition set_manager (m : CallManager WebBridge) (s : WebState) : WebState :=
  mkWebState (webrtc_outbound_active s) (entries s) (limiter s) (call_log s) (Some m) (metrics s) (message_log s) (web_tasks s) (next_web s) (web_closing s) (holds s).
Definition set_metrics (f : Metrics -> Metrics) (s : WebState) : WebState :=
  mkWebState (webrtc_outbound_active s) (entries s) (limiter s) (call_log s) (call_manager s) (f (metrics s)) (message_log s) (web_tasks s) (next_web s) (web_closing s) (holds s).
Definition set_messages (f : MessageLog -> MessageLog) (s : WebState) : WebState :=
  mkWebState (webrtc_outbound_active s) (entries s) (limiter s) (call_log s) (call_manager s) (metrics s) (f <$> message_log s) (web_tasks s) (next_web s) (web_closing s) (holds s).
Definition set_web_tasks (f : gmap nat WebTask -> gmap nat WebTask) (s : WebState) : WebState :=
  mkWebState (webrtc_outbound_active s) (entries s) (limiter s) (call_log s) (call_manager s) (metrics s) (message_log s) (f (web_tasks s)) (next_web s) (web_closing s) (holds s).
Definition new_web (s : WebState) : WebState :=
  mkWebState (webrtc_outbound_active s) (entries s) (limiter s) (call_log s) (call_manager s) (metrics s) (message_log s) (web_tasks s) (S (next_web s)) (web_closing s) (holds s).
Definition set_web_closing (f : list (string * nat) -> list (string * nat)) (s : WebState) : WebState :=
  mkWebState (webrtc_outbound_active s) (entries s) (limiter s) (call_log s) (call_manager s) (metrics s) (message_log s) (web_tasks s) (next_web s) (f (web_closing s)) (holds s).
Definition set_holds (f : list HoldTask -> list HoldTask) (s : WebState) : WebState :=
  mkWebState (webrtc_outbound_active s) (entries s) (limiter s) (call_log s) (call_manager s) (metrics s) (message_log s) (web_tasks s) (next_web s) (web_closing s) (f (holds s)).

(** ** Small steps the handlers share *)

Definition count (f : Metrics -> Metrics) : handling unit := modify (set_metrics f).
Definition log_end (call_id : string) (o : CallLog.Outcome) (now : Z) : handling unit :=
  modify (set_call_log (fun log => record_end log call_id o now)).
Fixpoint each {A} (f : A -> handling unit) (l : list A) : handling unit :=
  match l with [] => mret tt | a :: l => f a ;; each f l end.
Definition stop_bridge (bridge : Z) : handling unit :=
  s ← get;
  match call_manager s with
  | Some m => let '(_, rs, m) := Calls.terminate m bridge in modify (set_manager m) ;; each (fun r => emit (WebLetGo r)) rs
  | None => mret tt
  end.
(** [ws_sink.send]; that the browser is gone is passed over. *)
Definition push (ws : Z) (code : string) (told : list Z) : handling unit := emit (PushError ws code told).

(** [ngn_dialog.send_bye()] on a dialog no entry has; its error is logged. *)
Definition bye_new (ud : UacDialog) : handling unit :=
  r ← draw; _ ← perform WebNgnSent (send_bye ud r); mret tt.
Definition set_dialog (id : nat) (ud : UacDialog) : handling unit :=
  modify (set_entries (alter (fun e => mkWebOut ud (we_ws e) (we_bridge_call_id e) (we_last_ngn_offer_sdp e) (we_hold_state e)) id)).

Section browser.
Context (cfg : WebConfig).

(** ** The offer of a browser *)

(** What an offer brings with it: the registrations and the aliases at that time,
    the routes of the client and its random identifiers, what the peer of the
    browser answers, whether it still has its media, and the sockets for RTP. *)
Record WebEnv := mkWebEnv {
  we_registrar : option ExtensionRegistrar; we_aliases : ExtensionAliases; we_routes : Routes; we_ids : Ids;
  we_answer : option string; we_media : bool; we_bind : IpAddr -> option SocketAddr }.

(** The extension a target names, when calls between extensions are enabled. *)
Definition internal_target (env : WebEnv) (target : string) (now : Z) : option (Binding * string) :=
  match wc_intercom cfg, we_registrar env with
  | Some true, Some registrar =>
      match classify_dial_target target registrar (we_aliases env) now with Internal binding aor => Some (binding, aor) | Ngn _ => None end
  | _, _ => None
  end.

Definition web_target_uri (target : string) : string :=
  let server := uac_server (wc_uac cfg) in
  normalize_request_uri_for_ngn ("sip:" +:+ target +:+ "@" +:+ print_ip (ip server) +:+ ":" +:+ print_uint (sport server))
    (print_ip (ip server)) (sport server).

(** The offer for the NGN, from the answer for the browser. *)
Definition web_offer (browser_answer : string) (sock : SocketAddr) (now_secs : Z) : handling string :=
  avp ← from_outcome (convert_savpf_to_avp browser_answer);
  pcmu_only ← from_outcome (rewrite_offer for_ngn avp);
  from_outcome (rewrite_rtp_endpoint pcmu_only (ip sock) (sport sock) now_secs).

(** The start of the task. *)
Definition start_web_call (env : WebEnv) (target : string) (ws peer : Z) (sock : SocketAddr) (browser_answer sdp rate_aor : string) (now : Z) : handling unit :=
  let uri := web_target_uri target in
  let plan := build_invite (wc_uac cfg) (we_routes env) uri (Some sdp) None (we_ids env) in
  let plan_call_id := default "" (hdr_get (req_headers (pl_request plan)) "call-id") in
  s ← get;
  let id := next_web s in
  modify new_web ;;
  modify (set_call_log (fun log => record_start log CallLog.Outbound target plan_call_id now)) ;;
  emit (WebInvite id plan) ;;
  modify (set_web_tasks (fun ts => <[id := mkWebTask uri ws peer sock sdp browser_answer rate_aor plan_call_id WebInviting]> ts)).

(** [handle_pwa_outbound_offer]: the answer for the browser; [None]: the call went
    to an extension. *)
Definition handle_pwa_outbound_offer (env : WebEnv) (target : string) (ws peer : Z) (now : Z) : handling (option string) :=
  match internal_target env target now with
  | Some (binding, callee) => emit (WebIntercom ws target binding callee) ;; mret None
  | None =>
      if negb (is_valid_pwa_dial_target target) then fail
      else
        s ← get;
        let rate_aor := ngn_aor_from_uac (wc_uac cfg) in
        let '(decision, lim) := check_and_record_at (wc_limits cfg) (limiter s) rate_aor now in
        modify (set_limiter (fun _ => lim)) ;;
        match decision with
        | Deny retry_after =>
            count (fun m => record_invite_blocked_by_rate_limit m PwaOutbound) ;;
            count (fun m => record_invite_pwa_outbound m Observability.Error) ;;
            push ws "rate_limited" [as_secs retry_after] ;;
            fail
        | Allow previous_interval =>
            match previous_interval with
            | Some d => count (fun m => record_invite_interval_ms m (to_u64_or (2 ^ 64 - 1) (as_millis d)))
            | None => mret tt
            end ;;
            browser_answer ← from_outcome (ok_or (we_answer env) tt);
            (if we_media env then mret tt else fail) ;;
            sock ← from_outcome (ok_or (we_bind env (default (V4 127 0 0 1) (wc_bridge_ngn_bind_ip cfg))) tt);
            sdp_for_ngn ← web_offer browser_answer sock (as_secs now);
            start_web_call env target ws peer sock browser_answer sdp_for_ngn rate_aor now ;;
            mret (Some browser_answer)
        end
  end.

(** *** When the NGN has answered *)

(** A call the NGN took cannot be kept: the browser is told, and the NGN gets a BYE. *)
Definition turn_away (t : WebTask) : handling unit :=
  count (fun m => record_invite_pwa_outbound m Observability.Error) ;;
  push (wt_ws t) "outbound_failed" [].

Definition web_established (id : nat) (t : WebTask) (call : EstablishedCall) : handling unit :=
  count (fun m => record_invite_ngn m Observability.Answered) ;;
  modify (set_limiter (fun lim => record_success lim (wt_rate_aor t))) ;;
  let ud := ec_dialog call in
  match extract_rtp_endpoint (resp_body (ec_response call)) with
  | None => turn_away t ;; bye_new ud
  | Some ngn_peer =>
      let bridge := mkWebBridge (wt_sock t) ngn_peer (wt_peer t) (default DEFAULT_OPUS_PT (find_opus_payload_type (wt_browser_answer t))) in
      s ← get;
      match call_manager s with
      | None => turn_away t ;; bye_new ud ;; emit (WebLetGo (DroppedBridge bridge))
      | Some m =>
          let '(cid, m) := create_call m in
          modify (set_manager m) ;;
          let '(res, rs, m) := attach_media_bridge m cid bridge in
          modify (set_manager m) ;;
          each (fun r => emit (WebLetGo r)) rs ;;
          match res with
          | Ok _ =>
              count (fun m => record_invite_pwa_outbound m Observability.Answered) ;;
              count inc_call_active ;;
              modify (set_entries (<[id := mkWebOut ud (wt_ws t) cid (wt_sdp t) false]>)) ;;
              modify (set_table (<[dlg_call_id (dlg_id (Uac.inner ud)) := id]>))
          | _ => turn_away t ;; stop_bridge cid ;; bye_new ud
          end
      end
  end.

Definition web_failed (t : WebTask) (response : SipResponse) (now : Z) : handling unit :=
  let code := status_code response in
  (if is_5xx code then count (fun m => record_ngn_5xx m code) else mret tt) ;;
  let result := if code =? 486 then Observability.Busy else Observability.Error in
  count (fun m => record_invite_ngn m result) ;;
  count (fun m => record_invite_pwa_outbound m result) ;;
  let retry_after_secs := v ← hdr_get (resp_headers response) "retry-after"; parse_retry_after v in
  modify (set_limiter (fun lim => record_failure_at lim (wt_rate_aor t) code retry_after_secs now)) ;;
  log_end (wt_plan_call_id t) (CallLog.Failed code) now ;;
  push (wt_ws t) "outbound_failed" (code :: option_list retry_after_secs).

Definition web_lost (t : WebTask) (now : Z) : handling unit :=
  count (fun m => record_invite_ngn m Observability.Timeout) ;;
  count (fun m => record_invite_pwa_outbound m Observability.Timeout) ;;
  modify (set_limiter (fun lim => record_failure_at lim (wt_rate_aor t) 503 None now)) ;;
  log_end (wt_plan_call_id t) (CallLog.Failed 503) now ;;
  push (wt_ws t) "outbound_failed" [].

Definition finish_web_call (id : nat) (t : WebTask) (result : option InviteOutcome) (now : Z) : handling unit :=
  modify (set_web_tasks (delete id)) ;;
  match result with
  | Some (Uac.Established call) => web_established id t call
  | Some (Uac.Failed response) => web_failed t response now
  | None => web_lost t now
  end.

(** The answer to the first INVITE: perhaps the call is tried again. *)
Definition web_first_answer (id : nat) (t : WebTask) (result : option InviteOutcome) (nanos now : Z) : handling unit :=
  let retry :=
    match result with
    | Some (Uac.Failed response) =>
        match decide_retry (status_code response) (resp_headers response) retry_default
                (random_jitter_offset_ms (retry_jitter retry_default) nanos) with
        | Retry _ _ => Some response
        | NoRetry _ => None
        end
    | _ => None
    end in
  match retry with
  | Some response => modify (set_web_tasks (<[id := set_web_phase t (WebRetryWait response)]>))
  | None => count (fun m => record_ngn_carrier_retry m NotRetried) ;; finish_web_call id t result now
  end.

(** The end of the sleep; [closed] is what [ws_sink.is_closed()] says then. *)
Definition web_retry_wake (id : nat) (t : WebTask) (response : SipResponse) (closed : bool) (routes : Routes) (ids : Ids) (now : Z) : handling unit :=
  if closed then
    count (fun m => record_ngn_carrier_retry m RetryAbortedByCancel) ;;
    finish_web_call id t (Some (Uac.Failed response)) now
  else
    emit (WebInvite id (build_invite (wc_uac cfg) routes (wt_uri t) (Some (wt_sdp t)) None ids)) ;;
    modify (set_web_tasks (<[id := set_web_phase t WebRetrying]>)).

Definition web_second_answer (id : nat) (t : WebTask) (result : option InviteOutcome) (now : Z) : handling unit :=
  let succeeded := match result with Some (Uac.Established _) => true | _ => false end in
  count (fun m => record_ngn_carrier_retry m (if succeeded then RetriedSucceeded else RetriedFailed)) ;;
  finish_web_call id t result now.

(** ** The end of a call *)

(** [close_pwa_outbound_for_ws]: the calls of the session leave the table. *)
Definition close_pwa_outbound (ws : Z) : handling unit :=
  s ← get;
  let of_ws (id : nat) := match entries s !! id with Some e => we_ws e =? ws | None => false end in
  let gone := List.filter (fun p => of_ws p.2) (map_to_list (webrtc_outbound_active s)) in
  modify (set_table (filter (fun p => of_ws p.2 = false))) ;;
  modify (set_web_closing (fun l => l ++ gone)).
(** What is done for each of them, under the lock of its dialog. *)
Definition close_next_outbound (i : nat) (now : Z) : handling unit :=
  s ← get;
  match web_closing s !! i with
  | None => mret tt
  | Some (cid, id) =>
      match entries s !! id with
      | None => mret tt
      | Some e =>
          modify (set_web_closing (delete i)) ;;
          r ← draw;
          res ← perform WebNgnSent (send_bye (we_dialog e) r);
          '(_, ud) ← from_outcome res;
          set_dialog id ud ;;
          stop_bridge (we_bridge_call_id e) ;;
          count dec_call_active ;;
          log_end cid CallLog.Answered now ;;
          if wc_recording cfg then emit (WebStopRecording cid) else mret tt
      end
  end.

(** A BYE of the NGN for such a call ([handle_bye]). *)
Definition ngn_bye_outbound (cid : string) (now : Z) : handling unit :=
  s ← get;
  match webrtc_outbound_active s !! cid with
  | None => mret tt
  | Some id =>
      modify (set_table (delete cid)) ;;
      match entries s !! id with
      | None => mret tt
      | Some e =>
          stop_bridge (we_bridge_call_id e) ;;
          count dec_call_active ;;
          log_end cid CallLog.Answered now ;;
          emit (PushBye (we_ws e)) ;;
          set_dialog id (set_inner (we_dialog e) (Dialog.terminate (Uac.inner (we_dialog e))))
      end
  end.

(** ** Hold and resume *)

(** [set_hold], up to the lock of the dialog. *)
Definition set_hold (call_id : string) (hold : bool) : handling unit :=
  s ← get;
  match id ← webrtc_outbound_active s !! call_id; e ← entries s !! id; Some (id, e) with
  | None => emit (HoldResult call_id hold (Err UnknownCallId))
  | Some (id, e) =>
      new_offer ← from_outcome (apply_audio_direction (we_last_ngn_offer_sdp e) (if hold then SendOnly else SendRecv));
      modify (set_holds (fun l => l ++ [mkHold call_id id hold new_offer]))
  end.
Definition hold_go (i : nat) : handling unit :=
  s ← get;
  match holds s !! i with
  | None => mret tt
  | Some h =>
      modify (set_holds (delete i)) ;;
      match entries s !! ho_entry h with
      | None => mret tt
      | Some e =>
          r ← draw; r_ack ← draw;
          res ← perform WebNgnSent (send_reinvite (we_dialog e) (Some (ho_offer h)) r r_ack);
          '(res, ud) ← from_outcome res;
          set_dialog (ho_entry h) ud ;;
          match res with
          | Ok resp =>
              if is_2xx (status_code resp) then
                modify (set_entries (alter (fun e => mkWebOut (we_dialog e) (we_ws e) (we_bridge_call_id e) (ho_offer h) (ho_hold h)) (ho_entry h))) ;;
                emit (HoldResult (ho_call_id h) (ho_hold h) (Ok tt))
              else emit (HoldResult (ho_call_id h) (ho_hold h) (Err (Rejected (status_code resp))))
          | Err _ => emit (HoldResult (ho_call_id h) (ho_hold h) (Err TransportFailed))
          | Panic => from_outcome (E := unit) Panic
          end
      end
  end.

(** ** Digits and short messages *)

Definition inject_dtmf_to_ngn (call_id : string) (digit : Z) : handling bool :=
  s ← get;
  match event ← digit_to_event digit; id ← webrtc_outbound_active s !! call_id; e ← entries s !! id; _ ← call_manager s; Some (e, event) with
  | Some (e, event) => emit (WebInjectDtmf (we_bridge_call_id e) event) ;; mret true
  | None => mret false
  end.

Definition send_sms (routes : Routes) (ids : Ids) (to body : string) (now : Z) : handling SmsSendOutcome :=
  if negb (is_valid_pwa_dial_target to) then fail
  else
    let target_uri := web_target_uri to in
    res ← perform WebNgnSent (send_message (wc_uac cfg) (build_message (wc_uac cfg) routes target_uri body ids));
    resp ← from_outcome res;
    modify (set_messages (fun log => log_push log (mkSms MessageLog.Outbound (uc_local_uri (uac_config (wc_uac cfg))) target_uri body now))) ;;
    mret (if is_2xx (status_code resp) then Sent (status_code resp) else SmsRejected (status_code resp)).

(** ** The handler *)

Inductive WebEvent :=
  | WvOffer (env : WebEnv) (target : string) (ws peer : Z) (now : Z)
  | WvAnswer (id : nat) (result : option InviteOutcome) (nanos now : Z)
  | WvWake (id : nat) (closed : bool) (routes : Routes) (ids : Ids) (now : Z)
  | WvClose (ws : Z)
  | WvCloseNext (i : nat) (now : Z)
  | WvNgnBye (cid : string) (now : Z)
  | WvHold (call_id : string) (hold : bool)
  | WvHoldGo (i : nat)
  | WvDigit (call_id : string) (digit : Z)
  | WvSms (routes : Routes) (ids : Ids) (to body : string) (now : Z).

Definition handle_event (ev : WebEvent) : handling unit :=
  match ev with
  | WvOffer env target ws peer now => _ ← handle_pwa_outbound_offer env target ws peer now; mret tt
  | WvAnswer id result nanos now =>
      s ← get;
      match web_tasks s !! id with
      | Some t =>
          match wt_phase t with
          | WebInviting => web_first_answer id t result nanos now
          | WebRetryWait _ => mret tt
          | WebRetrying => web_second_answer id t result now
          end
      | None => mret tt
      end
  | WvWake id closed routes ids now =>
      s ← get;
      match web_tasks s !! id with
      | Some t => match wt_phase t with WebRetryWait response => web_retry_wake id t response closed routes ids now | _ => mret tt end
      | None => mret tt
      end
  | WvClose ws => close_pwa_outbound ws
  | WvCloseNext i now => close_next_outbound i now
  | WvNgnBye cid now => ngn_bye_outbound cid now
  | WvHold call_id hold => set_hold call_id hold
  | WvHoldGo i => hold_go i
  | WvDigit call_id digit => _ ← inject_dtmf_to_ngn call_id digit; mret tt
  | WvSms routes ids to body now => _ ← send_sms routes ids to body now; mret tt
  end.

Definition step (w : World WebState WebOutput) (ev : WebEvent) : World WebState WebOutput := (handle_event ev w).2.
Definition run (w : World WebState WebOutput) (evs : list WebEvent) : World WebState WebOutput := fold_left step evs w.
End browser.

Definition web_initial (log : option CallLog) (m : option (CallManager WebBridge)) (mt : Metrics) (ml : option MessageLog) : WebState :=
  mkWebState ∅ ∅ ∅ log m mt ml ∅ 0 [] [].
