(* ===== verification/BrowserLegs.v ===== *)
(** What becomes of the calls that browsers place (call/orchestrator.rs,
    UasEventHandler): over any sequence of events every leg on the NGN is in the
    table, waits for its BYE, had it, or was ended by the NGN, with its bridge up
    as long as it lives.

    A step is followed on what the theorems need of the world, its [view]. *)
From S2P Require Import Prelude RustStr NetAddr SipMessage SipUtils Transaction Dialog TuProg Registrar MessageLog Uac.
From S2P Require Import Dtmf Sdp SdpRewrite RateLimiter CarrierRetry CallLog Observability Transcoder Bridge Calls Intercom SipFields Handler Legs BrowserCalls.

Abbreviation world := (World WebState WebOutput).

(** ** The view *)

Definition bye_of (o : WebOutput) : option string :=
  match o with
  | WebNgnSent (Awaited req _) => if decide (req_method req = Bye) then hdr_get (req_headers req) "call-id" else None
  | _ => None
  end.
(** The Call-IDs of the BYEs sent to the NGN. *)
Definition byes (w : world) : list string := omap bye_of (outs w).

(** [v_entries]: the Call-ID and the bridge of each entry. *)
Record View := mkView {
  v_table : gmap string nat; v_closing : list (string * nat); v_entries : gmap nat (string * Z);
  v_byes : list string; v_gauge : Z; v_tasks : gset nat; v_next : nat; v_manager : option (CallManager WebBridge) }.
Definition key (e : WebOutEntry) : string * Z := (ngn_id (we_dialog e), we_bridge_call_id e).
Definition view (w : world) : View :=
  let s := shared w in
  mkView (webrtc_outbound_active s) (web_closing s) (key <$> entries s) (byes w) (metrics s call_active)
    (dom (web_tasks s)) (next_web s) (call_manager s).

Abbreviation quiet := (follows (fun w w' => view w' = view w)).
Abbreviation triple := (wp view).

Definition with_byes (l : list string) (v : View) : View :=
  mkView (v_table v) (v_closing v) (v_entries v) (v_byes v ++ l) (v_gauge v) (v_tasks v) (v_next v) (v_manager v).
Definition with_manager (m : CallManager WebBridge) (v : View) : View :=
  mkView (v_table v) (v_closing v) (v_entries v) (v_byes v) (v_gauge v) (v_tasks v) (v_next v) (Some m).
Definition with_tasks (f : gset nat -> gset nat) (v : View) : View :=
  mkView (v_table v) (v_closing v) (v_entries v) (v_byes v) (v_gauge v) (f (v_tasks v)) (v_next v) (v_manager v).
Definition with_gauge (f : Z -> Z) (v : View) : View :=
  mkView (v_table v) (v_closing v) (v_entries v) (v_byes v) (f (v_gauge v)) (v_tasks v) (v_next v) (v_manager v).
Definition with_table (f : gmap string nat -> gmap string nat) (v : View) : View :=
  mkView (f (v_table v)) (v_closing v) (v_entries v) (v_byes v) (v_gauge v) (v_tasks v) (v_next v) (v_manager v).
Definition with_closing (f : list (string * nat) -> list (string * nat)) (v : View) : View :=
  mkView (v_table v) (f (v_closing v)) (v_entries v) (v_byes v) (v_gauge v) (v_tasks v) (v_next v) (v_manager v).
Definition with_entry (id : nat) (e : string * Z) (v : View) : View :=
  mkView (v_table v) (v_closing v) (<[id := e]> (v_entries v)) (v_byes v) (v_gauge v) (v_tasks v) (v_next v) (v_manager v).

(** ** Steps that leave the view as it is *)

Lemma web_view_emit o : bye_of o = None -> quiet (emit o).
Proof. intros Ho w. unfold view, byes. cbn. rewrite omap_app. cbn. by rewrite Ho, app_nil_r. Qed.
Lemma web_quiet_accepted : quiet accepted.
Proof. done. Qed.
Lemma web_quiet_awaited : quiet awaited.
Proof. done. Qed.
Lemma web_quiet_draw : quiet draw.
Proof. done. Qed.
Lemma web_quiet_set_limiter f : quiet (modify (set_limiter f)).
Proof. done. Qed.
Lemma web_quiet_set_call_log f : quiet (modify (set_call_log f)).
Proof. done. Qed.
Lemma quiet_set_messages f : quiet (modify (set_messages f)).
Proof. done. Qed.
Lemma quiet_set_holds f : quiet (modify (set_holds f)).
Proof. done. Qed.
Lemma web_quiet_count f : (forall m, f m call_active = m call_active) -> quiet (count f).
Proof. intros Hf w. unfold view. cbn. by rewrite Hf. Qed.
Lemma web_quiet_each {A} (f : A -> handling unit) l : (forall a, quiet (f a)) -> quiet (each f l).
Proof. intros Hf. induction l; cbn [each]; eauto with frame typeclass_instances. Qed.

Create HintDb browser.
#[export] Hint Resolve follows_ret follows_bind follows_attempt follows_get follows_from_outcome follows_fail : browser.
#[export] Hint Resolve web_view_emit web_quiet_accepted web_quiet_awaited web_quiet_draw web_quiet_set_limiter web_quiet_set_call_log quiet_set_messages quiet_set_holds
  web_quiet_count web_quiet_each : browser.
Ltac quiets := follow_steps ltac:(eauto with browser typeclass_instances).

Lemma web_quiet_log_end id o now : quiet (log_end id o now).
Proof. unfold log_end. quiets. Qed.
Lemma quiet_push ws code told : quiet (push ws code told).
Proof. unfold push. quiets. Qed.
Lemma web_quiet_perform {A} (p : prog A) : no_bye p -> quiet (perform WebNgnSent p).
Proof.
  induction p as [r | req dest k IH | req dest k IH]; cbn [no_bye perform]; [by intros; quiets | |]; intros [Hb Hk].
  - quiets. apply web_view_emit. cbn. by rewrite decide_False.
  - quiets.
Qed.
(** The entry of a dialog that moved on keeps its key. *)
Lemma view_alter (f : WebOutEntry -> WebOutEntry) id w : (forall e, entries (shared w) !! id = Some e -> key (f e) = key e) ->
  view (modify (set_entries (alter f id)) w).2 = view w.
Proof.
  intros Hf. unfold view. cbn. f_equal. apply map_eq. intros j. rewrite !lookup_fmap. destruct (decide (j = id)) as [-> | Hne].
  - rewrite lookup_alter_eq. destruct (entries (shared w) !! id) as [e|] eqn:He; [|done]. cbn. by rewrite Hf.
  - by rewrite lookup_alter_ne.
Qed.
#[export] Hint Resolve web_quiet_log_end quiet_push : browser.

(** ** Steps that change it *)

Lemma manager_triple v m (Post : _ -> _ -> Prop) : Post (Ok tt) (with_manager m v) -> triple v (modify (set_manager m)) Post.
Proof. intros H w <-. exact H. Qed.
Lemma table_triple v f (Post : _ -> _ -> Prop) : Post (Ok tt) (with_table f v) -> triple v (modify (set_table f)) Post.
Proof. intros H w <-. exact H. Qed.
Lemma closing_triple v f (Post : _ -> _ -> Prop) : Post (Ok tt) (with_closing f v) -> triple v (modify (set_web_closing f)) Post.
Proof. intros H w <-. exact H. Qed.
Lemma gauge_triple v f g (Post : _ -> _ -> Prop) : (forall m, f m call_active = g (m call_active)) -> Post (Ok tt) (with_gauge g v) -> triple v (count f) Post.
Proof. intros Hf H w <-. unfold view at 1. cbn. rewrite Hf. exact H. Qed.
Lemma entry_triple v id e (Post : _ -> _ -> Prop) : Post (Ok tt) (with_entry id (key e) v) -> triple v (modify (set_entries (<[id := e]>))) Post.
Proof. intros H w <-. unfold view. cbn. rewrite fmap_insert. exact H. Qed.
Lemma untask_triple v id (Post : _ -> _ -> Prop) : Post (Ok tt) (with_tasks (fun ts => ts ∖ {[id]}) v) -> triple v (modify (set_web_tasks (delete id))) Post.
Proof. intros H w <-. unfold view. cbn. rewrite dom_delete_L. exact H. Qed.

(** A BYE is sent, and its answer does not change the Call-ID of the dialog. *)
Lemma bye_triple v ud r (Post : _ -> _ -> Prop) :
  (forall res ud', ngn_id ud' = ngn_id ud -> Post (Ok (Ok (res, ud'))) (with_byes [ngn_id ud] v)) -> triple v (perform WebNgnSent (send_bye ud r)) Post.
Proof.
  intros H w <-. unfold send_bye. destruct (build_bye_request (Uac.inner ud) r) as [Hm Hc].
  pose proof (build_op_request (Uac.inner ud) (OpBye r)) as [_ Hd]. cbn [build_op] in Hd.
  destruct (build_bye (Uac.inner ud) r) as [bye d]. cbn [fst snd] in *. subst d. cbn [perform].
  unfold mbind, handler_bind, emit, awaited. cbn [shared oks answers rnds outs].
  assert (forall l, view (mkWorld (shared w) (oks w) l (rnds w) (outs w ++ [WebNgnSent (Awaited bye (ud_next_hop ud))])) = with_byes [ngn_id ud] (view w)) as Hv.
  { intros l. unfold view, with_byes, byes. cbn. rewrite omap_app. cbn. by rewrite Hm, decide_True, Hc. }
  destruct (default None (head (answers w))) as [resp|]; unfold mret, prog_ret; cbn [perform]; unfold mret, handler_ret; cbn [fst snd]; rewrite Hv; by apply H.
Qed.
Lemma web_draw_triple v (Post : _ -> _ -> Prop) : (forall r, Post (Ok r) v) -> triple v draw Post.
Proof. intros H w <-. exact (H _). Qed.
Lemma web_emit_triple v o (Post : _ -> _ -> Prop) : bye_of o = None -> Post (Ok tt) v -> triple v (emit o) Post.
Proof. intros Ho H w Hw. pose proof (web_view_emit o Ho w) as Hq. cbv beta in Hq. by rewrite Hq, Hw. Qed.
Lemma quiet_ok_triple v (m : handling unit) (Post : _ -> _ -> Prop) : quiet m -> (forall w, (m w).1 = Ok tt) -> Post (Ok tt) v -> triple v m Post.
Proof. intros Hq Hok H w Hw. specialize (Hq w). cbv beta in Hq. by rewrite Hq, Hok, Hw. Qed.
Lemma web_emit_each_ok {A} (f : A -> WebOutput) l (w : world) : (each (fun a => emit (f a)) l w).1 = Ok tt.
Proof. revert w. induction l as [|a l IH]; intros w; cbn [each]; [done|]. unfold mbind, handler_bind. apply IH. Qed.

Lemma bye_new_triple v ud (Post : _ -> _ -> Prop) : Post (Ok tt) (with_byes [ngn_id ud] v) -> triple v (bye_new ud) Post.
Proof.
  intros H. apply wp_bind, web_draw_triple. intros r. apply wp_bind, bye_triple. intros res ud' _. by apply wp_ret.
Qed.

Definition ended_bridge (b : Z) (v : View) : View :=
  match v_manager v with Some m => with_manager (mkManager (delete b (calls m)) (next_id m)) v | None => v end.
Lemma terminate_calls m (b : Z) : (Calls.terminate (B := WebBridge) m b).2 = m /\ calls m !! b = None \/
  (Calls.terminate m b).2 = mkManager (delete b (calls m)) (next_id m).
Proof. unfold Calls.terminate. destruct (calls m !! b) eqn:H; [by right | by left]. Qed.
Lemma ended_entries b v : v_entries (ended_bridge b v) = v_entries v.
Proof. unfold ended_bridge. by case_match. Qed.
Lemma stop_bridge_triple v b (Post : _ -> _ -> Prop) : Post (Ok tt) (ended_bridge b v) -> triple v (stop_bridge b) Post.
Proof.
  intros H. apply wp_bind, wp_get. intros w Hw. cbn [continue]. unfold ended_bridge in H.
  assert (v_manager v = call_manager (shared w)) as Hm by (by rewrite <- Hw). rewrite Hm in H. destruct (call_manager (shared w)) as [m|]; [|by apply wp_ret].
  pose proof (terminate_calls m b) as Ht. destruct (Calls.terminate m b) as [[res rs] m'].
  apply wp_bind, manager_triple. cbn [continue]. apply quiet_ok_triple; [quiets | intros w'; apply web_emit_each_ok|].
  cbn [snd] in Ht. destruct Ht as [[-> Hb] | ->]; [|done]. rewrite delete_id in H by done. by destruct m.
Qed.

(** ** The handlers *)

Section handlers.
Context (cfg : WebConfig).

(** What an event of a task does. *)
Definition new_task (v : View) : View :=
  mkView (v_table v) (v_closing v) (v_entries v) (v_byes v) (v_gauge v) ({[v_next v]} ∪ v_tasks v) (S (v_next v)) (v_manager v).
Definition untask (id : nat) (v : View) : View := with_tasks (fun ts => ts ∖ {[id]}) v.
(** The call [cid] is taken, with a bridge in the manager. *)
Definition take_call (id : nat) (cid : string) (b : WebBridge) (m : CallManager WebBridge) (v : View) : View :=
  with_table (<[cid := id]>) (with_entry id (cid, next_id m) (with_gauge inc
    (with_manager (mkManager (<[next_id m := mkEntry Connected (Some b)]> (calls m)) (wrapping_add 64 (next_id m) 1)) v))).

Inductive finished (id : nat) (result : option InviteOutcome) (v v' : View) : Prop :=
  | FinTaken call b m : result = Some (Uac.Established call) -> v_manager v = Some m ->
      v' = take_call id (ngn_id (ec_dialog call)) b m (untask id v) -> finished id result v v'
  | FinRefused call : result = Some (Uac.Established call) -> v' = with_byes [ngn_id (ec_dialog call)] (untask id v) -> finished id result v v'
  | FinFailed : (forall call, result <> Some (Uac.Established call)) -> v' = untask id v -> finished id result v v'.

Lemma create_attach (m : CallManager WebBridge) (b : WebBridge) : let '(cid, m1) := create_call m in
  attach_media_bridge m1 cid b = (Ok tt, [], mkManager (<[next_id m := mkEntry Connected (Some b)]> (calls m)) (wrapping_add 64 (next_id m) 1)) /\ cid = next_id m.
Proof.
  unfold create_call, attach_media_bridge. cbn [calls next_id]. rewrite lookup_insert_eq. cbn [ce_bridge option_list map].
  by rewrite insert_insert_eq.
Qed.

Lemma turn_away_quiet t : quiet (turn_away t).
Proof. unfold turn_away. quiets. Qed.
Lemma turn_away_ok t w : (turn_away t w).1 = Ok tt.
Proof. done. Qed.

Lemma finish_triple id t result now v : triple v (finish_web_call id t result now) (fun _ v' => finished id result v v').
Proof.
  unfold finish_web_call. apply wp_bind, untask_triple. cbn [continue]. fold (untask id v). destruct result as [[call | response] |].
  - unfold web_established. apply wp_bind, quiet_ok_triple; [quiets | done |]. cbn [continue].
    apply wp_bind, quiet_ok_triple; [quiets | done |]. cbn [continue].
    assert (triple (untask id v) (turn_away t ;; bye_new (ec_dialog call)) (fun _ v' => finished id (Some (Uac.Established call)) v v')) as Hgive.
    { apply wp_bind, quiet_ok_triple; [apply turn_away_quiet | apply turn_away_ok |]. cbn [continue]. apply bye_new_triple. by eapply FinRefused. }
    destruct (extract_rtp_endpoint _) as [ngn_peer|]; [|exact Hgive].
    apply wp_bind, wp_get. intros w Hw. cbn [continue]. assert (v_manager v = call_manager (shared w)) as Hm by (by change (v_manager v) with (v_manager (untask id v)); rewrite <- Hw).
    destruct (call_manager (shared w)) as [m|].
    2:{ apply wp_bind, quiet_ok_triple; [apply turn_away_quiet | apply turn_away_ok |]. cbn [continue]. apply wp_bind, bye_new_triple. cbn [continue].
        apply web_emit_triple; [done|]. by eapply FinRefused. }
    match goal with |- context [attach_media_bridge _ _ ?b] => set (bridge := b) end.
    pose proof (create_attach m bridge) as Hca. destruct (create_call m) as [cid m1]. destruct Hca as [Hca ->].
    apply wp_bind, manager_triple. cbn [continue]. rewrite Hca. apply wp_bind, manager_triple. cbn [continue].
    apply wp_bind, wp_ret. cbn [continue]. apply wp_bind, quiet_ok_triple; [quiets | done |]. cbn [continue].
    apply wp_bind, (gauge_triple _ _ inc); [done|]. cbn [continue]. apply wp_bind, entry_triple. cbn [continue]. apply table_triple.
    by eapply (FinTaken _ _ _ _ call bridge m).
  - pose proof record_5xx_gauge. apply wp_quiet; [unfold web_failed; quiets | intros _; by apply FinFailed].
  - apply wp_quiet; [unfold web_lost; quiets | intros _; by apply FinFailed].
Qed.

Lemma rephase_quiet id t ph : follows (fun w w' => web_tasks (shared w) !! id = Some t -> view w' = view w) (modify (set_web_tasks (<[id := set_web_phase t ph]>))).
Proof. intros w Ht. unfold view. cbn. rewrite dom_insert_lookup_L; done. Qed.

(** What an event does to the view: the calls [tk] are taken from the NGN, and it
    ends the calls [en]. *)
Inductive moves : list string -> list string -> View -> View -> Prop :=
  | MvNone v : moves [] [] v v
  | MvTask v : moves [] [] v (new_task v)
  | MvUntask id v : moves [] [] v (untask id v)
  | MvTaken id cid b m v : id ∈ v_tasks v -> v_manager v = Some m -> moves [cid] [] v (take_call id cid b m (untask id v))
  | MvRefused id cid v : moves [cid] [] v (with_byes [cid] (untask id v))
  | MvClosing (P : nat -> bool) v :
      moves [] [] v (with_closing (fun l => l ++ List.filter (fun p => P p.2) (map_to_list (v_table v))) (with_table (filter (fun p => P p.2 = false)) v))
  | MvClosed i cid id c b v : v_closing v !! i = Some (cid, id) -> v_entries v !! id = Some (c, b) ->
      moves [] [] v (with_gauge dec (ended_bridge b (with_byes [c] (with_closing (delete i) v))))
  | MvEnded cid id v : v_table v !! cid = Some id ->
      moves [] [cid] v
        match v_entries v !! id with
        | Some (_, b) => with_gauge dec (ended_bridge b (with_table (delete cid) v))
        | None => with_table (delete cid) v
        end.

Lemma start_triple env target ws peer sock answer sdp aor now v :
  triple v (start_web_call cfg env target ws peer sock answer sdp aor now) (fun _ v' => v' = new_task v).
Proof.
  intros w <-. unfold start_web_call. cbv zeta. rewrite bind_get, !bind_modify, bind_emit. unfold view, byes. cbn. rewrite omap_app. cbn. rewrite app_nil_r.
  rewrite dom_insert_L. done.
Qed.
Lemma quiet_web_offer answer sock now_secs : quiet (web_offer answer sock now_secs).
Proof. unfold web_offer. quiets. Qed.
Lemma offer_triple env target ws peer now v :
  triple v (handle_pwa_outbound_offer cfg env target ws peer now) (fun _ v' => v' = v \/ v' = new_task v).
Proof.
  unfold handle_pwa_outbound_offer. destruct (internal_target _ _ _ _) as [[binding callee]|]; [apply wp_quiet; [quiets | by left]|].
  destruct (negb _); [apply wp_fail; by left|]. apply wp_bind, wp_get. intros w Hw. cbn [continue].
  destruct (check_and_record_at _ _ _ _) as [decision lim]. apply wp_bind, quiet_ok_triple; [quiets | done|]. cbn [continue].
  destruct decision as [previous_interval | retry_after].
  - apply wp_bind, quiet_ok_triple; [destruct previous_interval; quiets | by destruct previous_interval |]. cbn [continue].
    apply wp_bind, wp_from_outcome. destruct (ok_or (we_answer env) tt) as [answer | |]; cbn [continue]; [|by left..].
    apply wp_bind. destruct (we_media env); [apply wp_ret | apply wp_fail; by left]. cbn [continue].
    apply wp_bind, wp_from_outcome. destruct (ok_or _ _) as [sock | |]; cbn [continue]; [|by left..].
    apply wp_bind, wp_quiet; [apply quiet_web_offer|]. intros [sdp | |]; cbn [continue]; [|by left..].
    apply wp_bind. eapply wp_conseq; [apply start_triple|]. intros [[] | |] v' ->; cbn [continue]; [apply wp_ret | |]; by right.
  - apply wp_quiet; [quiets | by left].
Qed.

Lemma close_triple ws v : triple v (close_pwa_outbound ws) (fun _ v' => moves [] [] v v').
Proof.
  apply wp_bind, wp_get. intros w Hw. cbn [continue]. apply wp_bind, table_triple. cbn [continue]. apply closing_triple.
  subst v. apply (MvClosing (fun id => match entries (shared w) !! id with Some e => we_ws e =? ws | None => false end)).
Qed.

(** The dialog of an entry moves on within its call. *)
Lemma set_dialog_triple v id ud c b (Post : _ -> _ -> Prop) : v_entries v !! id = Some (c, b) -> ngn_id ud = c -> Post (Ok tt) v -> triple v (set_dialog id ud) Post.
Proof.
  intros Hv Hc H w Hw. pose proof Hv as Hk. rewrite <- Hw in Hk. cbn in Hk. rewrite lookup_fmap in Hk.
  unfold set_dialog. rewrite view_alter; [by rewrite Hw|]. intros e He. rewrite He in Hk. cbn in Hk. unfold key in *. injection Hk as Hid _. cbn. by rewrite Hid, Hc.
Qed.

Lemma close_next_triple i now v : triple v (close_next_outbound cfg i now) (fun _ v' => moves [] [] v v').
Proof.
  apply wp_bind, wp_get. intros w Hw. cbn [continue]. destruct (web_closing (shared w) !! i) as [[cid id]|] eqn:Hi; [|by apply wp_ret, MvNone].
  destruct (entries (shared w) !! id) as [e|] eqn:He; [|by apply wp_ret, MvNone].
  assert (v_entries v !! id = Some (key e)) as Hv by (rewrite <- Hw; cbn; by rewrite lookup_fmap, He).
  assert (v_closing v !! i = Some (cid, id)) as Hc by (by rewrite <- Hw).
  apply wp_bind, closing_triple. cbn [continue]. apply wp_bind, web_draw_triple. intros r. cbn [continue]. apply wp_bind, bye_triple.
  intros res ud Hud. cbn [continue]. apply wp_bind, wp_from_outcome. cbn [continue].
  apply wp_bind. eapply set_dialog_triple; [exact Hv | exact Hud|]. cbn [continue]. apply wp_bind, stop_bridge_triple. cbn [continue].
  apply wp_bind, (gauge_triple _ _ dec); [apply dec_gauge|]. cbn [continue]. apply wp_quiet; [quiets|]. intros _. by eapply MvClosed.
Qed.

Lemma ngn_bye_triple cid now v : triple v (ngn_bye_outbound cid now) (fun _ v' => moves [] (match v_table v !! cid with Some _ => [cid] | None => [] end) v v').
Proof.
  apply wp_bind, wp_get. intros w Hw. cbn [continue].
  assert (v_table v !! cid = webrtc_outbound_active (shared w) !! cid) as Ht by (by rewrite <- Hw). rewrite <- Ht.
  destruct (v_table v !! cid) as [id|] eqn:Hi; [|by apply wp_ret, MvNone].
  assert (v_entries v !! id = key <$> entries (shared w) !! id) as Hv by (rewrite <- Hw; cbn; by rewrite lookup_fmap).
  pose proof (MvEnded cid id v Hi) as Hmv. rewrite Hv in Hmv.
  apply wp_bind, table_triple. cbn [continue]. destruct (entries (shared w) !! id) as [e|]; [|by apply wp_ret].
  apply wp_bind, stop_bridge_triple. cbn [continue]. apply wp_bind, (gauge_triple _ _ dec); [apply dec_gauge|]. cbn [continue].
  apply wp_bind, quiet_ok_triple; [quiets | done|]. cbn [continue]. apply wp_bind, quiet_ok_triple; [quiets | done|]. cbn [continue].
  eapply set_dialog_triple; [|done | exact Hmv]. cbn [with_gauge v_entries]. rewrite ended_entries. exact Hv.
Qed.

Lemma perform_ok {A} (p : prog A) (w : world) : exists r, (perform WebNgnSent p w).1 = Ok r.
Proof.
  revert w. induction p as [r | req dest k IH | req dest k IH]; intros w; cbn [perform]; [by exists r | |];
    unfold mbind, handler_bind; cbn [emit awaited accepted]; apply IH.
Qed.
Lemma reinvite_triple v ud sdp r r_ack (Post : _ -> _ -> Prop) :
  (forall x, (forall a, x = Ok a -> ngn_id a.2 = ngn_id ud) -> Post (Ok x) v) -> triple v (perform WebNgnSent (send_reinvite ud sdp r r_ack)) Post.
Proof.
  intros H w Hw. destruct (perform_ok (send_reinvite ud sdp r r_ack) w) as [x Hx]. rewrite Hx.
  pose proof (web_quiet_perform _ (send_reinvite_no_bye ud sdp r r_ack) w) as Hq. cbv beta in Hq. rewrite Hq, Hw. apply H.
  exact (perform_returns WebNgnSent _ _ w x (send_reinvite_id ud sdp r r_ack) Hx).
Qed.

Lemma hold_go_triple i v : triple v (hold_go i) (fun _ v' => v' = v).
Proof.
  apply wp_bind, wp_get. intros w Hw. cbn [continue]. destruct (holds (shared w) !! i) as [h|]; [|by apply wp_ret].
  apply wp_bind, quiet_ok_triple; [quiets | done|]. cbn [continue]. destruct (entries (shared w) !! ho_entry h) as [e|] eqn:He; [|by apply wp_ret].
  assert (v_entries v !! ho_entry h = Some (key e)) as Hv by (rewrite <- Hw; cbn; by rewrite lookup_fmap, He).
  apply wp_bind, web_draw_triple. intros r. cbn [continue]. apply wp_bind, web_draw_triple. intros r_ack. cbn [continue].
  apply wp_bind, reinvite_triple. intros x Hx. cbn [continue]. apply wp_bind, wp_from_outcome.
  destruct x as [[res ud] | |]; cbn [continue]; [|done..]. specialize (Hx _ eq_refl). cbn in Hx.
  apply wp_bind. eapply set_dialog_triple; [exact Hv | exact Hx|]. cbn [continue].
  destruct res as [resp | |]; [|by apply web_emit_triple | by apply wp_from_outcome].
  destruct (is_2xx _); [|by apply web_emit_triple]. apply wp_bind. intros w1 Hw1. rewrite view_alter by done. rewrite Hw1. by apply web_emit_triple.
Qed.

Lemma sms_quiet routes ids to body now : quiet (send_sms cfg routes ids to body now).
Proof.
  unfold send_sms. destruct (negb _); [quiets|]. apply follows_bind; [typeclasses eauto | | quiets].
  apply web_quiet_perform. unfold send_message, send_request, build_message. cbn. done.
Qed.
Lemma digit_quiet call_id digit : quiet (inject_dtmf_to_ngn call_id digit).
Proof. unfold inject_dtmf_to_ngn. quiets. Qed.
Lemma quiet_discard {A} (m : handling A) : quiet m -> quiet (_ ← m; mret tt).
Proof. intros Hm. quiets. Qed.
Lemma hold_quiet call_id hold : quiet (set_hold call_id hold).
Proof. unfold set_hold. quiets. Qed.

(** The calls that an event brings from the NGN, and those that the NGN ends. *)
Definition took (ev : WebEvent) (w : world) : list string :=
  match ev with
  | WvAnswer id (Some (Uac.Established call)) _ _ =>
      match web_tasks (shared w) !! id with
      | Some t => match wt_phase t with WebRetryWait _ => [] | _ => [ngn_id (ec_dialog call)] end
      | None => []
      end
  | _ => []
  end.
Definition hung_up (ev : WebEvent) (w : world) : list string :=
  match ev with
  | WvNgnBye cid _ => match webrtc_outbound_active (shared w) !! cid with Some _ => [cid] | None => [] end
  | _ => []
  end.
Fixpoint over (f : WebEvent -> world -> list string) (evs : list WebEvent) (w : world) : list string :=
  match evs with [] => [] | ev :: evs => f ev w ++ over f evs (step cfg w ev) end.

Lemma finished_moves id result v v' : id ∈ v_tasks v -> finished id result v v' ->
  moves (match result with Some (Uac.Established call) => [ngn_id (ec_dialog call)] | _ => [] end) [] v v'.
Proof.
  intros Hid [call b m -> Hm -> | call -> -> | Hr ->]; [by apply MvTaken | by apply MvRefused |].
  destruct result as [[call | response]|]; [by destruct (Hr call) | apply MvUntask..].
Qed.

Lemma step_moves ev w : moves (took ev w) (hung_up ev w) (view w) (view (step cfg w ev)).
Proof.
  unfold step. destruct ev as [env target ws peer now | id result nanos now | id closed routes ids now | ws | i now | cid now | c hold | i | c digit | routes ids to body now];
    cbn [took hung_up handle_event].
  - pose proof (offer_triple env target ws peer now (view w) w eq_refl) as H. unfold mbind, handler_bind.
    destruct (handle_pwa_outbound_offer cfg env target ws peer now w) as [[a | |] w1]; unfold mret, handler_ret; cbn [snd] in H |- *; destruct H as [-> | ->]; constructor.
  - rewrite bind_get. destruct (web_tasks (shared w) !! id) as [t|] eqn:Ht; [|destruct result as [[]|]; apply MvNone].
    assert (id ∈ v_tasks (view w)) as Hid by (cbn; apply elem_of_dom; by exists t).
    assert (forall w1, view w1 = view w -> moves (match result with Some (Uac.Established call) => [ngn_id (ec_dialog call)] | _ => [] end) [] (view w)
      (view (finish_web_call id t result now w1).2)) as Hfin.
    { intros w1 Hw1. apply (finished_moves id); [done|]. exact (finish_triple id t result now (view w) w1 Hw1). }
    destruct (wt_phase t).
    + unfold web_first_answer. destruct result as [[call | response]|]; cbv zeta; [by apply Hfin | | by apply Hfin].
      destruct (decide_retry _ _ _ _); [|by apply Hfin]. rewrite (rephase_quiet id t _ w Ht). apply MvNone.
    + destruct result as [[]|]; apply MvNone.
    + unfold web_second_answer. cbv zeta. destruct result as [[call | ?]|]; by apply Hfin.
  - rewrite bind_get. destruct (web_tasks (shared w) !! id) as [t|] eqn:Ht; [|apply MvNone].
    assert (id ∈ v_tasks (view w)) as Hid by (cbn; apply elem_of_dom; by exists t).
    destruct (wt_phase t) as [| response |]; [apply MvNone | | apply MvNone]. unfold web_retry_wake. destruct closed.
    + apply (finished_moves id (Some (Uac.Failed response))); [done|]. by apply (finish_triple id t (Some (Uac.Failed response)) now (view w)).
    + rewrite bind_emit. rewrite (rephase_quiet id t _ (emit _ w).2 Ht). match goal with |- context [emit ?o w] => pose proof (web_view_emit o eq_refl w) as Hq end. cbv beta in Hq. rewrite Hq. apply MvNone.
  - by apply (close_triple ws (view w)).
  - by apply (close_next_triple i now (view w)).
  - by apply (ngn_bye_triple cid now (view w)).
  - rewrite hold_quiet. apply MvNone.
  - rewrite (hold_go_triple i (view w) w eq_refl). apply MvNone.
  - pose proof (quiet_discard _ (digit_quiet c digit) w) as Hq. cbv beta in Hq. rewrite Hq. apply MvNone.
  - pose proof (quiet_discard _ (sms_quiet routes ids to body now) w) as Hq. cbv beta in Hq. rewrite Hq. apply MvNone.
Qed.
End handlers.

(** ** The account of the calls *)

Definition live (v : View) : list (string * nat) := map_to_list (v_table v) ++ v_closing v.
(** The manager has the bridge. *)
Definition up (v : View) (b : Z) : Prop := exists m e br, v_manager v = Some m /\ calls m !! b = Some e /\ ce_bridge e = Some br.

Record accounts (n0 : Z) (tk en : list string) (v : View) : Prop := {
  ac_perm : tk ≡ₚ map fst (live v) ++ v_byes v ++ en;
  ac_gauge : v_gauge v = Z.of_nat (length (live v));
  ac_live : forall cid id, (cid, id) ∈ live v -> exists b, v_entries v !! id = Some (cid, b) /\ up v b;
  ac_once : NoDup (map snd (live v));
  ac_bridges : forall i j c d b, v_entries v !! i = Some (c, b) -> v_entries v !! j = Some (d, b) -> i = j;
  ac_given : forall i c b, v_entries v !! i = Some (c, b) -> exists m, v_manager v = Some m /\ b < next_id m;
  ac_fresh : forall i, i ∈ v_tasks v -> (i < v_next v)%nat /\ v_entries v !! i = None;
  ac_old : forall i, is_Some (v_entries v !! i) -> (i < v_next v)%nat;
  ac_ids : forall m, v_manager v = Some m -> 0 <= next_id m <= n0 + Z.of_nat (length tk) }.

(** Views of the same calls, of which the tasks may differ. *)
Lemma web_accounts_tasks n0 tk en v v' : accounts n0 tk en v -> live v ≡ₚ live v' -> v_byes v' = v_byes v -> v_gauge v' = v_gauge v ->
  v_entries v' = v_entries v -> v_manager v' = v_manager v -> (v_next v <= v_next v')%nat ->
  (forall i, i ∈ v_tasks v' -> i ∈ v_tasks v \/ (v_next v <= i < v_next v')%nat) -> accounts n0 tk en v'.
Proof.
  intros [A1 A2 A3 A4 A5 A6 A7 A8 A9] Hl Hb Hg He Hm Hn Ht. unfold up in *. split; rewrite ?Hb, ?Hg, ?He, ?Hm; try done.
  - by rewrite <- Hl.
  - by rewrite <- Hl.
  - intros cid id H. unfold up. rewrite Hm. apply A3. by rewrite Hl.
  - by rewrite <- Hl.
  - intros i [Hi | Hi]%Ht; [destruct (A7 i Hi); split; [lia | done]|]. split; [lia|].
    destruct (v_entries v !! i) eqn:Hs; [|done]. assert (is_Some (v_entries v !! i)) as Hlt%A8 by (by exists p). lia.
  - intros i Hi%A8. lia.
Qed.

Lemma web_accounts_take n0 tk en v id cid b m : accounts n0 tk en v -> id ∈ v_tasks v -> v_manager v = Some m ->
  cid ∉ tk -> n0 + Z.of_nat (length tk) + 1 < 2 ^ 64 -> Z.of_nat (length tk) + 1 < 2 ^ 64 ->
  accounts n0 (tk ++ [cid]) en (take_call id cid b m (untask id v)).
Proof.
  intros [A1 A2 A3 A4 A5 A6 A7 A8 A9] Hid Hm Hc Hb1 Hb2. destruct (A9 m Hm) as [Hpos Hmax].
  assert (wrapping_add 64 (next_id m) 1 = next_id m + 1) as Hw by (unfold wrapping_add; apply wrap_small; unfold uN; lia).
  destruct (A7 id Hid) as [Hlt Hnone]. assert (v_table v !! cid = None) as Hnew.
  { destruct (v_table v !! cid) as [i|] eqn:Hi; [|done]. destruct Hc. rewrite A1, elem_of_app. left.
    apply list_elem_of_fmap. exists (cid, i). split; [done|]. apply elem_of_app. left. by apply elem_of_map_to_list. }
  assert (live (take_call id cid b m (untask id v)) ≡ₚ (cid, id) :: live v) as Hl.
  { unfold live. cbn. by rewrite map_to_list_insert. }
  assert (forall c i, (c, i) ∈ live v -> i <> id) as Hother.
  { intros c i Hi ->. apply A3 in Hi as (? & Hi & _). congruence. }
  assert (length (live v) <= length tk)%nat as Hlen by (rewrite A1, length_app, length_map; lia).
  split; cbn [take_call untask with_table with_entry with_gauge with_manager with_tasks v_byes v_gauge v_entries v_manager v_tasks v_next].
  - rewrite Hl. cbn [map fst]. rewrite A1, <- Permutation_middle, app_nil_r. done.
  - rewrite Hl, A2. unfold inc, wrapping_add. cbn [length]. rewrite wrap_small by (unfold uN; lia). lia.
  - intros c i. rewrite Hl. unfold up. cbn. intros [[= -> ->] | Hi]%elem_of_cons.
    + exists (next_id m). rewrite lookup_insert_eq. split; [done|]. do 3 eexists. split; [done|]. cbn. by rewrite lookup_insert_eq.
    + rewrite lookup_insert_ne by (intros ->; by eapply Hother). destruct (A3 c i Hi) as (b' & He & m' & e & br & Hm' & Hcall & Hbr). exists b'. split; [done|].
      assert (m' = m) as -> by congruence. destruct (A6 _ _ _ He) as (m' & Hm'' & Hlt'). assert (m' = m) as -> by congruence.
      exists (mkManager (<[next_id m:=Calls.mkEntry Connected (Some b)]> (calls m)) (wrapping_add 64 (next_id m) 1)), e, br. cbn.
      rewrite lookup_insert_ne by lia. done.
  - rewrite Hl. cbn. apply NoDup_cons. split; [|done]. intros ([c i] & Hi & Hin)%list_elem_of_fmap. cbn in Hi. subst i. by apply (Hother c id).
  - assert (forall j d, v_entries v !! j = Some (d, next_id m) -> False) as Hno.
    { intros j d Hj. destruct (A6 _ _ _ Hj) as (m' & Hm' & Hl'). assert (m' = m) as -> by congruence. lia. }
    intros i j c d b' Hi Hj. apply lookup_insert_Some in Hi as [[<- Hi] | [_ Hi]]; apply lookup_insert_Some in Hj as [[<- Hj] | [_ Hj]];
      [done | | | by eapply A5]; simplify_eq; by exfalso; eapply Hno.
  - intros i c b' Hi. eexists. split; [done|]. cbn. rewrite Hw. apply lookup_insert_Some in Hi as [[<- [= <- <-]] | [_ Hi]]; [lia|].
    destruct (A6 _ _ _ Hi) as (m' & Hm' & Hl'). assert (m' = m) as -> by congruence. lia.
  - intros i [Hi Hne]%elem_of_difference. rewrite elem_of_singleton in Hne. destruct (A7 i Hi). split; [done|]. by rewrite lookup_insert_ne.
  - intros i. rewrite lookup_insert_is_Some. intros [<- | [_ Hi]]; [done | by apply A8].
  - intros m' [= <-]. cbn. rewrite Hw, length_app. cbn. lia.
Qed.

(** A call that leaves the table or the closing list: [l] is what stays. *)
Lemma web_accounts_end n0 tk en en' v v' cid id b byed : accounts n0 tk en v -> v_entries v !! id = Some (cid, b) ->
  live v ≡ₚ (cid, id) :: live v' -> v_byes v' = v_byes v ++ byed -> byed ++ en' ≡ₚ cid :: en -> Z.of_nat (length tk) < 2 ^ 64 ->
  v_gauge v' = dec (v_gauge v) -> v_entries v' = v_entries v -> v_tasks v' = v_tasks v -> v_next v' = v_next v ->
  v_manager v' = v_manager (ended_bridge b v) -> accounts n0 tk en' v'.
Proof.
  intros [A1 A2 A3 A4 A5 A6 A7 A8 A9] He Hl Hb Hp Hlen Hg Hents Ht Hn Hm.
  assert (v_manager v' = (fun m => mkManager (delete b (calls m)) (next_id m)) <$> v_manager v) as Hmap by (rewrite Hm; unfold ended_bridge; by destruct (v_manager v) eqn:Hmv).
  clear Hm. split; rewrite ?Hents, ?Ht, ?Hn; try done.
  - rewrite A1, Hl, Hb, <- app_assoc, Hp. cbn [map fst]. by rewrite <- !Permutation_middle.
  - assert (length (live v) <= length tk)%nat as Hle by (rewrite A1, length_app, length_map; lia).
    rewrite Hg, A2, Hl in *. cbn [length] in *. pose proof (iter_dec (length (live v')) 1) as Hd. cbn [Nat.iter Nat.add] in Hd. apply Hd. lia.
  - intros c i Hi. assert ((c, i) ∈ live v) as Hi' by (rewrite Hl; by right). destruct (A3 c i Hi') as (b' & He' & m & e & br & Hmm & Hc & Hbr).
    exists b'. split; [done|]. unfold up. rewrite Hmap, Hmm. exists (mkManager (delete b (calls m)) (next_id m)), e, br. split; [done|]. split; [|done].
    cbn. rewrite lookup_delete_ne; [done|]. intros ->. assert (i = id) as -> by by eapply A5.
    rewrite Hl in A4. cbn in A4. apply NoDup_cons in A4 as [A4 _]. apply A4, list_elem_of_fmap. by exists (c, id).
  - rewrite Hl in A4. cbn in A4. by apply NoDup_cons in A4 as [_ A4].
  - intros i c b' Hi. destruct (A6 _ _ _ Hi) as (m & Hmm & Hlt). rewrite Hmap, Hmm. by eexists.
  - intros m. rewrite Hmap. destruct (v_manager v) as [m0|] eqn:Hmv; [|done]. intros [= <-]. exact (A9 m0 eq_refl).
Qed.

Lemma filter_split {A} (P : A -> bool) l : List.filter (fun x => negb (P x)) l ++ List.filter P l ≡ₚ l.
Proof.
  induction l as [|x l IH]; [done|]. cbn. destruct (P x); cbn [negb app]; [rewrite <- Permutation_middle|]; by apply perm_skip.
Qed.
Lemma closing_live (P : nat -> bool) (t : gmap string nat) :
  map_to_list (filter (fun p => P p.2 = false) t) ++ List.filter (fun p => P p.2) (map_to_list t) ≡ₚ map_to_list t.
Proof.
  transitivity (List.filter (fun p => negb (P p.2)) (map_to_list t) ++ List.filter (fun p => P p.2) (map_to_list t)); [|apply (filter_split (fun p => P p.2))].
  apply Permutation_app_tail.
  apply NoDup_Permutation; [apply NoDup_map_to_list | apply NoDup_ListNoDup, List.NoDup_filter, NoDup_ListNoDup, NoDup_map_to_list |].
  intros [k x]. rewrite elem_of_map_to_list, map_lookup_filter_Some, list_elem_of_In, List.filter_In, <- list_elem_of_In, elem_of_map_to_list.
  cbn. rewrite negb_true_iff. done.
Qed.

Lemma web_accounts_moves n0 tk en tk' en' v v' : moves tk' en' v v' -> accounts n0 tk en v -> NoDup (tk ++ tk') -> 0 <= n0 ->
  n0 + Z.of_nat (length (tk ++ tk')) < 2 ^ 64 -> accounts n0 (tk ++ tk') (en ++ en') v'.
Proof.
  intros Hm Ha Hnd H0 Hlen. rewrite length_app in Hlen.
  destruct Hm as [v | v | id v | id cid b m v Hid Hm | id cid v | P v | i cid id c b v Hi He | cid id v Ht]; cbn [length] in Hlen; rewrite ?app_nil_r.
  - done.
  - eapply web_accounts_tasks; [exact Ha | done.. | cbn; lia |]. cbn. intros i [-> %elem_of_singleton | Hi]%elem_of_union; [right; lia | by left].
  - eapply web_accounts_tasks; [exact Ha | done.. |]. cbn. intros i [Hi _]%elem_of_difference. by left.
  - apply web_accounts_take; try done; [|lia | lia]. intros Hin. apply NoDup_app in Hnd as (_ & Hnd & _). apply (Hnd cid Hin). by left.
  - assert (accounts n0 tk en (untask id v)) as [A1 A2 A3 A4 A5 A6 A7 A8 A9].
    { eapply web_accounts_tasks; [exact Ha | done.. |]. cbn. intros i [Hi _]%elem_of_difference. by left. }
    split; try done.
    + cbn [with_byes v_byes]. change (live (with_byes [cid] (untask id v))) with (live (untask id v)). rewrite A1, <- !app_assoc. do 2 apply Permutation_app_head. cbn [app]. apply Permutation_app_comm.
    + intros m Hm. destruct (A9 m Hm). rewrite length_app. cbn. lia.
  - eapply web_accounts_tasks; [exact Ha | | done.. | by left]. unfold live. cbn [with_closing with_table v_table v_closing].
    rewrite <- (closing_live P (v_table v)) at 1. rewrite <- !app_assoc. apply Permutation_app_head, Permutation_app_comm.
  - destruct (ac_live _ _ _ _ Ha cid id) as (b' & He' & _). { apply elem_of_app. right. by eapply list_elem_of_lookup_2. }
    assert (c = cid /\ b = b') as [-> ->] by (by rewrite He in He'; injection He').
    eapply (web_accounts_end n0 tk en en v _ cid id b' [cid]); [exact Ha | exact He' | | | done | lia | | | | |].
    all: unfold ended_bridge; cbn; destruct (v_manager v); cbn; try done.
    all: unfold live; cbn; rewrite (delete_Permutation _ _ _ Hi) at 1; by rewrite <- Permutation_middle.
  - assert ((cid, id) ∈ live v) as Hin by (apply elem_of_app; left; by apply elem_of_map_to_list).
    destruct (ac_live _ _ _ _ Ha cid id Hin) as (b & He & _). rewrite He.
    eapply (web_accounts_end n0 tk en (en ++ [cid]) v _ cid id b []); [exact Ha | exact He | | | | lia | | | | |].
    all: unfold ended_bridge; cbn; destruct (v_manager v); cbn; rewrite ?app_nil_r; try done.
    all: try apply (Permutation_app_comm en [cid]).
    all: unfold live; cbn; by rewrite <- (map_to_list_delete _ _ _ Ht).
Qed.

Section account.
Context (cfg : WebConfig).

Lemma web_accounts_run n0 evs : forall tk en w, accounts n0 tk en (view w) -> NoDup (tk ++ over cfg took evs w) -> 0 <= n0 ->
  n0 + Z.of_nat (length (tk ++ over cfg took evs w)) < 2 ^ 64 ->
  accounts n0 (tk ++ over cfg took evs w) (en ++ over cfg hung_up evs w) (view (run cfg w evs)).
Proof.
  induction evs as [|ev evs IH]; intros tk en w Ha Hnd H0 Hlen; cbn [over run fold_left]; [by rewrite !app_nil_r|].
  cbn [over] in Hnd, Hlen. rewrite !app_assoc in *. apply IH; [|done..].
  eapply web_accounts_moves; [apply step_moves | exact Ha | by apply NoDup_app in Hnd as [Hnd _] | done |].
  rewrite (length_app (tk ++ _)) in Hlen. lia.
Qed.

Definition initial (w : world) : Prop :=
  webrtc_outbound_active (shared w) = ∅ /\ entries (shared w) = ∅ /\ web_tasks (shared w) = ∅ /\ web_closing (shared w) = [] /\
  byes w = [] /\ metrics (shared w) call_active = 0.
Definition first_id (w : world) : Z := match call_manager (shared w) with Some m => next_id m | None => 0 end.
(** The calls that are up, or wait for their BYE. *)
Definition standing (w : world) : list (string * nat) := map_to_list (webrtc_outbound_active (shared w)) ++ web_closing (shared w).

Lemma web_accounts_initial w : initial w -> 0 <= first_id w -> accounts (first_id w) [] [] (view w).
Proof.
  intros (H1 & H2 & H3 & H4 & H5 & H6) H0. unfold first_id in *. split; unfold live; cbn; rewrite ?H1, ?H2, ?H3, ?H4, ?H5, ?H6, ?map_to_list_empty; cbn.
  - done.
  - done.
  - intros cid id Hi. by apply not_elem_of_nil in Hi.
  - constructor.
  - intros i j c d b Hi. by rewrite fmap_empty in Hi.
  - intros i c b Hi. by rewrite fmap_empty in Hi.
  - intros i Hi. by rewrite dom_empty_L in Hi.
  - intros i Hi. rewrite fmap_empty, lookup_empty in Hi. by destruct Hi.
  - intros m Hm. rewrite Hm in *. lia.
Qed.

End account.

(** ** Offers on hold *)

Section offers.
Context (cfg : WebConfig).

(** The offer of an INVITE of the task. *)
Definition offered (w : world) (id : nat) (sdp : string) : Prop := exists plan, WebInvite id plan ∈ outs w /\ req_body (pl_request plan) = sdp.
Definition direction_of (hold : bool) : MediaDirection := if hold then SendOnly else SendRecv.

(** What a re-INVITE sent now comes to: the NGN answers it with a 2xx, and the
    ACK goes out. *)
Definition ngn_takes (w : world) : bool :=
  match head (answers w) with Some (Some resp) => (200 <=? status_code resp) && (status_code resp <? 300) | _ => false end && default true (head (oks w)).
(** The hold (or resume) of an event that the NGN takes: the call, and whether it is held. *)
Definition hold_taken (ev : WebEvent) (w : world) : option (nat * bool) :=
  match ev with
  | WvHoldGo i => h ← holds (shared w) !! i; _ ← entries (shared w) !! ho_entry h; if ngn_takes w then Some (ho_entry h, ho_hold h) else None
  | _ => None
  end.
Fixpoint holds_taken (evs : list WebEvent) (w : world) : list (nat * bool) :=
  match evs with [] => [] | ev :: evs => option_list (hold_taken ev w) ++ holds_taken evs (step cfg w ev) end.
(** The last of them for a call. *)
Fixpoint last_taken (l : list (nat * bool)) (id : nat) : option bool :=
  match l with
  | [] => None
  | (i, d) :: l => match last_taken l id with Some d' => Some d' | None => if decide (i = id) then Some d else None end
  end.

(** The numbers of the requests in the dialogs that the NGN's answers bring. *)
Definition numbered (ev : WebEvent) : Prop :=
  match ev with WvAnswer _ (Some (Uac.Established call)) _ _ => u32 (local_cseq (Uac.inner (ec_dialog call))) | _ => True end.

Section taken.
(** What the NGN last took of each call. *)
Context (L : nat -> option bool).

(** The offer of the dialog, for what was last taken. *)
Definition agreed (sdp : string) (d : option bool) (e : WebOutEntry) : Prop :=
  match d with
  | None => we_last_ngn_offer_sdp e = sdp /\ we_hold_state e = false
  | Some hold => apply_audio_direction sdp (direction_of hold) = Ok (we_last_ngn_offer_sdp e) /\ we_hold_state e = hold
  end.

Record offers_ok (w : world) : Prop := {
  oo_tasks : forall id t, web_tasks (shared w) !! id = Some t -> offered w id (wt_sdp t);
  oo_entries : forall id e, entries (shared w) !! id = Some e -> u32 (local_cseq (Uac.inner (we_dialog e))) /\
    exists sdp, offered w id sdp /\ agreed sdp (L id) e;
  oo_last : forall id, is_Some (L id) -> is_Some (entries (shared w) !! id);
  oo_holds : forall h, h ∈ holds (shared w) -> exists sdp, offered w (ho_entry h) sdp /\ apply_audio_direction sdp (direction_of (ho_hold h)) = Ok (ho_offer h) }.

(** What was offered once stays offered; [P]: what is known to have been. *)
Definition grows (P : list (nat * string)) (w w' : world) : Prop := offers_ok w -> (forall id sdp, (id, sdp) ∈ P -> offered w id sdp) ->
  offers_ok w' /\ forall id sdp, offered w id sdp -> offered w' id sdp.
#[local] Instance grows_preorder P : PreOrder (grows P).
Proof.
  split; [by intros w|]. intros a b c H1 H2 Ha HP. destruct (H1 Ha HP) as [Hb G1]. destruct (H2 Hb) as [Hc G2]; [by intros id sdp H; apply G1, HP|]. split; [done|]. intros id sdp H. by apply G2, G1.
Qed.
Abbreviation growing P := (follows (grows P)).

(** Steps that only write, and steps on the other parts of the state. *)
Lemma grows_outs P w s' os' (H1 : web_tasks s' = web_tasks (shared w)) (H2 : entries s' = entries (shared w)) (H3 : holds s' = holds (shared w)) :
  (forall o, o ∈ outs w -> o ∈ os') -> forall oks' answers' rnds', grows P w (mkWorld s' oks' answers' rnds' os').
Proof.
  intros Ho oks' answers' rnds' [A1 A2 A3 A4] _.
  assert (forall id sdp, offered w id sdp -> offered (mkWorld s' oks' answers' rnds' os') id sdp) as Hg by (intros id sdp (plan & Hin & Hb); exists plan; split; [by apply Ho | done]).
  split; [split; cbn; rewrite ?H1, ?H2, ?H3|done].
  - intros id t Ht. by apply Hg, A1.
  - intros id e He. destruct (A2 id e He) as (Hu & sdp & Hs & Hcase). split; [done|]. exists sdp. split; [by apply Hg | done].
  - exact A3.
  - intros h Hh. destruct (A4 h Hh) as (sdp & Hs & Hcase). exists sdp. split; [by apply Hg | done].
Qed.
Lemma growing_modify P (f : WebState -> WebState) : (forall s, web_tasks (f s) = web_tasks s /\ entries (f s) = entries s /\ holds (f s) = holds s) -> growing P (modify f).
Proof. intros Hf w. destruct (Hf (shared w)) as (H1 & H2 & H3). by apply grows_outs. Qed.
Lemma growing_emit P o : growing P (emit o).
Proof. intros w. apply grows_outs; [done..|]. intros o' Ho. apply elem_of_app. by left. Qed.
Lemma growing_accepted P : growing P accepted.
Proof. intros w. by apply grows_outs. Qed.
Lemma growing_awaited P : growing P awaited.
Proof. intros w. by apply grows_outs. Qed.
Lemma growing_draw P : growing P draw.
Proof. intros w. by apply grows_outs. Qed.
Lemma growing_each P {A} (f : A -> handling unit) l : (forall a, growing P (f a)) -> growing P (each f l).
Proof. intros Hf. induction l; cbn [each]; eauto with frame typeclass_instances. Qed.
Lemma growing_untask P id : growing P (modify (set_web_tasks (delete id))).
Proof.
  intros w [A1 A2 A3 A4] _. split; [|done]. split; [|exact A2 | exact A3 | exact A4]. cbn. intros i t [_ Hi]%lookup_delete_Some. by apply A1.
Qed.
Lemma growing_dropped_hold P i : growing P (modify (set_holds (delete i))).
Proof.
  intros w [A1 A2 A3 A4] _. split; [|done]. split; [exact A1 | exact A2 | exact A3 |]. cbn. intros h Hh. apply A4.
  apply list_elem_of_lookup in Hh as [j Hj]. destruct (decide (j < i)%nat) as [Hlt | Hge].
  - rewrite list_lookup_delete_lt in Hj by done. by eapply list_elem_of_lookup_2.
  - rewrite list_lookup_delete_ge in Hj by lia. by eapply list_elem_of_lookup_2.
Qed.
(** The dialog of an entry moves on, its offer does not. *)
Lemma growing_set_dialog P id ud : u32 (local_cseq (Uac.inner ud)) -> growing P (set_dialog id ud).
Proof.
  intros Hu w [A1 A2 A3 A4] _. split; [|done]. split; [exact A1 | | | exact A4]; cbn.
  - intros i e He. apply lookup_alter_Some in He as [(<- & e0 & He & ->) | [_ He]]; apply A2 in He; [|done]. by destruct He as [_ He].
  - intros i Hi%A3. by rewrite lookup_alter_is_Some.
Qed.

Create HintDb grow.
#[local] Hint Resolve follows_ret follows_bind follows_attempt follows_get follows_from_outcome follows_fail : grow.
#[local] Hint Resolve growing_modify growing_emit growing_accepted growing_awaited growing_draw growing_each growing_untask growing_dropped_hold growing_set_dialog : grow.
Ltac grow := follow_steps ltac:(eauto with grow typeclass_instances).

Lemma growing_perform P {A} (p : prog A) : growing P (perform WebNgnSent p).
Proof. induction p as [r | req dest k IH | req dest k IH]; cbn [perform]; grow. Qed.
Lemma growing_task P id t : (id, wt_sdp t) ∈ P -> growing P (modify (set_web_tasks (<[id := t]>))).
Proof.
  intros Hin w [A1 A2 A3 A4] HP. split; [|done]. split; [|exact A2 | exact A3 | exact A4]. cbn. intros i u [[<- <-] | [_ Hi]]%lookup_insert_Some; [|by apply A1].
  by apply (HP id (wt_sdp t)).
Qed.
Lemma growing_entry P id ud ws b sdp : (id, sdp) ∈ P -> L id = None -> u32 (local_cseq (Uac.inner ud)) ->
  growing P (modify (set_entries (<[id := mkWebOut ud ws b sdp false]>))).
Proof.
  intros Hin HL Hu w [A1 A2 A3 A4] HP. split; [|done]. split; [exact A1 | | | exact A4]; cbn.
  - intros i e [[<- <-] | [_ Hi]]%lookup_insert_Some; [|by apply A2]. split; [done|].
    exists sdp. split; [by apply (HP id sdp) | by rewrite HL].
  - intros i Hi%A3. rewrite lookup_insert_is_Some'. by right.
Qed.
Lemma growing_held P h sdp : (ho_entry h, sdp) ∈ P -> apply_audio_direction sdp (direction_of (ho_hold h)) = Ok (ho_offer h) ->
  growing P (modify (set_holds (fun l => l ++ [h]))).
Proof.
  intros Hin Ha w [A1 A2 A3 A4] HP. split; [|done]. split; [exact A1 | exact A2 | exact A3 |]. cbn. intros h' [Hh | ->%list_elem_of_singleton]%elem_of_app; [by apply A4|].
  exists sdp. split; [by apply (HP (ho_entry h) sdp) | done].
Qed.
#[local] Hint Resolve growing_perform growing_task growing_entry growing_held : grow.

Lemma growing_finish P id t result now : (id, wt_sdp t) ∈ P -> L id = None ->
  (forall call, result = Some (Uac.Established call) -> u32 (local_cseq (Uac.inner (ec_dialog call)))) -> growing P (finish_web_call id t result now).
Proof.
  intros Hin HL Hr. assert (forall b, growing P (stop_bridge b)) as Hsb by (intros; unfold stop_bridge; grow).
  unfold finish_web_call. apply follows_bind; [typeclasses eauto | apply growing_untask |]. intros _. destruct result as [[call | response]|].
  - specialize (Hr call eq_refl). unfold web_established, turn_away, bye_new, push, log_end, count. grow.
  - unfold web_failed, push, log_end, count. grow.
  - unfold web_lost, push, log_end, count. grow.
Qed.

(** *** The events *)

Lemma growing_web_offer P answer sock now_secs : growing P (web_offer answer sock now_secs).
Proof. unfold web_offer. grow. Qed.
(** The call is offered with the body that its task keeps. *)
Lemma growing_start P env target ws peer sock answer sdp aor now : growing P (start_web_call cfg env target ws peer sock answer sdp aor now).
Proof.
  intros w Ho HP. unfold start_web_call. cbv zeta. rewrite bind_get, bind_modify, bind_modify, bind_emit.
  match goal with |- offers_ok (modify _ ?w0).2 /\ _ => set (w1 := w0) end.
  assert (grows P w w1) as Hg by (apply grows_outs; try done; intros o Hin; apply elem_of_app; by left).
  destruct (Hg Ho HP) as [Ho1 Hs1]. set (id := next_web (shared w)).
  assert (growing [(id, sdp)] (modify (set_web_tasks (<[id := mkWebTask (web_target_uri cfg target) ws peer sock sdp answer aor
    (default "" (hdr_get (req_headers (pl_request (build_invite (wc_uac cfg) (we_routes env) (web_target_uri cfg target) (Some sdp) None (we_ids env)))) "call-id")) WebInviting]>)))) as Ht
    by (apply growing_task; by left).
  destruct (Ht w1 Ho1) as [Ho2 Hs2].
  - intros i s Hin%list_elem_of_singleton. injection Hin as -> ->. exists (build_invite (wc_uac cfg) (we_routes env) (web_target_uri cfg target) (Some sdp) None (we_ids env)). split; [|reflexivity]. cbn. apply elem_of_app. right. by left.
  - split; [exact Ho2|]. intros i s H. by apply Hs2, Hs1.
Qed.
#[local] Hint Resolve growing_web_offer growing_start growing_finish : grow.
Lemma growing_offer P env target ws peer now : growing P (handle_pwa_outbound_offer cfg env target ws peer now).
Proof. unfold handle_pwa_outbound_offer, count, push. grow. Qed.
Lemma growing_stop_bridge P b : growing P (stop_bridge b).
Proof. unfold stop_bridge. grow. Qed.
#[local] Hint Resolve growing_offer growing_stop_bridge : grow.
Lemma growing_discard {A} P (m : handling A) : growing P m -> growing P (_ ← m; mret tt).
Proof. intros H. grow. Qed.

(** The offer of a hold goes back to the offer of the INVITE. *)
Lemma redirect sdp d e d' body' : agreed sdp d e -> apply_audio_direction (we_last_ngn_offer_sdp e) d' = Ok body' -> apply_audio_direction sdp d' = Ok body'.
Proof. destruct d as [hold|]; cbn; [intros [H _] H' | by intros [-> _]]. destruct (last_direction_wins _ _ d' _ H) as [Hd _]. by rewrite <- Hd. Qed.

Lemma bump_u32 d : u32 (local_cseq (bump_cseq d)).
Proof. apply wrap_range. done. Qed.
Lemma send_bye_u32 ud r : returns (fun x => u32 (local_cseq (Uac.inner x.2))) (send_bye ud r).
Proof.
  unfold send_bye. destruct (build_op_request (Uac.inner ud) (OpBye r)) as [_ Hd]. cbn [build_op] in Hd. destruct (build_bye _ _) as [bye d].
  cbn [snd] in Hd. subst d. intros [resp|] a [= <-]; apply bump_u32.
Qed.

(** The event of a task whose offer is known. *)
Lemma task_offers {A} (m : handling A) w id t : offers_ok w -> web_tasks (shared w) !! id = Some t -> growing [(id, wt_sdp t)] m -> offers_ok (m w).2.
Proof. intros Ho Ht Hm. apply Hm; [done|]. intros i s Hin%list_elem_of_singleton. injection Hin as -> ->. by apply Ho. Qed.
Lemma any_offers {A} (m : handling A) w : offers_ok w -> growing [] m -> offers_ok (m w).2.
Proof. intros Ho Hm. apply Hm; [done|]. intros i s H. by apply not_elem_of_nil in H. Qed.

Lemma bye_dialog_offers i now w : offers_ok w -> offers_ok (close_next_outbound cfg i now w).2.
Proof.
  intros Ho. unfold close_next_outbound. rewrite bind_get. destruct (web_closing (shared w) !! i) as [[cid id]|]; [|done].
  destruct (entries (shared w) !! id) as [e|] eqn:He; [|done]. apply any_offers; [done|].
  apply follows_bind; [typeclasses eauto | grow |]. intros _. apply follows_bind; [typeclasses eauto | grow |]. intros r.
  apply (follows_bind_post _ (fun res => forall a, res = Ok a -> u32 (local_cseq (Uac.inner a.2)))); [grow | |].
  - intros w0 res Hres. exact (perform_returns WebNgnSent _ _ w0 res (send_bye_u32 (we_dialog e) r) Hres).
  - intros res Hu. apply (follows_bind_post _ (fun a => u32 (local_cseq (Uac.inner a.2)))); [grow | |].
    + intros w0 a Ha. apply Hu. destruct res; [by injection Ha as -> | done..].
    + intros [res' ud] Hud. cbn in Hud. unfold count, log_end. grow.
Qed.
Lemma ngn_bye_offers cid now w : offers_ok w -> offers_ok (ngn_bye_outbound cid now w).2.
Proof.
  intros Ho. unfold ngn_bye_outbound. rewrite bind_get. destruct (webrtc_outbound_active (shared w) !! cid) as [id|]; [|done].
  apply any_offers; [done|]. destruct (entries (shared w) !! id) as [e|] eqn:He; [|grow].
  assert (u32 (local_cseq (Uac.inner (set_inner (we_dialog e) (Dialog.terminate (Uac.inner (we_dialog e))))))) by (by apply (oo_entries w Ho id e He)).
  unfold count, log_end. grow.
Qed.
Lemma set_hold_offers c hold w : offers_ok w -> offers_ok (set_hold c hold w).2.
Proof.
  intros Ho. unfold set_hold. rewrite bind_get. destruct (webrtc_outbound_active (shared w) !! c) as [id|]; [|by apply any_offers, growing_emit].
  cbn [mbind option_bind]. destruct (entries (shared w) !! id) as [e|] eqn:He; [|by apply any_offers, growing_emit].
  cbn [mbind option_bind]. destruct (apply_audio_direction _ _) as [offer | |] eqn:Ha; [|done..].
  destruct (oo_entries w Ho id e He) as (_ & sdp & Hs & Hcase). apply (growing_held [(id, sdp)] (mkHold c id hold offer) sdp); [by left | | done |].
  - cbn. by eapply redirect.
  - intros i s Hin%list_elem_of_singleton. by injection Hin as -> ->.
Qed.
Lemma step_offers ev w : offers_ok w -> numbered ev -> (forall id t, web_tasks (shared w) !! id = Some t -> L id = None) ->
  (forall i, ev <> WvHoldGo i) -> offers_ok (step cfg w ev).
Proof.
  intros Ho Hn HL Hev. unfold step. destruct ev as [env target ws peer now | id result nanos now | id closed routes ids now | ws | i now | cid now | c hold | i | c digit | routes ids to body now];
    cbn [handle_event].
  - apply any_offers; [done | grow].
  - rewrite bind_get. destruct (web_tasks (shared w) !! id) as [t|] eqn:Ht; [|done]. apply (task_offers _ _ id t Ho Ht).
    assert ((id, wt_sdp t) ∈ [(id, wt_sdp t)]) by (by left). specialize (HL id t Ht).
    assert (forall now, growing [(id, wt_sdp t)] (finish_web_call id t result now)) by (intros n; apply growing_finish; [done.. | by intros call ->]).
    unfold web_first_answer, web_second_answer, count. grow.
  - rewrite bind_get. destruct (web_tasks (shared w) !! id) as [t|] eqn:Ht; [|done]. apply (task_offers _ _ id t Ho Ht).
    assert ((id, wt_sdp t) ∈ [(id, wt_sdp t)]) by (by left). specialize (HL id t Ht).
    assert (forall r now, growing [(id, wt_sdp t)] (finish_web_call id t (Some (Uac.Failed r)) now)) by (intros r n; by apply growing_finish).
    unfold web_retry_wake, count. grow.
  - apply any_offers; [done|]. unfold close_pwa_outbound. grow.
  - by apply bye_dialog_offers.
  - by apply ngn_bye_offers.
  - by apply set_hold_offers.
  - by destruct (Hev i).
  - apply any_offers; [done|]. unfold inject_dtmf_to_ngn. grow.
  - apply any_offers; [done|]. unfold send_sms. grow.
Qed.
End taken.

(** *** A hold that gets the lock of the dialog *)

Lemma reinvite_answer ud offer r r_ack (w : world) : u32 (local_cseq (Uac.inner ud)) -> exists res ud' w1,
  perform WebNgnSent (send_reinvite ud (Some offer) r r_ack) w = (Ok (Ok (res, ud')), w1) /\
  shared w1 = shared w /\ (forall o, o ∈ outs w -> o ∈ outs w1) /\ u32 (local_cseq (Uac.inner ud')) /\
  if ngn_takes w then exists resp, res = Ok resp /\ is_2xx (status_code resp) = true
  else match res with Ok resp => is_2xx (status_code resp) = false | Err _ => True | Panic => False end.
Proof.
  intros Hu. unfold send_reinvite.
  destruct (build_op_request (Uac.inner ud) (OpReinvite (Some offer) (ud_session_expires ud) MIN_SE r)) as [[_ _ _ Hc _ _] Hd].
  pose proof (build_reinvite_method (Uac.inner ud) (Some offer) (ud_session_expires ud) MIN_SE r) as Hm.
  cbn [build_op] in Hc, Hd. destruct (build_reinvite _ _ _ _ _) as [req d]. cbn [fst snd] in Hc, Hd, Hm. subst d.
  rewrite Hc, Hm. cbn [default id]. change (as_str Invite) with "INVITE". rewrite parse_cseq_written by done.
  pose proof (bump_u32 (Uac.inner ud)) as Hb. unfold ngn_takes. cbn [perform]. unfold mbind, handler_bind. cbn [emit awaited shared oks answers rnds outs].
  destruct (answers w) as [|[resp|] l]; cbn [head default id];
    try (do 3 eexists; split_and!; [done | done | intros o Ho; apply elem_of_app; by left | done..]).
  fold (is_2xx (status_code resp)). destruct (is_2xx (status_code resp)) eqn:H2; cbn [andb perform].
  - unfold mbind, handler_bind. cbn [emit accepted shared oks answers rnds outs].
    destruct (default true (head (oks w))); (do 3 eexists; split_and!; [done | done | intros o Ho; cbn; rewrite !elem_of_app; by do 2 left | done |]); [by exists resp | done].
  - do 3 eexists. split_and!; [done | done | intros o Ho; apply elem_of_app; by left | done..].
Qed.

(** *** The calls of the tasks have no entry yet *)

Definition apart (v : View) : Prop :=
  (forall i, i ∈ v_tasks v -> (i < v_next v)%nat /\ v_entries v !! i = None) /\ forall i, is_Some (v_entries v !! i) -> (i < v_next v)%nat.
Lemma moves_apart tk en v v' : moves tk en v v' -> apart v -> apart v'.
Proof.
  assert (forall b v, v_tasks (ended_bridge b v) = v_tasks v /\ v_next (ended_bridge b v) = v_next v) as He by (intros b v0; unfold ended_bridge; by case_match).
  unfold apart. intros [v0 | v0 | id v0 | id cid b m v0 Hid Hm | id cid v0 | P v0 | i cid id c b v0 Hi Hent | cid id v0 Ht] [A B]; cbn; try done.
  - split; [|intros i Hi; specialize (B i Hi); lia]. intros i [-> %elem_of_singleton | Hi]%elem_of_union; [|destruct (A i Hi); split; [lia | done]].
    split; [lia|]. destruct (v_entries v0 !! v_next v0) eqn:E; [|done]. assert (v_next v0 < v_next v0)%nat by (by apply B). lia.
  - split; [|done]. intros i [Hi _]%elem_of_difference. by apply A.
  - split.
    + intros i [Hi Hne]%elem_of_difference. rewrite elem_of_singleton in Hne. rewrite lookup_insert_ne by done. by apply A.
    + intros i [<- | [_ Hi]]%lookup_insert_is_Some; [by apply A | by apply B].
  - split; [|done]. intros i [Hi _]%elem_of_difference. by apply A.
  - destruct (He b (with_byes [c] (with_closing (delete i) v0))) as [-> ->]. by rewrite ended_entries.
  - destruct (v_entries v0 !! id) as [[c b]|]; cbn; [|done]. destruct (He b (with_table (delete cid) v0)) as [-> ->]. by rewrite ended_entries.
Qed.

(** *** Every event *)

(** What was last taken, after an event. *)
Definition taken_then (o : option (nat * bool)) (L : nat -> option bool) (id : nat) : option bool :=
  match o with Some (i, d) => if decide (i = id) then Some d else L id | None => L id end.

(** The NGN took the offer of a hold. *)
Lemma reoffer L h sdp w : offers_ok L w -> offered w (ho_entry h) sdp -> apply_audio_direction sdp (direction_of (ho_hold h)) = Ok (ho_offer h) ->
  is_Some (entries (shared w) !! ho_entry h) ->
  offers_ok (taken_then (Some (ho_entry h, ho_hold h)) L)
    (modify (set_entries (alter (fun e => mkWebOut (we_dialog e) (we_ws e) (we_bridge_call_id e) (ho_offer h) (ho_hold h)) (ho_entry h))) w).2.
Proof.
  intros [A1 A2 A3 A4] Hs Ha He. split; cbn; [exact A1 | | | exact A4].
  - intros i e Hi. apply lookup_alter_Some in Hi as [(<- & e0 & Hi & ->) | [Hne Hi]]; destruct (A2 _ _ Hi) as (Hu & sdp' & Hs' & Hag); (split; [done|]).
    + exists sdp. split; [done|]. by rewrite decide_True.
    + exists sdp'. split; [done|]. by rewrite decide_False.
  - intros i. rewrite lookup_alter_is_Some. case_decide as Hd; [by subst i | apply A3].
Qed.

Lemma hold_go_offers L i w : offers_ok L w -> offers_ok (taken_then (hold_taken (WvHoldGo i) w) L) (hold_go i w).2.
Proof.
  intros Ho. unfold hold_go. rewrite bind_get. cbn [hold_taken]. destruct (holds (shared w) !! i) as [h|] eqn:Hh; [|done]. cbn [mbind option_bind].
  destruct (oo_holds L w Ho h) as (sdp & Hs & Ha); [by eapply list_elem_of_lookup_2|].
  rewrite bind_modify. assert (offers_ok L (modify (set_holds (delete i)) w).2) as Ho1 by (by apply any_offers, growing_dropped_hold).
  destruct (entries (shared w) !! ho_entry h) as [e|] eqn:He; [|done]. cbn [mbind option_bind].
  pose proof (proj1 (oo_entries L w Ho (ho_entry h) e He)) as Hu.
  do 2 erewrite bind_ok by reflexivity.
  match goal with |- context [perform _ (send_reinvite _ _ ?r ?r_ack) ≫= _] =>
    match goal with |- context [(_ ≫= _) ?w0] => destruct (reinvite_answer (we_dialog e) (ho_offer h) r r_ack w0 Hu) as (res & ud & w2 & Hp & Hsh & Hout & Hu2 & Hres); assert (ngn_takes w0 = ngn_takes w) as Ht by done end end.
  rewrite Ht in Hres. rewrite (bind_ok _ _ _ _ _ Hp). erewrite bind_ok by reflexivity. cbv beta iota.
  assert (offers_ok L w2) as Ho2.
  { destruct w2 as [s2 oks2 answers2 rnds2 outs2]. cbn in Hsh, Hout. subst s2.
    exact (proj1 (grows_outs L [] (modify (set_holds (delete i)) w).2 _ outs2 eq_refl eq_refl eq_refl Hout _ _ _ Ho1 (fun id s Hin => match not_elem_of_nil _ Hin with end))). }
  assert (offered w2 (ho_entry h) sdp) as Hs2 by (destruct Hs as (plan & Hin & Hb); exists plan; split; [by apply Hout | done]).
  rewrite (bind_ok (set_dialog (ho_entry h) ud) _ w2 tt (set_dialog (ho_entry h) ud w2).2 eq_refl). assert (offers_ok L (set_dialog (ho_entry h) ud w2).2) as Ho3 by (by apply any_offers, growing_set_dialog).
  assert (forall L' o w, offers_ok L' w -> offers_ok L' (emit o w).2) as Hemit by (intros; by apply any_offers, growing_emit).
  destruct (ngn_takes w).
  - destruct Hres as (resp & -> & ->). rewrite bind_modify. apply Hemit, reoffer with sdp; [exact Ho3 | exact Hs2 | done |].
    cbn. rewrite Hsh, lookup_alter_is_Some. by exists e.
  - destruct res as [resp | |]; [rewrite Hres | | done]; by apply Hemit.
Qed.

Lemma offers_ext L L' w : (forall id, L id = L' id) -> offers_ok L w -> offers_ok L' w.
Proof.
  intros HL [A1 A2 A3 A4]. split; [done | | | done].
  - intros id e He. rewrite <- HL. by apply A2.
  - intros id. rewrite <- HL. apply A3.
Qed.
Record held (L : nat -> option bool) (w : world) : Prop := { hd_offers : offers_ok L w; hd_apart : apart (view w) }.

Lemma step_held L ev w : held L w -> numbered ev -> held (taken_then (hold_taken ev w) L) (step cfg w ev).
Proof.
  intros [Ho Ha] Hn. split; [|by eapply moves_apart, Ha; apply step_moves].
  assert ((forall i, ev <> WvHoldGo i) \/ exists i, ev = WvHoldGo i) as [Hev | [i ->]] by (destruct ev; eauto).
  - assert (hold_taken ev w = None) as -> by (by destruct ev; try done; edestruct Hev). apply step_offers; [done..| |done].
    intros id t Ht. destruct (L id) eqn:HL; [|done]. assert (is_Some (entries (shared w) !! id)) as [e He] by (apply Ho; by eexists).
    destruct (proj1 Ha id) as [_ H]; [apply elem_of_dom; by eexists|]. cbn in H. by rewrite lookup_fmap, He in H.
  - exact (hold_go_offers L i w Ho).
Qed.

Lemma run_held evs : forall L w, held L w -> Forall numbered evs ->
  held (fun id => match last_taken (holds_taken evs w) id with Some d => Some d | None => L id end) (run cfg w evs).
Proof.
  induction evs as [|ev evs IH]; intros L w Hw Hn; [exact Hw|]. apply Forall_cons in Hn as [Hn Hns].
  pose proof (IH _ _ (step_held L ev w Hw Hn) Hns) as [H1 H2]. split; [|exact H2].
  eapply offers_ext, H1. intros id. cbn [holds_taken]. destruct (hold_taken ev w) as [[i d]|]; cbn; [|done]. destruct (last_taken _ id); [done|]. by case_decide.
Qed.

End offers.

(** ** Samples *)

(** Two calls of two browsers, held and resumed: one ends when its browser goes
    away, the other one by a BYE of the NGN; a third one comes without a bridge. *)
Definition sample_config : WebConfig := mkWebConfig sample_uac default_config None None false.
Definition sample_world : world :=
  mkWorld (web_initial (Some (call_log_new 5)) (Some manager_new) metrics_new None) [] [Some (mkResponse 200 "OK" [] linphone_offer); Some (mkResponse 488 "Not Acceptable Here" [] "")] [] [].
Definition sample_answer : string := "v=0
o=- 7 1 IN IP4 192.168.30.5
s=-
c=IN IP4 192.168.30.5
t=0 0
m=audio 7078 UDP/TLS/RTP/SAVPF 0 101
a=rtpmap:0 PCMU/8000
a=rtpmap:101 telephone-event/8000
a=sendrecv
".
Definition sample_offer (n : Z) (target : string) (ws now : Z) : WebEvent :=
  WvOffer (mkWebEnv None ∅ (mkRoutes None None) (mkIds n n n) (Some sample_answer) true
    (fun _ => Some (mkAddr (V4 118 177 72 238) (40000 + n)))) target ws n (from_secs now).
Definition sample_call (call_id : string) : EstablishedCall :=
  mkEstablished (mkUacDialog (mkDialog (mkDialogId call_id "l" "r") Confirmed "sip:me@ntt" "sip:117@ntt" "sip:117@118.177.125.1" []
    2 "sip:me@118.177.72.238" "118.177.72.238:5060") 1 300 (mkAddr (V4 118 177 125 1) 5060)) (mkResponse 200 "OK" [] linphone_offer).
Definition sample_events : list WebEvent :=
  [sample_offer 1 "117" 1 100;
   WvAnswer 0 (Some (Uac.Established (sample_call "n1"))) 0 0;
   WvHold "n1" true; WvHoldGo 0; WvHold "n1" false;
   sample_offer 2 "118" 2 200;
   WvAnswer 1 (Some (Uac.Failed (mkResponse 503 "Service Unavailable" [] ""))) 0 0;
   WvClose 1; WvHoldGo 0; WvCloseNext 0 (from_secs 300);
   WvWake 1 false (mkRoutes None None) (mkIds 3 3 3) 0;
   WvAnswer 1 (Some (Uac.Established (sample_call "n2"))) 0 0;
   sample_offer 4 "119" 3 400;
   WvAnswer 2 (Some (Uac.Established (mkEstablished (ec_dialog (sample_call "n3")) (mkResponse 200 "OK" [] "")))) 0 0].



(** ** What the code leaves open *)

(** A browser that leaves while its INVITE is pending: the call is established
    for a session that is gone, and no BYE is sent. *)
Lemma left_browser_keeps_call :
  let evs := [sample_offer 1 "117" 1 100; WvClose 1; WvAnswer 0 (Some (Uac.Established (sample_call "n1"))) 0 0; WvClose 2] in
  let w := run sample_config sample_world evs in
  map fst (standing w) = ["n1"] /\ byes w = [] /\ metrics (shared w) call_active = 1.
Proof. by vm_compute. Qed.

(** The call that comes of the second INVITE is logged under the Call-ID of the
    first: its end is not found in the log. *)
Lemma retried_call_stays_open_in_log :
  let evs := [sample_offer 1 "117" 1 100; WvAnswer 0 (Some (Uac.Failed (mkResponse 503 "Service Unavailable" [] ""))) 0 0;
    WvWake 0 false (mkRoutes None None) (mkIds 2 2 2) 0; WvAnswer 0 (Some (Uac.Established (sample_call (new_call_id 2)))) 0 0;
    WvNgnBye (new_call_id 2) (from_secs 300)] in
  let w := run sample_config sample_world evs in
  standing w = [] /\ (map CallLog.outcome ∘ call_entries <$> call_log (shared w)) = Some [None].
Proof. by vm_compute. Qed.

(** The offer of a hold differs from the offer before, with the same version in
    its origin (RFC 3264, 8: it must be incremented by one). *)
Lemma hold_keeps_version :
  let evs := [sample_offer 1 "117" 1 100; WvAnswer 0 (Some (Uac.Established (sample_call "n1"))) 0 0; WvHold "n1" true; WvHoldGo 0] in
  let version (n : nat) := match entries (shared (run sample_config sample_world (take n evs))) !! 0%nat with
    | Some e => match parse_body (we_last_ngn_offer_sdp e) with Ok s => Some (o_session_version (s_origin s), we_last_ngn_offer_sdp e) | _ => None end
    | None => None
    end in
  fst <$> version 2%nat = Some 2 /\ fst <$> version 4%nat = Some 2 /\ snd <$> version 2%nat <> snd <$> version 4%nat.
Proof. split; [by vm_compute|]. split; [by vm_compute|]. intros H. vm_compute in H. discriminate H. Qed.
