(* ===== verification/Tasks.v ===== *)
(** Asynchronous functions as programs: what a task still has to do between the
    points where another task can run. The calls it awaits are values [Op], and
    the type of what a call returns depends on it ([answer]).

    [leads] is the logic of such programs: which calls they make, and what holds at
    the end, from what the calls returned. *)
From S2P Require Import Prelude.

Section tasks.
Context {Op : Type} (answer : Op -> Type).

Inductive task (A : Type) : Type :=
  | Fin (a : A)
  | Do (op : Op) (k : answer op -> task A).
End tasks.
Arguments Fin {Op answer A} a.
Arguments Do {Op answer A} op k.

Section programs.
Context {Op : Type} {answer : Op -> Type}.

#[export] Instance task_ret : MRet (task answer) := fun A a => Fin a.
#[export] Instance task_bind : MBind (task answer) := fun A B f =>
  fix go t := match t with Fin a => f a | Do op k => Do op (fun x => go (k x)) end.
Definition call (op : Op) : task answer (answer op) := Do op Fin.
Definition perhaps (b : bool) (op : Op) : task answer unit := if b then Do op (fun _ => Fin tt) else Fin tt.

(** ** What a program does *)

(** [leads Q b t]: from [b], and whatever its calls return, the program ends with
    a value as [Q] says; [after] is what a call and its answer make of [b], when the
    call is [allowed]. *)
Section leads.
Context {B : Type} (allowed : B -> Op -> Prop) (after : forall op, answer op -> B -> B).
Fixpoint leads {A} (Q : B -> A -> Prop) (b : B) (t : task answer A) : Prop :=
  match t with
  | Fin a => Q b a
  | Do op k => allowed b op /\ forall x, leads Q (after op x b) (k x)
  end.
Lemma leads_do {A} (Q : B -> A -> Prop) b op k : allowed b op -> (forall x, leads Q (after op x b) (k x)) -> leads Q b (Do op k).
Proof. done. Qed.
Lemma leads_fin {A} (Q : B -> A -> Prop) b a : Q b a -> leads Q b (Fin a).
Proof. done. Qed.
Lemma leads_bind {A C} (Q : B -> C -> Prop) (R : B -> A -> Prop) b (t : task answer A) (f : A -> task answer C) :
  leads R b t -> (forall b a, R b a -> leads Q b (f a)) -> leads Q b (t ≫= f).
Proof.
  intros Ht Hf. revert b Ht. induction t as [a | op k IH]; intros b; cbn; [apply Hf|]. intros [Ha Hk]. split; [done|]. intros x. by apply IH.
Qed.
Lemma leads_mono {A} (Q R : B -> A -> Prop) b (t : task answer A) : (forall b a, Q b a -> R b a) -> leads Q b t -> leads R b t.
Proof. intros H. revert b. induction t as [a | op k IH]; intros b; cbn; [apply H|]. intros [Ha Hk]. split; [done|]. intros x. by apply IH. Qed.
End leads.

(** ** What was done *)

(** A call with what it returned; a history of them, to which one is added; and
    what a history holds of one kind. *)
Definition done_call : Type := { op : Op & answer op }.
Definition did (op : Op) (x : answer op) : done_call := existT op x.
Definition remember (op : Op) (x : answer op) (h : list done_call) : list done_call := h ++ [did op x].
Definition pick {A} (f : forall op, answer op -> option A) (h : list done_call) : list A :=
  omap (fun c : done_call => f (projT1 c) (projT2 c)) h.
Lemma pick_app {A} (f : forall op, answer op -> option A) h g : pick f (h ++ g) = pick f h ++ pick f g.
Proof. apply omap_app. Qed.

(** What one of several tasks did. *)
Definition of_task (l : list (nat * done_call)) (id : nat) : list done_call :=
  omap (fun p : nat * done_call => if Nat.eqb p.1 id then Some p.2 else None) l.
Lemma of_task_snoc l id c id' : of_task (l ++ [(id, c)]) id' = if decide (id' = id) then of_task l id ++ [c] else of_task l id'.
Proof.
  unfold of_task. rewrite omap_app. cbn. case_decide as Hd.
  - subst. by rewrite Nat.eqb_refl.
  - apply Nat.eqb_neq in Hd. rewrite Nat.eqb_sym, Hd. by rewrite app_nil_r.
Qed.
Lemma pick_snoc {A} (f : forall op, answer op -> option A) l id c id' :
  pick f (of_task (l ++ [(id, c)]) id') = pick f (of_task l id') ++ (if decide (id' = id) then pick f [c] else []).
Proof. rewrite of_task_snoc. case_decide; [subst; by rewrite pick_app | by rewrite app_nil_r]. Qed.
End programs.
Arguments done_call {Op} answer.

Lemma elem_of_added {A} (a : A) (l k : list A) (P : Prop) `{!Decision P} : a ∈ l ++ (if decide P then k else []) <-> a ∈ l \/ (P /\ a ∈ k).
Proof. rewrite elem_of_app. case_decide; [tauto|]. rewrite elem_of_nil. tauto. Qed.

(** Through a program, call by call; [open] unfolds what it is made of. *)
Ltac leads_step open :=
  match goal with
  | |- leads _ _ _ _ ?t => lazymatch t with
    | Do _ _ => apply leads_do; [|let x := fresh "x" in intros x]
    | Fin _ => apply leads_fin
    | match negb ?x with _ => _ end => destruct x; cbn [negb]
    | match ?x with _ => _ end => destruct x eqn:?
    | _ (match ?x with _ => _ end) => destruct x eqn:?
    | _ (_ (match ?x with _ => _ end)) => destruct x eqn:?
    | _ => progress open
    end
  end.
Ltac leads_walk open := repeat leads_step open.
