(* ===== verification/Signaling.v ===== *)
(** The sessions of the browsers (src/src/webrtc/signaling.rs): the WebSocket
    behind a token, its messages, the writer and the keepalive task, and the end.

    A session has three tasks: the loop that receives, the task that writes what
    is queued, and the keepalive task. Between two awaits any other task can run,
    those of the other sessions too, so what the loop does with a frame is a
    program whose calls are single steps of the world ([task]); the calls that
    leave this file are outputs, with what they return as inputs. The three tasks
    wake each other through a [Notify] of tokio, which is modelled with its one
    permit and its waiters.

    The forms of the JSON frames and the texts of the errors of others are
    arguments. That the channel of a session ends when all its senders are gone is
    left out: the writer ends when a write fails. *)
From S2P Require Import Prelude RustStr Utf8 NetAddr Registrar Fork Tokens BrowserCalls Tasks.

(** ** The messages *)

Inductive ClientMessage :=
  | CmRegister (ext_id : string)
  | CmOffer (sdp : string) (target : option string)
  | CmAnswer (call_id sdp : string)
  | CmDecline (call_id : string)
  | CmIce (candidate : string)
  | CmHold (call_id : string)
  | CmUnhold (call_id : string)
  | CmDtmf (call_id digit : string)
  | CmRecordStart (call_id : string)
  | CmRecordStop (call_id : string)
  | CmPushSubscribe (endpoint p256dh auth : string)
  | CmSendSms (to body : string)
  | CmBye.

Inductive ServerMessage :=
  | SmRegistered (ext_id : string)
  | SmAnswer (sdp : string)
  | SmOffer (call_id sdp : string)
  | SmCancel (call_id : string)
  | SmIce (candidate : string)
  | SmError (code message : string)
  | SmHeld (call_id : string)
  | SmUnheld (call_id : string)
  | SmRecordingStarted (call_id recording_id : string)
  | SmRecordingStopped (recording_id : string) (duration_ms : Z)
  | SmPushSubscribed (endpoint : string)
  | SmSmsSent (status : Z)
  | SmBye.

Inductive RecordingControlError := Unavailable | AlreadyRecording | NoSuchCall | Internal (reason : string).

(** [SignalingState]: which handlers are connected, and the times. *)
Record SignalingState := mkSignaling {
  si_secret : list Z; register_ttl : Z; keepalive_interval : Z; idle_timeout : Z;
  pwa_outbound : bool; pwa_outbound_closer : bool; pwa_inbound_closer : bool; pwa_hold_handler : bool;
  pwa_dtmf : bool; pwa_record : bool; pwa_push : bool; pwa_sms : bool }.

(** ** The calls of a session *)

Inductive Op :=
  (* on the state of this file *)
  | OpRegister (aor contact_uri : string)
  | OpUnregister (aor : string)
  | OpDeliver (call_id sdp : string)
  | OpDecline (call_id : string) (status : Z)
  | OpCancelAll
  | OpSend (m : ServerMessage)
  | OpNotify
  (* on the peer of the browser and on the handlers *)
  | OpHandleOffer (sdp : string)
  | OpAddIce (candidate : string)
  | OpPeerClose
  | OpPwaOutbound (target sdp : string)
  | OpSetHold (call_id : string) (hold : bool)
  | OpInjectDtmf (call_id digit : string)
  | OpStartRecording (call_id : string)
  | OpStopRecording (call_id : string)
  | OpUpsertSubscription (aor endpoint p256dh auth : string)
  | OpSendSms (to body : string)
  | OpCloseOutbound
  | OpCloseInbound.

(** What they return; the string of an error is its text. *)
Definition answer (op : Op) : Type :=
  match op with
  | OpRegister _ _ | OpUnregister _ | OpNotify | OpPeerClose | OpCancelAll | OpCloseOutbound | OpCloseInbound => unit
  | OpDeliver _ _ | OpDecline _ _ | OpSend _ => bool
  | OpHandleOffer _ | OpPwaOutbound _ _ => string + string
  | OpAddIce _ | OpUpsertSubscription _ _ _ _ => option string
  | OpSetHold _ _ => option (HoldError * string)
  | OpInjectDtmf _ _ => option bool
  | OpStartRecording _ => string + RecordingControlError
  | OpStopRecording _ => (string * Z) + RecordingControlError
  | OpSendSms _ _ => SmsSendOutcome + string
  end.

(** What the loop of a session still has to do. *)
Abbreviation task := (Tasks.task answer).

(** ** The token *)

Definition is_blank (c : ascii) : bool := Ascii.eqb c " " || Ascii.eqb c "009".
Definition parse_bearer (header_value : string) : option string :=
  let trimmed := trim_start header_value in
  let scheme := take_while (fun c => negb (is_blank c)) trimmed in
  let rest := drop_while (fun c => negb (is_blank c)) trimmed in
  if String.eqb rest "" then None
  else if negb (eq_ignore_ascii_case scheme "Bearer") then None
  else
    let token := drop_while is_blank rest in
    if String.eqb token "" then None else Some token.
(** The header, if it is text, and the query. *)
Definition extract_token (authorization token : option string) : option string :=
  match h ← authorization; parse_bearer h with
  | Some tok => Some tok
  | None => option_filter (fun s => negb (String.eqb s "")) token
  end.

(** ** One message *)

Inductive SessionAction := Reply (m : ServerMessage) | Continue | Close.

Definition is_valid_dial_target (target : string) : bool :=
  negb (String.eqb target "") && (String.length target <=? 32)%nat &&
  all_chars (fun c => is_ascii_digit c || Ascii.eqb c "*" || Ascii.eqb c "#" || Ascii.eqb c "+") target.

Definition is_end_of_candidates (candidate : string) : bool :=
  let trimmed := trim candidate in
  String.eqb trimmed "" || String.eqb trimmed "end-of-candidates" || String.eqb trimmed "a=end-of-candidates".

(** [chars().count()]: the bytes that begin a character. *)
Fixpoint chars_count (s : string) : nat :=
  match s with EmptyString => 0%nat | String c s => if is_cont c then chars_count s else S (chars_count s) end.

Definition SMS_BODY_MAX_BYTES : nat := 1024.
(** The loop that goes back to a character boundary. *)
Fixpoint floor_boundary (s : string) (end_ : nat) : nat :=
  match end_ with
  | O => O
  | S e => if boundary (str_drop end_ s) then end_ else floor_boundary s e
  end.
Definition truncate_sms (body : string) : string :=
  if (SMS_BODY_MAX_BYTES <? String.length body)%nat then str_take (floor_boundary body SMS_BODY_MAX_BYTES) body else body.

Section session.
Context (st : SignalingState) (claims : AuthClaims).

(** [Hold] and [Unhold]. *)
Definition hold_message (call_id : string) (hold : bool) : task SessionAction :=
  if negb (pwa_hold_handler st) then mret (Reply (SmError "hold_unavailable" "PWA hold ハンドラが未配線"))
  else
    res ← call (OpSetHold call_id hold);
    mret match res with
      | None => Reply (if hold then SmHeld call_id else SmUnheld call_id)
      | Some (UnknownCallId, _) => Reply (SmError "unknown_call_id" ("no active outbound call for call_id=" +:+ call_id))
      | Some (BrowserCalls.Rejected status, _) =>
          if hold then Reply (SmError "hold_rejected" ("NGN rejected hold Re-INVITE with status " +:+ print_uint status))
          else Reply (SmError "unhold_rejected" ("NGN rejected unhold Re-INVITE with status " +:+ print_uint status))
      | Some (TransportFailed, reason) => Reply (SmError (if hold then "hold_failed" else "unhold_failed") reason)
      end.

Definition record_start_message (call_id : string) : task SessionAction :=
  if negb (pwa_record st) then mret (Reply (SmError "recording_unavailable" "PWA record ハンドラが未配線"))
  else
    res ← call (OpStartRecording call_id);
    mret match res with
      | inl recording_id => Reply (SmRecordingStarted call_id recording_id)
      | inr Unavailable => Reply (SmError "recording_unavailable" "recording 機能が無効")
      | inr AlreadyRecording => Reply (SmError "already_recording" ("call_id=" +:+ call_id +:+ " は既に録音中"))
      | inr NoSuchCall => Reply (SmError "unknown_call_id" ("no active call for call_id=" +:+ call_id))
      | inr (Internal reason) => Reply (SmError "recording_failed" reason)
      end.
Definition record_stop_message (call_id : string) : task SessionAction :=
  if negb (pwa_record st) then mret (Reply (SmError "recording_unavailable" "PWA record ハンドラが未配線"))
  else
    res ← call (OpStopRecording call_id);
    mret match res with
      | inl (recording_id, duration_ms) => Reply (SmRecordingStopped recording_id duration_ms)
      | inr Unavailable => Reply (SmError "recording_unavailable" "recording 機能が無効")
      | inr NoSuchCall => Reply (SmError "unknown_call_id" ("no active recording for call_id=" +:+ call_id))
      | inr AlreadyRecording => Reply (SmError "recording_failed" "unexpected already_recording on stop")
      | inr (Internal reason) => Reply (SmError "recording_failed" reason)
      end.

Definition offer_message (sdp : string) (target : option string) : task SessionAction :=
  match target with
  | Some target =>
      if negb (is_valid_dial_target target) then mret (Reply (SmError "invalid_target" "target must match [0-9*#+]{1,32}"))
      else if negb (pwa_outbound st) then mret (Reply (SmError "outbound_unavailable" "PWA→NGN 発信ハンドラが未配線"))
      else
        res ← call (OpPwaOutbound target sdp);
        mret match res with inl savpf_answer => Reply (SmAnswer savpf_answer) | inr e => Reply (SmError "outbound_failed" e) end
  | None =>
      res ← call (OpHandleOffer sdp);
      mret match res with inl ans => Reply (SmAnswer ans) | inr e => Reply (SmError "offer_failed" e) end
  end.

Definition sms_message (to body : string) : task SessionAction :=
  if negb (is_valid_dial_target to) then mret (Reply (SmError "invalid_target" "SMS の宛先が無効"))
  else
    let body_trim := truncate_sms body in
    if negb (pwa_sms st) then mret (Reply (SmError "sms_unavailable" "SMS 機能が無効"))
    else
      res ← call (OpSendSms to body_trim);
      mret match res with
        | inl (BrowserCalls.Sent status) => Reply (SmSmsSent status)
        | inl (SmsRejected status) => Reply (SmError "sms_rejected" ("SMS が拒否されました (status=" +:+ print_uint status +:+ ")"))
        | inr e => Reply (SmError "sms_failed" e)
        end.

(** [process_client_message]; [aor] is what the session has registered, before and
    after. *)
Definition process_client_message (msg : ClientMessage) (aor : option string) : task (SessionAction * option string) :=
  match msg with
  | CmRegister id =>
      if negb (String.eqb id (ext_id claims)) then mret (Reply (SmError "ext_id_mismatch" ("token issued for " +:+ ext_id claims)), aor)
      else
        call (OpRegister id ("sip:" +:+ id +:+ "@webrtc.peer")) ;;
        mret (Reply (SmRegistered id), Some id)
  | CmOffer sdp target => a ← offer_message sdp target; mret (a, aor)
  | CmAnswer call_id sdp =>
      delivered ← call (OpDeliver call_id sdp);
      mret (if (delivered : bool) then Continue else Reply (SmError "unknown_call_id" ("no pending offer for call_id=" +:+ call_id)), aor)
  | CmDecline call_id => call (OpDecline call_id 603) ;; mret (Continue, aor)
  | CmIce candidate =>
      if is_end_of_candidates candidate then mret (Continue, aor)
      else
        res ← call (OpAddIce candidate);
        mret (match res with None => Continue | Some e => Reply (SmError "ice_failed" e) end, aor)
  | CmHold call_id => a ← hold_message call_id true; mret (a, aor)
  | CmUnhold call_id => a ← hold_message call_id false; mret (a, aor)
  | CmDtmf call_id digit =>
      let trimmed := trim digit in
      if negb (chars_count trimmed =? 1)%nat || negb (pwa_dtmf st) then mret (Continue, aor)
      else call (OpInjectDtmf call_id trimmed) ;; mret (Continue, aor)
  | CmRecordStart call_id => a ← record_start_message call_id; mret (a, aor)
  | CmRecordStop call_id => a ← record_stop_message call_id; mret (a, aor)
  | CmPushSubscribe endpoint p256dh auth =>
      if negb (pwa_push st) then mret (Reply (SmError "push_unavailable" "push 機能が未配線 (config [push] enabled?)"), aor)
      else
        res ← call (OpUpsertSubscription (ext_id claims) endpoint p256dh auth);
        mret (Reply match res with None => SmPushSubscribed endpoint | Some e => SmError "invalid_subscription" e end, aor)
  | CmSendSms to body => a ← sms_message to body; mret (a, aor)
  | CmBye =>
      perhaps (pwa_outbound_closer st) OpCloseOutbound ;;
      match aor with Some a => call (OpUnregister a) | None => mret tt end ;;
      call OpPeerClose ;;
      mret (Reply SmBye, None)
  end.

(** ** The loop that receives *)

Context (from_json : string -> ClientMessage + string).

(** The rest of a turn: what is registered then, and whether the loop goes on. *)
Definition take_text (text : string) (aor : option string) : task (option string * bool) :=
  match from_json text with
  | inr e => call (OpSend (SmError "bad_json" e)) ;; mret (aor, true)
  | inl msg =>
      '(action, aor) ← process_client_message msg aor;
      match action with
      | Reply sm => sent ← call (OpSend sm); mret (aor, (sent : bool) && match sm with SmBye => false | _ => true end)
      | Continue => mret (aor, true)
      | Close => mret (aor, false)
      end
  end.

(** What follows the loop in [run_session]. *)
Definition close_session (aor : option string) : task unit :=
  call OpNotify ;;
  perhaps (pwa_outbound_closer st) OpCloseOutbound ;;
  perhaps (pwa_inbound_closer st) OpCloseInbound ;;
  call OpCancelAll ;;
  match aor with Some a => call (OpUnregister a) | None => mret tt end ;;
  call OpPeerClose.
End session.

(** ** Waking each other *)

Inductive Waiter := TheLoop | TheKeepalive.
#[export] Instance waiter_eq_dec : EqDecision Waiter.
Proof. solve_decision. Defined.

(** A [Notify]: a stored permit, who is queued, and who was woken and has not
    noticed yet. *)
Record Notify := mkNotify { nt_permit : bool; nt_queue : list Waiter; nt_woken : list Waiter }.
Definition notify_new : Notify := mkNotify false [] [].
Definition notify_one (n : Notify) : Notify :=
  match nt_queue n with
  | w :: q => mkNotify (nt_permit n) q (nt_woken n ++ [w])
  | [] => mkNotify true [] (nt_woken n)
  end.
(** The future [notified()] is polled: whether it is ready. *)
Definition notified (w : Waiter) (n : Notify) : bool * Notify :=
  if decide (w ∈ nt_woken n) then (true, mkNotify (nt_permit n) (nt_queue n) (List.filter (fun x => negb (bool_decide (x = w))) (nt_woken n)))
  else if decide (w ∈ nt_queue n) then (false, n)
  else if nt_permit n then (true, mkNotify false (nt_queue n) (nt_woken n))
  else (false, mkNotify false (nt_queue n ++ [w]) (nt_woken n)).
(** It is dropped: a notification it has not noticed goes to another. *)
Definition drop_notified (w : Waiter) (n : Notify) : Notify :=
  let without := List.filter (fun x => negb (bool_decide (x = w))) in
  if decide (w ∈ nt_woken n) then notify_one (mkNotify (nt_permit n) (nt_queue n) (without (nt_woken n)))
  else mkNotify (nt_permit n) (without (nt_queue n)) (nt_woken n).

(** ** The sessions *)

Inductive LoopPhase :=
  | Receiving
  | Working (t : task (option string * bool))
  | Closing (t : task unit)
  | Ended.
(** The keepalive task: in its select, with a ping under way, or ended, because it
    was notified or by itself. *)
Inductive KeepPhase := KeepSelecting | KeepPinging | KeepNotified | KeepStopped.

(** The [aor] is what the session has registered. The writer holds the messages that are queued, until
    a write fails. *)
Record Session := mkSession {
  sn_claims : AuthClaims; sn_remote : SocketAddr; sn_aor : option string; sn_loop : LoopPhase; sn_keep : KeepPhase;
  sn_notify : Notify; sn_writer : option (list ServerMessage); sn_last_recv : Z }.

Inductive Output :=
  | Refused (text : string)
  | Opened (ws : Z)
  | Wrote (ws : Z) (m : ServerMessage)
  | WrotePong (ws : Z)
  | WrotePing (ws : Z)
  | WroteClose (ws : Z) (code : Z) (reason : string)
  | Called (ws : Z) (op : Op).

(** The sessions are numbered; the handles of a session are known by its number. *)
Record World := mkWorld {
  w_registrar : ExtensionRegistrar; w_pending : PendingAnswers; w_sessions : gmap Z Session; w_next : Z; w_outs : list Output }.
Definition with_session (ws : Z) (s : Session) (w : World) : World :=
  mkWorld (w_registrar w) (w_pending w) (<[ws := s]> (w_sessions w)) (w_next w) (w_outs w).
Definition with_registrar (r : ExtensionRegistrar) (w : World) : World := mkWorld r (w_pending w) (w_sessions w) (w_next w) (w_outs w).
Definition with_pending (p : PendingAnswers) (w : World) : World := mkWorld (w_registrar w) p (w_sessions w) (w_next w) (w_outs w).
Definition out (o : Output) (w : World) : World := mkWorld (w_registrar w) (w_pending w) (w_sessions w) (w_next w) (w_outs w ++ [o]).

Definition set_loop (l : LoopPhase) (s : Session) : Session :=
  mkSession (sn_claims s) (sn_remote s) (sn_aor s) l (sn_keep s) (sn_notify s) (sn_writer s) (sn_last_recv s).
Definition set_keep (k : KeepPhase) (s : Session) : Session :=
  mkSession (sn_claims s) (sn_remote s) (sn_aor s) (sn_loop s) k (sn_notify s) (sn_writer s) (sn_last_recv s).
Definition set_notify (n : Notify) (s : Session) : Session :=
  mkSession (sn_claims s) (sn_remote s) (sn_aor s) (sn_loop s) (sn_keep s) n (sn_writer s) (sn_last_recv s).
Definition set_writer (q : option (list ServerMessage)) (s : Session) : Session :=
  mkSession (sn_claims s) (sn_remote s) (sn_aor s) (sn_loop s) (sn_keep s) (sn_notify s) q (sn_last_recv s).
Definition set_last_recv (t : Z) (s : Session) : Session :=
  mkSession (sn_claims s) (sn_remote s) (sn_aor s) (sn_loop s) (sn_keep s) (sn_notify s) (sn_writer s) t.
Definition set_aor (a : option string) (s : Session) : Session :=
  mkSession (sn_claims s) (sn_remote s) a (sn_loop s) (sn_keep s) (sn_notify s) (sn_writer s) (sn_last_recv s).

(** A message is queued for a browser; whether its writer is still there. *)
Definition ws_send (ws : Z) (m : ServerMessage) (w : World) : bool * World :=
  match w_sessions w !! ws with
  | Some s =>
      match sn_writer s with
      | Some q => (true, with_session ws (set_writer (Some (q ++ [m])) s) w)
      | None => (false, w)
      end
  | None => (false, w)
  end.
Definition ws_notify (ws : Z) (w : World) : World :=
  match w_sessions w !! ws with Some s => with_session ws (set_notify (notify_one (sn_notify s)) s) w | None => w end.

(** What a frame is to the loop. *)
Inductive Frame := FrText (t : string) | FrPing | FrPong | FrOther | FrClose | FrError | FrNone.

Section sessions.
Context (st : SignalingState) (from_json : string -> ClientMessage + string).
Context (hmac : list Z -> string -> list Z) (b64_decode : string -> option (list Z)).

(** One call of the session [ws]; [others] is what the other parties return. *)
Definition exec (ws : Z) (s : Session) (now : Z) (others : forall op, answer op) (op : Op) (w : World) : answer op * World :=
  match op with
  | OpRegister aor contact => (tt, with_registrar (register_with_transport (w_registrar w) aor contact (sn_remote s) (register_ttl st) (WebRtc ws ws ws) now) w)
  | OpUnregister aor => (tt, with_registrar (unregister (w_registrar w) aor) w)
  | OpDeliver cid sdp => let '(ok, p) := deliver (w_pending w) ws cid sdp in (ok, with_pending p w)
  | OpDecline cid status => let '(ok, p) := decline (w_pending w) ws cid status in (ok, with_pending p w)
  | OpCancelAll => (tt, with_pending (cancel_all (w_pending w) ws).2 w)
  | OpSend m => ws_send ws m w
  | OpNotify => (tt, ws_notify ws w)
  | op => (others op, out (Called ws op) w)
  end.

(** A session starts when its token is good and its peer could be made. *)
Definition signal_ws_handler (authorization token : option string) (now_unix : Z) (remote : SocketAddr) (peer_made : bool) (now : Z) (w : World) : World :=
  match extract_token authorization token with
  | None => out (Refused "missing token") w
  | Some tok =>
      match Tokens.verify hmac b64_decode (si_secret st) now_unix tok with
      | Ok claims =>
          if peer_made then
            let ws := w_next w in
            let s := mkSession claims remote None Receiving KeepSelecting notify_new (Some []) now in
            out (Opened ws) (mkWorld (w_registrar w) (w_pending w) (<[ws := s]> (w_sessions w)) (ws + 1) (w_outs w))
          else w
      | _ => out (Refused "invalid token") w
      end
  end.

Definition at_session (ws : Z) (f : Session -> World -> World) (w : World) : World :=
  match w_sessions w !! ws with Some s => f s w | None => w end.

(** The loop leaves. *)
Definition break_loop (ws : Z) (s : Session) (w : World) : World := with_session ws (set_loop (Closing (close_session st (sn_aor s))) s) w.

(** A frame comes to the loop, which waits in its select. *)
Definition receive (ws : Z) (fr : Frame) (now : Z) : World -> World := at_session ws (fun s w =>
  match sn_loop s with
  | Receiving =>
      let s := set_notify (drop_notified TheLoop (sn_notify s)) s in
      let s := match fr with FrError | FrNone => s | _ => set_last_recv now s end in
      match fr with
      | FrText t => with_session ws (set_loop (Working (take_text st (sn_claims s) from_json t (sn_aor s))) s) w
      | FrPing => out (WrotePong ws) (with_session ws s w)
      | FrPong | FrOther => with_session ws s w
      | FrClose | FrError | FrNone => break_loop ws s w
      end
  | _ => w
  end).

(** The loop looks whether it was notified. *)
Definition loop_notified (ws : Z) : World -> World := at_session ws (fun s w =>
  match sn_loop s with
  | Receiving =>
      let '(ready, n) := notified TheLoop (sn_notify s) in
      let s := set_notify n s in
      if ready then break_loop ws s w else with_session ws s w
  | _ => w
  end).

(** The loop goes on with what it does, up to its next call. *)
Definition loop_step (ws : Z) (now : Z) (others : forall op, answer op) : World -> World := at_session ws (fun s w =>
  match sn_loop s with
  | Working (Fin (aor, go_on)) =>
      let s := set_aor aor s in
      if (go_on : bool) then with_session ws (set_loop Receiving s) w else break_loop ws s w
  | Working (Do op k) =>
      let '(x, w) := exec ws s now others op w in
      at_session ws (fun s w => with_session ws (set_loop (Working (k x)) s) w) w
  | Closing (Fin _) => with_session ws (set_loop Ended s) w
  | Closing (Do op k) =>
      let '(x, w) := exec ws s now others op w in
      at_session ws (fun s w => with_session ws (set_loop (Closing (k x)) s) w) w
  | _ => w
  end).

(** The writer takes the next message. *)
Definition write_next (ws : Z) (ok : bool) : World -> World := at_session ws (fun s w =>
  match sn_writer s with
  | Some (m :: q) =>
      if ok then out (Wrote ws m) (with_session ws (set_writer (Some q) s) w)
      else with_session ws (set_writer None (set_notify (notify_one (notify_one (sn_notify s))) s)) w
  | _ => w
  end).

(** A tick of the keepalive task, its ping, and its other way out. *)
Definition keep_tick (ws : Z) (now : Z) : World -> World := at_session ws (fun s w =>
  match sn_keep s with
  | KeepSelecting =>
      let n := drop_notified TheKeepalive (sn_notify s) in
      if idle_timeout st <=? duration_since now (sn_last_recv s) then
        out (WroteClose ws 1011 "idle timeout") (with_session ws (set_keep KeepStopped (set_notify (notify_one n) s)) w)
      else with_session ws (set_keep KeepPinging (set_notify n s)) w
  | _ => w
  end).
Definition keep_ping (ws : Z) (ok : bool) : World -> World := at_session ws (fun s w =>
  match sn_keep s with
  | KeepPinging =>
      if ok then out (WrotePing ws) (with_session ws (set_keep KeepSelecting s) w)
      else with_session ws (set_keep KeepStopped (set_notify (notify_one (sn_notify s)) s)) w
  | _ => w
  end).
Definition keep_notified (ws : Z) : World -> World := at_session ws (fun s w =>
  match sn_keep s with
  | KeepSelecting =>
      let '(ready, n) := notified TheKeepalive (sn_notify s) in
      let s := set_notify n s in
      with_session ws (if ready then set_keep KeepNotified s else s) w
  | _ => w
  end).

(** ** The events *)

Inductive Event :=
  | EvConnect (authorization token : option string) (now_unix : Z) (remote : SocketAddr) (peer_made : bool) (now : Z)
  | EvFrame (ws : Z) (fr : Frame) (now : Z)
  | EvLoopNotified (ws : Z)
  | EvLoop (ws : Z) (now : Z) (others : forall op, answer op)
  | EvWrite (ws : Z) (ok : bool)
  | EvTick (ws : Z) (now : Z)
  | EvPing (ws : Z) (ok : bool)
  | EvKeepNotified (ws : Z)
  (* the calls of the other parts: a message for a browser, a telephone that
     registers or leaves, the purge, and the legs of a fork *)
  | EvPush (ws : Z) (m : ServerMessage)
  | EvRegister (aor contact : string) (remote : SocketAddr) (expires now : Z)
  | EvUnregister (aor : string)
  | EvPurge (now : Z)
  | EvReserve (ws : Z) (call_id : string)
  | EvCancelWait (ws : Z) (call_id : string).

Definition step (w : World) (ev : Event) : World :=
  match ev with
  | EvConnect authorization token now_unix remote peer_made now => signal_ws_handler authorization token now_unix remote peer_made now w
  | EvFrame ws fr now => receive ws fr now w
  | EvLoopNotified ws => loop_notified ws w
  | EvLoop ws now others => loop_step ws now others w
  | EvWrite ws ok => write_next ws ok w
  | EvTick ws now => keep_tick ws now w
  | EvPing ws ok => keep_ping ws ok w
  | EvKeepNotified ws => keep_notified ws w
  | EvPush ws m => (ws_send ws m w).2
  | EvRegister aor contact remote expires now => with_registrar (register (w_registrar w) aor contact remote expires now) w
  | EvUnregister aor => with_registrar (unregister (w_registrar w) aor) w
  | EvPurge now => with_registrar (purge_expired (w_registrar w) now).1 w
  | EvReserve ws call_id => with_pending (pending_register (w_pending w) ws call_id).2 w
  | EvCancelWait ws call_id => with_pending (pending_cancel (w_pending w) ws call_id) w
  end.
Definition run (w : World) (evs : list Event) : World := fold_left step evs w.
End sessions.

Definition signaling_start (r : ExtensionRegistrar) : World := mkWorld r pending_new ∅ 0 [].
