(* ===== verification/Sessions.v ===== *)
(** What holds of the sessions of the browsers (webrtc/signaling.rs) under every
    interleaving of their tasks: whose calls a browser is offered, what it can make
    sabiden dial, and that a session ends with all its tasks.

    What a task of a session may still do is a property of its program, kept by
    every step of it; the rest of a proof looks at one session at a time. *)
From S2P Require Import Prelude RustStr Utf8 NetAddr SipMessage SipUtils Transaction Dialog TuProg Uac SipFields Registrar Fork Tokens BrowserCalls BrowserLegs Tasks Signaling.

Section sessions.
Context (st : SignalingState) (from_json : string -> ClientMessage + string).
Context (hmac : list Z -> string -> list Z) (b64_decode : string -> option (list Z)).

Abbreviation step := (step st from_json hmac b64_decode).
Abbreviation run := (run st from_json hmac b64_decode).

(** ** The calls *)

(** [b]: a binding of the session may be in the registrar. *)
Definition binds (op : Op) (b : bool) : bool := match op with OpRegister _ _ => true | OpUnregister _ => false | _ => b end.
Definition within_claims (c : AuthClaims) (op : Op) : Prop :=
  match op with
  | OpRegister aor _ | OpUnregister aor | OpUpsertSubscription aor _ _ _ => aor = ext_id c
  | OpPwaOutbound target _ => is_valid_dial_target target = true
  | OpSendSms to body => is_valid_dial_target to = true /\ (String.length body <= SMS_BODY_MAX_BYTES)%nat
  | OpNotify => False
  | _ => True
  end.
Definition registered_as (c : AuthClaims) (b : bool) (aor : option string) : Prop := (aor = None /\ b = false) \/ aor = Some (ext_id c).

Lemma floor_boundary_le s n : (floor_boundary s n <= n)%nat.
Proof. induction n as [|n IH]; cbn [floor_boundary]; [done|]. case_match; lia. Qed.
Lemma length_str_take_le n s : (String.length (str_take n s) <= n)%nat.
Proof. revert s. induction n as [|n IH]; intros [|c s]; cbn; [lia..|]. specialize (IH s). lia. Qed.
Lemma truncate_sms_short body : (String.length (truncate_sms body) <= SMS_BODY_MAX_BYTES)%nat.
Proof.
  unfold truncate_sms. case_match eqn:H; [|by apply Nat.ltb_ge in H]. etransitivity; [apply length_str_take_le | apply floor_boundary_le].
Qed.

Section claims.
Context (c : AuthClaims).
Abbreviation stays := (leads (fun _ => within_claims c) (fun op _ => binds op)).

Lemma message_stays msg aor b : registered_as c b aor ->
  stays (fun b' r => registered_as c b' r.2) b (process_client_message st c msg aor).
Proof.
  intros Hr. unfold process_client_message, offer_message, sms_message, hold_message, record_start_message, record_stop_message, perhaps, call, mret, task_ret.
  assert (forall body, (String.length (truncate_sms body) <= SMS_BODY_MAX_BYTES)%nat) as Hlen by apply truncate_sms_short.
  destruct msg; repeat (cbn; repeat split; try done; intros; case_match); cbn; try done.
  all: repeat match goal with H : negb _ = false |- _ => apply negb_false_iff in H end; try done.
  - apply String.eqb_eq in H. subst. split; [done|]. intros _. by right.
  - destruct Hr as [[? _] | [= ->]]; [done|]. do 2 (split; [done|]; intros _). split; [done|]. intros _. by left.
  - destruct Hr as [[? _] | [= ->]]; [done|]. split; [done|]. intros _. split; [done|]. intros _. by left.
Qed.
Lemma text_stays text aor b : registered_as c b aor -> stays (fun b' r => registered_as c b' r.1) b (take_text st c from_json text aor).
Proof.
  intros Hr. unfold take_text. destruct (from_json text) as [msg | e]; [|by cbn].
  eapply leads_bind; [by apply message_stays|]. intros b' [action aor'] H. destruct action; by cbn.
Qed.
End claims.

(** The end of a session: at first it wakes the keepalive task, and then no more;
    what it had registered is gone. *)
Definition closing_call (c : AuthClaims) (op : Op) : Prop := within_claims c op /\ match op with OpRegister _ _ | OpSend _ => False | _ => True end.
Definition frees (c : AuthClaims) (b : bool) (t : task unit) : Prop := leads (fun _ => closing_call c) (fun op _ => binds op) (fun b' _ => b' = false) b t.
Definition opens (c : AuthClaims) (b : bool) (t : task unit) : Prop :=
  match t with Do op k => op = OpNotify /\ forall x, frees c b (k x) | Fin _ => False end.
Lemma close_stays c aor b : registered_as c b aor -> opens c b (close_session st aor).
Proof.
  intros Hr. split; [done|]. intros []. unfold frees, perhaps, call, mret, task_ret, closing_call.
  destruct (pwa_outbound_closer st), (pwa_inbound_closer st), aor as [a|]; cbn;
    repeat (split; [done|]; intros _); destruct Hr as [[Ha Hb] | Ha]; simplify_eq; try done; repeat (split; [done|]; intros _); done.
Qed.

(** ** The invariant *)

Definition authentic (c : AuthClaims) : Prop := exists token now, Tokens.verify hmac b64_decode (si_secret st) now token = Ok c.
(** A binding of the session is in the registrar. *)
Definition bound (r : ExtensionRegistrar) (ws : Z) : Prop := exists aor bd p q, inner r !! aor = Some bd /\ transport bd = WebRtc p ws q.

Definition phase_ok (c : AuthClaims) (b : bool) (s : Session) : Prop :=
  match sn_loop s with
  | Receiving => registered_as c b (sn_aor s)
  | Working t => leads (fun _ => within_claims c) (fun op _ => binds op) (fun b' r => registered_as c b' r.1) b t
  | Closing t => opens c b t \/ frees c b t
  | Ended => b = false
  end.

Record sound (w : World) : Prop := {
  so_session : forall ws s, w_sessions w !! ws = Some s ->
    authentic (sn_claims s) /\ ws < w_next w /\ exists b, phase_ok (sn_claims s) b s /\ (bound (w_registrar w) ws -> b = true);
  so_binding : forall aor bd p ws q, inner (w_registrar w) !! aor = Some bd -> transport bd = WebRtc p ws q ->
    p = ws /\ q = ws /\ exists s, w_sessions w !! ws = Some s /\ aor = ext_id (sn_claims s);
  so_called : forall ws op, Called ws op ∈ w_outs w -> exists s, w_sessions w !! ws = Some s /\ within_claims (sn_claims s) op }.

(** One session moves on, with what it does to the registrar and the outputs. *)
Lemma sound_core w w1 ws s s2 b : sound w -> w_sessions w !! ws = Some s ->
  w_sessions w1 = <[ws := s2]> (w_sessions w) -> w_next w1 = w_next w -> sn_claims s2 = sn_claims s -> phase_ok (sn_claims s) b s2 ->
  (forall aor bd, inner (w_registrar w1) !! aor = Some bd -> inner (w_registrar w) !! aor = Some bd \/
     (transport bd = WebRtc ws ws ws /\ aor = ext_id (sn_claims s))) ->
  (bound (w_registrar w1) ws -> b = true) ->
  (forall o, o ∈ w_outs w1 -> o ∈ w_outs w \/ match o with Called ws' op => ws' = ws /\ within_claims (sn_claims s) op | _ => True end) ->
  sound w1.
Proof.
  intros [S1 S2 S3] Hs Hw Hn Hc Hp Hr Hb Ho. split.
  - intros ws' s' Hl. rewrite Hw in Hl. rewrite Hn. apply lookup_insert_Some in Hl as [[<- <-] | [Hne Hl]].
    + destruct (S1 _ _ Hs) as (H1 & H2 & _). rewrite Hc. split; [done|]. split; [done|]. by exists b.
    + destruct (S1 _ _ Hl) as (H1 & H2 & b' & H3 & H4). split; [done|]. split; [done|]. exists b'. split; [done|].
      intros (aor & bd & p & q & Hbd & Ht). apply H4. destruct (Hr _ _ Hbd) as [Hbd' | [Ht' _]]; [by exists aor, bd, p, q | congruence].
  - intros aor bd p ws' q Hbd Ht. destruct (Hr _ _ Hbd) as [Hbd' | [Ht' Ha]].
    + destruct (S2 _ _ _ _ _ Hbd' Ht) as (-> & -> & s' & Hs' & Ha). split; [done|]. split; [done|]. rewrite Hw.
      destruct (decide (ws' = ws)) as [-> | Hne]; [exists s2; rewrite lookup_insert_eq; split; [done | congruence] | exists s'; by rewrite lookup_insert_ne].
    + rewrite Ht in Ht'. injection Ht' as -> -> ->. split; [done|]. split; [done|]. exists s2. rewrite Hw, lookup_insert_eq, Hc. done.
  - intros ws' op Hin. rewrite Hw. destruct (Ho _ Hin) as [Hin' | [-> Hop]].
    + destruct (S3 _ _ Hin') as (s' & Hs' & Hop). destruct (decide (ws' = ws)) as [-> | Hne]; [|exists s'; by rewrite lookup_insert_ne].
      exists s2. rewrite lookup_insert_eq. split; [done|]. rewrite Hc. congruence.
    + exists s2. by rewrite lookup_insert_eq, Hc.
Qed.

(** A session moves on alone. *)
Lemma sound_session w ws s s2 : sound w -> w_sessions w !! ws = Some s -> sn_claims s2 = sn_claims s ->
  (forall b, phase_ok (sn_claims s) b s -> phase_ok (sn_claims s) b s2) -> sound (with_session ws s2 w).
Proof.
  intros Hw Hs Hc Hp. destruct (so_session w Hw _ _ Hs) as (_ & _ & b & Hb & Hbd).
  apply (sound_core w _ ws s s2 b); try done; [by apply Hp | by left | by left].
Qed.
Lemma sound_out o w : match o with Called _ _ => False | _ => True end -> sound w -> sound (out o w).
Proof.
  intros Ho [S1 S2 S3]. split; [done..|]. intros ws op [Hin | Hin%list_elem_of_singleton]%elem_of_app; [by apply S3 | by subst o].
Qed.
(** Others register telephones, and take bindings away. *)
Lemma sound_registrar w r : sound w ->
  (forall aor bd, inner r !! aor = Some bd -> inner (w_registrar w) !! aor = Some bd \/ transport bd = Sip) -> sound (with_registrar r w).
Proof.
  intros [S1 S2 S3] Hr. split.
  - intros ws s Hs. destruct (S1 _ _ Hs) as (H1 & H2 & b & H3 & H4). split; [done|]. split; [done|]. exists b. split; [done|].
    intros (aor & bd & p & q & Hbd & Ht). apply H4. destruct (Hr _ _ Hbd) as [Hbd' | Ht']; [by exists aor, bd, p, q | congruence].
  - intros aor bd p ws q Hbd Ht. destruct (Hr _ _ Hbd) as [Hbd' | Ht']; [by eapply S2 | congruence].
  - done.
Qed.
Lemma sound_pending p w : sound w -> sound (with_pending p w).
Proof. by intros [S1 S2 S3]. Qed.
Lemma sound_at ws f w : sound w -> (forall s, w_sessions w !! ws = Some s -> sound (f s w)) -> sound (at_session ws f w).
Proof. intros Hw Hf. unfold at_session. destruct (w_sessions w !! ws) eqn:Hs; [by apply Hf | done]. Qed.

(** A call of the loop, and the phase after it. *)
Lemma exec_session ws s now others op w : w_sessions w !! ws = Some s ->
  exists s1, w_sessions (exec st ws s now others op w).2 = <[ws := s1]> (w_sessions w) /\ sn_claims s1 = sn_claims s.
Proof.
  intros Hs. assert (w_sessions w = <[ws := s]> (w_sessions w)) as Hsame by (by rewrite insert_id).
  destruct op; cbn [exec]; try (exists s; split; [exact Hsame | done]).
  - unfold deliver. destruct (pending_send _ _ _ _). by exists s.
  - unfold decline. destruct (pending_send _ _ _ _). by exists s.
  - unfold ws_send. rewrite Hs. destruct (sn_writer s) as [q|]; [|by exists s]. cbn. by eexists.
  - unfold ws_notify. rewrite Hs. cbn. by eexists.
Qed.
Lemma exec_rest ws s now others op w :
  let w1 := (exec st ws s now others op w).2 in
  w_next w1 = w_next w /\ (forall o, o ∈ w_outs w1 -> o ∈ w_outs w \/ o = Called ws op) /\
  w_registrar w1 = match op with
    | OpRegister aor contact => register_with_transport (w_registrar w) aor contact (sn_remote s) (register_ttl st) (WebRtc ws ws ws) now
    | OpUnregister aor => unregister (w_registrar w) aor
    | _ => w_registrar w
    end.
Proof.
  assert (forall o, o ∈ w_outs w ++ [Called ws op] -> o ∈ w_outs w \/ o = Called ws op) as Hout.
  { intros o [Ho | Ho%list_elem_of_singleton]%elem_of_app; [by left | by right]. }
  destruct op; cbn [exec]; try (split_and!; [done | by left | done]); try (split_and!; [done | exact Hout | done]).
  - unfold deliver. destruct (pending_send _ _ _ _). split_and!; [done | by left | done].
  - unfold decline. destruct (pending_send _ _ _ _). split_and!; [done | by left | done].
  - unfold ws_send. destruct (w_sessions w !! ws) as [s'|]; [|split_and!; [done | by left | done]].
    destruct (sn_writer s'); split_and!; try done; by left.
  - unfold ws_notify. destruct (w_sessions w !! ws); split_and!; try done; by left.
Qed.

Lemma sound_call ws s now others op w s2 b : sound w -> w_sessions w !! ws = Some s -> sn_claims s2 = sn_claims s ->
  (bound (w_registrar w) ws -> b = true) -> within_claims (sn_claims s) op \/ op = OpNotify -> phase_ok (sn_claims s) (binds op b) s2 ->
  sound (with_session ws s2 (exec st ws s now others op w).2).
Proof.
  intros Hw Hs Hc Hb Hop Hp. destruct (exec_session ws s now others op w Hs) as (s1 & Hs1 & _).
  destruct (exec_rest ws s now others op w) as (Hn & Ho & Hr). assert (forall aor bd p q, inner (w_registrar w) !! aor = Some bd -> transport bd = WebRtc p ws q -> aor = ext_id (sn_claims s)) as Hmine.
  { intros aor bd p q Hbd Ht. destruct (so_binding w Hw _ _ _ _ _ Hbd Ht) as (_ & _ & s' & Hs' & Ha). congruence. }
  assert (forall aor bd, inner (unregister (w_registrar w) (ext_id (sn_claims s))) !! aor = Some bd ->
    inner (w_registrar w) !! aor = Some bd /\ aor <> ext_id (sn_claims s)) as Hun.
  { cbn. intros aor bd [Hne Hl]%lookup_delete_Some. by split. }
  apply (sound_core w _ ws s s2 (binds op b)); try done.
  - cbn. by rewrite Hs1, insert_insert_eq.
  - intros aor bd. change (w_registrar (with_session ws s2 ?v)) with (w_registrar v). rewrite Hr. destruct op; try (by left); destruct Hop as [Hop | ?]; try done; cbn in Hop; subst.
    + unfold register_with_transport. destruct (register_ttl st =? 0); [intros [? _]%Hun; by left|]. cbn.
      intros [[<- <-] | [_ Hl]]%lookup_insert_Some; [by right | by left].
    + intros [? _]%Hun. by left.
  - intros (aor & bd & p & q & Hbd & Ht). change (w_registrar (with_session ws s2 ?v)) with (w_registrar v) in Hbd. rewrite Hr in Hbd.
    destruct op; cbn [binds]; try done; try (apply Hb; by exists aor, bd, p, q). destruct Hop as [Hop | ?]; [|done]. cbn in Hop. subst.
    apply Hun in Hbd as [Hbd Hne]. by destruct (Hne (Hmine _ _ _ _ Hbd Ht)).
  - intros o Hin. destruct (Ho o Hin) as [Hin' | ->]; [by left|]. destruct Hop as [Hop | ->]; [by right|].
    left. cbn [exec] in Hin. unfold ws_notify in Hin. by rewrite Hs in Hin.
Qed.

(** *** The steps *)

(** The loop leaves with what is registered. *)
Lemma sound_break ws s s0 w b : sound w -> w_sessions w !! ws = Some s0 -> sn_claims s = sn_claims s0 ->
  registered_as (sn_claims s0) b (sn_aor s) -> (bound (w_registrar w) ws -> b = true) -> sound (break_loop st ws s w).
Proof.
  intros Hw Hs Hc Hr Hb. apply (sound_core w _ ws s0 (set_loop (Closing (close_session st (sn_aor s))) s) b); try done; [|by left | by left].
  left. by apply close_stays.
Qed.
Lemma sound_receive ws fr now w : sound w -> sound (receive st from_json ws fr now w).
Proof.
  intros Hw. apply sound_at; [done|]. intros s Hs. destruct (sn_loop s) eqn:Hl; try done.
  destruct (so_session w Hw _ _ Hs) as (_ & _ & b & Hp & Hb). unfold phase_ok in Hp. rewrite Hl in Hp.
  destruct fr; cbn zeta; try (by eapply sound_break); try (apply sound_out; [done|]);
    apply (sound_session w ws s); try done; intros b'; unfold phase_ok; cbn; rewrite Hl; try done. by apply text_stays.
Qed.
Lemma sound_loop_notified ws w : sound w -> sound (loop_notified st ws w).
Proof.
  intros Hw. apply sound_at; [done|]. intros s Hs. destruct (sn_loop s) eqn:Hl; try done.
  destruct (so_session w Hw _ _ Hs) as (_ & _ & b & Hp & Hb). unfold phase_ok in Hp. rewrite Hl in Hp.
  destruct (notified TheLoop (sn_notify s)) as [[] n]; [by eapply sound_break|]. apply (sound_session w ws s); [done..|].
  intros b'. unfold phase_ok. cbn. by rewrite Hl.
Qed.
Lemma sound_loop_step ws now others w : sound w -> sound (loop_step st ws now others w).
Proof.
  intros Hw. apply sound_at; [done|]. intros s Hs. destruct (so_session w Hw _ _ Hs) as (_ & _ & b & Hp & Hb). unfold phase_ok in Hp.
  assert (forall op (x : answer op) w1 mk, exec st ws s now others op w = (x, w1) -> within_claims (sn_claims s) op \/ op = OpNotify ->
    (forall s1, sn_claims s1 = sn_claims s -> phase_ok (sn_claims s) (binds op b) (set_loop mk s1)) ->
    sound (at_session ws (fun s w => with_session ws (set_loop mk s) w) w1)) as Hcall.
  { intros op x w1 mk He Hop Hmk. destruct (exec_session ws s now others op w Hs) as (s1 & Hs1 & Hc1). rewrite He in Hs1. cbn in Hs1.
    unfold at_session. rewrite Hs1, lookup_insert_eq. pose proof (sound_call ws s now others op w (set_loop mk s1) b Hw Hs Hc1 Hb Hop (Hmk s1 Hc1)) as H. by rewrite He in H. }
  destruct (sn_loop s) as [| [[aor go_on] | op k] | [[] | op k] |] eqn:Hl; try done.
  - cbn in Hp. destruct go_on; [|by eapply sound_break]. apply (sound_core w _ ws s (set_loop Receiving (set_aor aor s)) b); try done; by left.
  - destruct (exec st ws s now others op w) as [x w1] eqn:He. destruct Hp as [Hop Hk]. eapply Hcall; [exact He | by left | intros s1 _; apply Hk].
  - assert (b = false) as -> by (by destruct Hp as [[] | Hp]). apply (sound_core w _ ws s (set_loop Ended s) false); try done; by left.
  - destruct (exec st ws s now others op w) as [x w1] eqn:He. destruct Hp as [[-> Hp] | [[Hop _] Hk]].
    + eapply Hcall; [exact He | by right | intros s1 _; right; apply Hp].
    + eapply Hcall; [exact He | by left | intros s1 _; right; apply Hk].
Qed.

Lemma sound_step w ev : sound w -> sound (step w ev).
Proof.
  intros Hw. assert (forall ws s s2, w_sessions w !! ws = Some s -> sn_claims s2 = sn_claims s -> sn_loop s2 = sn_loop s -> sn_aor s2 = sn_aor s -> sound (with_session ws s2 w)) as Hsame.
  { intros ws s s2 Hs Hc Hl Ha. apply (sound_session w ws s); [done..|]. intros b. unfold phase_ok. by rewrite Hl, Ha. }
  destruct ev; cbn [Signaling.step].
  - unfold signal_ws_handler. destruct (extract_token _ _) as [tok|]; [|by apply sound_out].
    destruct (Tokens.verify _ _ _ _ _) as [c | |] eqn:Hv; [|by apply sound_out..]. destruct peer_made; [|done]. apply sound_out; [done|].
    destruct Hw as [S1 S2 S3]. assert (forall s, w_sessions w !! w_next w = Some s -> False) as Hnew by (intros s Hs; destruct (S1 _ _ Hs) as (_ & Hlt & _); lia).
    split; cbn.
    + intros ws s [[<- <-] | [Hne Hs]]%lookup_insert_Some.
      * split; [by exists tok, now_unix|]. split; [lia|]. exists false. split; [by left|].
        intros (aor & bd & p & q & Hbd & Ht). destruct (S2 _ _ _ _ _ Hbd Ht) as (_ & _ & s & Hs & _). by destruct (Hnew s).
      * destruct (S1 _ _ Hs) as (H1 & H2 & H3). split; [done|]. split; [lia | done].
    + intros aor bd p ws q Hbd Ht. destruct (S2 _ _ _ _ _ Hbd Ht) as (H1 & H2 & s & Hs & Ha). split; [done|]. split; [done|]. exists s.
      rewrite lookup_insert_ne; [done|]. intros <-. by destruct (Hnew s).
    + intros ws op Hin. destruct (S3 _ _ Hin) as (s & Hs & Hop). exists s. rewrite lookup_insert_ne; [done|]. intros <-. by destruct (Hnew s).
  - by apply sound_receive.
  - by apply sound_loop_notified.
  - by apply sound_loop_step.
  - apply sound_at; [done|]. intros s Hs. destruct (sn_writer s) as [[|m q]|]; try done. destruct ok; [apply sound_out; [done|]|]; by eapply Hsame.
  - apply sound_at; [done|]. intros s Hs. destruct (sn_keep s); try done. cbn zeta. case_match; [apply sound_out; [done|]|]; by eapply Hsame.
  - apply sound_at; [done|]. intros s Hs. destruct (sn_keep s); try done. destruct ok; [apply sound_out; [done|]|]; by eapply Hsame.
  - apply sound_at; [done|]. intros s Hs. destruct (sn_keep s); try done. destruct (notified TheKeepalive (sn_notify s)) as [[] n]; by eapply Hsame.
  - unfold ws_send. destruct (w_sessions w !! ws) as [s|] eqn:Hs; [|done]. destruct (sn_writer s); [by eapply Hsame | done].
  - apply sound_registrar; [done|]. unfold register, register_with_transport. case_match; cbn.
    + intros a bd [_ Hl]%lookup_delete_Some. by left.
    + intros a bd [[_ <-] | [_ Hl]]%lookup_insert_Some; [by right | by left].
  - apply sound_registrar; [done|]. cbn. intros a bd [_ Hl]%lookup_delete_Some. by left.
  - apply sound_registrar; [done|]. cbn. intros a bd [Hl _]%map_lookup_filter_Some. by left.
  - by apply sound_pending.
  - by apply sound_pending.
Qed.

Lemma sound_run evs : forall w, sound w -> sound (run w evs).
Proof. induction evs as [|ev evs IH]; intros w Hw; [done|]. by apply IH, sound_step. Qed.

(** No session yet, and telephones only. *)
Definition initial (w : World) : Prop :=
  w_sessions w = ∅ /\ w_outs w = [] /\ forall aor bd, inner (w_registrar w) !! aor = Some bd -> transport bd = Sip.
Lemma sound_initial w : initial w -> sound w.
Proof.
  intros (H1 & H2 & H3). split; rewrite ?H1, ?H2.
  - intros ws s Hs. by rewrite lookup_empty in Hs.
  - intros aor bd p ws q Hbd Ht. rewrite (H3 _ _ Hbd) in Ht. done.
  - intros ws op Hin. by apply not_elem_of_nil in Hin.
Qed.

(** C26: A call is offered to a browser only on the word of a token: whatever the
    browsers, the telephones and the clocks do, a binding of the registrar that leads
    to a browser leads to a session that has not ended, under the extension that a
    token of this secret names, which was good when the session began. *)
Theorem browsers_hold_tokens (evs : list Event) (w : World) (Hi : initial w) :
  forall aor bd p ws q, inner (w_registrar (run w evs)) !! aor = Some bd -> transport bd = WebRtc p ws q ->
  p = ws /\ q = ws /\ exists s, w_sessions (run w evs) !! ws = Some s /\ sn_loop s <> Ended /\ ext_id (sn_claims s) = aor /\
    exists token now, Tokens.verify hmac b64_decode (si_secret st) now token = Ok (sn_claims s) /\ now < expiry (sn_claims s).
Proof.
  intros aor bd p ws q Hbd Ht. pose proof (sound_run evs w (sound_initial w Hi)) as Hs.
  destruct (so_binding _ Hs _ _ _ _ _ Hbd Ht) as (-> & -> & s & Hl & ->). split; [done|]. split; [done|]. exists s.
  destruct (so_session _ Hs _ _ Hl) as ((token & now & Hv) & _ & b & Hp & Hb). split; [done|]. split; [|split; [done|]].
  - intros He. unfold phase_ok in Hp. rewrite He in Hp. rewrite Hb in Hp; [done|]. by eexists _, _, _, _.
  - exists token, now. split; [done|]. by destruct (Tokens.verify_Ok _ _ _ _ _ _ Hv) as (_ & H & _).
Qed.

(** What a browser asks to dial is a user name of digits and signs. *)
Lemma dial_target_plain target : is_valid_dial_target target = true ->
  target <> "" /\ (String.length target <= 32)%nat /\ all_chars (fun c => is_ascii_digit c || Ascii.eqb c "*" || Ascii.eqb c "#" || Ascii.eqb c "+") target = true.
Proof.
  unfold is_valid_dial_target. intros [[H1 H2]%andb_true_iff H3]%andb_true_iff. split; [|split; [by apply Nat.leb_le | done]].
  intros ->. done.
Qed.
Lemma dial_target_no_char x target : (is_ascii_digit x || Ascii.eqb x "*" || Ascii.eqb x "#" || Ascii.eqb x "+") = false ->
  is_valid_dial_target target = true -> no_char x target = true.
Proof.
  intros Hx (_ & _ & H)%dial_target_plain. revert H. unfold no_char. apply all_chars_impl. intros c Hc.
  destruct (Ascii.eqb_spec x c) as [<-|]; [congruence | done].
Qed.
Lemma dialled_uri cfg a b c d target : ip (uac_server (wc_uac cfg)) = V4 a b c d -> u16 (sport (uac_server (wc_uac cfg))) ->
  is_valid_dial_target target = true ->
  parse_sip_uri (web_target_uri cfg target) = Ok (mkUri "sip" (Some target) (print_ipv4 a b c d) (Some (sport (uac_server (wc_uac cfg)))) [] []).
Proof.
  intros Hip Hport Ht. unfold web_target_uri. rewrite Hip. cbn [print_ip].
  set (u := "sip:" +:+ target +:+ "@" +:+ print_ipv4 a b c d +:+ ":" +:+ print_uint (sport (uac_server (wc_uac cfg)))).
  assert (parse_sip_uri u = Ok (mkUri "sip" (Some target) (print_ipv4 a b c d) (Some (sport (uac_server (wc_uac cfg)))) [] [])) as Hu.
  { pose proof (parse_written_uri "sip" (Some target) a b c d (sport (uac_server (wc_uac cfg))) Hport) as H.
    unfold u. cbn [userinfo String.append] in H |- *. rewrite !str_app_assoc in H. cbn [String.append] in H. apply H; try done.
    intros x [= <-]. split_and!; by apply dial_target_no_char. }
  destruct (normalized_uri_reaches_pcscf u a b c d _ Hport) as [_ Hn]. rewrite Hu in Hn.
  destruct Hn as (sch & Hn & Hs). rewrite Hn. cbn in Hs. by rewrite Hs.
Qed.

(** C27: Whatever a browser sends, and in whatever state, it dials only numbers: the
    Request-URI of a call or a short message it starts is read back as the P-CSCF,
    with a user of at most 32 digits, stars, hashes and plus signs, and no parameters;
    a short message has at most 1024 bytes, and a push subscription is entered for the
    extension of the token. *)
Theorem browsers_dial_numbers (evs : list Event) (w : World) (Hi : initial w) (cfg : WebConfig) a b c d :
  ip (uac_server (wc_uac cfg)) = V4 a b c d -> u16 (sport (uac_server (wc_uac cfg))) ->
  let plain target := (String.length target <= 32)%nat /\
    all_chars (fun x => is_ascii_digit x || Ascii.eqb x "*" || Ascii.eqb x "#" || Ascii.eqb x "+") target = true /\
    parse_sip_uri (web_target_uri cfg target) = Ok (mkUri "sip" (Some target) (print_ipv4 a b c d) (Some (sport (uac_server (wc_uac cfg)))) [] []) in
  forall ws op, Called ws op ∈ w_outs (run w evs) -> exists s, w_sessions (run w evs) !! ws = Some s /\
  match op with
  | OpPwaOutbound target _ => plain target
  | OpSendSms to body => plain to /\ (String.length body <= 1024)%nat
  | OpUpsertSubscription aor _ _ _ => aor = ext_id (sn_claims s)
  | _ => True
  end.
Proof.
  intros Hip Hport plain ws op Hin. destruct (so_called _ (sound_run evs w (sound_initial w Hi)) _ _ Hin) as (s & Hs & Hop).
  exists s. split; [done|]. assert (forall target, is_valid_dial_target target = true -> plain target) as Hplain.
  { intros target Ht. destruct (dial_target_plain _ Ht) as (_ & H1 & H2). split; [done|]. split; [done|]. by apply dialled_uri. }
  destruct op; try done; [by apply Hplain|]. destruct Hop as [Ht Hl]. split; [by apply Hplain | exact Hl].
Qed.

(** ** The end of the tasks *)

(** The waiter will find a notification when it looks. *)
Definition signalled (x : Waiter) (n : Notify) : Prop := (x ∈ nt_woken n) \/ nt_permit n = true.
Definition away (x : Waiter) (n : Notify) : Prop := (x ∉ nt_queue n) /\ (x ∉ nt_woken n).
(** Nobody is queued twice, or while a permit is stored. *)
Definition notify_ok (n : Notify) : Prop := NoDup (nt_queue n ++ nt_woken n) /\ (nt_permit n = true -> nt_queue n = []).

Definition others_of (x : Waiter) (l : list Waiter) : list Waiter := List.filter (fun y => negb (bool_decide (y = x))) l.
Lemma elem_of_others x y l : y ∈ others_of x l <-> y ∈ l /\ y <> x.
Proof. unfold others_of. rewrite list_elem_of_In, List.filter_In, <- list_elem_of_In, negb_true_iff, bool_decide_eq_false. done. Qed.
Lemma others_sublist x l : sublist (others_of x l) l.
Proof. induction l as [|y l IH]; cbn; [done|]. case_match; by constructor. Qed.
Lemma queued_not_woken x n : notify_ok n -> x ∈ nt_woken n -> x ∉ nt_queue n.
Proof. intros [Hn _] Hw Hq. apply NoDup_app in Hn as (_ & Hd & _). by apply (Hd x). Qed.

Lemma notify_one_ok n : notify_ok n -> notify_ok (notify_one n).
Proof.
  unfold notify_ok, notify_one. intros [H Hp]. destruct (nt_queue n) as [|x q]; cbn; [done|]. split; [|intros Hpt; by apply Hp in Hpt].
  by rewrite app_assoc, <- (Permutation_cons_append (q ++ nt_woken n)).
Qed.
Lemma notify_one_signalled x n : signalled x n -> signalled x (notify_one n).
Proof. unfold signalled, notify_one. intros [H | H]; destruct (nt_queue n); cbn; auto. left. apply elem_of_app. by left. Qed.
(** Who is not queued leaves the notification to the other one. *)
Lemma notify_one_other x y n : x <> y -> x ∉ nt_queue n -> signalled y (notify_one n).
Proof.
  unfold signalled, notify_one. intros Hxy Hx. destruct (nt_queue n) as [|z q]; cbn; [by right|]. left. apply elem_of_app. right.
  apply list_elem_of_singleton. destruct x, y, z; try done; destruct Hx; by left.
Qed.
Lemma notify_one_away x n : away x n -> away x (notify_one n).
Proof.
  intros [H1 H2]. unfold away, notify_one. destruct (nt_queue n) as [|z q]; cbn; [done|]. split; [by intros H; apply H1; right|].
  intros [H | H%list_elem_of_singleton]%elem_of_app; [done|]. subst z. apply H1. by left.
Qed.
Lemma drop_away x n : notify_ok n -> away x (drop_notified x n).
Proof.
  unfold drop_notified. intros Hn. case_decide as Hw.
  - apply notify_one_away. split; cbn; [by apply queued_not_woken | by intros [_ ?]%elem_of_others].
  - split; cbn; [by intros [_ ?]%elem_of_others | done].
Qed.
Lemma drop_ok x n : notify_ok n -> notify_ok (drop_notified x n).
Proof.
  unfold drop_notified. intros [Hn Hp]. case_decide; [apply notify_one_ok|]; split; cbn; try (intros Hpt; by rewrite Hp).
  - eapply sublist_NoDup; [exact Hn|]. apply sublist_app; [done | apply others_sublist].
  - eapply sublist_NoDup; [exact Hn|]. apply sublist_app; [apply others_sublist | done].
Qed.
Lemma drop_signalled x y n : x <> y -> notify_ok n -> signalled y n -> signalled y (drop_notified x n).
Proof.
  intros Hxy Hn Hs. unfold drop_notified. case_decide as Hw; [|exact Hs].
  apply (notify_one_other x); [done|]. cbn. by apply queued_not_woken.
Qed.
Lemma drop_away_other x y n : away y n -> away y (drop_notified x n).
Proof.
  intros [H1 H2]. unfold drop_notified. case_decide; [apply notify_one_away|]; split; cbn; try done; by intros [? _]%elem_of_others.
Qed.
Lemma notified_ok x n : notify_ok n -> notify_ok (notified x n).2.
Proof.
  unfold notified. intros [Hn Hp]. case_decide as Hw; [|case_decide as Hq; [done|]; destruct (nt_permit n) eqn:Hpt; [done|]]; split; cbn; try done.
  - eapply sublist_NoDup; [exact Hn|]. apply sublist_app; [done | apply others_sublist].
  - rewrite (Permutation_app_comm (nt_queue n)), <- app_assoc. cbn. apply NoDup_cons. split; [|done]. by intros [?|?]%elem_of_app.
Qed.
Lemma notified_ready x n : notify_ok n -> signalled x n -> (notified x n).1 = true.
Proof.
  unfold notified, signalled. intros [Hn Hp] Hs. case_decide as Hw; [done|]. destruct Hs as [Hs | Hs]; [done|]. rewrite Hs.
  case_decide as Hq; [|done]. rewrite Hp in Hq by done. by apply not_elem_of_nil in Hq.
Qed.
(** Who finds one is not queued any more. *)
Lemma notified_away x n : notify_ok n -> (notified x n).1 = true -> away x (notified x n).2.
Proof.
  unfold notified. intros Hn. case_decide as Hw; [|case_decide as Hq; [done|]; destruct (nt_permit n); [by split | done]]. intros _.
  split; cbn; [by apply queued_not_woken | by intros [_ ?]%elem_of_others].
Qed.
Lemma notified_other x y n : x <> y -> away y n -> away y (notified x n).2.
Proof.
  intros Hxy [H1 H2]. unfold notified. case_decide; [|case_decide; [done|]; destruct (nt_permit n)]; split; cbn; try done.
  - by intros [? _]%elem_of_others.
  - intros [?|?%list_elem_of_singleton]%elem_of_app; by subst.
Qed.
(** Who finds none takes none from the other. *)
Lemma notified_signalled x y n : (notified x n).1 = false -> signalled y n -> signalled y (notified x n).2.
Proof. unfold notified, signalled. repeat case_decide; try done. destruct (nt_permit n); [done|]. cbn. intros _ [Hs | Hs]; [by left | done]. Qed.

(** How long the end takes. *)
Fixpoint short (n : nat) (t : task unit) : Prop :=
  match t, n with Fin _, _ => True | Do _ _, O => False | Do op k, S n => forall x, short n (k x) end.
(** The loop has left, with at most [n] turns to go. *)
Definition turns_left (n : nat) (l : LoopPhase) : Prop :=
  match l, n with Ended, _ => True | Closing t, S n => short n t | _, _ => False end.
Lemma short_S n t : short n t -> short (S n) t.
Proof. revert n. induction t as [a | op k IH]; intros n; [done|]. destruct n as [|n]; [done|]. intros H x. apply IH, H. Qed.
Lemma turns_left_S n l : turns_left n l -> turns_left (S n) l.
Proof. destruct l, n; try done. apply short_S. Qed.
Lemma close_short aor : short 6 (close_session st aor).
Proof. unfold close_session, perhaps, call, mret, task_ret. destruct (pwa_outbound_closer st), (pwa_inbound_closer st), aor; cbn; done. Qed.

(** The loop has left and has told the keepalive task. *)
Definition told (l : LoopPhase) : Prop :=
  match l with Ended => True | Closing (Do OpNotify _) => False | Closing _ => True | _ => False end.
Definition leaving (l : LoopPhase) : Prop := match l with Closing _ | Ended => True | _ => False end.
Definition keep_ended (k : KeepPhase) : Prop := k = KeepNotified \/ k = KeepStopped.

(** A task that ended by itself leaves a notification for the other. *)
Record wound (s : Session) : Prop := {
  wd_notify : notify_ok (sn_notify s);
  wd_loop : sn_keep s = KeepStopped -> leaving (sn_loop s) \/ signalled TheLoop (sn_notify s);
  wd_keep : told (sn_loop s) -> keep_ended (sn_keep s) \/ signalled TheKeepalive (sn_notify s);
  wd_loop_away : sn_loop s <> Receiving -> away TheLoop (sn_notify s);
  wd_keep_away : sn_keep s <> KeepSelecting -> away TheKeepalive (sn_notify s);
  wd_left : leaving (sn_loop s) -> turns_left 7 (sn_loop s) }.
Definition all_wound (w : World) : Prop := forall ws s, w_sessions w !! ws = Some s -> wound s.

Lemma wound_with ws s w : all_wound w -> wound s -> all_wound (with_session ws s w).
Proof. intros Hw Hs ws' s' Hl. cbn in Hl. apply lookup_insert_Some in Hl as [[<- <-] | [_ Hl]]; [done | by eapply Hw]. Qed.
Lemma wound_at ws f w : all_wound w -> (forall s, w_sessions w !! ws = Some s -> wound s -> all_wound (f s w)) -> all_wound (at_session ws f w).
Proof. intros Hw Hf. unfold at_session. destruct (w_sessions w !! ws) eqn:Hs; [|done]. apply Hf; [done | by eapply Hw]. Qed.

(** One session that is notified, that takes a message, that writes. *)
Lemma wound_notified s : wound s -> wound (set_notify (notify_one (sn_notify s)) s).
Proof.
  intros [W1 W2 W3 W4 W5 W6]. split; cbn; [by apply notify_one_ok | | | intros H; by apply notify_one_away, W4 | intros H; by apply notify_one_away, W5 | done].
  - intros H. destruct (W2 H); [by left | right; by apply notify_one_signalled].
  - intros H. destruct (W3 H); [by left | right; by apply notify_one_signalled].
Qed.
Lemma wound_same s s' : sn_loop s' = sn_loop s -> sn_keep s' = sn_keep s -> sn_notify s' = sn_notify s -> wound s -> wound s'.
Proof. intros H1 H2 H3 [W1 W2 W3 W4 W5 W6]. split; by rewrite ?H1, ?H2, ?H3. Qed.
(** The loop leaves its select, for work or for good. *)
Lemma wound_loop_left s s' n : wound s -> sn_loop s = Receiving -> sn_keep s' = sn_keep s -> sn_notify s' = n -> ~ told (sn_loop s') ->
  (leaving (sn_loop s') -> turns_left 7 (sn_loop s')) -> notify_ok n -> away TheLoop n -> (leaving (sn_loop s') \/ (away TheKeepalive (sn_notify s) -> signalled TheLoop (sn_notify s) -> signalled TheLoop n)) ->
  (away TheKeepalive (sn_notify s) -> away TheKeepalive n) -> wound s'.
Proof.
  intros [W1 W2 W3 W4 W5 W6] Hl Hk <- Ht H7 Hn Ha Hs Hka. split; rewrite ?Hk; try done.
  - intros H. destruct Hs as [Hs | Hs]; [by left|]. destruct (W2 H) as [Hv | Hv]; [by rewrite Hl in Hv | right; apply Hs; [apply W5; by rewrite H | done]].
  - intros H. by apply Hka, W5.
Qed.

(** A notification that is passed on comes back when the other one is away. *)
Lemma drop_self_signalled x y n : x <> y -> notify_ok n -> away y n -> signalled x n -> signalled x (drop_notified x n).
Proof.
  intros Hxy Hn [Hy _] Hs. unfold drop_notified. case_decide as Hw; [|destruct Hs; [done | by right]].
  pose proof (queued_not_woken x n Hn Hw) as Hx. destruct (nt_queue n) as [|z q] eqn:Hq.
  - by right.
  - exfalso. destruct x, y, z; try done; (apply Hx; by left) || (apply Hy; by left).
Qed.
Create HintDb notify.
#[local] Hint Resolve notify_one_ok drop_ok notified_ok notify_one_away drop_away drop_away_other : notify.

Lemma wound_break ws s0 s w n : all_wound w -> wound s0 -> sn_loop s0 = Receiving -> sn_keep s = sn_keep s0 -> sn_notify s = n ->
  notify_ok n -> away TheLoop n -> (away TheKeepalive (sn_notify s0) -> away TheKeepalive n) -> all_wound (break_loop st ws s w).
Proof.
  intros Hw Hs Hl Hk Hsn Hn Ha Hka. apply wound_with; [done|]. eapply (wound_loop_left s0 _ n); try done; [by intros [] | intros _; apply close_short |]. by left.
Qed.
Lemma wound_receive ws fr now w : all_wound w -> all_wound (receive st from_json ws fr now w).
Proof.
  intros Hw. apply wound_at; [done|]. intros s Hs Hok. destruct (sn_loop s) eqn:Hl; try done. pose proof (wd_notify s Hok) as Hn.
  assert (forall s', sn_keep s' = sn_keep s -> sn_notify s' = drop_notified TheLoop (sn_notify s) -> ~ leaving (sn_loop s') -> wound s') as Hleft.
  { intros s' Hk Hsn Ht. assert (~ told (sn_loop s')) by (intros H; apply Ht; by destruct (sn_loop s')).
    eapply (wound_loop_left s _ _ Hok Hl); eauto with notify; [done|]. right. intros. by apply (drop_self_signalled _ TheKeepalive). }
  assert (forall s', sn_keep s' = sn_keep s -> sn_notify s' = drop_notified TheLoop (sn_notify s) -> all_wound (break_loop st ws s' w)) as Hbreak.
  { intros s' Hk Hsn. eapply (wound_break _ s); eauto with notify. }
  destruct fr; cbn zeta; [| | | | by apply Hbreak..]; apply (wound_with _ _ w Hw), Hleft; try done; cbn; rewrite ?Hl; cbn; tauto.
Qed.
Lemma wound_told ws w : all_wound w -> all_wound (loop_notified st ws w).
Proof.
  intros Hw. apply wound_at; [done|]. intros s Hs Hok. destruct (sn_loop s) eqn:Hl; try done. pose proof (wd_notify s Hok) as Hn.
  pose proof (notified_ok TheLoop _ Hn) as H1. pose proof (notified_away TheLoop _ Hn) as H2. pose proof (notified_ready TheLoop _ Hn) as H3.
  pose proof (fun H => notified_other TheLoop TheKeepalive (sn_notify s) H) as H4.
  destruct (notified TheLoop (sn_notify s)) as [[] n]; cbn in *.
  - eapply (wound_break _ s); try done; eauto.
  - apply wound_with; [done|]. destruct Hok as [W1 W2 W3 W4 W5 W6]. split; cbn; rewrite ?Hl in *; try done; [|intros H; by apply H4, W5].
    intros H. destruct (W2 H) as [? | Hsig]; [done|]. by apply H3 in Hsig.
Qed.

(** What a call does to the session that makes it. *)
Lemma exec_wound ws s now others op w s1 : all_wound w -> w_sessions w !! ws = Some s -> w_sessions (exec st ws s now others op w).2 !! ws = Some s1 ->
  wound s1 /\ sn_loop s1 = sn_loop s /\ sn_keep s1 = sn_keep s /\ sn_notify s1 = match op with OpNotify => notify_one (sn_notify s) | _ => sn_notify s end.
Proof.
  intros Hw Hs. pose proof (Hw _ _ Hs) as Hok.
  assert (w_sessions w !! ws = Some s1 -> wound s1 /\ sn_loop s1 = sn_loop s /\ sn_keep s1 = sn_keep s /\ sn_notify s1 = sn_notify s) as Hsame.
  { intros H. by replace s1 with s by congruence. }
  destruct op; cbn [exec]; try exact Hsame.
  - unfold deliver. destruct (pending_send _ _ _ _). exact Hsame.
  - unfold decline. destruct (pending_send _ _ _ _). exact Hsame.
  - unfold ws_send. rewrite Hs. destruct (sn_writer s); [|exact Hsame]. cbn. rewrite lookup_insert_eq. intros [= <-]. split; [eapply (wound_same s); done | done].
  - unfold ws_notify. rewrite Hs. cbn. rewrite lookup_insert_eq. intros [= <-]. split; [by apply wound_notified | done].
Qed.
Lemma exec_all_wound ws s now others op w : all_wound w -> w_sessions w !! ws = Some s -> all_wound (exec st ws s now others op w).2.
Proof.
  intros Hw Hs ws' s' Hl. destruct (exec_session ws s now others op w Hs) as (s1 & He & _).
  destruct (decide (ws' = ws)) as [-> | Hne]; [by eapply exec_wound|]. rewrite He, lookup_insert_ne in Hl by done. by eapply Hw.
Qed.
Lemma wound_loop_step ws now others w : all_wound w -> all_wound (loop_step st ws now others w).
Proof.
  intros Hw. apply wound_at; [done|]. intros s Hs Hok.
  assert (forall op (x : answer op) w1 mk, exec st ws s now others op w = (x, w1) ->
    (forall s1, wound s1 -> sn_loop s1 = sn_loop s -> sn_keep s1 = sn_keep s -> sn_notify s1 = match op with OpNotify => notify_one (sn_notify s) | _ => sn_notify s end -> wound (set_loop mk s1)) ->
    all_wound (at_session ws (fun s w => with_session ws (set_loop mk s) w) w1)) as Hcall.
  { intros op x w1 mk He Hmk. pose proof (exec_all_wound ws s now others op w Hw Hs) as Hw1. rewrite He in Hw1. cbn in Hw1.
    apply wound_at; [done|]. intros s1 Hs1 _. apply wound_with; [done|].
    pose proof (exec_wound ws s now others op w s1 Hw Hs) as Hs1'. rewrite He in Hs1'. destruct (Hs1' Hs1) as (H1 & H2 & H3 & H4). by apply Hmk. }
  destruct (sn_loop s) as [| [[aor go_on] | op k] | [[] | op k] |] eqn:Hl; try done.
  - destruct Hok as [W1 W2 W3 W4 W5 W6]. rewrite Hl in *. destruct go_on; apply wound_with; try done; split; cbn; try done.
    + by left.
    + intros _. by apply W4.
    + intros _. apply close_short.
  - destruct (exec st ws s now others op w) as [x w1] eqn:He. eapply Hcall; [exact He|]. intros s1 [W1 W2 W3 W4 W5 W6] Hl1 Hk1 Hn1. rewrite Hl1 in *. split; cbn; try done. intros _. by apply W4.
  - destruct Hok as [W1 W2 W3 W4 W5 W6]. rewrite Hl in *. apply wound_with; [done|]. split; cbn; try done; auto.
  - destruct (exec st ws s now others op w) as [x w1] eqn:He. eapply Hcall; [exact He|]. intros s1 [W1 W2 W3 W4 W5 W6] Hl1 Hk1 Hn1. rewrite Hl1 in *. split; cbn; try done; auto.
    + intros _. rewrite Hk1, Hn1. destruct Hok as [_ _ V3 V4 _ _]. rewrite Hl in *. destruct op; try (by apply V3).
      right. apply (notify_one_other TheLoop); [done|]. by apply V4.
    + intros _. exact (short_S 5 _ (W6 I x)).
Qed.

Lemma wound_tick ws now w : all_wound w -> all_wound (keep_tick st ws now w).
Proof.
  intros Hw. apply wound_at; [done|]. intros s _ Hok. destruct (sn_keep s) eqn:Hk; try done. pose proof (wd_notify s Hok) as Hn.
  destruct Hok as [_ W2 W3 W4 W5 W6]. rewrite Hk in *. cbn zeta. destruct (_ <=? _).
  - apply (wound_with _ _ w Hw). split; cbn; eauto with notify.
    + intros _. right. apply (notify_one_other TheKeepalive); [done|]. by apply drop_away.
    + intros _. left. by right.
  - apply wound_with; [done|]. split; cbn; eauto with notify; [done|]. intros Ht. destruct (W3 Ht) as [[?|?] | Hs]; [done..|]. right.
    apply (drop_self_signalled _ TheLoop); [done..| |done]. apply W4. intros Hl. by rewrite Hl in Ht.
Qed.
Lemma wound_ping ws ok w : all_wound w -> all_wound (keep_ping ws ok w).
Proof.
  intros Hw. apply wound_at; [done|]. intros s _ Hok. destruct (sn_keep s) eqn:Hk; try done. pose proof (wd_notify s Hok) as Hn.
  destruct Hok as [_ W2 W3 W4 W5 W6]. rewrite Hk in *. destruct ok; apply (wound_with _ _ w Hw); split; cbn; eauto with notify; try done.
  - intros Ht. destruct (W3 Ht) as [[?|?] | Hs]; [done..|]. by right.
  - intros _. right. apply (notify_one_other TheKeepalive); [done|]. by apply W5.
  - intros _. left. by right.
Qed.
Lemma wound_keep_notified ws w : all_wound w -> all_wound (keep_notified ws w).
Proof.
  intros Hw. apply wound_at; [done|]. intros s _ Hok. destruct (sn_keep s) eqn:Hk; try done. pose proof (wd_notify s Hok) as Hn.
  destruct Hok as [_ W2 W3 W4 W5 W6]. rewrite Hk in *.
  pose proof (notified_ok TheKeepalive _ Hn) as H1. pose proof (notified_away TheKeepalive _ Hn) as H2. pose proof (notified_ready TheKeepalive _ Hn) as H3.
  pose proof (fun H => notified_other TheKeepalive TheLoop (sn_notify s) H) as H4.
  destruct (notified TheKeepalive (sn_notify s)) as [[] n]; apply (wound_with _ _ w Hw); split; cbn in *; auto; try done.
  - intros _. left. by left.
  - by rewrite Hk.
  - intros Ht. destruct (W3 Ht) as [[?|?] | Hs%H3]; done.
Qed.

Lemma wound_step w ev : all_wound w -> all_wound (step w ev).
Proof.
  intros Hw. destruct ev; cbn [Signaling.step]; try exact Hw.
  - unfold signal_ws_handler. destruct (extract_token _ _) as [tok|]; [|done]. destruct (Tokens.verify _ _ _ _ _); [|done..]. destruct peer_made; [|done].
    intros ws s. cbn. intros [[_ <-] | [_ Hl]]%lookup_insert_Some; [|by eapply Hw]. split; cbn; try done.
    split; [apply NoDup_nil_2 | done].
  - by apply wound_receive.
  - by apply wound_told.
  - by apply wound_loop_step.
  - apply wound_at; [done|]. intros s _ Hok. destruct (sn_writer s) as [[|m q]|]; try done. destruct ok; apply (wound_with _ _ w Hw).
    + by apply (wound_same s).
    + by apply (wound_same (set_notify (notify_one (notify_one (sn_notify s))) s)), (wound_notified (set_notify (notify_one (sn_notify s)) s)), wound_notified.
  - by apply wound_tick.
  - by apply wound_ping.
  - by apply wound_keep_notified.
  - unfold ws_send. destruct (w_sessions w !! ws) as [s|] eqn:Hs; [|done]. destruct (sn_writer s); [|done].
    apply (wound_with _ _ w Hw), (wound_same s); try done. by eapply Hw.
Qed.

(** A turn of its own brings the loop on; nothing else does once it has left. *)
Definition own_turn (ws : Z) (ev : Event) : bool := match ev with EvLoop ws' _ _ => ws' =? ws | _ => false end.
Lemma at_other ws ws' f w : ws <> ws' -> (forall s, w_sessions w !! ws' = Some s -> w_sessions (f s w) !! ws = w_sessions w !! ws) ->
  w_sessions (at_session ws' f w) !! ws = w_sessions w !! ws.
Proof. intros Hne Hf. unfold at_session. destruct (w_sessions w !! ws') eqn:Hs; [by apply Hf | done]. Qed.
Lemma loop_step_other ws ws' now others w : ws <> ws' -> w_sessions (loop_step st ws' now others w) !! ws = w_sessions w !! ws.
Proof.
  intros Hne. apply at_other; [done|]. intros s Hs. pose proof (fun op => exec_session ws' s now others op w Hs) as He.
  assert (forall op (x : answer op) w1 mk, exec st ws' s now others op w = (x, w1) ->
    w_sessions (at_session ws' (fun s w => with_session ws' (set_loop mk s) w) w1) !! ws = w_sessions w !! ws) as Hcall.
  { intros op x w1 mk Hx. destruct (He op) as (s1 & Hs1 & _). rewrite Hx in Hs1. cbn in Hs1. unfold at_session.
    rewrite Hs1, lookup_insert_eq. cbn. rewrite Hs1. by rewrite !lookup_insert_ne. }
  destruct (sn_loop s) as [| [[aor []] | op k] | [[] | op k] |]; cbn; try done; try (by rewrite lookup_insert_ne).
  all: destruct (exec st ws' s now others op w) as [x w1] eqn:Hx; by eapply Hcall.
Qed.

Lemma loop_step_turn ws now others w s n : w_sessions w !! ws = Some s -> turns_left (S n) (sn_loop s) ->
  exists s', w_sessions (loop_step st ws now others w) !! ws = Some s' /\ turns_left n (sn_loop s').
Proof.
  intros Hs Hn. unfold loop_step, at_session. rewrite Hs. destruct (sn_loop s) as [| t | [[] | op k] |] eqn:Hl; try done.
  - exists (set_loop Ended s). cbn. by rewrite lookup_insert_eq.
  - destruct (exec_session ws s now others op w Hs) as (s1 & Hs1 & _). destruct (exec st ws s now others op w) as [x w1]. cbn in Hs1.
    rewrite Hs1, lookup_insert_eq. exists (set_loop (Closing (k x)) s1). cbn. rewrite lookup_insert_eq. split; [done|]. destruct n as [|n]; [done|]. apply Hn.
  - exists s. rewrite Hl. by destruct n.
Qed.

Lemma step_left ev w ws s : sound w -> w_sessions w !! ws = Some s -> leaving (sn_loop s) -> own_turn ws ev = false ->
  exists s', w_sessions (step w ev) !! ws = Some s' /\ sn_loop s' = sn_loop s.
Proof.
  intros Hw Hs Hl Hown. assert (sn_loop s <> Receiving) as Hr by (intros H; by rewrite H in Hl).
  assert (forall ws' f, (forall s1, w_sessions w !! ws' = Some s1 -> exists s2, (f s1 w = w \/ w_sessions (f s1 w) = <[ws' := s2]> (w_sessions w)) /\
    (ws' = ws -> sn_loop s2 = sn_loop s1)) -> exists s', w_sessions (at_session ws' f w) !! ws = Some s' /\ sn_loop s' = sn_loop s) as Hat.
  { intros ws' f Hf. unfold at_session. destruct (w_sessions w !! ws') as [s1|] eqn:Hs1; [|by exists s]. destruct (Hf s1 eq_refl) as (s2 & [He | He] & H2); rewrite He; [by exists s|].
    destruct (decide (ws' = ws)) as [-> | Hne]; [|exists s; by rewrite lookup_insert_ne]. exists s2. rewrite lookup_insert_eq. split; [done|]. rewrite H2 by done. congruence. }
  destruct ev; cbn [Signaling.step]; try (by exists s).
  - unfold signal_ws_handler. destruct (extract_token _ _) as [tok|]; [|by exists s]. destruct (Tokens.verify _ _ _ _ _); [|by exists s..]. destruct peer_made; [|by exists s].
    exists s. cbn. destruct (so_session w Hw _ _ Hs) as (_ & Hlt & _). rewrite lookup_insert_ne by lia. done.
  - apply Hat. intros s1 Hs1. destruct (decide (ws0 = ws)) as [-> | Hne].
    + exists s1. split; [|done]. left. assert (s1 = s) as -> by congruence. by destruct (sn_loop s).
    + destruct (sn_loop s1); try (exists s1; split; [by left | done]). destruct fr; eexists; (split; [right; reflexivity | done]).
  - apply Hat. intros s1 Hs1. destruct (decide (ws0 = ws)) as [-> | Hne].
    + exists s1. split; [|done]. left. assert (s1 = s) as -> by congruence. by destruct (sn_loop s).
    + destruct (sn_loop s1); try (exists s1; split; [by left | done]). destruct (notified _ _) as [[] m]; eexists; (split; [right; reflexivity | done]).
  - cbn in Hown. apply Z.eqb_neq in Hown. exists s. rewrite loop_step_other by done. done.
  - apply Hat. intros s1 Hs1. destruct (sn_writer s1) as [[|m q]|]; [exists s1; split; [by left | done] | | exists s1; split; [by left | done]].
    destruct ok; eexists; (split; [right; reflexivity | done]).
  - apply Hat. intros s1 Hs1. destruct (sn_keep s1); [|exists s1; split; [by left | done]..]. cbn zeta.
    destruct (_ <=? _); eexists; (split; [right; reflexivity | done]).
  - apply Hat. intros s1 Hs1. destruct (sn_keep s1); try (exists s1; split; [by left | done]).
    destruct ok; eexists; (split; [right; reflexivity | done]).
  - apply Hat. intros s1 Hs1. destruct (sn_keep s1); try (exists s1; split; [by left | done]).
    destruct (notified _ _) as [[] m]; eexists; (split; [right; reflexivity | done]).
  - unfold ws_send. destruct (w_sessions w !! ws0) as [s1|] eqn:Hs1; [|by exists s]. destruct (sn_writer s1); [|by exists s]. cbn.
    destruct (decide (ws0 = ws)) as [-> | Hne]; [|exists s; by rewrite lookup_insert_ne]. eexists. rewrite lookup_insert_eq. split; [done|]. cbn. congruence.
Qed.

Definition own_turns (ws : Z) (evs : list Event) : nat := length (List.filter (own_turn ws) evs).
Lemma turns_left_le n m l : (n <= m)%nat -> turns_left n l -> turns_left m l.
Proof. intros Hle. induction Hle as [|m Hle IH]; [done|]. intros H. by apply turns_left_S, IH. Qed.
Lemma turns_end ws evs : forall n w s, sound w -> w_sessions w !! ws = Some s -> turns_left n (sn_loop s) -> (n <= own_turns ws evs)%nat ->
  exists s', w_sessions (run w evs) !! ws = Some s' /\ sn_loop s' = Ended.
Proof.
  induction evs as [|ev evs IH]; intros n w s Hw Hs Hn Hle.
  { exists s. split; [done|]. assert (n = 0%nat) as -> by (cbn in Hle; lia). by destruct (sn_loop s). }
  assert (leaving (sn_loop s)) as Hl by (by destruct (sn_loop s)).
  unfold own_turns in Hle. cbn [List.filter] in Hle. destruct (own_turn ws ev) eqn:Hown.
  - destruct ev as [| | | ws' now others | | | | | | | | | |]; try done. cbn in Hown. apply Z.eqb_eq in Hown as ->.
    assert (turns_left (S (pred n)) (sn_loop s)) as Hn' by (eapply turns_left_le; [|exact Hn]; lia).
    destruct (loop_step_turn ws now others w s (pred n) Hs Hn') as (s' & Hs' & Hl'). cbn in Hle.
    apply (IH (pred n) _ s'); [by apply (sound_step _ (EvLoop ws now others)) | done | done | unfold own_turns; lia].
  - destruct (step_left ev w ws s Hw Hs Hl Hown) as (s' & Hs' & Hl'). apply (IH n _ s'); [by apply sound_step | done | by rewrite Hl' | done].
Qed.

(** C28: A session ends with its tasks, however they interleave. A browser that was
    silent for the idle time is found at the next tick, and the keepalive task stops;
    when it stopped by itself, the loop is notified and leaves when it next waits; a
    loop that has left ends after seven turns of its own at most, whatever comes
    between; and when it has ended, the keepalive task finds a notification at its
    next turn. *)
Theorem session_winds_down (evs : list Event) (w : World) (Hi : initial w) ws s : w_sessions (run w evs) !! ws = Some s ->
  (sn_keep s = KeepSelecting -> forall now, exists s', w_sessions (run w (evs ++ [EvTick ws now])) !! ws = Some s' /\
     sn_keep s' = if idle_timeout st <=? duration_since now (sn_last_recv s) then KeepStopped else KeepPinging) /\
  (sn_keep s = KeepStopped -> sn_loop s = Receiving -> exists s', w_sessions (run w (evs ++ [EvLoopNotified ws])) !! ws = Some s' /\ leaving (sn_loop s')) /\
  (leaving (sn_loop s) -> forall evs', (7 <= own_turns ws evs')%nat -> exists s', w_sessions (run w (evs ++ evs')) !! ws = Some s' /\ sn_loop s' = Ended) /\
  (sn_loop s = Ended -> sn_keep s = KeepSelecting -> exists s', w_sessions (run w (evs ++ [EvKeepNotified ws])) !! ws = Some s' /\ sn_keep s' = KeepNotified).
Proof.
  intros Hs. pose proof (sound_run evs w (sound_initial w Hi)) as Hsound.
  assert (all_wound (run w evs)) as Hw.
  { assert (all_wound w) as H by (intros ws' s' Hl; rewrite (proj1 Hi), lookup_empty in Hl; done). clear -H. revert w H.
    induction evs as [|ev evs IH]; intros w Hw; [done|]. by apply IH, wound_step. }
  pose proof (Hw _ _ Hs) as [W1 W2 W3 W4 W5 W6].
  assert (forall evs', run w (evs ++ evs') = run (run w evs) evs') as Happ by (intros; apply fold_left_app).
  set (w1 := run w evs) in *. split_and!.
  - intros Hk now. rewrite Happ. clearbody w1. unfold Signaling.run. cbn [fold_left Signaling.step]. unfold keep_tick, at_session. rewrite Hs, Hk. cbn zeta.
    destruct (_ <=? _); cbn; rewrite lookup_insert_eq; by eexists.
  - intros Hk Hl. rewrite Happ. clearbody w1. unfold Signaling.run. cbn [fold_left Signaling.step]. unfold loop_notified, at_session. rewrite Hs, Hl.
    destruct (W2 Hk) as [H | H]; [by rewrite Hl in H|]. pose proof (notified_ready _ _ W1 H) as Hr. destruct (notified _ _) as [ready n]. cbn in Hr. subst.
    cbn. rewrite lookup_insert_eq. by eexists.
  - intros Hl evs' Hn. rewrite Happ. eapply turns_end; [done | exact Hs | by apply W6 | done].
  - intros Hl Hk. rewrite Happ. clearbody w1. unfold Signaling.run. cbn [fold_left Signaling.step]. unfold keep_notified, at_session. rewrite Hs, Hk.
    assert (signalled TheKeepalive (sn_notify s)) as H. { destruct W3 as [[H | H] | H]; [by rewrite Hl | congruence.. | done]. }
    pose proof (notified_ready _ _ W1 H) as Hr. destruct (notified _ _) as [ready n]. cbn in Hr. subst. cbn. rewrite lookup_insert_eq. by eexists.
Qed.
End sessions.

(** A short message is cut where a character ends. *)
Lemma floor_boundary_ok s n : is_utf8 s = true -> boundary (str_drop (floor_boundary s n) s) = true.
Proof. intros Hs. induction n as [|n IH]; cbn [floor_boundary]; [by apply is_utf8_boundary|]. by destruct (boundary (str_drop (S n) s)) eqn:H. Qed.
Lemma truncate_sms_utf8 body : is_utf8 body = true -> is_utf8 (truncate_sms body) = true.
Proof.
  intros Hb. unfold truncate_sms. case_match; [|done].
  refine (proj1 (is_utf8_cut _ (str_drop (floor_boundary body SMS_BODY_MAX_BYTES) body) _ _)); [by apply floor_boundary_ok | by rewrite str_take_drop].
Qed.
(** The two copies of the check agree. *)
Lemma dial_checks_agree target : is_valid_dial_target target = is_valid_pwa_dial_target target.
Proof.
  unfold is_valid_dial_target, is_valid_pwa_dial_target. rewrite (Nat.leb_antisym). by destruct (String.eqb target ""), (32 <? String.length target)%nat.
Qed.

(** ** A browser *)

Definition sample_state : SignalingState :=
  mkSignaling [1; 2] (from_secs 60) (from_secs 30) (from_secs 60) true true true true true true true true.
Definition sample_json (t : string) : ClientMessage + string :=
  if String.eqb t "register" then inl (CmRegister "alice")
  else if String.eqb t "dial" then inl (CmOffer "v=0" (Some "117"))
  else if String.eqb t "smuggle" then inl (CmOffer "v=0" (Some "117@evil"))
  else if String.eqb t "ice" then inl (CmIce "")
  else inr "expected value".
Definition sample_token : string := issue toy_hmac letters [1; 2] "alice" 1000.
Definition sample_others (op : Op) : answer op :=
  match op as o return answer o with
  | OpRegister _ _ | OpUnregister _ | OpNotify | OpPeerClose | OpCancelAll | OpCloseOutbound | OpCloseInbound => tt
  | OpDeliver _ _ | OpDecline _ _ | OpSend _ => true
  | OpHandleOffer _ | OpPwaOutbound _ _ => inl "v=0"
  | OpAddIce _ | OpUpsertSubscription _ _ _ _ | OpSetHold _ _ | OpInjectDtmf _ _ => None
  | OpStartRecording _ => inl "rec-1"
  | OpStopRecording _ => inl ("rec-1", 0)
  | OpSendSms _ _ => inl (BrowserCalls.Sent 200)
  end.
Abbreviation sample_run := (run sample_state sample_json toy_hmac unletters (signaling_start (mkRegistrar ∅))).
Definition sample_connect : Event := EvConnect (Some ("bEaReR " +:+ sample_token)) None 10 (mkAddr (V4 192 168 30 5) 50000) true 0.
(** A frame, and the turns of the loop that it takes. *)
Definition sample_frame (ws : Z) (fr : Frame) (turns : nat) : list Event := EvFrame ws fr 0 :: repeat (EvLoop ws 0 sample_others) turns.

Lemma sample_initial : initial (signaling_start (mkRegistrar ∅)).
Proof. split_and!; [done..|]. cbn. intros aor bd H. by rewrite lookup_empty in H. Qed.

Definition register_events : list Event := [sample_connect; EvTick 0 (from_secs 30)] ++ sample_frame 0 (FrText "register") 3.
Definition dial_events : list Event := [sample_connect] ++ sample_frame 0 (FrText "smuggle") 2 ++ sample_frame 0 (FrText "dial") 3.
Definition idle_events : list Event := [sample_connect; EvTick 0 (from_secs 60); EvLoopNotified 0].

Lemma browsers_hold_tokens_witness :
  let w := sample_run register_events in
  (exists bd, inner (w_registrar w) !! "alice" = Some bd /\ transport bd = WebRtc 0 0 0) /\
  exists s, w_sessions w !! 0 = Some s /\ ext_id (sn_claims s) = "alice" /\
    exists token now, Tokens.verify toy_hmac unletters [1; 2] now token = Ok (sn_claims s) /\ now < expiry (sn_claims s).
Proof.
  intros w. assert (inner (w_registrar w) !! "alice" = Some (mkBinding "sip:alice@webrtc.peer" (mkAddr (V4 192 168 30 5) 50000) (from_secs 60) (WebRtc 0 0 0))) as Hb by (by vm_compute).
  split; [exact (ex_intro _ _ (conj Hb eq_refl))|]. pose proof sample_initial as Hi.
  destruct (browsers_hold_tokens sample_state sample_json toy_hmac unletters register_events _ Hi "alice" _ 0 0 0 Hb eq_refl) as (_ & _ & s & Hs & _ & He & Ht).
  exact (ex_intro _ s (conj Hs (conj He Ht))).
Defined.

Lemma browsers_dial_numbers_witness :
  let w := sample_run dial_events in
  w_outs w = [Opened 0; Called 0 (OpPwaOutbound "117" "v=0")] /\
  parse_sip_uri (web_target_uri BrowserLegs.sample_config "117") = Ok (mkUri "sip" (Some "117") "192.0.2.1" (Some 5060) [] []).
Proof.
  intros w. assert (w_outs w = [Opened 0; Called 0 (OpPwaOutbound "117" "v=0")]) as Ho by (by vm_compute).
  split; [done|]. pose proof sample_initial as Hi.
  assert (u16 (sport (uac_server (wc_uac BrowserLegs.sample_config)))) as Hport by (vm_compute; split; done).
  destruct (browsers_dial_numbers sample_state sample_json toy_hmac unletters dial_events _ Hi BrowserLegs.sample_config 192 0 2 1 eq_refl Hport 0 (OpPwaOutbound "117" "v=0")) as (s & _ & _ & _ & H).
  - fold w. rewrite Ho. right. by left.
  - exact H.
Defined.

Lemma session_winds_down_witness :
  let w := sample_run idle_events in
  (exists s, w_sessions w !! 0 = Some s /\ leaving (sn_loop s)) /\
  exists s, w_sessions (sample_run (idle_events ++ repeat (EvLoop 0 0 sample_others) 7)) !! 0 = Some s /\ sn_loop s = Ended.
Proof.
  intros w. assert (exists s, w_sessions w !! 0 = Some s /\ leaving (sn_loop s)) as Hs by (by eexists; split; [vm_compute; reflexivity|]).
  split; [done|]. destruct Hs as (s & Hs & Hl).
  pose proof sample_initial as Hi.
  destruct (session_winds_down sample_state sample_json toy_hmac unletters idle_events _ Hi 0 s Hs) as (_ & _ & H & _).
  apply (H Hl). vm_compute. lia.
Defined.

(** ** What the code leaves open *)

(** A page that is opened again registers before the old session has ended: the
    end of the old one takes the binding of the new one. *)
Lemma old_session_unregisters_new :
  let w := sample_run ([sample_connect; sample_connect] ++ sample_frame 0 (FrText "register") 3 ++ sample_frame 1 (FrText "register") 3 ++ sample_frame 0 FrClose 7) in
  inner (w_registrar w) !! "alice" = None /\
  (fun s => (sn_aor s, match sn_loop s with Receiving => true | _ => false end)) <$> w_sessions w !! 1 = Some (Some "alice", true).
Proof. by vm_compute. Qed.

(** A write fails while neither of the other tasks waits: of its two
    notifications one permit is left, and when the keepalive task takes it the loop
    is not notified. *)
Lemma second_notification_is_lost :
  let w := sample_run ([sample_connect; EvLoopNotified 0; EvTick 0 (from_secs 30); EvFrame 0 (FrText "ice") (from_secs 30); EvPush 0 SmBye; EvWrite 0 false;
    EvPing 0 true; EvKeepNotified 0; EvLoop 0 0 sample_others; EvLoopNotified 0]) in
  (fun s => (sn_keep s, match sn_loop s with Receiving => true | _ => false end, sn_notify s)) <$> w_sessions w !! 0 =
    Some (KeepNotified, true, mkNotify false [TheLoop] []).
Proof. by vm_compute. Qed.
