(* ===== verification/InternalCalls.v ===== *)
(** Calls between extensions (dispatch_pwa_internal_call,
    dispatch_sip_ua_internal_invite, dispatch_sip_ua_to_sip_ua_intercom and
    dispatch_sip_ua_to_pwa_intercom of src/src/call/orchestrator.rs).

    A browser that dials an extension gets its answer at once, and a task it
    leaves behind calls the other one; a telephone's handler waits for the callee.
    Both are programs ([Tasks]): any other task can run between two of their calls.
    What the callees, the peers of the browsers and the sockets do is what those
    calls return. The registry of the calls ([Intercom]), the manager of the bridges
    ([Calls]) and the tables of the awaited answers ([Fork]) are the world they
    share, with the sessions of the browsers and the other users of the manager.

    An error that is pushed to a browser is known by its code and the numbers in
    its text. *)
From S2P Require Import Prelude RustStr NetAddr SipMessage Dialog SdpRewrite TuProg Uac Observability Transcoder Registrar Calls Bridge Intercom SipFields Fork Tasks.

(** ** The calls of the programs *)

(** What a bridge is made of: the peers of two browsers; a socket and its remote
    end with the peer of a browser; or two sockets with their remote ends.
    The manager has bridges of other handlers too. *)
Inductive InternalBridge :=
  | WebRtcRelayBridge (caller_peer callee_peer : Z)
  | WebRtcAudioBridge (socket : Z) (remote : SocketAddr) (peer opus_payload_type : Z)
  | RelayBridge (caller_socket callee_socket : Z) (caller callee : SocketAddr)
  (* of another handler *)
  | OtherBridge (n : Z).
Abbreviation InternalManager := (CallManager InternalBridge).

Inductive Waited := Replied (o : AnswerOutcome) | WaitCancelled | WaitTimedOut.

Inductive Op :=
  (* on the shared state *)
  | OpAdmit
  | OpReserve (pending : Z) (call_id : string)
  | OpForget (pending : Z) (call_id : string)
  | OpTimer (secs : Z)
  | OpAwait (shot : nat) (deadline : Z)
  | OpCreateCall
  | OpAttachBridge (id : Z) (b : InternalBridge)
  | OpTerminateCall (id : Z)
  | OpRegisterCall (e : InternalCallEntry)
  | OpCount (r : InviteResult)
  (* the clock, as nanoseconds since 1970 *)
  | OpWallClock
  (* the peers and the sessions of the browsers *)
  | OpHandleOffer (peer : Z) (sdp : string)
  | OpCreateOffer (peer : Z)
  | OpAcceptAnswer (peer : Z) (sdp : string)
  | OpTakeMedia (peer : Z)
  | OpClosePeer (peer : Z)
  | OpOffer (ws : Z) (call_id sdp : string)
  | OpTell (ws : Z) (code : string) (told : list Z)
  (* sockets, and the other telephones *)
  | OpBind (ip : IpAddr)
  | OpLocalAddr (socket : Z)
  | OpInvite (target_uri : string) (dest_addr : SocketAddr) (sdp_offer : string)
  | OpBye (dialog : UacDialog)
  | OpRespond (status : Z) (reason : string) (body : option string).

(** What a call returns; [false] and [None] are its failures. *)
Definition answer (op : Op) : Type :=
  match op with
  | OpAdmit => Prelude.outcome IntercomAdmitError unit
  | OpReserve _ _ => nat
  | OpTimer _ | OpWallClock | OpCreateCall => Z
  | OpAwait _ _ => Waited
  | OpAttachBridge _ _ => Prelude.outcome CallError unit
  | OpForget _ _ | OpTerminateCall _ | OpRegisterCall _ | OpCount _ | OpClosePeer _ => unit
  | OpHandleOffer _ _ | OpCreateOffer _ => option string
  | OpAcceptAnswer _ _ | OpTakeMedia _ | OpOffer _ _ _ | OpTell _ _ _ | OpBye _ | OpRespond _ _ _ => bool
  | OpBind _ => option Z
  | OpLocalAddr _ => option SocketAddr
  | OpInvite _ _ _ => option IntercomLegOutcome
  end.
Abbreviation task := (Tasks.task answer).
(** An asynchronous function that may fail, or panic on the way. *)
Abbreviation program A := (task (Prelude.outcome unit A)).

Definition tell (ws : Z) (code : string) (told : list Z) : task unit := _ ← call (OpTell ws code told); mret tt.
Definition close_peer (peer : Z) : task unit := call (OpClosePeer peer).
Definition count_extension (r : InviteResult) : task unit := call (OpCount r).
(** [dialog.send_bye()]; its error is logged. *)
Definition bye_callee (dialog : UacDialog) : task unit := _ ← call (OpBye dialog); mret tt.
Definition leg_call_id (dialog : UacDialog) : string := dlg_call_id (dlg_id (Uac.inner dialog)).

(** [extract_rtp_endpoint], which panics where the parser does. *)
Definition rtp_endpoint (body : string) : Prelude.outcome unit SocketAddr :=
  match parse_body body with Panic => Panic | _ => ok_or (extract_rtp_endpoint body) tt end.
(** The body for the other side: PCMU only, and with a socket of sabiden. *)
Definition anchored (body : string) (addr : SocketAddr) (now_secs : Z) : Prelude.outcome unit string :=
  match rewrite_offer for_ngn body with
  | Ok pcmu_only => match rewrite_rtp_endpoint pcmu_only (ip addr) (sport addr) now_secs with Ok b => Ok b | Err _ => Err tt | Panic => Panic end
  | _ => Panic
  end.

(** Which parts the configuration connects. *)
Record InternalConfig := mkInternal {
  ic_intercom : IntercomConfig; ic_call_manager : bool; ic_ext_inviter : bool; ic_bridge_ext_bind_ip : option IpAddr }.

Section programs.
Context (cfg : InternalConfig).

Definition ext_bind_ip : IpAddr := default (V4 127 0 0 1) (ic_bridge_ext_bind_ip cfg).
Definition target_id (kind target : string) (ts_ns : Z) : string := kind +:+ target +:+ "-" +:+ print_uint ts_ns.

(** ** A browser calls *)

(** What the caller's session gets at once, and the task that is left behind. *)
Record PwaOutboundOutcome := mkOutcome { savpf_answer : string; completion : program unit }.

(** The call fails: the browser is told why, and its peer is closed. *)
Definition fail_caller {A} (ws peer : Z) (code : string) (told : list Z) : program A :=
  tell ws code told ;; close_peer peer ;; mret (Err tt).

(** To another browser. *)
Definition browser_to_browser (ws caller_peer : Z) (target dest_aor caller_call_id callee_call_id : string) (callee_peer callee_ws callee_pending : Z) : program unit :=
  callee_offer ← call (OpCreateOffer callee_peer);
  match callee_offer with
  | None => fail_caller ws caller_peer "intercom_callee_offer_failed" []
  | Some callee_offer =>
      waiter ← call (OpReserve callee_pending callee_call_id);
      sent ← call (OpOffer callee_ws callee_call_id callee_offer);
      if negb sent then call (OpForget callee_pending callee_call_id) ;; fail_caller ws caller_peer "intercom_callee_unreachable" []
      else
        deadline ← call (OpTimer 30);
        waited ← call (OpAwait waiter deadline);
        match waited with
        | Replied (AnswerDecline status) => fail_caller ws caller_peer "intercom_callee_declined" [status]
        | WaitCancelled => fail_caller ws caller_peer "intercom_callee_disconnected" []
        | WaitTimedOut => call (OpForget callee_pending callee_call_id) ;; fail_caller ws caller_peer "intercom_callee_timeout" []
        | Replied (AnswerSdp sdp) =>
            accepted ← call (OpAcceptAnswer callee_peer sdp);
            if negb accepted then close_peer callee_peer ;; fail_caller ws caller_peer "intercom_callee_answer_invalid" []
            else
              caller_rx ← call (OpTakeMedia caller_peer);
              if negb caller_rx then
                tell ws "intercom_caller_media_unavailable" [] ;; close_peer callee_peer ;; close_peer caller_peer ;; mret (Err tt)
              else
                callee_rx ← call (OpTakeMedia callee_peer);
                if negb callee_rx then
                  tell ws "intercom_callee_media_unavailable" [] ;; close_peer callee_peer ;; close_peer caller_peer ;; mret (Err tt)
                else
                  bridge_call_id ← call OpCreateCall;
                  attached ← call (OpAttachBridge bridge_call_id (WebRtcRelayBridge caller_peer callee_peer));
                  match attached with
                  | Ok _ => call (OpRegisterCall (mkCall caller_call_id callee_call_id target dest_aor bridge_call_id)) ;; mret (Ok tt)
                  | _ =>
                      call (OpTerminateCall bridge_call_id) ;; tell ws "intercom_bridge_attach_failed" [] ;;
                      close_peer callee_peer ;; close_peer caller_peer ;; mret (Err tt)
                  end
        end
  end.

(** To a telephone, over a socket that was bound before. *)
Definition browser_to_telephone (ws caller_peer : Z) (target dest_aor caller_call_id : string) (contact_uri : string) (remote : SocketAddr)
    (socket : Z) (sdp_for_sip_ua : string) : program unit :=
  outcome ← call (OpInvite contact_uri remote sdp_for_sip_ua);
  match outcome with
  | Some (IntercomFailed status _) => count_extension Observability.Error ;; fail_caller ws caller_peer "intercom_callee_rejected" [status]
  | Some IntercomErrored => count_extension Observability.Error ;; fail_caller ws caller_peer "intercom_callee_unreachable" []
  | None => count_extension Observability.Error ;; fail_caller ws caller_peer "intercom_callee_invite_failed" []
  | Some (IntercomEstablished dialog response) =>
      match rtp_endpoint (resp_body response) with
      | Panic => mret Panic
      | Err _ =>
          count_extension Observability.Error ;; tell ws "intercom_callee_sdp_invalid" [] ;;
          bye_callee dialog ;; close_peer caller_peer ;; mret (Err tt)
      | Ok callee_rtp_peer =>
          bridge_call_id ← call OpCreateCall;
          attached ← call (OpAttachBridge bridge_call_id (WebRtcAudioBridge socket callee_rtp_peer caller_peer DEFAULT_OPUS_PT));
          match attached with
          | Ok _ =>
              call (OpRegisterCall (mkCall caller_call_id (leg_call_id dialog) target dest_aor bridge_call_id)) ;;
              count_extension Observability.Answered ;; mret (Ok tt)
          | _ =>
              count_extension Observability.Error ;; call (OpTerminateCall bridge_call_id) ;; tell ws "intercom_bridge_attach_failed" [] ;;
              bye_callee dialog ;; close_peer caller_peer ;; mret (Err tt)
          end
      end
  end.

(** The answer for the browser, as an offer for the telephone. *)
Definition telephone_offer (browser_answer : string) (sock : SocketAddr) (now_secs : Z) : Prelude.outcome string string :=
  match convert_savpf_to_avp browser_answer with
  | Panic => Panic
  | Err _ => Err "intercom_sdp_convert_failed"
  | Ok avp =>
      match anchored avp sock now_secs with
      | Panic => Panic
      | Err _ => Err "intercom_sdp_rewrite_failed"
      | Ok b => Ok b
      end
  end.

Definition to_telephone (target browser_answer : string) (peer ws : Z) (dest_binding : Binding) (dest_aor : string) : program PwaOutboundOutcome :=
  if negb (ic_call_manager cfg) then fail_caller ws peer "intercom_unavailable" []
  else if negb (ic_ext_inviter cfg) then fail_caller ws peer "intercom_unavailable" []
  else
    peer_media_rx ← call (OpTakeMedia peer);
    if negb peer_media_rx then fail_caller ws peer "intercom_caller_media_unavailable" []
    else
      sock ← call (OpBind ext_bind_ip);
      match sock with
      | None => fail_caller ws peer "intercom_socket_bind_failed" []
      | Some sock =>
          local ← call (OpLocalAddr sock);
          match local with
          | None => fail_caller ws peer "intercom_socket_bind_failed" []
          | Some sabi_local =>
              now ← call OpWallClock;
              match telephone_offer browser_answer sabi_local (as_secs now) with
              | Panic => mret Panic
              | Err code => fail_caller ws peer code []
              | Ok sdp_for_sip_ua =>
                  ts_ns ← call OpWallClock;
                  mret (Ok (mkOutcome browser_answer
                    (browser_to_telephone ws peer target dest_aor (target_id "intercom-sip-" target ts_ns +:+ "-caller")
                       (contact_uri dest_binding) (bd_remote dest_binding) sock sdp_for_sip_ua)))
              end
          end
      end.

Definition dispatch_pwa_internal_call (target browser_offer_sdp : string) (peer ws : Z) (dest_binding : Binding) (dest_aor : string) : program PwaOutboundOutcome :=
  admitted ← call OpAdmit;
  match admitted with
  | Ok _ =>
      browser_answer ← call (OpHandleOffer peer browser_offer_sdp);
      match browser_answer with
      | None => tell ws "intercom_caller_offer_failed" [] ;; mret (Err tt)
      | Some browser_answer =>
          match transport dest_binding with
          | WebRtc callee_peer callee_ws callee_pending =>
              if negb (ic_call_manager cfg) then tell ws "intercom_unavailable" [] ;; mret (Err tt)
              else
                ts_ns ← call OpWallClock;
                let intercom_call_id := target_id "intercom-" target ts_ns in
                mret (Ok (mkOutcome browser_answer
                  (browser_to_browser ws peer target dest_aor (intercom_call_id +:+ "-caller") (intercom_call_id +:+ "-callee")
                     callee_peer callee_ws callee_pending)))
          | Sip => to_telephone target browser_answer peer ws dest_binding dest_aor
          end
      end
  | Err (AtCapacity current max) => tell ws "intercom_busy" [Z.of_nat current; Z.of_nat max] ;; mret (Err tt)
  | _ => tell ws "intercom_busy" [] ;; mret (Err tt)
  end.

(** The session that took the offer (process_client_message of webrtc/signaling.rs):
    the handler's error is answered with one of the session's own, on the same
    connection. *)
Definition session_dials (target browser_offer_sdp : string) (peer ws : Z) (dest_binding : Binding) (dest_aor : string) : program PwaOutboundOutcome :=
  outcome ← dispatch_pwa_internal_call target browser_offer_sdp peer ws dest_binding dest_aor;
  match outcome with
  | Err e => tell ws "outbound_failed" [] ;; mret (Err e)
  | o => mret o
  end.

(** ** A telephone calls *)

(** [responder.quick] and the counter; whether it could be sent is passed over. *)
Definition refuse (status : Z) (reason : string) : program unit :=
  _ ← call (OpRespond status reason None); count_extension Observability.Error ;; mret (Ok tt).
Definition server_error : program unit := refuse 500 "Server Internal Error".
(** The body for the other side, or the refusal. *)
Definition with_body {A} (b : Prelude.outcome unit A) (refusal : program unit) (k : A -> program unit) : program unit :=
  match b with Ok b => k b | Err _ => refusal | Panic => mret Panic end.
Definition bound_socket (k : Z -> SocketAddr -> program unit) : program unit :=
  sock ← call (OpBind ext_bind_ip);
  match sock with
  | None => server_error
  | Some sock => local ← call (OpLocalAddr sock); match local with None => server_error | Some addr => k sock addr end
  end.

(** The bridge is up, or what holds the callee is undone; the caller has its 200. *)
Definition keep_call (b : InternalBridge) (e : Z -> InternalCallEntry) (undo : task unit) : program unit :=
  bridge_call_id ← call OpCreateCall;
  attached ← call (OpAttachBridge bridge_call_id b);
  match attached with
  | Ok _ => call (OpRegisterCall (e bridge_call_id)) ;; count_extension Observability.Answered ;; mret (Ok tt)
  | _ => call (OpTerminateCall bridge_call_id) ;; undo ;; count_extension Observability.Error ;; mret (Ok tt)
  end.

Definition given_call_id (request : SipRequest) : string := default "<no-call-id>" (hdr_get (req_headers request) "call-id").

(** The relay cannot fail to start ([RtpBridge::start] has no failing path). *)
Definition dispatch_sip_ua_to_sip_ua_intercom (from_aor : string) (request : SipRequest) (binding : Binding) (callee_aor : string)
    (caller_rtp_peer : SocketAddr) (caller_leg_sock : Z) (caller_leg_addr : SocketAddr) : program unit :=
  if negb (ic_ext_inviter cfg) then refuse 503 "Service Unavailable"
  else bound_socket (fun callee_leg_sock callee_leg_addr =>
    now ← call OpWallClock;
    with_body (anchored (req_body request) callee_leg_addr (as_secs now)) server_error (fun sdp_for_callee =>
    outcome ← call (OpInvite (contact_uri binding) (bd_remote binding) sdp_for_callee);
    match outcome with
    | Some (IntercomFailed status _) => refuse status (reason_phrase_for_status status)
    | Some IntercomErrored => refuse 408 "Request Timeout"
    | None => server_error
    | Some (IntercomEstablished dialog callee_response) =>
        let undone := bye_callee dialog ;; server_error in
        with_body (rtp_endpoint (resp_body callee_response)) undone (fun callee_rtp_peer =>
        now ← call OpWallClock;
        with_body (anchored (resp_body callee_response) caller_leg_addr (as_secs now)) undone (fun sdp_for_caller =>
        sent ← call (OpRespond 200 "OK" (Some sdp_for_caller));
        if negb sent then bye_callee dialog ;; count_extension Observability.Error ;; mret (Ok tt)
        else keep_call (RelayBridge caller_leg_sock callee_leg_sock caller_rtp_peer callee_rtp_peer)
               (mkCall (given_call_id request) (leg_call_id dialog) from_aor callee_aor) (bye_callee dialog)))
    end)).

(** The offer of sabiden is with the browser, and its answer is [k]'s argument. *)
Definition ring_browser (callee_peer callee_ws callee_pending : Z) (callee_call_id : string) (k : string -> program unit) : program unit :=
  callee_offer ← call (OpCreateOffer callee_peer);
  match callee_offer with
  | None => server_error
  | Some callee_offer =>
      waiter ← call (OpReserve callee_pending callee_call_id);
      sent ← call (OpOffer callee_ws callee_call_id callee_offer);
      if negb sent then call (OpForget callee_pending callee_call_id) ;; close_peer callee_peer ;; refuse 480 "Temporarily Unavailable"
      else
        deadline ← call (OpTimer 30);
        waited ← call (OpAwait waiter deadline);
        match waited with
        | Replied (AnswerSdp sdp) => k sdp
        | Replied (AnswerDecline status) => close_peer callee_peer ;; refuse status (reason_phrase_for_status status)
        | WaitCancelled => close_peer callee_peer ;; refuse 480 "Temporarily Unavailable"
        | WaitTimedOut => call (OpForget callee_pending callee_call_id) ;; close_peer callee_peer ;; refuse 408 "Request Timeout"
        end
  end.

Definition dispatch_sip_ua_to_pwa_intercom (from_aor : string) (request : SipRequest) (callee_peer callee_ws callee_pending : Z)
    (callee_aor : string) (caller_rtp_peer : SocketAddr) (caller_leg_sock : Z) (caller_leg_addr : SocketAddr) : program unit :=
  ts_ns ← call OpWallClock;
  let callee_call_id := target_id "intercom-sipua-pwa-" callee_aor ts_ns in
  let undone := close_peer callee_peer ;; server_error in
  ring_browser callee_peer callee_ws callee_pending callee_call_id (fun sdp =>
    accepted ← call (OpAcceptAnswer callee_peer sdp);
    if negb accepted then undone
    else
      callee_media_rx ← call (OpTakeMedia callee_peer);
      if negb callee_media_rx then undone
      else
        now ← call OpWallClock;
        let sdp_for_caller := match telephone_offer sdp caller_leg_addr (as_secs now) with Ok b => Ok b | Err _ => Err tt | Panic => Panic end in
        with_body sdp_for_caller undone (fun sdp_for_caller =>
        sent ← call (OpRespond 200 "OK" (Some sdp_for_caller));
        if negb sent then close_peer callee_peer ;; count_extension Observability.Error ;; mret (Ok tt)
        else
          let opus_pt := default DEFAULT_OPUS_PT (find_opus_payload_type sdp) in
          keep_call (WebRtcAudioBridge caller_leg_sock caller_rtp_peer callee_peer opus_pt)
            (mkCall (given_call_id request) callee_call_id from_aor callee_aor) (close_peer callee_peer))).

Definition dispatch_sip_ua_internal_invite (from_aor : string) (request : SipRequest) (binding : Binding) (callee_aor : string) : program unit :=
  admitted ← call OpAdmit;
  match admitted with
  | Ok _ =>
      if negb (ic_call_manager cfg) then refuse 503 "Service Unavailable"
      else with_body (rtp_endpoint (req_body request)) (refuse 488 "Not Acceptable Here") (fun caller_rtp_peer =>
        bound_socket (fun caller_leg_sock caller_leg_addr =>
        match transport binding with
        | Sip => dispatch_sip_ua_to_sip_ua_intercom from_aor request binding callee_aor caller_rtp_peer caller_leg_sock caller_leg_addr
        | WebRtc callee_peer callee_ws callee_pending =>
            dispatch_sip_ua_to_pwa_intercom from_aor request callee_peer callee_ws callee_pending callee_aor caller_rtp_peer
              caller_leg_sock caller_leg_addr
        end))
  | _ => refuse 486 "Busy Here"
  end.

(** ** The world they share *)

(** A browser's call, until its session has the answer and after; a telephone's. *)
Inductive Thread :=
  | Dispatching (ws peer : Z) (t : program PwaOutboundOutcome)
  | Completing (ws peer : Z) (answered : string) (t : program unit)
  | Handling (t : program unit).

(** [w_others]: the calls other handlers made in the manager. [w_acts]: what each
    call of extensions did, and what came back. *)
Record World := mkWorld {
  w_registry : InternalCallRegistry; w_manager : InternalManager; w_answers : PendingAnswers; w_metrics : Metrics;
  w_threads : gmap nat Thread; w_next : nat; w_others : gset Z;
  w_released : list (Release (B := InternalBridge)); w_acts : list (nat * done_call answer) }.

Definition with_registry (r : InternalCallRegistry) (w : World) : World :=
  mkWorld r (w_manager w) (w_answers w) (w_metrics w) (w_threads w) (w_next w) (w_others w) (w_released w) (w_acts w).
Definition with_manager (m : InternalManager) (rs : list Release) (w : World) : World :=
  mkWorld (w_registry w) m (w_answers w) (w_metrics w) (w_threads w) (w_next w) (w_others w) (w_released w ++ rs) (w_acts w).
Definition with_others (os : gset Z) (w : World) : World :=
  mkWorld (w_registry w) (w_manager w) (w_answers w) (w_metrics w) (w_threads w) (w_next w) os (w_released w) (w_acts w).
Definition with_answers (a : PendingAnswers) (w : World) : World :=
  mkWorld (w_registry w) (w_manager w) a (w_metrics w) (w_threads w) (w_next w) (w_others w) (w_released w) (w_acts w).
Definition with_metrics (m : Metrics) (w : World) : World :=
  mkWorld (w_registry w) (w_manager w) (w_answers w) m (w_threads w) (w_next w) (w_others w) (w_released w) (w_acts w).
Definition with_thread (id : nat) (t : Thread) (w : World) : World :=
  mkWorld (w_registry w) (w_manager w) (w_answers w) (w_metrics w) (<[id := t]> (w_threads w)) (w_next w) (w_others w) (w_released w) (w_acts w).
Definition new_thread (t : Thread) (w : World) : World :=
  mkWorld (w_registry w) (w_manager w) (w_answers w) (w_metrics w) (<[w_next w := t]> (w_threads w)) (S (w_next w)) (w_others w) (w_released w) (w_acts w).
Definition record_act (id : nat) (c : done_call answer) (w : World) : World :=
  mkWorld (w_registry w) (w_manager w) (w_answers w) (w_metrics w) (w_threads w) (w_next w) (w_others w) (w_released w) (w_acts w ++ [(id, c)]).

(** A call; [None] while it waits. [others] is what the outside returns. *)
Definition exec (now : Z) (others : forall op, answer op) (op : Op) (w : World) : option (answer op * World) :=
  match op return option (answer op * World) with
  | OpAdmit => Some (try_admit (ic_intercom cfg) (w_registry w), w)
  | OpReserve p call_id => let '(shot, a) := pending_register (w_answers w) p call_id in Some (shot, with_answers a w)
  | OpForget p call_id => Some (tt, with_answers (pending_cancel (w_answers w) p call_id) w)
  | OpTimer secs => Some (now + from_secs secs, w)
  | OpAwait shot deadline =>
      match shots (w_answers w) !! shot with
      | Some (Sent o) => Some (Replied o, w)
      | Some Empty =>
          if deadline <=? now then Some (WaitTimedOut, with_answers (drop_receiver (w_answers w) shot) w) else None
      | _ => Some (WaitCancelled, w)
      end
  | OpCreateCall => let '(id, m) := create_call (w_manager w) in Some (id, with_manager m [] w)
  | OpAttachBridge id b => let '(res, rs, m) := attach_media_bridge (w_manager w) id b in Some (res, with_manager m rs w)
  | OpTerminateCall id => let '(_, rs, m) := Calls.terminate (w_manager w) id in Some (tt, with_manager m rs w)
  | OpRegisterCall e => Some (tt, with_registry (call_insert (w_registry w) e) w)
  | OpCount r => Some (tt, with_metrics (record_invite_extension (w_metrics w) r) w)
  | op => Some (others op, w)
  end.

(** One step of a program: its next call. *)
Definition advance {A} (id : nat) (now : Z) (others : forall op, answer op) (t : task A) (back : task A -> Thread) (w : World) : World :=
  match t with
  | Fin _ => w
  | Do op k =>
      match exec now others op w with
      | None => w
      | Some (x, w) => with_thread id (back (k x)) (record_act id (did op x) w)
      end
  end.
Definition run_thread (id : nat) (now : Z) (others : forall op, answer op) (w : World) : World :=
  match w_threads w !! id with
  | None => w
  | Some (Dispatching ws peer (Fin (Ok o))) => with_thread id (Completing ws peer (savpf_answer o) (completion o)) w
  | Some (Dispatching ws peer t) => advance id now others t (Dispatching ws peer) w
  | Some (Completing ws peer answered t) => advance id now others t (Completing ws peer answered) w
  | Some (Handling t) => advance id now others t Handling w
  end.

Inductive Event :=
  | BrowserDials (target browser_offer_sdp : string) (peer ws : Z) (dest_binding : Binding) (dest_aor : string)
  | TelephoneDials (from_aor : string) (request : SipRequest) (binding : Binding) (callee_aor : string)
  | Runs (id : nat) (now : Z) (others : forall op, answer op)
  (* the sessions of the browsers *)
  | SessionDelivers (pending : Z) (call_id sdp : string)
  | SessionDeclines (pending : Z) (call_id : string) (status : Z)
  | SessionEnds (pending : Z)
  (* the other handlers, each with the calls it made *)
  | OthersCreate
  | OthersAttach (id : Z) (b : InternalBridge)
  | OthersTerminate (id : Z).

Definition step (w : World) (ev : Event) : World :=
  match ev with
  | BrowserDials target sdp peer ws binding aor => new_thread (Dispatching ws peer (session_dials target sdp peer ws binding aor)) w
  | TelephoneDials from_aor request binding aor => new_thread (Handling (dispatch_sip_ua_internal_invite from_aor request binding aor)) w
  | Runs id now others => run_thread id now others w
  | SessionDelivers p call_id sdp => with_answers (deliver (w_answers w) p call_id sdp).2 w
  | SessionDeclines p call_id status => with_answers (decline (w_answers w) p call_id status).2 w
  | SessionEnds p => with_answers (cancel_all (w_answers w) p).2 w
  | OthersCreate => let '(id, m) := create_call (w_manager w) in with_others ({[id]} ∪ w_others w) (with_manager m [] w)
  | OthersAttach id b =>
      if bool_decide (id ∈ w_others w) then let '(_, rs, m) := attach_media_bridge (w_manager w) id b in with_manager m rs w else w
  | OthersTerminate id =>
      if bool_decide (id ∈ w_others w) then let '(_, rs, m) := Calls.terminate (w_manager w) id in with_manager m rs w else w
  end.
Definition run (w : World) (evs : list Event) : World := fold_left step evs w.
Definition internal_start (m : Metrics) : World := mkWorld registry_new manager_new pending_new m ∅ 0 ∅ [] [].
End programs.
