(* ===== verification/InternalLegs.v ===== *)
(** What becomes of the calls between extensions (call/orchestrator.rs), under
    every interleaving with each other, with the sessions of the browsers and with
    the other users of the manager: each leg to a callee is ended or kept, each
    telephone gets one answer, and each browser is told of a failure once.

    What a program may still do is a property of it and of what it did ([leads]); the
    world adds what its calls left in the tables. *)
From S2P Require Import Prelude RustStr NetAddr SipMessage Transaction Dialog Sdp SdpRewrite TuProg Uac Observability Transcoder Registrar Calls Bridge TwoKeys Intercom SipFields Fork Tasks InternalCalls.

Abbreviation history := (list (done_call answer)).

(** ** What a call did *)

Definition pw_established (op : Op) : answer op -> option UacDialog :=
  match op with OpInvite _ _ _ => fun x => match x with Some (IntercomEstablished d _) => Some d | _ => None end | _ => fun _ => None end.
Abbreviation established := (pick pw_established).
Definition pw_byes (op : Op) : answer op -> option UacDialog :=
  match op with OpBye d => fun _ => Some d | _ => fun _ => None end.
Abbreviation byes := (pick pw_byes).
(** A response, with its body. *)
Definition pw_responses (op : Op) : answer op -> option (Z * option string) :=
  match op with OpRespond s _ b => fun _ => Some (s, b) | _ => fun _ => None end.
Abbreviation responses := (pick pw_responses).
(** The peers that took an answer. *)
Definition pw_accepted (op : Op) : answer op -> option Z :=
  match op with OpAcceptAnswer p _ => fun x : bool => if x then Some p else None | _ => fun _ => None end.
Abbreviation accepted := (pick pw_accepted).
(** The errors pushed to browsers, with their codes. *)
Definition pw_told (op : Op) : answer op -> option (Z * string) :=
  match op with OpTell ws code _ => fun _ => Some (ws, code) | _ => fun _ => None end.
Abbreviation told := (pick pw_told).
Definition pw_closed (op : Op) : answer op -> option Z :=
  match op with OpClosePeer p => fun _ => Some p | _ => fun _ => None end.
Abbreviation closed := (pick pw_closed).
Definition pw_registered (op : Op) : answer op -> option InternalCallEntry :=
  match op with OpRegisterCall e => fun _ => Some e | _ => fun _ => None end.
Abbreviation registered := (pick pw_registered).
Definition pw_created (op : Op) : answer op -> option Z :=
  match op with OpCreateCall => fun id => Some id | _ => fun _ => None end.
Abbreviation created := (pick pw_created).
Definition pw_attached (op : Op) : answer op -> option (Z * InternalBridge) :=
  match op with OpAttachBridge id b => fun x => match x with Ok _ => Some (id, b) | _ => None end | _ => fun _ => None end.
Abbreviation attached := (pick pw_attached).
Definition pw_terminated (op : Op) : answer op -> option Z :=
  match op with OpTerminateCall id => fun _ => Some id | _ => fun _ => None end.
Abbreviation terminated := (pick pw_terminated).

(** The call was kept: it is entered, with its bridge attached. *)
Definition kept (h : history) (callee_id : string -> Prop) : Prop :=
  exists e b, registered h = [e] /\ callee_id (callee_call_id e) /\ attached h = [(bridge_call_id e, b)] /\
    created h = [bridge_call_id e] /\ terminated h = [].
(** The leg to the callee was ended, or the call was kept. *)
Definition settled (h : history) : Prop :=
  (registered h = [] /\ byes h = established h) \/
  (byes h = [] /\ kept h (fun id => Forall (fun d => leg_call_id d = id) (established h))).

(** ** What a program does *)

(** One INVITE, one BYE for its leg, one response; and the bridge goes to the call
    that was made for it. *)
Definition orderly (h : history) (op : Op) : Prop :=
  match op with
  | OpInvite _ _ _ => established h = []
  | OpBye d => established h = [d] /\ byes h = []
  | OpRespond status _ body => responses h = [] /\ (is_Some body -> status = 200 /\ (established h <> [] \/ accepted h <> []))
  | OpCreateCall => created h = []
  | OpAttachBridge id _ => created h = [id] /\ attached h = [] /\ terminated h = []
  | OpTerminateCall id => created h = [id] /\ attached h = []
  | OpRegisterCall e => registered h = [] /\ exists b, attached h = [(bridge_call_id e, b)]
  | _ => True
  end.

(** What this makes of what it did. *)
Record proper (h : history) : Prop := {
  pr_responses : (length (responses h) <= 1)%nat;
  pr_body : forall status body, (status, Some body) ∈ responses h -> status = 200 /\ (established h <> [] \/ accepted h <> []);
  pr_leg : (length (established h) <= 1)%nat;
  pr_byes : (length (byes h) <= length (established h))%nat /\ forall d, d ∈ byes h -> d ∈ established h }.

(** A call in the registry is there once, with its bridge, which is not taken down. *)
Record bridged (h : history) : Prop := {
  bg_kept : attached h = [] \/ terminated h = [];
  bg_registered : forall e, e ∈ registered h -> registered h = [e] /\ exists b, attached h = [(bridge_call_id e, b)] }.

(** A code that names what went wrong. *)
Definition reason_code (code : string) : Prop := starts_with "intercom_" code = true.

Definition handled (h : history) (r : Prelude.outcome unit unit) : Prop :=
  match r with Ok _ => length (responses h) = 1%nat /\ settled h | Err _ => False | Panic => responses h = [] end.
(** Of a call of the browser [ws] with the peer [peer]. *)
Definition completed (ws peer : Z) (h : history) (r : Prelude.outcome unit unit) : Prop :=
  match r with
  | Ok _ => told h = [] /\ closed h = [] /\ length (registered h) = 1%nat /\ settled h
  | Err _ => (exists code, told h = [(ws, code)] /\ reason_code code) /\ peer ∈ closed h /\ registered h = [] /\ settled h
  | Panic => True
  end.
Definition dispatched (ws peer : Z) (h : history) (r : Prelude.outcome unit PwaOutboundOutcome) : Prop :=
  match r with
  | Ok o => leads orderly remember (completed ws peer) h (completion o)
  | Err _ => (exists code, told h = [(ws, code); (ws, "outbound_failed")] /\ reason_code code) /\ established h = [] /\ registered h = []
  | Panic => True
  end.

Section programs.
Context (cfg : InternalConfig).

Lemma internal_proper_next h op x : proper h -> orderly h op -> proper (h ++ [did op x]).
Proof.
  intros [H1 H2 H3 [H4 H5]] Ho.
  destruct op; try (split; rewrite !pick_app; cbn; rewrite ?app_nil_r; by (done || split)).
  - split; rewrite !pick_app; cbn; rewrite ?app_nil_r; [done | | done | by split].
    intros status body Hin. destruct (H2 _ _ Hin) as [? [? | ?]]; (split; [done|]); [by left | right]. by destruct (accepted h).
  - cbn in Ho. split; rewrite !pick_app; cbn; rewrite ?app_nil_r, ?length_app, ?Ho; [done | | cbn; repeat case_match; cbn; lia |].
    + intros status body Hin. destruct (H2 _ _ Hin) as [? [? | ?]]; (split; [done|]); [|by right]. congruence.
    + rewrite Ho in H4. split; [cbn in *; lia|]. intros d Hd. destruct (byes h); [by inversion Hd | cbn in H4; lia].
  - destruct Ho as [He Hb]. split; rewrite !pick_app; cbn; rewrite ?app_nil_r, ?He, ?Hb; [done | by rewrite <- He | by cbn | split; [by cbn|]].
    by intros d.
  - destruct Ho as [Hr Hb]. split; rewrite !pick_app; cbn; rewrite ?app_nil_r, ?Hr; [by cbn | | done | by split].
    intros status' body' Hin%list_elem_of_singleton. injection Hin as -> <-. by apply Hb.
Qed.
Lemma internal_bridged_next h op x : bridged h -> orderly h op -> bridged (h ++ [did op x]).
Proof.
  intros [H1 H2] Ho.
  destruct op; try (split; rewrite !pick_app; cbn; rewrite ?app_nil_r; done).
  - destruct Ho as (_ & Ha & Ht). split; rewrite !pick_app; cbn; rewrite ?app_nil_r, ?Ht; [by right|].
    intros e He. destruct (H2 _ He) as (_ & b' & Hb). congruence.
  - destruct Ho as (_ & Ha). split; rewrite !pick_app; cbn; rewrite ?app_nil_r, ?Ha; [by left|].
    intros e' He. destruct (H2 _ He) as (_ & b' & Hb). congruence.
  - destruct Ho as (Hr & b & Ha). split; rewrite !pick_app; cbn; rewrite ?app_nil_r, ?Hr; [done|].
    intros e' ->%list_elem_of_singleton. split; [done|]. by exists b.
Qed.
(** Through a program, call by call. *)
Ltac walk := leads_walk ltac:(
  lazy beta iota zeta delta [mbind task_bind mret task_ret call tell close_peer count_extension bye_callee fail_caller refuse server_error
    with_body bound_socket keep_call ring_browser browser_to_browser browser_to_telephone to_telephone dispatch_sip_ua_to_sip_ua_intercom
    dispatch_sip_ua_to_pwa_intercom dispatch_sip_ua_internal_invite dispatch_pwa_internal_call session_dials]).

Lemma telephone_offer_code b a n code : telephone_offer b a n = Err code -> reason_code code.
Proof. unfold telephone_offer. intros H. repeat case_match; simplify_eq; by vm_compute. Qed.

(** What was done so far decides what holds. *)
Ltac leaf :=
  unfold orderly, handled, completed, settled; cbn -[kept]; split_and?;
  first [ done | by left | by right | intros _; by right
        | left; by split_and?
        | split_and?; [eexists; split; [reflexivity | first [by vm_compute | by eapply telephone_offer_code]] | done ..]
        | eexists; reflexivity
        | right; split; [done|]; do 2 eexists; split_and!; cbn; [reflexivity | by repeat constructor | reflexivity | reflexivity | reflexivity]
        | set_solver ].

Lemma handler_leads from_aor request binding callee :
  leads orderly remember handled [] (dispatch_sip_ua_internal_invite cfg from_aor request binding callee).
Proof. walk. all: leaf. Qed.

Lemma dispatcher_leads target sdp peer ws binding aor :
  leads orderly remember (dispatched ws peer) [] (session_dials cfg target sdp peer ws binding aor).
Proof. walk. all: unfold dispatched; cbn [completion]; walk. all: leaf. Qed.

(** ** The world *)

Definition acts (w : World) : nat -> history := of_task (w_acts w).

Definition thread_ok (h : history) (th : Thread) : Prop :=
  match th with
  | Dispatching ws peer t => leads orderly remember (dispatched ws peer) h t
  | Completing ws peer _ t => leads orderly remember (completed ws peer) h t
  | Handling t => leads orderly remember handled h t
  end.

(** What the calls left in the tables; [n] bounds the calls of the manager. *)
Record shared (n : Z) (w : World) : Prop := {
  sh_ids : 1 <= next_id (w_manager w) <= n;
  sh_others : forall c, c ∈ w_others w -> c < next_id (w_manager w);
  sh_created : forall id c, c ∈ created (acts w id) ->
    c < next_id (w_manager w) /\ (c ∉ w_others w) /\ (forall id', c ∈ created (acts w id') -> id' = id);
  sh_attached : forall id c b, (c, b) ∈ attached (acts w id) -> c ∈ created (acts w id) /\
    (c ∉ terminated (acts w id) -> calls (w_manager w) !! c = Some (mkEntry Connected (Some b)));
  sh_registered : forall id e, e ∈ registered (acts w id) -> is_Some (by_caller (w_registry w) !! caller_call_id e);
  sh_entries : forall k e, by_caller (w_registry w) !! k = Some e -> k = caller_call_id e /\ exists id, e ∈ registered (acts w id) }.
Record sound (n : Z) (w : World) : Prop := {
  so_shared : shared n w;
  so_thread : forall id th, w_threads w !! id = Some th -> (id < w_next w)%nat /\ thread_ok (acts w id) th;
  so_new : forall id, (w_next w <= id)%nat -> acts w id = [];
  so_proper : forall id, proper (acts w id);
  so_bridged : forall id, bridged (acts w id) }.

Lemma acts_record id c w id' : acts (record_act id c w) id' = if decide (id' = id) then acts w id ++ [c] else acts w id'.
Proof. apply of_task_snoc. Qed.
Lemma pick_record {A} (f : forall op, answer op -> option A) id c w id' :
  pick f (acts (record_act id c w) id') = pick f (acts w id') ++ (if decide (id' = id) then pick f [c] else []).
Proof. apply pick_snoc. Qed.
Lemma shared_mono n n' w : shared n w -> n <= n' -> shared n' w.
Proof. intros [] ?. split; try done. lia. Qed.

(** A step that touches none of this. *)
Lemma shared_same n w w1 : shared n w -> w_manager w1 = w_manager w -> w_others w1 = w_others w -> w_registry w1 = w_registry w ->
  w_acts w1 = w_acts w -> shared n w1.
Proof. intros [H1 H2 H3 H4 H5 H6] Hm Ho Hr Ha. unfold acts in *. split; unfold acts; by rewrite ?Hm, ?Ho, ?Hr, ?Ha. Qed.
(** What is in the registry stays the doing of some call. *)
Lemma entries_kept n w id c : shared n w ->
  forall k e, by_caller (w_registry w) !! k = Some e -> k = caller_call_id e /\ exists id', e ∈ registered (acts (record_act id c w) id').
Proof.
  intros Hsh k e He. destruct (sh_entries n w Hsh _ _ He) as (-> & id' & Hin). split; [done|]. exists id'.
  rewrite pick_record, elem_of_app. by left.
Qed.
Ltac added H := rewrite pick_record, elem_of_added in H; cbn in H.

(** A call that does not. *)
Lemma shared_plain n w id c : shared n w -> created [c] = [] -> attached [c] = [] -> terminated [c] = [] -> registered [c] = [] ->
  shared n (record_act id c w).
Proof.
  intros Hsh Hc Ha Ht Hr. pose proof (entries_kept n w id c Hsh) as Hent. destruct Hsh as [H1 H2 H3 H4 H5 H6].
  assert (forall A (f : forall op, answer op -> option A) id', pick f [c] = [] -> pick f (acts (record_act id c w) id') = pick f (acts w id')) as Hsame.
  { intros A f id' Hf. rewrite pick_record, Hf. case_decide; by rewrite app_nil_r. }
  split; [exact H1 | exact H2 | .. | exact Hent]; intros id' k.
  - rewrite Hsame by done. intros Hk. destruct (H3 _ _ Hk) as (? & ? & Hu). split_and!; try done. intros id''. rewrite Hsame by done. apply Hu.
  - intros b. rewrite !Hsame by done. apply H4.
  - rewrite Hsame by done. apply H5.
Qed.

Lemma shared_create n w id : shared n w -> n + 1 < 2 ^ 64 ->
  let '(c, m) := create_call (w_manager w) in
  shared (n + 1) (record_act id (did OpCreateCall c) (with_manager m [] w)).
Proof.
  intros Hsh Hn. pose proof (entries_kept n w id (did OpCreateCall (next_id (w_manager w))) Hsh) as Hent. destruct Hsh as [H1 H2 H3 H4 H5 H6]. cbn [create_call]. set (c := next_id (w_manager w)) in *.
  assert (wrapping_add 64 c 1 = c + 1) as Hw by (apply wrap_small; unfold uN; lia).
  split; cbn [w_manager with_manager record_act w_others w_registry next_id calls]; rewrite ?Hw.
  - lia.
  - intros k Hk%H2. lia.
  - intros id' k Hk. added Hk. destruct Hk as [Hk | [-> Hk%list_elem_of_singleton]].
    + destruct (H3 _ _ Hk) as (? & ? & Hu). split_and!; [lia | done|]. intros id'' Hk'. added Hk'. destruct Hk' as [Hk' | [-> Hk'%list_elem_of_singleton]]; [by apply Hu | lia].
    + subst k. split_and!; [lia | intros Ho%H2; lia|]. intros id'' Hk'. added Hk'. destruct Hk' as [Hk' | [-> _]]; [|done].
      destruct (H3 _ _ Hk') as [? _]. lia.
  - intros id' k b Hk. added Hk. destruct Hk as [Hk | [_ Hk%elem_of_nil]]; [|done]. destruct (H4 _ _ _ Hk) as [Hc Hb].
    split; [by rewrite pick_record, elem_of_added; left|]. intros Ht. rewrite lookup_insert_ne; [apply Hb | destruct (H3 _ _ Hc) as [? _]; lia].
    intros Ht'. apply Ht. rewrite pick_record, elem_of_added. by left.
  - intros id' e He. added He. destruct He as [He | [_ He%elem_of_nil]]; [by eapply H5 | done].
  - exact Hent.
Qed.

(** A call of the manager on an id this call made, or others made. *)
Lemma shared_manager n w m rs id c : shared n w -> next_id m = next_id (w_manager w) -> created [c] = [] -> registered [c] = [] ->
  (forall id' k b, (k, b) ∈ attached (acts w id') \/ id' = id /\ (k, b) ∈ attached [c] -> k ∈ created (acts w id') /\
    (k ∉ terminated (acts w id') ++ (if decide (id' = id) then terminated [c] else []) -> calls m !! k = Some (mkEntry Connected (Some b)))) ->
  shared n (record_act id c (with_manager m rs w)).
Proof.
  intros Hsh Hn Hc Hr Hb. pose proof (entries_kept n w id c Hsh) as Hent. destruct Hsh as [H1 H2 H3 H4 H5 H6].
  assert (forall id', created (acts (record_act id c w) id') = created (acts w id')) as Hsame.
  { intros id'. rewrite pick_record, Hc. case_decide; by rewrite app_nil_r. }
  split; cbn [w_manager with_manager record_act w_others w_registry]; rewrite ?Hn; [exact H1 | exact H2 | .. | exact Hent]; intros id' k.
  - intros Hk. rewrite pick_record, elem_of_added in Hk. rewrite Hc in Hk. destruct Hk as [Hk | [_ []%elem_of_nil]]. destruct (H3 _ _ Hk) as (? & ? & Hu). split_and!; try done.
    intros id'' Hk'. rewrite pick_record, elem_of_added in Hk'. rewrite Hc in Hk'. destruct Hk' as [Hk' | [_ []%elem_of_nil]]. by apply Hu.
  - intros b Hk. rewrite pick_record, elem_of_added in Hk. destruct (Hb id' k b Hk) as [Hk1 Hk2]. split; [rewrite pick_record, elem_of_added; by left|].
    rewrite pick_record. exact Hk2.
  - intros He. rewrite pick_record, elem_of_added in He. rewrite Hr in He. destruct He as [He | [_ []%elem_of_nil]]. by eapply H5.
Qed.
Lemma shared_attach n w id c b : shared n w -> orderly (acts w id) (OpAttachBridge c b) ->
  let '(res, rs, m) := attach_media_bridge (w_manager w) c b in
  shared n (record_act id (did (OpAttachBridge c b) res) (with_manager m rs w)).
Proof.
  intros Hsh (Hc & Ha & Ht). pose proof Hsh as [H1 H2 H3 H4 H5 H6]. unfold attach_media_bridge.
  destruct (calls (w_manager w) !! c) as [e|]; apply shared_manager; try done.
  - intros id' k b' Hk. destruct (decide (k = c)) as [-> | Hne].
    + assert (id' = id) as ->.
      { assert (c ∈ created (acts w id)) as Hin by (rewrite Hc; by constructor). destruct Hk as [Hk | [-> _]]; [|done].
        apply H4 in Hk as [Hk _]. destruct (H3 _ _ Hin) as (_ & _ & Hu). by apply Hu. }
      destruct Hk as [Hk | [_ Hk%list_elem_of_singleton]]; [rewrite Ha in Hk; by apply elem_of_nil in Hk|]. injection Hk as ->.
      split; [rewrite Hc; by constructor|]. intros _. cbn. by rewrite lookup_insert_eq.
    + destruct Hk as [Hk | [_ Hk%list_elem_of_singleton]]; [|by injection Hk]. destruct (H4 _ _ _ Hk) as [Hk1 Hk2].
      split; [done|]. cbn. rewrite lookup_insert_ne by done. intros Hnt. apply Hk2. intros Hin. apply Hnt, elem_of_app. by left.
  - intros id' k b' [Hk | [_ []%elem_of_nil]]. destruct (H4 _ _ _ Hk) as [Hk1 Hk2]. split; [done|].
    intros Hnt. apply Hk2. intros Hin. apply Hnt, elem_of_app. by left.
Qed.
Lemma shared_terminate n w id c : shared n w -> orderly (acts w id) (OpTerminateCall c) ->
  let '(_, rs, m) := Calls.terminate (w_manager w) c in
  shared n (record_act id (did (OpTerminateCall c) tt) (with_manager m rs w)).
Proof.
  intros Hsh (Hc & Ha). pose proof Hsh as [H1 H2 H3 H4 H5 H6].
  assert (forall id' k b, (k, b) ∈ attached (acts w id') -> k <> c) as Hne.
  { intros id' k b Hk ->. assert (c ∈ created (acts w id)) as Hin by (rewrite Hc; by constructor).
    destruct (H4 _ _ _ Hk) as [Hk1 _]. destruct (H3 _ _ Hin) as (_ & _ & Hu). rewrite (Hu _ Hk1), Ha in Hk. by apply elem_of_nil in Hk. }
  unfold Calls.terminate. destruct (calls (w_manager w) !! c) as [e|]; apply shared_manager; try done; intros id' k b [Hk | [_ []%elem_of_nil]];
    destruct (H4 _ _ _ Hk) as [Hk1 Hk2]; (split; [done|]); intros Hnt; cbn; rewrite ?lookup_delete_ne by (symmetry; by eapply Hne);
    apply Hk2; intros Hin; apply Hnt, elem_of_app; by left.
Qed.
Lemma shared_register n w id e : shared n w ->
  shared n (record_act id (did (OpRegisterCall e) tt) (with_registry (call_insert (w_registry w) e) w)).
Proof.
  intros Hsh. pose proof (entries_kept n w id (did (OpRegisterCall e) tt) Hsh) as Hent. destruct Hsh as [H1 H2 H3 H4 H5 H6].
  assert (forall A (f : forall op, answer op -> option A) id', pick f [did (OpRegisterCall e) tt] = [] ->
    pick f (acts (record_act id (did (OpRegisterCall e) tt) w) id') = pick f (acts w id')) as Hsame.
  { intros A f id' Hf. rewrite pick_record, Hf. case_decide; by rewrite app_nil_r. }
  split; [exact H1 | exact H2 | ..]; [intros id' k.. | intros k e'].
  - change (acts (record_act id _ (with_registry _ w))) with (acts (record_act id (did (OpRegisterCall e) tt) w)). rewrite Hsame by done.
    intros Hk. destruct (H3 _ _ Hk) as (? & ? & Hu). split_and!; try done. intros id''. rewrite Hsame by done. apply Hu.
  - intros b. change (acts (record_act id _ (with_registry _ w))) with (acts (record_act id (did (OpRegisterCall e) tt) w)). rewrite !Hsame by done. apply H4.
  - intros Hk. added Hk. cbn. apply lookup_insert_is_Some'. destruct Hk as [Hk | [_ Hk%list_elem_of_singleton]]; [right; by eapply H5 | left; by subst].
  - cbn [w_registry with_registry record_act call_insert by_caller]. intros [[<- <-] | [_ He]]%lookup_insert_Some.
    + split; [done|]. exists id. change (acts (record_act id _ (with_registry _ w))) with (acts (record_act id (did (OpRegisterCall e) tt) w)).
      rewrite pick_record, decide_True by done. apply elem_of_app. right. by constructor.
    + exact (Hent _ _ He).
Qed.

(** Any call. *)
Lemma shared_exec n w id now others op x w1 : shared n w -> n + 1 < 2 ^ 64 -> orderly (acts w id) op ->
  exec cfg now others op w = Some (x, w1) -> shared (n + 1) (record_act id (did op x) w1).
Proof.
  intros Hsh Hn Ho He.
  assert (forall a, shared (n + 1) (with_answers a w)) as Hans by (intros a; apply (shared_mono n); [by apply (shared_same n w) | lia]).
  destruct op; cbn in He; try (injection He as <- <-; apply shared_plain; [apply (shared_mono n); [done | lia] | done..]).
  - injection He as <- <-. by apply shared_plain.
  - injection He as <- <-. by apply shared_plain.
  - destruct (shots (w_answers w) !! shot) as [[]|]; [destruct (deadline <=? now)|..]; simplify_eq; apply shared_plain; try done; apply (shared_mono n); (done || lia).
  - injection He as <- <-. by apply shared_create.
  - pose proof (shared_attach n w id id0 b Hsh Ho) as H. destruct (attach_media_bridge (w_manager w) id0 b) as [[res rs] m]. simplify_eq. eapply shared_mono; [done | lia].
  - pose proof (shared_terminate n w id id0 Hsh Ho) as H. destruct (Calls.terminate (w_manager w) id0) as [[res rs] m]. simplify_eq. eapply shared_mono; [done | lia].
  - injection He as <- <-. eapply shared_mono; [by apply shared_register | lia].
  - injection He as <- <-. apply shared_plain; [|done..]. eapply shared_mono; [by apply (shared_same n w) | lia].
Qed.

(** ** The steps *)

Lemma exec_frame now others op w x w1 : exec cfg now others op w = Some (x, w1) ->
  w_threads w1 = w_threads w /\ w_next w1 = w_next w /\ w_acts w1 = w_acts w.
Proof.
  intros He. destruct op; cbn in He; try (by injection He as _ <-).
  - by destruct (shots (w_answers w) !! shot) as [[]|]; [destruct (deadline <=? now)|..]; simplify_eq.
  - by destruct (attach_media_bridge (w_manager w) id b) as [[res rs] m]; simplify_eq.
  - by destruct (Calls.terminate (w_manager w) id) as [[res rs] m]; simplify_eq.
Qed.

Lemma sound_mono n n' w : sound n w -> n <= n' -> sound n' w.
Proof. intros [] ?. split; try done. by eapply shared_mono. Qed.
(** A thread goes on without a call. *)
Lemma sound_thread n w id th th' : sound n w -> w_threads w !! id = Some th -> (thread_ok (acts w id) th -> thread_ok (acts w id) th') ->
  sound n (with_thread id th' w).
Proof.
  intros [H1 H2 H3 H4 H5] Hl Ht. split; [by apply (shared_same n w) | | exact H3 | exact H4 | exact H5].
  intros id' u Hu. cbn in Hu. apply lookup_insert_Some in Hu as [[<- <-] | [_ Hu]]; [|by apply H2]. destruct (H2 _ _ Hl) as [? ?]. split; [done|]. by apply Ht.
Qed.
Lemma sound_advance {A} n w id now others (t : task A) (back : task A -> Thread) (Q : history -> A -> Prop) :
  sound n w -> n + 1 < 2 ^ 64 -> w_threads w !! id = Some (back t) -> (forall h u, thread_ok h (back u) = leads orderly remember Q h u) ->
  sound (n + 1) (advance cfg id now others t back w).
Proof.
  intros Hw Hn Hl Hb. unfold advance. destruct t as [a | op k]; [apply (sound_mono n); [done | lia]|].
  destruct (exec cfg now others op w) as [[x w1]|] eqn:He; [|apply (sound_mono n); [done | lia]].
  destruct (so_thread n w Hw _ _ Hl) as [Hid Ht]. rewrite Hb in Ht. destruct Ht as [Ho Hk].
  pose proof (shared_exec n w id now others op x w1 (so_shared n w Hw) Hn Ho He) as Hsh. destruct (exec_frame _ _ _ _ _ _ He) as (E1 & E2 & E3).
  assert (forall id', acts (record_act id (did op x) w1) id' = if decide (id' = id) then acts w id ++ [did op x] else acts w id') as Hacts.
  { intros id'. rewrite acts_record. unfold acts. by rewrite E3. }
  split.
  - by apply (shared_same (n + 1) (record_act id (did op x) w1)).
  - intros id' th Hth. cbn in Hth. rewrite E1 in Hth. change (acts (with_thread id (back (k x)) ?v)) with (acts v). rewrite Hacts.
    change (w_next (with_thread id (back (k x)) (record_act id (did op x) w1))) with (w_next w1). rewrite E2. apply lookup_insert_Some in Hth as [[<- <-] | [Hne Hth]].
    + split; [done|]. rewrite decide_True, Hb by done. apply Hk.
    + rewrite decide_False by done. by apply (so_thread n w).
  - intros id'. change (w_next (with_thread id (back (k x)) (record_act id (did op x) w1))) with (w_next w1). rewrite E2. intros Hge. change (acts (with_thread id (back (k x)) ?v)) with (acts v). rewrite Hacts, decide_False by lia. by apply (so_new n w).
  - intros id'. change (acts (with_thread id (back (k x)) ?v)) with (acts v). rewrite Hacts. pose proof (so_proper n w Hw) as Hp.
    case_decide; [|apply Hp]. by apply internal_proper_next.
  - intros id'. change (acts (with_thread id (back (k x)) ?v)) with (acts v). rewrite Hacts. pose proof (so_bridged n w Hw) as Hp.
    case_decide; [|apply Hp]. by apply internal_bridged_next.
Qed.
Lemma sound_run_thread n w id now others : sound n w -> n + 1 < 2 ^ 64 -> sound (n + 1) (run_thread cfg id now others w).
Proof.
  intros Hw Hn. unfold run_thread. destruct (w_threads w !! id) as [[ws peer t | ws peer a t | t]|] eqn:Hl; [| | |apply (sound_mono n); [done | lia]].
  - assert (sound (n + 1) (advance cfg id now others t (Dispatching ws peer) w)) as H by (by eapply sound_advance).
    destruct t as [[o | | ] |]; try done. apply (sound_mono n); [|lia]. by eapply sound_thread.
  - by eapply sound_advance.
  - by eapply sound_advance.
Qed.
Lemma internal_sound_new n w th : sound n w -> thread_ok [] th -> sound n (new_thread th w).
Proof.
  intros [H1 H2 H3 H4 H5] Ht. split; [by apply (shared_same n w) | | | exact H4 | exact H5].
  - intros id th' Hl. cbn in Hl. change (acts (new_thread th w)) with (acts w). cbn [w_next new_thread].
    apply lookup_insert_Some in Hl as [[<- <-] | [_ Hl]].
    + split; [lia|]. by rewrite H3.
    + destruct (H2 _ _ Hl) as [? ?]. split; [lia | done].
  - intros id Hid. cbn in Hid. apply H3. lia.
Qed.

(** Others make calls of their own. *)
Lemma shared_others n w m rs os : shared n w -> 1 <= next_id m <= n + 1 -> next_id (w_manager w) <= next_id m ->
  (forall c, c ∈ os -> c ∈ w_others w \/ next_id (w_manager w) <= c < next_id m) ->
  (forall c, c < next_id (w_manager w) -> c ∉ w_others w -> calls m !! c = calls (w_manager w) !! c) ->
  shared (n + 1) (with_others os (with_manager m rs w)).
Proof.
  intros [H1 H2 H3 H4 H5 H6] Hm Hle Hos Hc. split; cbn [w_manager w_others with_others with_manager w_registry];
    try change (acts (with_others os (with_manager m rs w))) with (acts w).
  - lia.
  - intros c Hin. destruct (Hos _ Hin) as [Hin' | ?]; [apply H2 in Hin'; lia | lia].
  - intros id c Hin. destruct (H3 _ _ Hin) as (Hlt & Ho & Hu). split_and!; [lia | | done].
    intros Hin'. destruct (Hos _ Hin') as [? | ?]; [done | lia].
  - intros id c b Hin. destruct (H4 _ _ _ Hin) as [Hcr Hb]. split; [done|]. intros Ht. destruct (H3 _ _ Hcr) as (Hlt & Ho & _).
    rewrite Hc by done. by apply Hb.
  - apply H5.
  - apply H6.
Qed.
Lemma sound_others n w m rs os : sound n w -> shared (n + 1) (with_others os (with_manager m rs w)) -> sound (n + 1) (with_others os (with_manager m rs w)).
Proof. intros [_ H2 H3 H4 H5] H. by split. Qed.

Lemma internal_sound_step n w ev : sound n w -> n + 1 < 2 ^ 64 -> sound (n + 1) (step cfg w ev).
Proof.
  intros Hw Hn. pose proof (so_shared n w Hw) as [H1 H2 H3 H4 H5 H6].
  assert (forall a, sound (n + 1) (with_answers a w)) as Hans.
  { intros a. apply (sound_mono n); [|lia]. destruct Hw as [Hsh ? ? ? ?]. split; [by apply (shared_same n w) | done..]. }
  destruct ev; cbn [step]; try apply Hans.
  - apply (sound_mono n); [|lia]. apply internal_sound_new; [done|]. apply dispatcher_leads.
  - apply (sound_mono n); [|lia]. apply internal_sound_new; [done|]. apply handler_leads.
  - by apply sound_run_thread.
  - cbn [create_call]. assert (wrapping_add 64 (next_id (w_manager w)) 1 = next_id (w_manager w) + 1) as Hwr by (apply wrap_small; unfold uN; lia).
    apply sound_others; [done|]. apply (shared_others n w); cbn [next_id calls]; rewrite ?Hwr; [done | lia | lia | |].
    + intros c [->%elem_of_singleton | Hc]%elem_of_union; [right; lia | by left].
    + intros c Hc _. rewrite lookup_insert_ne by lia. done.
  - case_bool_decide as Hin; [|by apply (sound_mono n); [|lia]].
    assert (forall m rs, attach_media_bridge (w_manager w) id b = (m.1, rs, m.2) -> sound (n + 1) (with_others (w_others w) (with_manager m.2 rs w))) as Hat.
    { intros [res m] rs He. apply sound_others; [done|]. unfold attach_media_bridge in He. destruct (calls (w_manager w) !! id) as [e|] eqn:Hl; cbn in He; simplify_eq;
        (apply (shared_others n w); cbn [next_id calls snd]; [done | lia | lia | by left |]); intros c Hc Hno; [|done].
      rewrite lookup_insert_ne; [done | by intros ->]. }
    destruct (attach_media_bridge (w_manager w) id b) as [[res rs] m] eqn:He. exact (Hat (res, m) rs eq_refl).
  - case_bool_decide as Hin; [|by apply (sound_mono n); [|lia]].
    assert (forall res rs m, Calls.terminate (w_manager w) id = (res, rs, m) -> sound (n + 1) (with_others (w_others w) (with_manager m rs w))) as Hat.
    { intros res rs m He. apply sound_others; [done|]. unfold Calls.terminate in He. destruct (calls (w_manager w) !! id) as [e|] eqn:Hl; cbn in He; simplify_eq;
        (apply (shared_others n w); cbn [next_id calls]; [done | lia | lia | by left |]); intros c Hc Hno; [|done].
      rewrite lookup_delete_ne; [done | by intros ->]. }
    destruct (Calls.terminate (w_manager w) id) as [[res rs] m] eqn:He. by eapply Hat.
Qed.
Lemma internal_sound_run m evs : Z.of_nat (length evs) < 2 ^ 64 - 1 -> sound (1 + Z.of_nat (length evs)) (run cfg (internal_start m) evs).
Proof.
  induction evs as [|ev evs IH] using rev_ind; intros Hn.
  - split; [split; cbn; [lia | intros; match goal with H : _ ∈ _ |- _ => by inversion H end .. | intros k e He; by rewrite lookup_empty in He]
      | intros id th [=] | done | |].
    + intros id. split; cbn; try lia; [intros ? ? Hin; by inversion Hin | split; [done|]; intros ? Hin; by inversion Hin].
    + intros id. split; [by left|]. intros ? Hin. by inversion Hin.
  - rewrite length_app in *. cbn in Hn. unfold run. rewrite fold_left_app. cbn [fold_left].
    replace (1 + Z.of_nat (length evs + length [ev])) with (1 + Z.of_nat (length evs) + 1) by (cbn; lia).
    apply internal_sound_step; [apply IH; lia | lia].
Qed.

(** ** What the theorems say *)

(** How a call is over; what its handler returned, or its panic. *)
Definition over (th : Thread) : option (Prelude.outcome unit unit) :=
  match th with
  | Dispatching _ _ (Fin (Err _)) => Some (Err tt)
  | Dispatching _ _ (Fin Panic) => Some Panic
  | Completing _ _ _ (Fin r) | Handling (Fin r) => Some r
  | _ => None
  end.
Lemma over_settled h th r : proper h -> thread_ok h th -> over th = Some r -> r <> Panic -> settled h.
Proof.
  intros Hp Ht Ho Hr. destruct th as [ws peer t | ws peer a t | t]; destruct t as [o|]; cbn in Ht, Ho; try done; [destruct o as [o | [] |]|..]; cbn in *; simplify_eq.
  - destruct Ht as (_ & He & Hg). left. rewrite He. split; [done|]. destruct (pr_byes h Hp) as [Hb _]. rewrite He in Hb.
    destruct (byes h); [done | cbn in Hb; lia].
  - destruct r as [u | e |]; [by destruct Ht as (_ & _ & _ & ?) | by destruct Ht as (_ & _ & _ & ?) | done].
  - destruct r as [u | e |]; [by destruct Ht | done | done].
Qed.

Context (m : Metrics).

(** *** The properties *)

(** A call in the registry has its bridge up. *)
Lemma registered_up n w id e : sound n w -> e ∈ registered (acts w id) ->
  exists b, calls (w_manager w) !! bridge_call_id e = Some (mkEntry Connected (Some b)).
Proof.
  intros Hs He. destruct (bg_registered _ (so_bridged _ _ Hs id) _ He) as (_ & b & Ha). exists b.
  destruct (sh_attached _ _ (so_shared _ _ Hs) id (bridge_call_id e) b) as [_ Hc]; [rewrite Ha; by constructor|]. apply Hc.
  destruct (bg_kept _ (so_bridged _ _ Hs id)) as [Hn | ->]; [by rewrite Hn in Ha | apply not_elem_of_nil].
Qed.

(** C3: no leg between extensions is lost. Over any sequence of events (browsers and
    telephones dial extensions, their tasks run in any order, callees answer or do not,
    sessions come and go, other handlers use the manager), when a call of an extension
    is over, unless its task panicked: a leg that a called telephone accepted was ended
    with a BYE, or the call was entered in the registry under that leg's Call-ID, with
    its bridge up in the manager; it is found there under its caller's Call-ID, unless
    another call was entered under the same one, which is then found instead. And at
    any time every call found in the registry is one that was entered under that
    Call-ID, and has its bridge up in the manager. *)
Theorem internal_legs_accounted evs : Z.of_nat (length evs) < 2 ^ 64 - 1 ->
  let w := run cfg (internal_start m) evs in
  (forall id th r, w_threads w !! id = Some th -> over th = Some r -> r <> Panic ->
   forall d, d ∈ established (acts w id) ->
     d ∈ byes (acts w id) \/
     exists e, e ∈ registered (acts w id) /\ callee_call_id e = leg_call_id d /\
       (exists b, calls (w_manager w) !! bridge_call_id e = Some (mkEntry Connected (Some b))) /\
       (lookup_by_caller (w_registry w) (caller_call_id e) = Some e \/
        exists id' e', id' <> id /\ e' ∈ registered (acts w id') /\ caller_call_id e' = caller_call_id e /\
          lookup_by_caller (w_registry w) (caller_call_id e) = Some e')) /\
  (forall k e, lookup_by_caller (w_registry w) k = Some e ->
     caller_call_id e = k /\ (exists id, e ∈ registered (acts w id)) /\
     exists b, calls (w_manager w) !! bridge_call_id e = Some (mkEntry Connected (Some b))).
Proof.
  intros Hn w. pose proof (internal_sound_run m evs Hn) as Hs. fold w in Hs. pose proof Hs as [[_ _ _ _ Hreg Hent] Hth _ Hp Hbr].
  split.
  - intros id th r Hl Ho Hr d Hd. destruct (Hth _ _ Hl) as [_ Ht].
    destruct (over_settled _ _ _ (Hp id) Ht Ho Hr) as [[Hg Hb] | [Hb (e & b & He & Hf & _)]]; [left; by rewrite Hb|].
    right. assert (e ∈ registered (acts w id)) as Hin by (rewrite He; by constructor). exists e. split; [done|].
    split; [rewrite Forall_forall in Hf; symmetry; by apply Hf|]. split; [by eapply registered_up|].
    destruct (Hreg _ _ Hin) as [e' He']. destruct (Hent _ _ He') as (Hk & id' & Hin').
    destruct (decide (id' = id)) as [-> | Hne]; [|right; by exists id', e'].
    left. destruct (bg_registered _ (Hbr id) _ Hin') as [E _]. destruct (bg_registered _ (Hbr id) _ Hin) as [E' _].
    rewrite E in E'. injection E' as ->. done.
  - intros k e He. destruct (Hent _ _ He) as (-> & id & Hin). split; [done|]. split; [by exists id | by eapply registered_up].
Qed.

(** C6: a telephone that calls an extension gets one final response. At any time at
    most one was sent; when the handler is over without a panic, exactly one; and one
    with a session description is a 200, and was sent after the callee had accepted. *)
Theorem internal_invite_answered evs id t : Z.of_nat (length evs) < 2 ^ 64 - 1 ->
  let w := run cfg (internal_start m) evs in
  w_threads w !! id = Some (Handling t) ->
  (length (responses (acts w id)) <= 1)%nat /\
  (forall r, t = Fin r -> r <> Panic -> length (responses (acts w id)) = 1%nat) /\
  (forall status body, (status, Some body) ∈ responses (acts w id) ->
     status = 200 /\ (established (acts w id) <> [] \/ accepted (acts w id) <> [])).
Proof.
  intros Hn w Hl. destruct (internal_sound_run m evs Hn) as [_ Hth _ Hp _]. destruct (Hth _ _ Hl) as [_ Ht]. destruct (Hp id) as [H1 H2 _ _].
  split_and!; [done | | done]. intros r -> Hr. cbn in Ht. by destruct r as [u | e |]; [destruct Ht | |].
Qed.

(** *** The registry only grows *)

Definition pw_admitted (op : Op) : answer op -> option unit :=
  match op with OpAdmit => fun x => match x with Ok _ => Some tt | _ => None end | _ => fun _ => None end.
Abbreviation admitted := (pick pw_admitted).
Definition full (w : World) : Prop := can_accept (w_registry w) (max_concurrent_internal_calls (ic_intercom cfg)) = false.

Lemma insert_keeps_full r e k : can_accept r k = false -> can_accept (call_insert r e) k = false.
Proof.
  unfold can_accept, registry_len. rewrite !Nat.ltb_ge. cbn. intros H. destruct (by_caller r !! caller_call_id e) eqn:He.
  - by rewrite map_size_insert_Some.
  - rewrite map_size_insert_None by done. lia.
Qed.
Lemma exec_full now others op w x w1 : full w -> exec cfg now others op w = Some (x, w1) -> full w1 /\ pw_admitted op x = None.
Proof.
  intros Hf He. destruct op; cbn in He; try (by injection He as <- <-).
  - injection He as <- <-. split; [done|]. unfold try_admit. destruct (enabled (ic_intercom cfg)); [|done]. unfold full in Hf. by rewrite Hf.
  - by destruct (shots (w_answers w) !! shot) as [[]|]; [destruct (deadline <=? now)|..]; simplify_eq.
  - by destruct (attach_media_bridge (w_manager w) id b) as [[res rs] m']; simplify_eq.
  - by destruct (Calls.terminate (w_manager w) id) as [[res rs] m']; simplify_eq.
  - injection He as <- <-. split; [|done]. by apply insert_keeps_full.
Qed.
Lemma advance_full {A} id now others (t : task A) back w : full w ->
  let w' := advance cfg id now others t back w in full w' /\ forall id', admitted (acts w' id') = admitted (acts w id').
Proof.
  intros Hf. cbn zeta. unfold advance. destruct t as [a | op k]; [done|]. destruct (exec cfg now others op w) as [[x w1]|] eqn:He; [|done].
  destruct (exec_full _ _ _ _ _ _ Hf He) as [Hf1 Hx]. destruct (exec_frame _ _ _ _ _ _ He) as (_ & _ & Ha). split; [done|].
  intros id'. change (acts (with_thread id (back (k x)) ?v)) with (acts v). rewrite pick_record.
  assert (acts w1 id' = acts w id') as -> by (unfold acts; by rewrite Ha). case_decide; [|by rewrite app_nil_r].
  cbn. rewrite Hx. by rewrite app_nil_r.
Qed.
Lemma step_full w ev : full w -> full (step cfg w ev) /\ forall id, admitted (acts (step cfg w ev) id) = admitted (acts w id).
Proof.
  intros Hf. destruct ev; cbn [step]; try done.
  - unfold run_thread. destruct (w_threads w !! id) as [[ws peer t | ws peer a t | t]|]; [| | |done]; [|by apply advance_full..].
    destruct t as [[o | | ] |]; (done || by apply advance_full).
  - case_bool_decide; [|done]. by destruct (attach_media_bridge (w_manager w) id b) as [[res rs] m'].
  - case_bool_decide; [|done]. by destruct (Calls.terminate (w_manager w) id) as [[res rs] m'].
Qed.

(** Nothing leaves the registry of the calls between extensions: the program never
    calls [remove_by_caller] or [remove_by_callee], so that the programs above have no
    such call either. Once it holds as many calls as are allowed at a time, it stays
    full, also when the calls have ended, and no call is admitted again. *)
Theorem full_registry_refuses_all w evs : full w ->
  full (run cfg w evs) /\ forall id, admitted (acts (run cfg w evs) id) = admitted (acts w id).
Proof.
  intros Hf. unfold run. revert w Hf. induction evs as [|ev evs IH]; intros w Hf; [done|]. cbn [fold_left].
  destruct (step_full w ev Hf) as [Hf1 Ha]. destruct (IH _ Hf1) as [Hf2 Hb]. split; [done|]. intros id. by rewrite Hb, Ha.
Qed.
End programs.

(** ** Samples *)

Definition sample_internal : InternalConfig := mkInternal (mkIntercom true 1) true true None.
Definition sample_leg : UacDialog :=
  mkUacDialog (mkDialog (mkDialogId "leg-1" "l" "r") Confirmed "sip:a@192.0.2.1" "sip:b@192.0.2.1" "sip:b@192.0.2.7:5060" []
    2 "sip:a@192.0.2.1" "192.0.2.1:5060") 1 300 (mkAddr (V4 192 0 2 7) 5060).
(** What the outside returns: everything succeeds, and the callee's 200 has [body]. *)
Definition sample_outside (body : string) (op : Op) : answer op :=
  match op with
  | OpAdmit => Ok tt
  | OpReserve _ _ => 0%nat
  | OpTimer _ | OpWallClock | OpCreateCall => 1700000000000000000
  | OpAwait _ _ => WaitCancelled
  | OpAttachBridge _ _ => Ok tt
  | OpForget _ _ | OpTerminateCall _ | OpRegisterCall _ | OpCount _ | OpClosePeer _ => tt
  | OpHandleOffer _ _ | OpCreateOffer _ => Some "v=0"
  | OpAcceptAnswer _ _ | OpTakeMedia _ | OpOffer _ _ _ | OpTell _ _ _ | OpBye _ | OpRespond _ _ _ => true
  | OpBind _ => Some 7
  | OpLocalAddr _ => Some (mkAddr (V4 192 0 2 1) 40000)
  | OpInvite _ _ _ => Some (IntercomEstablished sample_leg (mkResponse 200 "OK" [] body))
  end.
Definition sample_dial (call_id : string) : Event :=
  TelephoneDials "a" (mkRequest Invite "sip:b@192.0.2.1" [("call-id", call_id)] linphone_offer)
    (mkBinding "sip:b@192.0.2.7:5060" (mkAddr (V4 192 0 2 7) 5060) 0 Sip) "b".
Definition sample_web_dial : Event :=
  BrowserDials "200" "v=0" 5 5 (mkBinding "sip:c@192.0.2.1" (mkAddr (V4 192 0 2 8) 443) 0 (WebRtc 6 6 6)) "c".
Definition runs (id n : nat) (body : string) : list Event := repeat (Runs id 0 (sample_outside body)) n.
Definition sample_run (evs : list Event) : World := run sample_internal (internal_start metrics_new) evs.

Lemma internal_legs_accounted_witness :
  let w := sample_run (sample_dial "c1" :: runs 0 14 linphone_offer) in
  sample_leg ∈ byes (acts w 0) \/ exists e, e ∈ registered (acts w 0) /\ callee_call_id e = "leg-1".
Proof.
  intros w. destruct (internal_legs_accounted sample_internal metrics_new (sample_dial "c1" :: runs 0 14 linphone_offer)) as [H _]; [by vm_compute|].
  destruct (H 0%nat (Handling (Fin (Ok tt))) (Ok tt)) with (d := sample_leg) as [Hb | (e & He & Hc & _)];
    [by vm_compute | done | done | vm_compute; by constructor | by left | right; by exists e].
Defined.
Lemma internal_invite_answered_witness :
  length (responses (acts (sample_run (sample_dial "c1" :: runs 0 14 linphone_offer)) 0)) = 1%nat.
Proof.
  destruct (internal_invite_answered sample_internal metrics_new (sample_dial "c1" :: runs 0 14 linphone_offer) 0 (Fin (Ok tt))) as (_ & H & _);
    [by vm_compute | by vm_compute |]. by apply (H (Ok tt)).
Defined.

(** One call is made; the next one is refused. *)
Lemma full_registry_refuses_all_witness :
  let w := sample_run (sample_dial "c1" :: runs 0 14 linphone_offer) in
  let w' := run sample_internal w (sample_dial "c2" :: runs 1 3 "") in
  full sample_internal w /\ pick pw_admitted (acts w' 1) = [] /\ responses (acts w' 1) = [(486, None)].
Proof.
  intros w w'. assert (full sample_internal w) as Hf by (by vm_compute). split; [done|].
  destruct (full_registry_refuses_all sample_internal w (sample_dial "c2" :: runs 1 3 "") Hf) as [_ H].
  split; [exact (eq_trans (H 1%nat) (ltac:(by vm_compute) : pick pw_admitted (acts w 1) = [])) | by vm_compute].
Defined.

(** ** What modelling showed *)

(** The body of the callee's 200 makes the parser panic: the leg is up, and neither
    side hears of it again. *)
Lemma callee_body_strands_leg :
  let h := acts (sample_run (sample_dial "c1" :: runs 0 14 (wide_line +:+ crlf))) 0 in
  over <$> w_threads (sample_run (sample_dial "c1" :: runs 0 14 (wide_line +:+ crlf))) !! 0%nat = Some (Some Panic) /\
  established h = [sample_leg] /\ byes h = [] /\ responses h = [] /\ registered h = [].
Proof. by vm_compute. Qed.
(** The admission looks at the registry, which a call enters last: two calls pass a
    limit of one. *)
Lemma admission_ignores_calls_under_way :
  let w := sample_run (sample_dial "c1" :: sample_dial "c2" :: runs 0 1 "" ++ runs 1 1 "" ++ runs 0 13 linphone_offer ++ runs 1 13 linphone_offer) in
  registry_len (w_registry w) = 2%nat /\ max_concurrent_internal_calls (ic_intercom sample_internal) = 1%nat.
Proof. by vm_compute. Qed.
(** Without a manager, the call of a browser to another browser is refused and its peer
    stays as it is; one to a telephone closes it. *)
Lemma refusal_without_manager_differs :
  let cfg := mkInternal intercom_default false true None in
  let after dial := acts (run cfg (internal_start metrics_new) (dial :: runs 0 6 "")) 0 in
  closed (after sample_web_dial) = [] /\
  closed (after (BrowserDials "200" "v=0" 5 5 (mkBinding "sip:b@192.0.2.7:5060" (mkAddr (V4 192 0 2 7) 5060) 0 Sip) "b")) = [5].
Proof. by vm_compute. Qed.
(** A browser that dials while the limit is reached gets two errors for its one offer. *)
Lemma refusal_told_twice :
  let w := run sample_internal (sample_run (sample_dial "c1" :: runs 0 14 linphone_offer)) (sample_web_dial :: runs 1 3 "") in
  told (acts w 1) = [(5, "intercom_busy"); (5, "outbound_failed")].
Proof. by vm_compute. Qed.
