(* ===== verification/Transfer.v ===== *)
(** The transfer of a call by its extension (handle_ext_refer, send_refer_notify and
    teardown_transferred_dialog of src/src/call/orchestrator.rs), together with what
    can end the call meanwhile: a BYE of the extension or of the NGN, and the end of
    the extension's registration.

    [Outbound] has the ends of a call as single steps. Here they are programs
    ([Tasks]), since a transfer waits for several answers while they run. An entry
    of the registry is an object of its own, with the lock of its dialog with the
    NGN: a task that found it keeps it when it leaves the registry. The call log,
    the bridges, the registrar and the callee are outputs and inputs, and the changes of a
    session ([Outbound]) are left out. *)
From S2P Require Import Prelude RustStr NetAddr SipMessage Dialog TuProg Uac Observability Registrar Calls SipFields Outbound Tasks.

(** ** The calls of the programs *)

Inductive Op :=
  (* the request's own transaction *)
  | OpRespond (status : Z) (reason : string)
  (* the registry *)
  | OpLookupByExt (call_id : string)
  | OpRemoveByExt (call_id : string)
  | OpRemoveByNgn (call_id : string)
  | OpDrainByAor (aor : string)
  (* the dialogs of an entry *)
  | OpRandom
  | OpBuildNotify (e : nat) (sipfrag_status_line subscription_state : string) (r : Z)
  | OpBuildExtBye (e : nat) (r : Z)
  | OpTerminateExt (e : nat)
  | OpLockNgn (e : nat)
  | OpBuildNgnBye (e : nat) (r : Z)
  | OpUnlockNgn (e : nat) (answered : bool)
  (* requests, awaited or from a task of their own *)
  | OpSendExt (request : SipRequest) (dst : SocketAddr)
  | OpSpawnExt (request : SipRequest) (dst : SocketAddr)
  | OpSendNgn (request : SipRequest) (dst : SocketAddr)
  (* the registrar, the callee, and what keeps count *)
  | OpLookupBinding (aor : string)
  | OpInvite (target_uri : string)
  | OpDecActive
  | OpLogAnswered (call_id : string)
  | OpStopBridge (bridge : option Z).

(** [false] and [None]: it failed, or nothing was found. *)
Definition answer (op : Op) : Type :=
  match op with
  | OpRespond _ _ | OpSendExt _ _ | OpSendNgn _ _ => bool
  | OpLookupByExt _ | OpRemoveByExt _ | OpRemoveByNgn _ => option (nat * OutboundCallEntry)
  | OpDrainByAor _ => list (nat * OutboundCallEntry)
  | OpRandom => Z
  | OpBuildNotify _ _ _ _ | OpBuildExtBye _ _ | OpBuildNgnBye _ _ => SipRequest * SocketAddr
  | OpTerminateExt _ | OpLockNgn _ | OpUnlockNgn _ _ | OpSpawnExt _ _ | OpDecActive | OpLogAnswered _ | OpStopBridge _ => unit
  | OpLookupBinding _ => option Binding
  | OpInvite _ => option LegOutcome
  end.
Abbreviation task := (Tasks.task answer).
Abbreviation call := (@Tasks.call Op answer).
Abbreviation program := (task (Prelude.outcome unit unit)).

(** ** The programs *)

Definition quick (status : Z) (reason : string) : program :=
  ok ← call (OpRespond status reason); mret (if (ok : bool) then Ok tt else Err tt).

(** [ngn_dialog.lock().await.send_bye()]; its error is logged. *)
Definition bye_ngn (e : nat) : task unit :=
  call (OpLockNgn e) ;;
  r ← call OpRandom;
  '(bye, dst) ← call (OpBuildNgnBye e r);
  answered ← call (OpSendNgn bye dst);
  call (OpUnlockNgn e answered).

Definition send_refer_notify (e : nat) (sipfrag_status_line subscription_state : string) : task unit :=
  r ← call OpRandom;
  '(notify, dst) ← call (OpBuildNotify e sipfrag_status_line subscription_state r);
  _ ← call (OpSendExt notify dst);
  mret tt.

Definition teardown_transferred_dialog (e : nat) (bridge : option Z) : task unit :=
  bye_ngn e ;;
  r ← call OpRandom;
  '(bye, dst) ← call (OpBuildExtBye e r);
  call (OpSpawnExt bye dst) ;;
  call (OpTerminateExt e) ;;
  call (OpStopBridge bridge).

Definition terminated : string := "terminated;reason=noresource".
Definition status_line (status : Z) (reason : string) : string := "SIP/2.0 " +:+ print_uint status +:+ " " +:+ reason.

(** The user the request names, if it names one with a SIP URI. *)
Definition refer_target (request : SipRequest) : option string := refer_to ← hdr_get (req_headers request) "refer-to"; extract_refer_to_aor refer_to.

(** [connected]: the inviter, the registrar and the layer of the extensions are there. *)
Definition handle_ext_refer (connected : bool) (request : SipRequest) : program :=
  let call_id := default "" (hdr_get (req_headers request) "call-id") in
  if negb connected then quick 503 "Service Unavailable"
  else
    entry ← call (OpLookupByExt call_id);
    match entry with
    | None => quick 481 "Call/Transaction Does Not Exist"
    | Some (e, entry) =>
        match refer_target request with
        | None => quick 400 "Bad Request"
        | Some target_aor =>
            _ ← call (OpRespond 202 "Accepted");
            send_refer_notify e "SIP/2.0 100 Trying" "active;expires=60" ;;
            binding ← call (OpLookupBinding target_aor);
            match binding with
            | None => send_refer_notify e "SIP/2.0 404 Not Found" terminated ;; mret (Ok tt)
            | Some binding =>
                outcome ← call (OpInvite (contact_uri binding));
                match outcome with
                | Some (LegEstablished _ response) =>
                    send_refer_notify e (status_line (status_code response) (reason response)) terminated ;;
                    teardown_transferred_dialog e (oe_bridge entry) ;;
                    _ ← call (OpRemoveByExt call_id);
                    call OpDecActive ;; call (OpLogAnswered call_id) ;; mret (Ok tt)
                | Some (LegFailed _ status) => send_refer_notify e (status_line status (sip_reason_for status)) terminated ;; mret (Ok tt)
                | _ => send_refer_notify e "SIP/2.0 503 Service Unavailable" terminated ;; mret (Ok tt)
                end
            end
        end
    end.

Definition ext_bye (request : SipRequest) : program :=
  _ ← call (OpRespond 200 "OK");
  match hdr_get (req_headers request) "call-id" with
  | None => mret (Ok tt)
  | Some call_id =>
      entry ← call (OpRemoveByExt call_id);
      match entry with
      | None => mret (Ok tt)
      | Some (e, entry) =>
          bye_ngn e ;; call OpDecActive ;; call (OpLogAnswered call_id) ;; call (OpStopBridge (oe_bridge entry)) ;; mret (Ok tt)
      end
  end.

Definition ngn_bye (ngn_call_id : string) : program :=
  entry ← call (OpRemoveByNgn ngn_call_id);
  match entry with
  | None => mret (Ok tt)
  | Some (e, entry) =>
      r ← call OpRandom;
      '(bye, _) ← call (OpBuildExtBye e r);
      call (OpTerminateExt e) ;;
      _ ← call (OpSendExt bye (oe_ext_remote entry));
      call OpDecActive ;; call (OpStopBridge (oe_bridge entry)) ;; mret (Ok tt)
  end.

Fixpoint close_drained (l : list (nat * OutboundCallEntry)) : program :=
  match l with
  | [] => mret (Ok tt)
  | (e, entry) :: l =>
      bye_ngn e ;; call (OpTerminateExt e) ;; call OpDecActive ;; call (OpStopBridge (oe_bridge entry)) ;; close_drained l
  end.
Definition ext_unregister (aor : string) : program := drained ← call (OpDrainByAor aor); close_drained drained.

(** ** The world they share *)

(** What a task is for. *)
Inductive Job := Transferring (request : SipRequest) | Ending.

(** The registry names the entries, which are objects of their own. [tw_acts]: what
    each task did, with what came back. *)
Record World := mkWorld {
  tw_by_ext : gmap string nat; tw_ngn_to_ext : gmap string string;
  tw_entries : gmap nat OutboundCallEntry; tw_next_entry : nat; tw_locked : gset nat; tw_metrics : Metrics;
  tw_tasks : gmap nat (Job * program); tw_next : nat; tw_acts : list (nat * done_call answer) }.

Definition with_maps (m : gmap string nat) (n : gmap string string) (w : World) : World :=
  mkWorld m n (tw_entries w) (tw_next_entry w) (tw_locked w) (tw_metrics w) (tw_tasks w) (tw_next w) (tw_acts w).
Definition with_entry (e : nat) (f : OutboundCallEntry -> OutboundCallEntry) (w : World) : World :=
  mkWorld (tw_by_ext w) (tw_ngn_to_ext w) (alter f e (tw_entries w)) (tw_next_entry w) (tw_locked w) (tw_metrics w) (tw_tasks w) (tw_next w) (tw_acts w).
Definition with_locked (l : gset nat) (w : World) : World :=
  mkWorld (tw_by_ext w) (tw_ngn_to_ext w) (tw_entries w) (tw_next_entry w) l (tw_metrics w) (tw_tasks w) (tw_next w) (tw_acts w).
Definition with_metrics (m : Metrics) (w : World) : World :=
  mkWorld (tw_by_ext w) (tw_ngn_to_ext w) (tw_entries w) (tw_next_entry w) (tw_locked w) m (tw_tasks w) (tw_next w) (tw_acts w).
Definition with_task (id : nat) (t : Job * program) (w : World) : World :=
  mkWorld (tw_by_ext w) (tw_ngn_to_ext w) (tw_entries w) (tw_next_entry w) (tw_locked w) (tw_metrics w) (<[id := t]> (tw_tasks w)) (tw_next w) (tw_acts w).
Definition new_task (t : Job * program) (w : World) : World :=
  mkWorld (tw_by_ext w) (tw_ngn_to_ext w) (tw_entries w) (tw_next_entry w) (tw_locked w) (tw_metrics w) (<[tw_next w := t]> (tw_tasks w)) (S (tw_next w)) (tw_acts w).
Definition record_act (id : nat) (c : done_call answer) (w : World) : World :=
  mkWorld (tw_by_ext w) (tw_ngn_to_ext w) (tw_entries w) (tw_next_entry w) (tw_locked w) (tw_metrics w) (tw_tasks w) (tw_next w) (tw_acts w ++ [(id, c)]).

Definition set_ngn (ud : UacDialog) (e : OutboundCallEntry) : OutboundCallEntry := with_ngn_dialog e ud.
Definition entry_of (w : World) (e : nat) : option (nat * OutboundCallEntry) := (fun x => (e, x)) <$> tw_entries w !! e.

(** [remove_by_ext] and [remove_by_ngn] of the registry. *)
Definition remove_ext (call_id : string) (w : World) : option (nat * OutboundCallEntry) * World :=
  match e ← tw_by_ext w !! call_id; entry_of w e with
  | None => (None, w)
  | Some (e, entry) => (Some (e, entry), with_maps (delete call_id (tw_by_ext w)) (delete (oe_ngn_call_id entry) (tw_ngn_to_ext w)) w)
  end.
Definition remove_ngn (ngn_call_id : string) (w : World) : option (nat * OutboundCallEntry) * World :=
  match tw_ngn_to_ext w !! ngn_call_id with
  | None => (None, w)
  | Some ext_id =>
      (e ← tw_by_ext w !! ext_id; entry_of w e, with_maps (delete ext_id (tw_by_ext w)) (delete ngn_call_id (tw_ngn_to_ext w)) w)
  end.
Fixpoint remove_all (ids : list string) (w : World) : list (nat * OutboundCallEntry) * World :=
  match ids with
  | [] => ([], w)
  | id :: ids => let '(e, w) := remove_ext id w in let '(l, w) := remove_all ids w in (option_list e ++ l, w)
  end.
Definition calls_of (aor : string) (w : World) : list string :=
  map fst (List.filter (fun p => match tw_entries w !! p.2 with Some e => String.eqb (oe_from_aor e) aor | None => false end) (map_to_list (tw_by_ext w))).

(** A call; [None] while it waits for a lock. A number that leads to no entry is not
    given to any task. *)
Definition exec (others : forall op, answer op) (op : Op) (w : World) : option (answer op * World) :=
  match op return option (answer op * World) with
  | OpLookupByExt call_id => Some (e ← tw_by_ext w !! call_id; entry_of w e, w)
  | OpRemoveByExt call_id => Some (remove_ext call_id w)
  | OpRemoveByNgn call_id => Some (remove_ngn call_id w)
  | OpDrainByAor aor => Some (remove_all (calls_of aor w) w)
  | OpBuildNotify e line state r =>
      x ← tw_entries w !! e;
      let '(notify, d) := build_notify_refer_sipfrag (oe_ext_dialog x) line state r in
      Some ((notify, next_hop_socket (oe_ext_dialog x) (oe_ext_remote x)), with_entry e (fun x => with_ext_dialog x d) w)
  | OpBuildExtBye e r =>
      x ← tw_entries w !! e;
      let '(bye, d) := build_bye (oe_ext_dialog x) r in
      Some ((bye, next_hop_socket (oe_ext_dialog x) (oe_ext_remote x)), with_entry e (fun x => with_ext_dialog x d) w)
  | OpTerminateExt e => Some (tt, with_entry e (fun x => with_ext_dialog x (Dialog.terminate (oe_ext_dialog x))) w)
  | OpLockNgn e => if bool_decide (e ∈ tw_locked w) then None else Some (tt, with_locked ({[e]} ∪ tw_locked w) w)
  | OpBuildNgnBye e r =>
      x ← tw_entries w !! e;
      let ud := oe_ngn_dialog x in
      let '(bye, d) := build_bye (Uac.inner ud) r in
      Some ((bye, ud_next_hop ud), with_entry e (set_ngn (set_inner ud d)) w)
  | OpUnlockNgn e answered =>
      Some (tt, with_locked (tw_locked w ∖ {[e]})
        (if answered then with_entry e (fun x => set_ngn (set_inner (oe_ngn_dialog x) (Dialog.terminate (Uac.inner (oe_ngn_dialog x)))) x) w else w))
  | OpDecActive => Some (tt, with_metrics (dec_call_active (tw_metrics w)) w)
  | op => Some (others op, w)
  end.
Definition run_task (id : nat) (others : forall op, answer op) (w : World) : World :=
  match tw_tasks w !! id with
  | Some (job, Do op k) =>
      match exec others op w with
      | None => w
      | Some (x, w) => with_task id (job, k x) (record_act id (did op x) w)
      end
  | _ => w
  end.

(** A call of an extension that the NGN took is entered, under the Call-IDs of its legs. *)
Definition enter (entry : OutboundCallEntry) (w : World) : World :=
  mkWorld (<[oe_ext_call_id entry := tw_next_entry w]> (tw_by_ext w)) (<[oe_ngn_call_id entry := oe_ext_call_id entry]> (tw_ngn_to_ext w))
    (<[tw_next_entry w := entry]> (tw_entries w)) (S (tw_next_entry w)) (tw_locked w) (inc_call_active (tw_metrics w)) (tw_tasks w) (tw_next w) (tw_acts w).

Inductive Event :=
  | CallTaken (entry : OutboundCallEntry)
  | Refer (connected : bool) (request : SipRequest)
  | ExtBye (request : SipRequest)
  | NgnBye (ngn_call_id : string)
  | Unregistered (aor : string)
  | Runs (id : nat) (others : forall op, answer op).
Definition step (w : World) (ev : Event) : World :=
  match ev with
  | CallTaken entry => enter entry w
  | Refer connected request => new_task (Transferring request, handle_ext_refer connected request) w
  | ExtBye request => new_task (Ending, ext_bye request) w
  | NgnBye id => new_task (Ending, ngn_bye id) w
  | Unregistered aor => new_task (Ending, ext_unregister aor) w
  | Runs id others => run_task id others w
  end.
Definition run (w : World) (evs : list Event) : World := fold_left step evs w.
Definition transfer_start (m : Metrics) : World := mkWorld ∅ ∅ ∅ 0 ∅ m ∅ 0 [].
