(* ===== verification/Transfers.v ===== *)
(** What a transfer does (call/orchestrator.rs), under every interleaving with the
    ends of the calls: whom it may call, what the transferor is told and in which
    order, and that the requests on its dialog are numbered one after the other. *)
From S2P Require Import Prelude RustStr NetAddr SipMessage Dialog TuProg Uac Observability Registrar Calls SipFields Outbound Tasks Transfer.

Abbreviation history := (list (done_call answer)).

(** ** What a task did *)

Definition pw_responded (op : Op) : answer op -> option Z := match op with OpRespond s _ => fun _ => Some s | _ => fun _ => None end.
Abbreviation responded := (pick pw_responded).
(** The notifications: the line of the status and the state of the subscription. *)
Definition pw_notified (op : Op) : answer op -> option (string * string) :=
  match op with OpBuildNotify _ l s _ => fun _ => Some (l, s) | _ => fun _ => None end.
Abbreviation notified := (pick pw_notified).
Definition pw_looked (op : Op) : answer op -> option (string * Binding) :=
  match op with OpLookupBinding aor => fun x => (fun b => (aor, b)) <$> x | _ => fun _ => None end.
Abbreviation looked := (pick pw_looked).
Definition pw_invited (op : Op) : answer op -> option string := match op with OpInvite uri => fun _ => Some uri | _ => fun _ => None end.
Abbreviation invited := (pick pw_invited).
(** The callee took the call. *)
Definition pw_taken (op : Op) : answer op -> option unit :=
  match op with OpInvite _ => fun x => match x with Some (LegEstablished _ _) => Some tt | _ => None end | _ => fun _ => None end.
Abbreviation taken := (pick pw_taken).
(** The BYEs to the NGN and to the extension. *)
Definition pw_ngn_byes (op : Op) : answer op -> option nat := match op with OpBuildNgnBye e _ => fun _ => Some e | _ => fun _ => None end.
Abbreviation ngn_byes := (pick pw_ngn_byes).
Definition pw_ext_byes (op : Op) : answer op -> option nat := match op with OpBuildExtBye e _ => fun _ => Some e | _ => fun _ => None end.
Abbreviation ext_byes := (pick pw_ext_byes).
Definition pw_decs (op : Op) : answer op -> option unit := match op with OpDecActive => fun _ => Some tt | _ => fun _ => None end.
Abbreviation decs := (pick pw_decs).

(** ** A transfer *)

Definition first_notice : string * string := ("SIP/2.0 100 Trying", "active;expires=60").

Section refer.
Context (request : SipRequest).

Definition allowed (h : history) (op : Op) : Prop :=
  match op with
  | OpRespond s _ => responded h = [] /\ (s = 202 -> is_Some (refer_target request))
  | OpBuildNotify _ l s _ => responded h = [202] /\ (notified h = [] /\ (l, s) = first_notice \/ notified h = [first_notice] /\ s = terminated)
  | OpInvite uri => responded h = [202] /\ notified h = [first_notice] /\ invited h = [] /\
      exists aor b, refer_target request = Some aor /\ looked h = [(aor, b)] /\ uri = contact_uri b
  | OpBuildNgnBye _ _ | OpBuildExtBye _ _ | OpDecActive | OpRemoveByExt _ | OpTerminateExt _ | OpStopBridge _ | OpLogAnswered _ =>
      taken h = [tt] /\ length (notified h) = 2%nat
  | OpRemoveByNgn _ | OpDrainByAor _ => False
  | _ => True
  end.
(** The end: refused, or told of the outcome; and the call is ended exactly when the
    callee has taken it. *)
Definition ended (h : history) (r : Prelude.outcome unit unit) : Prop :=
  match responded h with
  | [s] =>
      if s =? 202 then r = Ok tt /\ length (notified h) = 2%nat /\ length (ngn_byes h) = length (taken h) /\
        length (ext_byes h) = length (taken h) /\ length (decs h) = length (taken h)
      else s ∈ [400; 481; 503] /\ notified h = [] /\ invited h = [] /\ decs h = []
  | _ => False
  end.
End refer.

(** What this makes of what it did. *)
Record proper (request : SipRequest) (h : history) : Prop := {
  pr_responded : (length (responded h) <= 1)%nat;
  pr_accepted : 202 ∈ responded h -> is_Some (refer_target request);
  pr_notified : notified h = [] \/ responded h = [202] /\ (notified h = [first_notice] \/ exists l, notified h = [first_notice; (l, terminated)]);
  pr_invited : (length (invited h) <= 1)%nat /\ forall uri, uri ∈ invited h -> responded h = [202] /\
    exists aor b, refer_target request = Some aor /\ (aor, b) ∈ looked h /\ uri = contact_uri b;
  pr_ended : ngn_byes h <> [] \/ ext_byes h <> [] \/ decs h <> [] -> taken h <> [] }.
Lemma transfer_proper_next request h op x : proper request h -> allowed request h op -> proper request (h ++ [did op x]).
Proof.
  intros [H1 H2 H3 [H4 H5] H6] Ha.
  assert (taken h <> [] -> forall c, taken h ++ c <> []) as Htk by (intros Ht c; by destruct (taken h)).
  destruct op; try (split; rewrite !pick_app; cbn; rewrite ?app_nil_r; by (done || split)); cbn in Ha.
  - destruct Ha as [Hr Ha]. assert (notified h = []) as Hn by (destruct H3 as [? | [? _]]; [done | congruence]).
    split; rewrite !pick_app; cbn; rewrite ?app_nil_r, ?Hr; [by cbn | | by left | | done].
    + intros Hs%list_elem_of_singleton. by apply Ha.
    + split; [done|]. intros uri Hin. destruct (H5 _ Hin) as [? _]. congruence.
  - destruct Ha as [Hr Ha]. split; rewrite !pick_app; cbn; rewrite ?app_nil_r; [done | done | | by split | done].
    right. split; [done|]. destruct Ha as [[Hn Hf] | [Hn Hf]]; rewrite Hn, ?Hf; [by left | right; subst; by exists sipfrag_status_line].
  - destruct Ha as [Ht _]. split; rewrite !pick_app; cbn; rewrite ?app_nil_r; [done | done | done | by split |]. by rewrite Ht.
  - destruct Ha as [Ht _]. split; rewrite !pick_app; cbn; rewrite ?app_nil_r; [done | done | done | by split |]. by rewrite Ht.
  - split; rewrite !pick_app; cbn; rewrite ?app_nil_r; [done | done | done | | done]. split; [done|].
    intros uri Hin. destruct (H5 _ Hin) as (? & a & b & ? & ? & ?). split; [done|]. exists a, b. split_and!; [done | apply elem_of_app; by left | done].
  - destruct Ha as (Hr & Hn & Hi & a & b & Ht & Hl & Hu). split; rewrite !pick_app; cbn; rewrite ?app_nil_r, ?Hi; [done | done | done | |].
    + split; [by cbn|]. intros uri Hin%list_elem_of_singleton. split; [done|]. exists a, b. rewrite Hl. split_and!; [done | by constructor | congruence].
    + intros H%H6. by apply Htk.
  - destruct Ha as [Ht _]. split; rewrite !pick_app; cbn; rewrite ?app_nil_r; [done | done | done | by split |]. by rewrite Ht.
Qed.

Ltac walk := leads_walk ltac:(lazy beta iota zeta delta [mbind task_bind mret task_ret call quick bye_ngn send_refer_notify
  teardown_transferred_dialog handle_ext_refer]).
Lemma refer_leads connected request : leads (allowed request) remember (ended) [] (handle_ext_refer connected request).
Proof.
  walk. all: unfold allowed, ended; cbn; split_and?; try done; try set_solver.
Qed.

(** ** The world *)

Definition acts (w : World) : nat -> history := of_task (tw_acts w).

(** *** The requests on the dialog of an entry *)

Definition pw_built (e : nat) (op : Op) : answer op -> option SipRequest :=
  match op with
  | OpBuildNotify e' _ _ _ | OpBuildExtBye e' _ => fun x : SipRequest * SocketAddr => if Nat.eqb e' e then Some x.1 else None
  | _ => fun _ => None
  end.
(** All of them, by whatever task, in their order. *)
Definition built (w : World) (e : nat) : list SipRequest := pick (pw_built e) (map snd (tw_acts w)).

(** The dialog [d] is [d0] after [reqs]. *)
Definition numbered (d : Dialog) (reqs : list SipRequest) : Prop :=
  exists d0 st, u32 (local_cseq d0) /\
    d = mkDialog (dlg_id d0) st (local_uri d0) (remote_uri d0) (remote_target d0) (route_set d0)
          (wrap 32 (local_cseq d0 + Z.of_nat (length reqs))) (local_contact d0) (dlg_sent_by d0) /\
    forall i req, reqs !! i = Some req -> request_of d0 (wrap 32 (local_cseq d0 + Z.of_nat i)) req.
Lemma numbered_start d : u32 (local_cseq d) -> numbered d [].
Proof. intros Hu. exists d, (dlg_state d). split_and!; [done | | done]. cbn. rewrite Z.add_0_r, wrap_small by done. by destruct d. Qed.
Lemma numbered_terminate d reqs : numbered d reqs -> numbered (Dialog.terminate d) reqs.
Proof. intros (d0 & st & Hu & -> & Hr). by exists d0, Dialog.Terminated. Qed.
Lemma numbered_build d reqs o : numbered d reqs -> numbered (build_op d o).2 (reqs ++ [(build_op d o).1]).
Proof.
  intros (d0 & st & Hu & Hd & Hr). destruct (build_op_request d o) as [Hreq ->]. exists d0, st. split_and!; [done | |].
  - rewrite Hd. unfold bump_cseq. cbn. f_equal. rewrite length_app, wrapping_add_wrap. f_equal. cbn. lia.
  - intros i req. rewrite lookup_app. destruct (reqs !! i) eqn:Hi; [intros [= <-]; by apply Hr|].
    apply lookup_ge_None in Hi. intros Hl. destruct (i - length reqs)%nat as [|k] eqn:Hk; [|done]. injection Hl as <-.
    assert (i = length reqs) as -> by lia. subst d. destruct Hreq. by constructor.
Qed.

(** What a call does to the entries. *)
Lemma remove_ext_entries call_id w : tw_entries (remove_ext call_id w).2 = tw_entries w /\ tw_next_entry (remove_ext call_id w).2 = tw_next_entry w /\
  tw_tasks (remove_ext call_id w).2 = tw_tasks w /\ tw_next (remove_ext call_id w).2 = tw_next w /\ tw_acts (remove_ext call_id w).2 = tw_acts w.
Proof. unfold remove_ext. by destruct (tw_by_ext w !! call_id ≫= entry_of w) as [[e entry]|]. Qed.
Lemma remove_all_entries ids w : tw_entries (remove_all ids w).2 = tw_entries w /\ tw_next_entry (remove_all ids w).2 = tw_next_entry w /\
  tw_tasks (remove_all ids w).2 = tw_tasks w /\ tw_next (remove_all ids w).2 = tw_next w /\ tw_acts (remove_all ids w).2 = tw_acts w.
Proof.
  revert w. induction ids as [|id ids IH]; intros w; cbn; [done|]. pose proof (remove_ext_entries id w) as (E1 & E2 & E3 & E4 & E5).
  destruct (remove_ext id w) as [e w']. specialize (IH w'). destruct (remove_all ids w') as [l w'']. cbn in *.
  destruct IH as (F1 & F2 & F3 & F4 & F5). by rewrite F1, F2, F3, F4, F5.
Qed.
Definition moved (e : nat) (op : Op) (x : answer op) (d d' : Dialog) : Prop :=
  match pw_built e op x with
  | Some req => exists o, build_op d o = (req, d')
  | None => d' = d \/ d' = Dialog.terminate d
  end.
Definition changes (op : Op) (x : answer op) (m m' : gmap nat OutboundCallEntry) : Prop := forall e,
  match m !! e with
  | Some y => exists y', m' !! e = Some y' /\ moved e op x (oe_ext_dialog y) (oe_ext_dialog y')
  | None => m' !! e = None /\ pw_built e op x = None
  end.
Lemma changes_none op x m : (forall e, pw_built e op x = None) -> changes op x m m.
Proof. intros Hn e. destruct (m !! e) as [y|]; [|done]. exists y. split; [done|]. unfold moved. rewrite Hn. by left. Qed.
Lemma changes_alter op x m e f : (forall e', e' <> e -> pw_built e' op x = None) ->
  match m !! e with Some y => moved e op x (oe_ext_dialog y) (oe_ext_dialog (f y)) | None => pw_built e op x = None end ->
  changes op x m (alter f e m).
Proof.
  intros Hn He e'. destruct (decide (e' = e)) as [-> | Hne].
  - rewrite lookup_alter_eq. destruct (m !! e) as [y|]; [by exists (f y) | done].
  - rewrite lookup_alter_ne by done. destruct (m !! e') as [y|]; [|by split; [|apply Hn]]. exists y. split; [done|]. unfold moved. rewrite Hn by done. by left.
Qed.
Lemma exec_entries others op w x w1 : exec others op w = Some (x, w1) ->
  tw_next_entry w1 = tw_next_entry w /\ tw_tasks w1 = tw_tasks w /\ tw_next w1 = tw_next w /\ tw_acts w1 = tw_acts w /\
  changes op x (tw_entries w) (tw_entries w1).
Proof.
  intros He. destruct op; cbn in He; try (injection He as <- <-; split_and!; try done; by apply changes_none).
  - pose proof (remove_ext_entries call_id w) as (E1 & E2 & E3 & E4 & E5). assert (w1 = (remove_ext call_id w).2) as -> by (by injection He as ->).
    rewrite E1. split_and!; try done. by apply changes_none.
  - assert (w1 = (remove_ngn call_id w).2) as -> by (by injection He as ->). unfold remove_ngn.
    destruct (tw_ngn_to_ext w !! call_id); split_and!; try done; by apply changes_none.
  - pose proof (remove_all_entries (calls_of aor w) w) as (E1 & E2 & E3 & E4 & E5). assert (w1 = (remove_all (calls_of aor w) w).2) as -> by (by injection He as ->).
    rewrite E1. split_and!; try done. by apply changes_none.
  - apply bind_Some in He as (y & Hy & He). destruct (build_notify_refer_sipfrag _ _ _ _) as [notify d] eqn:Hb. injection He as <- <-.
    split_and!; try done. apply changes_alter; cbn.
    + intros e' Hne. apply Nat.eqb_neq in Hne. by rewrite Nat.eqb_sym, Hne.
    + rewrite Hy. unfold moved. cbn. rewrite Nat.eqb_refl. by exists (OpNotify sipfrag_status_line subscription_state r).
  - apply bind_Some in He as (y & Hy & He). destruct (build_bye _ _) as [bye d] eqn:Hb. injection He as <- <-.
    split_and!; try done. apply changes_alter; cbn.
    + intros e' Hne. apply Nat.eqb_neq in Hne. by rewrite Nat.eqb_sym, Hne.
    + rewrite Hy. unfold moved. cbn. rewrite Nat.eqb_refl. by exists (Dialog.OpBye r).
  - injection He as <- <-. split_and!; try done. apply changes_alter; [done|]. destruct (tw_entries w !! e); [by right | done].
  - case_bool_decide; [done|]. injection He as <- <-. split_and!; try done. by apply changes_none.
  - apply bind_Some in He as (y & Hy & He). destruct (build_bye _ _) as [bye d] eqn:Hb. injection He as <- <-.
    split_and!; try done. apply changes_alter; [done|]. rewrite Hy. by left.
  - injection He as <- <-. destruct answered; split_and!; try done; [|by apply changes_none].
    apply changes_alter; [done|]. destruct (tw_entries w !! e); [by left | done].
Qed.

(** *** The invariant *)

Definition job_ok (j : Job) (h : history) (t : program) : Prop :=
  match j with Transferring request => leads (allowed request) remember ended h t /\ proper request h | Ending => True end.
Record sound (w : World) : Prop := {
  so_task : forall id j t, tw_tasks w !! id = Some (j, t) -> (id < tw_next w)%nat /\ job_ok j (acts w id) t;
  so_new : forall id, (tw_next w <= id)%nat -> acts w id = [];
  so_entry : forall e x, tw_entries w !! e = Some x -> (e < tw_next_entry w)%nat /\ numbered (oe_ext_dialog x) (built w e);
  so_unbuilt : forall e, tw_entries w !! e = None -> built w e = [] }.

Lemma transfer_sound_new w j t : sound w -> job_ok j [] t -> sound (new_task (j, t) w).
Proof.
  intros [H1 H2 H3 H4] Ht. split; [| | exact H3 | exact H4].
  - intros id j' t' Hl. cbn in Hl. change (acts (new_task (j, t) w)) with (acts w). cbn [tw_next new_task].
    apply lookup_insert_Some in Hl as [[<- [= <- <-]] | [_ Hl]]; [split; [lia|]; by rewrite H2 | destruct (H1 _ _ _ Hl); split; [lia | done]].
  - intros id Hid. cbn in Hid. apply H2. lia.
Qed.
Lemma sound_enter w x : sound w -> u32 (local_cseq (oe_ext_dialog x)) -> sound (enter x w).
Proof.
  intros [H1 H2 H3 H4] Hu. assert (tw_entries w !! tw_next_entry w = None) as Hnone.
  { destruct (tw_entries w !! tw_next_entry w) eqn:He; [|done]. destruct (H3 _ _ He). lia. }
  split; [exact H1 | exact H2 | |].
  - intros e y Hl. cbn in Hl. change (built (enter x w)) with (built w). cbn [tw_next_entry enter].
    apply lookup_insert_Some in Hl as [[<- <-] | [_ Hl]]; [|destruct (H3 _ _ Hl); split; [lia | done]].
    split; [lia|]. rewrite H4 by done. by apply numbered_start.
  - intros e Hl. cbn in Hl. apply lookup_insert_None in Hl as [Hl _]. by apply H4.
Qed.
Lemma built_record w id c e : built (record_act id c w) e = built w e ++ option_list (pw_built e (projT1 c) (projT2 c)).
Proof.
  unfold built. change (tw_acts (record_act id c w)) with (tw_acts w ++ [(id, c)]). by rewrite map_app, pick_app.
Qed.

Lemma sound_run_task id others w : sound w -> sound (run_task id others w).
Proof.
  intros Hw. unfold run_task. destruct (tw_tasks w !! id) as [[j [a | op k]]|] eqn:Hl; try done.
  destruct (exec others op w) as [[x w1]|] eqn:He; [|done]. destruct (exec_entries _ _ _ _ _ He) as (E1 & E2 & E3 & E4 & Ec).
  destruct Hw as [H1 H2 H3 H4]. destruct (H1 _ _ _ Hl) as [Hid Hj].
  set (w2 := with_task id (j, k x) (record_act id (did op x) w1)).
  assert (forall id', acts w2 id' = if decide (id' = id) then acts w id ++ [did op x] else acts w id') as Hacts.
  { intros id'. unfold acts. change (tw_acts w2) with (tw_acts w1 ++ [(id, did op x)]). by rewrite of_task_snoc, E4. }
  assert (forall e, built w2 e = built w e ++ option_list (pw_built e op x)) as Hbuilt.
  { intros e. change (built w2 e) with (built (record_act id (did op x) w1) e). rewrite built_record. unfold built. by rewrite E4. }
  split.
  - intros id' j' t' Ht. cbn in Ht. rewrite E2 in Ht. change (tw_next w2) with (tw_next w1). rewrite E3, Hacts.
    apply lookup_insert_Some in Ht as [[<- [= <- <-]] | [Hne Ht]]; [|rewrite decide_False by done; by eapply H1].
    rewrite decide_True by done. split; [done|]. destruct j as [request|]; [|done]. destruct Hj as [[Ha Hk] Hp].
    split; [apply Hk | by apply transfer_proper_next].
  - intros id'. change (tw_next w2) with (tw_next w1). rewrite E3, Hacts. intros Hge. rewrite decide_False by lia. by apply H2.
  - intros e y' Hy'. change (tw_entries w2) with (tw_entries w1) in Hy'. change (tw_next_entry w2) with (tw_next_entry w1). rewrite E1, Hbuilt.
    specialize (Ec e). destruct (tw_entries w !! e) as [y|] eqn:Hy; [|destruct Ec; congruence].
    destruct Ec as (y'' & Hy'' & Hm). assert (y'' = y') as -> by congruence. destruct (H3 _ _ Hy) as [Hlt Hn]. split; [done|].
    unfold moved in Hm. destruct (pw_built e op x) as [req|]; cbn [option_list].
    + destruct Hm as [o Ho]. pose proof (numbered_build _ _ o Hn) as H. by rewrite Ho in H.
    + rewrite app_nil_r. destruct Hm as [-> | ->]; [done | by apply numbered_terminate].
  - intros e Hy'. change (tw_entries w2) with (tw_entries w1) in Hy'. rewrite Hbuilt. specialize (Ec e).
    destruct (tw_entries w !! e) as [y|] eqn:Hy; [destruct Ec as (? & ? & _); congruence|]. destruct Ec as [_ ->]. rewrite (H4 e Hy). done.
Qed.

Definition plain_entry (ev : Event) : Prop := match ev with CallTaken x => u32 (local_cseq (oe_ext_dialog x)) | _ => True end.
Lemma transfer_sound_run m evs : Forall plain_entry evs -> sound (run (transfer_start m) evs).
Proof.
  intros Hf. assert (sound (transfer_start m)) as Hw by (by split).
  unfold run. revert Hw. generalize (transfer_start m). induction Hf as [|ev evs Hev Hf IH]; intros w Hw; [done|]. cbn [fold_left]. apply IH.
  destruct ev; cbn [step].
  - by apply sound_enter.
  - apply transfer_sound_new; [done|]. split; [apply refer_leads|]. split; cbn.
    all: try lia; try (by left); try (by intros [? | [? | ?]]).
    + intros Hin. by inversion Hin.
    + split; [lia|]. intros ? Hin. by inversion Hin.
  - by apply transfer_sound_new.
  - by apply transfer_sound_new.
  - by apply transfer_sound_new.
  - by apply sound_run_task.
Qed.

(** ** The properties *)

(** C7: a transfer stays inside, and the transferor hears of it in order. Whatever the
    extensions, the NGN and the other tasks do: a REFER is answered once at most; an
    INVITE is sent only after a 202, once, and to the contact of a binding that the
    registrar gave for the user of a SIP URI in Refer-To; the notifications are first
    the 100 of an active subscription and then one that ends it; and the call is only
    touched when the callee took it. When the handler is over it has answered, and with
    a 202 it has sent both notifications, and has sent a BYE on each leg and counted the
    call down once exactly when the callee took the call. *)
Theorem transfers_stay_inside m evs id request t : Forall plain_entry evs ->
  let w := run (transfer_start m) evs in
  let h := acts w id in
  tw_tasks w !! id = Some (Transferring request, t) ->
  (length (responded h) <= 1)%nat /\
  (forall uri, uri ∈ invited h -> responded h = [202] /\ length (invited h) = 1%nat /\
     exists aor b, refer_target request = Some aor /\ (aor, b) ∈ looked h /\ uri = contact_uri b) /\
  (notified h = [] \/ responded h = [202] /\ (notified h = [first_notice] \/ exists l, notified h = [first_notice; (l, terminated)])) /\
  (ngn_byes h <> [] \/ ext_byes h <> [] \/ decs h <> [] -> taken h <> []) /\
  (forall r, t = Fin r -> ended h r).
Proof.
  intros Hf w h Hl. pose proof (transfer_sound_run m evs Hf) as Hs. fold w in Hs. destruct (so_task w Hs _ _ _ Hl) as [_ [Hk [H1 H2 H3 [H4 H5] H6]]].
  split_and!; [done | | done | done |].
  - intros uri Hin. destruct (H5 _ Hin) as [? ?]. split_and!; [done | | done]. assert (length (invited h) <= 1)%nat as Hle by exact H4. clear -Hin Hle. destruct (invited h); [by inversion Hin | cbn in *; lia].
  - intros r ->. exact Hk.
Qed.

(** The requests that any tasks build on the dialog with an extension (notifications
    of transfers and BYEs) are those of one dialog and have consecutive CSeq numbers, in
    the order in which they were built. *)
Theorem leg_requests_numbered m evs e x : Forall plain_entry evs ->
  let w := run (transfer_start m) evs in
  tw_entries w !! e = Some x ->
  exists d0, dlg_id d0 = dlg_id (oe_ext_dialog x) /\
    forall i req, built w e !! i = Some req -> request_of d0 (wrap 32 (local_cseq d0 + Z.of_nat i)) req.
Proof.
  intros Hf w Hl. destruct (so_entry w (transfer_sound_run m evs Hf) _ _ Hl) as [_ (d0 & st & Hu & -> & Hr)]. by exists d0.
Qed.

(** ** Samples *)

Definition sample_leg_dialog (call_id : string) : Dialog :=
  mkDialog (mkDialogId call_id "l" "r") Dialog.Confirmed "sip:117@192.0.2.1" "sip:a@192.0.2.1" "sip:a@192.0.2.5:5062" []
    1 "sip:sabiden@192.0.2.1:5060" "192.0.2.1:5060".
Definition sample_entry (ext_id ngn_id : string) : OutboundCallEntry :=
  mkOut ext_id ngn_id "a" (sample_leg_dialog ext_id)
    (mkUacDialog (mkDialog (mkDialogId ngn_id "l" "r") Dialog.Confirmed "sip:me@ntt" "sip:117@ntt" "sip:117@192.0.2.9" []
       2 "sip:me@192.0.2.1" "192.0.2.1:5060") 1 300 (mkAddr (V4 192 0 2 9) 5060))
    (mkRequest Invite "sip:117@192.0.2.1" [] "") (mkAddr (V4 192 0 2 5) 5062) None.
Definition sample_plan : InvitePlan := build_invite sample_uac (mkRoutes None None) "sip:b@192.0.2.7" None None (mkIds 1 2 3).
(** The callee takes the call, and everything is answered. *)
Definition sample_outside (op : Op) : answer op :=
  match op with
  | OpRespond _ _ | OpSendExt _ _ | OpSendNgn _ _ => true
  | OpLookupByExt _ | OpRemoveByExt _ | OpRemoveByNgn _ => None
  | OpDrainByAor _ => []
  | OpRandom => 1
  | OpBuildNotify _ _ _ _ | OpBuildExtBye _ _ | OpBuildNgnBye _ _ => (mkRequest Bye "" [] "", mkAddr (V4 0 0 0 0) 0)
  | OpTerminateExt _ | OpLockNgn _ | OpUnlockNgn _ _ | OpSpawnExt _ _ | OpDecActive | OpLogAnswered _ | OpStopBridge _ => tt
  | OpLookupBinding _ => Some (mkBinding "sip:b@192.0.2.7:5060" (mkAddr (V4 192 0 2 7) 5060) 0 Sip)
  | OpInvite _ => Some (LegEstablished sample_plan (mkResponse 200 "OK" [] ""))
  end.
Definition sample_refer : SipRequest := mkRequest SipMessage.Refer "sip:117@192.0.2.1" [("call-id", "e1"); ("refer-to", "<sip:b@192.0.2.1>")] "".
Definition sample_bye : SipRequest := mkRequest Bye "sip:117@192.0.2.1" [("call-id", "e1")] "".
Definition runs (id n : nat) : list Event := repeat (Runs id sample_outside) n.
Definition sample_transfer : list Event := CallTaken (sample_entry "e1" "n1") :: Refer true sample_refer :: runs 0 30.

Lemma transfers_stay_inside_witness :
  let h := acts (run (transfer_start metrics_new) sample_transfer) 0 in
  invited h = ["sip:b@192.0.2.7:5060"] /\ ended h (Ok tt).
Proof.
  intros h. destruct (transfers_stay_inside metrics_new sample_transfer 0 sample_refer (Fin (Ok tt))) as (_ & _ & _ & _ & H);
    [by repeat constructor | by vm_compute |]. split; [by vm_compute | by apply H].
Defined.
Lemma leg_requests_numbered_witness :
  exists d0, forall req, built (run (transfer_start metrics_new) sample_transfer) 0 !! 2%nat = Some req -> request_of d0 (wrap 32 (local_cseq d0 + 2)) req.
Proof.
  destruct (leg_requests_numbered metrics_new sample_transfer 0
    (with_ngn_dialog (with_ext_dialog (sample_entry "e1" "n1") (Dialog.terminate (build_ops (sample_leg_dialog "e1") [OpNotify "" "" 1; OpNotify "" "" 1; Dialog.OpBye 1]).2))
       (set_inner (oe_ngn_dialog (sample_entry "e1" "n1")) (Dialog.terminate (build_bye (Uac.inner (oe_ngn_dialog (sample_entry "e1" "n1"))) 1).2))))
    as (d0 & _ & H); [by repeat constructor | by vm_compute |]. exists d0. intros req. exact (H 2%nat req).
Defined.

(** ** What modelling showed *)

(** The transferor hangs up while the callee rings: the leg to the NGN gets a second
    BYE, and the call is counted down twice. With another call up, the gauge is 0. *)
Lemma hang_up_during_transfer :
  let w := run (transfer_start metrics_new)
    (CallTaken (sample_entry "e1" "n1") :: CallTaken (sample_entry "e2" "n2") :: Refer true sample_refer :: runs 0 6 ++
     ExtBye sample_bye :: runs 1 12 ++ runs 0 30) in
  ngn_byes (acts w 0) = [0%nat] /\ ngn_byes (acts w 1) = [0%nat] /\ is_Some (tw_by_ext w !! "e2") /\ tw_metrics w call_active = 0.
Proof. vm_compute. split_and!; [done | done | by eexists | done]. Qed.
