(* ===== verification/WebPush.v ===== *)
(** Web push (webrtc/push.rs): the subscriptions of the browsers, the notification of
    an incoming call to all of them, and the task of the orchestrator that sends it.

    The signature of VAPID, the JSON of the payload, the encryption of a message and
    the texts of the errors are those of libraries, and arguments. A notification
    awaits a push service for every subscription, so it is a program ([Tasks]), and the
    table may change under it. *)
From S2P Require Import Prelude RustStr Tasks.

(** ** Subscriptions *)

Record PushSubscription := mkSub { endpoint : string; p256dh : string; auth : string }.
#[export] Instance subscription_dec : EqDecision PushSubscription.
Proof. solve_decision. Defined.

Inductive Invalid := NotHttpUrl | EndpointTooLong | EmptyKey (name : string) | PaddedKey (name : string) | NotBase64url (name : string).

Definition base64url_char (c : ascii) : bool :=
  is_ascii_digit c || ((65 <=? code c) && (code c <=? 90)) || ((97 <=? code c) && (code c <=? 122)) || Ascii.eqb c "-" || Ascii.eqb c "_".
Definition check_key (name value : string) : outcome Invalid unit :=
  ensure (negb (String.eqb value "")) (EmptyKey name) ;;
  ensure (negb (contains_char "=" value)) (PaddedKey name) ;;
  ensure (all_chars base64url_char value) (NotBase64url name).
Definition validate (s : PushSubscription) : outcome Invalid unit :=
  ensure (starts_with "https://" (endpoint s) || starts_with "http://" (endpoint s)) NotHttpUrl ;;
  ensure (negb (2048 <? Z.of_nat (String.length (endpoint s)))) EndpointTooLong ;;
  check_key "p256dh" (p256dh s) ;;
  check_key "auth" (auth s).

(** ** The table *)

Abbreviation Store := (gmap string (list PushSubscription)).

Definition without (ep : string) (l : list PushSubscription) : list PushSubscription :=
  List.filter (fun s => negb (String.eqb (endpoint s) ep)) l.
Definition upsert (aor : string) (s : PushSubscription) (t : Store) : outcome Invalid Store :=
  validate s ;;
  let entry := default [] (t !! aor) in
  mret (<[aor := without (endpoint s) entry ++ [s]]> t).
Definition upsert_subscription (aor ep p a : string) (t : Store) : outcome Invalid Store := upsert aor (mkSub ep p a) t.
Definition remove (aor ep : string) (t : Store) : nat * Store :=
  match t !! aor with
  | None => (0%nat, t)
  | Some entry =>
      let kept := without ep entry in
      ((length entry - length kept)%nat, match kept with [] => delete aor t | _ => <[aor := kept]> t end)
  end.
Definition list_of (aor : string) (t : Store) : list PushSubscription := default [] (t !! aor).
Definition aor_count (t : Store) : nat := size t.

(** ** The keys of VAPID *)

Record VapidKeys := mkVapid { private_pem : string; public_key_b64url : string; vapid_subject : string }.
Inductive KeyError := EmptySubject | BadPem.
(** [public_key]: the public key of a PEM file; [encode]: Base64 for URLs, without padding. *)
Definition from_pem (public_key : string -> option (list Z)) (encode : list Z -> string) (pem subject : string) : outcome KeyError VapidKeys :=
  ensure (negb (String.eqb subject "")) EmptySubject ;;
  key ← ok_or (public_key pem) BadPem;
  mret (mkVapid pem (encode key) subject).

(** ** What a push service answers *)

Inductive PushSendError := Gone | Rejected (code : Z) (message : string) | Transient (message : string).

(** The errors of the library the code tells apart. *)
Inductive WebPushError :=
  | EndpointNotValid | EndpointNotFound | BadRequest | PayloadTooLarge
  | InvalidCryptoKeys | MissingCryptoKeys | InvalidPackageName | InvalidTtl | InvalidTopic | InvalidClaims | InvalidUri
  | Unauthorized | ServerError | OtherError.

Record IncomingCallPayload := mkPayload { kind : string; pl_call_id : string; caller_number : string; issued_at : Z }.
(** [now]: seconds since the epoch, [None] before it. *)
Definition payload_new (call_id caller : string) (now : option Z) : IncomingCallPayload :=
  mkPayload "incoming_call" call_id caller (default 0 now).

(** What the code gives to the builder of a message. *)
Record PushMessage := mkMessage { to : PushSubscription; ttl : Z; urgent : bool; body : list Z; signature : string }.

Inductive Op :=
  | OpList (aor : string)
  | OpTransmit (ep : string) (message : list Z)
  | OpRemove (aor ep : string).
Definition answer (op : Op) : Type :=
  match op with OpList _ => list PushSubscription | OpTransmit _ _ => option WebPushError | OpRemove _ _ => nat end.
Abbreviation task := (Tasks.task answer).
Abbreviation call := (@Tasks.call Op answer).

Section push.
Context (subject : string) (describe : WebPushError -> string)
  (sign : PushSubscription -> string -> string + string)
  (to_vec : IncomingCallPayload -> string + list Z)
  (build : PushMessage -> WebPushError + list Z).

Definition classify (e : WebPushError) : PushSendError :=
  match e with
  | EndpointNotValid | EndpointNotFound => Gone
  | BadRequest => Rejected 400 (describe e)
  | PayloadTooLarge => Rejected 413 (describe e)
  | InvalidCryptoKeys | MissingCryptoKeys | InvalidPackageName | InvalidTtl | InvalidTopic | InvalidClaims | InvalidUri =>
      Rejected 0 (describe e)
  | Unauthorized | ServerError | OtherError => Transient (describe e)
  end.

(** The message of a subscription, before it is sent. *)
Definition message_for (s : PushSubscription) (payload : IncomingCallPayload) : PushSendError + list Z :=
  match sign s subject with
  | inl e => inl (Rejected 0 ("VAPID signature build: " +:+ e))
  | inr sig =>
      match to_vec payload with
      | inl e => inl (Rejected 0 ("payload JSON serialize 失敗: " +:+ e))
      | inr json =>
          match build (mkMessage s 300 true json sig) with
          | inl e => inl (classify e)
          | inr m => inr m
          end
      end
  end.
(** [None]: sent. *)
Definition send_incoming_call (s : PushSubscription) (payload : IncomingCallPayload) : task (option PushSendError) :=
  match message_for s payload with
  | inl e => mret (Some e)
  | inr m =>
      e ← call (OpTransmit (endpoint s) m);
      mret (option_map classify e)
  end.

Fixpoint fan_out (aor : string) (payload : IncomingCallPayload) (subs : list PushSubscription) (sent dropped : nat) : task (nat * nat) :=
  match subs with
  | [] => mret (sent, dropped)
  | s :: subs =>
      r ← send_incoming_call s payload;
      match r with
      | None => fan_out aor payload subs (S sent) dropped
      | Some Gone =>
          n ← call (OpRemove aor (endpoint s));
          fan_out aor payload subs sent (dropped + n)
      | Some (Rejected _ _) | Some (Transient _) => fan_out aor payload subs sent dropped
      end
  end.
Definition notify_incoming_call (aor : string) (payload : IncomingCallPayload) : task (nat * nat) :=
  subs ← call (OpList aor);
  match subs with
  | [] => mret (0%nat, 0%nat)
  | _ => fan_out aor payload subs 0 0
  end.

(** The task that the orchestrator starts for a call of the NGN, for the extensions it
    rings (call/orchestrator.rs). *)
Fixpoint push_all (payload : IncomingCallPayload) (aors : list string) : task unit :=
  match aors with
  | [] => mret tt
  | aor :: aors => notify_incoming_call aor payload ;; push_all payload aors
  end.

(** ** Tasks and subscriptions together *)

Record World := mkWorld {
  w_store : Store; w_tasks : gmap nat (IncomingCallPayload * list string * task unit); w_next : nat; w_acts : list (nat * done_call answer) }.
Inductive Event :=
  | Incoming (call_id caller : string) (now : option Z) (aors : list string)
  | Subscribe (aor ep p a : string)
  | Runs (id : nat) (network : option WebPushError).

Definition exec (network : option WebPushError) (op : Op) (t : Store) : answer op * Store :=
  match op with
  | OpList aor => (list_of aor t, t)
  | OpTransmit _ _ => (network, t)
  | OpRemove aor ep => remove aor ep t
  end.
Definition run_task (id : nat) (network : option WebPushError) (w : World) : World :=
  match w_tasks w !! id with
  | Some (job, Do op k) =>
      let '(x, t) := exec network op (w_store w) in
      mkWorld t (<[id := (job, k x)]> (w_tasks w)) (w_next w) (w_acts w ++ [(id, did op x)])
  | _ => w
  end.
Definition step (w : World) (ev : Event) : World :=
  match ev with
  | Incoming call_id caller now aors =>
      let payload := payload_new call_id caller now in
      mkWorld (w_store w) (<[w_next w := (payload, aors, push_all payload aors)]> (w_tasks w)) (S (w_next w)) (w_acts w)
  | Subscribe aor ep p a =>
      match upsert_subscription aor ep p a (w_store w) with
      | Ok t => mkWorld t (w_tasks w) (w_next w) (w_acts w)
      | _ => w
      end
  | Runs id network => run_task id network w
  end.
Definition run (evs : list Event) : World := fold_left step evs (mkWorld ∅ ∅ 0 []).
Definition acts (w : World) : nat -> list (done_call answer) := of_task (w_acts w).

(** A task with nothing between its calls, and [network] as the push services. *)
Fixpoint alone {A} (network : string -> list Z -> option WebPushError) (p : task A) (t : Store) : A * Store :=
  match p with
  | Fin a => (a, t)
  | Do op k =>
      let '(x, t) := exec (match op with OpTransmit ep m => network ep m | _ => None end) op t in
      alone network (k x) t
  end.

(** ** The table *)

Record store_ok (t : Store) : Prop := {
  st_some : forall aor, t !! aor <> Some [];
  st_distinct : forall aor l, t !! aor = Some l -> NoDup (map endpoint l);
  st_valid : forall aor l s, t !! aor = Some l -> s ∈ l -> validate s = Ok tt }.

Lemma elem_of_without ep l s : s ∈ without ep l <-> s ∈ l /\ endpoint s <> ep.
Proof.
  unfold without. rewrite !list_elem_of_In, filter_In, negb_true_iff. by rewrite String.eqb_neq.
Qed.
Lemma NoDup_without ep l : NoDup (map endpoint l) -> NoDup (map endpoint (without ep l)).
Proof.
  induction l as [|s l IH]; [done|]. cbn. intros [Hn Hd]%NoDup_cons. destruct (String.eqb (endpoint s) ep); cbn; [by apply IH|].
  apply NoDup_cons. split; [|by apply IH]. intros (s' & Hs & [Hin _]%elem_of_without)%list_elem_of_fmap. apply Hn, list_elem_of_fmap. by exists s'.
Qed.
Lemma upsert_ok aor s t t' : store_ok t -> upsert aor s t = Ok t' -> store_ok t'.
Proof.
  intros [H1 H2 H3] H. unfold upsert in H. apply bind_Ok_inv in H as ([] & Hv & H). injection H as <-.
  assert (forall l, l = default [] (t !! aor) -> NoDup (map endpoint l) /\ forall x, x ∈ l -> validate x = Ok tt) as Hl.
  { intros l ->. destruct (t !! aor) eqn:Ht; cbn; [split; [by eapply H2 | intros; by eapply H3]|]. split; [constructor | by intros x ?%elem_of_nil]. }
  destruct (Hl _ eq_refl) as [Hd Hval]. split.
  - intros a Ha. apply lookup_insert_Some in Ha as [[_ Ha] | [_ Ha]]; [by apply app_nil in Ha as [_ ?] | by eapply H1].
  - intros a l Ha. apply lookup_insert_Some in Ha as [[_ <-] | [_ Ha]]; [|by eapply H2]. rewrite map_app. cbn. apply NoDup_app. split_and!.
    + by apply NoDup_without.
    + intros e (s' & -> & [_ Hne]%elem_of_without)%list_elem_of_fmap. by rewrite list_elem_of_singleton.
    + apply NoDup_singleton.
  - intros a l x Ha Hx. apply lookup_insert_Some in Ha as [[_ <-] | [_ Ha]]; [|by eapply H3].
    apply elem_of_app in Hx as [[Hx _]%elem_of_without | ->%list_elem_of_singleton]; [by apply Hval | done].
Qed.
Lemma remove_lookup aor ep t a : (remove aor ep t).2 !! a =
  if decide (a = aor) then (match without ep (list_of aor t) with [] => None | l => Some l end) else t !! a.
Proof.
  unfold remove, list_of. destruct (t !! aor) as [l|] eqn:Ht; cbn -[without].
  - destruct (without ep l); cbn; case_decide; subst; by rewrite ?lookup_delete_eq, ?lookup_insert_eq, ?lookup_delete_ne, ?lookup_insert_ne.
  - cbn. case_decide; [by subst | done].
Qed.
Lemma remove_ok aor ep t : store_ok t -> store_ok (remove aor ep t).2.
Proof.
  intros [H1 H2 H3]. unfold list_of in *.
  assert (forall a l, (remove aor ep t).2 !! a = Some l -> l <> [] /\ exists l0, t !! a = Some l0 /\ (l = l0 \/ l = without ep l0)) as Hr.
  { intros a l. rewrite remove_lookup. unfold list_of. case_decide; subst.
    - destruct (t !! aor) as [l0|]; cbn -[without]; [|done]. destruct (without ep l0) eqn:Hw; [done|]. intros [= <-]. split; [done|]. exists l0. split; [done | by right].
    - intros Ha. split; [intros ->; by eapply H1 | exists l; split; [done | by left]]. }
  split.
  - intros a Ha. by apply Hr in Ha as [? _].
  - intros a l Ha. apply Hr in Ha as (_ & l0 & H0 & [-> | ->]); [by eapply H2 | apply NoDup_without; by eapply H2].
  - intros a l x Ha Hx. apply Hr in Ha as (_ & l0 & H0 & [-> | ->]); [by eapply H3 | apply elem_of_without in Hx as [Hx _]; by eapply H3].
Qed.
Lemma exec_ok network op t : store_ok t -> store_ok (exec network op t).2.
Proof. destruct op; cbn; [done | done | apply remove_ok]. Qed.

(** ** What a task did *)

Definition pw_listed (op : Op) : answer op -> option (string * list PushSubscription) :=
  match op with OpList aor => fun l => Some (aor, l) | _ => fun _ => None end.
Definition pw_transmitted (op : Op) : answer op -> option (string * list Z * option PushSendError) :=
  match op with OpTransmit ep m => fun x => Some (ep, m, option_map classify x) | _ => fun _ => None end.
Definition pw_removed (op : Op) : answer op -> option (string * string) :=
  match op with OpRemove aor ep => fun _ => Some (aor, ep) | _ => fun _ => None end.

(** A subscription that was found under an extension, and what became of its
    notification. *)
Abbreviation Fate := (string * PushSubscription * option PushSendError)%type.
Section fates.
Context (payload : IncomingCallPayload).
Definition sends (l : list Fate) : list (string * list Z * option PushSendError) :=
  omap (fun x : Fate => match message_for x.1.2 payload with inr m => Some (endpoint x.1.2, m, x.2) | inl _ => None end) l.
Definition drops (l : list Fate) : list (string * string) :=
  omap (fun x : Fate => match x.2 with Some Gone => Some (x.1.1, endpoint x.1.2) | _ => None end) l.
Definition honest (x : Fate) : Prop := match message_for x.1.2 payload with inl e => x.2 = Some e | inr _ => True end.
Definition found (h : list (done_call answer)) : list (string * PushSubscription) :=
  concat (map (fun p : string * list PushSubscription => map (pair p.1) p.2) (pick pw_listed h)).

(** On the way, and at the end for the extensions [aors]. *)
Definition pushing (h : list (done_call answer)) : Prop :=
  exists l, Forall honest l /\ map fst l `prefix_of` found h /\ sends l = pick pw_transmitted h /\ pick pw_removed h `prefix_of` drops l.
Definition pushed (aors : list string) (h : list (done_call answer)) : Prop :=
  map fst (pick pw_listed h) = aors /\
  exists l, Forall honest l /\ map fst l = found h /\ sends l = pick pw_transmitted h /\ pick pw_removed h = drops l.

Lemma found_app h op x : found (h ++ [did op x]) =
  found h ++ match op as o return answer o -> _ with OpList aor => fun l => map (pair aor) l | _ => fun _ => [] end x.
Proof. unfold found. rewrite pick_app, map_app, concat_app. f_equal. destruct op; cbn; by rewrite ?app_nil_r. Qed.

(** The subscriptions [todo] of [aor] are still to be notified. *)
Definition halfway (aor : string) (todo : list PushSubscription) (h : list (done_call answer)) : Prop :=
  exists l, Forall honest l /\ found h = map fst l ++ map (pair aor) todo /\ sends l = pick pw_transmitted h /\ pick pw_removed h = drops l.
Lemma halfway_pushing aor todo h : halfway aor todo h -> pushing h.
Proof. intros (l & H1 & H2 & H3 & H4). exists l. rewrite H2, H4. split_and!; [done | by apply prefix_app_r | done | done]. Qed.
Lemma sends_app l k : sends (l ++ k) = sends l ++ sends k.
Proof. apply omap_app. Qed.
Lemma drops_app l k : drops (l ++ k) = drops l ++ drops k.
Proof. apply omap_app. Qed.

(** One more has its fate, with the calls that it takes. *)
Lemma halfway_next aor s todo h f cs : halfway aor (s :: todo) h -> honest (aor, s, f) ->
  pick pw_listed cs = [] -> pick pw_transmitted cs = sends [(aor, s, f)] -> pick pw_removed cs = drops [(aor, s, f)] ->
  halfway aor todo (h ++ cs).
Proof.
  intros (l & H1 & H2 & H3 & H4) Hh C1 C2 C3. exists (l ++ [(aor, s, f)]). split_and!.
  - by apply Forall_app_2; [|apply Forall_singleton].
  - unfold found in *. rewrite pick_app, C1, app_nil_r, H2, map_app, <- app_assoc. done.
  - by rewrite sends_app, pick_app, H3, C2.
  - by rewrite drops_app, pick_app, H4, C3.
Qed.
Lemma pushing_sent aor s todo h m x : halfway aor (s :: todo) h -> message_for s payload = inr m ->
  pushing (h ++ [did (OpTransmit (endpoint s) m) x]).
Proof.
  intros (l & H1 & H2 & H3 & H4) Hm. exists (l ++ [(aor, s, option_map classify x)]). split_and!.
  - apply Forall_app_2; [done|]. apply Forall_singleton. unfold honest. cbn. by rewrite Hm.
  - rewrite found_app, app_nil_r, H2, map_app. apply prefix_app. cbn. by apply prefix_cons, prefix_nil.
  - rewrite sends_app, pick_app, H3. cbn. by rewrite Hm.
  - rewrite drops_app, pick_app, H4. cbn. rewrite app_nil_r. by apply prefix_app_r.
Qed.

Abbreviation track := (leads (fun h _ => pushing h) remember).
Lemma fan_out_leads aor : forall todo h sent dropped, halfway aor todo h ->
  track (fun h' _ => pick pw_listed h' = pick pw_listed h /\ halfway aor [] h') h (fan_out aor payload todo sent dropped).
Proof.
  induction todo as [|s todo IH]; intros h sent dropped Hh; cbn; [done|].
  assert (forall cs f sent dropped, honest (aor, s, f) -> pick pw_listed cs = [] -> pick pw_transmitted cs = sends [(aor, s, f)] ->
    pick pw_removed cs = drops [(aor, s, f)] ->
    track (fun h' _ => pick pw_listed h' = pick pw_listed h /\ halfway aor [] h') (h ++ cs) (fan_out aor payload todo sent dropped)) as Hnext.
  { intros cs f a b Hf C1 C2 C3. eapply leads_mono; [|apply IH; by apply (halfway_next aor s todo h f cs)].
    intros h' _ [Hl Hw]. split; [|done]. by rewrite Hl, pick_app, C1, app_nil_r. }
  unfold send_incoming_call. destruct (message_for s payload) as [e | m] eqn:Hm.
  - cbn. assert (honest (aor, s, Some e)) as He by (unfold honest; cbn; by rewrite Hm).
    pose proof (Hnext [] (Some e)) as H0. rewrite app_nil_r in H0.
    destruct e; [| apply H0; cbn; by rewrite ?Hm | apply H0; cbn; by rewrite ?Hm].
    split; [by eapply halfway_pushing|]. intros x. apply (Hnext [did (OpRemove aor (endpoint s)) x] (Some Gone)); cbn; by rewrite ?Hm.
  - cbn. split; [by eapply halfway_pushing|]. intros x. unfold remember at 1.
    assert (honest (aor, s, option_map classify x)) as He by (unfold honest; cbn; by rewrite Hm).
    pose proof (Hnext [did (OpTransmit (endpoint s) m) x] (option_map classify x)) as H0. cbn in H0. rewrite Hm in H0.
    destruct (option_map classify x) as [[| |]|] eqn:Hx; cbn; [| by apply H0 | by apply H0 | by apply H0].
    split; [by eapply pushing_sent|]. intros n. unfold remember at 1. rewrite <- app_assoc.
    apply (Hnext _ (Some Gone)); cbn; by rewrite ?Hm, ?Hx.
Qed.
Lemma push_all_leads : forall aors before h, pushed before h -> track (fun h' _ => pushed (before ++ aors) h') h (push_all payload aors).
Proof.
  induction aors as [|aor aors IH]; intros before h Hp; cbn; [by rewrite app_nil_r|].
  destruct Hp as (Hb & l & H1 & H2 & H3 & H4). split.
  - exists l. rewrite H2, H4. by split_and!.
  - intros subs. unfold remember at 1. set (h1 := h ++ [did (OpList aor) subs]).
    assert (halfway aor subs h1) as Hh.
    { exists l. unfold h1. rewrite found_app, !pick_app, H2, H3, H4. cbn. rewrite !app_nil_r. by split_and!. }
    assert (pick pw_listed h1 = pick pw_listed h ++ [(aor, subs)]) as Hl1 by (unfold h1; by rewrite pick_app).
    replace (before ++ aor :: aors) with ((before ++ [aor]) ++ aors) by by rewrite <- app_assoc.
    assert (forall h', pick pw_listed h' = pick pw_listed h1 -> halfway aor [] h' -> track (fun h' _ => pushed ((before ++ [aor]) ++ aors) h') h' (push_all payload aors)) as Hgo.
    { intros h' Hl (k & K1 & K2 & K3 & K4). apply IH. split; [by rewrite Hl, Hl1, map_app, Hb|]. exists k. rewrite app_nil_r in K2. by split_and!. }
    destruct subs as [|s subs]; [by apply Hgo|].
    eapply leads_bind; [by apply fan_out_leads|]. intros h' _ [Hl Hw]. by apply Hgo.
Qed.
End fates.

(** ** The properties *)

Record sound (w : World) : Prop := {
  so_store : store_ok (w_store w);
  so_task : forall id payload aors t, w_tasks w !! id = Some (payload, aors, t) ->
    (id < w_next w)%nat /\ pushing payload (acts w id) /\ leads (fun h _ => pushing payload h) remember (fun h _ => pushed payload aors h) (acts w id) t;
  so_new : forall id, (w_next w <= id)%nat -> acts w id = [] }.
Lemma pushed_nothing payload : pushed payload [] [].
Proof. split; [done|]. by exists []. Qed.
Lemma push_step w ev : sound w -> sound (step w ev).
Proof.
  intros [H1 H2 H3]. destruct ev as [call_id caller now aors | aor ep p a | id network]; cbn [step].
  - split; [done | |].
    + intros id payload' aors' t Hl. cbn in Hl. change (acts (mkWorld _ _ _ (w_acts w)) id) with (acts w id). cbn [w_next].
      apply lookup_insert_Some in Hl as [[<- [= <- <- <-]] | [_ Hl]]; [|destruct (H2 _ _ _ _ Hl) as (? & ? & ?); split_and!; [lia | done | done]].
      rewrite H3 by done. split_and!; [lia | by exists [] | by apply (push_all_leads _ _ []), pushed_nothing].
    + intros id Hid. cbn in Hid. apply H3. lia.
  - destruct (upsert_subscription _ _ _ _ _) as [t | |] eqn:Hu; [|done..]. split; [by eapply upsert_ok | done | done].
  - unfold run_task. destruct (w_tasks w !! id) as [[[payload aors] [u | op k]]|] eqn:Hl; [done | | done].
    pose proof (exec_ok network op (w_store w) H1) as Hst. destruct (exec network op (w_store w)) as [x t]. cbn in Hst.
    destruct (H2 _ _ _ _ Hl) as (Hid & _ & _ & Hk).
    assert (forall id', acts (mkWorld t (<[id := (payload, aors, k x)]> (w_tasks w)) (w_next w) (w_acts w ++ [(id, did op x)])) id' =
      if decide (id' = id) then acts w id ++ [did op x] else acts w id') as Hacts by (intros id'; apply of_task_snoc).
    split; [done | |].
    + intros id' payload' aors' t' Ht. rewrite Hacts. cbn in Ht. cbn [w_next].
      apply lookup_insert_Some in Ht as [[<- [= <- <- <-]] | [Hne Ht]]; [|rewrite decide_False by done; by eapply H2].
      rewrite decide_True by done. split_and!; [done | | apply Hk]. specialize (Hk x). destruct (k x); [|apply Hk].
      destruct Hk as (_ & l & K1 & K2 & K3 & K4). change (acts w id ++ [did op x]) with (remember op x (acts w id)). exists l. rewrite K2, K4. by split_and!.
    + intros id'. cbn [w_next]. rewrite Hacts. intros Hge. rewrite decide_False by lia. by apply H3.
Qed.
Lemma push_run evs : sound (run evs).
Proof.
  unfold run. assert (sound (mkWorld ∅ ∅ 0 [])) as H.
  { split; [split | |]; cbn; try done; intros *; by rewrite lookup_empty. }
  revert H. generalize (mkWorld ∅ ∅ 0 []). induction evs as [|ev evs IH]; intros w Hw; [done|]. by apply IH, push_step.
Qed.

(** C23: every subscription is notified once. Whatever the browsers subscribe meanwhile and
    the push services answer, a task that notifies of a call has done with the
    subscriptions it found under its extensions, one after the other: for each one its
    message was sent once, unless the libraries could not make it, and it was removed
    exactly when it is gone; at the end this is so for every subscription it found under
    every extension. The table never holds an extension without a subscription, two
    subscriptions of one end point under an extension, or one that is not valid. *)
Theorem subscriptions_notified evs : let w := run evs in
  store_ok (w_store w) /\
  forall id payload aors t, w_tasks w !! id = Some (payload, aors, t) ->
    pushing payload (acts w id) /\ (t = Fin tt -> pushed payload aors (acts w id)).
Proof.
  intros w. destruct (push_run evs) as [H1 H2 _]. split; [done|]. intros id payload aors t Hl.
  destruct (H2 _ _ _ _ Hl) as (_ & Hp & Hk). split; [done|]. by intros ->.
Qed.

(** *** A notification by itself *)

Section one.
Context (network : string -> list Z -> option WebPushError) (payload : IncomingCallPayload).
Definition fate (s : PushSubscription) : option PushSendError :=
  match message_for s payload with inl e => Some e | inr m => option_map classify (network (endpoint s) m) end.
Definition is_gone (s : PushSubscription) : bool := match fate s with Some Gone => true | _ => false end.
Definition is_sent (s : PushSubscription) : bool := match fate s with None => true | _ => false end.
Definition count (f : PushSubscription -> bool) (l : list PushSubscription) : nat := length (List.filter f l).

(** The subscriptions of [l] that stay when those of [todo] are notified. *)
Definition stays (todo : list PushSubscription) (s : PushSubscription) : bool :=
  negb (existsb (fun x => is_gone x && String.eqb (endpoint s) (endpoint x)) todo).
Definition table_with (aor : string) (l : list PushSubscription) (t : Store) : Store :=
  match l with [] => delete aor t | _ => <[aor := l]> t end.
Lemma table_with_with aor l k t : table_with aor l (table_with aor k t) = table_with aor l t.
Proof.
  destruct k, l; cbn; by rewrite ?delete_delete_eq, ?insert_delete_eq, ?delete_insert_eq, ?insert_insert_eq.
Qed.
Lemma list_of_table aor l t : list_of aor (table_with aor l t) = l.
Proof. unfold list_of. destruct l; cbn; [by rewrite lookup_delete_eq | by rewrite lookup_insert_eq]. Qed.
Lemma filter_two {A} (f g : A -> bool) l : List.filter f (List.filter g l) = List.filter (fun x => g x && f x) l.
Proof. induction l as [|x l IH]; cbn; [done|]. destruct (g x); cbn; [destruct (f x)|]; by rewrite IH. Qed.
Lemma without_one s l : NoDup (map endpoint l) -> s ∈ l -> S (length (without (endpoint s) l)) = length l.
Proof.
  induction l as [|x l IH]; [by intros _ ?%elem_of_nil|]. cbn. intros [Hn Hd]%NoDup_cons [-> | Hin]%elem_of_cons.
  - rewrite String.eqb_refl. cbn. f_equal. unfold without. clear IH Hd. induction l as [|y l IH]; [done|]. cbn in *.
    destruct (String.eqb_spec (endpoint y) (endpoint x)) as [He | He]; [exfalso; apply Hn; rewrite He; by left|]. cbn. f_equal. apply IH. intros Hin. apply Hn. by right.
  - destruct (String.eqb_spec (endpoint x) (endpoint s)) as [He | He]; cbn; [|f_equal; by apply IH].
    exfalso. apply Hn. rewrite He. apply list_elem_of_fmap. by exists s.
Qed.
Lemma remove_table aor s t l : NoDup (map endpoint l) -> s ∈ l ->
  remove aor (endpoint s) (table_with aor l t) = (1%nat, table_with aor (without (endpoint s) l) t).
Proof.
  intros Hd Hin. pose proof (without_one s l Hd Hin) as Hl. destruct l as [|x l]; [by apply elem_of_nil in Hin|].
  unfold remove. cbn [table_with]. rewrite lookup_insert_eq. f_equal; [lia|].
  destruct (without (endpoint s) (x :: l)); cbn [table_with]; by rewrite ?delete_insert_eq, ?insert_insert_eq.
Qed.

Lemma fan_out_alone aor : forall todo l t sent dropped, NoDup (map endpoint l) -> NoDup (map endpoint todo) -> (forall s, s ∈ todo -> s ∈ l) ->
  alone network (fan_out aor payload todo sent dropped) (table_with aor l t) =
  ((sent + count is_sent todo, dropped + count is_gone todo)%nat, table_with aor (List.filter (stays todo) l) t).
Proof.
  induction todo as [|s todo IH]; intros l t sent dropped Hl Hd Hin.
  { cbn. rewrite !Nat.add_0_r. f_equal. f_equal. clear. induction l as [|x l IH]; cbn; [done | by rewrite <- IH]. }
  cbn in Hd. apply NoDup_cons in Hd as [Hn Hd].
  assert (forall s', s' ∈ todo -> s' ∈ without (endpoint s) l) as Hin'.
  { intros s' Hs'. apply elem_of_without. split; [apply Hin; by right|]. intros He. apply Hn. rewrite <- He. apply list_elem_of_fmap. by exists s'. }
  assert (forall f, f = is_gone s -> f = false -> List.filter (stays (s :: todo)) l = List.filter (stays todo) l) as Hkeep.
  { intros f -> Hf. unfold stays. cbn [existsb]. by rewrite Hf. }
  assert (is_gone s = true -> List.filter (stays (s :: todo)) l = List.filter (stays todo) (without (endpoint s) l)) as Hdrop.
  { intros Hg. unfold without. rewrite filter_two. apply filter_ext. intros x. unfold stays. cbn [existsb]. rewrite Hg. cbn. by rewrite negb_orb. }
  assert (fate s = Some Gone -> forall k, alone network (k 1%nat) (table_with aor (without (endpoint s) l) t) =
     ((sent + count is_sent todo, dropped + 1 + count is_gone todo)%nat, table_with aor (List.filter (stays todo) (without (endpoint s) l)) t) ->
     (let '(x, t') := exec None (OpRemove aor (endpoint s)) (table_with aor l t) in alone network (k x) t') =
     ((sent + count is_sent (s :: todo), dropped + count is_gone (s :: todo))%nat, table_with aor (List.filter (stays (s :: todo)) l) t)) as Hgone.
  { intros Hf k Hk. cbn [exec]. rewrite remove_table; [|done | apply Hin; by left]. rewrite Hk, Hdrop by (unfold is_gone; by rewrite Hf).
    unfold count. cbn. unfold is_sent at 2, is_gone at 2. rewrite Hf. cbn. f_equal. f_equal. lia. }
  assert (fate s <> Some Gone -> forall sent', sent' = (sent + if is_sent s then 1 else 0)%nat -> alone network (fan_out aor payload todo sent' dropped) (table_with aor l t) =
     ((sent + count is_sent (s :: todo), dropped + count is_gone (s :: todo))%nat, table_with aor (List.filter (stays (s :: todo)) l) t)) as Hstay.
  { intros Hf sent' ->. rewrite IH by (done || (intros; apply Hin; by right)). assert (is_gone s = false) as Hg by (unfold is_gone; by destruct (fate s) as [[]|]).
    rewrite (Hkeep _ eq_refl Hg). unfold count. cbn. rewrite Hg. destruct (is_sent s); cbn; f_equal; f_equal; lia. }
  cbn. unfold send_incoming_call. unfold fate, is_sent, is_gone in Hgone, Hstay. destruct (message_for s payload) as [e | m] eqn:Hm.
  - assert (fate s = Some e) as Hf by (unfold fate; by rewrite Hm).
    destruct e; cbn; [apply Hgone | apply Hstay | apply Hstay]; try done; try (unfold is_sent; rewrite Hf; lia).
    apply IH; [by apply NoDup_without | done | done].
  - assert (fate s = option_map classify (network (endpoint s) m)) as Hf by (unfold fate; by rewrite Hm).
    cbn. destruct (option_map classify (network (endpoint s) m)) as [[| |]|]; cbn; [apply Hgone | apply Hstay | apply Hstay | apply Hstay]; try done; try (unfold is_sent; rewrite Hf; lia).
    apply IH; [by apply NoDup_without | done | done].
Qed.

Lemma same_endpoint l x y : NoDup (map endpoint l) -> x ∈ l -> y ∈ l -> endpoint x = endpoint y -> x = y.
Proof.
  induction l as [|z l IH]; [by intros _ ?%elem_of_nil|]. cbn. intros [Hn Hd]%NoDup_cons Hx Hy He.
  apply elem_of_cons in Hx as [-> | Hx], Hy as [-> | Hy]; [done | | | by apply IH]; exfalso; apply Hn, list_elem_of_fmap; [by exists y | by exists x].
Qed.
Lemma stays_itself l : NoDup (map endpoint l) -> List.filter (stays l) l = List.filter (fun s => negb (is_gone s)) l.
Proof.
  intros Hd. apply filter_ext_in. intros x Hx. unfold stays. f_equal. apply eq_true_iff_eq. rewrite existsb_exists. split.
  - intros (y & Hy & [Hg He%String.eqb_eq]%andb_true_iff). by rewrite (same_endpoint l x y Hd); [| by apply list_elem_of_In | by apply list_elem_of_In |].
  - intros Hg. exists x. by rewrite Hg, String.eqb_refl.
Qed.

(** C24: a notification leaves what can still be reached. With nothing else happening
    meanwhile, the notification of an extension returns how many of its subscriptions
    were told of the call and how many are gone, and leaves in the table those of them,
    in their order, that are not gone; the extension leaves the table with its last one,
    and the other extensions keep theirs. *)
Theorem gone_subscriptions_dropped aor t : store_ok t ->
  alone network (notify_incoming_call aor payload) t =
  ((count is_sent (list_of aor t), count is_gone (list_of aor t)),
   table_with aor (List.filter (fun s => negb (is_gone s)) (list_of aor t)) t).
Proof.
  intros [H1 H2 _]. unfold notify_incoming_call. cbn -[list_of fan_out]. destruct (list_of aor t) as [|s l] eqn:Hl.
  - cbn. f_equal. symmetry. apply delete_id. unfold list_of in Hl. destruct (t !! aor) eqn:Ht; [|done]. cbn in Hl. subst. by apply H1 in Ht.
  - assert (t !! aor = Some (s :: l)) as Ht by (unfold list_of in Hl; destruct (t !! aor); [cbn in Hl; by subst | done]).
    assert (t = table_with aor (s :: l) t) as Hself by (cbn; by rewrite insert_id).
    rewrite Hself at 1. rewrite fan_out_alone; [| by eapply H2 | by eapply H2 | done]. by rewrite stays_itself by by eapply H2.
Qed.
End one.
End push.

(** ** Samples *)

(** The services know the end point https://a, have lost https://b, and https://c is down. *)
Definition sample_network (ep : string) (m : list Z) : option WebPushError :=
  if String.eqb ep "https://b" then Some EndpointNotValid else if String.eqb ep "https://c" then Some ServerError else None.
Definition sample_sign (s : PushSubscription) (subject : string) : string + string := inr subject.
Definition sample_to_vec (p : IncomingCallPayload) : string + list Z := inr [issued_at p].
Definition sample_build (m : PushMessage) : WebPushError + list Z :=
  if String.eqb (p256dh (to m)) "bad" then inl InvalidCryptoKeys else inr (body m).
Abbreviation sample_run := (run "mailto:a" (fun _ => "") sample_sign sample_to_vec sample_build).
Definition sample_table : Store :=
  {[ "alice" := [mkSub "https://a" "k" "k"; mkSub "https://b" "k" "k"; mkSub "https://c" "k" "k"; mkSub "https://d" "bad" "k"] ]}.

Lemma sample_table_ok : store_ok sample_table.
Proof.
  assert (forall a l, sample_table !! a = Some l -> l = [mkSub "https://a" "k" "k"; mkSub "https://b" "k" "k"; mkSub "https://c" "k" "k"; mkSub "https://d" "bad" "k"]) as H
    by (unfold sample_table; intros a l [_ <-]%lookup_singleton_Some; done).
  split.
  - by intros a Ha%H.
  - intros a l ->%H. apply (bool_decide_unpack _). by vm_compute.
  - intros a l s ->%H Hs. repeat (apply elem_of_cons in Hs as [-> | Hs]; [by vm_compute|]). by apply elem_of_nil in Hs.
Defined.
Lemma gone_subscriptions_dropped_witness :
  alone sample_network (notify_incoming_call "mailto:a" (fun _ => "") sample_sign sample_to_vec sample_build "alice" (payload_new "c" "117" (Some 5))) sample_table =
  ((1%nat, 1%nat), {[ "alice" := [mkSub "https://a" "k" "k"; mkSub "https://c" "k" "k"; mkSub "https://d" "bad" "k"] ]}).
Proof.
  rewrite gone_subscriptions_dropped by exact sample_table_ok. by vm_compute.
Defined.

Lemma subscriptions_notified_witness :
  let evs := [Subscribe "alice" "https://b" "k" "k"; Incoming "c" "117" (Some 5) ["alice"]; Runs 0 None; Runs 0 (Some EndpointNotFound); Runs 0 None] in
  pushed "mailto:a" (fun _ => "") sample_sign sample_to_vec sample_build (payload_new "c" "117" (Some 5)) ["alice"] (acts (sample_run evs) 0).
Proof.
  intros evs. destruct (subscriptions_notified "mailto:a" (fun _ => "") sample_sign sample_to_vec sample_build evs) as [_ H].
  eapply (H 0%nat); [by vm_compute | done].
Defined.

(** A browser that subscribes again while its old subscription is tried loses the new one. *)
Lemma renewed_subscription_lost :
  let evs := [Subscribe "alice" "https://b" "old" "k"; Incoming "c" "117" (Some 5) ["alice"]; Runs 0 None;
    Runs 0 (Some EndpointNotFound); Subscribe "alice" "https://b" "new" "k"; Runs 0 None] in
  w_store (sample_run evs) = ∅.
Proof. by vm_compute. Qed.

(** An end point without TLS is accepted. *)
Lemma plain_http_accepted : validate (mkSub "http://push.example/x" "k" "k") = Ok tt.
Proof. by vm_compute. Qed.
