(* ===== verification/Endpoint.v ===== *)
(** The HTTP endpoint (health/mod.rs): probes, call log, voicemail, recordings, short
    messages and the key of web push.

    axum takes a request apart: its method, the segments of its path with their
    percent-encoding undone, its query and its JSON. The JSON of the answers is left to
    serde; an answer holds the values. The directories of the voicemail and of the
    recordings are those of [Recording]. A short message goes through [BrowserCalls.send_sms], in the world of
    the handler of the browsers' calls, and the log of the messages is the one in that
    world: main.rs gives both the same. *)
From S2P Require Import Prelude Bytes RustStr Utf8 NetAddr SipMessage TuProg Uac SipFields Handler MessageLog CallLog Wav Recording BrowserCalls Signaling.
Abbreviation world := (Handler.World WebState WebOutput).

(** ** Requests and answers *)

Inductive Method := Get | Post | Delete.
Inductive Request :=
  | Healthz | Readyz | MetricsText
  | CallLogRecent (n : option nat)
  | VoicemailList | VoicemailAudio (id : string) | VoicemailTranscript (id : string) | VoicemailDelete (id : string)
  | RecordingList | RecordingAudio (id : string) | RecordingTranscript (id : string) | RecordingDelete (id : string)
  | VapidPublicKey
  | SmsRecent (n : option nat)
  | SmsSend (to body : string).

Record SmsSendRequest := mkSmsRequest { sr_to : string; sr_body : string }.

(** [n] is the query of the request and [json] its body, when it has them. *)
Definition router (m : Method) (path : list string) (n : option nat) (json : option SmsSendRequest) : option Request :=
  match m, path with
  | Get, ["healthz"] => Some Healthz
  | Get, ["readyz"] => Some Readyz
  | Get, ["metrics"] => Some MetricsText
  | Get, ["api"; "call-log"; "recent"] => Some (CallLogRecent n)
  | Get, ["api"; "voicemail"; "list"] => Some VoicemailList
  | Get, ["api"; "voicemail"; id; "audio"] => Some (VoicemailAudio id)
  | Get, ["api"; "voicemail"; id; "transcript"] => Some (VoicemailTranscript id)
  | Delete, ["api"; "voicemail"; "list"] => None
  | Delete, ["api"; "voicemail"; id] => Some (VoicemailDelete id)
  | Get, ["api"; "recording"; "list"] => Some RecordingList
  | Get, ["api"; "recording"; id; "audio"] => Some (RecordingAudio id)
  | Get, ["api"; "recording"; id; "transcript"] => Some (RecordingTranscript id)
  | Delete, ["api"; "recording"; "list"] => None
  | Delete, ["api"; "recording"; id] => Some (RecordingDelete id)
  | Get, ["api"; "push"; "vapid-public-key"] => Some VapidPublicKey
  | Get, ["api"; "sms"; "recent"] => Some (SmsRecent n)
  | Post, ["api"; "sms"] => (fun r => SmsSend (sr_to r) (sr_body r)) <$> json
  | _, _ => None
  end.

Inductive Body :=
  | Text (s : string)
  | Wav (bytes : list Z)
  | Transcript (s : string)
  | MetricsBody (s : string)
  | CallLogJson (l : list CallLogEntry)
  | VoicemailJson (l : list VoicemailFile)
  | RecordingJson (l : list RecordingFile)
  | SmsJson (l : list SmsMessage)
  | SmsStatusJson (status : Z)
  | VapidJson (public_key subject : string)
  | InvalidTarget (to : string).
Abbreviation Response := (Z * Body)%type.

(** The texts end with a newline. *)
Definition line (s : string) : Body := Text (s +:+ String "010" "").

Definition DEFAULT_CALL_LOG_LIMIT : nat := 20.
Definition DEFAULT_SMS_LIMIT : nat := 20.
Definition SMS_BODY_MAX_BYTES : Z := 1024.

(** What is attached: [None] where a feature is off. [hs_sms_log] and [hs_sms_handler]
    stand for references to the log and to the handler, which live in the [world]. *)
Record HealthState := mkHealth {
  hs_registered : bool; hs_call_log : CallLog; hs_voicemail : option Files; hs_recording : option Files;
  hs_vapid : option (string * string); hs_sms_log : bool; hs_sms_handler : bool }.
Definition health_new (registered : bool) (log : CallLog) : HealthState := mkHealth registered log None None None false false.
Definition set_voicemail (f : option Files) (st : HealthState) : HealthState :=
  mkHealth (hs_registered st) (hs_call_log st) f (hs_recording st) (hs_vapid st) (hs_sms_log st) (hs_sms_handler st).
Definition set_recording (f : option Files) (st : HealthState) : HealthState :=
  mkHealth (hs_registered st) (hs_call_log st) (hs_voicemail st) f (hs_vapid st) (hs_sms_log st) (hs_sms_handler st).
Definition with_vapid (k : string * string) (st : HealthState) : HealthState :=
  mkHealth (hs_registered st) (hs_call_log st) (hs_voicemail st) (hs_recording st) (Some k) (hs_sms_log st) (hs_sms_handler st).
Definition with_sms (st : HealthState) : HealthState :=
  mkHealth (hs_registered st) (hs_call_log st) (hs_voicemail st) (hs_recording st) (hs_vapid st) true true.

(** What a request meets: the names in the directory; the routes, the random numbers and
    the time of a short message, and the text of the error if it fails. *)
Record HttpEnv := mkHttpEnv { he_names : option (list string); he_routes : Routes; he_ids : Ids; he_now : Z; he_error : string }.

Definition sms_is_valid_target (target : string) : bool :=
  if String.eqb target "" || (32 <? Z.of_nat (String.length target)) then false
  else all_chars (fun c => is_ascii_digit c || Ascii.eqb c "*" || Ascii.eqb c "#" || Ascii.eqb c "+") target.

(** ** The stored files *)

Section kind.
Context {M : Type} (from_json : list Z -> option M) (recorded_at : M -> Z) (what : string).

(** [names]: the names in the directory in the system's order, unless it cannot be read. *)
Definition list_stored (json : list M -> Body) (names : option (list string)) (files : Files) : Response :=
  match names with
  | Some names => (200, json (load_list from_json recorded_at files names))
  | None => (500, line "internal error")
  end.
Definition audio (files : Files) (id : string) : Response :=
  let safe_id := sanitize_id id in
  match get from_json files safe_id with
  | Ok (Some (_, wav_path)) =>
      match files !! wav_path with
      | Some bytes => (200, Wav bytes)
      | None => (500, line "read wav failed")
      end
  | Ok None => (404, line (what +:+ " not found"))
  | _ => (500, line "internal error")
  end.

(** [read_transcript], for the metadata's WAV file. *)
Definition read_transcript (files : Files) (id : string) : Prelude.outcome unit (option string) :=
  match files !! named id TRANSCRIPT_EXT with
  | None => Ok None
  | Some bytes => let s := foldr (fun b s => String (chr b) s) "" bytes in if is_utf8 s then Ok (Some s) else Err tt
  end.
Definition transcript (files : Files) (id : string) : Response :=
  let safe_id := sanitize_id id in
  match get from_json files safe_id with
  | Ok (Some _) =>
      match read_transcript files safe_id with
      | Ok (Some text) => (200, Transcript text)
      | Ok None => (404, line "transcript not found")
      | _ => (500, line "read transcript failed")
      end
  | Ok None => (404, line (what +:+ " not found"))
  | _ => (500, line "internal error")
  end.
Definition remove_stored (files : Files) (id : string) : Response * Files :=
  let safe_id := sanitize_id id in
  let '(found, files) := delete_file files safe_id in
  (if found then (204, Text "") else (404, line (what +:+ " not found")), files).
End kind.

(** ** The handlers *)

Section serve.
Context (cfg : WebConfig) (vm_json : list Z -> option VoicemailFile) (rec_json : list Z -> option RecordingFile) (render : bool -> string).

Definition disabled (what : string) : Response := (503, line (what +:+ " disabled")).

(** The answer, and the world after. *)
Definition sms_send (st : HealthState) (w : world) (env : HttpEnv) (to body : string) : Response * world :=
  if negb (hs_sms_handler st) then (disabled "sms", w)
  else if negb (sms_is_valid_target to) then ((400, InvalidTarget to), w)
  else if SMS_BODY_MAX_BYTES <? Z.of_nat (String.length body) then ((413, line ("body too large: max " +:+ print_uint SMS_BODY_MAX_BYTES +:+ " bytes (RFC 3428 §8 aggregate size guidance)")), w)
  else
    let '(res, w) := send_sms cfg (he_routes env) (he_ids env) to body (he_now env) w in
    (match res with
     | Ok (Sent status) => (200, SmsStatusJson status)
     | Ok (SmsRejected status) => (502, line ("sms rejected (status=" +:+ print_uint status +:+ ")"))
     | _ => (500, line ("sms send failed: " +:+ he_error env))
     end, w).

Definition of_files (f : option Files) (what : string) (answer : Files -> Response) : Response :=
  match f with None => disabled what | Some files => answer files end.
Definition remove_in (f : option Files) (what : string) (id : string) : Response * option Files :=
  match f with None => (disabled what, None) | Some files => let '(r, files) := remove_stored what files id in (r, Some files) end.

Definition healthz : Response := (200, line "ok").
Definition readyz (st : HealthState) : Response := if hs_registered st then (200, line "ready") else (503, line "not ready").
Definition metrics (st : HealthState) : Response := (200, MetricsBody (render (hs_registered st))).
Definition call_log_recent (st : HealthState) (n : option nat) : Response :=
  (200, CallLogJson (call_recent (hs_call_log st) (default DEFAULT_CALL_LOG_LIMIT n))).
Definition voicemail_list (st : HealthState) (names : option (list string)) : Response :=
  of_files (hs_voicemail st) "voicemail" (list_stored vm_json vf_recorded_at VoicemailJson names).
Definition voicemail_audio (st : HealthState) (id : string) : Response :=
  of_files (hs_voicemail st) "voicemail" (fun f => audio vm_json "voicemail" f id).
Definition voicemail_delete (st : HealthState) (id : string) : Response * HealthState :=
  let '(a, f) := remove_in (hs_voicemail st) "voicemail" id in (a, set_voicemail f st).
Definition recording_list (st : HealthState) (names : option (list string)) : Response :=
  of_files (hs_recording st) "recording" (list_stored rec_json rf_started_at RecordingJson names).
Definition recording_audio (st : HealthState) (id : string) : Response :=
  of_files (hs_recording st) "recording" (fun f => audio rec_json "recording" f id).
Definition voicemail_transcript (st : HealthState) (id : string) : Response :=
  of_files (hs_voicemail st) "voicemail" (fun f => transcript vm_json "voicemail" f id).
Definition sms_recent (st : HealthState) (w : world) (n : option nat) : Response :=
  match (if hs_sms_log st then message_log (shared w) else None) with Some log => (200, SmsJson (recent log (default DEFAULT_SMS_LIMIT n))) | None => disabled "sms" end.
Definition recording_transcript (st : HealthState) (id : string) : Response :=
  of_files (hs_recording st) "recording" (fun f => transcript rec_json "recording" f id).
Definition recording_delete (st : HealthState) (id : string) : Response * HealthState :=
  let '(a, f) := remove_in (hs_recording st) "recording" id in (a, set_recording f st).
Definition push_vapid_public_key (st : HealthState) : Response :=
  match hs_vapid st with Some (k, s) => (200, VapidJson k s) | None => (503, line "push disabled or VAPID keys missing") end.

(** The answer, and the state after, with the world that the handler shares. *)
Definition serve (st : HealthState) (w : world) (env : HttpEnv) (r : Request) : Response * HealthState * world :=
  match r with
  | Healthz => (healthz, st, w)
  | Readyz => (readyz st, st, w)
  | MetricsText => (metrics st, st, w)
  | CallLogRecent n => (call_log_recent st n, st, w)
  | VoicemailList => (voicemail_list st (he_names env), st, w)
  | VoicemailAudio id => (voicemail_audio st id, st, w)
  | VoicemailTranscript id => (voicemail_transcript st id, st, w)
  | VoicemailDelete id => (voicemail_delete st id, w)
  | RecordingList => (recording_list st (he_names env), st, w)
  | RecordingAudio id => (recording_audio st id, st, w)
  | RecordingTranscript id => (recording_transcript st id, st, w)
  | RecordingDelete id => (recording_delete st id, w)
  | VapidPublicKey => (push_vapid_public_key st, st, w)
  | SmsRecent n => (sms_recent st w n, st, w)
  | SmsSend to body => let '(a, w) := sms_send st w env to body in (a, st, w)
  end.
End serve.

(** ** What is served *)

Lemma sanitize_twice id : sanitize_id (sanitize_id id) = sanitize_id id.
Proof.
  apply sanitize_plain; [apply sanitize_safe | | |]; unfold sanitize_id;
    destruct (String.eqb_spec (sanitize_chars id) ""), (String.eqb_spec (sanitize_chars id) "."), (String.eqb_spec (sanitize_chars id) ".."); done.
Qed.
Lemma named_again id ext : named (sanitize_id id) ext = named id ext.
Proof. unfold named. by rewrite sanitize_twice. Qed.
Lemma named_one id id' ext ext' : no_char "." ext = true -> no_char "." ext' = true ->
  named id ext = named id' ext' -> sanitize_id id = sanitize_id id' /\ ext = ext'.
Proof.
  intros H1 H2 He. assert (forall i e, no_char "." e = true -> rsplit_once "." (named i e) = Some (sanitize_id i, e)) as H.
  { intros i e Hc. unfold named. by apply rsplit_once_last. }
  pose proof (H id ext H1) as Ha. rewrite He, (H id' ext' H2) in Ha. by injection Ha as <- <-.
Qed.
(** The three files of an id. *)
Definition stored_ext (ext : string) : Prop := ext = EXT_WAV \/ ext = EXT_META \/ ext = TRANSCRIPT_EXT.
Lemma stored_ext_plain ext : stored_ext ext -> no_char "." ext = true.
Proof. by intros [-> | [-> | ->]]. Qed.

Lemma remove_stored_files what files id name : (remove_stored what files id).2 !! name <> files !! name ->
  exists ext, stored_ext ext /\ name = named id ext.
Proof.
  unfold remove_stored, delete_file. cbn. intros H. rewrite !named_again in H.
  destruct (decide (name = named id EXT_WAV)) as [-> | N1]; [exists EXT_WAV; split; [by left | done]|].
  destruct (decide (name = named id EXT_META)) as [-> | N2]; [exists EXT_META; split; [by right; left | done]|].
  destruct (decide (name = named id TRANSCRIPT_EXT)) as [-> | N3]; [exists TRANSCRIPT_EXT; split; [by right; right | done]|].
  exfalso. apply H. by rewrite !lookup_delete_ne.
Qed.
Lemma remove_stored_gone what files id ext : stored_ext ext -> (remove_stored what files id).2 !! named id ext = None.
Proof.
  intros He. unfold remove_stored, delete_file. cbn. rewrite !named_again. destruct (decide (ext = TRANSCRIPT_EXT)) as [-> | N1]; [by rewrite lookup_delete_eq|].
  assert (forall a b, a <> b -> named id a <> named id b) as Hne by (intros a b Hab Heq; by apply Hab, (named_inj id)).
  rewrite lookup_delete_ne by (apply Hne; congruence). destruct (decide (ext = EXT_WAV)) as [-> | N2]; [by rewrite lookup_delete_eq|].
  rewrite lookup_delete_ne by (apply Hne; congruence). destruct He as [-> | [-> | ->]]; [done | by rewrite lookup_delete_eq | done].
Qed.
Lemma remove_stored_others what files id id' ext : sanitize_id id' <> sanitize_id id -> stored_ext ext ->
  (remove_stored what files id).2 !! named id' ext = files !! named id' ext.
Proof.
  intros Hne He. destruct (decide ((remove_stored what files id).2 !! named id' ext = files !! named id' ext)) as [Heq | Hd]; [done|].
  apply remove_stored_files in Hd as (ext' & He' & Hn). apply named_one in Hn as [? _]; [done | by apply stored_ext_plain..].
Qed.

(** An answer about an id depends on its three files alone. *)
Section one_id.
Context {M : Type} (from_json : list Z -> option M) (what : string) (files files' : Files) (id : string).
Hypothesis same : forall ext, stored_ext ext -> files' !! named id ext = files !! named id ext.
Lemma get_same : get from_json files' (sanitize_id id) = get from_json files (sanitize_id id).
Proof. unfold get. rewrite !named_again. by rewrite same by (right; by left). Qed.
Lemma audio_same : audio from_json what files' id = audio from_json what files id.
Proof.
  unfold audio. rewrite get_same. unfold get. rewrite !named_again. destruct (files !! named id EXT_META) as [b|]; [|done].
  cbn. destruct (from_json b); cbn; [|done]. by rewrite same by by left.
Qed.
Lemma transcript_same : transcript from_json what files' id = transcript from_json what files id.
Proof. unfold transcript, read_transcript. rewrite get_same, !named_again. by rewrite same by (right; by right). Qed.
End one_id.
Lemma audio_gone {M} (from_json : list Z -> option M) what files id : files !! named id EXT_META = None ->
  audio from_json what files id = (404, line (what +:+ " not found")) /\ transcript from_json what files id = (404, line (what +:+ " not found")).
Proof. intros H. unfold audio, transcript, get. by rewrite named_again, H. Qed.

Section http.
Context (cfg : WebConfig) (vm_json : list Z -> option VoicemailFile) (rec_json : list Z -> option RecordingFile) (render : bool -> string).
Abbreviation served := (serve cfg vm_json rec_json render).
Abbreviation answered st w env r := (served st w env r).1.1.
Abbreviation after st w env r := (served st w env r).1.2.

Lemma valid_target_chars to : sms_is_valid_target to = is_valid_dial_target to.
Proof.
  unfold sms_is_valid_target, is_valid_dial_target. destruct (String.eqb to ""); [done|]. cbn.
  destruct (Z.ltb_spec 32 (Z.of_nat (String.length to))), (Nat.leb_spec (String.length to) 32); done || lia.
Qed.
Lemma pwa_target_chars to : is_valid_pwa_dial_target to = is_valid_dial_target to.
Proof. unfold is_valid_dial_target, is_valid_pwa_dial_target. rewrite (Nat.leb_antisym). by destruct (String.eqb to ""), (32 <? String.length to)%nat. Qed.

(** What a short message may be. *)
Definition sendable (st : HealthState) (to body : string) : bool :=
  hs_sms_handler st && is_valid_dial_target to && (Z.of_nat (String.length body) <=? 1024).
(** A MESSAGE went to the NGN; its answer, if there is one, leaves an entry in the log. *)
Definition messaged (env : HttpEnv) (to body : string) (w w' : world) : Prop :=
  (exists req, outs w' = outs w ++ [WebNgnSent (Awaited req (uac_server (wc_uac cfg)))] /\
     req_method req = Message /\ req_uri req = web_target_uri cfg to /\ req_body req = body) /\
  shared w' =
    match default None (head (answers w)) with
    | Some _ => set_messages (fun log => log_push log (mkSms MessageLog.Outbound (uc_local_uri (uac_config (wc_uac cfg))) (web_target_uri cfg to) body (he_now env))) (shared w)
    | None => shared w
    end.
Definition sms_answer (env : HttpEnv) (w : world) : Response :=
  match default None (head (answers w)) with
  | Some resp =>
      if (200 <=? status_code resp) && (status_code resp <? 300) then (200, SmsStatusJson (status_code resp))
      else (502, line ("sms rejected (status=" +:+ print_uint (status_code resp) +:+ ")"))
  | None => (500, line ("sms send failed: " +:+ he_error env))
  end.

Lemma sms_sent st w env to body : sendable st to body = true ->
  (sms_send cfg st w env to body).1 = sms_answer env w /\ messaged env to body w (sms_send cfg st w env to body).2.
Proof.
  intros [[Hh Hv]%andb_true_iff Hl%Z.leb_le]%andb_true_iff. unfold sms_send. rewrite Hh, valid_target_chars, Hv. cbn [negb].
  rewrite (proj2 (Z.ltb_ge SMS_BODY_MAX_BYTES _)) by exact Hl. unfold send_sms, sms_answer, messaged. rewrite pwa_target_chars, Hv. cbn [negb].
  unfold send_message, send_request. cbn [perform]. unfold mbind, handler_bind. cbn [emit awaited shared oks answers rnds outs].
  destruct (default None (head (answers w))) as [resp|]; cbn; [fold (is_2xx (status_code resp)); destruct (is_2xx _)|]; (split; [done|]; split; [by eexists | done]).
Qed.
Lemma sms_refused st w env to body : sendable st to body = false -> (sms_send cfg st w env to body).2 = w.
Proof.
  unfold sendable, sms_send. destruct (hs_sms_handler st); cbn [negb andb]; [|done]. rewrite valid_target_chars. destruct (is_valid_dial_target to); cbn [negb andb]; [|done].
  intros Hl%Z.leb_gt. by rewrite (proj2 (Z.ltb_lt SMS_BODY_MAX_BYTES _)).
Qed.

Lemma removed_names (f : option Files) what id name : ((remove_in f what id).2 ≫= lookup name) <> (f ≫= lookup name) ->
  exists ext, name = named id ext /\ all_chars safe_char name = true.
Proof.
  destruct f as [f|]; [|done]. unfold remove_in. pose proof (remove_stored_files what f id name) as H. destruct (remove_stored what f id) as [a f']. cbn [snd mbind option_bind] in *.
  intros (ext & He & ->)%H. exists ext. split; [done|]. unfold named. rewrite !all_chars_app, sanitize_safe. by destruct He as [-> | [-> | ->]].
Qed.

(** C22: an HTTP request reaches nothing it should not. The NGN hears of it, and the
    handler of the calls changes, only by a request to send a short message, where
    messages are on, to a target that a browser may dial and of 1024 bytes at most: then
    one MESSAGE with that text goes to the server, the answer tells its status, and the
    log that is shared with the handler gets one entry if the NGN answered at all. A file
    of the voicemail or of the recordings is changed only by a request to delete its id,
    and has a plain name in its directory. Nothing else changes. *)
Theorem requests_contained st w env r :
  let '(a, st', w') := served st w env r in
  match r with
  | SmsSend to body => if sendable st to body then a = sms_answer env w /\ messaged env to body w w' else w' = w
  | _ => w' = w
  end /\
  (forall kind name, (kind = hs_voicemail \/ kind = hs_recording) -> (kind st' ≫= lookup name) <> (kind st ≫= lookup name) ->
     exists id ext, (kind = hs_voicemail /\ r = VoicemailDelete id \/ kind = hs_recording /\ r = RecordingDelete id) /\
       name = named id ext /\ all_chars safe_char name = true) /\
  (hs_registered st', hs_call_log st', hs_vapid st', hs_sms_log st', hs_sms_handler st') =
    (hs_registered st, hs_call_log st, hs_vapid st, hs_sms_log st, hs_sms_handler st).
Proof.
  destruct r; unfold serve, voicemail_delete, recording_delete;
    try (split_and!; [done | by intros kind name [-> | ->] | done]).
  - pose proof (removed_names (hs_voicemail st) "voicemail" id) as H. destruct (remove_in (hs_voicemail st) "voicemail" id) as [a f].
    split_and!; [done | | done]. intros kind name [-> | ->]; cbn; [|done]. intros (ext & Hn & Hs)%H. exists id, ext. split_and!; [by left | done..].
  - pose proof (removed_names (hs_recording st) "recording" id) as H. destruct (remove_in (hs_recording st) "recording" id) as [a f].
    split_and!; [done | | done]. intros kind name [-> | ->]; cbn; [done|]. intros (ext & Hn & Hs)%H. exists id, ext. split_and!; [by right | done..].
  - pose proof (sms_sent st w env to body) as Hs. pose proof (sms_refused st w env to body) as Hr. destruct (sms_send cfg st w env to body) as [a w'].
    split_and!; [destruct (sendable st to body); [by apply Hs | by apply Hr] | by intros kind name [-> | ->] | done].
Qed.

(** *** The audio of a stored recording, and its deletion *)

Lemma held_audio files meta h : Recording.holds rec_json files meta h -> exists bytes,
  audio rec_json "recording" files (rf_recording_id meta) = (200, Wav bytes) /\ read_wav bytes = Some (voice h).
Proof.
  intros (Hg & Hw & _). apply bind_Some in Hw as (bytes & Hb & Hw). exists bytes. split; [|done]. unfold audio.
  assert (get rec_json files (sanitize_id (rf_recording_id meta)) = Ok (Some (meta, named (rf_recording_id meta) EXT_WAV))) as -> by (rewrite <- Hg; unfold get; by rewrite !named_again).
  by rewrite Hb.
Qed.
Lemma deleted_gone files id mb : files !! named id EXT_META = Some mb ->
  let '(a, files') := remove_stored "recording" files id in
  a = (204, Text "") /\ audio rec_json "recording" files' id = (404, line "recording not found") /\
  transcript rec_json "recording" files' id = (404, line "recording not found") /\ (remove_stored "recording" files' id).1 = (404, line "recording not found").
Proof.
  intros Hm. pose proof (remove_stored_gone "recording" files id) as Hgone.
  assert ((remove_stored "recording" files id).1 = (204, Text "")) as Ha.
  { unfold remove_stored, delete_file. rewrite !named_again, Hm. by rewrite bool_decide_true. }
  destruct (remove_stored "recording" files id) as [a files']. cbn [fst snd] in *. split; [done|].
  destruct (audio_gone rec_json "recording" files' id) as [A1 A2]; [apply Hgone; right; by left|]. split; [done|]. split; [done|].
  unfold remove_stored, delete_file. rewrite !named_again, !Hgone; [done | by left | right; by left].
Qed.

(** *** A recording, over HTTP *)

Section recorded.
Context (to_json : RecordingFile -> list Z) (transcriber : option (string -> option string)).
Hypothesis json_roundtrip : forall m, rec_json (to_json m) = Some m.

(** C21: what the recorder kept is served until it is deleted. Whatever the recordings, the
    packets and the tasks of the recorder did: a recording whose task goes on needs only
    to be left to run. When it has written the packet at hand and taken those that are
    queued, each way in which it may end leaves a file that is served as a WAV with the
    voice of every packet that was taken for it. One that has ended is answered under its
    id with the voice of the packets taken for it, but for those that were still queued;
    its deletion is answered with a 204, after which its audio, its transcript and another
    deletion are answered with a 404, and every other id as before. *)
Theorem recordings_served (evs : list RecEvent) (i : nat) (t : RecTask) st w env
    (Hev : Forall rec_event_ok evs) (Hst : Z.of_nat (started evs) + 1 < 2 ^ 64) (Hn : 36 + 2 * Z.of_nat (length (voice (fed evs))) < 2 ^ 32) :
  let '(os, r) := rec_run to_json transcriber recorder_new evs in
  rec_tasks r !! i = Some t ->
  match rt_phase t with
  | RecDone result => hs_recording st = Some (rec_files r) ->
      exists meta h bytes, result = Some meta /\ taken_by i os = h ++ rt_queue t /\
      let id := rf_recording_id meta in
      let gone := (404, line "recording not found") in
      let st' := after st w env (RecordingDelete id) in
      answered st w env (RecordingAudio id) = (200, Wav bytes) /\ read_wav bytes = Some (voice h) /\
      answered st w env (RecordingDelete id) = (204, Text "") /\
      answered st' w env (RecordingAudio id) = gone /\ answered st' w env (RecordingTranscript id) = gone /\
      answered st' w env (RecordingDelete id) = gone /\
      forall id', sanitize_id id' <> sanitize_id id ->
        answered st' w env (RecordingAudio id') = answered st w env (RecordingAudio id') /\
        answered st' w env (RecordingTranscript id') = answered st w env (RecordingTranscript id')
  | _ => forall ev, ends i t ev ->
      let '(os', r') := rec_run to_json transcriber r (drain i (length (rt_queue t)) ++ [ev]) in
      exists bytes, os' = [] /\
        answered (set_recording (Some (rec_files r')) st) w env (RecordingAudio (rf_recording_id (rt_file t))) = (200, Wav bytes) /\
        read_wav bytes = Some (voice (taken_by i os))
  end.
Proof.
  pose proof (run_ok to_json rec_json transcriber json_roundtrip evs [] recorder_new (recorder_new_ok _) Hev Hst (fun _ => Hn)) as H.
  pose proof (rec_run_small to_json transcriber evs recorder_new) as Hsm. destruct (rec_run _ _ _ _) as [os r]. intros Ht.
  assert (small r) as Hs by (unfold small; cbn in Hsm; lia). clear Hsm.
  destruct (rt_phase t) as [| pcm | result] eqn:Hp.
  1, 2: intros ev He; destruct (drained_holds to_json rec_json transcriber json_roundtrip os r i t ev H Hs Ht) as (r' & meta & -> & Hid & Hh); [by rewrite Hp | done |];
    rewrite <- Hid; destruct (held_audio (rec_files r') meta (taken_by i os) Hh) as (bytes & Ha & Hw); by exists bytes.
  intros Hf. destruct (ro_task _ _ _ H i t Ht) as [(_ & _ & Hph) _]. rewrite Hp in Hph.
  destruct Hph as (meta & h & -> & _ & Hl & Hh). destruct (held_audio (rec_files r) meta h Hh) as (bytes & Hau & Hw). exists meta, h, bytes.
  destruct Hh as (Hg & _). set (id := rf_recording_id meta) in *. set (files := rec_files r) in *.
  assert (is_Some (files !! named id EXT_META)) as [mb Hm] by (unfold get in Hg; by destruct (files !! named id EXT_META)).
  pose proof (deleted_gone files id mb Hm) as Hd. pose proof (remove_stored_others "recording" files id) as Hoth.
  cbn [serve]. unfold recording_audio, recording_transcript, recording_delete. rewrite Hf. cbn [of_files remove_in].
  destruct (remove_stored "recording" files id) as [a files'] eqn:Hr. destruct Hd as (-> & Hg1 & Hg2 & Hg3). cbn [fst snd] in Hoth. cbn [set_recording hs_recording remove_in of_files fst snd].
  split_and!; [done | done | done | done | done | done | done | by destruct (remove_stored "recording" files' id) |].
  intros id' Hne. split; [apply audio_same | apply transcript_same]; intros ext He; by apply Hoth.
Qed.
End recorded.
End http.

(** ** Samples *)

Definition sample_files : Files := rec_files recorder_end.2.
Definition sample_health : HealthState := set_recording (Some sample_files) (with_sms (health_new true (call_log_new 5))).
Definition sample_env : HttpEnv := mkHttpEnv None (mkRoutes None None) (mkIds 1 2 3) 7 "timeout".
Definition http_config : WebConfig := mkWebConfig sample_uac RateLimiter.default_config None None false.
(** The NGN answers the first MESSAGE, and no other. *)
Definition http_world : world := Handler.mkWorld (web_initial None None Observability.metrics_new (Some (log_new 5))) [] [Some (mkResponse 200 "OK" [] "")] [] [].
Abbreviation sample_served := (serve http_config vm_decode rec_decode (fun _ => "")).

(** The two recordings of [recorder_evs]: the second has ended, with a packet in its
    queue; the first one goes on, with one packet written and one in the queue. *)
Lemma recordings_served_witness :
  (sample_served sample_health http_world sample_env (RecordingAudio "b-5-1")).1.1.1 = 200 /\
  let evs := take 7 recorder_evs ++ [RecFeed "a" (pcmu_packet 2 [0x80])] in
  let r := (rec_run rec_encode None recorder_new evs).2 in
  let r' := (rec_run rec_encode None r (drain 0 1 ++ [RecExpired 0 None None])).2 in
  exists bytes, (sample_served (set_recording (Some (rec_files r')) sample_health) http_world sample_env (RecordingAudio "a-5-0")).1.1 = (200, Wav bytes) /\
    read_wav bytes = Some [0; 32124; 32124].
Proof.
  assert (Forall rec_event_ok recorder_evs) as Hev by (repeat constructor; done). split.
  - destruct (rec_tasks recorder_end.2 !! 1%nat) as [t|] eqn:Ht; [|vm_compute in Ht; discriminate].
    assert (rt_phase t = RecDone (Some (mkRecording "b-5-1" "b" "y" 5 0))) as Hp by (revert Ht; vm_compute; by intros [= <-]).
    pose proof (recordings_served http_config vm_decode rec_decode (fun _ => "") rec_encode None rec_codec recorder_evs 1 t
      sample_health http_world sample_env Hev ltac:(vm_compute; reflexivity) ltac:(vm_compute; reflexivity)) as H.
    unfold sample_health, sample_files, recorder_end in *. destruct (rec_run rec_encode None recorder_new recorder_evs) as [os r].
    specialize (H Ht). rewrite Hp in H. destruct (H eq_refl) as (meta & h & bytes & [= <-] & _ & Ha & _). exact (f_equal fst Ha).
  - set (evs := take 7 recorder_evs ++ [RecFeed "a" (pcmu_packet 2 [0x80])]). cbv zeta.
    assert (Forall rec_event_ok evs) as Hev' by (repeat constructor; done).
    destruct (rec_tasks (rec_run rec_encode None recorder_new evs).2 !! 0%nat) as [t|] eqn:Ht; [|vm_compute in Ht; discriminate].
    assert (rt_phase t = RecWaiting /\ length (rt_queue t) = 1%nat /\ rf_recording_id (rt_file t) = "a-5-0" /\
      voice (taken_by 0 (rec_run rec_encode None recorder_new evs).1) = [0; 32124; 32124]) as (Hp & Hq & Hid & Hv).
    { revert Ht. vm_compute. by intros [= <-]. }
    pose proof (recordings_served http_config vm_decode rec_decode (fun _ => "") rec_encode None rec_codec evs 0 t
      sample_health http_world sample_env Hev' ltac:(vm_compute; reflexivity) ltac:(vm_compute; reflexivity)) as H.
    destruct (rec_run rec_encode None recorder_new evs) as [os r]. cbn [fst snd] in *. specialize (H Ht). rewrite Hp, Hq, Hid, Hv in H.
    specialize (H (RecExpired 0 None None) (or_introl eq_refl)). destruct (rec_run rec_encode None r (drain 0 1 ++ [RecExpired 0 None None])) as [os' r'].
    destruct H as (bytes & _ & H). by exists bytes.
Defined.

(** A short message that is answered, and a name outside the directory that is deleted. *)
Lemma requests_contained_witness :
  let '(a, st', w') := sample_served sample_health http_world sample_env (SmsSend "117" "hi") in
  a = (200, SmsStatusJson 200) /\ messaged http_config sample_env "117" "hi" http_world w' /\
  (map sms_body ∘ MessageLog.entries <$> message_log (shared w')) = Some ["hi"] /\
  (sample_served st' w' sample_env (SmsRecent None)).1.1 = (200, SmsJson [mkSms MessageLog.Outbound (uc_local_uri (uac_config sample_uac)) (web_target_uri http_config "117") "hi" 7]) /\
  (sample_served sample_health http_world sample_env (SmsSend "alice" "hi")).2 = http_world /\
  let '(_, st2, _) := sample_served sample_health http_world sample_env (RecordingDelete "b-5-1") in
  exists id ext, (hs_recording = hs_voicemail /\ RecordingDelete "b-5-1" = VoicemailDelete id \/ hs_recording = hs_recording /\ RecordingDelete "b-5-1" = RecordingDelete id) /\
    "b-5-1.wav" = named id ext /\ all_chars safe_char "b-5-1.wav" = true.
Proof.
  pose proof (requests_contained http_config vm_decode rec_decode (fun _ => "") sample_health http_world sample_env (SmsSend "117" "hi")) as H.
  pose proof (requests_contained http_config vm_decode rec_decode (fun _ => "") sample_health http_world sample_env (SmsSend "alice" "hi")) as H2.
  pose proof (requests_contained http_config vm_decode rec_decode (fun _ => "") sample_health http_world sample_env (RecordingDelete "b-5-1")) as H3.
  assert (let '(_, st', w') := sample_served sample_health http_world sample_env (SmsSend "117" "hi") in
    (map sms_body ∘ MessageLog.entries <$> message_log (shared w')) = Some ["hi"] /\
    (sample_served st' w' sample_env (SmsRecent None)).1.1 = (200, SmsJson [mkSms MessageLog.Outbound (uc_local_uri (uac_config sample_uac)) (web_target_uri http_config "117") "hi" 7])) as Hlog by (by vm_compute).
  assert (let '(_, st', _) := sample_served sample_health http_world sample_env (RecordingDelete "b-5-1") in
    (hs_recording st' ≫= lookup "b-5-1.wav") <> (hs_recording sample_health ≫= lookup "b-5-1.wav")) as Hdel by (by vm_compute).
  destruct (sample_served sample_health http_world sample_env (SmsSend "117" "hi")) as [[a st'] w']. destruct H as [[Ha Hm] _], Hlog as [Hl Hr].
  split; [exact Ha|]. split; [exact Hm|]. split; [exact Hl|]. split; [exact Hr|].
  destruct (sample_served sample_health http_world sample_env (SmsSend "alice" "hi")) as [[a2 st2] w2]. split; [exact (proj1 H2)|].
  destruct (sample_served sample_health http_world sample_env (RecordingDelete "b-5-1")) as [[a3 st3] w3]. destruct H3 as (_ & H3 & _).
  exact (H3 hs_recording "b-5-1.wav" (or_intror eq_refl) Hdel).
Defined.

(** The NGN does not answer: the answer is a 500, where the documentation of the request
    names a 502. *)
Lemma unreachable_sms_is_500 :
  (sample_served sample_health (Handler.mkWorld (web_initial None None Observability.metrics_new None) [] [] [] []) sample_env (SmsSend "117" "hi")).1.1 = (500, line "sms send failed: timeout").
Proof. by vm_compute. Qed.

(** A name outside the directory is one in it. *)
Example names_stay_inside :
  router Delete ["api"; "voicemail"; "../../etc/passwd"] None None = Some (VoicemailDelete "../../etc/passwd") /\
  named "../../etc/passwd" EXT_WAV = ".._.._etc_passwd.wav".
Proof. by vm_compute. Qed.
