(* ===== verification/Settings.v ===== *)
(** The settings (config/mod.rs), the detection of the local address (sip/addr.rs) and
    the SIP servers of DHCP (dhcp/mod.rs).

    TOML and serde are arguments: the text of a file is read as a [Config]. The
    environment is a function, which has no value for a variable that is not set or is
    not UTF-8. The kernel's choice of a source address is an argument. *)
From S2P Require Import Prelude RustStr NetAddr SipMessage TuProg Auth SipFields Intercom Uas Register Routing Sdp.

(** ** Addresses with a port ([SocketAddr::from_str]) *)

(** Digits without a limit to their number. *)
Definition read_decimal (bound : Z) (s : string) : option (Z * string) := read_number 10 (String.length s) true bound s.
Definition read_port (s : string) : option (Z * string) := s ← read_given_char ":" s; read_decimal 65536 s.
(** The scope of an IPv6 address is read; a [SocketAddr] here has none. *)
Definition read_scope (s : string) : string :=
  match (s' ← read_given_char "%" s; read_decimal (2 ^ 32) s') with Some (_, rest) => rest | None => s end.
Definition read_socket_v4 (s : string) : option (SocketAddr * string) :=
  '(l, s) ← read_ipv4_addr s;
  '(p, s) ← read_port s;
  match l with [a; b; c; d] => Some (mkAddr (V4 a b c d) p, s) | _ => None end.
Definition read_socket_v6 (s : string) : option (SocketAddr * string) :=
  s ← read_given_char "[" s;
  '(l, s) ← read_ipv6_addr s;
  let s := read_scope s in
  s ← read_given_char "]" s;
  '(p, s) ← read_port s;
  Some (mkAddr (V6 l) p, s).
Definition parse_socket (s : string) : option SocketAddr :=
  match (match read_socket_v4 s with Some r => Some r | None => read_socket_v6 s end) with
  | Some (a, rest) => if String.eqb rest "" then Some a else None
  | None => None
  end.

Example parse_socket_examples :
  parse_socket "0.0.0.0:5061" = Some (mkAddr (V4 0 0 0 0) 5061) /\
  parse_socket "[::]:5060" = Some (mkAddr (V6 [0; 0; 0; 0; 0; 0; 0; 0]) 5060) /\
  parse_socket "[2001:A7FF:2101:6::F]:05060" = Some (mkAddr (V6 [0x2001; 0xa7ff; 0x2101; 6; 0; 0; 0; 15]) 5060) /\
  parse_socket "[fe80::1%2]:1" = Some (mkAddr (V6 [0xfe80; 0; 0; 0; 0; 0; 0; 1]) 1) /\
  parse_socket "10.0.0.1" = None /\ parse_socket "10.0.0.1:65536" = None /\ parse_socket "::1:5060" = None.
Proof. by vm_compute. Qed.

(** ** The sections *)

Record ExtensionConfig := mkExtension { username : string; ex_password : string }.
Record WebRtcConfig := mkWebRtc {
  secret_hex : option string; register_ttl_secs : Z; backend : string; public_ip : option string;
  udp_port_range : option string; ice_servers : list string; keepalive_interval_secs : Z; idle_timeout_secs : Z }.
Definition webrtc_default : WebRtcConfig := mkWebRtc None 300 "stub" None None [] 30 60.
Record NgnConfig := mkNgn { direct_mode : bool; vendor_class : string }.
Definition ngn_default : NgnConfig := mkNgn false "RX-600KI".
Record BridgeConfig := mkBridge { ngn_bind_ip : option IpAddr; ext_bind_ip : option IpAddr }.
Definition bridge_default : BridgeConfig := mkBridge None None.
Record StorageConfig := mkStorage { st_enabled : bool; storage_dir : string; max_duration_secs : Z }.
Definition voicemail_default : StorageConfig := mkStorage false "/tmp/sabiden-voicemail" 60.
Definition recording_default : StorageConfig := mkStorage false "/tmp/sabiden-recording" 600.
Record TranscriptionConfig := mkTranscription { tr_enabled : bool; tr_backend : string; api_key_env : option string; model_path : option string }.
Definition transcription_default : TranscriptionConfig := mkTranscription false "stub" None None.
Record PushConfig := mkPush { pu_enabled : bool; vapid_private_pem : option string; subject : option string }.
Definition push_default : PushConfig := mkPush false None None.
Record SmsConfig := mkSmsConfig { sms_enabled : bool; max_history : Z }.
Definition sms_default : SmsConfig := mkSmsConfig false 200.
Definition uas_default : UasConfig := mkUasConfig (mkAddr (V4 0 0 0 0) 5061) "sabiden" 3600.
Definition default_health_addr : SocketAddr := mkAddr (V4 0 0 0 0) 8080.

Record Config := mkConfig {
  c_sip : SipConfig; c_health : SocketAddr; c_uas : option UasConfig; c_extensions : list ExtensionConfig; c_trace : option string;
  c_webrtc : WebRtcConfig; c_ngn : NgnConfig; c_bridge : BridgeConfig; c_voicemail : StorageConfig; c_routing : RoutingRules;
  c_recording : StorageConfig; c_transcription : TranscriptionConfig; c_push : PushConfig; c_sms : SmsConfig;
  c_intercom : IntercomConfig; c_dial_aliases : ExtensionAliases }.

(** ** The environment over the file *)

Section env.
Context (env : string -> option string).

Definition some_or {A} (o : option A) (a : A) : A := default a o.
(** [if let Ok(v) = env::var(key) { if let Ok(x) = v.parse() { field = x } }]. *)
Definition parsed {A} (parse : string -> option A) (key : string) (field : A) : A := some_or (v ← env key; parse v) field.
Definition taken (key : string) (field : string) : string := some_or (env key) field.
Definition nonempty (v : string) : option string := if String.eqb v "" then None else Some v.
(** An empty value clears the field. *)
Definition cleared (key : string) (field : option string) : option string :=
  match env key with Some v => nonempty v | None => field end.
(** An empty value leaves the field. *)
Definition unless_empty (key : string) (field : string) : string := some_or (v ← env key; nonempty v) field.
Definition is_true (v : string) : bool :=
  let lower := to_ascii_lowercase v in
  String.eqb lower "true" || String.eqb lower "1" || String.eqb lower "yes" || String.eqb lower "on".
Definition flag (key : string) (field : bool) : bool := match env key with Some v => is_true v | None => field end.

Definition sip_overrides (c : SipConfig) : SipConfig :=
  mkSipConfig
    (parsed parse_socket "SABIDEN_SIP_SERVER_ADDR" (sc_server_addr c))
    (parsed (fun v => Some <$> parse_socket v) "SABIDEN_SIP_BIND_ADDR" (sc_bind_addr c))
    (parsed (fun v => Some <$> parse_socket v) "SABIDEN_SIP_LOCAL_ADDR" (sc_local_addr c))
    (taken "SABIDEN_SIP_PHONE_NUMBER" (phone_number c))
    (taken "SABIDEN_SIP_DOMAIN" (domain c))
    (cleared "SABIDEN_SIP_PASSWORD" (password c))
    (parsed (parse_uint 32) "SABIDEN_SIP_REGISTER_EXPIRES" (register_expires c)).
(** A variable of the section makes it. *)
Definition uas_overrides (u : option UasConfig) : option UasConfig :=
  let u := match (v ← env "SABIDEN_UAS_BIND_ADDR"; parse_socket v) with
           | Some a => let u := default uas_default u in Some (mkUasConfig a (realm u) (max_expires u))
           | None => u
           end in
  match env "SABIDEN_UAS_REALM" with
  | Some v => let u := default uas_default u in Some (mkUasConfig (bind_addr u) v (max_expires u))
  | None => u
  end.
Definition webrtc_overrides (c : WebRtcConfig) : WebRtcConfig :=
  mkWebRtc
    (cleared "SABIDEN_WEBRTC_SECRET_HEX" (secret_hex c))
    (parsed (parse_uint 64) "SABIDEN_WEBRTC_REGISTER_TTL_SECS" (register_ttl_secs c))
    (unless_empty "SABIDEN_WEBRTC_BACKEND" (backend c))
    (cleared "SABIDEN_WEBRTC_PUBLIC_IP" (public_ip c))
    (cleared "SABIDEN_WEBRTC_UDP_PORT_RANGE" (udp_port_range c))
    (match env "SABIDEN_WEBRTC_ICE_SERVERS" with
     | Some v => if String.eqb v "" then [] else map trim (split_on "," v)
     | None => ice_servers c
     end)
    (parsed (parse_uint 64) "SABIDEN_WEBRTC_KEEPALIVE_INTERVAL_SECS" (keepalive_interval_secs c))
    (parsed (parse_uint 64) "SABIDEN_WEBRTC_IDLE_TIMEOUT_SECS" (idle_timeout_secs c)).
Definition ngn_overrides (c : NgnConfig) : NgnConfig :=
  mkNgn (flag "SABIDEN_NGN_DIRECT_MODE" (direct_mode c)) (unless_empty "SABIDEN_NGN_VENDOR_CLASS" (vendor_class c)).
(** A value that is no address clears the field here. *)
Definition bind_ip (key : string) (field : option IpAddr) : option IpAddr :=
  match env key with Some v => v ← nonempty v; parse_ip v | None => field end.
Definition bridge_overrides (c : BridgeConfig) : BridgeConfig :=
  mkBridge (bind_ip "SABIDEN_BRIDGE_NGN_BIND_IP" (ngn_bind_ip c)) (bind_ip "SABIDEN_BRIDGE_EXT_BIND_IP" (ext_bind_ip c)).
Definition voicemail_overrides (c : StorageConfig) : StorageConfig :=
  mkStorage (flag "SABIDEN_VOICEMAIL_ENABLED" (st_enabled c)) (unless_empty "SABIDEN_VOICEMAIL_STORAGE_DIR" (storage_dir c))
    (parsed (parse_uint 64) "SABIDEN_VOICEMAIL_MAX_DURATION_SECS" (max_duration_secs c)).
Definition transcription_overrides (c : TranscriptionConfig) : TranscriptionConfig :=
  mkTranscription (flag "SABIDEN_TRANSCRIPTION_ENABLED" (tr_enabled c)) (unless_empty "SABIDEN_TRANSCRIPTION_BACKEND" (tr_backend c))
    (cleared "SABIDEN_TRANSCRIPTION_API_KEY_ENV" (api_key_env c)) (cleared "SABIDEN_TRANSCRIPTION_MODEL_PATH" (model_path c)).
Definition kept (key : string) (field : option string) : option string :=
  match (v ← env key; nonempty v) with Some v => Some v | None => field end.
Definition push_overrides (c : PushConfig) : PushConfig :=
  mkPush (flag "SABIDEN_PUSH_ENABLED" (pu_enabled c)) (kept "SABIDEN_PUSH_VAPID_PRIVATE_PEM" (vapid_private_pem c)) (kept "SABIDEN_PUSH_SUBJECT" (subject c)).
Definition sms_overrides (c : SmsConfig) : SmsConfig :=
  mkSmsConfig (flag "SABIDEN_SMS_ENABLED" (sms_enabled c)) (parsed (parse_uint 64) "SABIDEN_SMS_MAX_HISTORY" (max_history c)).
Definition intercom_overrides (c : IntercomConfig) : IntercomConfig :=
  mkIntercom (flag "SABIDEN_INTERCOM_ENABLED" (enabled c))
    (parsed (fun v => Z.to_nat <$> parse_uint 64 v) "SABIDEN_INTERCOM_MAX_CONCURRENT_INTERNAL_CALLS" (max_concurrent_internal_calls c)).

Definition apply_env_overrides (c : Config) : Config :=
  mkConfig (sip_overrides (c_sip c)) (parsed parse_socket "SABIDEN_HEALTH_BIND_ADDR" (c_health c)) (uas_overrides (c_uas c)) (c_extensions c)
    (cleared "SABIDEN_TRACE_DIR" (c_trace c)) (webrtc_overrides (c_webrtc c)) (ngn_overrides (c_ngn c)) (bridge_overrides (c_bridge c))
    (voicemail_overrides (c_voicemail c)) (c_routing c) (c_recording c) (transcription_overrides (c_transcription c)) (push_overrides (c_push c))
    (sms_overrides (c_sms c)) (intercom_overrides (c_intercom c)) (c_dial_aliases c).

(** ** Loading *)

Inductive LoadError := NotSet (key : string) | BadServerAddr | ReadFailed | BadToml | ProbeFailed | BadRule (e : RuleError).

Definition env_required (key : string) : outcome LoadError string := ok_or (env key) (NotSet key).
Definition from_env_only : outcome LoadError Config :=
  server ← env_required "SABIDEN_SIP_SERVER_ADDR";
  server_addr ← ok_or (parse_socket server) BadServerAddr;
  phone ← env_required "SABIDEN_SIP_PHONE_NUMBER";
  dom ← env_required "SABIDEN_SIP_DOMAIN";
  mret (mkConfig
    (mkSipConfig server_addr (v ← env "SABIDEN_SIP_BIND_ADDR"; parse_socket v) (v ← env "SABIDEN_SIP_LOCAL_ADDR"; parse_socket v) phone dom
       (v ← env "SABIDEN_SIP_PASSWORD"; nonempty v) (some_or (v ← env "SABIDEN_SIP_REGISTER_EXPIRES"; parse_uint 32 v) 3600))
    default_health_addr None [] None webrtc_default ngn_default bridge_default voicemail_default [] recording_default transcription_default
    push_default sms_default intercom_default ∅).

Context (parse_hm : string -> option Z) (from_toml : string -> option Config).
(** The address the kernel would send from, if a probe can be bound and connected. *)
Context (source_ip : SocketAddr -> option IpAddr).

Definition detect_local_addr (server : SocketAddr) (bind_port : Z) : outcome LoadError SocketAddr :=
  ip ← ok_or (source_ip server) ProbeFailed;
  mret (mkAddr ip bind_port).
Definition set_sip (s : SipConfig) (c : Config) : Config :=
  mkConfig s (c_health c) (c_uas c) (c_extensions c) (c_trace c) (c_webrtc c) (c_ngn c) (c_bridge c) (c_voicemail c) (c_routing c)
    (c_recording c) (c_transcription c) (c_push c) (c_sms c) (c_intercom c) (c_dial_aliases c).
Definition resolve_local_addr (c : Config) : outcome LoadError Config :=
  let s := c_sip c in
  match sc_local_addr s with
  | Some _ => mret c
  | None =>
      detected ← detect_local_addr (sc_server_addr s) (sport (resolved_bind_addr s));
      mret (set_sip (mkSipConfig (sc_server_addr s) (sc_bind_addr s) (Some detected) (phone_number s) (domain s) (password s) (register_expires s)) c)
  end.

(** [file]: [None] when there is none; [Some None] when it cannot be read. *)
Definition load (file : option (option string)) : outcome LoadError Config :=
  config ← match file with
           | Some content => content ← ok_or content ReadFailed; ok_or (from_toml content) BadToml
           | None => from_env_only
           end;
  config ← resolve_local_addr (apply_env_overrides config);
  match validate_rules parse_hm (c_routing config) with
  | Ok _ => mret config
  | Err e => Err (BadRule e)
  | Panic => Panic
  end.
End env.

(** Where the RTP sockets of the two legs are bound (main.rs). *)
Definition bridge_ips (c : BridgeConfig) (local : SocketAddr) : IpAddr * IpAddr :=
  let ngn := default (ip local) (ngn_bind_ip c) in (ngn, default ngn (ext_bind_ip c)).

(** ** The SIP servers of DHCP *)

Definition sip_servers_from_env (raw : option string) : list IpAddr := omap parse_ip (split_whitespace (default "" raw)).

Definition OPTION_120 : string := "option ip-sip-servers".
Definition servers_of_line (line : string) : list IpAddr :=
  let line := trim line in
  if starts_with OPTION_120 line then
    let rest := trim_end_char ";" (trim (trim_start_matches OPTION_120 line)) in
    omap (fun a => parse_ip (trim a)) (split_on "," rest)
  else [].
Definition sip_servers_from_lease_file (content : string) : list IpAddr := concat (map servers_of_line (str_lines content)).
Definition known_ntt_east_servers : list IpAddr :=
  omap parse_ip ["2001:A7FF:2101:6::F"; "2001:A7FF:2101:1::C"; "2001:A7FF:2101::2"; "2001:A7FF:2101:3::F"].
(** The command that shows them (main.rs). *)
Definition discover_sip (lease raw : option string) : list IpAddr :=
  match lease with
  | Some content => sip_servers_from_lease_file content
  | None => match sip_servers_from_env raw with [] => known_ntt_east_servers | l => l end
  end.

(** ** Settings that were loaded *)

Section loaded.
Context (env : string -> option string) (parse_hm : string -> option Z) (from_toml : string -> option Config) (source_ip : SocketAddr -> option IpAddr).

Hypothesis parse_hm_spec : forall s t, parse_hm s = Some t -> exists h m, 0 <= h < 24 /\ 0 <= m < 60 /\ t = from_secs (60 * (60 * h + m)).

(** The variable sets the field: with a value that can be read the field has that
    value, and it keeps the old one if there is no such value. *)
Definition sets {A} (key : string) (read : string -> option A) (old new : A) : Prop :=
  (forall v x, env key = Some v -> read v = Some x -> new = x) /\
  ((forall v, env key = Some v -> read v = None) -> new = old).

(** How values are read: any text; text that is not empty; text where an empty value
    means nothing; a word for yes; an address to bind to, where anything but an address
    means none; a list with commas. *)
Definition text (v : string) : option string := Some v.
Definition filled (v : string) : option string := if decide (v = "") then None else Some v.
Definition optional (v : string) : option (option string) := Some (filled v).
Definition yes (v : string) : option bool := Some (bool_decide (to_ascii_lowercase v ∈ ["true"; "1"; "yes"; "on"])).
Definition bind_address (v : string) : option (option IpAddr) := Some (if decide (v = "") then None else parse_ip v).
Definition comma_list (v : string) : option (list string) := Some (if decide (v = "") then [] else map trim (split_on "," v)).
Definition given {A} (read : string -> option A) (v : string) : option (option A) := Some <$> read v.

(** The settings before the environment: those of the file, or without a file the
    defaults with the three variables that must be there. *)
Definition base_settings (file : option (option string)) (b : Config) : Prop :=
  match file with
  | Some content => exists text, content = Some text /\ from_toml text = Some b
  | None => exists server addr phone dom,
      env "SABIDEN_SIP_SERVER_ADDR" = Some server /\ parse_socket server = Some addr /\
      env "SABIDEN_SIP_PHONE_NUMBER" = Some phone /\ env "SABIDEN_SIP_DOMAIN" = Some dom /\
      b = mkConfig (mkSipConfig addr None None phone dom None 3600) default_health_addr None [] None webrtc_default
            ngn_default bridge_default voicemail_default [] recording_default transcription_default push_default sms_default
            intercom_default ∅
  end.

(** What each variable does to each field. *)
Record configured (b c : Config) : Prop := {
  cf_server : sets "SABIDEN_SIP_SERVER_ADDR" parse_socket (sc_server_addr (c_sip b)) (sc_server_addr (c_sip c));
  cf_bind : sets "SABIDEN_SIP_BIND_ADDR" (given parse_socket) (sc_bind_addr (c_sip b)) (sc_bind_addr (c_sip c));
  cf_phone : sets "SABIDEN_SIP_PHONE_NUMBER" text (phone_number (c_sip b)) (phone_number (c_sip c));
  cf_domain : sets "SABIDEN_SIP_DOMAIN" text (domain (c_sip b)) (domain (c_sip c));
  cf_password : sets "SABIDEN_SIP_PASSWORD" optional (password (c_sip b)) (password (c_sip c));
  cf_expires : sets "SABIDEN_SIP_REGISTER_EXPIRES" (parse_uint 32) (register_expires (c_sip b)) (register_expires (c_sip c));
  (** The local address is the one that is given, or the one the kernel would send to
      the server from, with the port that is listened on. *)
  cf_local : exists local, sets "SABIDEN_SIP_LOCAL_ADDR" (given parse_socket) (sc_local_addr (c_sip b)) local /\
    match local with
    | Some a => sc_local_addr (c_sip c) = Some a
    | None => exists ip, source_ip (sc_server_addr (c_sip c)) = Some ip /\
        sc_local_addr (c_sip c) = Some (mkAddr ip (match sc_bind_addr (c_sip c) with Some a => sport a | None => 5060 end))
    end;
  cf_health : sets "SABIDEN_HEALTH_BIND_ADDR" parse_socket (c_health b) (c_health c);
  (** Either variable makes the section where there is none. *)
  cf_uas : let bound := v ← env "SABIDEN_UAS_BIND_ADDR"; parse_socket v in
    (bound = None /\ env "SABIDEN_UAS_REALM" = None /\ c_uas c = c_uas b) \/
    (is_Some bound \/ is_Some (env "SABIDEN_UAS_REALM")) /\
    exists u, c_uas c = Some u /\ let old := default uas_default (c_uas b) in
      sets "SABIDEN_UAS_BIND_ADDR" parse_socket (bind_addr old) (bind_addr u) /\
      sets "SABIDEN_UAS_REALM" text (realm old) (realm u) /\ max_expires u = max_expires old;
  cf_trace : sets "SABIDEN_TRACE_DIR" optional (c_trace b) (c_trace c);
  cf_secret : sets "SABIDEN_WEBRTC_SECRET_HEX" optional (secret_hex (c_webrtc b)) (secret_hex (c_webrtc c));
  cf_ttl : sets "SABIDEN_WEBRTC_REGISTER_TTL_SECS" (parse_uint 64) (register_ttl_secs (c_webrtc b)) (register_ttl_secs (c_webrtc c));
  cf_backend : sets "SABIDEN_WEBRTC_BACKEND" filled (backend (c_webrtc b)) (backend (c_webrtc c));
  cf_public : sets "SABIDEN_WEBRTC_PUBLIC_IP" optional (public_ip (c_webrtc b)) (public_ip (c_webrtc c));
  cf_ports : sets "SABIDEN_WEBRTC_UDP_PORT_RANGE" optional (udp_port_range (c_webrtc b)) (udp_port_range (c_webrtc c));
  cf_ice : sets "SABIDEN_WEBRTC_ICE_SERVERS" comma_list (ice_servers (c_webrtc b)) (ice_servers (c_webrtc c));
  cf_keepalive : sets "SABIDEN_WEBRTC_KEEPALIVE_INTERVAL_SECS" (parse_uint 64)
    (keepalive_interval_secs (c_webrtc b)) (keepalive_interval_secs (c_webrtc c));
  cf_idle : sets "SABIDEN_WEBRTC_IDLE_TIMEOUT_SECS" (parse_uint 64) (idle_timeout_secs (c_webrtc b)) (idle_timeout_secs (c_webrtc c));
  cf_direct : sets "SABIDEN_NGN_DIRECT_MODE" yes (direct_mode (c_ngn b)) (direct_mode (c_ngn c));
  cf_vendor : sets "SABIDEN_NGN_VENDOR_CLASS" filled (vendor_class (c_ngn b)) (vendor_class (c_ngn c));
  cf_ngn_ip : sets "SABIDEN_BRIDGE_NGN_BIND_IP" bind_address (ngn_bind_ip (c_bridge b)) (ngn_bind_ip (c_bridge c));
  cf_ext_ip : sets "SABIDEN_BRIDGE_EXT_BIND_IP" bind_address (ext_bind_ip (c_bridge b)) (ext_bind_ip (c_bridge c));
  cf_vm : sets "SABIDEN_VOICEMAIL_ENABLED" yes (st_enabled (c_voicemail b)) (st_enabled (c_voicemail c));
  cf_vm_dir : sets "SABIDEN_VOICEMAIL_STORAGE_DIR" filled (storage_dir (c_voicemail b)) (storage_dir (c_voicemail c));
  cf_vm_max : sets "SABIDEN_VOICEMAIL_MAX_DURATION_SECS" (parse_uint 64) (max_duration_secs (c_voicemail b)) (max_duration_secs (c_voicemail c));
  cf_tr : sets "SABIDEN_TRANSCRIPTION_ENABLED" yes (tr_enabled (c_transcription b)) (tr_enabled (c_transcription c));
  cf_tr_backend : sets "SABIDEN_TRANSCRIPTION_BACKEND" filled (tr_backend (c_transcription b)) (tr_backend (c_transcription c));
  cf_tr_key : sets "SABIDEN_TRANSCRIPTION_API_KEY_ENV" optional (api_key_env (c_transcription b)) (api_key_env (c_transcription c));
  cf_tr_model : sets "SABIDEN_TRANSCRIPTION_MODEL_PATH" optional (model_path (c_transcription b)) (model_path (c_transcription c));
  cf_push : sets "SABIDEN_PUSH_ENABLED" yes (pu_enabled (c_push b)) (pu_enabled (c_push c));
  cf_pem : sets "SABIDEN_PUSH_VAPID_PRIVATE_PEM" (given filled) (vapid_private_pem (c_push b)) (vapid_private_pem (c_push c));
  cf_subject : sets "SABIDEN_PUSH_SUBJECT" (given filled) (subject (c_push b)) (subject (c_push c));
  cf_sms : sets "SABIDEN_SMS_ENABLED" yes (sms_enabled (c_sms b)) (sms_enabled (c_sms c));
  cf_history : sets "SABIDEN_SMS_MAX_HISTORY" (parse_uint 64) (max_history (c_sms b)) (max_history (c_sms c));
  cf_intercom : sets "SABIDEN_INTERCOM_ENABLED" yes (enabled (c_intercom b)) (enabled (c_intercom c));
  cf_max_calls : sets "SABIDEN_INTERCOM_MAX_CONCURRENT_INTERNAL_CALLS" (fun v => Z.to_nat <$> parse_uint 64 v)
    (max_concurrent_internal_calls (c_intercom b)) (max_concurrent_internal_calls (c_intercom c));
  (** No variable speaks of the rest. *)
  cf_rest : c_extensions c = c_extensions b /\ c_routing c = c_routing b /\ c_recording c = c_recording b /\
    c_dial_aliases c = c_dial_aliases b }.

(** What the code does with a variable, in these terms. *)
Lemma parsed_sets {A} (read : string -> option A) key old : sets key read old (parsed env read key old).
Proof.
  unfold sets, parsed, some_or. split; [by intros v x -> H; cbn; rewrite H|]. destruct (env key) as [v|]; [|done].
  intros H. cbn. by rewrite H.
Qed.
Lemma taken_sets key old : sets key text old (taken env key old).
Proof. unfold sets, taken, some_or, text. split; [by intros v x -> [= <-]|]. destruct (env key); [|done]. intros H. by specialize (H _ eq_refl). Qed.
Lemma filled_nonempty v : filled v = nonempty v.
Proof. unfold filled, nonempty. by destruct (String.eqb_spec v ""), (decide (v = "")). Qed.
Lemma cleared_sets key old : sets key optional old (cleared env key old).
Proof.
  unfold sets, cleared, optional. split; [intros v x -> [= <-]; by rewrite filled_nonempty|]. destruct (env key); [|done].
  intros H. by specialize (H _ eq_refl).
Qed.
Lemma unless_empty_sets key old : sets key filled old (unless_empty env key old).
Proof.
  unfold sets, unless_empty, some_or. split; [by intros v x ->; rewrite filled_nonempty; cbn; intros ->|].
  destruct (env key); [|done]. intros H. specialize (H _ eq_refl). rewrite filled_nonempty in H. cbn. by rewrite H.
Qed.
Lemma kept_sets key old : sets key (given filled) old (kept env key old).
Proof.
  unfold sets, kept, given. split.
  - intros v x -> (y & Hy & ->)%fmap_Some. rewrite filled_nonempty in Hy. cbn. by rewrite Hy.
  - destruct (env key); [|done]. intros H. specialize (H _ eq_refl). apply fmap_None in H. rewrite filled_nonempty in H. cbn. by rewrite H.
Qed.
Lemma flag_sets key old : sets key yes old (flag env key old).
Proof.
  unfold sets, flag, yes. split.
  - intros v x -> [= <-]. apply bool_decide_iff. unfold is_true. rewrite !orb_true_iff, !String.eqb_eq, !elem_of_cons, elem_of_nil. tauto.
  - destruct (env key); [|done]. intros H. by specialize (H _ eq_refl).
Qed.
Lemma bind_ip_sets key old : sets key bind_address old (bind_ip env key old).
Proof.
  unfold sets, bind_ip, bind_address. split.
  - intros v x -> [= <-]. rewrite <- filled_nonempty. unfold filled. by destruct (decide (v = "")).
  - destruct (env key); [|done]. intros H. by specialize (H _ eq_refl).
Qed.

Lemma base_configured file c : match file with
    | Some content => content ← ok_or content ReadFailed; ok_or (from_toml content) BadToml
    | None => from_env_only env
    end = Ok c ->
  exists b, base_settings file b /\ apply_env_overrides env c = apply_env_overrides env b.
Proof.
  destruct file as [[text|]|]; cbn.
  - destruct (from_toml text) eqn:Ht; [|done]. intros [= <-]. exists c0. split; [by exists text | done].
  - done.
  - unfold from_env_only, env_required. intros H. inv_outcome. subst c. eexists. split; [by eauto 12|].
    unfold apply_env_overrides, sip_overrides, parsed, taken, cleared, some_or. cbn.
    destruct (env "SABIDEN_SIP_BIND_ADDR") as [v|]; cbn; [destruct (parse_socket v); cbn|];
    (destruct (env "SABIDEN_SIP_LOCAL_ADDR") as [v'|]; cbn; [destruct (parse_socket v'); cbn|]);
    (destruct (env "SABIDEN_SIP_PASSWORD"); cbn); (destruct (env "SABIDEN_SIP_REGISTER_EXPIRES") as [v''|]; cbn; [destruct (parse_uint 32 v''); cbn|]);
    done.
Qed.

Lemma overrides_configured b c : resolve_local_addr source_ip (apply_env_overrides env b) = Ok c ->
  configured b c /\ is_Some (sc_local_addr (c_sip c)).
Proof.
  intros H. pose proof (parsed_sets (given parse_socket) "SABIDEN_SIP_LOCAL_ADDR" (sc_local_addr (c_sip b))) as Hlocal.
  unfold resolve_local_addr in H. cbn [c_sip apply_env_overrides sc_local_addr sip_overrides] in H.
  change (fun v => Some <$> parse_socket v) with (given parse_socket) in H.
  set (local := parsed env (given parse_socket) "SABIDEN_SIP_LOCAL_ADDR" _) in *.
  assert (c_health c = c_health (apply_env_overrides env b) /\ c_uas c = c_uas (apply_env_overrides env b) /\
    c_extensions c = c_extensions b /\ c_trace c = c_trace (apply_env_overrides env b) /\
    c_webrtc c = webrtc_overrides env (c_webrtc b) /\ c_ngn c = ngn_overrides env (c_ngn b) /\
    c_bridge c = bridge_overrides env (c_bridge b) /\ c_voicemail c = voicemail_overrides env (c_voicemail b) /\
    c_routing c = c_routing b /\ c_recording c = c_recording b /\ c_transcription c = transcription_overrides env (c_transcription b) /\
    c_push c = push_overrides env (c_push b) /\ c_sms c = sms_overrides env (c_sms b) /\
    c_intercom c = intercom_overrides env (c_intercom b) /\ c_dial_aliases c = c_dial_aliases b /\
    (let s := sip_overrides env (c_sip b) in
     sc_server_addr (c_sip c) = sc_server_addr s /\ sc_bind_addr (c_sip c) = sc_bind_addr s /\
     phone_number (c_sip c) = phone_number s /\ domain (c_sip c) = domain s /\ password (c_sip c) = password s /\
     register_expires (c_sip c) = register_expires s) /\
    match local with
    | Some a => sc_local_addr (c_sip c) = Some a
    | None => exists ip, source_ip (sc_server_addr (c_sip c)) = Some ip /\
        sc_local_addr (c_sip c) = Some (mkAddr ip (match sc_bind_addr (c_sip c) with Some a => sport a | None => 5060 end))
    end) as Hc.
  { destruct local as [a|] eqn:Hl.
    - injection H as <-. cbn. unfold local in Hl. change (fun v => Some <$> parse_socket v) with (given parse_socket). by split_and!.
    - unfold detect_local_addr in H. inv_outcome. subst c. cbn. split_and!; try done. eexists. split; [done|].
      rewrite <- Heq. unfold resolved_bind_addr. cbn. by case_match. }
  destruct Hc as (E1 & E2 & E3 & E4 & E5 & E6 & E7 & E8 & E9 & E10 & E11 & E12 & E13 & E14 & E15 & (S1 & S2 & S3 & S4 & S5 & S6) & Hloc).
  split; [|destruct local as [a|]; [by rewrite Hloc | by destruct Hloc as (ip & _ & ->)]].
  split; rewrite ?E1, ?E2, ?E4, ?E5, ?E6, ?E7, ?E8, ?E11, ?E12, ?E13, ?E14, ?S1, ?S2, ?S3, ?S4, ?S5, ?S6;
    try first [apply parsed_sets | apply taken_sets | apply cleared_sets | apply unless_empty_sets | apply kept_sets |
      apply flag_sets | apply bind_ip_sets | by split_and!].
  - exists local. split; [exact Hlocal|]. rewrite <- S1, <- S2. exact Hloc.
  - cbv zeta. unfold apply_env_overrides, uas_overrides. cbn [c_uas].
    destruct (v ← env "SABIDEN_UAS_BIND_ADDR"; parse_socket v) as [a|] eqn:Hb; destruct (env "SABIDEN_UAS_REALM") as [r|] eqn:Hr.
    + right. split; [by left; eexists|]. eexists. split; [done|]. cbn.
      split_and!; [| by split; [intros v x; rewrite Hr; unfold text; congruence | intros H'; by specialize (H' _ Hr)] | done].
      apply bind_Some in Hb as (v & Hv & Ha). split; [intros v' x Hv' Hx; congruence | intros H'; specialize (H' _ Hv); congruence].
    + right. split; [by left; eexists|]. eexists. split; [done|]. cbn.
      split_and!; [| by split; [intros v x; rewrite Hr | done] | done].
      apply bind_Some in Hb as (v & Hv & Ha). split; [intros v' x Hv' Hx; congruence | intros H'; specialize (H' _ Hv); congruence].
    + right. split; [right; by eexists|]. eexists. split; [done|]. cbn.
      split_and!; [| by split; [intros v x; rewrite Hr; unfold text; congruence | intros H'; by specialize (H' _ Hr)] | done].
      split; [|done]. intros v x Hv Hx. rewrite Hv in Hb. cbn in Hb. congruence.
    + by left.
  - unfold webrtc_overrides. cbn. unfold sets, comma_list. split.
    + intros v x -> [= <-]. by destruct (String.eqb_spec v ""), (decide (v = "")).
    + destruct (env "SABIDEN_WEBRTC_ICE_SERVERS"); [|done]. intros H'. by specialize (H' _ eq_refl).
Qed.

End loaded.

(** ** Servers that are read back *)

Lemma ends_trimmed s t a b : is_graph a = true -> is_graph b = true -> s = String a t -> (exists r, s = r +:+ String b "") -> trimmed s.
Proof.
  intros Ha Hb -> [r Hr]. split; [by apply strip_ws_graph|]. rewrite Hr, str_rev_app. by apply strip_ws_rev_graph.
Qed.
Lemma print_ip_first a : ip_ok a -> exists c t, print_ip a = String c t /\ is_graph c = true.
Proof.
  intros Ha. pose proof (print_ip_word a Ha) as Hw. pose proof (print_ip_addr a) as Hc. destruct (print_ip a) as [|c t]; [done|].
  exists c, t. split; [done|]. cbn in Hc. apply addr_graph. by apply andb_true_iff in Hc as [? _].
Qed.
Lemma join_space x l : join ", " (x :: l) = join "," (x :: map (fun y => String " " y) l).
Proof.
  revert x. induction l as [|y l IH]; intros x; [done|]. change (join ", " (x :: y :: l)) with (x +:+ ", " +:+ join ", " (y :: l)).
  rewrite IH. by destruct l.
Qed.
Lemma ip_trimmed a : ip_ok a -> trimmed (print_ip a).
Proof.
  intros Ha. destruct (print_ip_first a Ha) as (c & t & Hp & Hc). split; [rewrite Hp; by apply strip_ws_graph|].
  pose proof (print_ip_addr a) as Hall. rewrite <- all_chars_rev in Hall. destruct (str_rev (print_ip a)) as [|d r]; [done|].
  apply strip_ws_rev_graph, addr_graph. cbn in Hall. by apply andb_true_iff in Hall as [? _].
Qed.
Lemma omap_map_id {A B} (f : A -> B) (g : B -> option A) l : Forall (fun a => g (f a) = Some a) l -> omap g (map f l) = l.
Proof. induction 1 as [|a l Ha _ IH]; cbn; [done|]. by rewrite Ha, IH. Qed.

Lemma trim_end_char_none c s : no_char c s = true -> trim_end_char c s = s.
Proof.
  unfold trim_end_char, no_char. rewrite <- all_chars_rev. intros H. destruct (str_rev s) as [|d r] eqn:Hr; [by rewrite <- (str_rev_invol s), Hr|].
  cbn in H. apply andb_true_iff in H as [H%negb_true_iff _]. cbn. rewrite H, <- Hr. apply str_rev_invol.
Qed.

(** The servers that DHCP gives are read back. Printed in a line of the lease file, or
    in the variable of the hook script, any list of addresses is read as it was. *)
Theorem dhcp_servers_read (ips : list IpAddr) (Hok : Forall ip_ok ips) (Hne : ips <> []) :
  servers_of_line ("  option ip-sip-servers " +:+ join ", " (map print_ip ips) +:+ ";") = ips /\
  discover_sip None (Some (join " " (map print_ip ips))) = ips.
Proof.
  assert (forall a, ip_ok a -> parse_ip (print_ip a) = Some a) as Hp by apply parse_print_ip. split.
  - destruct ips as [|x l]; [done|]. apply Forall_cons in Hok as [Hx Hl].
    unfold servers_of_line. cbn [map]. set (J := join ", " (print_ip x :: map print_ip l)).
    destruct (print_ip_first x Hx) as (c & t & Hc & Hg).
    assert (exists t', J = String c t') as [t' HJ] by (unfold J; rewrite Hc; destruct l; by eexists).
    assert (trim ("  option ip-sip-servers " +:+ J +:+ ";") = OPTION_120 +:+ String " " (J +:+ ";")) as ->.
    { change ("  option ip-sip-servers " +:+ J +:+ ";") with (String " " (String " " (OPTION_120 +:+ String " " (J +:+ ";")))).
      unfold trim. rewrite trim_start_space. apply trim_space. eapply (ends_trimmed _ _ "o" ";"); [done | done | done |].
      exists (OPTION_120 +:+ String " " J). by rewrite str_app_assoc. }
    assert (starts_with OPTION_120 (OPTION_120 +:+ String " " (J +:+ ";")) = true) as -> by (apply bool_decide_eq_true; by rewrite strip_prefix_app).
    rewrite trim_start_once by done.
    rewrite trim_space; [|eapply (ends_trimmed _ _ c ";"); [done | done | by rewrite HJ | by exists J]].
    rewrite trim_end_char_drop.
    assert (trim_end_char ";" J = J) as ->.
    { assert (no_char ";" J = true) as Hn; [|by apply trim_end_char_none].
      unfold J. rewrite join_space. clear. revert x. induction l as [|y l IH]; intros x; [apply addr_no_char; [done | apply print_ip_addr]|].
      cbn [map] in *. change (join "," (print_ip x :: String " " (print_ip y) :: map (fun z => String " " z) (map print_ip l)))
        with (print_ip x +:+ "," +:+ join "," (String " " (print_ip y) :: map (fun z => String " " z) (map print_ip l))).
      unfold no_char in *. rewrite !all_chars_app. apply andb_true_iff. split; [apply addr_no_char; [done | apply print_ip_addr]|].
      specialize (IH y). cbn [all_chars]. destruct l; exact IH. }
    unfold J. rewrite join_space, (split_on_join ","); [|constructor|done].
    + cbn [omap list_omap]. rewrite trim_id, Hp by (by apply ip_trimmed || done). f_equal. rewrite map_map. apply omap_map_id.
      eapply Forall_impl; [exact Hl|]. intros y Hy. cbn. rewrite trim_space by by apply ip_trimmed. by apply Hp.
    + apply addr_no_char; [done | apply print_ip_addr].
    + rewrite map_map. apply Forall_map, Forall_true. intros y.
      assert (no_char "," (print_ip y) = true) as Hy by (apply addr_no_char; [done | apply print_ip_addr]). unfold no_char in *. cbn [all_chars]. by rewrite Hy.
  - unfold discover_sip, sip_servers_from_env. cbn [from_option id]. rewrite split_whitespace_join.
    + rewrite omap_map_id by (eapply Forall_impl; [exact Hok | apply Hp]). by destruct ips.
    + apply Forall_map. eapply Forall_impl; [exact Hok|]. apply print_ip_word.
Qed.

(** ** Samples *)

Definition sample_env (key : string) : option string :=
  if String.eqb key "SABIDEN_SIP_SERVER_ADDR" then Some "[2001:db8::f]:5060"
  else if String.eqb key "SABIDEN_SIP_PHONE_NUMBER" then Some "0312345678"
  else if String.eqb key "SABIDEN_SIP_DOMAIN" then Some "ntt-east.ne.jp"
  else if String.eqb key "SABIDEN_SIP_BIND_ADDR" then Some "0.0.0.0:5070"
  else if String.eqb key "SABIDEN_WEBRTC_KEEPALIVE_INTERVAL_SECS" then Some "0"
  else if String.eqb key "SABIDEN_BRIDGE_NGN_BIND_IP" then Some "eth1"
  else if String.eqb key "SABIDEN_VAPID_PRIVATE_PEM" then Some "-----BEGIN"
  else None.
(** A file that has a routing rule, and an address for the bridge. *)
Definition sample_toml (content : string) : option Config :=
  if String.eqb content "toml" then
    Some (mkConfig (mkSipConfig (mkAddr (V4 10 0 0 9) 5060) None (Some (mkAddr (V4 10 0 0 1) 5060)) "1" "d" None 3600) default_health_addr None [] None
      webrtc_default ngn_default (mkBridge (Some (V4 10 0 0 1)) None) voicemail_default sample_rules recording_default transcription_default
      push_default sms_default intercom_default ∅)
  else None.
Definition sample_source (server : SocketAddr) : option IpAddr := Some (V6 [0x2001; 0xdb8; 0; 0; 0; 0; 0; 1]).
Definition sample_settings (file : option (option string)) : outcome LoadError Config :=
  load sample_env sample_hm sample_toml sample_source file.


(** Without a file and without [local_addr]: the address of the probe, with the port that
    is listened on. *)
Example address_is_found :
  match sample_settings None with
  | Ok c => sc_local_addr (c_sip c) = Some (mkAddr (V6 [0x2001; 0xdb8; 0; 0; 0; 0; 0; 1]) 5070)
  | _ => False
  end.
Proof. by vm_compute. Qed.

Lemma dhcp_servers_read_witness :
  discover_sip None (Some "124.245.0.1 2001:db8::1") = [V4 124 245 0 1; V6 [0x2001; 0xdb8; 0; 0; 0; 0; 0; 1]].
Proof.
  apply (fun H1 H2 => proj2 (dhcp_servers_read [V4 124 245 0 1; V6 [0x2001; 0xdb8; 0; 0; 0; 0; 0; 1]] H1 H2)); [|done].
  repeat constructor; cbn; unfold uN; lia.
Defined.

(** A keepalive interval of nothing is taken over; [tokio::time::interval] panics on it. *)
Lemma keepalive_of_zero_accepted :
  match sample_settings None with Ok c => keepalive_interval_secs (c_webrtc c) = 0 | _ => False end.
Proof. by vm_compute. Qed.
(** A bind address that cannot be read takes the one of the file away; other values that
    cannot be read leave theirs. *)
Lemma bad_bind_ip_clears :
  match sample_settings (Some (Some "toml")) with Ok c => ngn_bind_ip (c_bridge c) = None | _ => False end.
Proof. by vm_compute. Qed.
(** The variable that the documentation of web push names is not read. *)
Lemma documented_pem_ignored :
  match sample_settings None with Ok c => vapid_private_pem (c_push c) = None | _ => False end.
Proof. by vm_compute. Qed.
